(* ===== verification/_CoqProject ===== *)
-Q . S2P
Prelude.v
FastQueue.v
FlowTypes.v
JsLib.v
SyncTypes.v
ClientId.v
SyncService.v
SyncServiceFacts.v
SyncSystem.v
SyncGuarantees.v
Json.v
RunEvents.v
EdgeModel.v
ServiceNames.v
Graph.v
ScenarioTranslator.v
TranslatorFacts.v
WorkflowBundle.v
BundleFacts.v
SyncMiddleware.v
LastWriter.v
WorkflowStore.v
ScenarioStore.v
ExecutionStore.v
ScenarioRunStore.v
TestResultStore.v
Process.v
ServerInput.v
Database.v
Projects.v
ProjectFacts.v
JsonParse.v
Accounts.v
AccountFacts.v
AgentAccess.v
AgentFacts.v
ServerRoutes.v
RouteFacts.v
AgentService.v
AgentRoutes.v
AgentRouteFacts.v
ServerSystem.v
TestRetry.v
RegistryConfig.v
RegistryFacts.v
ServerPages.v
RunSnapshot.v
RunReplay.v
RunReplayFacts.v
RunPage.v
Browser.v
SyncHydration.v
SyncHydrationFacts.v
SyncProvider.v
RealtimeLogs.v
RealtimeFacts.v
RunWorkflow.v
RunWorkflowFacts.v
Canvas.v
Journey.v
GraphEditor.v
Builder.v
CanvasFacts.v
BuilderFacts.v
Defaults.v
DefaultsFacts.v
Templates.v
ClientState.v
LegacyStores.v
RunCockpit.v
CockpitFacts.v
WorkflowListPage.v
WorkflowListFacts.v
ScenarioEditor.v
ServiceDialog.v
FieldEditors.v
RunHistory.v
Docs.v
TestFields.v
Dialogs.v
