(* ===== verification/Prelude.v ===== *)
(** * Tokyo Tester: a verification development of the [ui-v2] application

    Tokyo Tester lets a team draw a system of services as a graph, attach test
    scenarios to it and run them in containers.  The TypeScript application
    under [src/ui-v2] keeps workflows, scenarios and runs in the browser,
    synchronises them with a server, checks a graph and translates it to the
    configuration that the Go runner executes.  This library models that core
    and proves what it promises.

    ** The program's parts and the files that model them

    _Synchronisation_ ([src/ui-v2/src/modules/sync], [src/ui-v2/src/lib]).
    - [FastQueue.v], module [FastQueue]: [fast-queue.ts].  A record with the
      buffer, head, tail, size and capacity of the ring buffer, one definition
      per method.  The class [Deque] is what a client may rely on (a
      representation relation to lists and one law per operation);
      [fast_queue_deque] is the instance.
    - [SyncTypes.v]: [sync-types.ts].  [ClientId.v]: [client-id.ts] and
      [generate-id.ts] over a record [Host] of what the code reads of the
      browser.
    - [SyncService.v]: [sync-service.ts] and [sync-init.ts], for any [Deque].  A
      [World] is the service, the storage slot that mirrors its queue, the
      browser and the conflict events dispatched.  A method that awaits the
      network is split at each [await] into a step that ends in
      [Waiting request pending] and [resume], which takes the answer.
      [SyncServiceFacts.v] has the lemmas about each operation;
      [SyncSystem.v] the step relation in which queueing, flushing, replies
      and changes of the browser interleave with any number of batches in
      flight; [SyncGuarantees.v] the theorems about single operations.
    - [SyncMiddleware.v]: [sync-middleware.ts], which the stores use: the tracker
      of operations, the wrapped [set] and its microtasks, the sync metadata.

    _Stores_ ([src/ui-v2/src/modules/workflow/stores]).  [WorkflowStore.v],
    [ScenarioStore.v], [ExecutionStore.v], [ScenarioRunStore.v] and
    [TestResultStore.v] each hold a module of the same name: the state record
    of the store, one definition per action in the monad [StoreM], the
    serializer and the options passed to the middleware.  [turn] runs an action
    and then its microtasks, which call [queueChange] of the service.
    [LastWriter.v] is the rule by which server copies replace local ones.

    _Workflows_ ([src/ui-v2/src/modules/workflow], [src/ui-v2/src/modules/utils]).
    - [FlowTypes.v]: [types/react-flow-cots.ts].  [Json.v]: the JSON of these
      types.  [EdgeModel.v]: [lib/edge-model.ts].
    - [ServiceNames.v], [Graph.v], [ScenarioTranslator.v]:
      [scenario-translator.ts] and [react-flow-translator.ts] (names and
      references, graph walks, validation and translation);
      [TranslatorFacts.v] has their theorems.
    - [WorkflowBundle.v]: [lib/workflow-bundle.ts]; [BundleFacts.v] has the
      theorems.
    - [RunEvents.v]: [lib/realtime-events.ts] and [lib/workflow-run-events.ts].
    - [RunSnapshot.v]: [lib/workflow-run-snapshot.ts], over the three run stores
      together.  [RunReplay.v]: [lib/runner-client.ts], and the runner's pages of
      a log ([runner-v2/pkg/api/workflow_handlers.go],
      [runner-v2/pkg/db/mysql/workflow_jobs.go]); [RunReplayFacts.v] has the
      theorem about replaying a log that grows.  [RunPage.v]: the events that
      [components/WorkflowRunPage.tsx] keeps, as a step relation.
    - [TestRetry.v]: [lib/test-retry-policy.ts], and the decision of the runner
      ([runner-v2/pkg/test/retry.go]).  [RegistryConfig.v], [RegistryFacts.v]:
      [lib/registry-config.ts] and [stores/registry-secret-store.ts].

    _Browser_ ([sync], [workflow/hooks], [workflow/lib], [workflow/components],
    [src/ui-v2/src/lib]).  [Browser.v] puts the five synchronised stores and the
    service side by side: a [BrowserM] is the code of one task, and [settle] the
    microtask checkpoint after it.
    - [SyncHydration.v], [SyncHydrationFacts.v]: [sync-hydration.ts], what the
      server's answer does to the stores.  [SyncProvider.v]: [SyncProvider.tsx], conflicts, start and stop.
      [ClientState.v]: what logging out and changing the
      project clear, and the choice of the active project.
    - [RealtimeLogs.v], [RealtimeFacts.v]: [useRealtimeLogs.tsx], the event stream
      of a run.  [RunWorkflow.v], [RunWorkflowFacts.v]: [useWorkflowExecution.tsx],
      starting a run, and the completion listener of [useRealTimeTestReults.tsx].
      [RunCockpit.v], [CockpitFacts.v]: the rest of [WorkflowRunPage.tsx] and
      [ExecutionServiceMap.tsx], what the page of a run derives and selects.
    - [Canvas.v], [Journey.v], [GraphEditor.v], [Builder.v] with [CanvasFacts.v]
      and [BuilderFacts.v]: [architecture-view.ts], [connection-suggestions.ts],
      [workflow-presentation.ts], [scenario-journey.ts], [builder-experience.ts],
      [useWorkflowGraph.tsx], [ui.store.ts], the shortcuts and what
      [FlowBuilder/index.tsx] derives.
    - [Defaults.v], [DefaultsFacts.v], [Templates.v]:
      [workflow-defaults.ts], [scenario-recipes.ts], the parsers of
      [TestConfigForm.tsx], [workflow-templates.ts] and [node-factory.ts].
    - [WorkflowListPage.v], [WorkflowListFacts.v]: [Workflowlist.tsx].
      [ScenarioEditor.v]: [ScenarioManager.tsx].
      [LegacyStores.v]: the stores that are not synchronised.
    - [TestFields.v]: the inputs of [TestConfigForm.tsx].
      [ServiceDialog.v]: [ServiceConfigForm.tsx],
      [RegistryConfigForm.tsx], [NodeConfigDialog.tsx].  [FieldEditors.v]: [DraftFields.tsx], [MockServerExpectationEditor.tsx].
    - [RunHistory.v]: [ExecutionHistory.tsx],
      [WorkflowLogsDrawer.tsx].  [Dialogs.v]:
      [GuidedWorkflowWorkspace.tsx], [NodeDrawer.tsx], [EdgeConfigDialog.tsx],
      [WorkflowVersionsDialog.tsx], [ScenarioJourney.tsx], [ScenarioDialog.tsx] and
      what [FlowCanvas.tsx] highlights.  [Docs.v]: the in-app
      documentation ([modules/docs], [app/docs]).

    _Server_ ([src/ui-v2/src/modules/projects], [auth], [admin], [agent],
    [src/ui-v2/src/app/api], [src/ui-v2/proxy.ts], [src/ui-v2/src/db]).
    - [Process.v]: code that awaits.  [Proc D A] is a computation over a shared
      state that may be interrupted at each await; [run] is its execution alone,
      [pool_step] any interleaving of several, and [wp] the rely-guarantee logic
      in which a task is verified once for all interleavings.
    - [Database.v]: the class [Engine] is what the code relies on of SQL (a query
      returns the rows it selects, in an order of the engine's choosing);
      [list_engine] is an instance.  The rows, keys and references are those of
      [db/schema]; [intact] is the well-formedness of the database, and
      the file shows that every statement keeps it.
    - [Projects.v], [ProjectFacts.v]: [projects/server/service.ts],
      [projects/actions.ts].  [Accounts.v], [AccountFacts.v]: [auth/],
      [auth.ts], [admin/actions.ts] and the middleware [proxy.ts];
      [ServerInput.v] has forms and sessions.
    - [AgentAccess.v], [AgentFacts.v]: [agent/server/auth.ts],
      [internal-assertion.ts] and the routes of tokens.  [JsonParse.v] is
      [JSON.parse], with the proof that it reads what [JSON.stringify] writes.
    - [ServerRoutes.v], [RouteFacts.v]: the routes that forward to the runner.
      [AgentService.v], [AgentRoutes.v], [AgentRouteFacts.v]:
      [agent/server/service.ts] and the agent API.  The runner is a parameter
      with a state of its own; a route works on the pair.
    - [ServerPages.v]: the layouts and pages of [src/ui-v2/src/app] that the server
      renders, and the forms of [admin/].
    - [ServerSystem.v]: all requests that work on the database, served at once.

    [Prelude.v], this file, has what all share: exceptions, insertion-ordered
    maps and sets, stable sorting, strings, tactics and hints.  [JsLib.v] has
    the language's own functions that several components call.

    ** What the theorems show

    - _Nothing is lost in the queue._  The ring buffer is a list, whatever is
      called on it (C3).  Over every interleaving of
      queueing, flushes, replies, failures and repairs the entities that are
      queued, in flight or committed are those that were queued
      (C1), and storage mirrors what is queued
      (C19).  A change is recorded, repaired exactly when the
      server misses its entity ([queue_change_recorded], [repair_spec]), drained
      by repeated flushes (C38) and restored on start-up
      ([restart_restores]).  [reload_forgets_in_flight] and
      [page_hide_forgets_batch] in [SyncGuarantees.v] show two places that fall
      short.
    - _Edits reach the queue_ ([turn_emits_once], [graph_edit_reaches_queue]), and
      deliveries in any order converge (C39).
    - _The server's answer reaches the stores._  Every entity of a reply is stored
      (C20), what is sent reads back as it was
      (C16), start-up never replaces a newer copy
      whatever runs meanwhile (C5), and a conflict can be
      settled by keeping both versions (C17).  Logging out
      leaves nothing of the user (C24).
    - _Validation and translation mean what they say._  The dependency graph
      ([dependency_edges]), cycle detection (C25), acceptance
      of a workflow (C6), the services
      (C12) and the tests (C30) of an
      execution bundle are characterised by what they stand for.
    - _Bundles travel._  An accepted bundle is sound (C14),
      export followed by import keeps the workflow (C15),
      import renames consistently ([imported_scenario_renamed]).  The list
      page imports a file whole or not at all (C9), and
      deletes a workflow with what belongs to it and nothing else
      (C10).
    - _The editors keep their state in step._  What the canvas shows is what is
      stored (C8); the scenario panel (C27)
      and the journey ([journey_is_run_order]) show the steps in the order in
      which they run.
    - _Forms hold what they show._  Every input of the test form keeps the test
      typed and touches nothing else (C40).  Saving a service
      names the first field to correct or stores node and credentials as they
      were entered (C37); the form shows the service it was
      given ([form_shows_service]), presets only add ([presets_only_add]), and a
      service whose type is changed is a fresh one ([retyped_is_fresh]).  Draft
      inputs stay in step with their value ([json_field_in_step],
      [number_field_in_step]), a new header is new ([added_header_is_new]), and
      expectations stay distinct ([expectations_stay_distinct]).  A saved or
      restored version is announced exactly when the server accepted it
      ([version_saved], [version_restored]).  What the form for a new user accepts
      the server accepts ([accepted_user_created]).
    - _A run is recorded._  Starting a run stores it before the runner hears of it
      and stores how that went (C7); scenarios are selected exactly
      ([selection_exact]); the event stream is applied once
      (C4) and its last event ends the run
      (C23); completion is announced once (C34).
    - _What is shown of a run is consistent._  Merged events are a timeline
      ([merge_is_timeline]).  Replaying a log ends, and returns what was stored
      when it began, however much is logged meanwhile (C26); so
      the run page always shows an unbroken stretch of the log
      (C22), and a refresh brings it up to date
      (C33).  It shows every issue the run has raised, each once
      ([issues_complete]), and its selection settles ([selection_settles]).  The
      log drawer shows the end of the log, without gap and repetition, whatever
      is clicked (C29), and clicks bring all of it
      ([clicks_show_log]); the journey shows the newest results
      ([journey_shows_latest]), the canvas what is selected
      ([selection_highlights], [focus_highlights]); results are grouped by scenario
      ([results_grouped]).  A
      snapshot is put into the stores whole and nothing is echoed
      ([snapshot_hydrates]).
    - _Retries and registries._  The editor's words about retries are the runner's
      deeds (C28), and a confirmation that an operation may run
      twice never outlives the operation ([confirmation_tracks_operation]).
      Registry credentials are kept per service ([secret_store_refines]); hosts,
      images and forms are canonical ([registry_host_canonical],
      [image_names_registry], [registry_form_roundtrip]).
    - _The database stays well formed_ whatever requests are interleaved
      (C2): keys, references, one private workspace per user.
    - _Who may do what._  Permissions are those of the role
      ([permission_iff_role]); a team keeps an owner while calls do not overlap
      (C32, and [overlapping_removals_orphan_team] when they do);
      every user gets one workspace ([personal_workspace_ensured]); administration
      needs an administrator ([administration_needs_admin]), team management a
      manager ([team_management_needs_permission]); pages are shown to those who
      may see them ([pages_guarded]) and redirects end ([redirects_settle]), but
      for the session of a user who is gone ([stale_session_loops]).  The layout
      shows a user the projects that user may view ([layout_shows_own]), the page
      of a team is its managers' ([members_page_shown]) and offers what the
      service does (C31).
    - _Accounts._  The setup happens once ([initial_setup_once]), whoever signed up
      can log in ([signed_up_user_logs_in]), deactivation closes the login and
      only the login ([deactivation_closes_login_only]).
    - _Agents._  An authenticated request acts for an active user whose role allows
      its scopes (C18); tokens are bounded
      (C35), work (C36) and can be
      revoked ([revoked_token_refused]); assertions are authentic and fresh
      ([assertion_authentic]).  All the calls an agent makes the runner see are
      about its own project (C11), it runs only scenarios of
      the workflow ([existing_run_selects]), and what it reads is redacted
      ([redaction_complete]).
    - _What reaches the runner_ from a session has the permission it needs
      (C13) and carries the caller's identity (C21).
    - _The documentation is connected._  Articles are chained in the order of the
      registry ([neighbors_chain]), each has its page ([article_pages]), search
      finds what contains the query ([search_finds]), and the links of the guided
      editor lead to an article ([guided_links_resolve]).

    ** How the code is modelled

    - A function that can throw returns [res]; [JsError] carries the message of
      [new Error], the other constructors are the language's own exceptions.
    - Objects used as maps, [Map] and [Set] are [jmap] and duplicate-free lists
      in insertion order, because the code iterates over them.  An object with
      integer-like keys would iterate in another order; the objects here are keyed
      by generated ids.
    - Numbers are integers: versions, counts, ports and milliseconds.  Strings
      are sequences of 8-bit characters; what the code does to case and white
      space is written out for these.
    - The six sync fields of an entity are one record [SyncMeta].
    - Fuel: [dfs] and the two [visit] walks get one or two units more than the
      graph has names, and the theorems show that no graph exhausts it; running
      out would be the exception of a stack overflow.  [next_suffix] gets one
      unit more than there are names, enough by the pigeonhole principle, and so
      does [free_name].
      [drive] follows the two requests a commit can make.  [parse_value] gets
      twice the length of its text, enough for every printed value.
      [fetchWorkflowRunEventsSince] gets more pages than the newer events fill,
      and its theorem shows that this is enough.
    - Server code: one statement or one transaction of the database is one atomic
      step, and other requests may run between two of them.  Clock, random ids
      and salts are arguments.
    - Browser code: a handler that awaits is a [Proc] over the browser, the server
      and the component's own state; [run] is its execution when nothing else
      runs, and the theorems that allow other tasks say so.  A handler works on
      the values that its render read from the stores, which are a record of the
      component.  An effect is a function of the render and of the state it keeps.
    - Parameters, because they are not code of the repository: the collation
      [localeCompare], the parsers of raw bundle and test text, of numbers, of
      event payloads, of stored results and of dates, the reading of a value at a
      declared type ([as_nodes], [as_edges], [as_tests]), the server's and the
      runner's replies, the supply of generated ids ([fresh], [draws]), the
      browser as [Host], the text of an error that the engine raises, the
      persisted state that [persist] reads back, the functions of React Flow,
      elkjs and dnd-kit that the editors call; for the server the SQL engine,
      [scrypt], the hash and signature functions, the decoders, [signIn] of
      next-auth, [encodeURIComponent] and the runner.

    ** What is not modelled

    zustand's [persist] and IndexedDB, the markup of the [tsx] components and the
    interface primitives of [components/ui], timers and animation, the formatting
    of estimates, the text of the articles ([mdx]) and the components that format
    it, the Go runner (but for its log pages and its retry decision), database
    connections and drivers, the internals of next-auth, the URL class (and with
    it the public URL and OAuth metadata of [mcp-config.ts]): they are
    third-party, I/O, presentation, or another language.  Response headers, cache
    refreshes and logging have no effect on any state here.  Shared references
    between a store's old and new state are not observable, since every action
    builds its state by spreading.  The dialog of versions works on a state that
    stands for the queue and the stores together, whose flush and reading are
    those of [SyncService.v] and [SyncHydration.v]. *)

From stdpp Require Export base list strings pretty.
From Stdlib Require Export ZArith Lia Sorted Permutation.
From Stdlib Require Import Ascii.

Create HintDb tokyo.
Create Rewrite HintDb tokyo_elem.

Declare Scope js_scope.
Delimit Scope js_scope with js.

(** ** Exceptions

    A TypeScript function that can throw returns [res A].  [JsError] is a
    [new Error(message)] of the source, [JsTypeError] and [JsRangeError] are
    exceptions the language raises itself (a property read on [undefined], a
    date out of range), and [JsRedirect] is what [redirect(path)] of Next.js
    throws to leave a server action. *)
Inductive js_error :=
| JsError (message : string)
| JsTypeError
| JsRangeError
| JsSyntaxError
| JsRedirect (path : string).

Inductive res (A : Type) :=
| Return (a : A)
| Throw (e : js_error).
Arguments Return {A} a.
Arguments Throw {A} e.

#[export] Instance js_error_eq_dec : EqDecision js_error.
Proof. solve_decision. Defined.

#[export] Instance res_eq_dec `{EqDecision A} : EqDecision (res A).
Proof. solve_decision. Defined.

#[export] Instance res_ret : MRet res := fun A a => Return a.

#[export] Instance res_bind : MBind res := fun A B f r =>
  match r with Return a => f a | Throw e => Throw e end.

#[export] Instance res_fmap : FMap res := fun A B f r =>
  match r with Return a => Return (f a) | Throw e => Throw e end.

(** A [for] loop whose body may throw. *)
Fixpoint res_each {A} (f : A -> res unit) (l : list A) : res unit :=
  match l with
  | [] => Return tt
  | x :: l' => match f x with Return _ => res_each f l' | Throw e => Throw e end
  end.

(** [array.map] with a callback that may throw. *)
Fixpoint res_map {A B} (f : A -> res B) (l : list A) : res (list B) :=
  match l with
  | [] => Return []
  | x :: l' =>
      match f x with
      | Throw e => Throw e
      | Return y =>
          match res_map f l' with Throw e => Throw e | Return ys => Return (y :: ys) end
      end
  end.

Definition is_return {A} (r : res A) : bool :=
  match r with Return _ => true | Throw _ => false end.

(** ** Truthiness and defaults

    An optional value is an [option]; [a ?? b] is [default b a].  On strings
    [a || b] also falls through on the empty string. *)
Definition str_truthy (s : string) : bool := negb (bool_decide (s = "")).

Definition ostr_truthy (o : option string) : bool :=
  match o with Some s => str_truthy s | None => false end.

Definition ostr_or (o : option string) (d : string) : string :=
  match o with Some s => if str_truthy s then s else d | None => d end.

(** ** Insertion-ordered maps

    [Map] and objects used as dictionaries: iteration follows insertion order
    and writing an existing key keeps its place. *)
Record jmap (K V : Type) := JMap { entries : list (K * V) }.
Arguments JMap {K V} entries.
Arguments entries {K V} j.

Section JMapDefs.
Context {K V : Type} `{EqDecision K}.

Fixpoint assoc_get (k : K) (l : list (K * V)) : option V :=
  match l with
  | [] => None
  | (k', v) :: l' => if decide (k = k') then Some v else assoc_get k l'
  end.

Fixpoint assoc_set (k : K) (v : V) (l : list (K * V)) : list (K * V) :=
  match l with
  | [] => [(k, v)]
  | (k', v') :: l' =>
      if decide (k = k') then (k, v) :: l' else (k', v') :: assoc_set k v l'
  end.

Fixpoint assoc_del (k : K) (l : list (K * V)) : list (K * V) :=
  match l with
  | [] => []
  | (k', v') :: l' => if decide (k = k') then l' else (k', v') :: assoc_del k l'
  end.

#[export] Instance jmap_empty : Empty (jmap K V) := JMap [].
#[export] Instance jmap_lookup : Lookup K V (jmap K V) := fun k m => assoc_get k (entries m).
#[export] Instance jmap_insert : Insert K V (jmap K V) := fun k v m => JMap (assoc_set k v (entries m)).
#[export] Instance jmap_delete : Delete K (jmap K V) := fun k m => JMap (assoc_del k (entries m)).

Definition jkeys (m : jmap K V) : list K := map fst (entries m).
Definition jvalues (m : jmap K V) : list V := map snd (entries m).

(** [new Map(pairs)] and [Object.fromEntries(pairs)]. *)
Definition jmap_of_pairs (l : list (K * V)) : jmap K V :=
  fold_left (fun m p => <[p.1 := p.2]> m) l ∅.

(** Well-formed maps hold each key once. *)
Definition jmap_wf (m : jmap K V) : Prop := NoDup (jkeys m).

(** Two maps with the same lookups, whatever their order. *)
#[export] Instance jmap_equiv : Equiv (jmap K V) := fun m1 m2 => forall k : K, m1 !! k = m2 !! k.
End JMapDefs.
#[global] Arguments jmap_lookup : simpl never.
#[global] Arguments jmap_insert : simpl never.
#[global] Arguments jmap_delete : simpl never.


(** ** Insertion-ordered sets *)
Section JSetDefs.
Context {A : Type} `{EqDecision A}.

Definition set_has (x : A) (s : list A) : bool := bool_decide (x ∈ s).

Definition set_add (x : A) (s : list A) : list A := if set_has x s then s else s ++ [x].

(** [new Set(array)]. *)
Definition set_of_list (l : list A) : list A := fold_left (fun s x => set_add x s) l [].
End JSetDefs.

(** ** [Array.prototype.sort] with a comparator: a stable sort. *)
Section SortDefs.
Context {A : Type} (cmp : A -> A -> Z).

Fixpoint sort_insert (x : A) (l : list A) : list A :=
  match l with
  | [] => [x]
  | y :: l' => if (cmp x y <=? 0)%Z then x :: y :: l' else y :: sort_insert x l'
  end.

Fixpoint js_sort (l : list A) : list A :=
  match l with
  | [] => []
  | x :: l' => sort_insert x (js_sort l')
  end.

Definition cmp_le (x y : A) : Prop := (cmp x y <= 0)%Z.

(** The consistency ECMAScript requires of a comparator. *)
Class Comparator : Prop := {
  cmp_total : forall x y, cmp_le x y \/ cmp_le y x;
  cmp_trans : forall x y z, cmp_le x y -> cmp_le y z -> cmp_le x z
}.
End SortDefs.

(** ** Strings

    A character is a UTF-16 code unit below 256; [trim] and [toLowerCase] are
    those of ECMAScript on that range. *)
Definition code (c : ascii) : N := N_of_ascii c.

Definition is_ws (c : ascii) : bool :=
  let n := code c in
  ((9 <=? n)%N && (n <=? 13)%N) || (n =? 32)%N || (n =? 160)%N.

Definition lower_char (c : ascii) : ascii :=
  let n := code c in
  if ((65 <=? n)%N && (n <=? 90)%N)
     || ((192 <=? n)%N && (n <=? 222)%N && negb (n =? 215)%N)
  then ascii_of_N (n + 32) else c.

Fixpoint str_map (f : ascii -> ascii) (s : string) : string :=
  match s with
  | EmptyString => EmptyString
  | String c s' => String (f c) (str_map f s')
  end.

Definition toLowerCase (s : string) : string := str_map lower_char s.

Fixpoint trim_start (s : string) : string :=
  match s with
  | EmptyString => EmptyString
  | String c s' => if is_ws c then trim_start s' else s
  end.

Fixpoint trim_end (s : string) : string :=
  match s with
  | EmptyString => EmptyString
  | String c s' =>
      match trim_end s' with
      | EmptyString => if is_ws c then EmptyString else String c EmptyString
      | t => String c t
      end
  end.

Definition js_trim (s : string) : string := trim_end (trim_start s).

Definition starts_with (p s : string) : bool := String.prefix p s.

Fixpoint str_includes (needle hay : string) : bool :=
  String.prefix needle hay ||
  match hay with
  | EmptyString => false
  | String _ h => str_includes needle h
  end.

Fixpoint str_forallb (p : ascii -> bool) (s : string) : bool :=
  match s with
  | EmptyString => true
  | String c s' => p c && str_forallb p s'
  end.

(** [s.split(c)] for a one-character separator. *)
Fixpoint split_on (c : ascii) (s : string) : list string :=
  match s with
  | EmptyString => [EmptyString]
  | String a s' =>
      if decide (a = c) then EmptyString :: split_on c s'
      else match split_on c s' with
           | [] => [String a EmptyString]
           | w :: ws => String a w :: ws
           end
  end.

Definition join (sep : string) (l : list string) : string := String.concat sep l.

(** The double quote, for messages that quote a name. *)
Definition dq : string := String (ascii_of_nat 34) EmptyString.
Definition quoted (s : string) : string := dq +:+ s +:+ dq.

(** ** Lemmas: ordered sets *)
Section JSetLemmas.
Context {A : Type} `{EqDecision A}.
Implicit Types (s l : list A) (x y : A).

Lemma set_has_spec x s : set_has x s = true <-> x ∈ s.
Proof. unfold set_has. by rewrite bool_decide_eq_true. Qed.

Lemma set_has_false x s : set_has x s = false <-> x ∉ s.
Proof. unfold set_has. by rewrite bool_decide_eq_false. Qed.

Lemma set_add_in x s : x ∈ s -> set_add x s = s.
Proof. intros H. unfold set_add. by rewrite (proj2 (set_has_spec x s) H). Qed.

Lemma set_add_notin x s : x ∉ s -> set_add x s = s ++ [x].
Proof. intros H. unfold set_add. by rewrite (proj2 (set_has_false x s) H). Qed.

Lemma elem_of_set_add x y s : y ∈ set_add x s <-> y = x \/ y ∈ s.
Proof.
  unfold set_add. destruct (set_has x s) eqn:E.
  - apply set_has_spec in E. split; [auto|]. by intros [->|].
  - rewrite elem_of_app, list_elem_of_singleton. tauto.
Qed.

Lemma NoDup_set_add x s : NoDup s -> NoDup (set_add x s).
Proof.
  unfold set_add. destruct (set_has x s) eqn:E; [done|]. apply set_has_false in E.
  intros. apply NoDup_app. repeat split; [done| |apply NoDup_singleton].
  intros y Hy ->%list_elem_of_singleton. done.
Qed.

Lemma set_of_list_acc l s :
  (forall y, y ∈ fold_left (fun s x => set_add x s) l s <-> y ∈ s \/ y ∈ l)
  /\ (NoDup s -> NoDup (fold_left (fun s x => set_add x s) l s)).
Proof.
  revert s; induction l as [|x l IH]; intros s; simpl.
  - split; [|done]. intros y. rewrite elem_of_nil. tauto.
  - destruct (IH (set_add x s)) as [H1 H2]. split.
    + intros y. rewrite H1, elem_of_set_add, elem_of_cons. tauto.
    + eauto using NoDup_set_add.
Qed.

Lemma elem_of_set_of_list y l : y ∈ set_of_list l <-> y ∈ l.
Proof.
  unfold set_of_list. rewrite (proj1 (set_of_list_acc l [])), elem_of_nil. tauto.
Qed.

Lemma NoDup_set_of_list l : NoDup (set_of_list l).
Proof. apply (set_of_list_acc l []), NoDup_nil_2. Qed.

(** A set only grows at its end. *)
Lemma set_of_list_acc_app l s :
  exists t, fold_left (fun s x => set_add x s) l s = s ++ t.
Proof.
  revert s; induction l as [|x l IH]; intros s; simpl; [exists []; by rewrite app_nil_r|].
  destruct (IH (set_add x s)) as [t ->]. unfold set_add. destruct (set_has x s); [by exists t|].
  exists (x :: t). by rewrite <- app_assoc.
Qed.

(** [new Set(l).size === l.length] is the code's test for distinct values. *)
Lemma set_of_list_length_eq l : length (set_of_list l) = length l <-> NoDup l.
Proof.
  assert (Hacc : forall l s, length (fold_left (fun s x => set_add x s) l s) <= length s + length l
     /\ (length (fold_left (fun s x => set_add x s) l s) = length s + length l ->
         NoDup l /\ (forall x, x ∈ l -> x ∉ s))
     /\ (NoDup l -> (forall x, x ∈ l -> x ∉ s) ->
         length (fold_left (fun s x => set_add x s) l s) = length s + length l)).
  { clear l. induction l as [|x l IH]; intros s; simpl.
    - split; [lia|]. split; [|lia]. intros _. split; [constructor|]. intros x Hx. by apply elem_of_nil in Hx.
    - destruct (IH (set_add x s)) as (H1 & H2 & H3). unfold set_add in *.
      destruct (set_has x s) eqn:E.
      + apply set_has_spec in E. split; [lia|]. split; [lia|].
        intros _ Hd. exfalso. apply (Hd x); [apply list_elem_of_here|done].
      + apply set_has_false in E. rewrite length_app in *; simpl in *.
        split; [lia|]. split.
        * intros Hl. destruct H2 as [Hd Hn]; [lia|]. rewrite NoDup_cons. repeat split.
          -- intros Hin. apply (Hn x Hin). apply elem_of_app. right. by apply list_elem_of_singleton.
          -- done.
          -- intros y [->|Hy]%elem_of_cons; [done|]. specialize (Hn y Hy). rewrite elem_of_app in Hn. tauto.
        * rewrite NoDup_cons. intros [Hx Hd] Hn. rewrite H3; [lia|done|].
          intros y Hy. rewrite elem_of_app, list_elem_of_singleton. intros [Hs| ->]; [|done].
          apply (Hn y); [by apply list_elem_of_further|done]. }
  destruct (Hacc l []) as (_ & H2 & H3). unfold set_of_list. simpl in *. split.
  - intros H. by apply H2.
  - intros H. apply H3; [done|]. intros x _ Hx. by apply elem_of_nil in Hx.
Qed.
End JSetLemmas.

(** ** Lemmas: maps *)
Section JMapLemmas.
Context {K V : Type} `{EqDecision K}.
Implicit Types (m : jmap K V) (k : K) (v : V).

Lemma jlookup_empty k : (∅ : jmap K V) !! k = None.
Proof. done. Qed.

Lemma assoc_get_set k k' v (l : list (K * V)) :
  assoc_get k' (assoc_set k v l) = if decide (k = k') then Some v else assoc_get k' l.
Proof.
  induction l as [|[k1 v1] l IH]; simpl; [repeat case_decide; congruence|].
  destruct (decide (k = k1)) as [->|]; simpl; [repeat case_decide; congruence|].
  rewrite IH. repeat case_decide; congruence.
Qed.

Lemma jlookup_insert k k' v m :
  <[k := v]> m !! k' = if decide (k = k') then Some v else m !! k'.
Proof. destruct m. apply assoc_get_set. Qed.

Lemma jlookup_insert_eq k v m : <[k := v]> m !! k = Some v.
Proof. rewrite jlookup_insert. by case_decide. Qed.

Lemma jlookup_insert_ne k k' v m : k <> k' -> <[k := v]> m !! k' = m !! k'.
Proof. intros. rewrite jlookup_insert. by case_decide. Qed.

Lemma assoc_get_None k (l : list (K * V)) : assoc_get k l = None <-> k ∉ map fst l.
Proof.
  induction l as [|[k1 v1] l IH]; simpl; [split; [intros _; apply not_elem_of_nil|done]|].
  rewrite not_elem_of_cons. case_decide; [split; [done|tauto]|tauto].
Qed.

Lemma jlookup_None k m : m !! k = None <-> k ∉ jkeys m.
Proof. apply assoc_get_None. Qed.

Lemma jlookup_is_Some k m : is_Some (m !! k) <-> k ∈ jkeys m.
Proof.
  destruct (m !! k) as [v|] eqn:E.
  - split; [|by eauto]. intros _. destruct (decide (k ∈ jkeys m)); [done|].
    by rewrite (proj2 (jlookup_None k m)) in E.
  - apply jlookup_None in E. split; [by intros [? [=]]|done].
Qed.

Lemma assoc_set_keys k v (l : list (K * V)) :
  map fst (assoc_set k v l) = set_add k (map fst l).
Proof.
  induction l as [|[k1 v1] l IH]; simpl; [done|].
  destruct (decide (k = k1)) as [->|Hk]; simpl.
  - rewrite set_add_in; [done|apply list_elem_of_here].
  - rewrite IH. destruct (decide (k ∈ map fst l)).
    + by rewrite !set_add_in by (rewrite ?elem_of_cons; auto).
    + rewrite !set_add_notin; [done| |done]. by intros [?|?]%elem_of_cons.
Qed.

(** A new key goes to the end. *)
Lemma entries_insert_fresh k v m : k ∉ jkeys m -> entries (<[k := v]> m) = entries m ++ [(k, v)].
Proof.
  destruct m as [l]; unfold insert, jmap_insert, jkeys; simpl.
  induction l as [|[k' v'] l IH]; simpl; [done|]. intros [Hx Hni]%not_elem_of_cons.
  rewrite decide_False by done. by rewrite IH.
Qed.

Lemma jkeys_insert k v m : jkeys (<[k := v]> m) = set_add k (jkeys m).
Proof. apply assoc_set_keys. Qed.

Lemma jlookup_elem_of k v m : m !! k = Some v -> (k, v) ∈ entries m.
Proof.
  destruct m as [l]; unfold lookup, jmap_lookup; simpl.
  induction l as [|[k1 v1] l IH]; simpl; [done|].
  case_decide; intros; simplify_eq; rewrite elem_of_cons; auto.
Qed.

Lemma elem_of_jlookup k v m : jmap_wf m -> (k, v) ∈ entries m -> m !! k = Some v.
Proof.
  destruct m as [l]; unfold jmap_wf, jkeys, lookup, jmap_lookup; simpl.
  induction l as [|[k1 v1] l IH]; simpl; [by intros _ ?%elem_of_nil|].
  rewrite NoDup_cons, elem_of_cons. intros [Hn Hd] [?|Hin]; simplify_eq.
  - by case_decide.
  - case_decide; [subst|auto]. contradict Hn.
    apply list_elem_of_fmap. by exists (k1, v).
Qed.

#[export] Instance jmap_equivalence : Equivalence (≡@{jmap K V}).
Proof.
  split; unfold equiv, jmap_equiv; [done| |].
  - intros m1 m2 H k. by rewrite H.
  - intros m1 m2 m3 H1 H2 k. by rewrite H1.
Qed.

#[export] Instance jmap_insert_proper k v : Proper ((≡) ==> (≡)) (insert (M := jmap K V) k v).
Proof. intros m1 m2 H k'. rewrite !jlookup_insert. by case_decide. Qed.

#[export] Instance jmap_lookup_proper k : Proper ((≡) ==> (=)) (lookup (M := jmap K V) k).
Proof. intros m1 m2 H. apply H. Qed.

Lemma jmap_insert_id k v m : m !! k = Some v -> <[k := v]> m = m.
Proof.
  destruct m as [l]; unfold lookup, jmap_lookup, insert, jmap_insert; simpl.
  intros H. f_equal. induction l as [|[k1 v1] l IH]; simpl in *; [done|].
  case_decide; simplify_eq/=; [done|]. by rewrite IH.
Qed.

Lemma jlookup_delete k k' m : jmap_wf m ->
  delete k m !! k' = if decide (k = k') then None else m !! k'.
Proof.
  destruct m as [l]; unfold jmap_wf, jkeys, lookup, jmap_lookup, delete, jmap_delete; simpl.
  induction l as [|[k1 v1] l IH]; simpl; [by intros; case_decide|].
  rewrite NoDup_cons. intros [Hn Hd]. destruct (decide (k = k1)) as [->|Hk]; simpl.
  - apply assoc_get_None in Hn. repeat case_decide; congruence.
  - rewrite IH by done. repeat case_decide; congruence.
Qed.

Lemma jmap_wf_empty : jmap_wf (∅ : jmap K V).
Proof. constructor. Qed.

Lemma jmap_wf_insert k v m : jmap_wf m -> jmap_wf (<[k := v]> m).
Proof. unfold jmap_wf. rewrite jkeys_insert. apply NoDup_set_add. Qed.

Lemma jmap_wf_delete k m : jmap_wf m -> jmap_wf (delete k m).
Proof.
  destruct m as [l]; unfold jmap_wf, jkeys, delete, jmap_delete; simpl.
  assert (Hin : forall (l : list (K * V)) x, x ∈ map fst (assoc_del k l) -> x ∈ map fst l).
  { clear. intros l x. induction l as [|[k1 v1] l IH]; simpl; [done|].
    case_decide; simpl; rewrite !elem_of_cons; tauto. }
  induction l as [|[k1 v1] l IH]; simpl; [done|].
  rewrite NoDup_cons. intros [Hn Hd].
  destruct (decide (k = k1)); [done|]. simpl. rewrite NoDup_cons. split; [by intros ?%Hin|auto].
Qed.

(** Pairs with distinct keys are the entries of the map they make. *)
Lemma jmap_of_pairs_distinct (l : list (K * V)) : NoDup (map fst l) -> jmap_of_pairs l = JMap l.
Proof.
  unfold jmap_of_pairs. enough (H : forall m, NoDup (jkeys m ++ map fst l) ->
    fold_left (fun m p => <[p.1 := p.2]> m) l m = JMap (entries m ++ l)) by (intros Hn; by rewrite H).
  induction l as [|[k v] l IH]; intros m Hn; simpl; [by destruct m; rewrite app_nil_r|].
  apply NoDup_app in Hn as (Hm & Hd & [Hk Hl]%NoDup_cons).
  assert (Hf : k ∉ jkeys m) by (intros Hin; apply (Hd _ Hin), list_elem_of_here).
  rewrite IH, (entries_insert_fresh k v m Hf), <- app_assoc; [done|].
  rewrite jkeys_insert, (set_add_notin k (jkeys m) Hf), <- app_assoc. apply NoDup_app.
  split; [done|]. split; [exact Hd|]. by apply NoDup_cons.
Qed.

Lemma jlookup_of_pairs (l : list (K * V)) k v : NoDup (map fst l) -> jmap_of_pairs l !! k = Some v <-> (k, v) ∈ l.
Proof.
  intros Hn. rewrite (jmap_of_pairs_distinct l Hn). split; [apply (jlookup_elem_of k v (JMap l))|].
  by apply (elem_of_jlookup k v (JMap l)).
Qed.
End JMapLemmas.
#[export] Hint Resolve jmap_wf_empty jmap_wf_insert jmap_wf_delete : tokyo.


(** ** Lemmas: stable sort *)
Section SortLemmas.
Context {A : Type} (cmp : A -> A -> Z).
Implicit Types (x y : A) (l : list A).

Lemma sort_insert_perm x l : sort_insert cmp x l ≡ₚ x :: l.
Proof.
  induction l as [|y l IH]; simpl; [done|]. case_match; [done|].
  rewrite IH. apply Permutation_swap.
Qed.

Lemma js_sort_perm l : js_sort cmp l ≡ₚ l.
Proof. induction l as [|x l IH]; simpl; [done|]. by rewrite sort_insert_perm, IH. Qed.

Lemma js_sort_length l : length (js_sort cmp l) = length l.
Proof. by rewrite js_sort_perm. Qed.

Lemma elem_of_js_sort x l : x ∈ js_sort cmp l <-> x ∈ l.
Proof. by rewrite js_sort_perm. Qed.

Lemma sort_insert_sorted `{!Comparator cmp} x l :
  StronglySorted (cmp_le cmp) l -> StronglySorted (cmp_le cmp) (sort_insert cmp x l).
Proof.
  induction 1 as [|y l Hs IH Hy]; simpl; [repeat constructor|].
  destruct (Z.leb_spec (cmp x y) 0) as [Hle|Hlt].
  - constructor; [by constructor|]. constructor; [done|].
    eapply Forall_impl; [exact Hy|]. simpl. eauto using cmp_trans.
  - constructor; [done|]. rewrite sort_insert_perm. constructor; [|done].
    destruct (cmp_total cmp x y) as [H|H]; [unfold cmp_le in H; lia|done].
Qed.

Lemma js_sort_sorted `{!Comparator cmp} l : StronglySorted (cmp_le cmp) (js_sort cmp l).
Proof. induction l; simpl; [constructor|by apply sort_insert_sorted]. Qed.

Lemma js_sort_id l : StronglySorted (cmp_le cmp) l -> js_sort cmp l = l.
Proof.
  induction 1 as [|x l Hs IH Hx]; simpl; [done|]. rewrite IH.
  destruct Hx as [|y l Hxy]; simpl; [done|].
  by rewrite (proj2 (Z.leb_le (cmp x y) 0) Hxy).
Qed.

(** Elements the comparator holds equal keep their relative order. *)
Lemma js_sort_stable (P : A -> Prop) `{!forall x, Decision (P x)} l :
  (forall x y, P x -> P y -> cmp_le cmp x y) ->
  filter P (js_sort cmp l) = filter P l.
Proof.
  intros Heq. induction l as [|x l IH]; simpl; [done|].
  assert (Hins : forall l', filter P (sort_insert cmp x l') = filter P (x :: l')).
  { induction l' as [|y l' IH']; simpl; [done|].
    destruct (Z.leb_spec (cmp x y) 0) as [Hle|Hlt]; [done|].
    rewrite (filter_cons P y), IH', !filter_cons.
    repeat case_decide; try done.
    assert (Hxy : cmp_le cmp x y) by auto. unfold cmp_le in Hxy. lia. }
  rewrite Hins, !filter_cons. by rewrite IH.
Qed.
End SortLemmas.

(** A comparator that subtracts integer keys. *)
#[export] Instance key_comparator {A} (key : A -> Z) : Comparator (fun x y => (key x - key y)%Z).
Proof. split; unfold cmp_le; intros; lia. Qed.

(** ** Lemmas: lists *)
Lemma StronglySorted_map {A B} (f : A -> B) (R : A -> A -> Prop) (Q : B -> B -> Prop) l :
  (forall x y, R x y -> Q (f x) (f y)) -> StronglySorted R l -> StronglySorted Q (map f l).
Proof.
  intros Hf. induction 1 as [|x l Hs IH Hx]; simpl; constructor; [done|].
  apply Forall_fmap. eapply Forall_impl; [exact Hx|]. simpl; auto.
Qed.

Lemma StronglySorted_weaken {A} (R Q : A -> A -> Prop) l :
  (forall x y, R x y -> Q x y) -> StronglySorted R l -> StronglySorted Q l.
Proof. intros Hf Hs. rewrite <- (map_id l). by eapply StronglySorted_map. Qed.

Lemma StronglySorted_filter {A} (P : A -> Prop) `{!forall x, Decision (P x)} (R : A -> A -> Prop) l :
  StronglySorted R l -> StronglySorted R (filter P l).
Proof.
  induction 1 as [|x l Hs IH Hx]; [constructor|]. rewrite filter_cons. case_decide; [|done].
  constructor; [done|]. apply Forall_forall. intros y [_ Hy]%list_elem_of_filter.
  by eapply Forall_forall in Hx.
Qed.

Lemma filter_ext_in {A} (P Q : A -> Prop) `{!forall x, Decision (P x), !forall x, Decision (Q x)} (l : list A) :
  (forall x, x ∈ l -> P x <-> Q x) -> filter P l = filter Q l.
Proof.
  induction l as [|x l IH]; intros Hpq; [done|]. pose proof (Hpq x (list_elem_of_here _ _)) as Hx.
  rewrite !filter_cons, IH by (intros; apply Hpq; by apply list_elem_of_further).
  repeat case_decide; tauto.
Qed.

(** An order list completed by what it leaves out. *)
Lemma completed_elem `{EqDecision A} (o ids : list A) x :
  x ∈ filter (fun y => y ∈ ids) o ++ filter (fun y => y ∉ o) ids <-> x ∈ ids.
Proof. rewrite elem_of_app, !list_elem_of_filter. destruct (decide (x ∈ o)); tauto. Qed.

Lemma completed_perm `{EqDecision A} (o ids : list A) : NoDup o -> NoDup ids ->
  filter (fun y => y ∈ ids) o ++ filter (fun y => y ∉ o) ids ≡ₚ ids.
Proof.
  intros Ho Hi. apply list.NoDup_Permutation; [|done|intros; apply completed_elem].
  apply NoDup_app. split; [by apply NoDup_filter|]. split; [|by apply NoDup_filter].
  intros x. rewrite !list_elem_of_filter. tauto.
Qed.

Lemma omap_ext_in {A B} (f g : A -> option B) (l : list A) :
  (forall x, x ∈ l -> f x = g x) -> omap f l = omap g l.
Proof. intros H. apply list_omap_ext, Forall_Forall2_diag, Forall_forall, H. Qed.

Lemma omap_none {A B} (f : A -> option B) (l : list A) : (forall x, x ∈ l -> f x = None) -> omap f l = [].
Proof.
  intros H. rewrite (omap_ext_in f (fun _ => None)) by done. clear H. by induction l.
Qed.

Lemma filter_all {A} (P : A -> Prop) `{!forall x, Decision (P x)} (l : list A) :
  Forall P l -> filter P l = l.
Proof. induction 1; [done|]. rewrite filter_cons_True by done. by f_equal. Qed.

Lemma filter_none {A} (P : A -> Prop) `{!forall x, Decision (P x)} (l : list A) :
  Forall (fun x => ~ P x) l -> filter P l = [].
Proof. induction 1; [done|]. by rewrite filter_cons_False. Qed.

Lemma res_each_return {A} (f : A -> res unit) (l : list A) :
  res_each f l = Return tt <-> Forall (fun x => f x = Return tt) l.
Proof.
  induction l as [|x l IH]; simpl; [split; [constructor|done]|].
  rewrite Forall_cons. destruct (f x) as [[]|e] eqn:E; [rewrite IH; tauto|].
  split; [done|]. by intros [? _].
Qed.

Lemma res_map_return {A B} (f : A -> res B) (l : list A) (l' : list B) :
  res_map f l = Return l' <-> Forall2 (fun x y => f x = Return y) l l'.
Proof.
  revert l'; induction l as [|x l IH]; intros l'; simpl.
  - split; [intros [= <-]; constructor|by intros ->%Forall2_nil_inv_l].
  - destruct (f x) as [y|e] eqn:E; [|split; [done|]; intros H; inversion H; congruence].
    destruct (res_map f l) as [ys|e] eqn:Er.
    + split; [intros [= <-]; constructor; [done|by apply IH]|].
      intros H; inversion H as [|? y' ? ys' Hy Hys]; simplify_eq. apply IH in Hys. congruence.
    + split; [done|]. intros H; inversion H as [|? y' ? ys' Hy Hys]; simplify_eq. by apply IH in Hys.
Qed.

(** ** Lemmas: strings *)
Lemma split_on_cons c s : exists w ws, split_on c s = w :: ws.
Proof.
  destruct s as [|a s]; simpl; [by eauto|]. case_decide; [by eauto|].
  destruct (split_on c s); eauto.
Qed.

Lemma split_on_join c s : join (String c EmptyString) (split_on c s) = s.
Proof.
  unfold join. induction s as [|a s IH]; [done|].
  cbn [split_on]. destruct (split_on_cons c s) as (w & ws & E). rewrite E in *.
  destruct (decide (a = c)) as [->|Ha].
  - cbn [String.concat]. by rewrite <- IH.
  - rewrite <- IH. by destruct ws.
Qed.

Lemma str_truthy_spec s : str_truthy s = true <-> s <> "".
Proof. unfold str_truthy. rewrite negb_true_iff. apply bool_decide_eq_false. Qed.

(** ** Automation *)
#[export] Hint Resolve NoDup_set_add NoDup_set_of_list js_sort_perm js_sort_sorted : tokyo.
#[export] Hint Rewrite @elem_of_set_add @elem_of_set_of_list @elem_of_js_sort : tokyo_elem.

(** Case analysis on every [match] and [if] of the goal or a hypothesis. *)
Ltac step_match :=
  match goal with
  | |- context [match ?x with _ => _ end] => destruct x eqn:?
  | H : context [match ?x with _ => _ end] |- _ => destruct x eqn:?
  end.
Ltac crush_match := repeat (step_match; simplify_eq/=; try done).

(** Turns boolean tests of the code into propositions. *)
Ltac bools :=
  repeat match goal with
  | H : _ && _ = true |- _ => apply andb_true_iff in H as [? ?]
  | H : _ || _ = false |- _ => apply orb_false_iff in H as [? ?]
  | H : negb _ = true |- _ => apply negb_true_iff in H
  | H : negb _ = false |- _ => apply negb_false_iff in H
  | H : bool_decide _ = true |- _ => apply bool_decide_eq_true in H
  | H : bool_decide _ = false |- _ => apply bool_decide_eq_false in H
  end.
(** ** Characters of strings *)
Definition not_char (c a : ascii) : bool := negb (bool_decide (a = c)).

Lemma str_forallb_app P s t : str_forallb P (s +:+ t) = str_forallb P s && str_forallb P t.
Proof. induction s as [|c s IH]; simpl; [done|]. by rewrite IH, andb_assoc. Qed.

Lemma str_forallb_impl (P Q : ascii -> bool) s : (forall c, P c = true -> Q c = true) ->
  str_forallb P s = true -> str_forallb Q s = true.
Proof.
  intros H. induction s as [|c s IH]; simpl; [done|]. rewrite !andb_true_iff. intros [? ?]. auto.
Qed.

Lemma str_forallb_map P f s : str_forallb P (str_map f s) = str_forallb (fun c => P (f c)) s.
Proof. induction s as [|c s IH]; simpl; [done|]. by rewrite IH. Qed.

Lemma trim_clean s : str_forallb (fun c => negb (is_ws c)) s = true -> js_trim s = s.
Proof.
  intros H. unfold js_trim. replace (trim_start s) with s.
  2: { destruct s as [|c s]; [done|]. simpl in *. by destruct (is_ws c). }
  induction s as [|c s IH]; [done|]. simpl in *. destruct (is_ws c); simpl in H; [done|].
  rewrite IH by done. by destruct s.
Qed.

(** A text without the separator is one part. *)
Lemma split_on_clean c a : str_forallb (not_char c) a = true -> split_on c a = [a].
Proof.
  induction a as [|x a IH]; [done|]. simpl. intros H. bools. unfold not_char in *. bools.
  rewrite decide_False by done. by rewrite IH.
Qed.

Lemma split_on_app c a s : str_forallb (not_char c) a = true -> split_on c (a +:+ String c s) = a :: split_on c s.
Proof.
  induction a as [|x a IH]; simpl; [by rewrite decide_True|]. intros H. bools. unfold not_char in *. bools.
  rewrite decide_False by done. by rewrite IH.
Qed.

(** A key names one element. *)
Lemma key_unique {A K} (key : A -> K) l x y : NoDup (map key l) -> x ∈ l -> y ∈ l -> key x = key y -> x = y.
Proof.
  induction l as [|z l IH]; simpl; [by intros _ ?%elem_of_nil|].
  rewrite NoDup_cons, !elem_of_cons. intros [Hz Hl] Hx Hy He.
  assert (forall w, w ∈ l -> key w <> key z) as Hne.
  { intros w Hw Hk. apply Hz. rewrite <- Hk. by apply list_elem_of_fmap_2. }
  destruct Hx as [->|Hx], Hy as [->|Hy]; [done| | |by apply IH].
  - by destruct (Hne y Hy).
  - by destruct (Hne x Hx).
Qed.
