(* ===== verification/FastQueue.v ===== *)
(** * The circular-buffer queue of [ui-v2/src/modules/sync/fast-queue.ts]

    [FastQueue] is the ring buffer itself, one definition per method; [repr]
    relates it to the list of queued items, and each method is proved to be
    the list operation it stands for.  [Deque] is what the sync service relies
    on, [fast_queue_deque] discharges it. *)

From S2P Require Import Prelude.

(** ** What a client of the queue may rely on *)
Class Deque (T : Type) := {
  dq : Type;
  dq_repr : dq -> list T -> Prop;
  dq_new : nat -> dq;
  dq_enqueue : T -> dq -> dq;
  dq_unshiftMany : list T -> dq -> dq;
  dq_dequeueMany : Z -> dq -> list T * dq;
  dq_toArray : dq -> list T;
  dq_getSize : dq -> nat;
  dq_isEmpty : dq -> bool;
  dq_clear : dq -> dq;
  dq_new_repr n : 0 < n -> dq_repr (dq_new n) [];
  dq_enqueue_repr q l x : dq_repr q l -> dq_repr (dq_enqueue x q) (l ++ [x]);
  dq_unshiftMany_repr q l xs : dq_repr q l -> dq_repr (dq_unshiftMany xs q) (xs ++ l);
  dq_dequeueMany_repr q l c : dq_repr q l ->
    (dq_dequeueMany c q).1 = take (Z.to_nat c) l
    /\ dq_repr (dq_dequeueMany c q).2 (drop (Z.to_nat c) l);
  dq_toArray_repr q l : dq_repr q l -> dq_toArray q = l;
  dq_getSize_repr q l : dq_repr q l -> dq_getSize q = length l;
  dq_isEmpty_repr q l : dq_repr q l -> dq_isEmpty q = bool_decide (l = []);
  dq_clear_repr q l : dq_repr q l -> dq_repr (dq_clear q) []
}.

Module FastQueue.
Section Defs.
Context {T : Type}.

(** [undefined] slots are [None]. *)
Record FastQueue := MkFastQueue {
  buffer : list (option T);
  head : nat;
  tail : nat;
  size : nat;
  capacity : nat
}.

Definition new_FastQueue (initialCapacity : nat) : FastQueue :=
  MkFastQueue (replicate initialCapacity None) 0 0 0 initialCapacity.

(** [buffer[i]]: [undefined] for an empty slot and past the end. *)
Definition read_slot (b : list (option T)) (i : nat) : option T := default None (b !! i).

(** The copy loop of [resize]: [n] iterations are left. *)
Fixpoint resize_loop (n i index cap : nat) (b newBuffer : list (option T)) : list (option T) :=
  match n with
  | 0 => newBuffer
  | S n' => resize_loop n' (i + 1) ((index + 1) mod cap) cap b (<[i := read_slot b index]> newBuffer)
  end.

Definition resize (q : FastQueue) : FastQueue :=
  let newCapacity := capacity q * 2 in
  let newBuffer := replicate newCapacity None in
  MkFastQueue (resize_loop (size q) 0 (head q) (capacity q) (buffer q) newBuffer)
    0 (size q) (size q) newCapacity.

Definition enqueue (item : T) (q0 : FastQueue) : FastQueue :=
  let q := if size q0 =? capacity q0 then resize q0 else q0 in
  MkFastQueue (<[tail q := Some item]> (buffer q)) (head q)
    ((tail q + 1) mod capacity q) (size q + 1) (capacity q).

(** [head - 1 + capacity] is written [head + capacity - 1]: the same number,
    without a truncated subtraction. *)
Definition unshift (item : T) (q0 : FastQueue) : FastQueue :=
  let q := if size q0 =? capacity q0 then resize q0 else q0 in
  let head' := (head q + capacity q - 1) mod capacity q in
  MkFastQueue (<[head' := Some item]> (buffer q)) head' (tail q) (size q + 1) (capacity q).

Definition unshiftMany (items : list T) (q : FastQueue) : FastQueue :=
  fold_left (fun q item => unshift item q) (reverse items) q.

Definition dequeue (q : FastQueue) : option T * FastQueue :=
  if size q =? 0 then (None, q)
  else
    let item := read_slot (buffer q) (head q) in
    (item, MkFastQueue (<[head q := None]> (buffer q)) ((head q + 1) mod capacity q)
             (tail q) (size q - 1) (capacity q)).

(** The loop of [dequeueMany] with [n] iterations left. *)
Fixpoint dequeue_loop (n : nat) (items : list T) (q : FastQueue) : list T * FastQueue :=
  match n with
  | 0 => (items, q)
  | S n' =>
      let '(item, q') := dequeue q in
      match item with
      | Some x => dequeue_loop n' (items ++ [x]) q'
      | None => dequeue_loop n' items q'
      end
  end.

Definition dequeueMany (count : Z) (q : FastQueue) : list T * FastQueue :=
  let actualCount := Z.min count (Z.of_nat (size q)) in
  dequeue_loop (Z.to_nat actualCount) [] q.

Definition peek (q : FastQueue) : option T :=
  if size q =? 0 then None else read_slot (buffer q) (head q).

Definition getSize (q : FastQueue) : nat := size q.

Definition isEmpty (q : FastQueue) : bool := size q =? 0.

Definition clear (q : FastQueue) : FastQueue :=
  MkFastQueue (replicate (capacity q) None) 0 0 0 (capacity q).

Fixpoint toArray_loop (n index cap : nat) (b : list (option T)) (items : list T) : list T :=
  match n with
  | 0 => items
  | S n' =>
      let items' := match read_slot b index with Some x => items ++ [x] | None => items end in
      toArray_loop n' ((index + 1) mod cap) cap b items'
  end.

Definition toArray (q : FastQueue) : list T :=
  toArray_loop (size q) (head q) (capacity q) (buffer q) [].
End Defs.
Arguments FastQueue : clear implicits.

(** ** The representation relation *)
Section Spec.
Context {T : Type}.
Implicit Types (q : FastQueue T) (l : list T) (x : T).

Record repr q l : Prop := {
  repr_cap : 0 < capacity q;
  repr_len : length (buffer q) = capacity q;
  repr_size : size q = length l;
  repr_le : length l <= capacity q;
  repr_head : head q < capacity q;
  repr_tail : tail q = (head q + length l) mod capacity q;
  repr_slot i x : l !! i = Some x ->
    buffer q !! ((head q + i) mod capacity q) = Some (Some x)
}.

Lemma mod_wrap h i c : h < c -> i <= c ->
  (h + i) mod c = if decide (h + i < c) then h + i else h + i - c.
Proof.
  intros. case_decide; [by apply Nat.mod_small|].
  symmetry. apply Nat.mod_unique with 1; lia.
Qed.

(** Arithmetic on positions of the ring. *)
Ltac ring_lia := rewrite ?mod_wrap by lia; repeat case_decide; lia.

Lemma mod_next h c : h < c -> (h + 1) mod c < c.
Proof. intros. apply Nat.mod_upper_bound. lia. Qed.

Lemma ring_step h i c : h < c -> i < c -> ((h + 1) mod c + i) mod c = (h + S i) mod c.
Proof. intros. rewrite (mod_wrap h 1) by lia. case_decide; ring_lia. Qed.

Lemma new_repr n : 0 < n -> repr (new_FastQueue n) [].
Proof.
  intros; split; simpl; try lia; [by rewrite length_replicate| |done].
  by rewrite Nat.mod_small.
Qed.

Lemma clear_repr q l : repr q l -> repr (clear q) [].
Proof. intros []. by apply new_repr. Qed.

Lemma toArray_loop_spec n index cap b items l :
  length l = n -> n <= cap -> index < cap ->
  (forall i x, l !! i = Some x -> b !! ((index + i) mod cap) = Some (Some x)) ->
  toArray_loop n index cap b items = items ++ l.
Proof.
  revert index items l; induction n as [|n IH]; intros index items l Hl Hn Hi Hs.
  { by apply length_zero_iff_nil in Hl as ->; rewrite app_nil_r. }
  destruct l as [|x l]; [done|]; simplify_eq/=.
  unfold read_slot. pose proof (Hs 0 x eq_refl) as H0.
  rewrite Nat.add_0_r, Nat.mod_small in H0 by done. rewrite H0; simpl.
  rewrite (IH _ _ l); [by rewrite <- app_assoc|done|lia|by apply mod_next|].
  intros i y Hy. rewrite ring_step; [|done|apply lookup_lt_Some in Hy; lia]. by apply (Hs (S i)).
Qed.

Lemma toArray_repr q l : repr q l -> toArray q = l.
Proof.
  intros H. unfold toArray. rewrite (toArray_loop_spec _ _ _ _ _ l); [done|..]; try apply H.
  - symmetry; apply H.
  - rewrite (repr_size _ _ H). apply H.
Qed.

Lemma resize_loop_spec n i index cap b nb l :
  length l = n -> n <= cap -> index < cap -> i + n <= length nb ->
  (forall j x, l !! j = Some x -> b !! ((index + j) mod cap) = Some (Some x)) ->
  length (resize_loop n i index cap b nb) = length nb
  /\ (forall j, j < i -> resize_loop n i index cap b nb !! j = nb !! j)
  /\ (forall j x, l !! j = Some x -> resize_loop n i index cap b nb !! (i + j) = Some (Some x)).
Proof.
  revert i index nb l; induction n as [|n IH]; intros i index nb l Hl Hn Hi Hb Hs.
  { apply length_zero_iff_nil in Hl as ->. by repeat split. }
  destruct l as [|x l]; [done|]; simplify_eq/=.
  pose proof (Hs 0 x eq_refl) as H0. rewrite Nat.add_0_r, Nat.mod_small in H0 by done.
  destruct (IH (i + 1) ((index + 1) mod cap) (<[i := read_slot b index]> nb) l)
    as (H1 & H2 & H3); rewrite ?length_insert; [done|lia|by apply mod_next|lia| |].
  { intros j y Hy. rewrite ring_step; [|done|apply lookup_lt_Some in Hy; lia]. by apply (Hs (S j)). }
  rewrite length_insert in H1. split; [done|split].
  - intros j Hj. rewrite H2 by lia. apply list_lookup_insert_ne. lia.
  - intros [|j] y Hy; simplify_eq/=.
    + rewrite Nat.add_0_r, H2 by lia. rewrite list_lookup_insert_eq by lia.
      unfold read_slot. by rewrite H0.
    + rewrite <- Nat.add_succ_comm, <- (Nat.add_1_r i). by apply H3.
Qed.

Lemma resize_repr q l : repr q l -> repr (resize q) l /\ length l < capacity (resize q).
Proof.
  intros [Hc Hl Hs Hle Hh Ht Hsl].
  destruct (resize_loop_spec (size q) 0 (head q) (capacity q) (buffer q)
              (replicate (capacity q * 2) None) l) as (H1 & _ & H3);
    rewrite ?length_replicate; try done; try lia.
  rewrite length_replicate in H1.
  split; [|unfold resize; simpl; lia].
  split; unfold resize; simpl; try done; try lia.
  - rewrite Nat.mod_small by lia. done.
  - intros i x Hx. pose proof (lookup_lt_Some _ _ _ Hx).
    rewrite Nat.mod_small by lia. by apply (H3 i).
Qed.

(** Both insertions first make room. *)
Definition with_room q : FastQueue T := if size q =? capacity q then resize q else q.

Lemma with_room_repr q l : repr q l -> repr (with_room q) l /\ length l < capacity (with_room q).
Proof.
  intros H. unfold with_room. destruct (Nat.eqb_spec (size q) (capacity q)) as [E|E].
  - by apply resize_repr.
  - split; [done|]. destruct H. lia.
Qed.

Lemma enqueue_repr q l x : repr q l -> repr (enqueue x q) (l ++ [x]).
Proof.
  intros H. destruct (with_room_repr q l H) as [Hr Hlt]. clear H.
  unfold enqueue. fold (with_room q). set (r := with_room q) in *. clearbody r.
  destruct Hr as [Hc Hl Hs Hle Hh Ht Hsl].
  split; simpl; rewrite ?length_insert, ?length_app; simpl; try lia; try done.
  - rewrite Ht, (mod_wrap (head r) (length l)) by lia. case_decide; ring_lia.
  - intros i y Hy. destruct (decide (i = length l)) as [->|Hne].
    + rewrite list_lookup_middle in Hy by done; simplify_eq.
      rewrite <- Ht. apply list_lookup_insert_eq. rewrite Hl, Ht. apply Nat.mod_upper_bound; lia.
    + assert (Hi : i < length l) by (apply lookup_lt_Some in Hy; rewrite length_app in Hy; simpl in Hy; lia).
      rewrite lookup_app_l in Hy by done.
      rewrite list_lookup_insert_ne; [by apply Hsl|]. rewrite Ht. ring_lia.
Qed.

Lemma unshift_repr q l x : repr q l -> repr (unshift x q) (x :: l).
Proof.
  intros H. destruct (with_room_repr q l H) as [Hr Hlt]. clear H.
  unfold unshift. fold (with_room q). set (r := with_room q) in *. clearbody r.
  destruct Hr as [Hc Hl Hs Hle Hh Ht Hsl].
  set (h := (head r + capacity r - 1) mod capacity r).
  assert (Hh' : h < capacity r) by (apply Nat.mod_upper_bound; lia).
  assert (Hhead : (h + 1) mod capacity r = head r).
  { unfold h. replace (head r + capacity r - 1) with (head r + (capacity r - 1)) by lia.
    rewrite (mod_wrap (head r)) by lia. case_decide; ring_lia. }
  split; simpl; rewrite ?length_insert; try lia; try done.
  - rewrite Ht, <- Hhead. destruct (decide (length l = 0)) as [->|].
    + rewrite Nat.add_0_r. by rewrite Nat.Div0.mod_mod.
    + by apply ring_step.
  - intros [|i] y Hy; simplify_eq/=.
    + rewrite Nat.add_0_r, Nat.mod_small by done. apply list_lookup_insert_eq. lia.
    + assert (Hi : i < length l) by (by eapply lookup_lt_Some).
      rewrite <- ring_step, Hhead by lia.
      rewrite list_lookup_insert_ne; [by apply Hsl|]. rewrite <- Hhead, ring_step by lia. ring_lia.
Qed.

Lemma unshiftMany_repr q l xs : repr q l -> repr (unshiftMany xs q) (xs ++ l).
Proof.
  unfold unshiftMany. revert q l; induction xs as [|x xs IH] using rev_ind; intros q l H; [done|].
  rewrite reverse_snoc, <- app_assoc. simpl. apply IH. by apply unshift_repr.
Qed.

Lemma dequeue_nil q : repr q [] -> dequeue q = (None, q).
Proof. intros H. unfold dequeue. by rewrite (repr_size _ _ H). Qed.

Lemma dequeue_cons q x l : repr q (x :: l) ->
  (dequeue q).1 = Some x /\ repr (dequeue q).2 l.
Proof.
  intros [Hc Hl Hs Hle Hh Ht Hsl]. simpl in *. unfold dequeue. rewrite Hs. simpl.
  pose proof (Hsl 0 x eq_refl) as H0. rewrite Nat.add_0_r, Nat.mod_small in H0 by done.
  unfold read_slot. rewrite H0. split; [done|].
  split; simpl; rewrite ?length_insert; try lia; try done.
  - by apply mod_next.
  - rewrite Ht. destruct (decide (length l = capacity q - 1)); [|by rewrite ring_step by lia].
    rewrite ring_step by lia. done.
  - intros i y Hy. pose proof (lookup_lt_Some _ _ _ Hy).
    rewrite ring_step by lia. rewrite list_lookup_insert_ne; [by apply (Hsl (S i))|]. ring_lia.
Qed.

Lemma dequeue_loop_spec n items q l : repr q l -> n <= length l ->
  (dequeue_loop n items q).1 = items ++ take n l
  /\ repr (dequeue_loop n items q).2 (drop n l).
Proof.
  revert items q l; induction n as [|n IH]; intros items q l H Hn.
  { split; [by rewrite take_0, app_nil_r|done]. }
  destruct l as [|x l]; simpl in Hn; [lia|].
  destruct (dequeue_cons q x l H) as [E1 E2]. simpl.
  destruct (dequeue q) as [it q']; simpl in *; subst.
  destruct (IH (items ++ [x]) q' l E2) as [H1 H2]; [lia|].
  by rewrite H1, <- app_assoc.
Qed.

Lemma dequeueMany_repr q l c : repr q l ->
  (dequeueMany c q).1 = take (Z.to_nat c) l
  /\ repr (dequeueMany c q).2 (drop (Z.to_nat c) l).
Proof.
  intros H. unfold dequeueMany. rewrite (repr_size _ _ H).
  set (n := Z.to_nat (Z.min c (Z.of_nat (length l)))).
  assert (Hn : n <= length l) by lia.
  destruct (dequeue_loop_spec n [] q l H Hn) as [H1 H2]. rewrite H1.
  destruct (decide (Z.to_nat c <= length l)) as [E|E].
  - by replace (Z.to_nat c) with n by lia.
  - replace n with (length l) in * by lia.
    rewrite (take_ge l (Z.to_nat c)), (drop_ge l (Z.to_nat c)) by lia.
    by rewrite firstn_all, drop_all in *.
Qed.

Lemma peek_repr q l : repr q l -> peek q = hd_error l.
Proof.
  intros H. unfold peek. rewrite (repr_size _ _ H). destruct l as [|x l]; [done|]; simpl.
  pose proof (repr_slot _ _ H 0 x eq_refl) as H0.
  rewrite Nat.add_0_r, Nat.mod_small in H0 by apply H. unfold read_slot. by rewrite H0.
Qed.

Lemma isEmpty_repr q l : repr q l -> isEmpty q = bool_decide (l = []).
Proof. intros H. unfold isEmpty. rewrite (repr_size _ _ H). by destruct l. Qed.
End Spec.

#[export] Instance fast_queue_deque (T : Type) : Deque T := {|
  dq := FastQueue T;
  dq_repr := repr;
  dq_new := new_FastQueue;
  dq_enqueue := enqueue;
  dq_unshiftMany := unshiftMany;
  dq_dequeueMany := dequeueMany;
  dq_toArray := toArray;
  dq_getSize := getSize;
  dq_isEmpty := isEmpty;
  dq_clear := clear;
  dq_new_repr := new_repr;
  dq_enqueue_repr := enqueue_repr;
  dq_unshiftMany_repr := unshiftMany_repr;
  dq_dequeueMany_repr := dequeueMany_repr;
  dq_toArray_repr := toArray_repr;
  dq_getSize_repr := repr_size;
  dq_isEmpty_repr := isEmpty_repr;
  dq_clear_repr := clear_repr
|}.

(** ** Refinement of the list queue, for any sequence of calls *)
Inductive Op (T : Type) :=
| OpEnqueue (x : T) | OpUnshift (x : T) | OpUnshiftMany (xs : list T)
| OpDequeue | OpDequeueMany (count : Z) | OpPeek | OpGetSize | OpIsEmpty | OpClear | OpToArray.
Arguments OpEnqueue {T}. Arguments OpUnshift {T}. Arguments OpUnshiftMany {T}.
Arguments OpDequeue {T}. Arguments OpDequeueMany {T}. Arguments OpPeek {T}.
Arguments OpGetSize {T}. Arguments OpIsEmpty {T}. Arguments OpClear {T}. Arguments OpToArray {T}.

(** What a call returns. *)
Inductive Obs (T : Type) :=
| ObsUnit | ObsItem (x : option T) | ObsItems (xs : list T) | ObsSize (n : nat) | ObsBool (b : bool).
Arguments ObsUnit {T}. Arguments ObsItem {T}. Arguments ObsItems {T}.
Arguments ObsSize {T}. Arguments ObsBool {T}.

Section Refinement.
Context {T : Type}.

Definition exec (op : Op T) (q : FastQueue T) : Obs T * FastQueue T :=
  match op with
  | OpEnqueue x => (ObsUnit, enqueue x q)
  | OpUnshift x => (ObsUnit, unshift x q)
  | OpUnshiftMany xs => (ObsUnit, unshiftMany xs q)
  | OpDequeue => let '(x, q') := dequeue q in (ObsItem x, q')
  | OpDequeueMany c => let '(xs, q') := dequeueMany c q in (ObsItems xs, q')
  | OpPeek => (ObsItem (peek q), q)
  | OpGetSize => (ObsSize (getSize q), q)
  | OpIsEmpty => (ObsBool (isEmpty q), q)
  | OpClear => (ObsUnit, clear q)
  | OpToArray => (ObsItems (toArray q), q)
  end.

(** The same calls on a list. *)
Definition spec_exec (op : Op T) (l : list T) : Obs T * list T :=
  match op with
  | OpEnqueue x => (ObsUnit, l ++ [x])
  | OpUnshift x => (ObsUnit, x :: l)
  | OpUnshiftMany xs => (ObsUnit, xs ++ l)
  | OpDequeue => (ObsItem (hd_error l), tl l)
  | OpDequeueMany c => (ObsItems (take (Z.to_nat c) l), drop (Z.to_nat c) l)
  | OpPeek => (ObsItem (hd_error l), l)
  | OpGetSize => (ObsSize (length l), l)
  | OpIsEmpty => (ObsBool (bool_decide (l = [])), l)
  | OpClear => (ObsUnit, [])
  | OpToArray => (ObsItems l, l)
  end.

Fixpoint run {S} (f : Op T -> S -> Obs T * S) (ops : list (Op T)) (s : S) : list (Obs T) :=
  match ops with
  | [] => []
  | op :: ops' => let '(o, s') := f op s in o :: run f ops' s'
  end.

Lemma exec_simulates op q l : repr q l ->
  (exec op q).1 = (spec_exec op l).1 /\ repr (exec op q).2 (spec_exec op l).2.
Proof.
  intros H. destruct op; simpl;
    try (split; [done|]; eauto using enqueue_repr, unshift_repr, unshiftMany_repr, clear_repr; fail).
  - destruct l as [|y l]; [by rewrite (dequeue_nil _ H)|].
    destruct (dequeue_cons _ _ _ H) as [E1 E2]. destruct (dequeue q); simpl in *; by subst.
  - destruct (dequeueMany_repr _ _ count H) as [E1 E2].
    destruct (dequeueMany count q); simpl in *; by subst.
  - by rewrite (peek_repr _ _ H).
  - by rewrite <- (repr_size _ _ H).
  - by rewrite (isEmpty_repr _ _ H).
  - by rewrite (toArray_repr _ _ H).
Qed.

Lemma run_simulates ops q l : repr q l -> run exec ops q = run spec_exec ops l.
Proof.
  revert q l; induction ops as [|op ops IH]; intros q l H; simpl; [done|].
  destruct (exec_simulates op q l H) as [E1 E2].
  destruct (exec op q), (spec_exec op l); simpl in *; subst. f_equal. by apply IH.
Qed.

(** C3: the ring buffer is a queue: whatever sequence of calls is made on a new queue
    of positive capacity, wrap-around and resizes included, every call returns
    what the same call returns on a plain list. *)
Theorem fast_queue_refines_list n ops : 0 < n ->
  run exec ops (new_FastQueue n) = run spec_exec ops [].
Proof. intros H. by apply run_simulates, new_repr. Qed.
End Refinement.

Lemma fast_queue_refines_list_witness :
  run exec [OpEnqueue 1; OpEnqueue 2; OpUnshift 0; OpDequeue; OpToArray; OpGetSize] (new_FastQueue 1)
  = [ObsUnit; ObsUnit; ObsUnit; ObsItem (Some 0); ObsItems [1; 2]; ObsSize 2].
Proof. rewrite (fast_queue_refines_list 1); [reflexivity | lia]. Defined.
End FastQueue.
