(* ===== verification/FlowTypes.v ===== *)
(** * Workflow data: [ui-v2/src/modules/workflow/types/react-flow-cots.ts]

    The types every other component shares.  An optional property is an
    [option]; a property that the code itself tests for absence at run time
    (a node's label and service, the parts of a mock expectation) is optional
    here too, whatever its declared type says, because workflow bundles are
    parsed from text.  Numbers are integers; ids, dates and free text are
    strings. *)

From S2P Require Import Prelude.

(** ** JSON values *)
Inductive JsonValue :=
| JNull
| JBool (b : bool)
| JNum (n : Z)
| JStr (s : string)
| JArr (items : list JsonValue)
| JObj (fields : list (string * JsonValue)).

Definition json_field (k : string) (v : JsonValue) : option JsonValue :=
  match v with JObj fs => assoc_get k fs | _ => None end.

(** ** Services *)
Inductive ServiceType :=
| Postgres | Mysql | Generic | Mariadb | Redis | Memcached
| Kafka | Rabbitmq | Mongodb | Nginx | Mockserver.

#[export] Instance ServiceType_eq_dec : EqDecision ServiceType.
Proof. solve_decision. Defined.

Definition service_type_name (t : ServiceType) : string :=
  match t with
  | Postgres => "postgres" | Mysql => "mysql" | Generic => "generic"
  | Mariadb => "mariadb" | Redis => "redis" | Memcached => "memcached"
  | Kafka => "kafka" | Rabbitmq => "rabbitmq" | Mongodb => "mongodb"
  | Nginx => "nginx" | Mockserver => "mockserver"
  end.

Record MockRequest := MkMockRequest {
  mr_method : option string;
  mr_path : option string;
  mr_headers : option (jmap string string);
  mr_body : option string
}.

Record MockResponse := MkMockResponse {
  ms_statusCode : option Z;
  ms_headers : option (jmap string string);
  ms_body : option string
}.

Record MockServerExpectation := MkExpectation {
  ex_id : option string;
  ex_request : option MockRequest;
  ex_response : option MockResponse
}.

Record RegistryConfig := MkRegistryConfig {
  rc_url : string;
  rc_auth_type : option string;
  rc_username : option string;
  rc_password : option string;
  rc_token : option string
}.

Record WaitStratergyConfig := MkWaitConfig {
  wc_type : string;
  wc_target : option string;
  wc_timeout : option Z
}.

(** The expectation as the runner receives it. *)
Record RunnerExpectation := MkRunnerExpectation {
  re_id : option string;
  re_request : option MockRequest;
  re_status_code : option Z;
  re_headers : option (jmap string string);
  re_body : option string
}.

Record ServiceConfig := MkServiceConfig {
  sc_name : string;
  sc_type : ServiceType;
  sc_image : option string;
  sc_command : option (list string);
  sc_env : option (jmap string string);
  sc_ports : option (list string);
  sc_depends_on : option (list string);
  sc_wait_strategy : option WaitStratergyConfig;
  sc_init_scripts : option (list string);
  sc_mockserver_expectations : option (list RunnerExpectation);
  sc_registry : option RegistryConfig
}.

Record PortMapping := MkPort { port_id : string; hostPort : string; containerPort : string }.
Record EnvironmentVariable := MkEnv { env_id : string; env_key : string; env_value : string }.
Record InitScript := MkScript {
  script_id : string; script_order : Z; script_text : string; script_description : option string
}.

Record NodeWait := MkNodeWait {
  nw_enabled : bool;
  nw_type : string;
  nw_target : option string;
  nw_timeout : option Z
}.

(** [ServiceNodeData.service]. *)
Record NodeService := MkNodeService {
  svc_type : ServiceType;
  svc_image : option string;
  svc_command : option (list string);
  svc_ports : option (list PortMapping);
  svc_env : option (list EnvironmentVariable);
  svc_wait : option NodeWait;
  svc_initScripts : option (list InitScript);
  svc_mockServer : option (list MockServerExpectation);
  svc_registry : option (string * string)
}.

(** ** Tests and scenarios *)
Inductive TestType :=
| TDatabase | TDocument | THttp | TShell | TCache | TQueue | TDelay.

#[export] Instance TestType_eq_dec : EqDecision TestType.
Proof. solve_decision. Defined.

Definition test_type_name (t : TestType) : string :=
  match t with
  | TDatabase => "database" | TDocument => "document" | THttp => "http"
  | TShell => "shell" | TCache => "cache" | TQueue => "queue" | TDelay => "delay"
  end.

Record TestRetryPolicy := MkRetryPolicy {
  rp_mode : string;
  rp_idempotencyConfirmed : bool
}.

Record DatabaseConfig := MkDatabaseConfig {
  db_driver : string; db_database : string; db_user : string;
  db_password : string; db_query : string; db_expectedResult : option JsonValue
}.

Record DocumentConfig := MkDocumentConfig {
  doc_service : string; doc_database : string; doc_collection : string;
  doc_operation : string;
  doc_document : option JsonValue; doc_filter : option JsonValue;
  doc_update : option JsonValue; doc_expectedDocument : option JsonValue;
  doc_expectedDocuments : option JsonValue; doc_expectedCount : option Z;
  doc_expectedExists : option bool
}.

(** [expectedBody.value] is a string or a JSON object. *)
Record HttpExpectedBody := MkExpectedBody { eb_mode : string; eb_value : JsonValue }.

Record HttpConfig := MkHttpConfig {
  http_method : string; http_path : string; http_port : string;
  http_headers : option (jmap string string); http_body : option string;
  http_expectedStatus : option Z; http_expectedBody : option HttpExpectedBody
}.

Record ShellConfig := MkShellConfig {
  sh_command : string; sh_env : option (jmap string string);
  sh_expectedOutput : option string; sh_expectedExitCode : option Z
}.

(** [value], [expectedValue]: a string or a number. *)
Record CacheConfig := MkCacheConfig {
  ca_service : string; ca_cacheType : string; ca_operation : string;
  ca_key : option string; ca_value : option JsonValue; ca_expectedValue : option JsonValue;
  ca_expectedExists : option bool; ca_ttl : option Z; ca_db : option Z;
  ca_password : option string
}.

Record QueueConfig := MkQueueConfig {
  qu_service : string; qu_brokerType : string; qu_operation : string;
  qu_topic : option string; qu_message : option JsonValue; qu_key : option string;
  qu_partition : option Z; qu_timeout : option Z; qu_fromBeginning : option bool;
  qu_expectedCount : option Z; qu_expectedMessage : option JsonValue;
  qu_expectedExists : option bool
}.

Record ScenarioTestDefinition := MkTest {
  test_id : string;
  test_name : string;
  test_type : TestType;
  test_targetServices : option (list string);
  test_dependsOnTestIds : option (list string);
  test_retryPolicy : option TestRetryPolicy;
  test_databaseConfig : option DatabaseConfig;
  test_documentConfig : option DocumentConfig;
  test_httpConfig : option HttpConfig;
  test_shellConfig : option ShellConfig;
  test_cacheConfig : option CacheConfig;
  test_queueConfig : option QueueConfig;
  test_delayConfig : option Z
}.

(** A test with no configuration, and updates of its fields. *)
Definition plain_test (id name : string) (ty : TestType) (targets : list string) : ScenarioTestDefinition :=
  MkTest id name ty (Some targets) None None None None None None None None None.

Record TestConfig := MkTestConfig {
  tc_name : string;
  tc_type : TestType;
  tc_depends_on : list string;
  tc_retry_policy : option TestRetryPolicy;
  tc_config : list (string * JsonValue)
}.

(** The sync metadata every stored entity has; the code keeps these six
    properties among the others of the entity. *)
Record SyncMeta := MkMeta {
  version : Z;
  created_at : string;
  updated_at : string;
  user_id : string;
  client_id : string;
  is_deleted : bool
}.

Record Scenario := MkScenario {
  scn_id : string;
  scn_projectId : string;
  scn_workflowId : string;
  scn_name : string;
  scn_description : option string;
  scn_tests : list ScenarioTestDefinition;
  scn_testOrder : list string;
  scn_meta : SyncMeta
}.

(** ** Nodes and edges *)
Record ServiceNodeData := MkNodeData {
  nd_label : option string;
  nd_description : option string;
  nd_service : option NodeService;
  nd_tests : option (list ScenarioTestDefinition)
}.

(** [FlowNode]: the properties the code reads are fields, the other React Flow
    properties (selected, zIndex, parentId, ...) are kept in [node_view]. *)
Record FlowNode := MkNode {
  node_id : string;
  node_position : Z * Z;
  node_view : jmap string JsonValue;
  node_data : ServiceNodeData
}.

Record EdgeData := MkEdgeData {
  ed_label : option string;
  ed_description : option string;
  ed_protocol : option string;
  ed_relation : option string;
  ed_readiness : option string;
  ed_needsReview : option bool;
  ed_showLabel : option bool;
  ed_layoutPoints : option (list (Z * Z))
}.

Record FlowEdge := MkEdge {
  edge_id : string;
  edge_source : string;
  edge_target : string;
  edge_type : option string;
  edge_data : option EdgeData
}.

(** ** Bundles *)
Record WorkflowBundleWorkflow := MkBundleWorkflow {
  bw_name : string;
  bw_description : option string;
  bw_nodes : list FlowNode;
  bw_edges : list FlowEdge
}.

Record WorkflowBundleScenario := MkBundleScenario {
  bs_name : string;
  bs_description : option string;
  bs_tests : list ScenarioTestDefinition;
  bs_testOrder : list string
}.

Record WorkflowBundle := MkBundle {
  wb_schemaVersion : Z;
  wb_kind : string;
  wb_workflow : WorkflowBundleWorkflow;
  wb_scenarios : list WorkflowBundleScenario
}.

(** ** Translation results *)
Record TranslationError := MkTranslationError {
  te_nodeId : option string;
  te_message : string;
  te_field : option string
}.

Record ValidationResult := MkValidation {
  vr_valid : bool;
  vr_errors : list TranslationError;
  vr_warnings : list string
}.

Record TranslationResult := MkTranslation {
  tr_services : list ServiceConfig;
  tr_tests : list TestConfig
}.

(** ** Run states *)
Inductive WorkflowRunStatus :=
| WPending | WRunning | WCancelling | WCancelled | WCompleted | WFailed
| WPartialFailed | WCleanupFailed.

Definition workflow_status_name (s : WorkflowRunStatus) : string :=
  match s with
  | WPending => "pending" | WRunning => "running" | WCancelling => "cancelling"
  | WCancelled => "cancelled" | WCompleted => "completed" | WFailed => "failed"
  | WPartialFailed => "partial_failed" | WCleanupFailed => "cleanup_failed"
  end.

#[export] Instance WorkflowRunStatus_eq_dec : EqDecision WorkflowRunStatus.
Proof. solve_decision. Defined.

Inductive ScenarioRunStatus :=
| SPending | SRunning | SCancelling | SCancelled | SCompleted | SFailed | SCleanupFailed.

Definition scenario_status_name (s : ScenarioRunStatus) : string :=
  match s with
  | SPending => "pending" | SRunning => "running" | SCancelling => "cancelling"
  | SCancelled => "cancelled" | SCompleted => "completed" | SFailed => "failed"
  | SCleanupFailed => "cleanup_failed"
  end.

#[export] Instance ScenarioRunStatus_eq_dec : EqDecision ScenarioRunStatus.
Proof. solve_decision. Defined.

Inductive ScenarioTestResultStatus := RPending | RRunning | RPassed | RFailed.

Definition result_status_name (s : ScenarioTestResultStatus) : string :=
  match s with
  | RPending => "pending" | RRunning => "running" | RPassed => "passed" | RFailed => "failed"
  end.

#[export] Instance ScenarioTestResultStatus_eq_dec : EqDecision ScenarioTestResultStatus.
Proof. solve_decision. Defined.

(** A runner event; the diagnostic and the result are kept as JSON. *)
Record WorkflowLogEvent := MkLogEvent {
  ev_workflowRunId : string;
  ev_projectId : string;
  ev_workflowId : string;
  ev_scenarioId : option string;
  ev_scenarioName : option string;
  ev_backendSessionId : option string;
  ev_message : string;
  ev_status : option string;
  ev_stage : option string;
  ev_kind : option string;
  ev_activityStatus : option string;
  ev_serviceId : option string;
  ev_serviceName : option string;
  ev_serviceNames : option (list string);
  ev_testId : option string;
  ev_testName : option string;
  ev_attempt : option Z;
  ev_maxAttempts : option Z;
  ev_retryReason : option string;
  ev_diagnostic : option JsonValue;
  ev_timestamp : Z;
  ev_sequence : Z;
  ev_result : option JsonValue;
  ev_error : option string
}.

(** One result of a [ScenarioTestResultEvent]. *)
Record TestResultEntry := MkResultEntry {
  tre_testResultId : string;
  tre_testName : string;
  tre_testType : option string;
  tre_status : ScenarioTestResultStatus;
  tre_resultData : option JsonValue;
  tre_durationMs : option Z;
  tre_executedAt : option string;
  tre_action : string;
  tre_containerLogs : option (jmap string string);
  tre_diagnostic : option JsonValue;
  tre_sequence : Z
}.

Record ScenarioTestResultEvent := MkTestResultEvent {
  tev_workflowRunId : string;
  tev_projectId : string;
  tev_workflowId : string;
  tev_scenarioId : string;
  tev_scenarioName : string;
  tev_backendSessionId : option string;
  tev_bulkId : string;
  tev_timestamp : Z;
  tev_results : list TestResultEntry
}.
