(* ===== verification/JsLib.v ===== *)
(** * The library functions of the language that the sources call

    [slice] with a negative start, [BigInt] of a string, [toISOString], string
    comparison and truthiness of JSON values. *)

From S2P Require Import Prelude FlowTypes.
From Stdlib Require Import Ascii.
Open Scope Z_scope.

(** [array.slice(-n)]. *)
Definition slice_last {A} (n : Z) (l : list A) : list A :=
  if n <=? 0 then drop (Z.to_nat (- n)) l else drop (length l - Z.to_nat n) l.

Lemma slice_last_length {A} n (l : list A) : 0 < n -> (length (slice_last n l) <= Z.to_nat n)%nat.
Proof. intros. unfold slice_last. rewrite (proj2 (Z.leb_gt n 0)) by lia. rewrite length_drop. lia. Qed.

Lemma slice_last_suffix {A} n (l : list A) : exists dropped, l = dropped ++ slice_last n l.
Proof.
  unfold slice_last. destruct (n <=? 0).
  - exists (take (Z.to_nat (- n)) l). by rewrite take_drop.
  - exists (take (length l - Z.to_nat n) l). by rewrite take_drop.
Qed.

Lemma slice_last_all {A} n (l : list A) : (length l <= Z.to_nat n)%nat -> 0 < n -> slice_last n l = l.
Proof.
  intros. unfold slice_last. rewrite (proj2 (Z.leb_gt n 0)) by lia.
  by replace (length l - Z.to_nat n)%nat with 0%nat by lia.
Qed.

(** ** [BigInt(text)]: [None] is a [SyntaxError]. *)
Definition digit_value (c : ascii) : option Z :=
  let n := Z.of_N (code c) in
  if (48 <=? n) && (n <=? 57) then Some (n - 48)
  else if (97 <=? n) && (n <=? 102) then Some (n - 87)
  else if (65 <=? n) && (n <=? 70) then Some (n - 55)
  else None.

(** The value of a hexadecimal and of a decimal digit. *)
Definition hex_value (c : ascii) : option Z := digit_value c.
Definition dec_value (c : ascii) : option Z :=
  match digit_value c with Some v => if v <? 10 then Some v else None | None => None end.

Fixpoint digits (base acc : Z) (s : string) : option Z :=
  match s with
  | EmptyString => Some acc
  | String c s' =>
      match digit_value c with
      | Some d => if d <? base then digits base (acc * base + d) s' else None
      | None => None
      end
  end.

(** A non-empty run of digits. *)
Definition digits1 (base : Z) (s : string) : option Z :=
  match s with EmptyString => None | _ => digits base 0 s end.

Definition js_BigInt (text : string) : option Z :=
  match js_trim text with
  | EmptyString => Some 0
  | String "0" (String "x" s) | String "0" (String "X" s) => digits1 16 s
  | String "0" (String "o" s) | String "0" (String "O" s) => digits1 8 s
  | String "0" (String "b" s) | String "0" (String "B" s) => digits1 2 s
  | String "-" s => Z.opp <$> digits1 10 s
  | String "+" s => digits1 10 s
  | s => digits1 10 s
  end%char.

(** ** [new Date(ms).toISOString()] *)
Fixpoint pad_left (n : nat) (s : string) : string :=
  match n with O => s | S n' => String "0" (pad_left n' s) end.
Definition padded (width : nat) (n : Z) : string :=
  let s := pretty n in pad_left (width - String.length s) s.

(** Year, month and day of a day number, in the proleptic Gregorian calendar:
    the era of 400 years and the day within the era. *)
Definition civil_from_days (days : Z) : Z * Z * Z :=
  let z := days + 719468 in
  let era := z / 146097 in
  let doe := z mod 146097 in
  let yoe := (doe - doe / 1460 + doe / 36524 - doe / 146096) / 365 in
  let doy := doe - (365 * yoe + yoe / 4 - yoe / 100) in
  let mp := (5 * doy + 2) / 153 in
  let d := doy - (153 * mp + 2) / 5 + 1 in
  let m := if mp <? 10 then mp + 3 else mp - 9 in
  (yoe + era * 400 + (if m <=? 2 then 1 else 0), m, d).

Definition iso_year (y : Z) : string :=
  if (0 <=? y) && (y <=? 9999) then padded 4 y
  else if y <? 0 then "-" +:+ padded 6 (- y) else "+" +:+ padded 6 y.

Definition iso_text (ms : Z) : string :=
  let '(y, m, d) := civil_from_days (ms / 86400000) in
  let t := ms mod 86400000 in
  iso_year y +:+ "-" +:+ padded 2 m +:+ "-" +:+ padded 2 d +:+ "T" +:+
    padded 2 (t / 3600000) +:+ ":" +:+ padded 2 (t / 60000 mod 60) +:+ ":" +:+
    padded 2 (t / 1000 mod 60) +:+ "." +:+ padded 3 (t mod 1000) +:+ "Z".

Definition max_time : Z := 8640000000000000.

Definition toISOString (ms : Z) : res string :=
  if max_time <? Z.abs ms then Throw JsRangeError else Return (iso_text ms).

Example iso_leap_day : toISOString 951782399999 = Return "2000-02-28T23:59:59.999Z"
  /\ toISOString 951782400000 = Return "2000-02-29T00:00:00.000Z"
  /\ toISOString (-1) = Return "1969-12-31T23:59:59.999Z".
Proof. vm_compute. auto. Qed.

(** A [Date] that is not an Invalid Date: a time within the range of the
    language.  [new_Date] is the constructor on a number, [None] an Invalid
    Date. *)
Record Date := MkDate { getTime : Z; date_valid : Z.abs getTime <=? max_time = true }.

#[export] Instance Date_eq_dec : EqDecision Date.
Proof.
  intros [a Ha] [b Hb]. destruct (decide (a = b)) as [->|Hn].
  - left. f_equal. apply (proof_irrel Ha Hb).
  - right. congruence.
Defined.

Definition new_Date (ms : Z) : option Date :=
  (if Z.abs ms <=? max_time as b return (Z.abs ms <=? max_time = b -> option Date)
   then fun H => Some (MkDate ms H) else fun _ => None) eq_refl.

Definition date_iso (d : Date) : string := iso_text (getTime d).

Lemma date_iso_returns d : toISOString (getTime d) = Return (date_iso d).
Proof.
  unfold toISOString, date_iso. destruct d as [t H]. simpl. apply Z.leb_le in H.
  by rewrite (proj2 (Z.ltb_ge _ _) H).
Qed.

Lemma new_Date_Some ms d : new_Date ms = Some d -> getTime d = ms.
Proof.
  unfold new_Date. generalize (eq_refl (Z.abs ms <=? max_time)).
  generalize (Z.abs ms <=? max_time) at 2 3. by intros [|] H; [intros [= <-]|].
Qed.

(** ** Comparison and truthiness *)

(** [a > b] on strings: by code unit. *)
Definition str_gt (a b : string) : bool := String.ltb b a.

Definition json_truthy (v : JsonValue) : bool :=
  match v with
  | JNull => false
  | JBool b => b
  | JNum n => negb (n =? 0)
  | JStr s => str_truthy s
  | JArr _ | JObj _ => true
  end.

(** A property read whose [null] counts as absent, for [??]. *)
Definition json_present (v : option JsonValue) : option JsonValue :=
  match v with Some JNull | None => None | Some v => Some v end.

Lemma str_compare_refl s : String.compare s s = Eq.
Proof.
  induction s as [|c s IH]; simpl; [done|]. unfold Ascii.compare. by rewrite N.compare_refl.
Qed.

Lemma str_gt_irrefl s : str_gt s s = false.
Proof. unfold str_gt, String.ltb. by rewrite str_compare_refl. Qed.

Lemma str_gt_total a b : a <> b -> str_gt a b = true \/ str_gt b a = true.
Proof.
  intros Hne. unfold str_gt, String.ltb. rewrite (String.compare_antisym a b).
  destruct (String.compare b a) eqn:E; simpl; auto. by apply String.compare_eq_iff in E.
Qed.

Lemma str_gt_trans a b c : str_gt a b = true -> str_gt b c = true -> str_gt a c = true.
Proof.
  unfold str_gt, String.ltb. revert a b.
  induction c as [|z c IH]; intros a b; [by destruct a, b|].
  destruct b as [|y b]; [done|]. destruct a as [|x a]; [done|]. simpl. unfold Ascii.compare.
  intros H1 H2.
  destruct (N.compare_spec (N_of_ascii y) (N_of_ascii x)) as [E1|E1|E1]; try done;
    destruct (N.compare_spec (N_of_ascii z) (N_of_ascii y)) as [E2|E2|E2]; try done.
  - rewrite E2, E1, N.compare_refl. by apply (IH a b).
  - rewrite <- E1. by rewrite (proj2 (N.compare_lt_iff _ _) E2).
  - rewrite E2. by rewrite (proj2 (N.compare_lt_iff _ _) E1).
  - rewrite (proj2 (N.compare_lt_iff (N_of_ascii z) (N_of_ascii x))); [done|]. by etransitivity.
Qed.
