(* ===== verification/SyncTypes.v ===== *)
(** * Wire data of the sync protocol: [ui-v2/src/modules/sync/sync-types.ts] *)

From S2P Require Import Prelude FlowTypes.

Inductive EntityType := Workflow_ | Scenario_ | WorkflowRun_ | ScenarioRun_ | TestResult_.
Inductive ChangeType := Insert_ | Update_ | Delete_.

#[export] Instance EntityType_eq_dec : EqDecision EntityType.
Proof. solve_decision. Defined.
#[export] Instance ChangeType_eq_dec : EqDecision ChangeType.
Proof. solve_decision. Defined.

Record SyncChange := MkChange {
  entity_type : EntityType;
  entity_id : string;
  change_type : ChangeType;
  data : JsonValue;
  client_time : string;
  client_version : Z
}.

(** What a change is about. *)
Definition change_key (c : SyncChange) : EntityType * string := (entity_type c, entity_id c).

Record SyncBatchRequest := MkBatchRequest {
  req_user_id : string;
  req_project_id : string;
  req_client_id : string;
  req_timestamp : string;
  req_changes : list SyncChange
}.

Record ConflictInfo := MkConflict {
  cf_entity_type : EntityType;
  cf_entity_id : string;
  cf_resolution : string;
  cf_message : string;
  cf_client_version : Z;
  cf_current_version : Z;
  cf_current_data : option JsonValue;
  cf_local_data : option JsonValue
}.

Record SyncError := MkSyncError {
  se_entity_type : option EntityType;
  se_entity_id : option string;
  se_message : string
}.

Record SyncBatchResponse := MkBatchResponse {
  rsp_success : bool;
  rsp_processed_count : Z;
  rsp_conflicts : option (list ConflictInfo);
  rsp_errors : option (list SyncError);
  rsp_server_version : Z
}.

Record SyncStatusResponse := MkStatusResponse {
  st_status : string;
  st_server_version : Z;
  st_timestamp : string
}.

(** The configurations of a pulled workflow or scenario and the metadata arrive
    as JSON values or as their text: they are kept raw here and parsed by the
    code that hydrates the stores. *)
Record WorkflowData := MkWorkflowData {
  wd_id : string;
  wd_project_id : string;
  wd_name : string;
  wd_description : option string;
  wd_nodes_config : option JsonValue;
  wd_edges_config : option JsonValue;
  wd_metadata : option JsonValue;
  wd_version : Z;
  wd_created_at : string;
  wd_updated_at : string;
  wd_user_id : string;
  wd_client_id : string;
  wd_is_deleted : bool
}.

Record ScenarioData := MkScenarioData {
  sd_id : string;
  sd_project_id : string;
  sd_workflow_id : string;
  sd_name : string;
  sd_description : option string;
  sd_tests_config : option JsonValue;
  sd_test_order : option JsonValue;
  sd_metadata : option JsonValue;
  sd_version : Z;
  sd_created_at : string;
  sd_updated_at : string;
  sd_user_id : string;
  sd_client_id : string;
  sd_is_deleted : bool
}.

Record WorkflowRunData := MkWorkflowRunData {
  wrd_id : string;
  wrd_project_id : string;
  wrd_workflow_id : string;
  wrd_status : WorkflowRunStatus;
  wrd_summary : option JsonValue;
  wrd_logs : option (list string);
  wrd_error : option string;
  wrd_started_at : option string;
  wrd_completed_at : option string;
  wrd_metadata : option JsonValue;
  wrd_version : Z;
  wrd_created_at : string;
  wrd_updated_at : string;
  wrd_user_id : string;
  wrd_client_id : string;
  wrd_is_deleted : bool
}.

Record SessionData := MkSessionData {
  sn_id : string;
  sn_project_id : string;
  sn_workflow_run_id : option string;
  sn_workflow_id : option string;
  sn_scenario_id : option string;
  sn_scenario_name : option string;
  sn_backend_session_id : option string;
  sn_status : ScenarioRunStatus;
  sn_result : option JsonValue;
  sn_logs : option (list string);
  sn_error : option string;
  sn_started_at : option string;
  sn_completed_at : option string;
  sn_phase : option string;
  sn_checkpoint_index : option Z;
  sn_version : option Z;
  sn_created_at : string;
  sn_updated_at : string;
  sn_user_id : string;
  sn_client_id : string;
  sn_is_deleted : bool
}.

Record TestResultData := MkTestResultData {
  trd_id : string;
  trd_project_id : string;
  trd_session_id : string;
  trd_workflow_run_id : option string;
  trd_workflow_id : string;
  trd_scenario_id : option string;
  trd_scenario_name : option string;
  trd_test_name : string;
  trd_test_type : string;
  trd_status : ScenarioTestResultStatus;
  trd_result_data : option JsonValue;
  trd_container_logs : option JsonValue;
  trd_duration_ms : Z;
  trd_executed_at : string;
  trd_created_at : string;
  trd_updated_at : string;
  trd_client_id : string;
  trd_user_id : string;
  trd_is_deleted : bool
}.

Record SyncPullResponse := MkPull {
  pull_workflows : option (list WorkflowData);
  pull_scenarios : option (list ScenarioData);
  pull_workflow_runs : option (list WorkflowRunData);
  pull_sessions : option (list SessionData);
  pull_test_results : option (list TestResultData)
}.
