(* ===== verification/ClientId.v ===== *)
(** * Browser identity: [ui-v2/src/modules/sync/client-id.ts] and
      [ui-v2/src/lib/generate-id.ts]

    [Host] is what the code reads of its surroundings: whether there is a
    [window], whether [localStorage] throws, the session variables of
    [auth/session-user.ts] and [projects/session-project.ts], the clock, and
    what the platform's random sources would return now. *)

From S2P Require Import Prelude.
From Stdlib Require Import Ascii.
Open Scope Z_scope.

(** The parts of [globalThis.crypto] the id generators probe. *)
Record Crypto := MkCrypto {
  randomUUID : option string;
  getRandomValues : option (list Z)
}.

Record Host := MkHost {
  hasWindow : bool;
  storageThrows : bool;
  localStorage : jmap string string;
  currentUserId : option string;
  currentProjectId : option string;
  nowMs : Z;
  nowIso : string;
  crypto : Crypto;
  randomHex : string;
  sendBeacon : option bool
}.

Definition set_localStorage (f : jmap string string -> jmap string string) (h : Host) : Host :=
  MkHost (hasWindow h) (storageThrows h) (f (localStorage h)) (currentUserId h)
    (currentProjectId h) (nowMs h) (nowIso h) (crypto h) (randomHex h) (sendBeacon h).

Definition set_currentUserId (u : option string) (h : Host) : Host :=
  MkHost (hasWindow h) (storageThrows h) (localStorage h) u
    (currentProjectId h) (nowMs h) (nowIso h) (crypto h) (randomHex h) (sendBeacon h).

Definition CLIENT_ID_KEY : string := "cots_client_id".
Definition USER_ID_KEY : string := "cots_user_id".

(** ** Identifiers *)
Definition hex_digit (n : Z) : ascii :=
  if n <? 10 then ascii_of_nat (Z.to_nat (48 + n)) else ascii_of_nat (Z.to_nat (87 + n)).

(** [byte.toString(16).padStart(2, "0")] for a byte. *)
Definition hex_byte (b : Z) : string :=
  String (hex_digit (Z.shiftr b 4)) (String (hex_digit (Z.land b 15)) EmptyString).

Definition uuid_bytes (bytes : list Z) : list Z :=
  let b6 := Z.lor (Z.land (default 0 (bytes !! 6%nat)) 15) 64 in
  let b8 := Z.lor (Z.land (default 0 (bytes !! 8%nat)) 63) 128 in
  <[8%nat := b8]> (<[6%nat := b6]> bytes).

Definition uuid_of_bytes (bytes : list Z) : string :=
  let hex := join "" (map hex_byte (uuid_bytes bytes)) in
  let slice (a b : nat) := String.substring a (b - a)%nat hex in
  (slice 0 8 +:+ "-" +:+ slice 8 12 +:+ "-" +:+ slice 12 16 +:+ "-" +:+
  slice 16 20 +:+ "-" +:+ slice 20 (String.length hex))%nat.

(** The [randomUUID], [getRandomValues] and clock fallbacks. *)
Definition createUuidLikeId (h : Host) : string :=
  match randomUUID (crypto h) with
  | Some u => u
  | None =>
      match getRandomValues (crypto h) with
      | Some bytes => uuid_of_bytes bytes
      | None => pretty (nowMs h) +:+ "-" +:+ randomHex h
      end
  end.

(** [generate-id.ts] repeats the same three branches. *)
Definition generateId (h : Host) : string :=
  match randomUUID (crypto h) with
  | Some u => u
  | None =>
      match getRandomValues (crypto h) with
      | Some bytes => uuid_of_bytes bytes
      | None => pretty (nowMs h) +:+ "-" +:+ randomHex h
      end
  end.

(** ** Client and user ids *)
Definition getOrCreateClientId (h : Host) : string * Host :=
  if negb (hasWindow h) then ("ssr-client-" +:+ pretty (nowMs h), h)
  else if storageThrows h then ("fallback-client-" +:+ pretty (nowMs h), h)
  else
    match localStorage h !! CLIENT_ID_KEY with
    | Some clientId =>
        if str_truthy clientId then (clientId, h)
        else let clientId := "client-" +:+ pretty (nowMs h) +:+ "-" +:+ createUuidLikeId h in
             (clientId, set_localStorage (insert CLIENT_ID_KEY clientId) h)
    | None =>
        let clientId := "client-" +:+ pretty (nowMs h) +:+ "-" +:+ createUuidLikeId h in
        (clientId, set_localStorage (insert CLIENT_ID_KEY clientId) h)
    end.

(** Without a [window] the read of [localStorage] throws and is caught. *)
Definition getUserId (h : Host) : res string :=
  if ostr_truthy (currentUserId h) then Return (default "" (currentUserId h))
  else
    let stored :=
      if negb (hasWindow h) || storageThrows h then None else localStorage h !! USER_ID_KEY in
    if ostr_truthy stored then Return (default "" stored)
    else Throw (JsError "No authenticated session user is available.").

Definition getProjectId (h : Host) : res string :=
  if ostr_truthy (currentProjectId h) then Return (default "" (currentProjectId h))
  else Throw (JsError "No active project is selected.").

Definition setUserId (userId : string) (h : Host) : Host :=
  let h := set_currentUserId (Some userId) h in
  if negb (hasWindow h) then h
  else if storageThrows h then h
  else set_localStorage (insert USER_ID_KEY userId) h.

Definition clearAuth (h : Host) : Host :=
  let h := set_currentUserId None h in
  if negb (hasWindow h) then h
  else if storageThrows h then h
  else set_localStorage (delete USER_ID_KEY) h.

Definition clearClientId (h : Host) : Host :=
  if negb (hasWindow h) then h
  else if storageThrows h then h
  else set_localStorage (delete CLIENT_ID_KEY) h.

Definition getClientId (h : Host) : option string :=
  if negb (hasWindow h) then None
  else if storageThrows h then None
  else localStorage h !! CLIENT_ID_KEY.

Definition isAuthenticated (h : Host) : bool := ostr_truthy (currentUserId h).

Definition getAuthInfo (h : Host) : (option string * string * bool) * Host :=
  let '(clientId, h') := getOrCreateClientId h in
  ((currentUserId h, clientId, isAuthenticated h'), h').

(** ** Theorems *)

(** A host whose storage works. *)
Definition storage_ok (h : Host) : Prop := hasWindow h = true /\ storageThrows h = false.

(** Another moment of the same browser: only the clock and the random sources
    may differ. *)
Definition later (h h' : Host) : Prop :=
  hasWindow h' = hasWindow h /\ storageThrows h' = storageThrows h
  /\ localStorage h' = localStorage h.

(** Making a client id signs nobody out. *)
Lemma client_id_user h : getUserId (getOrCreateClientId h).2 = getUserId h.
Proof.
  unfold getOrCreateClientId. destruct (hasWindow h) eqn:Ew, (storageThrows h) eqn:Es; simpl; try done.
  assert (H : forall c, getUserId (set_localStorage (insert CLIENT_ID_KEY c) h) = getUserId h).
  { intros c. unfold getUserId, set_localStorage. cbn [hasWindow storageThrows localStorage currentUserId].
    rewrite Ew, Es. cbn [negb orb].
    destruct (ostr_truthy (currentUserId h)); [done|].
    by rewrite jlookup_insert_ne by discriminate. }
  destruct (localStorage h !! CLIENT_ID_KEY) as [c|]; [destruct (str_truthy c)|]; simpl; by rewrite ?H.
Qed.

Lemma client_id_clock h : nowMs (getOrCreateClientId h).2 = nowMs h.
Proof. unfold getOrCreateClientId. by repeat case_match. Qed.

Lemma getOrCreateClientId_stored h id :
  storage_ok h -> localStorage h !! CLIENT_ID_KEY = Some id -> id <> "" ->
  getOrCreateClientId h = (id, h).
Proof.
  intros [Hw Ht] Hl Hne. unfold getOrCreateClientId. rewrite Hw, Ht, Hl. simpl.
  by rewrite (proj2 (str_truthy_spec id) Hne).
Qed.

Lemma getOrCreateClientId_stores h : storage_ok h ->
  localStorage (getOrCreateClientId h).2 !! CLIENT_ID_KEY = Some (getOrCreateClientId h).1
  /\ (getOrCreateClientId h).1 <> "" /\ storage_ok (getOrCreateClientId h).2.
Proof.
  intros [Hw Ht]. unfold getOrCreateClientId. rewrite Hw, Ht. cbn [negb].
  destruct (localStorage h !! CLIENT_ID_KEY) as [id|] eqn:E;
    [destruct (str_truthy id) eqn:Hid|]; cbn [fst snd set_localStorage localStorage].
  - by apply str_truthy_spec in Hid.
  - rewrite jlookup_insert_eq. split; [done|]. split; [discriminate|by split].
  - rewrite jlookup_insert_eq. split; [done|]. split; [discriminate|by split].
Qed.

(** The client id is created once: every later call returns the stored id and
    leaves the browser as it is. *)
Theorem client_id_stable h h' : storage_ok h -> later (getOrCreateClientId h).2 h' ->
  getOrCreateClientId h' = ((getOrCreateClientId h).1, h').
Proof.
  intros Hok (Hw & Ht & Hl).
  destruct (getOrCreateClientId_stores h Hok) as (Hs & Hne & [Hw2 Ht2]).
  apply getOrCreateClientId_stored; [split; congruence|congruence|done].
Qed.

Lemma hex_version b : hex_digit (Z.shiftr (Z.lor (Z.land b 15) 64) 4) = "4"%char.
Proof.
  rewrite Z.shiftr_lor, Z.shiftr_land. change (Z.shiftr 15 4) with 0.
  rewrite Z.land_0_r. done.
Qed.

Lemma hex_variant b :
  hex_digit (Z.shiftr (Z.lor (Z.land b 63) 128) 4) ∈ ["8"; "9"; "a"; "b"]%char.
Proof.
  rewrite Z.shiftr_lor, Z.shiftr_land. change (Z.shiftr 63 4) with 3. change (Z.shiftr 128 4) with 8.
  set (n := Z.shiftr b 4).
  assert (Hn : Z.land n 3 = n mod 4) by (exact (Z.land_ones n 2 ltac:(done))).
  pose proof (Z.mod_pos_bound n 4 eq_refl) as Hb. rewrite Hn.
  assert (Hc : n mod 4 = 0 \/ n mod 4 = 1 \/ n mod 4 = 2 \/ n mod 4 = 3) by lia.
  destruct Hc as [->|[->|[->| ->]]]; repeat (apply list_elem_of_here || apply list_elem_of_further).
Qed.

(** The shape of an RFC 4122 version 4 identifier. *)
Definition uuid_v4_shape (s : string) : Prop :=
  String.length s = 36%nat
  /\ String.get 8 s = Some "-"%char /\ String.get 13 s = Some "-"%char
  /\ String.get 18 s = Some "-"%char /\ String.get 23 s = Some "-"%char
  /\ String.get 14 s = Some "4"%char
  /\ (exists c, String.get 19 s = Some c /\ c ∈ ["8"; "9"; "a"; "b"]%char).

(** The byte-based id generator yields version 4 UUIDs. *)
Theorem uuid_of_bytes_v4 bytes : length bytes = 16%nat -> uuid_v4_shape (uuid_of_bytes bytes).
Proof.
  intros H. do 16 (destruct bytes as [|? bytes]; [done|]). destruct bytes; [|done].
  unfold uuid_of_bytes, uuid_bytes, uuid_v4_shape. cbn -[hex_digit Z.shiftr Z.land Z.lor].
  repeat split; try done.
  - exact (f_equal Some (hex_version _)).
  - eexists; split; [|apply hex_variant]. reflexivity.
Qed.

(** ** Witnesses *)
Definition sample_host : Host :=
  MkHost true false (JMap []) (Some "user-1") (Some "project-1") 1700000000000 "2024-01-01T00:00:00.000Z"
    (MkCrypto None (Some (repeat 171 16))) "abc123" (Some true).

Lemma client_id_stable_witness :
  getOrCreateClientId (getOrCreateClientId sample_host).2
  = ((getOrCreateClientId sample_host).1, (getOrCreateClientId sample_host).2).
Proof. apply (client_id_stable sample_host); [by split | by repeat split]. Defined.

Lemma uuid_of_bytes_v4_witness : uuid_v4_shape (uuid_of_bytes (repeat 171 16)).
Proof. apply uuid_of_bytes_v4. reflexivity. Defined.
