(* ===== verification/SyncService.v ===== *)
(** * The sync queue: [ui-v2/src/modules/sync/sync-service.ts] and [sync-init.ts]

    The service keeps changes in a queue, mirrors the queue in local storage
    and posts batches to the server.  Everything is stated for any
    implementation of [Deque]; [FastQueue] supplies the one the code uses.

    A method that awaits the network is split at the [await]: [flush] returns
    either its result or the request it waits for ([Pending]), and [resume]
    continues with the reply.  [commitBatch] composes the pieces for a server
    given as a function, [step] interleaves them.

    The value of the storage key [cots_sync_queue] is kept as the array its
    text denotes: [JSON.parse(JSON.stringify(a))] gives back an array of
    changes, whose [data] is JSON.  Any other text is [SlotUnreadable]. *)

From S2P Require Import Prelude FlowTypes SyncTypes ClientId FastQueue.
Open Scope Z_scope.

Inductive StorageSlot :=
| SlotMissing
| SlotItems (items : list SyncChange)
| SlotUnreadable.

(** What [fetch] gives: a rejected promise (network failure or the timeout's
    abort), or a response whose body may fail to parse. *)
Inductive FetchOutcome (B : Type) :=
| FetchRejected
| FetchResponse (status : Z) (text : string) (json : option B).
Arguments FetchRejected {B}.
Arguments FetchResponse {B} status text json.

Definition response_ok (status : Z) : bool := (200 <=? status) && (status <=? 299).

Definition PRE_RUN_SYNC_ENTITIES : list EntityType := [Workflow_; Scenario_].

Definition is_pre_run (c : SyncChange) : bool := bool_decide (entity_type c ∈ PRE_RUN_SYNC_ENTITIES).

Definition SYNC_ENTITY_ORDER (e : EntityType) : Z :=
  match e with
  | Workflow_ => 0 | Scenario_ => 1 | WorkflowRun_ => 2 | ScenarioRun_ => 3 | TestResult_ => 4
  end.

(** [a || b] on numbers. *)
Definition num_or (a b : Z) : Z := if a =? 0 then b else a.

Definition order_cmp (left right : SyncChange * nat) : Z :=
  num_or (SYNC_ENTITY_ORDER (entity_type left.1) - SYNC_ENTITY_ORDER (entity_type right.1))
         (Z.of_nat left.2 - Z.of_nat right.2).

Definition orderSyncChanges (changes : list SyncChange) : list SyncChange :=
  map fst (js_sort order_cmp (zip changes (seq 0 (length changes)))).

Definition isDeletedPayload (d : JsonValue) : bool :=
  match json_field "is_deleted" d with Some (JBool true) => true | _ => false end.

(** [Number(data?.version ?? 0)]; a version is a number in every serializer. *)
Definition serializedVersion (d : JsonValue) : Z :=
  match json_field "version" d with
  | Some (JNum n) => n
  | Some (JBool true) => 1
  | _ => 0
  end.

Definition same_entity (a b : SyncChange) : bool := bool_decide (change_key a = change_key b).

Fixpoint findIndex {A} (p : A -> bool) (l : list A) : option nat :=
  match l with
  | [] => None
  | x :: l' => if p x then Some 0%nat else S <$> findIndex p l'
  end.

Definition missing_error (e : SyncError) : bool :=
  (bool_decide (se_entity_type e = Some Workflow_) || bool_decide (se_entity_type e = Some Scenario_))
  && ostr_truthy (se_entity_id e)
  && str_includes "no longer exists" (se_message e).

(** The set of entity type and id pairs the code keys as type:id. *)
Definition missing_keys (errors : list SyncError) : list (option EntityType * option string) :=
  set_of_list (map (fun e => (se_entity_type e, se_entity_id e)) (filter (fun e => missing_error e = true) errors)).

Definition repairable (missing : list (option EntityType * option string)) (c : SyncChange) : bool :=
  bool_decide (change_type c = Update_)
  && set_has (Some (entity_type c), Some (entity_id c)) missing
  && negb (isDeletedPayload (data c)).

Definition as_insert (c : SyncChange) : SyncChange :=
  MkChange (entity_type c) (entity_id c) Insert_ (data c) (client_time c) 0.

Definition repairMissingEntityUpdates (batch : list SyncChange) (errors : option (list SyncError))
    : option (list SyncChange) :=
  match errors with
  | None | Some [] => None
  | Some es =>
      let missing := missing_keys es in
      match missing with
      | [] => None
      | _ =>
          let repairedBatch := map (fun c => if repairable missing c then as_insert c else c) batch in
          if existsb (repairable missing) batch then Some repairedBatch else None
      end
  end.

(** [!success || errors?.length > 0]: the server rolled the batch back. *)
Definition rolled_back (r : SyncBatchResponse) : bool :=
  negb (rsp_success r) || (0 <? Z.of_nat (length (default [] (rsp_errors r)))).

Section Service.
Context `{D : Deque SyncChange}.

Record SyncService := MkService {
  baseUrl : string;
  syncQueue : dq;
  syncInterval : Z;
  maxBatchSize : Z;
  requestTimeoutMs : Z;
  intervalId : option Z;
  enabled : bool;
  flushCount : Z
}.

(** The service, its browser, the storage slot and the conflict events
    dispatched so far. *)
Record World := MkWorld {
  service : SyncService;
  host : Host;
  slot : StorageSlot;
  conflictEvents : list (list ConflictInfo)
}.

Definition set_service (f : SyncService -> SyncService) (w : World) : World :=
  MkWorld (f (service w)) (host w) (slot w) (conflictEvents w).
Definition set_host (h : Host) (w : World) : World :=
  MkWorld (service w) h (slot w) (conflictEvents w).
Definition set_slot (s : StorageSlot) (w : World) : World :=
  MkWorld (service w) (host w) s (conflictEvents w).
Definition set_queue (q : dq) (s : SyncService) : SyncService :=
  MkService (baseUrl s) q (syncInterval s) (maxBatchSize s) (requestTimeoutMs s)
    (intervalId s) (enabled s) (flushCount s).
Definition on_queue (f : dq -> dq) (w : World) : World :=
  set_service (fun s => set_queue (f (syncQueue s)) s) w.

(** The array the queue holds. *)
Definition queue_items (w : World) : list SyncChange := dq_toArray (syncQueue (service w)).

(** ** Persistence *)
Definition persistQueue (w : World) : World :=
  if negb (hasWindow (host w)) then w
  else if storageThrows (host w) then w
  else
    let items := queue_items w in
    match items with
    | [] => set_slot SlotMissing w
    | _ => set_slot (SlotItems items) w
    end.

Definition enqueue_all (items : list SyncChange) (q : dq) : dq :=
  fold_left (fun q item => dq_enqueue item q) items q.

(** When storage itself throws, so does the [removeItem] of the handler. *)
Definition restoreQueue (w : World) : res World :=
  if negb (hasWindow (host w)) then Return w
  else if storageThrows (host w) then Throw JsTypeError
  else
    match slot w with
    | SlotMissing => Return w
    | SlotItems items => Return (on_queue (enqueue_all items) w)
    | SlotUnreadable => Return (set_slot SlotMissing w)
    end.

(** [new SyncService(baseUrl)]. *)
Definition new_SyncService (url : string) (h : Host) (s : StorageSlot) : res World :=
  restoreQueue (MkWorld (MkService url (dq_new 1024) 3000 100 8000 None true 0) h s []).

Definition replaceQueue (changes : list SyncChange) (w : World) : World :=
  on_queue (fun q => enqueue_all changes (dq_clear q)) w.

(** ** Timers and settings *)
Definition set_intervalId (t : option Z) (s : SyncService) : SyncService :=
  MkService (baseUrl s) (syncQueue s) (syncInterval s) (maxBatchSize s) (requestTimeoutMs s)
    t (enabled s) (flushCount s).

Definition start (s : SyncService) : SyncService :=
  match intervalId s with
  | Some _ => s
  | None => set_intervalId (Some (syncInterval s)) s
  end.

Definition stop (s : SyncService) : SyncService :=
  match intervalId s with
  | Some _ => set_intervalId None s
  | None => s
  end.

Definition isRunning (s : SyncService) : bool := bool_decide (is_Some (intervalId s)).

Definition set_baseUrl (url : string) (s : SyncService) : SyncService :=
  MkService url (syncQueue s) (syncInterval s) (maxBatchSize s) (requestTimeoutMs s)
    (intervalId s) (enabled s) (flushCount s).

Definition set_syncInterval (interval : Z) (s : SyncService) : SyncService :=
  let s := MkService (baseUrl s) (syncQueue s) interval (maxBatchSize s) (requestTimeoutMs s)
             (intervalId s) (enabled s) (flushCount s) in
  if isRunning s then start (stop s) else s.

Definition set_maxBatchSize (size : Z) (s : SyncService) : SyncService :=
  MkService (baseUrl s) (syncQueue s) (syncInterval s) size (requestTimeoutMs s)
    (intervalId s) (enabled s) (flushCount s).

Definition setEnabled (e : bool) (s : SyncService) : SyncService :=
  MkService (baseUrl s) (syncQueue s) (syncInterval s) (maxBatchSize s) (requestTimeoutMs s)
    (intervalId s) e (flushCount s).

Record SyncConfig := MkSyncConfig {
  cfg_baseUrl : option string;
  cfg_syncInterval : option Z;
  cfg_maxBatchSize : option Z;
  cfg_enabled : option bool;
  cfg_autoStart : option bool
}.

Definition initSync (cfg : SyncConfig) (s : SyncService) : SyncService :=
  let url := default "" (cfg_baseUrl cfg) in
  let interval := default 3000 (cfg_syncInterval cfg) in
  let batch := default 100 (cfg_maxBatchSize cfg) in
  let en := default true (cfg_enabled cfg) in
  let auto := default true (cfg_autoStart cfg) in
  let s := if decide (url = baseUrl s) then s else set_baseUrl url s in
  let s := if decide (interval = syncInterval s) then s else set_syncInterval interval s in
  let s := if decide (batch = maxBatchSize s) then s else set_maxBatchSize batch s in
  let s := setEnabled en s in
  if auto && en then start s else s.

(** ** Queueing *)
Definition coalesceQueuedChange (incoming : SyncChange) (w : World) : bool * World :=
  let current := queue_items w in
  match findIndex (fun c => same_entity c incoming) current with
  | None => (false, w)
  | Some index =>
      match current !! index with
      | Some existing =>
          if bool_decide (change_type existing = Insert_) && bool_decide (change_type incoming = Update_)
          then (true, persistQueue (replaceQueue (<[index := as_insert incoming]> current) w))
          else (false, w)
      | None => (false, w)
      end
  end.

(** The stamped change; [client_time] is the host's clock. *)
Definition fullChange (e : EntityType) (id : string) (ct : ChangeType) (d : JsonValue) (h : Host) : SyncChange :=
  MkChange e id ct d (nowIso h)
    (if bool_decide (ct = Insert_) then 0 else Z.max 0 (serializedVersion d - 1)).

Definition queueChange (e : EntityType) (id : string) (ct : ChangeType) (d : JsonValue) (w : World) : World :=
  if negb (enabled (service w)) then w
  else
    let full := fullChange e id ct d (host w) in
    let '(coalesced, w') := coalesceQueuedChange full w in
    if coalesced then w' else persistQueue (on_queue (dq_enqueue full) w').

(** ** Sending *)
Definition sendBatch_request (changes : list SyncChange) (w : World) : res SyncBatchRequest * World :=
  match getUserId (host w) with
  | Throw e => (Throw e, w)
  | Return userId =>
      match getProjectId (host w) with
      | Throw e => (Throw e, w)
      | Return projectId =>
          let '(clientId, h') := getOrCreateClientId (host w) in
          (Return (MkBatchRequest userId projectId clientId (nowIso h') (orderSyncChanges changes)),
           set_host h' w)
      end
  end.

Definition sendBatch_reply (o : FetchOutcome SyncBatchResponse) : res SyncBatchResponse :=
  match o with
  | FetchRejected => Throw JsTypeError
  | FetchResponse status text json =>
      if negb (response_ok status) then Throw (JsError (pretty status +:+ ": " +:+ text))
      else match json with Some r => Return r | None => Throw JsTypeError end
  end.

(** Batches go back to the front, in order, and the mirror is rewritten. *)
Definition requeue (batch : list SyncChange) (w : World) : World :=
  persistQueue (on_queue (dq_unshiftMany batch) w).

Definition dispatchConflicts (r : SyncBatchResponse) (batch : list SyncChange) (w : World) : World :=
  match rsp_conflicts r with
  | None | Some [] => w
  | Some conflicts =>
      if negb (hasWindow (host w)) then w
      else
        let local (c : ConflictInfo) :=
          data <$> List.find (fun ch => bool_decide (change_key ch = (cf_entity_type c, cf_entity_id c))) batch in
        let detail := map (fun c =>
          MkConflict (cf_entity_type c) (cf_entity_id c) (cf_resolution c) (cf_message c)
            (cf_client_version c) (cf_current_version c) (cf_current_data c) (local c)) conflicts in
        MkWorld (service w) (host w) (slot w) (conflictEvents w ++ [detail])
  end.

(** What [commitBatch] waits for: the reply to the batch, or to its repair. *)
Inductive Pending :=
| AwaitBatch (batch : list SyncChange)
| AwaitRepair (batch repaired : list SyncChange).

Inductive Progress :=
| Done (result : option SyncBatchResponse)
| Waiting (req : SyncBatchRequest) (p : Pending).

(** [commitBatch] up to its first [await]. *)
Definition commitBatch_begin (batch : list SyncChange) (w : World) : Progress * World :=
  match sendBatch_request batch w with
  | (Return req, w') => (Waiting req (AwaitBatch batch), w')
  | (Throw _, w') => (Done None, requeue batch w')
  end.

(** [commitBatch] after an [await]. *)
Definition resume (p : Pending) (o : FetchOutcome SyncBatchResponse) (w : World) : Progress * World :=
  match p with
  | AwaitBatch batch =>
      match sendBatch_reply o with
      | Throw _ => (Done None, requeue batch w)
      | Return response =>
          match repairMissingEntityUpdates batch (rsp_errors response) with
          | Some repairedBatch =>
              match sendBatch_request repairedBatch w with
              | (Return req, w') => (Waiting req (AwaitRepair batch repairedBatch), w')
              | (Throw _, w') => (Done None, requeue batch w')
              end
          | None =>
              if rolled_back response then (Done None, requeue batch w)
              else (Done (Some response), dispatchConflicts response batch w)
          end
      end
  | AwaitRepair batch repairedBatch =>
      match sendBatch_reply o with
      | Throw _ => (Done None, requeue batch w)
      | Return retryResponse =>
          if rolled_back retryResponse then (Done None, requeue repairedBatch w)
          else (Done (Some retryResponse), dispatchConflicts retryResponse repairedBatch w)
      end
  end.

Definition flush_begin (w : World) : Progress * World :=
  if negb (enabled (service w)) || dq_isEmpty (syncQueue (service w)) then (Done None, w)
  else
    let '(batch, q) := dq_dequeueMany (maxBatchSize (service w)) (syncQueue (service w)) in
    let w' := persistQueue (on_queue (fun _ => q) w) in
    match batch with
    | [] => (Done None, w')
    | _ => commitBatch_begin batch w'
    end.

(** [dequeueMatching]: one pass that splits the queue. *)
Fixpoint split_matching (predicate : SyncChange -> bool) (limit : Z)
    (batch remaining current : list SyncChange) : list SyncChange * list SyncChange :=
  match current with
  | [] => (batch, remaining)
  | c :: current' =>
      if predicate c && (Z.of_nat (length batch) <? limit)
      then split_matching predicate limit (batch ++ [c]) remaining current'
      else split_matching predicate limit batch (remaining ++ [c]) current'
  end.

Definition dequeueMatching (predicate : SyncChange -> bool) (w : World) : list SyncChange * World :=
  let '(batch, remaining) :=
    split_matching predicate (maxBatchSize (service w)) [] [] (queue_items w) in
  (batch, persistQueue (replaceQueue remaining w)).

Definition hasPendingPreRunChanges (w : World) : bool := existsb is_pre_run (queue_items w).

Definition hasBlockingPreRunChanges (workflowId : string) (w : World) : bool :=
  existsb (fun c =>
    if negb (bool_decide (entity_type c = Workflow_)) || negb (bool_decide (entity_id c = workflowId))
    then false
    else bool_decide (change_type c = Insert_) || bool_decide (change_type c = Delete_))
    (queue_items w).

Definition getPendingPreRunChanges (w : World) : list SyncChange :=
  filter (fun c => is_pre_run c = true) (queue_items w).

Definition getQueueSize (w : World) : nat := dq_getSize (syncQueue (service w)).

Definition clearQueue (w : World) : World := persistQueue (on_queue dq_clear w).

(** The page-hide path: the batch leaves the queue before the identity is
    read, and it is not ordered. *)
Definition flushOnPageHide (w : World) : res bool * World :=
  if negb (enabled (service w)) || dq_isEmpty (syncQueue (service w))
     || negb (hasWindow (host w)) || negb (bool_decide (is_Some (sendBeacon (host w))))
  then (Return false, w)
  else
    let '(batch, q) := dq_dequeueMany (maxBatchSize (service w)) (syncQueue (service w)) in
    let w := persistQueue (on_queue (fun _ => q) w) in
    match batch with
    | [] => (Return false, w)
    | _ =>
        match getUserId (host w) with
        | Throw e => (Throw e, w)
        | Return _ =>
            match getProjectId (host w) with
            | Throw e => (Throw e, w)
            | Return _ =>
                let w := set_host (getOrCreateClientId (host w)).2 w in
                if bool_decide (sendBeacon (host w) = Some true) then (Return true, w)
                else (Return false, requeue batch w)
            end
        end
    end.

(** ** Reads of the server *)
Definition getStatus (o : FetchOutcome SyncStatusResponse) : res SyncStatusResponse :=
  match o with
  | FetchRejected => Throw JsTypeError
  | FetchResponse status _ json =>
      if negb (response_ok status) then Throw (JsError ("Status check failed: " +:+ pretty status))
      else match json with Some r => Return r | None => Throw JsTypeError end
  end.

(** The address of a request about this client, for [pull] and [clear]. *)
Definition client_url (verb : string) (w : World) : res string * World :=
  match getUserId (host w) with
  | Throw e => (Throw e, w)
  | Return userId =>
      match getProjectId (host w) with
      | Throw e => (Throw e, w)
      | Return projectId =>
          let '(clientId, h') := getOrCreateClientId (host w) in
          (Return (baseUrl (service w) +:+ "/api/v1/sync/" +:+ verb +:+ "/" +:+ clientId
                   +:+ "?userId=" +:+ userId +:+ "&projectId=" +:+ projectId), set_host h' w)
      end
  end.

Definition pull_reply (o : FetchOutcome SyncPullResponse) : res SyncPullResponse :=
  match o with
  | FetchRejected => Throw JsTypeError
  | FetchResponse status _ json =>
      if negb (response_ok status) then Throw (JsError ("Pull failed: " +:+ pretty status))
      else match json with Some r => Return r | None => Throw JsTypeError end
  end.

Definition pull (o : string -> FetchOutcome SyncPullResponse) (w : World) : res SyncPullResponse * World :=
  match client_url "pull" w with
  | (Throw e, w') => (Throw e, w')
  | (Return url, w') => (pull_reply (o url), w')
  end.

Definition clear (o : string -> FetchOutcome unit) (w : World) : res unit * World :=
  match client_url "clear" w with
  | (Throw e, w') => (Throw e, w')
  | (Return url, w') =>
      (match o url with
       | FetchRejected => Throw JsTypeError
       | FetchResponse status _ _ =>
           if negb (response_ok status) then Throw (JsError ("Clear failed: " +:+ pretty status))
           else Return tt
       end, w')
  end.

(** [checkSyncHealth] of [sync-init.ts]. *)
Definition checkSyncHealth (o : FetchOutcome SyncStatusResponse) (w : World) : string * nat :=
  match getStatus o with
  | Return r => (st_status r, getQueueSize w)
  | Throw _ => ("error", getQueueSize w)
  end.

(** ** Runs against a server

    The server is a state machine; no other code runs between the awaits. *)
Section Server.
Context {S : Type} (server : S -> SyncBatchRequest -> FetchOutcome SyncBatchResponse * S).

Definition drive (n : nat) : Progress * World -> S -> option SyncBatchResponse * World * S :=
  (fix go (n : nat) (pw : Progress * World) (s : S) {struct n} :=
     match pw with
     | (Done r, w) => (r, w, s)
     | (Waiting req p, w) =>
         match n with
         | 0%nat => (None, w, s)
         | Datatypes.S n' => let '(o, s') := server s req in go n' (resume p o w) s'
         end
     end) n.

(** [commitBatch] sends at most twice. *)
Definition commitBatch (batch : list SyncChange) (w : World) (s : S) :=
  drive 2 (commitBatch_begin batch w) s.

Definition flush (w : World) (s : S) := drive 2 (flush_begin w) s.

(** The loop of [flushPending], with the attempts that are left. *)
Fixpoint flushPending (attempts : nat) (w : World) (s : S) : World * S :=
  match attempts with
  | 0%nat => (w, s)
  | Datatypes.S n =>
      if dq_isEmpty (syncQueue (service w)) then (w, s)
      else
        match flush w s with
        | (None, w', s') => (w', s')
        | (Some _, w', s') => flushPending n w' s'
        end
  end.

Fixpoint flushPendingBeforeRun (attempts : nat) (w : World) (s : S) : World * S :=
  match attempts with
  | 0%nat => (w, s)
  | Datatypes.S n =>
      if negb (hasPendingPreRunChanges w) then (w, s)
      else
        match dequeueMatching is_pre_run w with
        | ([], w') => (w', s)
        | (batch, w') =>
            match commitBatch batch w' s with
            | (None, w'', s') => (w'', s')
            | (Some _, w'', s') => flushPendingBeforeRun n w'' s'
            end
        end
  end.
End Server.
End Service.
