(* ===== verification/SyncServiceFacts.v ===== *)
(** * Lemmas about the sync queue

    The order of a batch and its repair; then, for any implementation of the
    queue interface, what each operation does to the queued list, to its mirror
    in storage and to the phase of a commit. *)

From S2P Require Import Prelude FlowTypes SyncTypes ClientId FastQueue SyncService.
Open Scope Z_scope.

(** ** The order of a batch *)
Definition entity_rank (c : SyncChange) : Z := SYNC_ENTITY_ORDER (entity_type c).

#[export] Instance order_cmp_comparator : Comparator order_cmp.
Proof.
  split; unfold cmp_le, order_cmp, num_or.
  - intros [c i] [c' j]; simpl. repeat (case_match; bools; try lia).
  - intros [c i] [c' j] [c'' k]; simpl.
    destruct (Z.eqb_spec (SYNC_ENTITY_ORDER (entity_type c) - SYNC_ENTITY_ORDER (entity_type c')) 0),
      (Z.eqb_spec (SYNC_ENTITY_ORDER (entity_type c') - SYNC_ENTITY_ORDER (entity_type c'')) 0),
      (Z.eqb_spec (SYNC_ENTITY_ORDER (entity_type c) - SYNC_ENTITY_ORDER (entity_type c'')) 0); lia.
Qed.

Lemma zip_seq_fst {A} (l : list A) n : map fst (zip l (seq n (length l))) = l.
Proof. revert n; induction l as [|x l IH]; intros n; simpl; [done|]. by rewrite IH. Qed.

Lemma orderSyncChanges_perm l : orderSyncChanges l ≡ₚ l.
Proof.
  unfold orderSyncChanges. rewrite js_sort_perm. by rewrite zip_seq_fst.
Qed.

Lemma order_cmp_rank x y : cmp_le order_cmp x y -> entity_rank x.1 <= entity_rank y.1.
Proof.
  unfold cmp_le, order_cmp, num_or, entity_rank.
  case_match; bools; lia.
Qed.

(** Indices of a zip grow, so equal ranks stay in place. *)
Lemma zip_seq_sorted {A} (l : list A) n :
  StronglySorted (fun p q => (p.2 < q.2)%nat) (zip l (seq n (length l)))
  /\ Forall (fun p => (n <= p.2)%nat) (zip l (seq n (length l))).
Proof.
  revert n; induction l as [|x l IH]; intros n; simpl; [split; constructor|].
  destruct (IH (S n)) as [H1 H2]. split.
  - constructor; [done|]. eapply Forall_impl; [exact H2|]. simpl. lia.
  - constructor; [simpl; lia|]. eapply Forall_impl; [exact H2|]. simpl. lia.
Qed.

Lemma filter_fst_zip (P : SyncChange -> Prop) `{!forall c, Decision (P c)} (l : list (SyncChange * nat)) :
  filter P (map fst l) = map fst (filter (fun p => P p.1) l).
Proof.
  induction l as [|[c i] l IH]; simpl; [done|].
  rewrite !filter_cons; simpl. case_decide; simpl; by rewrite IH.
Qed.

(** Two sorted lists of the same elements under a strict order are equal. *)
Lemma sorted_perm_eq {A} (R : A -> A -> Prop) (l1 l2 : list A) :
  (forall x y, R x y -> R y x -> False) ->
  StronglySorted R l1 -> StronglySorted R l2 -> l1 ≡ₚ l2 -> l1 = l2.
Proof.
  intros Hasym. revert l2; induction l1 as [|x l1 IH]; intros l2 H1 H2 Hp.
  { by apply Permutation_nil_l in Hp. }
  destruct l2 as [|y l2]; [by apply Permutation_nil_r in Hp|].
  inversion H1 as [|?? Hs1 Hx]; inversion H2 as [|?? Hs2 Hy]; subst.
  assert (x = y) as ->.
  { assert (Hxin : x ∈ y :: l2) by (rewrite <- Hp; apply list_elem_of_here).
    assert (Hyin : y ∈ x :: l1) by (rewrite Hp; apply list_elem_of_here).
    apply elem_of_cons in Hxin as [?|Hxin]; [done|].
    apply elem_of_cons in Hyin as [?|Hyin]; [done|].
    rewrite Forall_forall in Hx, Hy. exfalso. eauto. }
  f_equal. apply IH; [done..|]. by apply Permutation_cons_inv in Hp.
Qed.

Lemma orderSyncChanges_rank_stable r l :
  filter (fun c => entity_rank c = r) (orderSyncChanges l) = filter (fun c => entity_rank c = r) l.
Proof.
  unfold orderSyncChanges. set (z := zip l (seq 0 (length l))).
  rewrite filter_fst_zip.
  transitivity (map fst (filter (fun p : SyncChange * nat => entity_rank p.1 = r) z)).
  2: { symmetry. rewrite <- (zip_seq_fst l 0) at 1. exact (filter_fst_zip (fun c => entity_rank c = r) z). }
  f_equal. apply (sorted_perm_eq (fun p q => (p.2 < q.2)%nat)); [lia| | |].
  - pose proof (js_sort_sorted order_cmp z) as Hs.
    apply (StronglySorted_filter (fun p : SyncChange * nat => entity_rank p.1 = r)) in Hs.
    assert (Hn : NoDup (map snd (filter (fun p : SyncChange * nat => entity_rank p.1 = r) (js_sort order_cmp z)))).
    { apply (sublist_NoDup _ (map snd (js_sort order_cmp z))).
      - rewrite js_sort_perm. unfold z. rewrite snd_zip; [apply NoDup_seq|by rewrite length_seq].
      - apply (fmap_sublist snd), sublist_filter. }
    assert (Hr : Forall (fun p : SyncChange * nat => entity_rank p.1 = r)
              (filter (fun p : SyncChange * nat => entity_rank p.1 = r) (js_sort order_cmp z))).
    { apply Forall_forall. by intros p [? _]%list_elem_of_filter. }
    induction Hs as [|p ps Hs IH Hp]; [constructor|].
    simpl in Hn. apply NoDup_cons in Hn as [Hpn Hn]. apply Forall_cons in Hr as [Hpr Hr].
    constructor; [by apply IH|].
    rewrite Forall_forall in Hp, Hr |- *. intros q Hq.
    specialize (Hp q Hq). specialize (Hr q Hq). unfold cmp_le, order_cmp, num_or, entity_rank in *.
    assert (Hne : p.2 <> q.2) by (intros E; apply Hpn; rewrite E; by apply list_elem_of_fmap_2).
    revert Hp. case_match; bools; lia.
  - apply StronglySorted_filter, zip_seq_sorted.
  - by rewrite js_sort_perm.
Qed.

(** ** Repair *)
Lemma as_insert_key c : change_key (as_insert c) = change_key c.
Proof. done. Qed.

Lemma repair_keys batch errors repaired :
  repairMissingEntityUpdates batch errors = Some repaired -> map change_key repaired = map change_key batch.
Proof.
  unfold repairMissingEntityUpdates. intros H. crush_match.
  rewrite map_map. apply map_ext. intros c. by case_match.
Qed.

Lemma existsb_elem {A} (p : A -> bool) (l : list A) :
  existsb p l = true <-> exists x, x ∈ l /\ p x = true.
Proof. rewrite existsb_exists. by setoid_rewrite list_elem_of_In. Qed.

(** ** The queue behind the interface *)
Section Local.
Context `{D : Deque SyncChange}.
Implicit Types (w : World) (l batch : list SyncChange).

(** The queue of [w] stands for [l]. *)
Definition holds w l : Prop := dq_repr (syncQueue (service w)) l.

(** What storage should contain for a queue. *)
Definition slot_for l : StorageSlot := match l with [] => SlotMissing | _ => SlotItems l end.

Definition mirrored w : Prop := exists l, holds w l /\ slot w = slot_for l.

Lemma holds_items w l : holds w l -> queue_items w = l.
Proof. apply dq_toArray_repr. Qed.

Lemma persist_service w : service (persistQueue w) = service w.
Proof. unfold persistQueue. by repeat case_match. Qed.

Lemma persist_host w : host (persistQueue w) = host w.
Proof. unfold persistQueue. by repeat case_match. Qed.

Lemma holds_persist w l : holds w l -> holds (persistQueue w) l.
Proof. unfold holds. by rewrite persist_service. Qed.

Lemma persist_mirrors w l : storage_ok (host w) -> holds w l -> slot (persistQueue w) = slot_for l.
Proof.
  intros [Hw Ht] H. unfold persistQueue. rewrite Hw, Ht, (holds_items _ _ H). by destruct l.
Qed.

Lemma enqueue_all_repr q l items : dq_repr q l -> dq_repr (enqueue_all items q) (l ++ items).
Proof.
  unfold enqueue_all. revert q l; induction items as [|c items IH]; intros q l H; simpl.
  - by rewrite app_nil_r.
  - rewrite (app_assoc l [c] items : l ++ c :: items = _). by apply IH, dq_enqueue_repr.
Qed.

Lemma holds_replace w l cs : holds w l -> holds (replaceQueue cs w) cs.
Proof. intros H. apply (enqueue_all_repr _ []). by eapply dq_clear_repr. Qed.

Lemma holds_requeue w l batch : holds w l -> holds (requeue batch w) (batch ++ l).
Proof. intros H. apply holds_persist. by apply dq_unshiftMany_repr. Qed.

Lemma requeue_host w batch : host (requeue batch w) = host w.
Proof. unfold requeue. by rewrite persist_host. Qed.

Lemma send_service changes w : service (sendBatch_request changes w).2 = service w.
Proof. unfold sendBatch_request. by repeat case_match. Qed.

Lemma send_slot changes w : slot (sendBatch_request changes w).2 = slot w.
Proof. unfold sendBatch_request. by repeat case_match. Qed.

Lemma client_id_flags h : hasWindow (getOrCreateClientId h).2 = hasWindow h
  /\ storageThrows (getOrCreateClientId h).2 = storageThrows h.
Proof. unfold getOrCreateClientId. by repeat case_match. Qed.

Lemma send_storage changes w : storage_ok (host w) -> storage_ok (host (sendBatch_request changes w).2).
Proof.
  unfold sendBatch_request, storage_ok. intros [Hw Ht].
  pose proof (client_id_flags (host w)) as [H1 H2].
  repeat case_match; simplify_eq/=; try done. by rewrite H1, H2.
Qed.

Lemma dispatch_service r batch w : service (dispatchConflicts r batch w) = service w.
Proof. unfold dispatchConflicts. by repeat case_match. Qed.

Lemma dispatch_slot r batch w : slot (dispatchConflicts r batch w) = slot w.
Proof. unfold dispatchConflicts. by repeat case_match. Qed.

Lemma dispatch_host r batch w : host (dispatchConflicts r batch w) = host w.
Proof. unfold dispatchConflicts. by repeat case_match. Qed.

(** *** Queueing *)
Lemma findIndex_Some {A} (p : A -> bool) (l : list A) i : findIndex p l = Some i ->
  exists x, l !! i = Some x /\ p x = true /\ (forall j y, (j < i)%nat -> l !! j = Some y -> p y = false).
Proof.
  revert i; induction l as [|x l IH]; intros i; simpl; [done|].
  destruct (p x) eqn:E.
  - intros [= <-]. exists x. repeat split; [done|lia].
  - destruct (findIndex p l) as [k|]; simpl; [|done]. intros [= <-].
    destruct (IH k eq_refl) as (y & Hy & Hp & Hb). exists y. repeat split; [done..|].
    intros [|j] z Hj Hz; simplify_eq/=; [done|]. apply (Hb j); [lia|done].
Qed.

(** [coalesceQueuedChange] either leaves the queue alone or replaces the first
    queued change of the entity, an insert, by an insert with the new data. *)
Lemma coalesce_spec incoming w l : holds w l ->
  (coalesceQueuedChange incoming w = (false, w))
  \/ (exists i existing, l !! i = Some existing /\ change_type existing = Insert_
        /\ change_key existing = change_key incoming /\ change_type incoming = Update_
        /\ (coalesceQueuedChange incoming w).1 = true
        /\ holds (coalesceQueuedChange incoming w).2 (<[i := as_insert incoming]> l)
        /\ (storage_ok (host w) ->
            slot (coalesceQueuedChange incoming w).2 = slot_for (<[i := as_insert incoming]> l))
        /\ host (coalesceQueuedChange incoming w).2 = host w).
Proof.
  intros H. unfold coalesceQueuedChange. rewrite (holds_items _ _ H).
  destruct (findIndex _ l) as [i|] eqn:E; [|by left].
  apply findIndex_Some in E as (existing & Hi & Hsame & _). rewrite Hi.
  apply bool_decide_eq_true in Hsame.
  destruct (bool_decide (change_type existing = Insert_)) eqn:E1,
    (bool_decide (change_type incoming = Update_)) eqn:E2; bools; simpl; try by left.
  right. exists i, existing. repeat split; try done.
  - apply holds_persist. by eapply holds_replace.
  - intros Hok. apply persist_mirrors; [done|]. by eapply holds_replace.
  - by rewrite persist_host.
Qed.

Definition enqueued_change e id ct d w : SyncChange := fullChange e id ct d (host w).

(** The two ways [queueChange] changes an enabled service. *)
Lemma queueChange_spec e id ct d w l : holds w l -> enabled (service w) = true ->
  let full := enqueued_change e id ct d w in
  let w' := queueChange e id ct d w in
  host w' = host w /\
  exists l', holds w' l' /\ (storage_ok (host w) -> slot w' = slot_for l') /\
  (l' = l ++ [full]
   \/ exists i existing, l !! i = Some existing /\ change_type existing = Insert_
        /\ change_key existing = change_key full /\ ct = Update_ /\ l' = <[i := as_insert full]> l).
Proof.
  intros H Hen full w'. unfold w', queueChange. rewrite Hen. simpl.
  fold (enqueued_change e id ct d w). fold full.
  destruct (coalesce_spec full w l H) as [E|(i & ex & Hi & Hx & Hk & Hu & E1 & E2 & E3 & E4)].
  - rewrite E. split; [by rewrite persist_host|]. exists (l ++ [full]).
    assert (Hh : holds (on_queue (dq_enqueue full) w) (l ++ [full])) by (by apply dq_enqueue_repr).
    split; [by apply holds_persist|]. split; [|by left]. intros Hok. by apply persist_mirrors.
  - destruct (coalesceQueuedChange full w) as [b w1]; simpl in *; subst b.
    split; [done|]. exists (<[i := as_insert full]> l). split; [done|]. split; [done|].
    right. by exists i, ex.
Qed.

Lemma queueChange_disabled e id ct d w : enabled (service w) = false -> queueChange e id ct d w = w.
Proof. intros H. unfold queueChange. by rewrite H. Qed.

(** *** Commit *)
Definition pending_batch (p : Pending) : list SyncChange :=
  match p with AwaitBatch b => b | AwaitRepair b _ => b end.

(** A pending repair is the repair of its batch. *)
Definition pending_wf (p : Pending) : Prop :=
  match p with
  | AwaitBatch _ => True
  | AwaitRepair b r => map change_key r = map change_key b
  end.

(** What one phase of [commitBatch] may do to the queue. *)
Definition phase_ok (keys : list (EntityType * string)) w l (pw : Progress * World) : Prop :=
  match pw with
  | (Done (Some _), w') => holds w' l
  | (Done None, w') => exists b, map change_key b = keys /\ holds w' (b ++ l)
  | (Waiting _ p, w') => holds w' l /\ pending_wf p /\ map change_key (pending_batch p) = keys
  end.

Lemma commit_begin_phase batch w l : holds w l ->
  phase_ok (map change_key batch) w l (commitBatch_begin batch w).
Proof.
  intros H. unfold commitBatch_begin, phase_ok.
  pose proof (send_service batch w) as Hs.
  destruct (sendBatch_request batch w) as [[req|e] w1]; simpl in Hs.
  - unfold holds. by rewrite Hs.
  - exists batch. split; [done|]. apply holds_requeue. unfold holds. by rewrite Hs.
Qed.

Lemma resume_phase p o w l : holds w l -> pending_wf p ->
  phase_ok (map change_key (pending_batch p)) w l (resume p o w).
Proof.
  intros H Hwf. destruct p as [batch|batch repaired]; simpl in *.
  - destruct (sendBatch_reply o) as [r|e]; simpl; [|by eauto using holds_requeue].
    destruct (repairMissingEntityUpdates batch (rsp_errors r)) as [rep|] eqn:Er.
    + pose proof (send_service rep w) as Hs.
      destruct (sendBatch_request rep w) as [[req|e] w1]; simpl in Hs |- *.
      * unfold holds. rewrite Hs. eauto using repair_keys.
      * exists batch. split; [done|]. apply holds_requeue. unfold holds. by rewrite Hs.
    + destruct (rolled_back r); simpl; [by eauto using holds_requeue|].
      unfold holds. by rewrite dispatch_service.
  - destruct (sendBatch_reply o) as [r|e]; simpl; [|by eauto using holds_requeue].
    destruct (rolled_back r); simpl; [by eauto using holds_requeue|].
    unfold holds. by rewrite dispatch_service.
Qed.

(** The mirror survives each phase. *)
Definition mirror_ok w : Prop := storage_ok (host w) /\ mirrored w.

Lemma requeue_mirror batch w : storage_ok (host w) -> (exists l, holds w l) -> mirror_ok (requeue batch w).
Proof.
  intros Hok [l H]. split; [by rewrite requeue_host|].
  exists (batch ++ l). split; [by apply holds_requeue|].
  apply persist_mirrors; [done|]. by apply dq_unshiftMany_repr.
Qed.

Lemma mirror_same_queue w w' : service w' = service w -> slot w' = slot w ->
  storage_ok (host w') -> mirror_ok w -> mirror_ok w'.
Proof.
  intros Hs Hl Hok [_ (l & H & E)]. split; [done|]. exists l. unfold holds. by rewrite Hs, Hl.
Qed.

Lemma send_mirror changes w : mirror_ok w -> mirror_ok (sendBatch_request changes w).2.
Proof.
  intros H. eapply mirror_same_queue; [apply send_service|apply send_slot| |exact H].
  apply send_storage, H.
Qed.

Lemma dispatch_mirror r batch w : mirror_ok w -> mirror_ok (dispatchConflicts r batch w).
Proof.
  intros H. eapply mirror_same_queue; [apply dispatch_service|apply dispatch_slot| |exact H].
  rewrite dispatch_host. apply H.
Qed.

Lemma mirror_holds w : mirror_ok w -> exists l, holds w l.
Proof. intros [_ (l & H & _)]. by exists l. Qed.

Lemma commit_begin_mirror batch w : mirror_ok w -> mirror_ok (commitBatch_begin batch w).2.
Proof.
  intros H. pose proof (send_mirror batch w H) as Hm. unfold commitBatch_begin.
  destruct (sendBatch_request batch w) as [[req|e] w1]; simpl in *; [done|].
  apply requeue_mirror; [apply Hm|by apply mirror_holds].
Qed.

Lemma resume_mirror p o w : mirror_ok w -> mirror_ok (resume p o w).2.
Proof.
  intros H. pose proof (mirror_holds w H) as Hh. destruct H as [Hok Hm].
  assert (H : mirror_ok w) by done.
  destruct p as [batch|batch repaired]; simpl.
  - destruct (sendBatch_reply o) as [r|e]; simpl; [|by apply requeue_mirror].
    destruct (repairMissingEntityUpdates batch (rsp_errors r)) as [rep|].
    + pose proof (send_mirror rep w H) as Hm'.
      destruct (sendBatch_request rep w) as [[req|e] w1]; simpl in *; [done|].
      apply requeue_mirror; [apply Hm'|by apply mirror_holds].
    + destruct (rolled_back r); simpl; [by apply requeue_mirror|by apply dispatch_mirror].
  - destruct (sendBatch_reply o) as [r|e]; simpl; [|by apply requeue_mirror].
    destruct (rolled_back r); simpl; [by apply requeue_mirror|by apply dispatch_mirror].
Qed.

(** *** Flush *)
Lemma dequeue_holds w l c : holds w l ->
  let r := dq_dequeueMany c (syncQueue (service w)) in
  let w' := persistQueue (on_queue (fun _ => r.2) w) in
  r.1 = take (Z.to_nat c) l /\ holds w' (drop (Z.to_nat c) l) /\ host w' = host w
  /\ (storage_ok (host w) -> mirror_ok w').
Proof.
  intros H r w'. destruct (dq_dequeueMany_repr _ _ c H) as [H1 H2].
  assert (Hh : holds (on_queue (fun _ => r.2) w) (drop (Z.to_nat c) l)) by done.
  split; [done|]. split; [by apply holds_persist|]. unfold w'. rewrite persist_host.
  split; [done|]. intros Hok. split; [by rewrite persist_host|].
  exists (drop (Z.to_nat c) l). split; [by apply holds_persist|]. by apply persist_mirrors.
Qed.

Lemma flush_begin_cases w l : holds w l ->
  let n := Z.to_nat (maxBatchSize (service w)) in
  let w' := persistQueue (on_queue (fun _ => (dq_dequeueMany (maxBatchSize (service w)) (syncQueue (service w))).2) w) in
  (flush_begin w = (Done None, w) /\ (enabled (service w) = false \/ l = []))
  \/ (flush_begin w = (Done None, w') /\ take n l = [])
  \/ (flush_begin w = commitBatch_begin (take n l) w' /\ take n l <> []).
Proof.
  intros H n w'. unfold flush_begin. rewrite (dq_isEmpty_repr _ _ H).
  destruct (enabled (service w)) eqn:En; simpl; [|by left; eauto].
  destruct (bool_decide (l = [])) eqn:El; bools; [by left; eauto|]. right.
  destruct (dequeue_holds w l (maxBatchSize (service w)) H) as (E & _).
  unfold w'. destruct (dq_dequeueMany _ _) as [b q]; simpl in *; subst b. fold n.
  destruct (take n l) as [|c b] eqn:Et; [by left|by right].
Qed.

(** *** Splitting the queue *)
Lemma split_matching_spec p limit batch rem cur :
  let r := split_matching p limit batch rem cur in
  (exists b, r.1 = batch ++ b /\ Forall (fun c => p c = true) b
     /\ r.1 ++ r.2 ≡ₚ batch ++ rem ++ cur).
Proof.
  revert batch rem; induction cur as [|c cur IH]; intros batch rem; simpl.
  { exists []. rewrite !app_nil_r. by repeat split. }
  destruct (p c && _) eqn:E.
  - bools. destruct (IH (batch ++ [c]) rem) as (b & H1 & H2 & H3).
    exists (c :: b). rewrite H1 in *. split; [by rewrite <- app_assoc|]. split; [by constructor|].
    etransitivity; [exact H3|]. rewrite <- !app_assoc. simpl. f_equiv.
    apply Permutation_middle.
  - destruct (IH batch (rem ++ [c])) as (b & H1 & H2 & H3). exists b. split; [done|]. split; [done|].
    etransitivity; [exact H3|]. by rewrite <- !app_assoc.
Qed.

Lemma dequeueMatching_spec p w l : holds w l ->
  let r := dequeueMatching p w in
  exists rest, holds r.2 rest /\ r.1 ++ rest ≡ₚ l /\ Forall (fun c => p c = true) r.1
  /\ host r.2 = host w /\ (storage_ok (host w) -> mirror_ok r.2).
Proof.
  intros H r. unfold r, dequeueMatching. rewrite (holds_items _ _ H).
  destruct (split_matching_spec p (maxBatchSize (service w)) [] [] l) as (b & H1 & H2 & H3).
  destruct (split_matching _ _ _ _ _) as [batch rest]; simpl in *; subst batch.
  assert (Hh : holds (replaceQueue rest w) rest) by (by eapply holds_replace).
  exists rest. split; [by apply holds_persist|]. split; [done|]. split; [done|].
  split; [by rewrite persist_host|]. intros Hok. split; [by rewrite persist_host|].
  exists rest. split; [by apply holds_persist|by apply persist_mirrors].
Qed.
End Local.
