(* ===== verification/SyncSystem.v ===== *)
(** * The sync service as a system

    [step] lets queueing, flushing, replies and changes of the surroundings
    happen in any order, with any number of batches in flight: the interval
    timer does not wait for the previous flush.  The theorems are about every
    sequence of steps. *)

From S2P Require Import Prelude FlowTypes SyncTypes ClientId FastQueue SyncService SyncServiceFacts.
Open Scope Z_scope.

Section System.
Context `{D : Deque SyncChange}.

Record System := MkSystem { world : World; inflight : list Pending }.

(** What a step does to the set of changes the client is responsible for. *)
Inductive Event :=
| Enqueued (c : SyncChange)
| Coalesced (c : SyncChange)
| Committed (batch : list SyncChange)
| Internal.

(** The event of a [queueChange]. *)
Definition queue_event (e : EntityType) (id : string) (ct : ChangeType) (d : JsonValue) (w : World) : Event :=
  if enabled (service w) then
    let full := fullChange e id ct d (host w) in
    if (coalesceQueuedChange full w).1 then Coalesced full else Enqueued full
  else Internal.

(** A surroundings' change: time passes, a user signs in or out, the client id
    is cleared, ...; the storage keeps working if it did. *)
Definition host_step (h h' : Host) : Prop := storage_ok h -> storage_ok h'.

Inductive step : System -> Event -> System -> Prop :=
| step_queue e id ct d w fl :
    step (MkSystem w fl) (queue_event e id ct d w) (MkSystem (queueChange e id ct d w) fl)
| step_flush_done w w' r fl :
    flush_begin w = (Done r, w') -> step (MkSystem w fl) Internal (MkSystem w' fl)
| step_flush_wait w w' req p fl :
    flush_begin w = (Waiting req p, w') -> step (MkSystem w fl) Internal (MkSystem w' (p :: fl))
| step_prerun_done w w' batch w1 r fl :
    dequeueMatching is_pre_run w = (batch, w1) -> commitBatch_begin batch w1 = (Done r, w') ->
    step (MkSystem w fl) Internal (MkSystem w' fl)
| step_prerun_wait w w' batch w1 req p fl :
    dequeueMatching is_pre_run w = (batch, w1) -> commitBatch_begin batch w1 = (Waiting req p, w') ->
    step (MkSystem w fl) Internal (MkSystem w' (p :: fl))
| step_reply_commit w w' fl1 p fl2 o r :
    resume p o w = (Done (Some r), w') ->
    step (MkSystem w (fl1 ++ p :: fl2)) (Committed (pending_batch p)) (MkSystem w' (fl1 ++ fl2))
| step_reply_fail w w' fl1 p fl2 o :
    resume p o w = (Done None, w') ->
    step (MkSystem w (fl1 ++ p :: fl2)) Internal (MkSystem w' (fl1 ++ fl2))
| step_reply_repair w w' fl1 p p' fl2 o req :
    resume p o w = (Waiting req p', w') ->
    step (MkSystem w (fl1 ++ p :: fl2)) Internal (MkSystem w' (fl1 ++ p' :: fl2))
| step_host w h' fl :
    host_step (host w) h' -> step (MkSystem w fl) Internal (MkSystem (set_host h' w) fl)
| step_settings w f fl :
    (forall s, syncQueue (f s) = syncQueue s) -> step (MkSystem w fl) Internal (MkSystem (set_service f w) fl).

Inductive steps : System -> list Event -> System -> Prop :=
| steps_refl σ : steps σ [] σ
| steps_cons σ1 σ2 σ3 ev evs : step σ1 ev σ2 -> steps σ2 evs σ3 -> steps σ1 (ev :: evs) σ3.

(** The changes not yet acknowledged: queued, then in flight. *)
Definition live (σ : System) : list SyncChange :=
  queue_items (world σ) ++ concat (map pending_batch (inflight σ)).

Definition live_keys (σ : System) := map change_key (live σ).

Definition event_in (ev : Event) : list (EntityType * string) :=
  match ev with Enqueued c => [change_key c] | _ => [] end.
Definition event_out (ev : Event) : list (EntityType * string) :=
  match ev with Committed b => map change_key b | _ => [] end.

Definition valid (σ : System) : Prop :=
  (exists l, holds (world σ) l) /\ Forall pending_wf (inflight σ).

Lemma live_keys_holds w l fl : holds w l ->
  live_keys (MkSystem w fl) = map change_key l ++ concat (map (map change_key) (map pending_batch fl)).
Proof.
  intros H. unfold live_keys, live; simpl. rewrite (holds_items _ _ H), map_app.
  by rewrite concat_map.
Qed.

(** One phase of a commit moves keys between the queue and the flight. *)
Lemma flush_begin_phase w l : holds w l ->
  exists l' keys, map change_key l ≡ₚ keys ++ map change_key l'
    /\ phase_ok keys w l' (flush_begin w).
Proof.
  intros H. destruct (flush_begin_cases w l H) as [[E _]|[[E Et]|[E _]]]; rewrite E.
  - exists l, []. split; [done|]. by exists [].
  - exists (drop (Z.to_nat (maxBatchSize (service w))) l), [].
    rewrite <- (take_drop (Z.to_nat (maxBatchSize (service w))) l) at 1. rewrite Et. split; [done|].
    exists []. split; [done|]. by apply dequeue_holds.
  - exists (drop (Z.to_nat (maxBatchSize (service w))) l),
      (map change_key (take (Z.to_nat (maxBatchSize (service w))) l)).
    rewrite <- map_app, take_drop. split; [done|]. by apply commit_begin_phase, dequeue_holds.
Qed.

Lemma prerun_phase w l batch w1 : holds w l -> dequeueMatching is_pre_run w = (batch, w1) ->
  exists l' keys, map change_key l ≡ₚ keys ++ map change_key l'
    /\ phase_ok keys w1 l' (commitBatch_begin batch w1).
Proof.
  intros H E. destruct (dequeueMatching_spec is_pre_run w l H) as (rest & Hr & Hp & _).
  rewrite E in *; simpl in *. exists rest, (map change_key batch).
  split; [by rewrite <- map_app, Hp|]. by apply commit_begin_phase.
Qed.

Lemma queue_step_keys e id ct d w l : holds w l ->
  exists l', holds (queueChange e id ct d w) l'
    /\ map change_key l' ≡ₚ event_in (queue_event e id ct d w) ++ map change_key l
    /\ event_out (queue_event e id ct d w) = [].
Proof.
  intros H. unfold queue_event, queueChange.
  destruct (enabled (service w)) eqn:En; simpl; [|by exists l].
  set (full := fullChange e id ct d (host w)).
  destruct (coalesce_spec full w l H) as [E|(i & ex & Hi & Hx & Hk & Hu & E1 & E2 & E3 & E4)].
  - rewrite E; simpl. exists (l ++ [full]). split; [by apply holds_persist, dq_enqueue_repr|].
    rewrite map_app. split; [by rewrite Permutation_app_comm|done].
  - destruct (coalesceQueuedChange full w) as [b w1]; simpl in *; subst b; simpl.
    exists (<[i := as_insert full]> l). split; [done|]. split; [|done].
    rewrite (list_fmap_insert change_key l i (as_insert full) : map change_key _ = _).
    rewrite as_insert_key, list_insert_id; [done|].
    change (map change_key l) with (change_key <$> l). by rewrite list_lookup_fmap, Hi; simpl; rewrite Hk.
Qed.

(** [σ'] is valid and has the responsibilities of [σ], up to an event. *)
Definition conserves (σ : System) (ev : Event) (σ' : System) : Prop :=
  valid σ' /\ live_keys σ' ++ event_out ev ≡ₚ event_in ev ++ live_keys σ.

(** A started commit: the queue lost [keys], the phase accounts for them. *)
Lemma begin_conserves keys w w1 l l' pr w' fl : holds w l -> Forall pending_wf fl ->
  map change_key l ≡ₚ keys ++ map change_key l' -> phase_ok keys w1 l' (pr, w') ->
  match pr with
  | Done (Some _) => True
  | Done None => conserves (MkSystem w fl) Internal (MkSystem w' fl)
  | Waiting _ p => conserves (MkSystem w fl) Internal (MkSystem w' (p :: fl))
  end.
Proof.
  intros H Hf Hp Hph. unfold conserves.
  destruct pr as [[r|]|req p]; simpl in Hph |- *; [done| |].
  - destruct Hph as (b & Hb & Hh). split; [by split; eauto|].
    rewrite app_nil_r, (live_keys_holds _ _ _ H), (live_keys_holds _ _ _ Hh), map_app, Hb. by rewrite Hp.
  - destruct Hph as (Hh & Hwf & Hk). split; [by split; [eauto|constructor]|].
    rewrite app_nil_r, (live_keys_holds _ _ _ H), (live_keys_holds _ _ _ Hh), Hp; simpl.
    rewrite Hk. solve_Permutation.
Qed.

(** A reply to the commit [p]. *)
Lemma reply_conserves w l fl1 p fl2 o pr w' : holds w l -> Forall pending_wf (fl1 ++ p :: fl2) ->
  resume p o w = (pr, w') ->
  match pr with
  | Done (Some _) => conserves (MkSystem w (fl1 ++ p :: fl2)) (Committed (pending_batch p)) (MkSystem w' (fl1 ++ fl2))
  | Done None => conserves (MkSystem w (fl1 ++ p :: fl2)) Internal (MkSystem w' (fl1 ++ fl2))
  | Waiting _ p' => conserves (MkSystem w (fl1 ++ p :: fl2)) Internal (MkSystem w' (fl1 ++ p' :: fl2))
  end.
Proof.
  intros H Hf E. assert (Hf' := Hf). apply Forall_app in Hf' as [Hf1 [Hp Hf2]%Forall_cons].
  pose proof (resume_phase p o w l H Hp) as Hph. rewrite E in Hph.
  unfold conserves.
  destruct pr as [[r|]|req p']; simpl in Hph |- *; rewrite (live_keys_holds _ _ _ H), !map_app, !concat_app; simpl.
  - split; [split; [by eauto|by apply Forall_app]|].
    rewrite (live_keys_holds _ _ _ Hph), !map_app, !concat_app. solve_Permutation.
  - destruct Hph as (b & Hb & Hh). split; [split; [by eauto|by apply Forall_app]|].
    rewrite app_nil_r, (live_keys_holds _ _ _ Hh), !map_app, !concat_app, Hb. solve_Permutation.
  - destruct Hph as (Hh & Hwf & Hk).
    split; [split; [by eauto|apply Forall_app; split; [done|by constructor]]|].
    rewrite app_nil_r, (live_keys_holds _ _ _ Hh), !map_app, !concat_app; simpl. by rewrite Hk.
Qed.

Lemma commit_begin_not_some batch w r w' : commitBatch_begin batch w <> (Done (Some r), w').
Proof. unfold commitBatch_begin. intros E. by repeat (case_match; simplify_eq). Qed.

Lemma flush_begin_not_some w r w' : flush_begin w <> (Done (Some r), w').
Proof.
  unfold flush_begin. intros E. repeat (case_match; simplify_eq). by apply commit_begin_not_some in E.
Qed.

Lemma step_conserves σ ev σ' : valid σ -> step σ ev σ' -> conserves σ ev σ'.
Proof.
  intros [[l H] Hf] Hs.
  inversion Hs as [e id ct d w fl|w w' r fl E|w w' req p fl E|w w' batch w1 r fl E1 E2|
    w w' batch w1 req p fl E1 E2|w w' fl1 p fl2 o r E|w w' fl1 p fl2 o E|w w' fl1 p p' fl2 o req E|
    w h' fl Hh|w f fl Hq]; subst; simpl in *.
  - destruct (queue_step_keys e id ct d w l H) as (l' & H' & Hk & Ho).
    split; [by split; eauto|]. rewrite Ho, (live_keys_holds _ _ _ H), (live_keys_holds _ _ _ H'), app_nil_r.
    by rewrite Hk, app_assoc.
  - destruct (flush_begin_phase w l H) as (l' & keys & Hp & Hph). rewrite E in Hph.
    pose proof (begin_conserves _ _ _ _ _ _ _ fl H Hf Hp Hph).
    destruct r; [by apply flush_begin_not_some in E|done].
  - destruct (flush_begin_phase w l H) as (l' & keys & Hp & Hph). rewrite E in Hph.
    exact (begin_conserves _ _ _ _ _ _ _ fl H Hf Hp Hph).
  - destruct (prerun_phase w l batch w1 H E1) as (l' & keys & Hp & Hph). rewrite E2 in Hph.
    pose proof (begin_conserves _ _ _ _ _ _ _ fl H Hf Hp Hph).
    destruct r; [by apply commit_begin_not_some in E2|done].
  - destruct (prerun_phase w l batch w1 H E1) as (l' & keys & Hp & Hph). rewrite E2 in Hph.
    exact (begin_conserves _ _ _ _ _ _ _ fl H Hf Hp Hph).
  - exact (reply_conserves w l fl1 p fl2 o _ w' H Hf E).
  - exact (reply_conserves w l fl1 p fl2 o _ w' H Hf E).
  - exact (reply_conserves w l fl1 p fl2 o _ w' H Hf E).
  - split; [by split; eauto|]. by rewrite app_nil_r.
  - assert (H' : holds (set_service f w) l) by (unfold holds; simpl; by rewrite Hq).
    split; [by split; eauto|]. by rewrite app_nil_r, (live_keys_holds _ _ _ H), (live_keys_holds _ _ _ H').
Qed.

Definition events_in (evs : list Event) := concat (map event_in evs).
Definition events_out (evs : list Event) := concat (map event_out evs).

(** C1: no change is lost or duplicated: over any interleaving of queueing, flushing,
    replies, failures, repairs and changes of the surroundings, the entities of
    the changes still queued or in flight together with those of the committed
    batches are exactly the initial ones and the enqueued ones. *)
Theorem no_change_lost σ evs σ' : valid σ -> steps σ evs σ' ->
  live_keys σ' ++ events_out evs ≡ₚ events_in evs ++ live_keys σ.
Proof.
  intros Hv Hs. revert Hv. unfold events_in, events_out.
  induction Hs as [σ|σ1 σ2 σ3 ev evs Hst Hs IH]; intros Hv; simpl; [by rewrite app_nil_r|].
  destruct (step_conserves _ _ _ Hv Hst) as [Hv2 Hk]. specialize (IH Hv2).
  transitivity (event_out ev ++ live_keys σ3 ++ concat (map event_out evs)); [solve_Permutation|].
  rewrite IH. transitivity (concat (map event_in evs) ++ live_keys σ2 ++ event_out ev); [solve_Permutation|].
  rewrite Hk. solve_Permutation.
Qed.

Lemma flush_begin_mirror w l : holds w l -> mirror_ok w -> mirror_ok (flush_begin w).2.
Proof.
  intros H Hm. destruct (dequeue_holds w l (maxBatchSize (service w)) H) as (_ & _ & _ & Hd).
  destruct (flush_begin_cases w l H) as [[E _]|[[E _]|[E _]]]; rewrite E; [done| |].
  - apply Hd, Hm.
  - apply commit_begin_mirror, Hd, Hm.
Qed.

Lemma prerun_mirror w l batch w1 : holds w l -> mirror_ok w -> dequeueMatching is_pre_run w = (batch, w1) ->
  mirror_ok (commitBatch_begin batch w1).2.
Proof.
  intros H Hm E. destruct (dequeueMatching_spec is_pre_run w l H) as (rest & _ & _ & _ & _ & Hd).
  rewrite E in Hd. apply commit_begin_mirror, Hd, Hm.
Qed.

(** Storage mirrors the queue: preserved by every step. *)
Lemma step_mirror σ ev σ' : mirror_ok (world σ) -> step σ ev σ' -> mirror_ok (world σ').
Proof.
  intros Hm Hs. pose proof (mirror_holds _ Hm) as [l H]. pose proof (proj1 Hm) as Hok.
  inversion Hs as [e id ct d w fl|w w' r fl E|w w' req p fl E|w w' batch w1 r fl E1 E2|
    w w' batch w1 req p fl E1 E2|w w' fl1 p fl2 o r E|w w' fl1 p fl2 o E|w w' fl1 p p' fl2 o req E|
    w h' fl Hh|w f fl Hq]; subst; simpl in *.
  - destruct (enabled (service w)) eqn:En; [|by rewrite queueChange_disabled].
    destruct (queueChange_spec e id ct d w l H En) as (Hh & l' & H' & Hsl & _).
    split; [by rewrite Hh|]. exists l'. auto.
  - pose proof (flush_begin_mirror w l H Hm) as Hr. by rewrite E in Hr.
  - pose proof (flush_begin_mirror w l H Hm) as Hr. by rewrite E in Hr.
  - pose proof (prerun_mirror w l batch w1 H Hm E1) as Hr. by rewrite E2 in Hr.
  - pose proof (prerun_mirror w l batch w1 H Hm E1) as Hr. by rewrite E2 in Hr.
  - pose proof (resume_mirror p o w Hm) as Hr. by rewrite E in Hr.
  - pose proof (resume_mirror p o w Hm) as Hr. by rewrite E in Hr.
  - pose proof (resume_mirror p o w Hm) as Hr. by rewrite E in Hr.
  - eapply mirror_same_queue; [..|exact Hm]; auto.
  - destruct Hm as [_ (l2 & Hl2 & Hsl)]. split; [done|]. exists l2. split; [|done].
    unfold holds; simpl. by rewrite Hq.
Qed.

End System.

(** ** Witnesses, on the ring buffer *)
#[local] Existing Instance FastQueue.fast_queue_deque.

Definition sample_world : World :=
  MkWorld (MkService "" (dq_new 4) 3000 100 8000 None true 0) sample_host SlotMissing [].
Definition sample_data : JsonValue := JObj [("version", JNum 1)].
Definition sample_system : System := MkSystem sample_world [].

(** Queue a change, start a flush, queue another one, and lose the reply. *)
Definition sample_queued : World := queueChange Workflow_ "w1" Insert_ sample_data sample_world.
Definition sample_sent : World := (flush_begin sample_queued).2.
Definition sample_pending : Pending :=
  match (flush_begin sample_queued).1 with Waiting _ p => p | Done _ => AwaitBatch [] end.
Definition sample_second : World := queueChange Scenario_ "s1" Insert_ sample_data sample_sent.
Definition sample_failed : World := (resume sample_pending FetchRejected sample_second).2.
Definition sample_events : list Event :=
  [queue_event Workflow_ "w1" Insert_ sample_data sample_world; Internal;
   queue_event Scenario_ "s1" Insert_ sample_data sample_sent; Internal].

Lemma sample_steps : steps sample_system sample_events (MkSystem sample_failed []).
Proof.
  eapply steps_cons; [apply step_queue|].
  eapply steps_cons; [eapply (step_flush_wait _ sample_sent _ sample_pending); vm_compute; reflexivity|].
  eapply steps_cons; [apply step_queue|].
  eapply steps_cons; [|apply steps_refl].
  eapply (step_reply_fail _ sample_failed [] sample_pending [] FetchRejected). vm_compute; reflexivity.
Qed.

Lemma no_change_lost_witness :
  live_keys (MkSystem sample_failed []) ++ events_out sample_events
  ≡ₚ events_in sample_events ++ live_keys sample_system
  /\ live_keys (MkSystem sample_failed []) = [(Workflow_, "w1"); (Scenario_, "s1")].
Proof.
  split; [|vm_compute; reflexivity].
  apply (no_change_lost sample_system sample_events (MkSystem sample_failed [])); [|apply sample_steps].
  split; [|constructor]. exists []. apply dq_new_repr. lia.
Defined.

