(* ===== verification/SyncGuarantees.v ===== *)
(** * What the sync service guarantees, operation by operation

    Ordering and repair of batches, queueing, draining against a server that
    accepts, start-up from storage, and the two places where a change can be
    forgotten. *)

From S2P Require Import Prelude FlowTypes SyncTypes ClientId FastQueue SyncService SyncServiceFacts.
Open Scope Z_scope.

(** A batch is sent parents first: the request holds exactly the changes of the batch,
    entity types never decrease along it (workflows, scenarios, runs, scenario
    runs, results), and changes of one type keep the order they were made in. *)
Theorem batch_order changes :
  orderSyncChanges changes ≡ₚ changes
  /\ StronglySorted (fun a b => entity_rank a <= entity_rank b) (orderSyncChanges changes)
  /\ forall r, filter (fun c => entity_rank c = r) (orderSyncChanges changes)
             = filter (fun c => entity_rank c = r) changes.
Proof.
  split; [apply orderSyncChanges_perm|]. split; [|intros; apply orderSyncChanges_rank_stable].
  unfold orderSyncChanges. eapply StronglySorted_map; [apply order_cmp_rank|apply js_sort_sorted, _].
Qed.

(** An error of the server that says the entity of [c] is gone. *)
Definition reported_missing (errors : list SyncError) (c : SyncChange) : Prop :=
  exists e, e ∈ errors /\ se_entity_type e = Some (entity_type c) /\ se_entity_id e = Some (entity_id c)
    /\ (entity_type c = Workflow_ \/ entity_type c = Scenario_) /\ entity_id c <> ""
    /\ str_includes "no longer exists" (se_message e) = true.

Lemma repairable_spec errors c :
  repairable (missing_keys errors) c = true <->
  change_type c = Update_ /\ isDeletedPayload (data c) = false /\ reported_missing errors c.
Proof.
  unfold repairable, missing_keys, reported_missing, missing_error.
  rewrite !andb_true_iff, negb_true_iff, bool_decide_eq_true, set_has_spec, elem_of_set_of_list.
  rewrite list_elem_of_In, in_map_iff. setoid_rewrite <- list_elem_of_In.
  setoid_rewrite list_elem_of_filter. split.
  - intros [[Hu (e & [= He1 He2] & Hm & He)] Hd]. split; [done|]. split; [done|]. exists e.
    bools. rewrite He1, He2 in *. simpl in *.
    match goal with H : str_truthy _ = true |- _ => apply str_truthy_spec in H end.
    match goal with H : _ || _ = true |- _ => apply orb_true_iff in H as [H|H] end; bools; simplify_eq;
      repeat split; auto.
  - intros (Hu & Hd & e & He & He1 & He2 & Ht & Hne & Hi). split; [split; [done|]|done].
    exists e. rewrite He1, He2, Hi. split; [done|]. split; [|done].
    apply str_truthy_spec in Hne. simpl. rewrite Hne.
    destruct Ht as [-> | ->]; done.
Qed.

(** A rejected batch is repaired exactly when the server reports that an updated,
    not deleted workflow or scenario of the batch no longer exists; the repair
    turns those updates into inserts from version 0 and changes nothing else. *)
Theorem repair_spec batch errors :
  match repairMissingEntityUpdates batch (Some errors) with
  | Some repaired =>
      (exists c, c ∈ batch /\ change_type c = Update_ /\ isDeletedPayload (data c) = false
                 /\ reported_missing errors c)
      /\ Forall2 (fun c c' =>
           (change_type c = Update_ /\ isDeletedPayload (data c) = false /\ reported_missing errors c
            /\ c' = as_insert c)
           \/ (~ (change_type c = Update_ /\ isDeletedPayload (data c) = false /\ reported_missing errors c)
               /\ c' = c)) batch repaired
  | None => forall c, c ∈ batch ->
      ~ (change_type c = Update_ /\ isDeletedPayload (data c) = false /\ reported_missing errors c)
  end.
Proof.
  assert (Hnone : missing_keys errors = [] -> forall c,
    ~ (change_type c = Update_ /\ isDeletedPayload (data c) = false /\ reported_missing errors c)).
  { intros E c. rewrite <- repairable_spec, E. unfold repairable. rewrite !andb_true_iff.
    rewrite set_has_spec. intros [[_ Hn] _]. by apply elem_of_nil in Hn. }
  unfold repairMissingEntityUpdates. destruct errors as [|e es]; [by eauto|].
  set (errors := e :: es) in *. destruct (missing_keys errors) as [|k ks] eqn:Em; [by eauto|].
  rewrite <- Em. destruct (existsb (repairable (missing_keys errors)) batch) eqn:Ex.
  - apply existsb_elem in Ex as (c & Hc & Hr). apply repairable_spec in Hr. split; [by eauto|].
    apply Forall2_fmap_r. apply Forall_Forall2_diag, Forall_forall. intros c' _. unfold compose.
    destruct (repairable (missing_keys errors) c') eqn:Er.
    + apply repairable_spec in Er. left. tauto.
    + right. split; [|done]. by rewrite <- repairable_spec, Er.
  - intros c Hc. rewrite <- repairable_spec. intros Hr.
    assert (existsb (repairable (missing_keys errors)) batch = true); [|congruence].
    apply existsb_elem. eauto.
Qed.

Section Guarantees.
Context `{D : Deque SyncChange}.
Implicit Types (w : World) (l : list SyncChange).

(** An accepted change is recorded: afterwards the queue holds a change of that entity
    with that data; it is the change itself (based on version - 1, or 0 for an
    insert), or the entity's queued insert updated in place; changes of other
    entities are untouched and the queue grows by at most one. *)
Theorem queue_change_recorded e id ct d w l : holds w l -> enabled (service w) = true ->
  exists l', holds (queueChange e id ct d w) l'
    /\ (exists c, c ∈ l' /\ change_key c = (e, id) /\ data c = d
          /\ ((change_type c = ct /\ client_version c =
                 (if decide (ct = Insert_) then 0 else Z.max 0 (serializedVersion d - 1)))
              \/ (change_type c = Insert_ /\ client_version c = 0)))
    /\ filter (fun c => change_key c <> (e, id)) l' = filter (fun c => change_key c <> (e, id)) l
    /\ (length l <= length l' <= length l + 1)%nat.
Proof.
  intros H Hen. destruct (queueChange_spec e id ct d w l H Hen) as (_ & l' & H' & _ & Hc).
  exists l'. split; [done|]. destruct Hc as [->|(i & ex & Hi & Hx & Hk & -> & ->)].
  - split; [|split].
    + exists (enqueued_change e id ct d w). split; [apply elem_of_app; right; by apply list_elem_of_singleton|].
      split; [done|]. split; [done|]. left. split; [done|]. simpl.
      destruct ct; done.
    + rewrite filter_app, filter_cons_False by (by intros []). by rewrite app_nil_r.
    + rewrite length_app; simpl; lia.
  - split; [|split].
    + exists (as_insert (enqueued_change e id Update_ d w)).
      split; [|by eauto]. apply list_elem_of_lookup. exists i.
      apply list_lookup_insert_eq. by eapply lookup_lt_Some.
    + apply list_elem_of_split_length in Hi as (l1 & l2 & -> & ->).
      rewrite insert_app_r_alt, Nat.sub_diag by done; simpl.
      rewrite !filter_app, !filter_cons_False; [done| |]; unfold change_key in *; simpl in *; tauto.
    + rewrite length_insert. lia.
Qed.

(** ** Draining *)

(** A reply that accepts a batch. *)
Definition accepts (o : FetchOutcome SyncBatchResponse) : Prop :=
  exists status text r, o = FetchResponse status text (Some r) /\ response_ok status = true
    /\ rsp_success r = true /\ default [] (rsp_errors r) = [].

Definition signed_in (h : Host) : Prop :=
  (exists u, getUserId h = Return u) /\ (exists p, getProjectId h = Return p).

Lemma signed_in_client h : signed_in h -> signed_in (getOrCreateClientId h).2.
Proof.
  intros [[u Hu] [p Hp]]. unfold getOrCreateClientId.
  assert (Hset : forall v, signed_in (set_localStorage (insert CLIENT_ID_KEY v) h)).
  { intros v. split; [exists u|by exists p]. revert Hu. unfold getUserId.
    cbn [set_localStorage currentUserId hasWindow storageThrows localStorage].
    by rewrite jlookup_insert_ne by done. }
  repeat case_match; cbn [snd]; try apply Hset; split; eauto.
Qed.

Lemma send_signed_in changes w : signed_in (host w) ->
  exists req, (sendBatch_request changes w).1 = Return req
    /\ req_changes req = orderSyncChanges changes /\ signed_in (host (sendBatch_request changes w).2).
Proof.
  intros Hs. pose proof (signed_in_client _ Hs) as Hc. destruct Hs as [[u Hu] [p Hp]].
  unfold sendBatch_request. rewrite Hu, Hp. destruct (getOrCreateClientId (host w)) as [cid h'].
  eexists. split; [done|]. by split.
Qed.

Lemma accept_resume batch o w l : holds w l -> accepts o ->
  exists r, (resume (AwaitBatch batch) o w).1 = Done (Some r)
    /\ holds (resume (AwaitBatch batch) o w).2 l
    /\ service (resume (AwaitBatch batch) o w).2 = service w
    /\ host (resume (AwaitBatch batch) o w).2 = host w.
Proof.
  intros H (st & tx & r & -> & Hok & Hsu & He). simpl. rewrite Hok. simpl.
  assert (Hr : repairMissingEntityUpdates batch (rsp_errors r) = None).
  { destruct (rsp_errors r) as [[|]|]; done. }
  rewrite Hr. unfold rolled_back. rewrite Hsu, He. simpl.
  exists r. unfold holds. by rewrite dispatch_service, dispatch_host.
Qed.

Section WithServer.
Context {S : Type} (server : S -> SyncBatchRequest -> FetchOutcome SyncBatchResponse * S).

(** The server accepts whatever it is sent. *)
Definition accepting : Prop := forall s req, accepts (server s req).1.

Lemma flush_accepted w l s : accepting -> holds w l -> signed_in (host w) ->
  enabled (service w) = true -> l <> [] -> 0 < maxBatchSize (service w) ->
  exists r w' s', flush server w s = (Some r, w', s')
    /\ holds w' (drop (Z.to_nat (maxBatchSize (service w))) l)
    /\ signed_in (host w') /\ enabled (service w') = true
    /\ maxBatchSize (service w') = maxBatchSize (service w).
Proof.
  intros Hacc H Hsi Hen Hne Hb. unfold flush.
  destruct (dequeue_holds w l (maxBatchSize (service w)) H) as (_ & Hd & Hh & _).
  destruct (flush_begin_cases w l H) as [[_ [?|?]]|[[_ Et]|[E _]]]; [congruence|done| |].
  { destruct l; [done|]. by destruct (Z.to_nat (maxBatchSize (service w))) eqn:?; [lia|]. }
  rewrite E. clear E. set (w1 := persistQueue _) in *. set (batch := take _ l).
  assert (Hs1 : signed_in (host w1)) by (by rewrite Hh).
  destruct (send_signed_in batch w1 Hs1) as (req & Hreq & _ & Hs2).
  pose proof (send_service batch w1) as Hsv. unfold commitBatch_begin.
  destruct (sendBatch_request batch w1) as [rq w2]; cbn [fst snd] in *; subst rq.
  assert (H2 : holds w2 (drop (Z.to_nat (maxBatchSize (service w))) l)) by (unfold holds; by rewrite Hsv).
  specialize (Hacc s req). cbn [drive].
  destruct (server s req) as [o s']; cbn [fst snd] in *.
  destruct (accept_resume batch o w2 _ H2 Hacc) as (r & E1 & E2 & E3 & E4).
  destruct (resume (AwaitBatch batch) o w2) as [pr w3]; simpl in E1, E2, E3, E4; subst pr.
  assert (Hw3 : service w3 = service w1) by congruence.
  exists r, w3, s'. split; [done|]. split; [done|]. rewrite E4, Hw3. unfold w1.
  by rewrite persist_service.
Qed.

End WithServer.

(** ** Start-up *)

Lemma restore_at_start url h s : storage_ok h ->
  exists w, new_SyncService url h s = Return w
    /\ holds w (match s with SlotItems items => items | _ => [] end)
    /\ slot w = match s with SlotUnreadable => SlotMissing | _ => s end.
Proof.
  intros [Hw Ht]. unfold new_SyncService, restoreQueue. simpl. rewrite Hw, Ht. simpl.
  assert (Hn : dq_repr (dq_new 1024) ([] : list SyncChange)) by (apply dq_new_repr; lia).
  destruct s as [|items|]; eexists; (split; [reflexivity|]); split; try done.
  by apply (enqueue_all_repr _ []).
Qed.

(** A new service restores the stored queue, in order; unreadable storage is cleared. *)
Theorem restart_restores url h s : storage_ok h ->
  exists w, new_SyncService url h s = Return w
    /\ holds w (match s with SlotItems items => items | _ => [] end)
    /\ slot w = match s with SlotUnreadable => SlotMissing | _ => s end.
Proof. apply restore_at_start. Qed.

(** A change in flight is not in storage: if the page goes away after a flush has
    sent its batch and before the reply, the restarted service holds only the
    changes behind that batch. *)
Theorem reload_forgets_in_flight w l req p w' url h : mirror_ok w -> holds w l ->
  flush_begin w = (Waiting req p, w') -> storage_ok h ->
  exists w2, new_SyncService url h (slot w') = Return w2
    /\ holds w2 (drop (length (pending_batch p)) l) /\ pending_batch p <> [].
Proof.
  intros Hm H E Hok.
  destruct (dequeue_holds w l (maxBatchSize (service w)) H) as (_ & Hd & Hh & Hdm).
  destruct (flush_begin_cases w l H) as [[E' _]|[[E' _]|[E' Hne]]]; rewrite E' in E; try done.
  set (n := Z.to_nat (maxBatchSize (service w))) in *.
  set (w1 := persistQueue _) in *. specialize (Hdm (proj1 Hm)).
  unfold commitBatch_begin in E. pose proof (send_slot (take n l) w1) as Hsl.
  destruct (sendBatch_request (take n l) w1) as [[rq|e] w3]; simplify_eq/=.
  destruct (restore_at_start url h (slot w') Hok) as (w2 & Ew & Hw2 & _).
  exists w2. split; [done|]. split; [|done].
  destruct Hdm as [_ (l1 & Hl1 & Es)]. rewrite Hsl, Es in Hw2.
  assert (Hl : l1 = drop n l) by (by rewrite <- (holds_items _ _ Hl1), (holds_items _ _ Hd)).
  rewrite length_take. destruct (decide (n <= length l)%nat) as [Hle|Hgt].
  - rewrite Nat.min_l by done. rewrite <- Hl. by destruct l1.
  - rewrite Nat.min_r by lia. rewrite drop_ge by done. rewrite drop_ge in Hl by lia. by subst l1.
Qed.

(** The page-hide flush forgets its batch when no user is signed in: the call throws after
    the batch has left both the queue and the storage. *)
Theorem page_hide_forgets_batch w l : holds w l -> l <> [] -> storage_ok (host w) ->
  enabled (service w) = true -> 0 < maxBatchSize (service w) ->
  is_Some (sendBeacon (host w)) -> (forall u, getUserId (host w) <> Return u) ->
  (exists e, (flushOnPageHide w).1 = Throw e)
  /\ holds (flushOnPageHide w).2 (drop (Z.to_nat (maxBatchSize (service w))) l)
  /\ slot (flushOnPageHide w).2 = slot_for (drop (Z.to_nat (maxBatchSize (service w))) l).
Proof.
  intros H Hne Hok Hen Hb Hbe Hu. unfold flushOnPageHide.
  rewrite Hen, (dq_isEmpty_repr _ _ H), (bool_decide_eq_false_2 (l = [])), (proj1 Hok) by done.
  rewrite (bool_decide_eq_true_2 _ Hbe). simpl.
  destruct (dequeue_holds w l (maxBatchSize (service w)) H) as (E & Hd & Hh & Hdm).
  destruct (dq_dequeueMany _ _) as [b q]; simpl in *. subst b.
  destruct (Hdm Hok) as [_ (l1 & Hl1 & Es)].
  rewrite <- (holds_items _ _ Hl1), (holds_items _ _ Hd) in Es.
  destruct (take _ l) as [|c cs] eqn:Et.
  { destruct l; [done|]. by destruct (Z.to_nat (maxBatchSize (service w))) eqn:?; [lia|]. }
  rewrite Hh. destruct (getUserId (host w)) as [u|e]; [by destruct (Hu u)|]. simpl. eauto.
Qed.

(** ** Timer *)

(** The running timer has the configured period. *)
Definition timer_ok (s : SyncService) : Prop := intervalId s = None \/ intervalId s = Some (syncInterval s).

(** The guards of [initSync] only skip assignments that would change nothing. *)
Lemma skip_baseUrl url s : (if decide (url = baseUrl s) then s else set_baseUrl url s) = set_baseUrl url s.
Proof. case_decide; [subst|done]. by destruct s. Qed.

Lemma skip_maxBatchSize n s :
  (if decide (n = maxBatchSize s) then s else set_maxBatchSize n s) = set_maxBatchSize n s.
Proof. case_decide; [subst|done]. by destruct s. Qed.

Lemma skip_syncInterval i s : timer_ok s ->
  (if decide (i = syncInterval s) then s else set_syncInterval i s) = set_syncInterval i s.
Proof.
  intros Ht. case_decide; [subst|done]. destruct s; unfold timer_ok in Ht; simpl in *.
  by destruct Ht as [->| ->].
Qed.

(** [initSync] applies the configuration, keeps queued changes, and leaves a timer of the
    configured period running whenever synchronisation is enabled with autostart. *)
Theorem init_sync_effect cfg s : timer_ok s ->
  let s' := initSync cfg s in
  timer_ok s' /\ syncQueue s' = syncQueue s
  /\ baseUrl s' = default "" (cfg_baseUrl cfg)
  /\ syncInterval s' = default 3000 (cfg_syncInterval cfg)
  /\ maxBatchSize s' = default 100 (cfg_maxBatchSize cfg)
  /\ enabled s' = default true (cfg_enabled cfg)
  /\ (default true (cfg_enabled cfg) = true -> default true (cfg_autoStart cfg) = true -> isRunning s' = true)
  /\ (isRunning s = true -> isRunning s' = true).
Proof.
  intros Ht. unfold initSync. cbn zeta.
  rewrite skip_baseUrl, skip_syncInterval, skip_maxBatchSize by (by destruct s).
  generalize (default "" (cfg_baseUrl cfg)), (default 3000 (cfg_syncInterval cfg)),
    (default 100 (cfg_maxBatchSize cfg)), (default true (cfg_enabled cfg)),
    (default true (cfg_autoStart cfg)). intros url iv bs en au.
  destruct s as [url0 q i b t iid en0 fc]; unfold timer_ok in *; simpl in Ht.
  destruct Ht as [->| ->], au, en; simpl; repeat split; auto.
Qed.
End Guarantees.

(** ** Witnesses, on the ring buffer *)
#[local] Existing Instance FastQueue.fast_queue_deque.

Definition demo_change (e : EntityType) (id : string) : SyncChange :=
  MkChange e id Update_ (JObj [("version", JNum 2)]) "t" 1.
Definition demo_items : list SyncChange := [demo_change Scenario_ "s1"; demo_change Workflow_ "w1"; demo_change WorkflowRun_ "r1"].
Definition demo_world_of (h : Host) : World :=
  MkWorld (MkService "" (enqueue_all demo_items (dq_new 1)) 3000 2 8000 None true 0) h
    (SlotItems demo_items) [].
Definition demo_world : World := demo_world_of sample_host.
Definition demo_signed_out : Host := clearAuth sample_host.

Lemma demo_holds h : holds (demo_world_of h) demo_items.
Proof. apply (enqueue_all_repr _ []). apply dq_new_repr. lia. Qed.

Lemma queue_change_recorded_witness : exists l',
  holds (queueChange Workflow_ "w1" Update_ (JObj [("version", JNum 3)]) demo_world) l'
  /\ (length demo_items <= length l')%nat.
Proof.
  destruct (queue_change_recorded Workflow_ "w1" Update_ (JObj [("version", JNum 3)]) demo_world demo_items
    (demo_holds _) eq_refl) as (l' & H & _ & _ & Hl). exists l'. split; [exact H | lia].
Defined.

Definition accept_all (s : unit) (req : SyncBatchRequest) : FetchOutcome SyncBatchResponse * unit :=
  (FetchResponse 200 "" (Some (MkBatchResponse true 0 None None 0)), s).


Lemma restart_restores_witness : exists w,
  new_SyncService "" sample_host (SlotItems demo_items) = Return w /\ holds w demo_items.
Proof.
  destruct (restart_restores "" sample_host (SlotItems demo_items)) as (w & E & H & _);
    [by split | by exists w].
Defined.

Lemma reload_forgets_in_flight_witness : exists w2,
  new_SyncService "" sample_host (slot (flush_begin demo_world).2) = Return w2
  /\ holds w2 [demo_change WorkflowRun_ "r1"].
Proof.
  destruct (flush_begin demo_world) as [[r|req p] w'] eqn:E; [vm_compute in E; discriminate|].
  destruct (reload_forgets_in_flight demo_world demo_items req p w' "" sample_host) as (w2 & E2 & H2 & _).
  - split; [by split|]. exists demo_items. split; [apply demo_holds | reflexivity].
  - apply demo_holds.
  - exact E.
  - by split.
  - exists w2. split; [exact E2|]. vm_compute in E. injection E as _ <- _. exact H2.
Defined.

Lemma page_hide_forgets_batch_witness :
  (exists e, (flushOnPageHide (demo_world_of demo_signed_out)).1 = Throw e)
  /\ slot (flushOnPageHide (demo_world_of demo_signed_out)).2 = SlotItems [demo_change WorkflowRun_ "r1"].
Proof.
  destruct (page_hide_forgets_batch (demo_world_of demo_signed_out) demo_items) as (He & _ & Hs).
  - apply demo_holds.
  - discriminate.
  - by split.
  - reflexivity.
  - reflexivity.
  - by eexists.
  - intros u. vm_compute. discriminate.
  - split; [exact He | exact Hs].
Defined.

Lemma init_sync_effect_witness :
  isRunning (initSync (MkSyncConfig None None None None None) (service demo_world)) = true.
Proof.
  destruct (init_sync_effect (MkSyncConfig None None None None None) (service demo_world))
    as (_ & _ & _ & _ & _ & _ & H & _); [by left | by apply H].
Defined.
