(* ===== verification/Json.v ===== *)
(** * The JSON of the shared data types

    [JSON.stringify], and what the sync payloads make of a test, a node or an
    edge: an object with the properties of
    [ui-v2/src/modules/workflow/types/react-flow-cots.ts], in their order,
    without the absent ones. *)

From S2P Require Import Prelude FlowTypes ClientId.
From Stdlib Require Import Ascii.
Open Scope Z_scope.

(** ** [JSON.stringify] *)
Definition backslash : string := String (ascii_of_nat 92) EmptyString.

Definition json_char (c : ascii) : string :=
  let n := Z.of_N (code c) in
  if n =? 34 then backslash +:+ dq
  else if n =? 92 then backslash +:+ backslash
  else if n =? 8 then backslash +:+ "b"
  else if n =? 9 then backslash +:+ "t"
  else if n =? 10 then backslash +:+ "n"
  else if n =? 12 then backslash +:+ "f"
  else if n =? 13 then backslash +:+ "r"
  else if n <? 32 then backslash +:+ "u00" +:+ hex_byte n
  else String c EmptyString.

Fixpoint json_chars (s : string) : string :=
  match s with EmptyString => EmptyString | String c s' => json_char c +:+ json_chars s' end.

Definition json_quote (s : string) : string := dq +:+ json_chars s +:+ dq.

Fixpoint json_text (v : JsonValue) : string :=
  match v with
  | JNull => "null"
  | JBool b => if b then "true" else "false"
  | JNum n => pretty n
  | JStr s => json_quote s
  | JArr items => "[" +:+ join "," (map json_text items) +:+ "]"
  | JObj fields => "{" +:+ join "," (map (fun kv => json_quote kv.1 +:+ ":" +:+ json_text kv.2) fields) +:+ "}"
  end.

Definition prop {A} (k : string) (f : A -> JsonValue) (o : option A) : list (string * JsonValue) :=
  match o with Some x => [(k, f x)] | None => [] end.

Definition json_obj (parts : list (list (string * JsonValue))) : JsonValue := JObj (concat parts).

Definition json_strings (l : list string) : JsonValue := JArr (map JStr l).

Definition json_record (m : jmap string string) : JsonValue :=
  JObj (map (fun kv => (kv.1, JStr kv.2)) (entries m)).

Definition json_id (v : JsonValue) : JsonValue := v.

(** ** Values read at a declared type

    What [as T] gives for a JSON value of the type [T]; TypeScript checks nothing,
    so values of another type are outside these readings. *)
Definition as_text (v : JsonValue) : string := match v with JStr s => s | _ => "" end.
Definition as_number (v : JsonValue) : Z := match v with JNum n => n | _ => 0 end.
Definition as_flag (v : JsonValue) : bool := match v with JBool b => b | _ => false end.
Definition as_strings (v : JsonValue) : list string := match v with JArr l => map as_text l | _ => [] end.

Lemma as_strings_json l : as_strings (json_strings l) = l.
Proof. simpl. rewrite map_map. apply map_id. Qed.

(** [v.k]: [null] has no properties, and a value that is no object has not [k]. *)
Definition json_get (k : string) (v : JsonValue) : res (option JsonValue) :=
  match v with JNull => Throw JsTypeError | _ => Return (json_field k v) end.

(** ** Tests *)
Definition retry_json (p : TestRetryPolicy) : JsonValue :=
  json_obj [[("mode", JStr (rp_mode p))];
            if rp_idempotencyConfirmed p then [("idempotencyConfirmed", JBool true)] else []].

Definition database_json (c : DatabaseConfig) : JsonValue :=
  json_obj [[("driver", JStr (db_driver c)); ("database", JStr (db_database c)); ("user", JStr (db_user c));
             ("password", JStr (db_password c)); ("query", JStr (db_query c))];
            prop "expectedResult" json_id (db_expectedResult c)].

Definition document_json (c : DocumentConfig) : JsonValue :=
  json_obj [[("service", JStr (doc_service c)); ("database", JStr (doc_database c));
             ("collection", JStr (doc_collection c)); ("operation", JStr (doc_operation c))];
            prop "document" json_id (doc_document c); prop "filter" json_id (doc_filter c);
            prop "update" json_id (doc_update c); prop "expectedDocument" json_id (doc_expectedDocument c);
            prop "expectedDocuments" json_id (doc_expectedDocuments c);
            prop "expectedCount" JNum (doc_expectedCount c);
            prop "expectedExists" JBool (doc_expectedExists c)].

Definition expected_body_json (b : HttpExpectedBody) : JsonValue :=
  JObj [("mode", JStr (eb_mode b)); ("value", eb_value b)].

Definition http_json (c : HttpConfig) : JsonValue :=
  json_obj [[("method", JStr (http_method c)); ("path", JStr (http_path c)); ("port", JStr (http_port c))];
            prop "headers" json_record (http_headers c); prop "body" JStr (http_body c);
            prop "expectedStatus" JNum (http_expectedStatus c);
            prop "expectedBody" expected_body_json (http_expectedBody c)].

Definition shell_json (c : ShellConfig) : JsonValue :=
  json_obj [[("command", JStr (sh_command c))]; prop "env" json_record (sh_env c);
            prop "expectedOutput" JStr (sh_expectedOutput c);
            prop "expectedExitCode" JNum (sh_expectedExitCode c)].

Definition cache_json (c : CacheConfig) : JsonValue :=
  json_obj [[("service", JStr (ca_service c)); ("cacheType", JStr (ca_cacheType c));
             ("operation", JStr (ca_operation c))];
            prop "key" JStr (ca_key c); prop "value" json_id (ca_value c);
            prop "expectedValue" json_id (ca_expectedValue c);
            prop "expectedExists" JBool (ca_expectedExists c);
            prop "ttl" JNum (ca_ttl c); prop "db" JNum (ca_db c); prop "password" JStr (ca_password c)].

Definition queue_json (c : QueueConfig) : JsonValue :=
  json_obj [[("service", JStr (qu_service c)); ("brokerType", JStr (qu_brokerType c));
             ("operation", JStr (qu_operation c))];
            prop "topic" JStr (qu_topic c); prop "message" json_id (qu_message c);
            prop "key" JStr (qu_key c); prop "partition" JNum (qu_partition c);
            prop "timeout" JNum (qu_timeout c); prop "fromBeginning" JBool (qu_fromBeginning c);
            prop "expectedCount" JNum (qu_expectedCount c);
            prop "expectedMessage" json_id (qu_expectedMessage c);
            prop "expectedExists" JBool (qu_expectedExists c)].

Definition test_json (t : ScenarioTestDefinition) : JsonValue :=
  json_obj [[("id", JStr (test_id t)); ("name", JStr (test_name t));
             ("type", JStr (test_type_name (test_type t)))];
            prop "targetServices" json_strings (test_targetServices t);
            prop "dependsOnTestIds" json_strings (test_dependsOnTestIds t);
            prop "retryPolicy" retry_json (test_retryPolicy t);
            prop "databaseConfig" database_json (test_databaseConfig t);
            prop "documentConfig" document_json (test_documentConfig t);
            prop "httpConfig" http_json (test_httpConfig t);
            prop "shellConfig" shell_json (test_shellConfig t);
            prop "cacheConfig" cache_json (test_cacheConfig t);
            prop "queueConfig" queue_json (test_queueConfig t);
            prop "delayConfig" (fun ms => JObj [("durationMs", JNum ms)]) (test_delayConfig t)].

(** ** Nodes and edges *)
Definition port_json (p : PortMapping) : JsonValue :=
  JObj [("id", JStr (port_id p)); ("hostPort", JStr (hostPort p)); ("containerPort", JStr (containerPort p))].

Definition env_json (e : EnvironmentVariable) : JsonValue :=
  JObj [("id", JStr (env_id e)); ("key", JStr (env_key e)); ("value", JStr (env_value e))].

Definition wait_json (w : NodeWait) : JsonValue :=
  json_obj [[("enabled", JBool (nw_enabled w)); ("type", JStr (nw_type w))];
            prop "target" JStr (nw_target w); prop "timeout" JNum (nw_timeout w)].

Definition script_json (s : InitScript) : JsonValue :=
  json_obj [[("id", JStr (script_id s)); ("order", JNum (script_order s)); ("script", JStr (script_text s))];
            prop "description" JStr (script_description s)].

Definition mock_request_json (r : MockRequest) : JsonValue :=
  json_obj [prop "method" JStr (mr_method r); prop "path" JStr (mr_path r);
            prop "headers" json_record (mr_headers r); prop "body" JStr (mr_body r)].

Definition mock_response_json (r : MockResponse) : JsonValue :=
  json_obj [prop "statusCode" JNum (ms_statusCode r);
            prop "headers" json_record (ms_headers r); prop "body" JStr (ms_body r)].

Definition expectation_json (e : MockServerExpectation) : JsonValue :=
  json_obj [prop "id" JStr (ex_id e); prop "request" mock_request_json (ex_request e);
            prop "response" mock_response_json (ex_response e)].

Definition service_json (s : NodeService) : JsonValue :=
  json_obj [[("type", JStr (service_type_name (svc_type s)))];
            prop "image" JStr (svc_image s); prop "command" json_strings (svc_command s);
            prop "ports" (fun l => JArr (map port_json l)) (svc_ports s);
            prop "env" (fun l => JArr (map env_json l)) (svc_env s);
            prop "waitStratergy" wait_json (svc_wait s);
            prop "initScripts" (fun l => JArr (map script_json l)) (svc_initScripts s);
            prop "mockServer" (fun l => JObj [("expectations", JArr (map expectation_json l))]) (svc_mockServer s);
            prop "registry" (fun r => JObj [("url", JStr r.1); ("auth_type", JStr r.2)]) (svc_registry s)].

Definition node_data_json (d : ServiceNodeData) : JsonValue :=
  json_obj [prop "label" JStr (nd_label d); prop "description" JStr (nd_description d);
            prop "service" service_json (nd_service d);
            prop "tests" (fun l => JArr (map test_json l)) (nd_tests d)].

Definition point_json (p : Z * Z) : JsonValue := JObj [("x", JNum p.1); ("y", JNum p.2)].

Definition node_json (n : FlowNode) : JsonValue :=
  json_obj [[("id", JStr (node_id n)); ("position", point_json (node_position n))];
            entries (node_view n); [("data", node_data_json (node_data n))]].

Definition edge_data_json (d : EdgeData) : JsonValue :=
  json_obj [prop "label" JStr (ed_label d); prop "description" JStr (ed_description d);
            prop "protocol" JStr (ed_protocol d); prop "relation" JStr (ed_relation d);
            prop "readiness" JStr (ed_readiness d); prop "needsReview" JBool (ed_needsReview d);
            prop "showLabel" JBool (ed_showLabel d);
            prop "layoutPoints" (fun l => JArr (map point_json l)) (ed_layoutPoints d)].

Definition edge_json (e : FlowEdge) : JsonValue :=
  json_obj [[("id", JStr (edge_id e)); ("source", JStr (edge_source e)); ("target", JStr (edge_target e))];
            prop "type" JStr (edge_type e); prop "data" edge_data_json (edge_data e)].
