(* ===== verification/RunEvents.v ===== *)
(** * Run states and events: [ui-v2/src/modules/workflow/lib/realtime-events.ts]
      and [workflow-run-events.ts]

    How the statuses of runs, scenarios, services and tests are derived from
    events, and how event lists from several sources are merged.  A status that
    comes from an event is a string: only some strings are statuses. *)

From S2P Require Import Prelude FlowTypes JsLib.
Open Scope Z_scope.

(** ** realtime-events.ts *)
Definition isWorkflowRunStatus (value : string) : option WorkflowRunStatus :=
  if decide (value = "pending") then Some WPending
  else if decide (value = "running") then Some WRunning
  else if decide (value = "cancelling") then Some WCancelling
  else if decide (value = "cancelled") then Some WCancelled
  else if decide (value = "completed") then Some WCompleted
  else if decide (value = "failed") then Some WFailed
  else if decide (value = "partial_failed") then Some WPartialFailed
  else if decide (value = "cleanup_failed") then Some WCleanupFailed
  else None.

Definition isWorkflowRunActive (status : option WorkflowRunStatus) : bool :=
  match status with Some WPending | Some WRunning | Some WCancelling => true | _ => false end.

Definition shouldPollExecutionFallback (workflowRunId projectId : option string)
    (status : option WorkflowRunStatus) (realtimeConnected : bool) : bool :=
  ostr_truthy workflowRunId && ostr_truthy projectId && isWorkflowRunActive status
  && negb realtimeConnected.

Definition workflowStatusFromLogEvent (scenarioId status : option string) : option WorkflowRunStatus :=
  if ostr_truthy scenarioId then None
  else match status with Some s => isWorkflowRunStatus s | None => None end.

Definition shouldNotifyTestRunCompletion (workflowRunId : option string)
    (allComplete wasObservedActive alreadyNotified : bool) : bool :=
  ostr_truthy workflowRunId && allComplete && wasObservedActive && negb alreadyNotified.

Definition isNewerEventId (current : option string) (candidate : string) : bool :=
  if negb (str_truthy candidate) then false
  else
    match current with
    | Some cur =>
        if negb (str_truthy cur) then true
        else
          match js_BigInt candidate, js_BigInt cur with
          | Some a, Some b => b <? a
          | _, _ => negb (bool_decide (candidate = cur))
          end
    | None => true
    end.

Record AggregatedScenarioResult := MkAggScenario {
  as_scenarioId : string;
  as_scenarioName : string;
  as_backendSessionId : option string;
  as_status : option ScenarioRunStatus;
  as_success : option bool;
  as_error : option string
}.

(** The [result] is [None] when it is absent or no object with a
    [scenarioResults] array. *)
Definition extractWorkflowError (explicitError : option string)
    (scenarioResults : option (list AggregatedScenarioResult)) : option string :=
  if ostr_truthy explicitError then explicitError
  else
    match scenarioResults with
    | None => None
    | Some scenarios =>
        let message := join (String (Ascii.ascii_of_nat 10) EmptyString)
          (map (fun s => ostr_or (Some (as_scenarioName s)) (as_scenarioId s) +:+ ": " +:+ default "" (as_error s))
             (filter (fun s => ostr_truthy (as_error s) = true) scenarios)) in
        if str_truthy message then Some message else None
    end.

Definition resolveScenarioLogStatus (current : ScenarioRunStatus) (eventStatus : option string)
    : ScenarioRunStatus :=
  if decide (eventStatus = Some "cleanup_failed") then SCleanupFailed
  else if decide (eventStatus = Some "failed") then SFailed
  else if decide (eventStatus = Some "completed") then SCompleted
  else match current with SCompleted | SFailed | SCleanupFailed => current | _ => SRunning end.

Definition resolveScenarioTestStatus (current : ScenarioRunStatus) (results : list TestResultEntry)
    : ScenarioRunStatus :=
  let has (s : ScenarioTestResultStatus) := existsb (fun r => bool_decide (tre_status r = s)) results in
  if has RFailed then SFailed
  else if negb (bool_decide (results = [])) && forallb (fun r => bool_decide (tre_status r = RPassed)) results
  then SCompleted
  else if existsb (fun r => bool_decide (tre_status r = RRunning) || bool_decide (tre_status r = RPending)) results
       && negb (bool_decide (current = SCompleted)) && negb (bool_decide (current = SFailed))
       && negb (bool_decide (current = SCleanupFailed))
  then SRunning
  else current.

(** ** workflow-run-events.ts *)
Definition MAX_OPERATIONAL_WORKFLOW_EVENTS : Z := 2000.

Inductive ServiceExecutionState :=
| Queued | Provisioning | Ready | Testing | Cleaning | Complete | ServiceFailed.

Inductive TestExecutionDisplayStatus :=
| DPending | DRunning | DPassed | DFailed | DNotRun | DNotRecorded | DInterrupted.

(** An entry of [attempts] that is an object with a number and a string. *)
Definition is_attempt (v : JsonValue) : bool :=
  match json_field "attempt" v, json_field "outcome" v with
  | Some (JNum _), Some (JStr _) => true
  | _, _ => false
  end.

Definition testRetryResult (value : option JsonValue) : list JsonValue * bool :=
  match value with
  | Some (JObj fields) =>
      let result := JObj fields in
      let attempts := match json_field "attempts" result with
                      | Some (JArr items) => filter (fun a => is_attempt a = true) items
                      | _ => []
                      end in
      let recovered :=
        match json_present (json_field "recovered_after_retry" result) with
        | Some v => json_truthy v
        | None =>
            match json_present (json_field "recoveredAfterRetry" result) with
            | Some v => json_truthy v
            | None =>
                (1 <? Z.of_nat (length attempts))
                && match last attempts with
                   | Some a => match json_field "outcome" a with
                               | Some (JStr o) => bool_decide (o = "passed")
                               | _ => false
                               end
                   | None => false
                   end
            end
        end in
      (attempts, recovered)
  | _ => ([], false)
  end.

Definition isTerminalWorkflowStatus (status : option WorkflowRunStatus) : bool :=
  match status with
  | None | Some WPending | Some WRunning | Some WCancelling => false
  | Some _ => true
  end.

Definition isTerminalScenarioStatus (status : option ScenarioRunStatus) : bool :=
  match status with
  | None | Some SPending | Some SRunning | Some SCancelling => false
  | Some _ => true
  end.

Definition resolveScenarioPresentationStatus (scenarioStatus : option ScenarioRunStatus)
    (workflowStatus : option WorkflowRunStatus) : ScenarioRunStatus :=
  match scenarioStatus with
  | Some s =>
      if isTerminalScenarioStatus (Some s) then s
      else
        match workflowStatus with
        | Some WCompleted => SCompleted
        | Some WCancelled => SCancelled
        | Some WCleanupFailed => SCleanupFailed
        | Some WFailed | Some WPartialFailed => SFailed
        | _ => s
        end
  | None =>
      match workflowStatus with
      | Some WCompleted => SCompleted
      | Some WCancelled => SCancelled
      | Some WCleanupFailed => SCleanupFailed
      | Some WFailed | Some WPartialFailed => SFailed
      | _ => SPending
      end
  end.

Definition reconcileServiceExecutionState (current : ServiceExecutionState)
    (scenarioStatus : option ScenarioRunStatus) (workflowStatus : option WorkflowRunStatus)
    : ServiceExecutionState :=
  match current with
  | ServiceFailed => ServiceFailed
  | _ =>
      let resolvedScenario := resolveScenarioPresentationStatus scenarioStatus workflowStatus in
      if isTerminalScenarioStatus (Some resolvedScenario) || isTerminalWorkflowStatus workflowStatus
      then Complete else current
  end.

Definition is_str (o : option string) (s : string) : bool := bool_decide (o = Some s).

Definition normalizeActiveTestStatus (status : option string) : TestExecutionDisplayStatus :=
  if is_str status "started" || is_str status "running" || is_str status "retrying" then DRunning
  else if is_str status "passed" then DPassed
  else if is_str status "failed" then DFailed
  else DPending.

(** [a || b] on optional strings. *)
Definition ostr_first (a b : option string) : option string := if ostr_truthy a then a else b.

Definition reconcileTestExecutionStatus (eventStatus storedStatus : option string)
    (scenarioStatus : option ScenarioRunStatus) (workflowStatus : option WorkflowRunStatus)
    : TestExecutionDisplayStatus :=
  if is_str storedStatus "passed" then DPassed
  else if is_str storedStatus "failed" then DFailed
  else if is_str eventStatus "passed" then DPassed
  else if is_str eventStatus "failed" then DFailed
  else
    let resolvedScenario := resolveScenarioPresentationStatus scenarioStatus workflowStatus in
    if negb (isTerminalScenarioStatus (Some resolvedScenario)) && negb (isTerminalWorkflowStatus workflowStatus)
    then normalizeActiveTestStatus (ostr_first eventStatus storedStatus)
    else
      match resolvedScenario with
      | SCompleted => DNotRecorded
      | _ =>
          if is_str eventStatus "started" || is_str eventStatus "running" || is_str eventStatus "retrying"
             || is_str storedStatus "running"
          then DInterrupted else DNotRun
      end.

Definition eventKey (e : WorkflowLogEvent) : string :=
  ev_workflowRunId e +:+ ":" +:+ ostr_or (ev_scenarioId e) "workflow" +:+ ":" +:+ pretty (ev_timestamp e)
  +:+ ":" +:+ pretty (ev_sequence e) +:+ ":" +:+ ostr_or (ev_kind e) "log".

Definition event_cmp (left right : WorkflowLogEvent) : Z :=
  if ev_timestamp left - ev_timestamp right =? 0
  then ev_sequence left - ev_sequence right else ev_timestamp left - ev_timestamp right.

Definition mergeWorkflowRunEvents (sources : list (list WorkflowLogEvent)) : list WorkflowLogEvent :=
  let byKey := fold_left (fun m event => <[eventKey event := event]> m) (concat sources)
                 (∅ : jmap string WorkflowLogEvent) in
  js_sort event_cmp (jvalues byKey).

Definition operationalWorkflowRunEvents (events : list WorkflowLogEvent) (limit : Z) : list WorkflowLogEvent :=
  slice_last limit events.

Definition keyLogLines (logs : list string) : list (string * string) :=
  imap (fun index line => ("plain:" +:+ pretty index, line)) logs.

(** ** Merging *)
#[export] Instance event_cmp_comparator : Comparator event_cmp.
Proof.
  unfold event_cmp, cmp_le.
  split; unfold cmp_le; intros; repeat case_match; bools; lia.
Qed.

(** The map the merge builds from the events seen so far. *)
Definition by_key (l : list WorkflowLogEvent) (m : jmap string WorkflowLogEvent) : jmap string WorkflowLogEvent :=
  fold_left (fun m event => <[eventKey event := event]> m) l m.

(** Every entry sits under its own key. *)
Definition keyed (m : jmap string WorkflowLogEvent) : Prop :=
  jmap_wf m /\ forall k e, m !! k = Some e -> eventKey e = k.

Lemma by_key_keyed l m : keyed m -> keyed (by_key l m).
Proof.
  revert m; induction l as [|e l IH]; intros m [Hwf Hk]; [done|]. apply IH. split.
  - by apply jmap_wf_insert.
  - intros k e'. rewrite jlookup_insert. case_decide; [|apply Hk]. by intros [= <-].
Qed.

Lemma by_key_lookup l m k :
  by_key l m !! k = match last (filter (fun e => eventKey e = k) l) with Some e => Some e | None => m !! k end.
Proof.
  revert m; induction l as [|e l IH]; intros m; [done|]. simpl. rewrite IH, jlookup_insert, filter_cons.
  destruct (last (filter (fun e => eventKey e = k) l)) eqn:E; repeat case_decide;
    rewrite ?last_cons, ?E; done.
Qed.

Lemma keyed_values m : keyed m ->
  map eventKey (jvalues m) = jkeys m /\ forall e, e ∈ jvalues m <-> m !! eventKey e = Some e.
Proof.
  intros [Hwf Hk]. split.
  - unfold jvalues, jkeys. rewrite map_map. apply map_ext_in. intros [k e] Hin. simpl.
    apply Hk, elem_of_jlookup; [done|]. by apply list_elem_of_In.
  - intros e. unfold jvalues. rewrite list_elem_of_fmap. split.
    + intros ([k e'] & -> & Hin). simpl. pose proof (elem_of_jlookup k e' m Hwf Hin) as Hl.
      by rewrite (Hk k e' Hl).
    + intros Hl. exists (eventKey e, e). split; [done|]. by apply jlookup_elem_of.
Qed.

Lemma merge_values sources :
  keyed (by_key (concat sources) ∅)
  /\ mergeWorkflowRunEvents sources = js_sort event_cmp (jvalues (by_key (concat sources) ∅)).
Proof. split; [|done]. apply by_key_keyed. split; [apply jmap_wf_empty|done]. Qed.

Lemma merge_elem sources e : e ∈ mergeWorkflowRunEvents sources <->
  last (filter (fun x => eventKey x = eventKey e) (concat sources)) = Some e.
Proof.
  destruct (merge_values sources) as [Hk ->]. rewrite elem_of_js_sort, (proj2 (keyed_values _ Hk)), by_key_lookup.
  by destruct (last _).
Qed.

Lemma merge_keys_nodup sources : NoDup (map eventKey (mergeWorkflowRunEvents sources)).
Proof.
  destruct (merge_values sources) as [Hk ->].
  rewrite (Permutation_map eventKey (js_sort_perm event_cmp _)), (proj1 (keyed_values _ Hk)). apply Hk.
Qed.

(** Merging event lists gives a timeline: ordered by timestamp and then sequence
    number, with no event key twice, and holding for each key exactly the last
    of the source events with that key. *)
Theorem merge_is_timeline sources :
  StronglySorted (cmp_le event_cmp) (mergeWorkflowRunEvents sources)
  /\ NoDup (map eventKey (mergeWorkflowRunEvents sources))
  /\ forall e, e ∈ mergeWorkflowRunEvents sources <->
       last (filter (fun x => eventKey x = eventKey e) (concat sources)) = Some e.
Proof.
  split; [apply js_sort_sorted, _|]. split; [apply merge_keys_nodup|]. intros; apply merge_elem.
Qed.

Lemma by_key_id l m : keyed m -> (forall e, e ∈ l -> m !! eventKey e = Some e) -> by_key l m = m.
Proof.
  intros Hk. induction l as [|e l IH]; intros H; [done|]. unfold by_key in *; simpl.
  rewrite jmap_insert_id by apply H, list_elem_of_here. apply IH. intros; by apply H, list_elem_of_further.
Qed.

(** Entering events with distinct keys keeps their order. *)
Lemma by_key_fresh l m : NoDup (jkeys m ++ map eventKey l) ->
  jvalues (by_key l m) = jvalues m ++ l /\ jkeys (by_key l m) = jkeys m ++ map eventKey l.
Proof.
  revert m; induction l as [|e l IH]; intros m Hn; simpl; [by rewrite !app_nil_r|].
  assert (Hni : eventKey e ∉ jkeys m).
  { apply NoDup_app in Hn as (_ & Hd & _). intros Hi. apply (Hd _ Hi), list_elem_of_here. }
  pose proof (entries_insert_fresh _ e _ Hni) as Hs.
  assert (Hk : jkeys (<[eventKey e := e]> m) = jkeys m ++ [eventKey e]) by (unfold jkeys; by rewrite Hs, map_app).
  assert (Hv : jvalues (<[eventKey e := e]> m) = jvalues m ++ [e]) by (unfold jvalues; by rewrite Hs, map_app).
  destruct (IH (<[eventKey e := e]> m)) as [H1 H2].
  { by rewrite Hk, <- app_assoc. }
  by rewrite H1, H2, Hk, Hv, <- !app_assoc.
Qed.

(** Replaying events is harmless: merging a timeline with any events it already
    contains gives the same timeline. *)
Theorem merge_replay sources replayed :
  (forall e, e ∈ replayed -> e ∈ mergeWorkflowRunEvents sources) ->
  mergeWorkflowRunEvents [mergeWorkflowRunEvents sources; replayed] = mergeWorkflowRunEvents sources.
Proof.
  intros Hsub. set (m := mergeWorkflowRunEvents sources) in *.
  change (js_sort event_cmp (jvalues (by_key (concat [m; replayed]) ∅)) = m). simpl. rewrite app_nil_r.
  unfold by_key. rewrite fold_left_app. fold (by_key m ∅). set (k := by_key m ∅).
  change (js_sort event_cmp (jvalues (by_key replayed k)) = m).
  assert (Hv : jvalues k = m).
  { destruct (by_key_fresh m ∅) as [Hv _]; [exact (merge_keys_nodup sources)|exact Hv]. }
  assert (Hk : keyed k) by (apply by_key_keyed; split; [apply jmap_wf_empty|done]).
  rewrite by_key_id; [|done|].
  - rewrite Hv. apply js_sort_id, js_sort_sorted, _.
  - intros e He. apply (keyed_values _ Hk). rewrite Hv. by apply Hsub.
Qed.

Lemma merge_replay_witness : let e := MkLogEvent "r" "p" "w" None None None "m" None None None None
    None None None None None None None None None 5 1 None None in
  mergeWorkflowRunEvents [mergeWorkflowRunEvents [[e; e]]; [e]] = mergeWorkflowRunEvents [[e; e]].
Proof. intros e. apply (merge_replay [[e; e]] [e]). intros x Hx. exact Hx. Defined.

(** ** Statuses *)

(** When a run has ended everything shown of it has settled: its scenarios have a
    terminal status, no test is pending or running, and every service is
    complete or failed; recorded test outcomes and failures are kept. *)
Theorem ended_run_settles ws ss es st sv : isTerminalWorkflowStatus ws = true ->
  isTerminalScenarioStatus (Some (resolveScenarioPresentationStatus ss ws)) = true
  /\ reconcileTestExecutionStatus es st ss ws <> DPending
  /\ reconcileTestExecutionStatus es st ss ws <> DRunning
  /\ (reconcileServiceExecutionState sv ss ws = Complete \/ reconcileServiceExecutionState sv ss ws = ServiceFailed)
  /\ (st = Some "passed" -> reconcileTestExecutionStatus es st ss ws = DPassed)
  /\ (st = Some "failed" -> reconcileTestExecutionStatus es st ss ws = DFailed)
  /\ (sv = ServiceFailed -> reconcileServiceExecutionState sv ss ws = ServiceFailed).
Proof.
  intros Hw. assert (Hs : isTerminalScenarioStatus (Some (resolveScenarioPresentationStatus ss ws)) = true).
  { destruct ws as [[]|], ss as [[]|]; done. }
  split; [done|]. unfold reconcileTestExecutionStatus, reconcileServiceExecutionState. rewrite Hs, Hw. simpl.
  repeat split; try (by intros ->); try (by repeat case_match); destruct sv; auto.
Qed.

Lemma ended_run_settles_witness :
  reconcileTestExecutionStatus (Some "running") None (Some SRunning) (Some WFailed) <> DRunning.
Proof. apply (ended_run_settles (Some WFailed) (Some SRunning) (Some "running") None Testing). reflexivity. Defined.

(** The scenario status an event reports when it ends the scenario. *)
Definition ending_status (eventStatus : option string) : option ScenarioRunStatus :=
  if decide (eventStatus = Some "cleanup_failed") then Some SCleanupFailed
  else if decide (eventStatus = Some "failed") then Some SFailed
  else if decide (eventStatus = Some "completed") then Some SCompleted
  else None.

Definition log_status (current : ScenarioRunStatus) (events : list (option string)) : ScenarioRunStatus :=
  fold_left resolveScenarioLogStatus events current.

Lemma resolve_log_cases current ev : resolveScenarioLogStatus current ev =
  match ending_status ev with
  | Some s => s
  | None => match current with SCompleted | SFailed | SCleanupFailed => current | _ => SRunning end
  end.
Proof. unfold resolveScenarioLogStatus, ending_status. by repeat case_decide. Qed.

(** A scenario's status after a sequence of log events is the one reported by the last
    event that ended it; without such an event a finished status stays and
    any other, a cancelled one included, becomes running. *)
Theorem scenario_log_status current events :
  log_status current events =
  match last (omap ending_status events) with
  | Some s => s
  | None => match events, current with
            | [], _ => current
            | _, (SCompleted | SFailed | SCleanupFailed) => current
            | _, _ => SRunning
            end
  end.
Proof.
  unfold log_status. induction events as [|ev events IH] using rev_ind; [done|].
  rewrite fold_left_app, omap_app. simpl. rewrite resolve_log_cases, IH.
  destruct (ending_status ev) as [s|] eqn:E.
  - by rewrite last_snoc.
  - rewrite app_nil_r.
    destruct (last (omap ending_status events)) as [s|] eqn:El.
    + assert (Hs : exists e, ending_status e = Some s).
      { apply last_Some in El as [l' El].
        assert (Hi : s ∈ omap ending_status events) by (rewrite El; apply elem_of_app; right; apply list_elem_of_here).
        apply list_elem_of_omap in Hi as (e & _ & He). eauto. }
      destruct Hs as [e He]. unfold ending_status in He. repeat case_decide; inversion He; by subst.
    + by destruct events, current.
Qed.

(** ** Replay cursors *)

(** Among numeric event ids [isNewerEventId] is a strict order, so a cursor that only
    moves to newer ids never moves back. *)
Theorem newer_event_id_strict a b c za zb zc :
  js_BigInt a = Some za -> js_BigInt b = Some zb -> js_BigInt c = Some zc ->
  a <> "" -> b <> "" -> c <> "" ->
  (isNewerEventId (Some a) b = true <-> za < zb)
  /\ isNewerEventId (Some a) a = false
  /\ (isNewerEventId (Some a) b = true -> isNewerEventId (Some b) c = true -> isNewerEventId (Some a) c = true).
Proof.
  intros Ha Hb Hc Na Nb Nc. unfold isNewerEventId.
  rewrite Ha, Hb, Hc, !(proj2 (str_truthy_spec _)) by done. simpl.
  rewrite !Z.ltb_lt, Z.ltb_ge. repeat split; lia.
Qed.

Lemma newer_event_id_strict_witness : isNewerEventId (Some "9") "10" = true.
Proof. apply (newer_event_id_strict "9" "10" "11" 9 10 11); vm_compute; congruence. Defined.
