(* ===== verification/EdgeModel.v ===== *)
(** * Connections: [ui-v2/src/modules/workflow/lib/edge-model.ts]

    Relations and readiness arrive as strings from stored or imported
    workflows; [normalizeEdge] makes them members of the two enumerations. *)

From S2P Require Import Prelude FlowTypes.

Definition EDGE_RELATIONS : list string := ["calls"; "reads"; "writes"; "publishes"; "consumes"].
Definition EDGE_READINESS_OPTIONS : list string :=
  ["none"; "source_requires_target"; "target_requires_source"].

Definition queueTypes : list ServiceType := [Kafka; Rabbitmq].
Definition storeTypes : list ServiceType := [Postgres; Mysql; Mariadb; Redis; Memcached; Mongodb].

Definition defaultReadiness (relation : string) : string :=
  if decide (relation = "reads" \/ relation = "consumes") then "target_requires_source"
  else "source_requires_target".

Definition relation_data (relation : string) : EdgeData :=
  MkEdgeData None None None (Some relation) (Some (defaultReadiness relation)) None None None.

Definition inferEdgeData (source target : FlowNode) : res EdgeData :=
  match nd_service (node_data source), nd_service (node_data target) with
  | Some s, Some t =>
      let sourceType := svc_type s in
      let targetType := svc_type t in
      let relation :=
        if set_has sourceType queueTypes && bool_decide (targetType = Generic) then "consumes"
        else if bool_decide (sourceType = Generic) && set_has targetType queueTypes then "publishes"
        else if set_has sourceType storeTypes && bool_decide (targetType = Generic) then "reads"
        else if bool_decide (sourceType = Generic) && set_has targetType storeTypes then "writes"
        else "calls" in
      Return (relation_data relation)
  | _, _ => Throw JsTypeError
  end.

(** [edge.data?.p] for an optional property. *)
Definition data_prop {A} (f : EdgeData -> option A) (e : FlowEdge) : option A := edge_data e ≫= f.

(** The value when it is one of the options, else the default. *)
Definition one_of (options : list string) (v : option string) (d : string) : string :=
  match v with Some s => if decide (s ∈ options) then s else d | None => d end.

(** Neither relation nor readiness is missing or empty. *)
Definition has_semantics (e : FlowEdge) : bool :=
  ostr_truthy (data_prop ed_relation e) && ostr_truthy (data_prop ed_readiness e).

Definition normalizeEdge (edge : FlowEdge) (legacy : bool) : FlowEdge :=
  let migrated := legacy || negb (has_semantics edge) in
  let relation := one_of EDGE_RELATIONS (data_prop ed_relation edge) "calls" in
  let readiness := one_of EDGE_READINESS_OPTIONS (data_prop ed_readiness edge) "source_requires_target" in
  let needsReview := if migrated || default false (data_prop ed_needsReview edge) then Some true else None in
  MkEdge (edge_id edge) (edge_source edge) (edge_target edge) (Some "dataFlow")
    (Some (MkEdgeData (data_prop ed_label edge) (data_prop ed_description edge) (data_prop ed_protocol edge)
             (Some relation) (Some readiness) needsReview (data_prop ed_showLabel edge)
             (data_prop ed_layoutPoints edge))).

Definition normalizeEdges (edges : list FlowEdge) (legacy : bool) : list FlowEdge :=
  map (fun edge => normalizeEdge edge (legacy || negb (has_semantics edge))) edges.

Definition relationLabel (d : option EdgeData) : string :=
  ostr_or (js_trim <$> (d ≫= ed_label)) (ostr_or (d ≫= ed_relation) "calls").

Definition clear_route (d : EdgeData) : EdgeData :=
  MkEdgeData (ed_label d) (ed_description d) (ed_protocol d) (ed_relation d) (ed_readiness d)
    (ed_needsReview d) (ed_showLabel d) None.

Definition invalidateRoutesForMovedNodes (edges : list FlowEdge) (movedNodeIds : list string) : list FlowEdge :=
  match movedNodeIds with
  | [] => edges
  | _ => map (fun edge =>
           if set_has (edge_source edge) movedNodeIds || set_has (edge_target edge) movedNodeIds
           then MkEdge (edge_id edge) (edge_source edge) (edge_target edge) (edge_type edge)
                  (clear_route <$> edge_data edge)
           else edge) edges
  end.

(** ** Theorems *)
Lemma one_of_in opts v d : d ∈ opts -> one_of opts v d ∈ opts.
Proof. intros Hd. unfold one_of. destruct v as [s|]; [|done]. by case_decide. Qed.

Lemma one_of_id opts s d : s ∈ opts -> one_of opts (Some s) d = s.
Proof. intros Hs. simpl. by rewrite decide_True. Qed.

Ltac in_list := repeat (apply list_elem_of_here || apply list_elem_of_further).

Lemma normalized_members e b :
  one_of EDGE_RELATIONS (data_prop ed_relation e) "calls" ∈ EDGE_RELATIONS
  /\ one_of EDGE_READINESS_OPTIONS (data_prop ed_readiness e) "source_requires_target" ∈ EDGE_READINESS_OPTIONS
  /\ has_semantics (normalizeEdge e b) = true.
Proof.
  assert (H1 : one_of EDGE_RELATIONS (data_prop ed_relation e) "calls" ∈ EDGE_RELATIONS)
    by (apply one_of_in; in_list).
  assert (H2 : one_of EDGE_READINESS_OPTIONS (data_prop ed_readiness e) "source_requires_target"
    ∈ EDGE_READINESS_OPTIONS) by (apply one_of_in; in_list).
  split; [done|]. split; [done|]. unfold has_semantics, normalizeEdge, data_prop. simpl.
  fold (data_prop ed_relation e) (data_prop ed_readiness e).
  assert (Hr : forall s, s ∈ EDGE_RELATIONS -> str_truthy s = true).
  { intros s Hs. unfold EDGE_RELATIONS in Hs. rewrite !elem_of_cons in Hs.
    destruct Hs as [->|[->|[->|[->|[->|Hs]]]]]; try done. by apply elem_of_nil in Hs. }
  assert (Hd : forall s, s ∈ EDGE_READINESS_OPTIONS -> str_truthy s = true).
  { intros s Hs. unfold EDGE_READINESS_OPTIONS in Hs. rewrite !elem_of_cons in Hs.
    destruct Hs as [->|[->|[->|Hs]]]; try done. by apply elem_of_nil in Hs. }
  by rewrite (Hr _ H1), (Hd _ H2).
Qed.

(** Normalising a connection always gives one of the known relations and one of the
    known readiness rules between the same nodes, flags what had to be guessed
    for review, and normalising again changes nothing. *)
Theorem normalize_edge_stable e legacy :
  let e' := normalizeEdge e legacy in
  edge_source e' = edge_source e /\ edge_target e' = edge_target e /\ edge_id e' = edge_id e
  /\ (exists r d, data_prop ed_relation e' = Some r /\ r ∈ EDGE_RELATIONS
        /\ data_prop ed_readiness e' = Some d /\ d ∈ EDGE_READINESS_OPTIONS)
  /\ (has_semantics e = false -> data_prop ed_needsReview e' = Some true)
  /\ normalizeEdge e' false = e' /\ normalizeEdges [e'] false = [e'].
Proof.
  cbn zeta. destruct (normalized_members e legacy) as (H1 & H2 & H3).
  assert (Hid : normalizeEdge (normalizeEdge e legacy) false = normalizeEdge e legacy).
  { unfold normalizeEdge at 1. rewrite H3. unfold normalizeEdge, data_prop at 1 2 3 4 5 6 7 8. simpl.
    fold (data_prop ed_relation e) (data_prop ed_readiness e). rewrite !decide_True by done.
    by destruct (legacy || _ || _). }
  do 3 (split; [done|]). split; [by do 2 eexists|]. split.
  - intros Hs. unfold normalizeEdge, data_prop at 1. simpl. rewrite Hs. by rewrite orb_true_r.
  - split; [done|]. unfold normalizeEdges. cbn [map]. rewrite H3. cbn [orb negb]. by rewrite Hid.
Qed.

Lemma normalizeEdges_stable es legacy : normalizeEdges (normalizeEdges es legacy) false = normalizeEdges es legacy.
Proof.
  unfold normalizeEdges. rewrite map_map. apply map_ext. intros e. set (b := legacy || negb (has_semantics e)).
  destruct (normalized_members e b) as (_ & _ & H). rewrite H. simpl.
  destruct (normalize_edge_stable e b) as (_ & _ & _ & _ & _ & Hid & _). exact Hid.
Qed.

(** The inferred direction of a connection makes the application wait for its store or
    broker, never the other way round: between a generic service and a store
    or queue, whichever way the edge is drawn, the generic side requires the
    other. *)
Theorem inferred_readiness_points_to_backend source target s t d :
  nd_service (node_data source) = Some s -> nd_service (node_data target) = Some t ->
  inferEdgeData source target = Return d ->
  (svc_type s = Generic -> svc_type t ∈ queueTypes ++ storeTypes -> ed_readiness d = Some "source_requires_target")
  /\ (svc_type t = Generic -> svc_type s ∈ queueTypes ++ storeTypes -> ed_readiness d = Some "target_requires_source").
Proof.
  intros Hs Ht. unfold inferEdgeData. rewrite Hs, Ht. intros [= <-].
  split; intros E Hin; rewrite E; apply elem_of_app in Hin as [Hin|Hin];
    unfold queueTypes, storeTypes in Hin; rewrite !elem_of_cons, elem_of_nil in Hin;
    repeat (destruct Hin as [Hin|Hin]; [rewrite Hin; vm_compute; reflexivity|]); done.
Qed.

Definition typed_node (id : string) (ty : ServiceType) : FlowNode :=
  MkNode id (0, 0)%Z (JMap [])
    (MkNodeData (Some id) None (Some (MkNodeService ty None None None None None None None None)) None).

Lemma inferred_readiness_points_to_backend_witness :
  ed_readiness (relation_data "reads") = Some "target_requires_source".
Proof.
  apply (inferred_readiness_points_to_backend (typed_node "db" Postgres) (typed_node "api" Generic)
    (MkNodeService Postgres None None None None None None None None)
    (MkNodeService Generic None None None None None None None None));
    [reflexivity | reflexivity | vm_compute; reflexivity | reflexivity | in_list].
Defined.
