(* ===== verification/ServiceNames.v ===== *)
(** * Service names and references in
      [ui-v2/src/modules/utils/scenario-translator.ts]

    [sanitizeName], the alias map from labels and ids to service names, and the
    two regular expressions that find references of the form service.field
    between a dollar brace and a closing brace. *)

From S2P Require Import Prelude FlowTypes.
From Stdlib Require Import Ascii.

(** ** [sanitizeName] *)
Definition under : ascii := "_"%char.

(** The class of [a-z0-9_-]. *)
Definition name_char (c : ascii) : bool :=
  let n := code c in
  ((97 <=? n)%N && (n <=? 122)%N) || ((48 <=? n)%N && (n <=? 57)%N) || (n =? 95)%N || (n =? 45)%N.

Definition name_chars (s : string) : string := str_map (fun c => if name_char c then c else under) s.

(** Replacing each run of underscores by one. *)
Fixpoint collapse (s : string) : string :=
  match s with
  | EmptyString => EmptyString
  | String c s' =>
      let t := collapse s' in
      match t with
      | String d _ => if decide (c = under /\ d = under) then t else String c t
      | EmptyString => String c t
      end
  end.

Definition strip_start (s : string) : string :=
  match s with String c s' => if decide (c = under) then s' else s | EmptyString => s end.

Fixpoint strip_end (s : string) : string :=
  match s with
  | EmptyString => EmptyString
  | String c EmptyString => if decide (c = under) then EmptyString else s
  | String c s' => String c (strip_end s')
  end.

Definition sanitizeName (label : string) : string :=
  strip_end (strip_start (collapse (name_chars (toLowerCase label)))).

(** [sanitizeName(node.data.label)]: a missing label has no [toLowerCase]. *)
Definition nodeName (n : FlowNode) : res string :=
  match nd_label (node_data n) with Some l => Return (sanitizeName l) | None => Throw JsTypeError end.

(** ** Aliases *)
Definition buildServiceAliasMap (nodes : list FlowNode) : jmap string string :=
  fold_left (fun aliases n =>
    let label := nd_label (node_data n) in
    let sanitized := sanitizeName (ostr_or label (node_id n)) in
    let candidates := [default "" label; node_id n; sanitized; js_trim (ostr_or label ""); js_trim (node_id n)] in
    fold_left (fun aliases candidate =>
      if str_truthy candidate
      then <[toLowerCase candidate := sanitized]> (<[candidate := sanitized]> aliases)
      else aliases) candidates aliases) nodes ∅.

(** ** References *)
Definition dollar : ascii := "$"%char.
Definition lbrace : ascii := "{"%char.
Definition rbrace : ascii := "}"%char.

(** Where the replacing scan is: outside, after a dollar, or inside the braces
    with the text read so far. *)
Inductive scan := Plain | Dollar | Inside (acc : string).

Definition open_ref : string := String dollar (String lbrace EmptyString).
Definition chr (c : ascii) : string := String c EmptyString.

(** [value.replace(/.../g, f)] on a dollar brace, a non-empty text without a
    closing brace, and the brace; [f] gets the text. *)
Fixpoint replace_refs (f : string -> string) (m : scan) (s : string) : string :=
  match s with
  | EmptyString =>
      match m with Plain => "" | Dollar => chr dollar | Inside acc => open_ref +:+ acc end
  | String c s' =>
      match m with
      | Plain => if decide (c = dollar) then replace_refs f Dollar s' else String c (replace_refs f Plain s')
      | Dollar =>
          if decide (c = lbrace) then replace_refs f (Inside "") s'
          else if decide (c = dollar) then String dollar (replace_refs f Dollar s')
          else String dollar (String c (replace_refs f Plain s'))
      | Inside acc =>
          if decide (c = rbrace)
          then (if str_truthy acc then f acc else open_ref +:+ chr rbrace) +:+ replace_refs f Plain s'
          else replace_refs f (Inside (acc +:+ chr c)) s'
      end
  end.

(** [a ?? b] on lookups. *)
Definition orelse {A} (a b : option A) : option A := match a with Some _ => a | None => b end.

Definition normalizeReference (aliases : jmap string string) (rawRef : string) : string :=
  match split_on "."%char rawRef with
  | serviceToken :: ((_ :: _) as rest) =>
      if str_truthy serviceToken then
        let normalizedService :=
          default (sanitizeName serviceToken)
            (orelse (aliases !! serviceToken)
               (orelse (aliases !! js_trim serviceToken) (aliases !! toLowerCase serviceToken))) in
        open_ref +:+ normalizedService +:+ "." +:+ join "." rest +:+ chr rbrace
      else open_ref +:+ rawRef +:+ chr rbrace
  | _ => open_ref +:+ rawRef +:+ chr rbrace
  end.

Definition normalizeServiceReferences (value : string) (aliases : jmap string string) : string :=
  if negb (str_truthy value) then value else replace_refs (normalizeReference aliases) Plain value.

(** The longest prefix of characters that satisfy [p], and what follows. *)
Fixpoint span (p : ascii -> bool) (s : string) : string * string :=
  match s with
  | EmptyString => (EmptyString, EmptyString)
  | String c s' => if p c then let '(a, b) := span p s' in (String c a, b) else (EmptyString, s)
  end.

Definition not_brace (c : ascii) : bool := negb (bool_decide (c = rbrace)).
Definition not_brace_dot (c : ascii) : bool := not_brace c && negb (bool_decide (c = "."%char)).

(** A match of the runtime-reference pattern at the text after a dollar brace:
    the service token and the number of characters up to the closing brace. *)
Definition reference_at (s : string) : option (string * nat) :=
  match span not_brace_dot s with
  | (String t0 t, String c s') =>
      if decide (c = "."%char) then
        match span not_brace s' with
        | (String f0 f, String _ _) =>
            Some (String t0 t, S (String.length t) + 1 + S (String.length f) + 1)
        | _ => None
        end
      else None
  | _ => None
  end.

(** The tokens [matchAll] yields: matches do not overlap, [skip] characters
    belong to the last one. *)
Fixpoint references (skip : nat) (s : string) : list string :=
  match s with
  | EmptyString => []
  | String c s' =>
      match skip with
      | S k => references k s'
      | 0 =>
          match s' with
          | String c2 body =>
              if decide (c = dollar /\ c2 = lbrace) then
                match reference_at body with
                | Some (token, len) => token :: references (S len) s'
                | None => references 0 s'
                end
              else references 0 s'
          | EmptyString => references 0 s'
          end
      end
  end.

Definition ref_of (token field : string) : string := open_ref +:+ token +:+ "." +:+ field +:+ chr rbrace.

Example references_example :
  references 0 ("http://" +:+ ref_of "db" "host" +:+ ":" +:+ ref_of "db" "port.5432" +:+ open_ref +:+ "x" +:+ chr rbrace)
  = ["db"; "db"].
Proof. vm_compute. reflexivity. Qed.

Example normalize_example :
  normalizeServiceReferences ("u=" +:+ ref_of "User DB" "host" +:+ open_ref +:+ "HOME" +:+ chr rbrace)
    (JMap [("User DB", "user_db")])
  = "u=" +:+ ref_of "user_db" "host" +:+ open_ref +:+ "HOME" +:+ chr rbrace.
Proof. vm_compute. reflexivity. Qed.

(** ** Sanitized names are canonical *)
Fixpoint no_double (s : string) : bool :=
  match s with
  | String c ((String d _) as s') => negb (bool_decide (c = under /\ d = under)) && no_double s'
  | _ => true
  end.

Definition starts_clean (s : string) : Prop := match s with String c _ => c <> under | EmptyString => True end.

Fixpoint ends_clean (s : string) : Prop :=
  match s with
  | EmptyString => True
  | String c EmptyString => c <> under
  | String _ s' => ends_clean s'
  end.

(** A name the translation can produce: only name characters, no run of
    underscores, none at either end. *)
Definition canonical (s : string) : Prop :=
  str_forallb name_char s = true /\ no_double s = true /\ starts_clean s /\ ends_clean s.

Lemma name_chars_ok s : str_forallb name_char (name_chars s) = true.
Proof.
  unfold name_chars. induction s as [|c s IH]; simpl; [done|]. rewrite IH, andb_true_r.
  destruct (name_char c) eqn:E; [done|]. by vm_compute.
Qed.

Lemma collapse_ok s : str_forallb name_char s = true ->
  str_forallb name_char (collapse s) = true /\ no_double (collapse s) = true.
Proof.
  induction s as [|c s IH]; simpl; [done|]. intros [Hc Hs]%andb_true_iff. destruct (IH Hs) as [H1 H2].
  destruct (collapse s) as [|d t] eqn:E; simpl; [by rewrite Hc|].
  case_decide as Hd; [done|]. simpl in *. rewrite Hc. split; [done|].
  by rewrite bool_decide_eq_false_2.
Qed.

Lemma strip_start_ok s : str_forallb name_char s = true -> no_double s = true ->
  str_forallb name_char (strip_start s) = true /\ no_double (strip_start s) = true /\ starts_clean (strip_start s).
Proof.
  destruct s as [|c s]; [done|]. intros Hc Hn. unfold strip_start.
  destruct (decide (c = under)) as [->|E]; [|done]. simpl in Hc, Hn.
  split; [done|]. destruct s as [|d s]; [done|].
  apply andb_true_iff in Hn as [Hd Hn]. split; [done|]. simpl. intros ->.
  by rewrite bool_decide_eq_true_2 in Hd.
Qed.

Lemma strip_end_ok s : str_forallb name_char s = true -> no_double s = true ->
  str_forallb name_char (strip_end s) = true /\ no_double (strip_end s) = true /\ ends_clean (strip_end s)
  /\ (starts_clean s -> starts_clean (strip_end s)).
Proof.
  induction s as [|c [|d s] IH]; intros Hc Hn.
  - done.
  - simpl in *. case_decide; done.
  - apply andb_true_iff in Hc as [Hc0 Hc]. simpl in Hn. apply andb_true_iff in Hn as [Hd Hn].
    destruct (IH Hc Hn) as (H1 & H2 & H3 & H4).
    change (strip_end (String c (String d s))) with (String c (strip_end (String d s))).
    assert (Hcase : strip_end (String d s) = EmptyString /\ d = under
      \/ exists t, strip_end (String d s) = String d t).
    { clear. destruct s as [|x s]; [|right; by eexists]. simpl. destruct (decide (d = under)); eauto. }
    destruct Hcase as [[E Ed]|[t E]]; rewrite E in *; simpl in *.
    + rewrite Hc0. assert (c <> under) by (intros ->; by rewrite bool_decide_eq_true_2 in Hd). done.
    + by rewrite Hc0, Hd.
Qed.

Lemma sanitize_canonical label : canonical (sanitizeName label).
Proof.
  unfold sanitizeName. destruct (collapse_ok _ (name_chars_ok (toLowerCase label))) as [H1 H2].
  destruct (strip_start_ok _ H1 H2) as (H3 & H4 & H5). destruct (strip_end_ok _ H3 H4) as (H6 & H7 & H8 & H9).
  split; [done|]. split; [done|]. split; [by apply H9|done].
Qed.

Lemma name_char_lower c : name_char c = true -> lower_char c = c.
Proof.
  destruct c as [[] [] [] [] [] [] [] []]; vm_compute; congruence.
Qed.

Lemma canonical_fixed s : canonical s -> sanitizeName s = s.
Proof.
  intros (Hc & Hn & Hs & He).
  assert (E1 : toLowerCase s = s).
  { clear -Hc. unfold toLowerCase. induction s as [|c s IH]; simpl in *; [done|].
    apply andb_true_iff in Hc as [H1 H2]. by rewrite name_char_lower, IH. }
  assert (E2 : name_chars s = s).
  { clear -Hc. unfold name_chars. induction s as [|c s IH]; simpl in *; [done|].
    apply andb_true_iff in Hc as [H1 H2]. by rewrite H1, IH. }
  assert (E3 : collapse s = s).
  { clear -Hn. induction s as [|c s IH]; [done|]. simpl.
    destruct s as [|d s]; [done|]. simpl in Hn. apply andb_true_iff in Hn as [Hd Hn].
    rewrite IH by done. rewrite decide_False; [done|]. by rewrite negb_true_iff, bool_decide_eq_false in Hd. }
  assert (E4 : strip_start s = s).
  { destruct s; simpl; [done|]. by rewrite decide_False. }
  assert (E5 : strip_end s = s).
  { clear -He. induction s as [|c [|d s] IH]; [done|simpl in *; by rewrite decide_False|].
    change (strip_end (String c (String d s))) with (String c (strip_end (String d s))). by rewrite IH. }
  unfold sanitizeName. by rewrite E1, E2, E3, E4, E5.
Qed.

(** [sanitizeName] yields canonical service names and leaves canonical names alone: the
    result has only lower-case letters, digits, dashes and single inner
    underscores, so sanitizing twice is sanitizing once. *)
Theorem sanitize_name_canonical label :
  canonical (sanitizeName label) /\ sanitizeName (sanitizeName label) = sanitizeName label
  /\ (forall s, canonical s <-> sanitizeName s = s).
Proof.
  split; [apply sanitize_canonical|]. split; [apply canonical_fixed, sanitize_canonical|].
  intros s. split; [apply canonical_fixed|]. intros <-. apply sanitize_canonical.
Qed.
