(* ===== verification/Graph.v ===== *)
(** * Dependency graphs: the traversals of [ui-v2/src/modules/utils/scenario-translator.ts]

    [detectCycles] and the two depth-first [visit] functions.  Each recursive
    call takes a unit of fuel; running out is the exception a JavaScript stack
    overflow raises.  The fuel each entry point passes, one more than the
    number of names in the graph, is proved to be enough for every graph. *)

From S2P Require Import Prelude.
From Stdlib Require Import Relations.

Definition DependencyGraph : Type := jmap string (list string).

(** [graph.get(name) || []]. *)
Definition neighbors (g : DependencyGraph) (n : string) : list string := default [] (g !! n).

(** Every name of the graph: its keys and their dependencies. *)
Definition graph_nodes (g : DependencyGraph) : list string := set_of_list (jkeys g ++ concat (jvalues g)).

(** ** [detectCycles] *)
Record DfsState := MkDfs {
  visited : list string;
  visiting : list string;
  cycles : list (list string)
}.

Fixpoint indexOf (x : string) (l : list string) : nat :=
  match l with
  | [] => 0
  | y :: l' => if decide (x = y) then 0 else S (indexOf x l')
  end.

(** A [for] loop that threads a state through a body that may throw. *)
Fixpoint each_state {A S} (f : A -> S -> res S) (l : list A) (s : S) : res S :=
  match l with
  | [] => Return s
  | x :: l' => match f x s with Return s' => each_state f l' s' | Throw e => Throw e end
  end.

Fixpoint dfs (g : DependencyGraph) (fuel : nat) (path : list string) (node : string) (st : DfsState)
    : res DfsState :=
  match fuel with
  | 0 => Throw JsRangeError
  | S fuel' =>
      if set_has node (visiting st) then
        let cycleStart := indexOf node path in
        Return (MkDfs (visited st) (visiting st) (cycles st ++ [drop cycleStart path ++ [node]]))
      else if set_has node (visited st) then Return st
      else
        let st1 := MkDfs (visited st) (set_add node (visiting st)) (cycles st) in
        match each_state (dfs g fuel' (path ++ [node])) (neighbors g node) st1 with
        | Throw e => Throw e
        | Return st2 =>
            Return (MkDfs (set_add node (visited st2)) (filter (fun n => n <> node) (visiting st2)) (cycles st2))
        end
  end.

Definition detectCycles (g : DependencyGraph) : res (list (list string)) :=
  match each_state (dfs g (S (length (graph_nodes g))) []) (jkeys g) (MkDfs [] [] []) with
  | Throw e => Throw e
  | Return st => Return (cycles st)
  end.

(** ** The two reachability visits *)

(** [visit] of [expandScenarioServiceSubset]. *)
Fixpoint visit (g : DependencyGraph) (fuel : nat) (name : string) (required : list string) : res (list string) :=
  match fuel with
  | 0 => Throw JsRangeError
  | S fuel' =>
      if set_has name required then Return required
      else each_state (visit g fuel') (neighbors g name) (set_add name required)
  end.

(** [visit] of [validateRuntimeReferenceReadiness]: the start itself is only
    added when something leads back to it. *)
Fixpoint visit_deps (g : DependencyGraph) (fuel : nat) (name : string) (reachable : list string)
    : res (list string) :=
  match fuel with
  | 0 => Throw JsRangeError
  | S fuel' =>
      each_state (fun dependency s =>
        if set_has dependency s then Return s else visit_deps g fuel' dependency (set_add dependency s))
        (neighbors g name) reachable
  end.

Definition visit_fuel (g : DependencyGraph) : nat := S (S (length (graph_nodes g))).

(** ** Paths *)
Definition edge (g : DependencyGraph) (a b : string) : Prop := b ∈ neighbors g a.
Definition reaches (g : DependencyGraph) : string -> string -> Prop := clos_refl_trans_1n _ (edge g).
Definition reaches1 (g : DependencyGraph) (a b : string) : Prop := exists m, edge g a m /\ reaches g m b.

Definition acyclic (g : DependencyGraph) : Prop := forall n, ~ reaches1 g n n.

(** Each name depends on the next. *)
Fixpoint chain (g : DependencyGraph) (l : list string) : Prop :=
  match l with
  | a :: (b :: _) as l' => edge g a b /\ chain g l'
  | _ => True
  end.

(** [n -> ... -> n], with at least one edge. *)
Definition is_cycle (g : DependencyGraph) (c : list string) : Prop :=
  exists n mid, c = n :: mid ++ [n] /\ chain g c.

Section Facts.
Context (g : DependencyGraph).

Lemma neighbor_nodes a b : edge g a b -> a ∈ graph_nodes g /\ b ∈ graph_nodes g.
Proof.
  unfold edge, neighbors, graph_nodes. rewrite !elem_of_set_of_list, !elem_of_app.
  destruct (g !! a) as [l|] eqn:E; simpl; [|by intros H%elem_of_nil]. intros Hb. split.
  - left. apply jlookup_is_Some. by eauto.
  - right. apply list_elem_of_In, in_concat. exists l. split; [|by apply list_elem_of_In].
    apply jlookup_elem_of in E. unfold jvalues. apply list_elem_of_In in E.
    by apply (in_map snd) in E.
Qed.

Lemma reaches_trans a b c : reaches g a b -> reaches g b c -> reaches g a c.
Proof. intros H1 H2. induction H1 as [|x y z H _ IH]; [done|]. exact (Relation_Operators.rt1n_trans _ _ _ _ _ H (IH H2)). Qed.

Lemma reaches_edge a b : edge g a b -> reaches g a b.
Proof. intros H. econstructor; [exact H|constructor]. Qed.

Lemma chain_app_inv l1 l2 : chain g (l1 ++ l2) -> chain g l2.
Proof.
  induction l1 as [|a l1 IH]; simpl; [done|]. destruct (l1 ++ l2) eqn:E.
  - apply app_eq_nil in E as [_ ->]. done.
  - intros [_ H]. by apply IH.
Qed.

Lemma chain_snoc l a b : chain g (l ++ [a]) -> edge g a b -> chain g ((l ++ [a]) ++ [b]).
Proof.
  induction l as [|x l IH]; simpl; [by auto|]. destruct (l ++ [a]) eqn:E; [by destruct l|].
  simpl. intros [Hx Hc] Hb. split; [done|]. by apply IH.
Qed.

Lemma chain_reaches n l b : chain g (n :: l ++ [b]) -> reaches1 g n b.
Proof.
  revert n; induction l as [|x l IH]; intros n; simpl.
  - intros [H _]. exists b. split; [done|constructor].
  - intros [H Hc]. exists x. split; [done|]. destruct (IH x Hc) as (m & Hm & Hr). econstructor; eauto.
Qed.

(** A cycle in the graph is a path back. *)
Lemma is_cycle_cyclic c : is_cycle g c -> ~ acyclic g.
Proof. intros (n & mid & -> & Hc) Ha. by apply (Ha n), chain_reaches with mid. Qed.

Lemma drop_indexOf x l : x ∈ l -> exists l1, l = l1 ++ drop (indexOf x l) l
  /\ exists l2, drop (indexOf x l) l = x :: l2.
Proof.
  induction l as [|y l IH]; [by intros H%elem_of_nil|]. simpl. case_decide as E; subst.
  - intros _. exists []. simpl. eauto.
  - intros [?|H]%elem_of_cons; [done|]. destruct (IH H) as (l1 & E1 & l2 & E2).
    exists (y :: l1). simpl. split; [by rewrite <- E1|]. eauto.
Qed.

(** ** Fuel *)
Definition remaining (s : list string) : nat := length (filter (fun n => n ∉ s) (graph_nodes g)).

Lemma remaining_add n s : n ∈ graph_nodes g -> n ∉ s -> remaining (set_add n s) < remaining s.
Proof.
  intros Hn Hs. unfold remaining.
  assert (Hlt : forall l, n ∈ l -> length (filter (fun m => m ∉ set_add n s) l) < length (filter (fun m => m ∉ s) l)).
  { induction l as [|x l IH]; [by intros H%elem_of_nil|]. rewrite !filter_cons.
    assert (Hle : length (filter (fun m => m ∉ set_add n s) l) <= length (filter (fun m => m ∉ s) l)).
    { clear. induction l as [|x l IH]; [done|]. rewrite !filter_cons.
      destruct (decide (x ∉ set_add n s)) as [H1|H1], (decide (x ∉ s)) as [H2|H2]; simpl; try lia.
      contradict H2. intros Hx. apply H1, elem_of_set_add. auto. }
    intros [<-|H]%elem_of_cons.
    - rewrite (decide_False (P := n ∉ set_add n s)), decide_True; simpl; [lia|done|].
      intros Hc. apply Hc, elem_of_set_add. auto.
    - specialize (IH H). destruct (decide (x ∉ set_add n s)) as [H1|H1], (decide (x ∉ s)) as [H2|H2]; simpl; try lia.
      contradict H2. intros Hx. apply H1, elem_of_set_add. auto. }
  by apply Hlt.
Qed.

Lemma remaining_mono s s' : s ⊆ s' -> remaining s' <= remaining s.
Proof.
  intros Hsub. unfold remaining. induction (graph_nodes g) as [|x l IH]; [done|]. rewrite !filter_cons.
  destruct (decide (x ∉ s')) as [H1|H1], (decide (x ∉ s)) as [H2|H2]; simpl; try lia.
  contradict H2. intros Hx. by apply H1, Hsub.
Qed.

Lemma remaining_bound s : remaining s <= length (graph_nodes g).
Proof. apply length_filter. Qed.

(** The state is threaded through a loop: an invariant of the body is one of the loop. *)
Lemma each_state_inv {A S} (f : A -> S -> res S) (I : list A -> S -> Prop) l s :
  I [] s ->
  (forall done x rest s, l = done ++ x :: rest -> I done s -> exists s', f x s = Return s' /\ I (done ++ [x]) s') ->
  exists s', each_state f l s = Return s' /\ I l s'.
Proof.
  intros H0 Hstep.
  assert (H : forall done rest s, l = done ++ rest -> I done s ->
    exists s', each_state f rest s = Return s' /\ I l s').
  { intros done rest. revert done. induction rest as [|x rest IH]; intros done s1 El Hi; simpl.
    - rewrite app_nil_r in El. subst. eauto.
    - destruct (Hstep done x rest s1 El Hi) as (s2 & -> & Hi2). apply (IH (done ++ [x])); [|done].
      by rewrite <- app_assoc. }
  by apply (H []).
Qed.

(** ** Reachability *)

(** [s'] extends [s] by names reached from [start], all of whose dependencies it holds. *)
Record extends (start : string -> Prop) (s s' : list string) : Prop := {
  ext_sub : s ⊆ s';
  ext_closed x y : x ∈ s' -> x ∉ s -> edge g x y -> y ∈ s';
  ext_sound x : x ∈ s' -> x ∈ s \/ exists t, start t /\ reaches g t x
}.

Lemma extends_refl P s : extends P s s.
Proof. split; [done|done|auto]. Qed.

Lemma extends_trans P Q R s s1 s2 : (forall t, P t -> R t) -> (forall t, Q t -> R t) ->
  extends P s s1 -> extends Q s1 s2 -> extends R s s2.
Proof.
  intros HP HQ [A1 B1 C1] [A2 B2 C2]. split.
  - by transitivity s1.
  - intros x y Hx Hn He. destruct (decide (x ∈ s1)); [by eapply A2, B1|by eapply B2].
  - intros x [H|(t & Ht & Hr)]%C2; [|right; eauto]. apply C1 in H as [?|(t & Ht & Hr)]; [by left|right; eauto].
Qed.

Lemma loop_extends (body : string -> list string -> res (list string)) l s :
  (forall x s1, x ∈ l -> s ⊆ s1 -> exists s2, body x s1 = Return s2 /\ extends (eq x) s1 s2 /\ x ∈ s2) ->
  exists s', each_state body l s = Return s' /\ extends (fun t => t ∈ l) s s' /\ l ⊆ s'.
Proof.
  revert s; induction l as [|x l IH]; intros s Hb; simpl.
  { exists s. split; [done|]. split; [apply extends_refl|]. by intros y Hy%elem_of_nil. }
  destruct (Hb x s) as (s1 & -> & E1 & Hx); [apply list_elem_of_here|done|].
  destruct (IH s1) as (s2 & E & E2 & Hl).
  { intros y s' Hy Hs. apply Hb; [by apply list_elem_of_further|]. transitivity s1; [apply E1|done]. }
  exists s2. split; [done|]. split.
  - eapply extends_trans; [| |exact E1|exact E2]; simpl; [intros t <-; apply list_elem_of_here|].
    intros t Ht. by apply list_elem_of_further.
  - intros y [->|Hy]%elem_of_cons; [by apply E2|by apply Hl].
Qed.

(** Adding a name and then its dependencies. *)
Lemma extends_node n s s' : n ∉ s -> extends (fun t => t ∈ neighbors g n) (set_add n s) s' ->
  neighbors g n ⊆ s' -> extends (eq n) s s' /\ n ∈ s'.
Proof.
  intros Hn [A B C] Hs.
  assert (Hin : n ∈ s') by (apply A, elem_of_set_add; auto).
  split; [|done]. split.
  - intros x Hx. apply A, elem_of_set_add. auto.
  - intros x y Hx Hnx He. destruct (decide (x = n)) as [->|Hne]; [by apply Hs|].
    apply (B x y Hx); [|done]. rewrite elem_of_set_add. tauto.
  - intros x Hx. destruct (C x Hx) as [[->|?]%elem_of_set_add|(t & Ht & Hr)]; [|by left|].
    + right. exists n. split; [done|constructor].
    + right. exists n. split; [done|]. econstructor; eauto.
Qed.

Lemma visit_spec fuel n s : 0 < fuel -> (n ∈ graph_nodes g -> remaining s < fuel) ->
  exists s', visit g fuel n s = Return s' /\ extends (eq n) s s' /\ n ∈ s'.
Proof.
  revert n s; induction fuel as [|fuel IH]; intros n s Hf Hr; [lia|]. simpl.
  destruct (set_has n s) eqn:E.
  { apply set_has_spec in E. exists s. split; [done|]. split; [apply extends_refl|done]. }
  apply set_has_false in E.
  destruct (loop_extends (visit g fuel) (neighbors g n) (set_add n s)) as (s' & Es & Ex & Hs).
  { intros x s1 Hx Hsub. destruct (neighbor_nodes n x Hx) as [Hn Hxn].
    pose proof (remaining_add n s Hn E). pose proof (remaining_mono _ _ Hsub). specialize (Hr Hn).
    apply IH; [lia|]. intros _. lia. }
  exists s'. split; [done|]. by apply extends_node.
Qed.

Lemma visit_deps_spec fuel n s : 0 < fuel -> remaining s < fuel ->
  exists s', visit_deps g fuel n s = Return s' /\ extends (fun t => t ∈ neighbors g n) s s' /\ neighbors g n ⊆ s'.
Proof.
  revert n s; induction fuel as [|fuel IH]; intros n s Hf Hr; [lia|]. simpl. apply loop_extends.
  intros x s1 Hx Hsub. destruct (set_has x s1) eqn:E.
  { apply set_has_spec in E. exists s1. split; [done|]. split; [apply extends_refl|done]. }
  apply set_has_false in E. destruct (neighbor_nodes n x Hx) as [_ Hxn].
  pose proof (remaining_add x s1 Hxn E). pose proof (remaining_mono _ _ Hsub).
  destruct (IH x (set_add x s1)) as (s' & Es & Ex & Hs); [lia|lia|].
  exists s'. split; [done|]. by apply extends_node.
Qed.

(** Started from nothing, the extension is exactly the reachable part. *)
Lemma extends_reachable P s' : extends P [] s' -> (forall t, P t -> t ∈ s') ->
  forall x, x ∈ s' <-> exists t, P t /\ reaches g t x.
Proof.
  intros [A B C] Hp x. split.
  - intros Hx. destruct (C x Hx) as [Hn|?]; [by apply elem_of_nil in Hn|done].
  - intros (t & Ht & Hr). apply Hp in Ht. clear Hp C. induction Hr as [|t m x He Hr IH]; [done|].
    apply IH. apply (B t m Ht); [apply not_elem_of_nil|done].
Qed.

(** ** Cycles *)
Definition settled (st : DfsState) : Prop :=
  (forall x y, x ∈ visited st -> edge g x y -> y ∈ visited st)
  /\ (forall x, x ∈ visited st -> ~ reaches1 g x x).

Lemma settled_reaches st x y : settled st -> x ∈ visited st -> reaches g x y -> y ∈ visited st.
Proof. intros [Hc _] Hx Hr. induction Hr as [|x m y He Hr IH]; [done|]. by eapply IH, Hc. Qed.

(** What a (partial) traversal from [st] to [st'] did, below the names [path]. *)
Record explored (path finished : list string) (st st' : DfsState) : Prop := {
  expl_visiting : visiting st' = path;
  expl_cycles : exists new, cycles st' = cycles st ++ new /\ (forall c, c ∈ new -> is_cycle g c)
    /\ (new = [] -> settled st -> settled st' /\ finished ⊆ visited st' /\ visited st ⊆ visited st'
         /\ forall x, x ∈ path -> x ∉ visited st -> x ∉ visited st')
}.

Lemma explored_refl path st : visiting st = path -> explored path [] st st.
Proof.
  intros H. split; [done|]. exists []. rewrite app_nil_r. split; [done|].
  split; [by intros c Hc%elem_of_nil|]. intros _ Hs. split; [done|]. split; [by intros x Hx%elem_of_nil|done].
Qed.

Lemma explored_trans path f1 f2 st st1 st2 : explored path f1 st st1 -> explored path f2 st1 st2 ->
  explored path (f1 ++ f2) st st2.
Proof.
  intros [V1 (n1 & C1 & S1 & H1)] [V2 (n2 & C2 & S2 & H2)]. split; [done|]. exists (n1 ++ n2).
  split; [by rewrite C2, C1, app_assoc|]. split; [intros c [?|?]%elem_of_app; auto|].
  intros [-> ->]%app_eq_nil Hs. destruct (H1 eq_refl Hs) as (Hs1 & F1 & U1 & P1).
  destruct (H2 eq_refl Hs1) as (Hs2 & F2 & U2 & P2). split; [done|]. split.
  - intros x [Hx|Hx]%elem_of_app; [by apply U2, F1|by apply F2].
  - split; [by transitivity (visited st1)|]. auto.
Qed.

(** Leaving a node whose dependencies have all been explored. *)
Lemma explored_leave path n st st2 : visiting st = path -> n ∉ path -> n ∉ visited st ->
  explored (path ++ [n]) (neighbors g n) (MkDfs (visited st) (path ++ [n]) (cycles st)) st2 ->
  explored path [n] st (MkDfs (set_add n (visited st2)) (filter (fun m => m <> n) (visiting st2)) (cycles st2)).
Proof.
  intros Hv Hp Hn [V (new & C & S & H)]. split; simpl.
  { rewrite V, filter_app, filter_cons_False, app_nil_r by (by intros []).
    apply filter_all, Forall_forall. by intros x Hx ->. }
  exists new. split; [done|]. split; [done|]. intros -> Hs.
  destruct (H eq_refl Hs) as ((Hc & Ha) & F & U & P). simpl in *.
  assert (Hn2 : n ∉ visited st2) by (apply P; [apply elem_of_app; right; apply list_elem_of_here|done]).
  split; [split|]; simpl.
  - intros x y [->|Hx]%elem_of_set_add He; apply elem_of_set_add; right; [by apply F|by eapply Hc].
  - intros x [->|Hx]%elem_of_set_add; [|by apply Ha]. intros (m & Hm & Hr). apply Hn2.
    apply (settled_reaches st2 m n); [by split|by apply F|done].
  - split; [intros x ->%list_elem_of_singleton; apply elem_of_set_add; auto|].
    split; [intros x Hx; apply elem_of_set_add; right; by apply U|].
    intros x Hx Hnx [->|Hx2]%elem_of_set_add; [done|]. revert Hx2. apply P; [apply elem_of_app; auto|done].
Qed.

Lemma closing_cycle path n : chain g (path ++ [n]) -> n ∈ path ->
  is_cycle g (drop (indexOf n path) path ++ [n]).
Proof.
  intros Hc Hn. destruct (drop_indexOf n path Hn) as (l1 & E1 & l2 & E2). rewrite E2.
  exists n, l2. split; [done|]. rewrite E1, E2, <- app_assoc in Hc. by apply chain_app_inv in Hc.
Qed.

Lemma dfs_spec fuel path n st : n ∈ graph_nodes g -> remaining path < fuel -> visiting st = path ->
  chain g (path ++ [n]) -> exists st', dfs g fuel path n st = Return st' /\ explored path [n] st st'.
Proof.
  revert path n st; induction fuel as [|fuel IH]; intros path n st Hn Hr Hv Hc; [lia|]. simpl. rewrite Hv.
  destruct (set_has n path) eqn:E1.
  { apply set_has_spec in E1. eexists. split; [reflexivity|]. split; [done|]. simpl. eexists. split; [reflexivity|].
    split; [|done]. intros c ->%list_elem_of_singleton. by apply closing_cycle. }
  destruct (set_has n (visited st)) eqn:E2.
  { apply set_has_spec in E2. exists st. split; [done|]. destruct (explored_refl path st Hv) as [V (new & C & S & H)].
    split; [done|]. exists new. split; [done|]. split; [done|]. intros Hnew Hs.
    destruct (H Hnew Hs) as (A & _ & B). split; [done|]. split; [|done]. by intros x ->%list_elem_of_singleton. }
  apply set_has_false in E1, E2. rewrite set_add_notin by done.
  set (st1 := MkDfs (visited st) (path ++ [n]) (cycles st)).
  assert (Hrem : remaining (path ++ [n]) < fuel).
  { pose proof (remaining_add n path Hn E1) as H. rewrite set_add_notin in H by done. lia. }
  destruct (each_state_inv (dfs g fuel (path ++ [n])) (fun finished s => explored (path ++ [n]) finished st1 s)
    (neighbors g n) st1) as (st2 & -> & Hx).
  - by apply explored_refl.
  - intros finished x rest s El Hi.
    assert (He : edge g n x) by (unfold edge; rewrite El; apply elem_of_app; right; apply list_elem_of_here).
    destruct (IH (path ++ [n]) x s) as (s' & -> & Hs').
    + by apply (neighbor_nodes n).
    + done.
    + apply Hi.
    + by apply chain_snoc.
    + exists s'. split; [done|]. by eapply explored_trans.
  - eexists. split; [reflexivity|]. by apply explored_leave.
Qed.

Lemma detect_spec : exists cs, detectCycles g = Return cs /\ (forall c, c ∈ cs -> is_cycle g c)
  /\ (cs = [] -> acyclic g).
Proof.
  unfold detectCycles. set (st0 := MkDfs [] [] []).
  destruct (each_state_inv (dfs g (S (length (graph_nodes g))) []) (fun finished s => explored [] finished st0 s)
    (jkeys g) st0) as (st & -> & Hx).
  - by apply explored_refl.
  - intros finished x rest s El Hi.
    destruct (dfs_spec (S (length (graph_nodes g))) [] x s) as (s' & -> & Hs').
    + unfold graph_nodes. rewrite elem_of_set_of_list, elem_of_app, El, elem_of_app. left. right.
      apply list_elem_of_here.
    + pose proof (remaining_bound []). lia.
    + apply Hi.
    + done.
    + exists s'. split; [done|]. by eapply explored_trans.
  - destruct Hx as [_ (new & C & S & H)]. exists (cycles st). simpl in C. rewrite C. split; [done|]. split; [done|].
    intros Hnew n (m & Hm & Hr). destruct (H Hnew) as ((Hcl & Ha) & F & _).
    { split; simpl; [by intros x y Hx%elem_of_nil|by intros x Hx%elem_of_nil]. }
    apply (Ha n); [|by exists m]. apply F, jlookup_is_Some. unfold edge, neighbors in Hm.
    destruct (g !! n) as [l|] eqn:E; [by exists l|]. by apply elem_of_nil in Hm.
Qed.
End Facts.

(** C25: [detectCycles] always returns, every list it reports is a cycle of the graph, and
    it reports none exactly when the graph has none. *)
Theorem detect_cycles_correct g : exists cs, detectCycles g = Return cs
  /\ (forall c, c ∈ cs -> is_cycle g c) /\ (cs = [] <-> acyclic g).
Proof.
  destruct (detect_spec g) as (cs & E & Hs & Ha). exists cs. split; [done|]. split; [done|].
  split; [done|]. intros Hg. destruct cs as [|c cs]; [done|].
  exfalso. by apply (is_cycle_cyclic g c (Hs c (list_elem_of_here _ _))).
Qed.

#[global] Arguments dfs : simpl never.
#[global] Arguments visit : simpl never.
#[global] Arguments visit_deps : simpl never.
