(* ===== verification/ScenarioTranslator.v ===== *)
(** * Translation of workflows: [ui-v2/src/modules/utils/scenario-translator.ts]

    Validation of a workflow graph and of a scenario, and their translation to
    the services and tests the runner executes.  [localeCompare] (the
    platform's collation) and [JSON_parse] (whose numbers are richer than the
    integers here) are parameters; [None] of [JSON_parse] is a [SyntaxError]. *)

From S2P Require Import Prelude FlowTypes ClientId JsLib Json EdgeModel ServiceNames Graph.
From Stdlib Require Import Ascii.
Open Scope Z_scope.

(** ** Graph *)
Definition NodeMap : Type := jmap string FlowNode.

Definition buildNodeMap (nodes : list FlowNode) : NodeMap :=
  fold_left (fun m n => <[node_id n := n]> m) nodes ∅.

Definition uniqueAppend (values : option (list string)) (value : string) : list string :=
  match values with
  | Some vs => if decide (value ∈ vs) then vs else vs ++ [value]
  | None => [value]
  end.

Definition node_entry (node : FlowNode) (graph : DependencyGraph) : res DependencyGraph :=
  serviceName ← nodeName node; Return (<[serviceName := []]> graph).

Definition edge_entry (nodeMap : NodeMap) (rawEdge : FlowEdge) (graph : DependencyGraph) : res DependencyGraph :=
  let edge := normalizeEdge rawEdge false in
  match nodeMap !! edge_source edge, nodeMap !! edge_target edge with
  | Some source, Some target =>
      sourceName ← nodeName source;
      targetName ← nodeName target;
      let readiness := data_prop ed_readiness edge in
      Return (if decide (readiness = Some "source_requires_target")
              then <[sourceName := uniqueAppend (graph !! sourceName) targetName]> graph
              else if decide (readiness = Some "target_requires_source")
              then <[targetName := uniqueAppend (graph !! targetName) sourceName]> graph
              else graph)
  | _, _ => Return graph
  end.

Definition buildServiceDependencies (nodes : list FlowNode) (edges : list FlowEdge) (nodeMap : NodeMap)
    : res DependencyGraph :=
  graph ← each_state node_entry nodes ∅;
  each_state (edge_entry nodeMap) edges graph.

(** ** Validation of a workflow *)
Definition field_error (node : FlowNode) (message field : string) : TranslationError :=
  MkTranslationError (Some (node_id node)) message (Some field).

(** A template literal shows a missing value as undefined. *)
Definition shown (o : option string) : string := default "undefined" o.

Definition HTTP_METHODS : list string := ["GET"; "POST"; "PUT"; "PATCH"; "DELETE"; "HEAD"; "OPTIONS"].

(** The character class of the header-name pattern. *)
Definition header_char (c : ascii) : bool :=
  let n := code c in
  ((48 <=? n)%N && (n <=? 57)%N) || ((65 <=? n)%N && (n <=? 90)%N) || ((97 <=? n)%N && (n <=? 122)%N)
  || bool_decide (c ∈ ["!"; "#"; "$"; "%"; "&"; "'"; "*"; "+"; "-"; "."; "^"; "_"; "`"; "|"; "~"]%char).

Definition header_name (s : string) : bool := str_truthy s && str_forallb header_char s.

Definition expectation_errors (node : FlowNode) (seen : list (option string)) (ex : MockServerExpectation)
    : list TranslationError :=
  let err message := field_error node message "service.mockServer.expectations" in
  let named text := "MockServer expectation " +:+ quoted (shown (ex_id ex)) +:+ text in
  let headers := default [] (jkeys <$> (ex_request ex ≫= mr_headers))
                 ++ default [] (jkeys <$> (ex_response ex ≫= ms_headers)) in
  (if negb (ostr_truthy (js_trim <$> ex_id ex)) || set_has (ex_id ex) seen
   then [err "MockServer expectations must have unique ids"] else [])
  ++ (if bool_decide (default "" (ex_request ex ≫= mr_method) ∈ HTTP_METHODS)
      then [] else [err (named " has an invalid HTTP method")])
  ++ (if default false (starts_with "/" <$> (ex_request ex ≫= mr_path))
      then [] else [err (named " path must start with /")])
  ++ (match ex_response ex ≫= ms_statusCode with
      | Some code => if (code <? 100) || (599 <? code)
                     then [err (named " status must be between 100 and 599")] else []
      | None => []
      end)
  ++ omap (fun name => if header_name name then None
                       else Some (err (named (" has invalid header name " +:+ quoted name)))) headers.

Fixpoint expectations_errors (node : FlowNode) (seen : list (option string)) (exs : list MockServerExpectation)
    : list TranslationError :=
  match exs with
  | [] => []
  | ex :: exs' => expectation_errors node seen ex ++ expectations_errors node (set_add (ex_id ex) seen) exs'
  end.

Definition node_errors (node : FlowNode) : list TranslationError :=
  (if ostr_truthy (nd_label (node_data node)) then []
   else [field_error node "Node must have a label" "label"])
  ++ match nd_service (node_data node) with
     | None => [field_error node "Node must have service definition" "service"]
     | Some svc =>
         (if bool_decide (svc_type svc = Generic) && negb (ostr_truthy (svc_image svc))
          then [field_error node "Generic service must specify the docker image" "service.image"] else [])
         ++ (if bool_decide (is_Some (svc_mockServer svc)) && negb (bool_decide (svc_type svc = Mockserver))
             then [field_error node "MockServer expectations can only be used by MockServer services"
                     "service.mockServer"] else [])
         ++ expectations_errors node [] (default [] (svc_mockServer svc))
     end.

Definition service_values (svc : NodeService) : list string :=
  default [] (svc_command svc) ++ map env_value (default [] (svc_env svc))
  ++ map script_text (default [] (svc_initScripts svc)).

Definition resolve_token (aliases : jmap string string) (token : string) : string :=
  default "" (orelse (aliases !! token) (aliases !! toLowerCase token)).

Definition reference_error (node : FlowNode) (serviceName : string) (reachable : list string)
    (referenced : string) : option TranslationError :=
  if str_truthy referenced && negb (bool_decide (referenced = serviceName)) && negb (set_has referenced reachable)
  then Some (field_error node ("Service " +:+ quoted serviceName +:+ " references runtime values from "
              +:+ quoted referenced +:+ " without a readiness prerequisite.") "service")
  else None.

Definition node_reference_errors (graph : DependencyGraph) (aliases : jmap string string) (node : FlowNode)
    : res (list TranslationError) :=
  serviceName ← nodeName node;
  match nd_service (node_data node) with
  | None => Throw JsTypeError
  | Some svc =>
      reachable ← visit_deps graph (visit_fuel graph) serviceName [];
      Return (omap (reference_error node serviceName reachable)
                (map (resolve_token aliases) (concat (map (references 0) (service_values svc)))))
  end.

Definition validateRuntimeReferenceReadiness (nodes : list FlowNode) (graph : DependencyGraph)
    : res (list TranslationError) :=
  let aliases := buildServiceAliasMap nodes in
  errs ← res_map (node_reference_errors graph aliases) nodes;
  Return (concat errs).

Definition plain_error (message : string) : TranslationError := MkTranslationError None message None.

Definition connection_warnings (nodes : list FlowNode) (edges : list FlowEdge) : list string :=
  omap (fun node =>
    let hasOutgoing := existsb (fun e => bool_decide (edge_source e = node_id node)) edges in
    let hasIncoming := existsb (fun e => bool_decide (edge_target e = node_id node)) edges in
    if negb hasIncoming && negb hasOutgoing && (1 <? Z.of_nat (length nodes))
    then Some ("Node " +:+ quoted (shown (nd_label (node_data node))) +:+ " has no connections")
    else None) nodes.

Definition migrated_edges (edges : list FlowEdge) : list FlowEdge :=
  filter (fun e => negb (has_semantics e) || default false (data_prop ed_needsReview e) = true) edges.

Definition validateWorkflowGraph (nodes : list FlowNode) (edges : list FlowEdge) : res ValidationResult :=
  let errors1 := (match nodes with [] => [plain_error "Flow must contain at least one node."] | _ => [] end)
                 ++ concat (map node_errors nodes) in
  graph ← buildServiceDependencies nodes edges (buildNodeMap nodes);
  cycles ← detectCycles graph;
  let errors2 := match cycles with
                 | [] => []
                 | _ => [plain_error ("Circular dependencies detected: " +:+ join ", " (map (join "->") cycles))]
                 end in
  errors3 ← validateRuntimeReferenceReadiness nodes graph;
  let errors := errors1 ++ errors2 ++ errors3 in
  let migratedEdges := migrated_edges edges in
  let warnings := connection_warnings nodes edges
    ++ match migratedEdges with
       | [] => []
       | [_] => ["1 migrated edge needs review."]
       | _ => [pretty (length migratedEdges) +:+ " migrated edges need review."]
       end in
  Return (MkValidation (bool_decide (errors = [])) errors warnings).

(** ** Translation of services *)
Record RegistrySecret := MkSecret {
  rs_url : option string;
  rs_auth_type : string;
  rs_username : option string;
  rs_password : option string;
  rs_token : option string
}.
Definition RegistrySecrets : Type := jmap string RegistrySecret.

(** [l?.length ? f(l) : undefined]. *)
Definition non_empty {A B} (o : option (list A)) (f : list A -> B) : option B :=
  match o with Some ((_ :: _) as l) => Some (f l) | _ => None end.

Definition translate_expectation (ex : MockServerExpectation) : res RunnerExpectation :=
  match ex_response ex with
  | None => Throw JsTypeError
  | Some r => Return (MkRunnerExpectation (ex_id ex) (ex_request ex) (ms_statusCode r) (ms_headers r) (ms_body r))
  end.

Section Translation.
Context (localeCompare : string -> string -> Z) (JSON_parse : string -> option JsonValue).

Definition translate_service (aliases : jmap string string) (serviceDeps : DependencyGraph)
    (registrySecrets : option RegistrySecrets) (node : FlowNode) : res ServiceConfig :=
  serviceName ← nodeName node;
  match nd_service (node_data node) with
  | None => Throw JsTypeError
  | Some svc =>
      let norm value := normalizeServiceReferences value aliases in
      expectations ← (if decide (svc_type svc = Mockserver)
                      then Some <$> res_map translate_expectation (default [] (svc_mockServer svc))
                      else Return None);
      let registry := registrySecrets ≫= (fun s => s !! serviceName) in
      Return (MkServiceConfig serviceName (svc_type svc)
        (if ostr_truthy (svc_image svc) then svc_image svc else None)
        (non_empty (svc_command svc) (map norm))
        (non_empty (svc_env svc) (fun env =>
           jmap_of_pairs (map (fun v => (js_trim (env_key v), norm (env_value v)))
                            (filter (fun v => str_truthy (js_trim (env_key v)) = true) env))))
        (non_empty (svc_ports svc) (map (fun p => hostPort p +:+ ":" +:+ containerPort p)))
        (match serviceDeps !! serviceName with Some ((_ :: _) as deps) => Some deps | _ => None end)
        (match svc_wait svc with
         | Some w => if nw_enabled w then Some (MkWaitConfig (nw_type w) (nw_target w) (nw_timeout w)) else None
         | None => None
         end)
        (non_empty (svc_initScripts svc) (fun scripts =>
           map (fun s => norm (script_text s)) (js_sort (fun l r => script_order l - script_order r) scripts)))
        expectations
        (match registry with
         | Some s => if ostr_truthy (rs_url s)
                     then Some (MkRegistryConfig (default "" (rs_url s)) (Some (rs_auth_type s)) (rs_username s)
                                  (rs_password s) (rs_token s))
                     else None
         | None => None
         end))
  end.

Definition translateServices (nodes : list FlowNode) (serviceDeps : DependencyGraph)
    (registrySecrets : option RegistrySecrets) : res (list ServiceConfig) :=
  let serviceAliases := buildServiceAliasMap nodes in
  configs ← res_map (translate_service serviceAliases serviceDeps registrySecrets) nodes;
  Return (js_sort (fun left right => localeCompare (sc_name left) (sc_name right)) configs).

Record WorkflowServiceGraph := MkServiceGraph {
  nodeMap : NodeMap;
  serviceDeps : DependencyGraph;
  services : list ServiceConfig
}.

Definition translateWorkflowGraphToServiceGraph (nodes : list FlowNode) (edges : list FlowEdge)
    (registrySecrets : option RegistrySecrets) : res WorkflowServiceGraph :=
  let nodeMap := buildNodeMap nodes in
  serviceDeps ← buildServiceDependencies nodes edges nodeMap;
  services ← translateServices nodes serviceDeps registrySecrets;
  Return (MkServiceGraph nodeMap serviceDeps services).

(** ** Validation of a scenario: [id], [name], [tests] and [testOrder] of it. *)
Definition tests_field (test : ScenarioTestDefinition) (suffix : string) : string :=
  "tests." +:+ test_id test +:+ suffix.

Fixpoint duplicate_errors (seen : list string) (tests : list ScenarioTestDefinition) : list TranslationError :=
  match tests with
  | [] => []
  | test :: tests' =>
      (if set_has (test_id test) seen
       then [MkTranslationError None ("Duplicate test id in scenario: " +:+ test_id test) (Some (tests_field test ""))]
       else []) ++ duplicate_errors (set_add (test_id test) seen) tests'
  end.

Definition has_test (tests : list ScenarioTestDefinition) (id : string) : bool :=
  existsb (fun t => bool_decide (test_id t = id)) tests.

Definition test_errors (nodeNames : list string) (tests : list ScenarioTestDefinition)
    (test : ScenarioTestDefinition) : list TranslationError :=
  (if str_truthy (js_trim (test_name test)) then []
   else [MkTranslationError None "Scenario test must have a name" (Some (tests_field test ".name"))])
  ++ match test_targetServices test with
     | None | Some [] =>
         [MkTranslationError None ("Scenario test " +:+ quoted (test_name test) +:+ " must target at least one service")
            (Some (tests_field test ".targetServices"))]
     | Some targets =>
         omap (fun serviceName =>
           if set_has serviceName nodeNames then None
           else Some (MkTranslationError None ("Scenario test " +:+ quoted (test_name test)
                  +:+ " references unknown service " +:+ quoted serviceName)
                  (Some (tests_field test ".targetServices")))) targets
         ++ omap (fun depId =>
              if has_test tests depId then None
              else Some (MkTranslationError None ("Scenario test " +:+ quoted (test_name test)
                     +:+ " depends on missing test " +:+ quoted depId)
                     (Some (tests_field test ".dependsOnTestIds")))) (default [] (test_dependsOnTestIds test))
     end.

Definition validateScenario (graph : WorkflowServiceGraph) (name : string)
    (tests : list ScenarioTestDefinition) (testOrder : list string) : ValidationResult :=
  let nodeNames := set_of_list (map sc_name (services graph)) in
  let errors :=
    (if str_truthy (js_trim name) then [] else [MkTranslationError None "Scenario must have a name" (Some "name")])
    ++ (match tests with [] => [plain_error "Scenario must contain at least one test"] | _ => [] end)
    ++ duplicate_errors [] tests
    ++ concat (map (test_errors nodeNames tests) tests) in
  let ordered := filter (fun id => has_test tests id = true) testOrder in
  let warnings := if decide (length ordered = length tests) then []
    else ["Scenario test order does not include every test. Missing tests will run after ordered tests."] in
  MkValidation (bool_decide (errors = [])) errors warnings.

(** ** Translation of a scenario *)
Definition visit_targets (graph : DependencyGraph) (test : ScenarioTestDefinition) (required : list string)
    : res (list string) :=
  match test_targetServices test with
  | None => Throw JsTypeError
  | Some targets => each_state (visit graph (visit_fuel graph)) targets required
  end.

Definition expandScenarioServiceSubset (graph : WorkflowServiceGraph) (tests : list ScenarioTestDefinition)
    : res (list string) :=
  each_state (visit_targets (serviceDeps graph)) tests [].

Definition orderTests (tests : list ScenarioTestDefinition) (testOrder : list string) : list ScenarioTestDefinition :=
  let orderedIds := filter (fun id => has_test tests id = true) testOrder in
  omap (fun id => List.find (fun t => bool_decide (test_id t = id)) tests) orderedIds
  ++ filter (fun t => test_id t ∉ orderedIds) tests.

Definition translateExpectedHttpBody (expectedBody : option HttpExpectedBody) : JsonValue :=
  match expectedBody with
  | None => JNull
  | Some b =>
      if decide (eb_mode b = "contains") then
        match eb_value b with JStr s => JStr s | v => JStr (json_text v) end
      else
        match eb_value b with
        | JStr s => default (JObj []) (JSON_parse s)
        | v => v
        end
  end.

(** [test.config?.p || d] for a required string, [test.config?.p ?? d] for an
    optional value. *)
Definition str_of {C} (c : option C) (f : C -> string) (d : string) : JsonValue := JStr (ostr_or (f <$> c) d).
Definition ostr_of {C} (c : option C) (f : C -> option string) (d : string) : JsonValue := JStr (ostr_or (c ≫= f) d).
Definition json_of {C A} (c : option C) (f : C -> option A) (g : A -> JsonValue) (d : JsonValue) : JsonValue :=
  match c ≫= f with Some x => g x | None => d end.

Definition value_of {C} (c : option C) (f : C -> option JsonValue) (d : JsonValue) : JsonValue :=
  default d (c ≫= (fun c => json_present (f c))).

(** [config.service || targetService], absent when both are. *)
Definition service_of {C} (c : option C) (f : C -> string) (target : option string) : list (string * JsonValue) :=
  prop "service" JStr (match f <$> c with Some s => if str_truthy s then Some s else target | None => target end).

Definition buildTestConfig (test : ScenarioTestDefinition) (defaultService : option string)
    (requiredServices : list string) : list (string * JsonValue) :=
  let targetService := match defaultService with
                       | Some s => if set_has s requiredServices then Some s else head requiredServices
                       | None => head requiredServices
                       end in
  match test_type test with
  | TDatabase =>
      let c := test_databaseConfig test in
      prop "service" JStr targetService
      ++ [("driver", str_of c db_driver "postgres"); ("database", str_of c db_database "");
          ("user", str_of c db_user ""); ("password", str_of c db_password ""); ("query", str_of c db_query "");
          ("expected_result", value_of c db_expectedResult JNull)]
  | TDocument =>
      let c := test_documentConfig test in
      service_of c doc_service targetService
      ++ [("database", str_of c doc_database ""); ("collection", str_of c doc_collection "");
          ("operation", str_of c doc_operation "find_one"); ("document", value_of c doc_document JNull);
          ("filter", value_of c doc_filter JNull); ("update", value_of c doc_update JNull);
          ("expected_document", value_of c doc_expectedDocument JNull);
          ("expected_documents", value_of c doc_expectedDocuments JNull);
          ("expected_count", json_of c doc_expectedCount JNum JNull);
          ("expected_exists", json_of c doc_expectedExists JBool JNull)]
  | THttp =>
      let c := test_httpConfig test in
      prop "service" JStr targetService
      ++ [("method", str_of c http_method "GET"); ("path", str_of c http_path "/"); ("port", str_of c http_port "80");
          ("headers", json_of c http_headers json_record (JObj [])); ("body", ostr_of c http_body "");
          ("expected_status", json_of c http_expectedStatus JNum (JNum 200));
          ("expected_body", translateExpectedHttpBody (c ≫= http_expectedBody))]
  | TShell =>
      let c := test_shellConfig test in
      [("command", str_of c sh_command ""); ("env", json_of c sh_env json_record (JObj []));
       ("expected_output", ostr_of c sh_expectedOutput "");
       ("expected_exit_code", json_of c sh_expectedExitCode JNum (JNum 0))]
  | TCache =>
      let c := test_cacheConfig test in
      service_of c ca_service targetService
      ++ [("cache_type", str_of c ca_cacheType "redis"); ("operation", str_of c ca_operation "ping");
          ("key", ostr_of c ca_key ""); ("value", value_of c ca_value (JStr ""));
          ("expected_value", value_of c ca_expectedValue (JStr ""));
          ("expected_exists", json_of c ca_expectedExists JBool (JBool false));
          ("ttl", json_of c ca_ttl JNum (JNum 0)); ("db", json_of c ca_db JNum (JNum 0));
          ("password", ostr_of c ca_password "")]
  | TQueue =>
      let c := test_queueConfig test in
      service_of c qu_service targetService
      ++ [("broker_type", str_of c qu_brokerType "kafka"); ("operation", str_of c qu_operation "produce");
          ("topic", ostr_of c qu_topic ""); ("message", value_of c qu_message (JStr ""));
          ("key", ostr_of c qu_key ""); ("partition", json_of c qu_partition JNum (JNum 0));
          ("timeout", json_of c qu_timeout JNum (JNum 10));
          ("from_beginning", json_of c qu_fromBeginning JBool (JBool false));
          ("expected_count", json_of c qu_expectedCount JNum (JNum 1));
          ("expected_message", value_of c qu_expectedMessage (JStr ""));
          ("expected_exists", json_of c qu_expectedExists JBool (JBool true))]
  | TDelay => [("duration_ms", JNum (default 1000 (test_delayConfig test)))]
  end.

(** The callback of [tests.map]: [previous] is the test before this one. *)
Definition translate_test (requiredServices : list string) (previous : option ScenarioTestDefinition)
    (test : ScenarioTestDefinition) : res TestConfig :=
  match test_targetServices test with
  | None => Throw JsTypeError
  | Some targets =>
      let dependsOn := set_of_list (default [] (test_dependsOnTestIds test)) in
      let dependsOn := match previous with Some p => set_add (test_name p) dependsOn | None => dependsOn end in
      Return (MkTestConfig (test_name test) (test_type test) dependsOn (test_retryPolicy test)
                (buildTestConfig test (head targets) requiredServices))
  end.

Fixpoint translate_tests (requiredServices : list string) (previous : option ScenarioTestDefinition)
    (tests : list ScenarioTestDefinition) : res (list TestConfig) :=
  match tests with
  | [] => Return []
  | test :: tests' =>
      c ← translate_test requiredServices previous test;
      cs ← translate_tests requiredServices (Some test) tests';
      Return (c :: cs)
  end.

Definition translateScenarioTests (tests : list ScenarioTestDefinition) (testOrder : list string)
    (requiredServices : list string) : res (list TestConfig) :=
  translate_tests requiredServices None (orderTests tests testOrder).

Definition translateScenarioToExecutionBundle (graph : WorkflowServiceGraph)
    (tests : list ScenarioTestDefinition) (testOrder : list string) : res TranslationResult :=
  requiredServices ← expandScenarioServiceSubset graph tests;
  let services := filter (fun s => sc_name s ∈ requiredServices) (services graph) in
  tests' ← translateScenarioTests tests testOrder requiredServices;
  Return (MkTranslation services tests').

(** [translateReactFlowToCotsConfig] of [react-flow-translator.ts]: the legacy
    tests kept in the nodes. *)
Definition node_tests (node : FlowNode) : res (list ScenarioTestDefinition) :=
  res_map (fun test =>
    targets ← match test_targetServices test with
              | Some ((_ :: _) as ts) => Return ts
              | _ => name ← nodeName node; Return [name]
              end;
    Return (MkTest (test_id test) (test_name test) (test_type test) (Some targets) (test_dependsOnTestIds test)
              (test_retryPolicy test) (test_databaseConfig test) (test_documentConfig test) (test_httpConfig test)
              (test_shellConfig test) (test_cacheConfig test) (test_queueConfig test) (test_delayConfig test)))
    (default [] (nd_tests (node_data node))).

Definition translateReactFlowToCotsConfig (nodes : list FlowNode) (edges : list FlowEdge)
    (customTestOrder : option (jmap string (list string))) (registrySecrets : option RegistrySecrets)
    : res TranslationResult :=
  testss ← res_map node_tests nodes;
  let tests := concat testss in
  let testOrder := match customTestOrder with Some m => concat (jvalues m) | None => map test_id tests end in
  graph ← translateWorkflowGraphToServiceGraph nodes edges registrySecrets;
  let validation := validateScenario graph "Legacy Node Tests" tests testOrder in
  if vr_valid validation then translateScenarioToExecutionBundle graph tests testOrder
  else Throw (JsError (join ", " (map te_message (vr_errors validation)))).
End Translation.
