(* ===== verification/TranslatorFacts.v ===== *)
(** * What the translation guarantees

    The meaning of the dependency graph, of a valid workflow and of the
    execution bundle built from a scenario. *)

From S2P Require Import Prelude FlowTypes JsLib EdgeModel ServiceNames Graph ScenarioTranslator.

(** ** The dependency graph *)

(** A connection that makes [a] wait for [b]. *)
Definition requires (m : NodeMap) (e : FlowEdge) (a b : string) : Prop :=
  exists s t, m !! edge_source e = Some s /\ m !! edge_target e = Some t
    /\ ((data_prop ed_readiness (normalizeEdge e false) = Some "source_requires_target"
         /\ nodeName s = Return a /\ nodeName t = Return b)
        \/ (data_prop ed_readiness (normalizeEdge e false) = Some "target_requires_source"
            /\ nodeName t = Return a /\ nodeName s = Return b)).

Lemma elem_of_uniqueAppend x v (g : DependencyGraph) k :
  x ∈ uniqueAppend (g !! k) v <-> x ∈ neighbors g k \/ x = v.
Proof.
  unfold uniqueAppend, neighbors. destruct (g !! k) as [l|]; simpl.
  - case_decide; [|rewrite elem_of_app, list_elem_of_singleton; tauto]. split; [auto|]. by intros [?| ->].
  - rewrite list_elem_of_singleton, elem_of_nil. tauto.
Qed.

Lemma edge_insert (g : DependencyGraph) k v a b :
  edge (<[k := uniqueAppend (g !! k) v]> g) a b <-> edge g a b \/ (a = k /\ b = v).
Proof.
  unfold edge. destruct (decide (k = a)) as [->|Hk].
  - unfold neighbors at 1. rewrite (jlookup_insert_eq a _ g). simpl. rewrite elem_of_uniqueAppend. naive_solver.
  - unfold neighbors at 1. rewrite (jlookup_insert_ne k a _ g) by done. fold (neighbors g a). naive_solver.
Qed.

Lemma edge_entry_spec m e g g' a b : edge_entry m e g = Return g' ->
  edge g' a b <-> edge g a b \/ requires m e a b.
Proof.
  unfold edge_entry, requires. simpl.
  destruct (m !! edge_source e) as [s|]; [|intros [= <-]; naive_solver].
  destruct (m !! edge_target e) as [t|]; [|intros [= <-]; naive_solver].
  destruct (nodeName s) as [sn|] eqn:Es; simpl; [|done]. destruct (nodeName t) as [tn|] eqn:Et; simpl; [|done].
  intros [= <-]. set (r := data_prop ed_readiness (normalizeEdge e false)).
  destruct (decide (r = Some "source_requires_target")) as [E1|E1];
    [|destruct (decide (r = Some "target_requires_source")) as [E2|E2]]; rewrite ?edge_insert.
  - split; [intros [?|[-> ->]]; [by left|right; exists s, t; auto 6]|].
    intros [?|(s' & t' & [= <-] & [= <-] & [(_ & H1 & H2)|(H & _)])]; [by left| |congruence].
    right. rewrite Es in H1. rewrite Et in H2. by simplify_eq.
  - split; [intros [?|[-> ->]]; [by left|right; exists s, t; auto 6]|].
    intros [?|(s' & t' & [= <-] & [= <-] & [(H & _)|(_ & H1 & H2)])]; [by left|congruence|].
    right. rewrite Et in H1. rewrite Es in H2. by simplify_eq.
  - split; [by left|]. intros [?|(s' & t' & _ & _ & [(H & _)|(H & _)])]; congruence.
Qed.

Lemma each_edge_spec m edges g g' a b : each_state (edge_entry m) edges g = Return g' ->
  edge g' a b <-> edge g a b \/ exists e, e ∈ edges /\ requires m e a b.
Proof.
  revert g; induction edges as [|e edges IH]; intros g; simpl.
  - intros [= <-]. split; [auto|]. intros [?|(e & H%elem_of_nil & _)]; done.
  - destruct (edge_entry m e g) as [g1|] eqn:E; [|done]. intros H%IH. rewrite H, (edge_entry_spec _ _ _ _ _ _ E).
    setoid_rewrite elem_of_cons. naive_solver.
Qed.

Lemma node_pass_spec nodes g g' : each_state node_entry nodes g = Return g' ->
  (forall a b, ~ edge g a b) -> forall a b, ~ edge g' a b.
Proof.
  revert g; induction nodes as [|n nodes IH]; intros g; simpl; [by intros [= <-]|].
  unfold node_entry at 1. destruct (nodeName n) as [name|]; simpl; [|done]. intros H Hg. apply (IH _ H).
  intros a b. unfold edge, neighbors. rewrite (jlookup_insert name a [] g). case_decide; simpl.
  - apply not_elem_of_nil.
  - apply Hg.
Qed.

(** The dependency graph has exactly the declared prerequisites: a service depends on
    another if and only if some connection between existing nodes says, after
    normalisation, that the one requires the other. *)
Theorem dependency_edges nodes edges m g a b : buildServiceDependencies nodes edges m = Return g ->
  edge g a b <-> exists e, e ∈ edges /\ requires m e a b.
Proof.
  unfold buildServiceDependencies. destruct (each_state node_entry nodes ∅) as [g0|] eqn:E0; simpl; [|done].
  intros H. rewrite (each_edge_spec _ _ _ _ _ _ H).
  assert (H0 : ~ edge g0 a b) by (apply (node_pass_spec nodes ∅ g0 E0); intros x y Hx; by apply elem_of_nil in Hx).
  tauto.
Qed.

(** ** Valid workflows *)

(** Every runtime reference in a node's values is to the node itself or to a
    service it waits for, directly or not. *)
Definition references_covered (nodes : list FlowNode) (g : DependencyGraph) : Prop :=
  forall n name svc value token, n ∈ nodes -> nodeName n = Return name -> nd_service (node_data n) = Some svc ->
    value ∈ service_values svc -> token ∈ references 0 value ->
    let referenced := resolve_token (buildServiceAliasMap nodes) token in
    referenced = "" \/ referenced = name \/ reaches1 g name referenced.

Lemma visit_deps_reachable g name : exists r, visit_deps g (visit_fuel g) name [] = Return r
  /\ forall x, x ∈ r <-> reaches1 g name x.
Proof.
  destruct (visit_deps_spec g (visit_fuel g) name []) as (r & E & Hx & Hn); [unfold visit_fuel; lia| |].
  { pose proof (remaining_bound g []). unfold visit_fuel. lia. }
  exists r. split; [done|]. intros x. rewrite (extends_reachable g _ r Hx) by (intros; by apply Hn).
  unfold reaches1, edge. done.
Qed.

Lemma reference_error_none n name reachable referenced :
  reference_error n name reachable referenced = None <->
  referenced = "" \/ referenced = name \/ referenced ∈ reachable.
Proof.
  unfold reference_error. destruct (str_truthy referenced) eqn:Et; simpl.
  - apply str_truthy_spec in Et. case_bool_decide as Ed; simpl; [naive_solver|].
    destruct (set_has referenced reachable) eqn:Eh; simpl.
    + apply set_has_spec in Eh. tauto.
    + apply set_has_false in Eh. split; [done|]. intros [?|[?|?]]; tauto.
  - assert (referenced = "") as ->; [|tauto]. unfold str_truthy in Et. by case_bool_decide.
Qed.

Lemma omap_nil_iff {A B} (f : A -> option B) (l : list A) : omap f l = [] <-> forall x, x ∈ l -> f x = None.
Proof.
  split; [|apply omap_none]. intros H x Hx. destruct (f x) as [y|] eqn:E; [|done].
  assert (Hy : y ∈ omap f l) by (apply list_elem_of_omap; eauto). rewrite H in Hy. by apply elem_of_nil in Hy.
Qed.

(** The reference errors of one node with a label and a service. *)
Lemma node_references g aliases n name svc : nodeName n = Return name -> nd_service (node_data n) = Some svc ->
  exists errs, node_reference_errors g aliases n = Return errs
    /\ (errs = [] <-> forall value token, value ∈ service_values svc -> token ∈ references 0 value ->
          let r := resolve_token aliases token in r = "" \/ r = name \/ reaches1 g name r).
Proof.
  intros Hn Hs. unfold node_reference_errors. rewrite Hn. simpl. rewrite Hs.
  destruct (visit_deps_reachable g name) as (r & -> & Hr). simpl. eexists. split; [reflexivity|].
  rewrite omap_nil_iff. setoid_rewrite reference_error_none. setoid_rewrite Hr. cbn zeta. split.
  - intros H value token Hv Ht. apply H. apply list_elem_of_fmap. exists token. split; [done|].
    apply list_elem_of_In, in_concat. exists (references 0 value). split; [|by apply list_elem_of_In].
    by apply in_map, list_elem_of_In.
  - intros H x Hx. apply list_elem_of_fmap in Hx as (token & -> & Hx).
    apply list_elem_of_In, in_concat in Hx as (l & Hl & Ht). apply in_map_iff in Hl as (value & <- & Hv).
    eapply H; by apply list_elem_of_In.
Qed.

(** A node the later stages can read. *)
Definition complete (n : FlowNode) : Prop :=
  is_Some (nd_label (node_data n)) /\ is_Some (nd_service (node_data n)).

Lemma complete_name n : complete n ->
  exists name svc, nodeName n = Return name /\ nd_service (node_data n) = Some svc.
Proof. intros [[l Hl] [svc Hs]]. exists (sanitizeName l), svc. unfold nodeName. by rewrite Hl. Qed.

Lemma all_references nodes g : Forall complete nodes ->
  exists errs, validateRuntimeReferenceReadiness nodes g = Return errs
    /\ (errs = [] <-> references_covered nodes g).
Proof.
  intros Hc. unfold validateRuntimeReferenceReadiness, references_covered.
  set (aliases := buildServiceAliasMap nodes). clearbody aliases.
  assert (H : exists errs, res_map (node_reference_errors g aliases) nodes = Return errs
    /\ (concat errs = [] <-> forall n name svc value token, n ∈ nodes -> nodeName n = Return name ->
          nd_service (node_data n) = Some svc -> value ∈ service_values svc -> token ∈ references 0 value ->
          let r := resolve_token aliases token in r = "" \/ r = name \/ reaches1 g name r)).
  { induction Hc as [|n nodes Hn Hc IH]; simpl.
    - exists []. split; [done|]. split; [|done]. by intros _ n name svc value token Hx%elem_of_nil.
    - destruct (complete_name n Hn) as (name & svc & En & Es).
      destruct (node_references g aliases n name svc En Es) as (e1 & -> & H1). destruct IH as (es & -> & H2).
      eexists. split; [reflexivity|]. simpl. rewrite app_nil. split.
      + intros [A B] n' name' svc' value token [->|Hin]%elem_of_cons En' Es'; [|by eapply (proj1 H2 B)].
        rewrite En in En'. rewrite Es in Es'. injection En' as <-. injection Es' as <-. exact (proj1 H1 A value token).
      + intros A. split.
        * apply H1. intros value token. by apply (A n name svc value token (list_elem_of_here _ _)).
        * apply H2. intros n' name' svc' value token Hin. by apply A, list_elem_of_further. }
  destruct H as (errs & -> & H). simpl. by exists (concat errs).
Qed.

Lemma each_entry_returns {A} (f : A -> DependencyGraph -> res DependencyGraph) l g :
  (forall x g, x ∈ l -> exists g', f x g = Return g') -> exists g', each_state f l g = Return g'.
Proof.
  revert g; induction l as [|x l IH]; intros g Hf; simpl; [by eexists|].
  destruct (Hf x g (list_elem_of_here _ _)) as [g1 ->]. apply IH. intros; by apply Hf, list_elem_of_further.
Qed.

Lemma node_map_complete nodes k n : Forall complete nodes -> buildNodeMap nodes !! k = Some n -> complete n.
Proof.
  intros Hc. unfold buildNodeMap.
  assert (H : forall (m : NodeMap), (forall k n, m !! k = Some n -> complete n) ->
    forall k n, fold_left (fun (m : NodeMap) n => <[node_id n := n]> m) nodes m !! k = Some n -> complete n).
  { induction Hc as [|x nodes Hx Hc IH]; intros m Hm; simpl; [done|]. apply IH. intros k' n'.
    rewrite (jlookup_insert (node_id x) k' x m). case_decide; [by intros [= <-]|apply Hm]. }
  apply H. done.
Qed.

Lemma build_returns nodes edges : Forall complete nodes ->
  exists g, buildServiceDependencies nodes edges (buildNodeMap nodes) = Return g.
Proof.
  intros Hc. unfold buildServiceDependencies.
  destruct (each_entry_returns node_entry nodes ∅) as [g0 ->].
  { intros n g Hn. destruct (complete_name n) as (name & svc & E & _); [by eapply Forall_forall in Hc|].
    unfold node_entry. rewrite E. by eexists. }
  simpl. apply each_entry_returns. intros e g _. unfold edge_entry. simpl.
  destruct (buildNodeMap nodes !! edge_source e) as [s|] eqn:Es; [|by eexists].
  destruct (buildNodeMap nodes !! edge_target e) as [t|] eqn:Et; [|by eexists].
  destruct (complete_name s (node_map_complete _ _ _ Hc Es)) as (sn & ? & -> & _).
  destruct (complete_name t (node_map_complete _ _ _ Hc Et)) as (tn & ? & -> & _). by eexists.
Qed.

(** What [validateWorkflowGraph] accepts. *)
Definition workflow_ok (nodes : list FlowNode) (edges : list FlowEdge) : Prop :=
  nodes <> [] /\ (forall n, n ∈ nodes -> node_errors n = [])
  /\ exists g, buildServiceDependencies nodes edges (buildNodeMap nodes) = Return g
       /\ acyclic g /\ references_covered nodes g.

Lemma workflow_valid_iff_lemma nodes edges : Forall complete nodes ->
  exists r, validateWorkflowGraph nodes edges = Return r
    /\ vr_valid r = bool_decide (vr_errors r = [])
    /\ (vr_errors r = [] <-> workflow_ok nodes edges).
Proof.
  intros Hc. unfold validateWorkflowGraph, workflow_ok. destruct (build_returns nodes edges Hc) as [g Eg].
  rewrite Eg. simpl. destruct (detect_spec g) as (cs & -> & Hcs & Hac). simpl.
  destruct (all_references nodes g Hc) as (errs & -> & Her). simpl.
  eexists. split; [reflexivity|]. simpl. split; [done|]. rewrite !app_nil, Her.
  assert (Hn : concat (map node_errors nodes) = [] <-> forall n, n ∈ nodes -> node_errors n = []).
  { clear. induction nodes as [|n nodes IH]; simpl; [split; [by intros _ n Hn%elem_of_nil|done]|].
    rewrite app_nil, IH. setoid_rewrite elem_of_cons. naive_solver. }
  assert (Hcyc : match cs with [] => [] | _ => [plain_error ("Circular dependencies detected: "
      +:+ join ", " (map (join "->") cs))] end = [] <-> acyclic g).
  { destruct cs as [|c cs]; [by split; intros; auto|]. split; [done|]. intros Ha.
    by destruct (is_cycle_cyclic g c (Hcs c (list_elem_of_here _ _)) Ha). }
  rewrite Hn, Hcyc. split.
  - intros [[H1 H2] [H3 H4]]. split; [by destruct nodes|]. split; [done|]. by exists g.
  - intros (H1 & H2 & g' & [= <-] & H3 & H4). split; [split; [by destruct nodes|done]|done].
Qed.


Lemma references_throw nodes g : (forall n, n ∈ nodes -> is_Some (nd_label (node_data n))) ->
  (exists n, n ∈ nodes /\ nd_service (node_data n) = None) ->
  validateRuntimeReferenceReadiness nodes g = Throw JsTypeError.
Proof.
  intros Hl Hn. unfold validateRuntimeReferenceReadiness. set (aliases := buildServiceAliasMap nodes). clearbody aliases.
  assert (H : res_map (node_reference_errors g aliases) nodes = Throw JsTypeError); [|by rewrite H].
  induction nodes as [|x nodes IH]; [by destruct Hn as (n & H%elem_of_nil & _)|]. simpl.
  destruct (Hl x (list_elem_of_here _ _)) as [l El].
  destruct (nd_service (node_data x)) as [svc|] eqn:Es.
  - destruct (node_references g aliases x (sanitizeName l) svc) as (errs & -> & _); [|done|].
    { unfold nodeName. by rewrite El. }
    rewrite IH; [done| |].
    + intros; by apply Hl, list_elem_of_further.
    + destruct Hn as (n & [->|Hin]%elem_of_cons & Hnone); [congruence|eauto].
  - unfold node_reference_errors. unfold nodeName. rewrite El. simpl. by rewrite Es.
Qed.

(** A node without a service definition is not reported: its error is prepared, but
    validation then reads the missing service and throws instead of returning
    a result. *)
Theorem missing_service_throws nodes edges n :
  (forall x, x ∈ nodes -> is_Some (nd_label (node_data x))) -> n ∈ nodes -> nd_service (node_data n) = None ->
  field_error n "Node must have service definition" "service" ∈ node_errors n
  /\ exists e, validateWorkflowGraph nodes edges = Throw e.
Proof.
  intros Hl Hn Hs. split.
  { unfold node_errors. rewrite Hs. apply elem_of_app. right. apply list_elem_of_here. }
  unfold validateWorkflowGraph. destruct (buildServiceDependencies _ _ _) as [g|e]; simpl; [|by eexists].
  destruct (detect_spec g) as (cs & -> & _). simpl. rewrite references_throw; [by eexists|done|eauto].
Qed.

(** ** Execution bundles *)

(** A test names the service as a target. *)
Definition targets (t : ScenarioTestDefinition) (name : string) : Prop :=
  exists l, test_targetServices t = Some l /\ name ∈ l.

Lemma visit_targets_spec g t s : is_Some (test_targetServices t) ->
  exists s', visit_targets g t s = Return s' /\ extends g (targets t) s s' /\ forall x, targets t x -> x ∈ s'.
Proof.
  intros [l Hl]. unfold visit_targets, targets. rewrite Hl.
  destruct (loop_extends g (visit g (visit_fuel g)) l s) as (s' & E & Hx & Hs).
  { intros x s1 _ _. apply visit_spec; [unfold visit_fuel; lia|]. intros _.
    pose proof (remaining_bound g s1). unfold visit_fuel. lia. }
  exists s'. split; [done|]. split.
  - destruct Hx as [A B C]. split; [done|done|]. intros x Hx. destruct (C x Hx) as [?|(t' & Ht & Hr)]; [by left|].
    right. exists t'. split; [by exists l|done].
  - intros x (l' & [= <-] & Hin). by apply Hs.
Qed.

Lemma expand_spec (graph : WorkflowServiceGraph) tests :
  (forall t, t ∈ tests -> is_Some (test_targetServices t)) ->
  exists required, expandScenarioServiceSubset graph tests = Return required
    /\ forall x, x ∈ required <-> exists t name, t ∈ tests /\ targets t name /\ reaches (serviceDeps graph) name x.
Proof.
  intros Ht. unfold expandScenarioServiceSubset. set (g := serviceDeps graph).
  assert (H : exists s', each_state (visit_targets g) tests [] = Return s'
    /\ extends g (fun n => exists t, t ∈ tests /\ targets t n) [] s'
    /\ forall n, (exists t, t ∈ tests /\ targets t n) -> n ∈ s').
  { destruct (each_state_inv (visit_targets g)
      (fun finished s => extends g (fun n => exists t, t ∈ finished /\ targets t n) [] s
         /\ forall n, (exists t, t ∈ finished /\ targets t n) -> n ∈ s) tests []) as (s' & E & Hx & Hs).
    - split; [apply extends_refl|]. by intros n (t & Hin%elem_of_nil & _).
    - intros finished t rest s El [Hx Hs].
      destruct (visit_targets_spec g t s) as (s2 & -> & Hx2 & Hs2).
      { apply Ht. rewrite El. apply elem_of_app. right. apply list_elem_of_here. }
      exists s2. split; [done|]. split.
      + eapply extends_trans; [| |exact Hx|exact Hx2]; simpl.
        * intros n (t' & Hin & Hn). exists t'. rewrite elem_of_app. auto.
        * intros n Hn. exists t. rewrite elem_of_app, list_elem_of_singleton. auto.
      + intros n (t' & [Hin| ->%list_elem_of_singleton]%elem_of_app & Hn); [|by apply Hs2].
        apply Hx2, Hs. eauto.
    - by exists s'. }
  destruct H as (s' & E & Hx & Hs). exists s'. split; [done|]. intros x.
  rewrite (extends_reachable g _ s' Hx Hs). naive_solver.
Qed.

Lemma translate_tests_spec parse required previous tests :
  (forall t, t ∈ tests -> is_Some (test_targetServices t)) ->
  exists cs, translate_tests parse required previous tests = Return cs
    /\ map tc_name cs = map test_name tests /\ map tc_type cs = map test_type tests
    /\ map tc_depends_on cs =
       zip_with (fun p t => let deps := set_of_list (default [] (test_dependsOnTestIds t)) in
                   match p with Some p => set_add (test_name p) deps | None => deps end)
         (previous :: map Some tests) tests.
Proof.
  revert previous; induction tests as [|t tests IH]; intros previous Ht; simpl; [by exists []|].
  destruct (Ht t (list_elem_of_here _ _)) as [l Hl]. unfold translate_test. rewrite Hl. simpl.
  destruct (IH (Some t)) as (cs & -> & H1 & H2 & H3); [intros; by apply Ht, list_elem_of_further|].
  eexists. split; [reflexivity|]. simpl. by rewrite H1, H2, H3.
Qed.

(** Two lists of tests with the same ids, in the order asked for. *)
Lemma find_test_id tests id : has_test tests id = true ->
  exists t, List.find (fun t => bool_decide (test_id t = id)) tests = Some t /\ test_id t = id /\ t ∈ tests.
Proof.
  unfold has_test. intros H. apply existsb_exists in H as (t & Hin & Ht).
  destruct (List.find (fun t => bool_decide (test_id t = id)) tests) as [t'|] eqn:E.
  - apply find_some in E as [Hin' E]. bools. exists t'. split; [done|]. split; [done|]. by apply list_elem_of_In.
  - exfalso. pose proof (find_none _ _ E t Hin). simpl in *. congruence.
Qed.

Lemma has_test_spec tests id : has_test tests id = true <-> id ∈ map test_id tests.
Proof.
  unfold has_test. rewrite existsb_exists, list_elem_of_In, in_map_iff.
  split; intros (t & H1 & H2); exists t; bools; auto using bool_decide_eq_true_2.
Qed.

Lemma order_tests_elem tests order t : t ∈ orderTests tests order -> t ∈ tests.
Proof.
  unfold orderTests. rewrite elem_of_app. intros [H|H].
  - apply list_elem_of_omap in H as (id & _ & Hf). apply find_some in Hf as [Hf _]. by apply list_elem_of_In.
  - by apply list_elem_of_filter in H as [_ H].
Qed.

Lemma order_tests_ids tests order :
  map test_id (orderTests tests order) =
  filter (fun id => id ∈ map test_id tests) order ++ filter (fun id => id ∉ order) (map test_id tests).
Proof.
  unfold orderTests. rewrite map_app.
  rewrite (list_filter_iff (fun id => has_test tests id = true) (fun id => id ∈ map test_id tests) order)
    by (intros; apply has_test_spec).
  f_equal.
  - assert (H : forall ids, (forall id, id ∈ ids -> has_test tests id = true) ->
      map test_id (omap (fun id => List.find (fun t => bool_decide (test_id t = id)) tests) ids) = ids).
    { induction ids as [|id ids IH]; intros Hh; [done|].
      destruct (find_test_id tests id (Hh id (list_elem_of_here _ _))) as (t & Ef & Et & _).
      simpl. rewrite Ef. simpl. rewrite Et. f_equal. apply IH. intros; by apply Hh, list_elem_of_further. }
    apply H. intros id Hid. apply list_elem_of_filter in Hid as [Hid _]. by apply has_test_spec.
  - assert (H : forall l, (forall t, t ∈ l -> test_id t ∈ map test_id tests) ->
      map test_id (filter (fun t => test_id t ∉ filter (fun id => id ∈ map test_id tests) order) l)
      = filter (fun id => id ∉ order) (map test_id l)).
    { induction l as [|t l IH]; intros Hl; [done|]. simpl. rewrite !filter_cons.
      pose proof (Hl t (list_elem_of_here _ _)) as Ht.
      assert (Hiff : test_id t ∉ filter (fun id => id ∈ map test_id tests) order <-> test_id t ∉ order)
        by (rewrite list_elem_of_filter; tauto).
      assert (IH' := IH (fun t Hin => Hl t (list_elem_of_further _ _ _ Hin))).
      repeat case_decide; simpl; rewrite ?IH'; tauto. }
    apply H. intros t Ht. apply list_elem_of_In, in_map. by apply list_elem_of_In.
Qed.

(** C12: a scenario's bundle has the services it needs and no others: translation returns
    whenever every test has targets, and a service of the workflow is in the
    bundle exactly when some test targets it or a service that depends on it,
    so the bundle is closed under dependencies. *)
Theorem bundle_services_closed parse graph tests order :
  (forall t, t ∈ tests -> is_Some (test_targetServices t)) ->
  exists b, translateScenarioToExecutionBundle parse graph tests order = Return b
    /\ (forall s, s ∈ tr_services b <-> s ∈ services graph /\
          exists t name, t ∈ tests /\ targets t name /\ reaches (serviceDeps graph) name (sc_name s))
    /\ (forall s s', s ∈ tr_services b -> s' ∈ services graph -> edge (serviceDeps graph) (sc_name s) (sc_name s') ->
          s' ∈ tr_services b).
Proof.
  intros Ht. unfold translateScenarioToExecutionBundle, translateScenarioTests.
  destruct (expand_spec graph tests Ht) as (required & -> & Hr). simpl.
  destruct (translate_tests_spec parse required None (orderTests tests order)) as (cs & -> & _).
  { intros t Hin. by eapply Ht, order_tests_elem. }
  simpl. eexists. split; [reflexivity|]. simpl. split.
  - intros s. rewrite list_elem_of_filter, Hr. tauto.
  - intros s s'. rewrite !list_elem_of_filter, !Hr. intros [(t & n & H1 & H2 & H3) _] Hs He. split; [|done].
    exists t, n. split; [done|]. split; [done|]. eapply reaches_trans; [exact H3|by apply reaches_edge].
Qed.

(** C30: the bundle runs the scenario's tests one after the other in the requested order:
    the tests in the order list first, the rest as defined; with distinct ids
    every test runs exactly once; and each depends on the one before it, next
    to its own declared dependencies. *)
Theorem bundle_tests_in_order parse graph tests order :
  (forall t, t ∈ tests -> is_Some (test_targetServices t)) ->
  exists b, translateScenarioToExecutionBundle parse graph tests order = Return b
    /\ map tc_name (tr_tests b) = map test_name (orderTests tests order)
    /\ map test_id (orderTests tests order)
       = filter (fun id => id ∈ map test_id tests) order ++ filter (fun id => id ∉ order) (map test_id tests)
    /\ (NoDup order -> NoDup (map test_id tests) -> map test_id (orderTests tests order) ≡ₚ map test_id tests)
    /\ map tc_depends_on (tr_tests b) =
       zip_with (fun p t => let deps := set_of_list (default [] (test_dependsOnTestIds t)) in
                   match p with Some p => set_add (test_name p) deps | None => deps end)
         (None :: map Some (orderTests tests order)) (orderTests tests order).
Proof.
  intros Ht. unfold translateScenarioToExecutionBundle, translateScenarioTests.
  destruct (expand_spec graph tests Ht) as (required & -> & _). simpl.
  destruct (translate_tests_spec parse required None (orderTests tests order)) as (cs & -> & H1 & _ & H3).
  { intros t Hin. by eapply Ht, order_tests_elem. }
  simpl. eexists. split; [reflexivity|]. simpl. split; [done|]. split; [apply order_tests_ids|].
  split; [|done]. intros Ho Hn. rewrite order_tests_ids. by apply completed_perm.
Qed.

(** ** Witnesses and consequences *)
Definition service_of_type (ty : ServiceType) (image : option string) : NodeService :=
  MkNodeService ty image None None None None None None None.
Definition demo_node (id label : string) (ty : ServiceType) : FlowNode :=
  MkNode id (0, 0)%Z (JMap []) (MkNodeData (Some label) None (Some (service_of_type ty (Some "image"))) None).
Definition demo_edge (id source target relation readiness : string) : FlowEdge :=
  MkEdge id source target None
    (Some (MkEdgeData None None None (Some relation) (Some readiness) None None None)).
Definition demo_nodes : list FlowNode := [demo_node "n1" "User API" Generic; demo_node "n2" "DB" Postgres].
Definition demo_edges : list FlowEdge := [demo_edge "e1" "n1" "n2" "writes" "source_requires_target"].
Definition demo_graph : WorkflowServiceGraph :=
  match translateWorkflowGraphToServiceGraph (fun _ _ => 0%Z) demo_nodes demo_edges None with
  | Return g => g
  | Throw _ => MkServiceGraph ∅ ∅ []
  end.
Definition demo_test (id name : string) (deps : option (list string)) : ScenarioTestDefinition :=
  MkTest id name TDelay (Some ["user_api"]) deps None None None None None None None None.
Definition demo_tests : list ScenarioTestDefinition :=
  [demo_test "t1" "Create" None; demo_test "t2" "Read" (Some ["t1"])].

Lemma demo_complete : Forall complete demo_nodes.
Proof. repeat constructor; by eexists. Qed.

Lemma dependency_edges_witness :
  edge (JMap [("user_api", ["db"]); ("db", [])]) "user_api" "db"
  <-> exists e, e ∈ demo_edges /\ requires (buildNodeMap demo_nodes) e "user_api" "db".
Proof. apply (dependency_edges demo_nodes demo_edges). vm_compute. reflexivity. Defined.


Lemma missing_service_throws_witness : exists e,
  validateWorkflowGraph [MkNode "n1" (0, 0)%Z (JMap []) (MkNodeData (Some "API") None None None)] [] = Throw e.
Proof.
  apply (missing_service_throws _ [] (MkNode "n1" (0, 0)%Z (JMap []) (MkNodeData (Some "API") None None None)));
    [intros x ->%list_elem_of_singleton; by eexists | apply list_elem_of_here | reflexivity].
Defined.

Lemma demo_targets t : t ∈ demo_tests -> is_Some (test_targetServices t).
Proof. unfold demo_tests. rewrite !elem_of_cons, elem_of_nil. intros [->|[->|[]]]; by eexists. Qed.

Lemma bundle_services_closed_witness : exists b,
  translateScenarioToExecutionBundle (fun _ => None) demo_graph demo_tests [] = Return b
  /\ map sc_name (tr_services b) = ["user_api"; "db"].
Proof.
  destruct (bundle_services_closed (fun _ => None) demo_graph demo_tests [] demo_targets) as (b & E & _).
  exists b. split; [exact E|]. vm_compute in E. injection E as <-. reflexivity.
Defined.

Lemma bundle_tests_in_order_witness : exists b,
  translateScenarioToExecutionBundle (fun _ => None) demo_graph demo_tests ["t2"] = Return b
  /\ map tc_name (tr_tests b) = ["Read"; "Create"].
Proof.
  destruct (bundle_tests_in_order (fun _ => None) demo_graph demo_tests ["t2"] demo_targets) as (b & E & H & _).
  exists b. split; [exact E | exact H].
Defined.

(** Declared test dependencies keep their ids although the bundle names tests by name: a
    valid scenario is translated to a bundle in which a test depends on
    something that is not the name of any test of the bundle. *)
Theorem dependency_ids_dangle :
  vr_valid (validateScenario demo_graph "Demo" demo_tests ["t1"; "t2"]) = true
  /\ exists b, translateScenarioToExecutionBundle (fun _ => None) demo_graph demo_tests ["t1"; "t2"] = Return b
       /\ map tc_name (tr_tests b) = ["Create"; "Read"]
       /\ map tc_depends_on (tr_tests b) = [[]; ["t1"; "Create"]].
Proof. split; [vm_compute; reflexivity|]. eexists. split; [vm_compute; reflexivity|]. split; reflexivity. Qed.

(** Labels that sanitize to the same name are accepted: validation finds no error and the
    service graph then lists two services of one name. *)
Theorem duplicate_names_accepted :
  let nodes := [demo_node "n1" "User API" Generic; demo_node "n2" "user-api!" Redis; demo_node "n3" "user api" Redis] in
  (exists r, validateWorkflowGraph nodes [] = Return r /\ vr_valid r = true)
  /\ exists g, translateWorkflowGraphToServiceGraph (fun _ _ => 0%Z) nodes [] None = Return g
       /\ map sc_name (services g) = ["user_api"; "user-api"; "user_api"].
Proof.
  cbn zeta. split; [eexists; split; [vm_compute; reflexivity | reflexivity]|].
  eexists. split; [vm_compute; reflexivity | reflexivity].
Qed.
