(* ===== verification/WorkflowBundle.v ===== *)
(** * Workflow bundles: [ui-v2/src/modules/workflow/lib/workflow-bundle.ts]

    Export, validation and import of workflows.  A value that comes from text
    is a [RawBundle]: the properties whose presence the code checks are
    optional.  [JSON_parse] gives the value a text denotes at that shape:
    [None] for a syntax error, [Some None] for a value that is no object.
    [fresh n] is what the [n]-th call of [generateId] returns. *)

From S2P Require Import Prelude FlowTypes EdgeModel ServiceNames Graph ScenarioTranslator TranslatorFacts.
Open Scope Z_scope.

Definition WORKFLOW_BUNDLE_SCHEMA_VERSION : Z := 2.
Definition WORKFLOW_BUNDLE_KIND : string := "cots.workflow-bundle".

Record RawScenario := MkRawScenario {
  raw_s_name : option string;
  raw_s_description : option string;
  raw_s_tests : option (list ScenarioTestDefinition);
  raw_s_testOrder : option (list string)
}.

Record RawWorkflow := MkRawWorkflow {
  raw_w_name : option string;
  raw_w_description : option string;
  raw_w_nodes : option (list FlowNode);
  raw_w_edges : option (list FlowEdge)
}.

(** A scenario that is no object is [None]. *)
Record RawBundle := MkRaw {
  raw_schemaVersion : option Z;
  raw_kind : option string;
  raw_workflow : option RawWorkflow;
  raw_scenarios : option (list (option RawScenario))
}.

Record ImportedWorkflowBundleData := MkImported {
  imp_workflow : WorkflowBundleWorkflow;
  imp_scenarios : list WorkflowBundleScenario
}.

Definition fail {A} (message : string) : res A := Throw (JsError message).
Definition ensure (ok : bool) (message : string) : res unit := if ok then Return tt else fail message.

Definition joined_errors (v : ValidationResult) : string := join "; " (map te_message (vr_errors v)).

(** ** Validation *)
Definition check_edge (e : FlowEdge) : res unit :=
  match data_prop ed_relation e with
  | Some r => if str_truthy r && negb (bool_decide (r ∈ EDGE_RELATIONS))
              then fail ("Edge " +:+ quoted (edge_id e) +:+ " has an invalid relation.") else Return tt
  | None => Return tt
  end ;;
  match data_prop ed_readiness e with
  | Some r => if str_truthy r && negb (bool_decide (r ∈ EDGE_READINESS_OPTIONS))
              then fail ("Edge " +:+ quoted (edge_id e) +:+ " has invalid readiness metadata.") else Return tt
  | None => Return tt
  end.

Definition check_retry (test : ScenarioTestDefinition) : res unit :=
  match test_retryPolicy test with
  | None => Return tt
  | Some policy =>
      ensure (bool_decide (rp_mode policy = "transient" \/ rp_mode policy = "never"))
        ("Test " +:+ quoted (test_name test) +:+ " has an invalid retry mode.");;
      ensure (negb (bool_decide (rp_mode policy = "never") && rp_idempotencyConfirmed policy))
        ("Test " +:+ quoted (test_name test) +:+ " cannot confirm idempotency when retries are disabled.");;
      ensure (negb (bool_decide (test_type test = TDelay) && rp_idempotencyConfirmed policy))
        ("Delay test " +:+ quoted (test_name test) +:+ " cannot enable retries.")
  end.

Definition validateBundleScenario (scenario : option RawScenario) (index : nat) : res WorkflowBundleScenario :=
  match scenario with
  | None => fail ("Scenario " +:+ pretty (index + 1)%nat +:+ " must be an object.")
  | Some s =>
      match raw_s_name s with
      | None => fail ("Scenario " +:+ pretty (index + 1)%nat +:+ " must include a name.")
      | Some name =>
          ensure (str_truthy (js_trim name)) ("Scenario " +:+ pretty (index + 1)%nat +:+ " must include a name.");;
          match raw_s_tests s with
          | None | Some [] => fail ("Scenario " +:+ quoted name +:+ " must include at least one test.")
          | Some tests =>
              match raw_s_testOrder s with
              | None => fail ("Scenario " +:+ quoted name +:+ " must include a testOrder array.")
              | Some orderIds =>
                  let testIds := map test_id tests in
                  let uniqueTestIds := set_of_list testIds in
                  ensure (Nat.eqb (length uniqueTestIds) (length testIds))
                    ("Scenario " +:+ quoted name +:+ " contains duplicate test ids.");;
                  ensure (Nat.eqb (length (set_of_list orderIds)) (length orderIds))
                    ("Scenario " +:+ quoted name +:+ " contains duplicate testOrder ids.");;
                  ensure (Nat.eqb (length orderIds) (length testIds))
                    ("Scenario " +:+ quoted name +:+ " testOrder must include every test exactly once.");;
                  res_each (fun testId => ensure (set_has testId uniqueTestIds)
                    ("Scenario " +:+ quoted name +:+ " testOrder references unknown test " +:+ quoted testId +:+ "."))
                    orderIds;;
                  res_each check_retry tests;;
                  Return (MkBundleScenario name (raw_s_description s) tests orderIds)
              end
          end
      end
  end.

Section Bundles.
Context (localeCompare : string -> string -> Z).

Definition check_scenario (graph : WorkflowServiceGraph) (index : nat) (scenario : option RawScenario)
    : res WorkflowBundleScenario :=
  s ← validateBundleScenario scenario index;
  let v := validateScenario graph (bs_name s) (bs_tests s) (bs_testOrder s) in
  ensure (vr_valid v) (joined_errors v);;
  Return s.

Fixpoint check_scenarios (graph : WorkflowServiceGraph) (index : nat) (l : list (option RawScenario))
    : res (list WorkflowBundleScenario) :=
  match l with
  | [] => Return []
  | s :: l' =>
      s' ← check_scenario graph index s;
      rest ← check_scenarios graph (S index) l';
      Return (s' :: rest)
  end.

(** The assertion returns the value at the asserted type. *)
Definition validateWorkflowBundle (value : option RawBundle) : res WorkflowBundle :=
  match value with
  | None => fail "Workflow bundle must be a JSON object."
  | Some b =>
      match raw_schemaVersion b with
      | None => fail "Unsupported workflow bundle schema version: undefined."
      | Some ver =>
          ensure ((ver =? 1) || (ver =? 2)) ("Unsupported workflow bundle schema version: " +:+ pretty ver +:+ ".");;
          ensure (bool_decide (raw_kind b = Some WORKFLOW_BUNDLE_KIND))
            "Workflow bundle kind must be cots.workflow-bundle.";;
          match raw_workflow b with
          | None => fail "Workflow bundle must include a workflow definition."
          | Some w =>
              ensure (ostr_truthy (js_trim <$> raw_w_name w)) "Workflow bundle must include a workflow name.";;
              match raw_w_nodes w with
              | None => fail "Workflow bundle workflow.nodes must be an array."
              | Some nodes =>
                  match raw_w_edges w with
                  | None => fail "Workflow bundle workflow.edges must be an array."
                  | Some edges =>
                      res_each check_edge edges;;
                      match raw_scenarios b with
                      | None | Some [] => fail "Workflow bundle must include at least one scenario."
                      | Some raws =>
                          v ← validateWorkflowGraph nodes edges;
                          ensure (vr_valid v) (joined_errors v);;
                          graph ← translateWorkflowGraphToServiceGraph localeCompare nodes edges None;
                          scenarios ← check_scenarios graph 0 raws;
                          Return (MkBundle ver WORKFLOW_BUNDLE_KIND
                            (MkBundleWorkflow (default "" (raw_w_name w)) (raw_w_description w) nodes edges) scenarios)
                      end
                  end
              end
          end
      end
  end.

(** A typed bundle as a value. *)
Definition raw_of (b : WorkflowBundle) : option RawBundle :=
  let w := wb_workflow b in
  Some (MkRaw (Some (wb_schemaVersion b)) (Some (wb_kind b))
    (Some (MkRawWorkflow (Some (bw_name w)) (bw_description w) (Some (bw_nodes w)) (Some (bw_edges w))))
    (Some (map (fun s => Some (MkRawScenario (Some (bs_name s)) (bs_description s) (Some (bs_tests s))
                                 (Some (bs_testOrder s)))) (wb_scenarios b)))).

(** ** Export *)
Definition VIEW_KEYS : list string :=
  ["type"; "selected"; "dragging"; "zIndex"; "hidden"; "deletable"; "draggable"; "selectable"; "connectable";
   "resizing"; "width"; "height"; "parentId"; "extent"; "expandParent"; "sourcePosition"; "targetPosition";
   "style"; "className"; "ariaLabel"; "focusable"].

Definition kept_view (view : jmap string JsonValue) : jmap string JsonValue :=
  JMap (omap (fun k => (fun v => (k, v)) <$> view !! k) VIEW_KEYS).

Definition sanitizeNode (node : FlowNode) : res FlowNode :=
  match nd_service (node_data node) with
  | None => Throw JsTypeError
  | Some svc =>
      Return (MkNode (node_id node) (node_position node) (kept_view (node_view node))
        (MkNodeData (nd_label (node_data node)) (nd_description (node_data node))
           (Some (MkNodeService (svc_type svc) (svc_image svc) (svc_command svc) (svc_ports svc) (svc_env svc)
                    (svc_wait svc) (svc_initScripts svc) (svc_mockServer svc) None)) None))
  end.

Definition sanitizeNodesForBundle (nodes : list FlowNode) : res (list FlowNode) := res_map sanitizeNode nodes.

Definition bundle_edge_data (d : EdgeData) : EdgeData :=
  MkEdgeData (ed_label d) (ed_description d) (ed_protocol d) (ed_relation d) (ed_readiness d) (ed_needsReview d)
    None None.

Definition sanitizeEdgesForBundle (edges : list FlowEdge) : list FlowEdge :=
  map (fun e => MkEdge (edge_id e) (edge_source e) (edge_target e) (edge_type e) (bundle_edge_data <$> edge_data e))
    (normalizeEdges edges false).

(** [ExportableWorkflow] and [ExportableScenario] have the fields of their
    bundle counterparts. *)
Definition createWorkflowBundle (workflow : WorkflowBundleWorkflow) (scenarios : list WorkflowBundleScenario)
    : res WorkflowBundle :=
  nodes ← sanitizeNodesForBundle (bw_nodes workflow);
  let bundle := MkBundle WORKFLOW_BUNDLE_SCHEMA_VERSION WORKFLOW_BUNDLE_KIND
    (MkBundleWorkflow (bw_name workflow) (Some (ostr_or (bw_description workflow) "")) nodes
       (sanitizeEdgesForBundle (bw_edges workflow)))
    (map (fun s => MkBundleScenario (bs_name s) (Some (ostr_or (bs_description s) "")) (bs_tests s) (bs_testOrder s))
       scenarios) in
  validateWorkflowBundle (raw_of bundle);;
  Return bundle.

(** ** Import *)
Definition normalizeWorkflowBundle (b : WorkflowBundle) : WorkflowBundle :=
  let w := wb_workflow b in
  MkBundle WORKFLOW_BUNDLE_SCHEMA_VERSION (wb_kind b)
    (MkBundleWorkflow (bw_name w) (bw_description w) (bw_nodes w)
       (normalizeEdges (bw_edges w) (wb_schemaVersion b =? 1))) (wb_scenarios b).

Definition parseWorkflowBundle (JSON_parse : string -> option (option RawBundle)) (raw : string)
    : res WorkflowBundle :=
  match JSON_parse raw with
  | None => fail "Workflow bundle is not valid JSON."
  | Some parsed => b ← validateWorkflowBundle parsed; Return (normalizeWorkflowBundle b)
  end.

(** The loop over [suffix]; the fuel is enough for any set of names. *)
Fixpoint next_suffix (fuel : nat) (trimmed : string) (existing : list string) (suffix : Z) : string :=
  match fuel with
  | O => trimmed +:+ " " +:+ pretty suffix
  | S fuel' =>
      if set_has (trimmed +:+ " " +:+ pretty suffix) existing
      then next_suffix fuel' trimmed existing (suffix + 1)
      else trimmed +:+ " " +:+ pretty suffix
  end.

Definition getUniqueWorkflowName (baseName : string) (existingWorkflowNames : list string) : string :=
  let trimmed := ostr_or (Some (js_trim baseName)) "Imported Workflow" in
  let existing := set_of_list existingWorkflowNames in
  if negb (set_has trimmed existing) then trimmed
  else next_suffix (S (length existing)) trimmed existing 2.

Section Clone.
Context (fresh : nat -> string).

(** [idMap] and the number of ids generated so far. *)
Definition build_id_map (tests : list ScenarioTestDefinition) (n : nat) : jmap string string * nat :=
  fold_left (fun acc test => let '(m, n) := acc in (<[test_id test := fresh n]> m, S n)) tests (∅, n).

Definition mapped_ids (idMap : jmap string string) (ids : list string) : list string :=
  filter (fun id => str_truthy id = true) (omap (fun id => idMap !! id) ids).

Fixpoint clone_tests (idMap : jmap string string) (tests : list ScenarioTestDefinition) (n : nat)
    : list ScenarioTestDefinition * nat :=
  match tests with
  | [] => ([], n)
  | test :: tests' =>
      let '(id, n1) := match idMap !! test_id test with
                       | Some id => if str_truthy id then (id, n) else (fresh n, S n)
                       | None => (fresh n, S n)
                       end in
      let next := MkTest id (test_name test) (test_type test) (test_targetServices test)
        (Some (mapped_ids idMap (default [] (test_dependsOnTestIds test)))) (test_retryPolicy test)
        (test_databaseConfig test) (test_documentConfig test) (test_httpConfig test) (test_shellConfig test)
        (test_cacheConfig test) (test_queueConfig test) (test_delayConfig test) in
      let '(rest, n2) := clone_tests idMap tests' n1 in
      (next :: rest, n2)
  end.

Definition cloneScenarioForImport (scenario : WorkflowBundleScenario) (n : nat) : WorkflowBundleScenario * nat :=
  let '(idMap, n1) := build_id_map (bs_tests scenario) n in
  let '(tests, n2) := clone_tests idMap (bs_tests scenario) n1 in
  (MkBundleScenario (bs_name scenario) (Some (ostr_or (bs_description scenario) "")) tests
     (mapped_ids idMap (bs_testOrder scenario)), n2).

Fixpoint clone_scenarios (l : list WorkflowBundleScenario) (n : nat) : list WorkflowBundleScenario :=
  match l with
  | [] => []
  | s :: l' => let '(s', n') := cloneScenarioForImport s n in s' :: clone_scenarios l' n'
  end.

Definition materializeWorkflowBundle (bundle : WorkflowBundle) (existingWorkflowNames : list string)
    : res ImportedWorkflowBundleData :=
  validateWorkflowBundle (raw_of bundle);;
  let w := wb_workflow bundle in
  nodes ← sanitizeNodesForBundle (bw_nodes w);
  Return (MkImported
    (MkBundleWorkflow (getUniqueWorkflowName (bw_name w) existingWorkflowNames)
       (Some (ostr_or (bw_description w) "")) nodes (normalizeEdges (bw_edges w) (wb_schemaVersion bundle =? 1)))
    (clone_scenarios (wb_scenarios bundle) 0)).

Definition createClonedWorkflowBundle (workflow : WorkflowBundleWorkflow) (scenarios : list WorkflowBundleScenario)
    (existingWorkflowNames : list string) : res ImportedWorkflowBundleData :=
  bundle ← createWorkflowBundle workflow scenarios;
  materialized ← materializeWorkflowBundle bundle existingWorkflowNames;
  let w := imp_workflow materialized in
  Return (MkImported
    (MkBundleWorkflow (getUniqueWorkflowName (bw_name workflow +:+ " Copy") existingWorkflowNames)
       (bw_description w) (bw_nodes w) (bw_edges w)) (imp_scenarios materialized)).
End Clone.
End Bundles.
