(* ===== verification/BundleFacts.v ===== *)
(** * What exporting and importing a workflow bundle guarantees *)

From S2P Require Import Prelude FlowTypes EdgeModel ServiceNames Graph ScenarioTranslator TranslatorFacts WorkflowBundle.
Open Scope Z_scope.

(** ** Accepted bundles *)
Lemma ensure_return b m x : ensure b m = Return x -> b = true.
Proof. by destruct b. Qed.

Ltac ensured H :=
  let E := fresh "Hen" in
  match type of H with
  | (ensure ?b ?m ≫= _) = Return _ =>
      destruct (ensure b m) as [?u|?e] eqn:E; [apply ensure_return in E; cbn [mbind res_bind] in H | by simpl in H]
  end.

Lemma each_nodes_labelled nodes g g' : each_state node_entry nodes g = Return g' ->
  forall n, n ∈ nodes -> is_Some (nd_label (node_data n)).
Proof.
  revert g; induction nodes as [|x nodes IH]; intros g; simpl; [by intros _ n Hn%elem_of_nil|].
  unfold node_entry at 1, nodeName. destruct (nd_label (node_data x)) as [l|] eqn:E; simpl; [|done].
  intros H n [->|Hn]%elem_of_cons; [by eexists|by eapply IH].
Qed.

Lemma validated_complete nodes edges r : validateWorkflowGraph nodes edges = Return r -> Forall complete nodes.
Proof.
  unfold validateWorkflowGraph, buildServiceDependencies.
  destruct (each_state node_entry nodes ∅) as [g0|] eqn:E0; simpl; [|done].
  destruct (each_state _ edges g0) as [g|]; simpl; [|done].
  destruct (detectCycles g) as [cs|]; simpl; [|done]. intros H.
  pose proof (each_nodes_labelled _ _ _ E0) as Hl. apply Forall_forall. intros n Hn. split; [by apply Hl|].
  destruct (nd_service (node_data n)) as [svc|] eqn:Es; [by eexists|].
  rewrite (references_throw nodes g Hl) in H; [done|]. eauto.
Qed.

Lemma nodup_length_perm (a b : list string) : NoDup a -> NoDup b -> length a = length b ->
  (forall x, x ∈ a -> x ∈ b) -> a ≡ₚ b.
Proof. intros Ha Hb Hl Hs. apply submseteq_length_Permutation; [by apply NoDup_submseteq|lia]. Qed.

Lemma bundle_scenario_ok s i s' : validateBundleScenario s i = Return s' ->
  NoDup (map test_id (bs_tests s')) /\ bs_testOrder s' ≡ₚ map test_id (bs_tests s') /\ bs_tests s' <> []
  /\ Forall (fun t => check_retry t = Return tt) (bs_tests s')
  /\ s = Some (MkRawScenario (Some (bs_name s')) (bs_description s') (Some (bs_tests s')) (Some (bs_testOrder s'))).
Proof.
  unfold validateBundleScenario. destruct s as [[name desc tests order]|]; [|done]. simpl.
  destruct name as [name|]; [|done]. intros H. ensured H.
  destruct tests as [[|t ts]|]; [done| |done].
  remember (t :: ts) as tests eqn:Ets. assert (Hne : tests <> []) by (by rewrite Ets). clear Ets.
  destruct order as [order|]; [|done]. ensured H. ensured H. ensured H.
  rewrite Nat.eqb_eq in Hen0, Hen1, Hen2.
  destruct (res_each _ order) as [[]|] eqn:Eo; [cbn [mbind res_bind] in H|by simpl in H].
  destruct (res_each check_retry tests) as [[]|] eqn:Er; [cbn [mbind res_bind] in H|by simpl in H]. injection H as <-. simpl.
  apply set_of_list_length_eq in Hen0, Hen1. apply res_each_return in Eo, Er.
  split; [done|]. split; [|done]. apply nodup_length_perm; [done|done|done|].
  intros x Hx. rewrite Forall_forall in Eo. specialize (Eo x Hx). apply ensure_return, set_has_spec in Eo.
  by apply elem_of_set_of_list.
Qed.

Lemma check_scenarios_ok graph i raws l : check_scenarios graph i raws = Return l ->
  forall s, s ∈ l -> (exists j raw, validateBundleScenario raw j = Return s)
    /\ vr_valid (validateScenario graph (bs_name s) (bs_tests s) (bs_testOrder s)) = true.
Proof.
  revert i l; induction raws as [|raw raws IH]; intros i l; simpl.
  { intros [= <-] s Hs. by apply elem_of_nil in Hs. }
  unfold check_scenario at 1. destruct (validateBundleScenario raw i) as [s0|] eqn:E; simpl; [|done].
  intros H. destruct (ensure _ _) as [u|] eqn:Hv in H; simpl in H; [|by simpl in H]. apply ensure_return in Hv.
  destruct (check_scenarios graph (S i) raws) as [rest|] eqn:Er; simpl in H; [|by simpl in H].
  injection H as <-. intros s [->|Hs]%elem_of_cons; [by eauto|by eapply IH].
Qed.


(** ** Names of imported workflows *)
Lemma suffix_inj t (a b : Z) : t +:+ " " +:+ pretty a = t +:+ " " +:+ pretty b -> a = b.
Proof. intros H. apply (inj (String.app t)), (inj (String.app " ")) in H. by apply (inj pretty) in H. Qed.

Lemma next_suffix_spec fuel t existing suffix :
  exists k, suffix <= k <= suffix + Z.of_nat fuel
    /\ next_suffix fuel t existing suffix = t +:+ " " +:+ pretty k
    /\ (forall j, suffix <= j < k -> t +:+ " " +:+ pretty j ∈ existing)
    /\ (k < suffix + Z.of_nat fuel -> t +:+ " " +:+ pretty k ∉ existing).
Proof.
  revert suffix; induction fuel as [|fuel IH]; intros suffix; simpl next_suffix.
  - exists suffix. split; [lia|]. split; [done|]. split; lia.
  - destruct (set_has _ existing) eqn:E.
    + destruct (IH (suffix + 1)) as (k & Hk & E2 & Hall & Hn). exists k. split; [lia|]. split; [done|].
      split; [|intros; apply Hn; lia]. intros j Hj. destruct (decide (j = suffix)) as [->|]; [by apply set_has_spec|].
      apply Hall. lia.
    + exists suffix. split; [lia|]. split; [done|]. split; [lia|]. intros _. by apply set_has_false.
Qed.

(** More suffixes than names cannot all be taken. *)
Lemma suffixes_not_all_taken t existing n : (length existing < n)%nat ->
  ~ forall j, 2 <= j < 2 + Z.of_nat n -> t +:+ " " +:+ pretty j ∈ existing.
Proof.
  intros Hn Hall. set (names := map (fun i => t +:+ " " +:+ pretty (2 + Z.of_nat i)) (seq 0 n)).
  assert (Hnd : NoDup names).
  { apply NoDup_fmap_2_strong; [|apply NoDup_seq]. intros i j _ _ H. apply suffix_inj in H. lia. }
  assert (Hsub : names ⊆ existing).
  { intros x Hx. unfold names in Hx. apply list_elem_of_fmap in Hx as (i & -> & Hi%elem_of_seq). apply Hall. lia. }
  pose proof (submseteq_length _ _ (NoDup_submseteq _ _ Hnd Hsub)) as H.
  unfold names in H. rewrite length_map, length_seq in H. lia.
Qed.

Lemma unique_name_spec base names :
  let trimmed := ostr_or (Some (js_trim base)) "Imported Workflow" in
  let name := getUniqueWorkflowName base names in
  name ∉ names
  /\ (trimmed ∉ names -> name = trimmed)
  /\ (trimmed ∈ names -> exists k, 2 <= k /\ name = trimmed +:+ " " +:+ pretty k
        /\ forall j, 2 <= j < k -> trimmed +:+ " " +:+ pretty j ∈ names).
Proof.
  cbn zeta. unfold getUniqueWorkflowName. set (t := ostr_or (Some (js_trim base)) "Imported Workflow").
  set (existing := set_of_list names).
  assert (He : forall x, x ∈ existing <-> x ∈ names) by (intros; apply elem_of_set_of_list).
  destruct (set_has t existing) eqn:E; cbn [negb].
  - apply set_has_spec in E. destruct (next_suffix_spec (S (length existing)) t existing 2) as (k & Hk & -> & Hall & Hn).
    assert (Hfree : t +:+ " " +:+ pretty k ∉ existing).
    { destruct (decide (k < 2 + Z.of_nat (S (length existing)))) as [Hlt|Hge]; [by apply Hn|].
      exfalso. apply (suffixes_not_all_taken t existing (S (length existing))); [lia|].
      intros j Hj. apply Hall. lia. }
    rewrite <- !He. split; [done|]. split; [done|]. intros _. exists k. split; [lia|]. split; [done|].
    intros j Hj. by apply He, Hall.
  - apply set_has_false in E. rewrite <- !He. split; [done|]. split; [done|]. done.
Qed.

Lemma unique_name_fresh base names : getUniqueWorkflowName base names ∉ names.
Proof. apply unique_name_spec. Qed.

(** An imported workflow gets a name of its own: the name is never one of the existing
    ones, it is the trimmed name when that is free, and otherwise the trimmed
    name with the smallest free number from 2 on. *)
Theorem unique_name_is_fresh base names :
  let trimmed := ostr_or (Some (js_trim base)) "Imported Workflow" in
  let name := getUniqueWorkflowName base names in
  name ∉ names
  /\ (trimmed ∉ names -> name = trimmed)
  /\ (trimmed ∈ names -> exists k, 2 <= k /\ name = trimmed +:+ " " +:+ pretty k
        /\ forall j, 2 <= j < k -> trimmed +:+ " " +:+ pretty j ∈ names).
Proof. apply unique_name_spec. Qed.

(** ** Fresh ids for imported tests *)
Section Clone.
Context (fresh : nat -> string).

Lemma id_map_spec tests : forall (m : jmap string string) n, NoDup (map test_id tests) ->
  exists m', fold_left (fun acc test => let '(m, n) := acc in (<[test_id test := fresh n]> m, S n)) tests (m, n)
             = (m', (n + length tests)%nat)
    /\ (forall i t, tests !! i = Some t -> m' !! test_id t = Some (fresh (n + i)%nat))
    /\ (forall k, k ∉ map test_id tests -> m' !! k = m !! k).
Proof.
  induction tests as [|t tests IH]; intros m n Hn; simpl.
  { exists m. split; [f_equal; lia|]. done. }
  apply NoDup_cons in Hn as [Ht Hn].
  destruct (IH (<[test_id t := fresh n]> m) (S n) Hn) as (m' & -> & H1 & H2). exists m'.
  split; [f_equal; lia|]. split.
  - intros [|i] t'; simpl; [intros [= <-]; rewrite H2 by done; rewrite jlookup_insert_eq; do 2 f_equal; lia|].
    intros Hi. rewrite (H1 _ _ Hi). do 2 f_equal. lia.
  - intros k Hk. apply not_elem_of_cons in Hk as [Hk1 Hk2]. rewrite H2 by done. by rewrite jlookup_insert_ne.
Qed.

(** The renaming of a list of tests: its [i]-th id becomes the [n + i]-th fresh one. *)
Definition renaming (tests : list ScenarioTestDefinition) (n : nat) (id : string) : string :=
  default "" ((build_id_map fresh tests n).1 !! id).

Definition renamed (f : string -> string) (t : ScenarioTestDefinition) : ScenarioTestDefinition :=
  MkTest (f (test_id t)) (test_name t) (test_type t) (test_targetServices t)
    (Some (map f (default [] (test_dependsOnTestIds t)))) (test_retryPolicy t)
    (test_databaseConfig t) (test_documentConfig t) (test_httpConfig t) (test_shellConfig t)
    (test_cacheConfig t) (test_queueConfig t) (test_delayConfig t).

Context (Hne : forall n, fresh n <> "") (Hinj : forall i j, fresh i = fresh j -> i = j).

Lemma lookup_id_map tests n id : NoDup (map test_id tests) -> id ∈ map test_id tests ->
  (build_id_map fresh tests n).1 !! id = Some (renaming tests n id)
  /\ str_truthy (renaming tests n id) = true
  /\ exists i t, tests !! i = Some t /\ test_id t = id /\ renaming tests n id = fresh (n + i)%nat.
Proof.
  intros Hnd Hin. unfold renaming, build_id_map.
  destruct (id_map_spec tests ∅ n Hnd) as (m & -> & H1 & _). simpl.
  apply list_elem_of_In, in_map_iff in Hin as (t & <- & Ht). apply list_elem_of_In, list_elem_of_lookup in Ht as [i Hi].
  rewrite (H1 _ _ Hi). simpl. split; [done|]. split; [by apply str_truthy_spec|]. eauto 6.
Qed.

Lemma mapped_ids_map tests n ids : NoDup (map test_id tests) -> (forall id, id ∈ ids -> id ∈ map test_id tests) ->
  mapped_ids (build_id_map fresh tests n).1 ids = map (renaming tests n) ids.
Proof.
  intros Hnd. unfold mapped_ids. induction ids as [|id ids IH]; intros Hs; [done|]. simpl.
  destruct (lookup_id_map tests n id Hnd (Hs id (list_elem_of_here _ _))) as (E & Ht & _).
  rewrite E. rewrite filter_cons_True by done. f_equal. apply IH. intros; by apply Hs, list_elem_of_further.
Qed.

Lemma clone_tests_map all n l k : NoDup (map test_id all) ->
  (forall t, t ∈ l -> test_id t ∈ map test_id all
     /\ forall d, d ∈ default [] (test_dependsOnTestIds t) -> d ∈ map test_id all) ->
  clone_tests fresh (build_id_map fresh all n).1 l k = (map (renamed (renaming all n)) l, k).
Proof.
  intros Hnd. revert k; induction l as [|t l IH]; intros k Hl; [done|]. simpl.
  destruct (Hl t (list_elem_of_here _ _)) as [Ht Hd].
  destruct (lookup_id_map all n (test_id t) Hnd Ht) as (E & Et & _). rewrite E, Et.
  rewrite IH by (intros; by apply Hl, list_elem_of_further).
  unfold renamed. by rewrite mapped_ids_map.
Qed.

Lemma renaming_inj tests n a b : NoDup (map test_id tests) -> a ∈ map test_id tests -> b ∈ map test_id tests ->
  renaming tests n a = renaming tests n b -> a = b.
Proof.
  intros Hnd Ha Hb E. destruct (lookup_id_map tests n a Hnd Ha) as (_ & _ & i & t & Hi & <- & Ei).
  destruct (lookup_id_map tests n b Hnd Hb) as (_ & _ & j & t' & Hj & <- & Ej).
  rewrite Ei, Ej in E. apply Hinj in E. assert (i = j) as -> by lia. rewrite Hi in Hj. congruence.
Qed.

(** Importing a scenario only renames its tests: every test id is replaced, one to one,
    by a newly generated id, consistently in the tests, in their dependencies
    and in the order list, and nothing else of the tests changes. *)
Theorem imported_scenario_renamed s n : NoDup (map test_id (bs_tests s)) ->
  (forall id, id ∈ bs_testOrder s -> id ∈ map test_id (bs_tests s)) ->
  (forall t d, t ∈ bs_tests s -> d ∈ default [] (test_dependsOnTestIds t) -> d ∈ map test_id (bs_tests s)) ->
  exists f,
    (cloneScenarioForImport fresh s n).1 =
      MkBundleScenario (bs_name s) (Some (ostr_or (bs_description s) "")) (map (renamed f) (bs_tests s))
        (map f (bs_testOrder s))
    /\ (forall id, id ∈ map test_id (bs_tests s) -> exists i, f id = fresh (n + i)%nat /\ (i < length (bs_tests s))%nat)
    /\ (forall a b, a ∈ map test_id (bs_tests s) -> b ∈ map test_id (bs_tests s) -> f a = f b -> a = b).
Proof.
  intros Hnd Ho Hd. exists (renaming (bs_tests s) n). split.
  - unfold cloneScenarioForImport. rewrite (surjective_pairing (build_id_map fresh (bs_tests s) n)).
    rewrite clone_tests_map, mapped_ids_map; [done|done|done|done|].
    intros t Ht. split; [by apply list_elem_of_In, in_map, list_elem_of_In|]. intros d. by apply Hd.
  - split; [|intros; by eapply renaming_inj]. intros id Hid.
    destruct (lookup_id_map _ n _ Hnd Hid) as (_ & _ & i & t & Hi & _ & E). exists i. split; [done|].
    by eapply lookup_lt_Some.
Qed.
End Clone.

(** ** Round trip *)
Lemma picked_lookup (view : jmap string JsonValue) keys k : NoDup keys ->
  assoc_get k (omap (fun k => (fun v => (k, v)) <$> view !! k) keys) = if decide (k ∈ keys) then view !! k else None.
Proof.
  induction keys as [|x keys IH]; intros Hn; [done|]. apply NoDup_cons in Hn as [Hx Hn]. specialize (IH Hn).
  csimpl. assert (Hk : forall y, k <> x -> (if decide (k ∈ keys) then y else None)
    = if decide (k ∈ x :: keys) then y else @None JsonValue).
  { intros y Hkx. destruct (decide (k ∈ keys)), (decide (k ∈ x :: keys)) as [Hin|Hin]; try done.
    - contradict Hin. by apply list_elem_of_further.
    - by apply elem_of_cons in Hin as [?|?]. }
  destruct (decide (k = x)) as [->|Hkx].
  - rewrite (decide_True (P := x ∈ x :: keys)) by apply list_elem_of_here.
    destruct (view !! x) as [v|] eqn:E; csimpl; [by rewrite decide_True|]. rewrite IH. by rewrite decide_False.
  - rewrite <- Hk by done. destruct (view !! x) as [v|]; csimpl; [by rewrite decide_False|done].
Qed.

Lemma view_keys_nodup : NoDup VIEW_KEYS.
Proof. apply set_of_list_length_eq. vm_compute. reflexivity. Qed.

Lemma kept_view_lookup view k : kept_view view !! k = if decide (k ∈ VIEW_KEYS) then view !! k else None.
Proof. exact (picked_lookup view VIEW_KEYS k view_keys_nodup). Qed.

Lemma kept_view_idem view : kept_view (kept_view view) = kept_view view.
Proof.
  unfold kept_view at 1. unfold kept_view at 2. f_equal. apply omap_ext_in. intros k Hk.
  by rewrite kept_view_lookup, decide_True.
Qed.

Lemma sanitize_node_idem n n' : sanitizeNode n = Return n' -> sanitizeNode n' = Return n'.
Proof.
  unfold sanitizeNode. destruct (nd_service (node_data n)) as [svc|]; [|done]. intros [= <-]. simpl.
  by rewrite kept_view_idem.
Qed.

Lemma sanitize_nodes_idem l l' : sanitizeNodesForBundle l = Return l' -> sanitizeNodesForBundle l' = Return l'.
Proof.
  unfold sanitizeNodesForBundle. rewrite !res_map_return. intros H.
  induction H; constructor; eauto using sanitize_node_idem.
Qed.

(** An edge as the export leaves it. *)
Definition exported (e : FlowEdge) : FlowEdge :=
  MkEdge (edge_id e) (edge_source e) (edge_target e) (edge_type e) (bundle_edge_data <$> edge_data e).

Lemma normalize_exported e b : normalizeEdge (exported (normalizeEdge e b)) false = exported (normalizeEdge e b)
  /\ has_semantics (exported (normalizeEdge e b)) = true.
Proof.
  destruct (normalized_members e b) as (H1 & H2 & H3).
  assert (Hs : has_semantics (exported (normalizeEdge e b)) = true) by exact H3.
  split; [|done]. unfold normalizeEdge at 1. rewrite Hs. unfold exported, normalizeEdge, data_prop at 1 2 3 4 5 6 7 8.
  simpl. fold (data_prop ed_relation e) (data_prop ed_readiness e). rewrite !decide_True by done.
  by destruct (b || _ || _).
Qed.

Lemma reimport_edges edges : normalizeEdges (sanitizeEdgesForBundle edges) false = sanitizeEdgesForBundle edges.
Proof.
  unfold sanitizeEdgesForBundle, normalizeEdges. rewrite !map_map. apply map_ext. intros e.
  destruct (normalize_exported e (false || negb (has_semantics e))) as [H1 H2].
  fold (exported (normalizeEdge e (false || negb (has_semantics e)))). rewrite H2. exact H1.
Qed.


(** ** Witnesses *)
Definition no_collation (a b : string) : Z := 0.
Definition numbered (n : nat) : string := "id-" +:+ pretty n.

Lemma numbered_inj i j : numbered i = numbered j -> i = j.
Proof. intros H. apply (inj (String.app "id-")) in H. by apply (inj pretty) in H. Qed.

Definition demo_workflow : WorkflowBundleWorkflow := MkBundleWorkflow "Demo" None demo_nodes demo_edges.
Definition demo_scenario : WorkflowBundleScenario := MkBundleScenario "Main" None demo_tests ["t1"; "t2"].
Definition demo_bundle : WorkflowBundle :=
  match createWorkflowBundle no_collation demo_workflow [demo_scenario] with
  | Return b => b
  | Throw _ => MkBundle 0 "" demo_workflow []
  end.


Lemma imported_scenario_renamed_witness : exists f,
  (cloneScenarioForImport numbered demo_scenario 5).1
  = MkBundleScenario "Main" (Some "") (map (renamed f) demo_tests) (map f ["t1"; "t2"]).
Proof.
  destruct (imported_scenario_renamed numbered) with (s := demo_scenario) (n := 5%nat) as (f & H & _).
  - intros n. discriminate.
  - exact numbered_inj.
  - apply set_of_list_length_eq. vm_compute. reflexivity.
  - intros id Hid. exact Hid.
  - intros t d Ht Hd. simpl in Ht. unfold demo_tests in Ht. rewrite !elem_of_cons, elem_of_nil in Ht.
    destruct Ht as [->|[->|[]]]; simpl in Hd; [by apply elem_of_nil in Hd|].
    apply list_elem_of_singleton in Hd as ->. apply list_elem_of_here.
  - exists f. exact H.
Defined.

