(* ===== verification/SyncMiddleware.v ===== *)
(** * Synchronised stores: [ui-v2/src/modules/sync/sync-middleware.ts]

    A store is its state, the tracker of operations not yet turned into
    changes, and the microtasks that [syncSet] scheduled.  A store action is a
    computation [StoreM] over the browser and the store: it may throw, and what
    it did before stays done.  After the action's turn the scheduled microtasks
    run, and each hands at most one change to [queueChange]. *)

From S2P Require Import Prelude FlowTypes SyncTypes ClientId FastQueue SyncService.
Open Scope Z_scope.

(** ** Tracker *)
Definition coalesceChangeType (existing : option ChangeType) (incoming : ChangeType) : ChangeType :=
  match existing with
  | None => incoming
  | Some Insert_ => match incoming with Update_ => Insert_ | _ => incoming end
  | Some Delete_ => Delete_
  | Some Update_ => incoming
  end.

Definition track (entityId : string) (ct : ChangeType) (ops : jmap string ChangeType) : jmap string ChangeType :=
  <[entityId := coalesceChangeType (ops !! entityId) ct]> ops.

Definition consume (entityId : string) (ops : jmap string ChangeType)
    : option ChangeType * jmap string ChangeType :=
  (ops !! entityId, delete entityId ops).

(** ** Stores *)
Record Store (T : Type) := MkStore {
  state : T;
  pendingOps : jmap string ChangeType;
  microtasks : list string
}.
Arguments MkStore {T} state pendingOps microtasks.
Arguments state {T} s.
Arguments pendingOps {T} s.
Arguments microtasks {T} s.

Record SimpleSyncOptions (T : Type) := MkOptions {
  entityType : EntityType;
  getEntityId : T -> option string;
  serializeEntity : T -> string -> res (option JsonValue);
  opt_enabled : bool
}.
Arguments MkOptions {T} entityType getEntityId serializeEntity opt_enabled.
Arguments entityType {T} s.
Arguments getEntityId {T} s.
Arguments serializeEntity {T} s.
Arguments opt_enabled {T} s.

Definition StoreM (T A : Type) : Type := Host * Store T -> res A * (Host * Store T).

#[export] Instance StoreM_ret T : MRet (StoreM T) := fun A a c => (Return a, c).
#[export] Instance StoreM_bind T : MBind (StoreM T) := fun A B f m c =>
  match m c with
  | (Return a, c') => f a c'
  | (Throw e, c') => (Throw e, c')
  end.

(** [get()], and the platform's functions as actions. *)
Definition getState {T} : StoreM T T := fun c => (Return (state c.2), c).
Definition fromHost {T A} (f : Host -> res A * Host) : StoreM T A := fun c =>
  let '(r, h) := f c.1 in (r, (h, c.2)).
Definition readHost {T A} (f : Host -> A) : StoreM T A := fun c => (Return (f c.1), c).

Definition trackSync {T} (entityId : string) (ct : ChangeType) : StoreM T unit := fun '(h, s) =>
  (Return tt, (h, MkStore (state s) (track entityId ct (pendingOps s)) (microtasks s))).

(** [syncSet]: the update may itself throw, and then nothing is set. *)
Definition syncSet {T} (opts : SimpleSyncOptions T) (update : T -> Host -> res T * Host) : StoreM T unit :=
  fun '(h, s) =>
    match update (state s) h with
    | (Throw e, h') => (Throw e, (h', s))
    | (Return t, h') =>
        let s' := MkStore t (pendingOps s) (microtasks s) in
        if negb (opt_enabled opts) then (Return tt, (h', s'))
        else
          match getEntityId opts t with
          | None => (Return tt, (h', s'))
          | Some id =>
              if str_truthy id
              then (Return tt, (h', MkStore t (pendingOps s) (microtasks s ++ [id])))
              else (Return tt, (h', s'))
          end
    end.

(** An update that neither throws nor touches the browser. *)
Definition pureSet {T} (f : T -> T) (t : T) (h : Host) : res T * Host := (Return (f t), h).

(** What a microtask asks [queueChange] to record. *)
Definition Emission : Type := string * ChangeType * JsonValue.

Section Microtasks.
Context {T : Type} (opts : SimpleSyncOptions T).

(** The callback given to [queueMicrotask]; its [catch] drops what the
    serializer throws. *)
Definition microtask (entityId : string) (s : Store T) : option Emission * Store T :=
  let '(ct, ops) := consume entityId (pendingOps s) in
  let s' := MkStore (state s) ops (microtasks s) in
  match ct with
  | None => (None, s')
  | Some changeType =>
      match serializeEntity opts (state s) entityId with
      | Return (Some data) => (Some (entityId, changeType, data), s')
      | _ => (None, s')
      end
  end.

Fixpoint drain (ids : list string) (s : Store T) : list Emission * Store T :=
  match ids with
  | [] => ([], s)
  | id :: ids' =>
      let '(o, s1) := microtask id s in
      let '(cs, s2) := drain ids' s1 in
      (option_list o ++ cs, s2)
  end.

(** The microtask checkpoint: callbacks run in the order they were scheduled. *)
Definition run_microtasks (s : Store T) : list Emission * Store T :=
  drain (microtasks s) (MkStore (state s) (pendingOps s) []).

Context `{D : Deque SyncChange}.

Definition queue_emissions (es : list Emission) (w : World) : World :=
  fold_left (fun w '(id, ct, d) => queueChange (entityType opts) id ct d w) es w.

(** One turn: an action, then its microtasks. *)
Definition turn {A} (action : StoreM T A) (s : Store T) (w : World) : res A * Store T * World :=
  let '(r, (h, s1)) := action (host w, s) in
  let '(es, s2) := run_microtasks s1 in
  (r, s2, queue_emissions es (set_host h w)).
End Microtasks.

(** ** Metadata *)
Record SyncMetadataShape := MkShape {
  sh_version : option Z;
  sh_created_at : option string;
  sh_is_deleted : option bool
}.

Definition no_metadata : SyncMetadataShape := MkShape None None None.
Definition shape_of (v : Z) (m : SyncMeta) : SyncMetadataShape :=
  MkShape (Some v) (Some (created_at m)) (Some (is_deleted m)).

Definition addSyncMetadata (entity : SyncMetadataShape) (h : Host) : res SyncMeta * Host :=
  let now := nowIso h in
  match getUserId h with
  | Throw e => (Throw e, h)
  | Return u =>
      let '(cid, h') := getOrCreateClientId h in
      (Return (MkMeta (num_or (default 0 (sh_version entity)) 1) (ostr_or (sh_created_at entity) now)
                 now u cid (default false (sh_is_deleted entity))), h')
  end.

Definition markAsDeleted (m : SyncMeta) (h : Host) : SyncMeta :=
  MkMeta (version m + 1) (created_at m) (nowIso h) (user_id m) (client_id m) true.

(** ** Coalescing is a join *)
Definition change_weight (ct : ChangeType) : Z :=
  match ct with Update_ => 0 | Insert_ => 1 | Delete_ => 2 end.

Lemma coalesce_weight a b :
  change_weight (coalesceChangeType (Some a) b) = Z.max (change_weight a) (change_weight b).
Proof. by destruct a, b. Qed.

Lemma change_weight_inj a b : change_weight a = change_weight b -> a = b.
Proof. by destruct a, b. Qed.

Definition track_all (ops : list ChangeType) (existing : option ChangeType) : option ChangeType :=
  fold_left (fun o ct => Some (coalesceChangeType o ct)) ops existing.

Lemma track_all_spec ops a : exists ct, track_all ops (Some a) = Some ct
  /\ ct ∈ a :: ops /\ forall c, c ∈ a :: ops -> change_weight c <= change_weight ct.
Proof.
  revert a; induction ops as [|b ops IH]; intros a.
  - exists a. split; [done|]. split; [apply list_elem_of_here|]. by intros c ->%list_elem_of_singleton.
  - destruct (IH (coalesceChangeType (Some a) b)) as (ct & E & Hin & Hle). exists ct. split; [done|].
    pose proof (coalesce_weight a b) as Hw. split.
    + apply elem_of_cons in Hin as [->|Hin]; [|by do 2 apply list_elem_of_further].
      rewrite !elem_of_cons. destruct a, b; auto.
    + pose proof (Hle _ (list_elem_of_here _ _)).
      intros c [->|[->|Hc]%elem_of_cons]%elem_of_cons; [lia|lia|]. by apply Hle, list_elem_of_further.
Qed.

Lemma track_all_none ops : ops <> [] -> exists ct, track_all ops None = Some ct
  /\ ct ∈ ops /\ forall c, c ∈ ops -> change_weight c <= change_weight ct.
Proof. destruct ops as [|a ops]; [done|]. intros _. apply track_all_spec. Qed.

(** The operations tracked on one entity before its microtask runs coalesce to the
    strongest of them, whatever their order: a delete if any is a delete, else
    an insert if any is an insert, else an update. *)
Theorem tracked_operations_coalesce ops1 ops2 : ops1 ≡ₚ ops2 ->
  track_all ops1 None = track_all ops2 None
  /\ forall ct, track_all ops1 None = Some ct ->
       ct ∈ ops1 /\ forall c, c ∈ ops1 -> change_weight c <= change_weight ct.
Proof.
  intros Hp. destruct (decide (ops1 = [])) as [->|Hne].
  { apply Permutation_nil in Hp as ->. by split. }
  assert (Hne2 : ops2 <> []) by (intros ->; by apply Permutation_sym, Permutation_nil in Hp).
  destruct (track_all_none ops1 Hne) as (c1 & E1 & I1 & L1).
  destruct (track_all_none ops2 Hne2) as (c2 & E2 & I2 & L2). rewrite E1, E2.
  split; [|by intros ct [= <-]]. f_equal. apply change_weight_inj, Z.le_antisymm.
  - apply L2. by rewrite <- Hp.
  - apply L1. by rewrite Hp.
Qed.

Lemma tracked_operations_coalesce_witness :
  track_all [Insert_; Update_; Update_] None = track_all [Update_; Insert_; Update_] None.
Proof. apply tracked_operations_coalesce. constructor. Defined.

(** ** What the microtasks of a turn emit *)
Section Emissions.
Context {T : Type} (opts : SimpleSyncOptions T).
Implicit Types (s : Store T).

(** The change an entity gives rise to: its tracked operation and the entity as
    it is when the microtasks run. *)
Definition emission (s : Store T) (id : string) : option Emission :=
  match pendingOps s !! id, serializeEntity opts (state s) id with
  | Some ct, Return (Some d) => Some (id, ct, d)
  | _, _ => None
  end.

Lemma microtask_spec id s : jmap_wf (pendingOps s) ->
  (microtask opts id s).1 = emission s id
  /\ state (microtask opts id s).2 = state s
  /\ microtasks (microtask opts id s).2 = microtasks s
  /\ jmap_wf (pendingOps (microtask opts id s).2)
  /\ forall k, pendingOps (microtask opts id s).2 !! k = if decide (id = k) then None else pendingOps s !! k.
Proof.
  intros Hwf. unfold microtask, emission, consume.
  repeat case_match; simpl in *; repeat split; eauto using jmap_wf_delete; intros; by apply jlookup_delete.
Qed.

Lemma emission_after id s k : jmap_wf (pendingOps s) ->
  emission (microtask opts id s).2 k = if decide (id = k) then None else emission s k.
Proof.
  intros Hwf. destruct (microtask_spec id s Hwf) as (_ & Hs & _ & _ & Hp).
  unfold emission. rewrite Hp, Hs. by case_decide.
Qed.

Lemma drain_spec ids acc s : jmap_wf (pendingOps s) -> NoDup acc ->
  (forall id, id ∈ acc -> emission s id = None) ->
  (drain opts ids s).1 = omap (emission s) (fold_left (fun a x => set_add x a) ids acc).
Proof.
  revert acc s; induction ids as [|id ids IH]; intros acc s Hwf Hnd Hacc; simpl; [by rewrite omap_none|].
  destruct (microtask_spec id s Hwf) as (Ho & _ & _ & Hwf' & _).
  pose proof (fun k => emission_after id s k Hwf) as Hem.
  destruct (microtask opts id s) as [o s1]; simpl in *; subst o.
  pose proof (NoDup_set_add id acc Hnd) as Hnd'. specialize (IH (set_add id acc) s1 Hwf' Hnd').
  destruct (drain opts ids s1) as [cs s2]; simpl in *. rewrite IH; clear IH.
  2:{ intros k Hk. rewrite Hem. case_decide as E; [done|].
      apply elem_of_set_add in Hk as [->|Hk]; [done|auto]. }
  destruct (set_of_list_acc_app ids (set_add id acc)) as [t Et].
  pose proof (proj2 (set_of_list_acc ids (set_add id acc)) Hnd') as Hn. rewrite Et in *.
  apply NoDup_app in Hn as (_ & Hd & _). specialize (Hd id (proj2 (elem_of_set_add id id acc) (or_introl eq_refl))).
  assert (Ht : omap (emission s1) t = omap (emission s) t).
  { apply omap_ext_in. intros k Hk. rewrite Hem. by case_decide; subst. }
  assert (Ha : omap (emission s1) acc = [] /\ omap (emission s) acc = []).
  { split; apply omap_none; [|done]. intros k Hk. rewrite Hem. case_decide; auto. }
  destruct Ha as [Ha1 Ha2]. rewrite !omap_app, Ht, app_assoc. f_equal.
  unfold set_add. destruct (set_has id acc) eqn:Eh.
  - apply set_has_spec in Eh. by rewrite (Hacc id Eh), Ha1, Ha2.
  - rewrite !omap_app, Ha1, Ha2. cbn. rewrite Hem, decide_True by done. by destruct (emission s id).
Qed.

Lemma drain_frame ids s : jmap_wf (pendingOps s) ->
  state (drain opts ids s).2 = state s /\ microtasks (drain opts ids s).2 = microtasks s
  /\ jmap_wf (pendingOps (drain opts ids s).2)
  /\ forall k, pendingOps (drain opts ids s).2 !! k = if decide (k ∈ ids) then None else pendingOps s !! k.
Proof.
  revert s; induction ids as [|id ids IH]; intros s Hwf; simpl; [done|].
  destruct (microtask_spec id s Hwf) as (_ & Hs & Hm & Hwf' & Hp).
  destruct (microtask opts id s) as [o s1]; simpl in *.
  destruct (IH s1 Hwf') as (Hs' & Hm' & Hwf2 & Hp'). destruct (drain opts ids s1) as [cs s2]; simpl in *.
  split; [congruence|]. split; [congruence|]. split; [done|]. intros k. rewrite Hp', Hp.
  destruct (decide (k ∈ ids)) as [Hin|Hni], (decide (k ∈ id :: ids)) as [Hin2|Hni2]; try done.
  - by contradict Hni2; apply list_elem_of_further.
  - apply elem_of_cons in Hin2 as [->|?]; [by rewrite decide_True|done].
  - rewrite decide_False; [done|]. intros ->. apply Hni2, list_elem_of_here.
Qed.

(** A turn emits one change per entity: the microtasks hand over, in the order the
    entities were first set, exactly one change for each entity with a tracked
    operation that can be serialised, carrying the coalesced operation and the
    final state of the entity; afterwards nothing is scheduled, the operations
    of those entities are consumed and the state is untouched. *)
Theorem turn_emits_once s : jmap_wf (pendingOps s) ->
  (run_microtasks opts s).1 = omap (emission s) (set_of_list (microtasks s))
  /\ NoDup (map (fun e : Emission => e.1.1) (run_microtasks opts s).1)
  /\ state (run_microtasks opts s).2 = state s
  /\ microtasks (run_microtasks opts s).2 = []
  /\ forall k, pendingOps (run_microtasks opts s).2 !! k
             = if decide (k ∈ microtasks s) then None else pendingOps s !! k.
Proof.
  intros Hwf. unfold run_microtasks. set (s0 := MkStore (state s) (pendingOps s) []).
  assert (E : (drain opts (microtasks s) s0).1 = omap (emission s) (set_of_list (microtasks s))).
  { apply (drain_spec (microtasks s) [] s0); [done|constructor|]. by intros id Hn%elem_of_nil. }
  destruct (drain_frame (microtasks s) s0 Hwf) as (H1 & H2 & _ & H3). rewrite E.
  split; [done|]. split; [|done].
  pose proof (NoDup_set_of_list (microtasks s)) as Hn. revert Hn. generalize (set_of_list (microtasks s)).
  clear. induction l as [|x l IH]; simpl; [constructor|]. rewrite NoDup_cons. intros [Hx Hn].
  destruct (emission s x) as [[[y ct] d]|] eqn:E; [|by apply IH]. simpl. rewrite NoDup_cons.
  split; [|by apply IH].
  assert (y = x) as -> by (unfold emission in E; repeat case_match; by simplify_eq).
  contradict Hx. apply list_elem_of_fmap in Hx as ([[z c] d'] & -> & Hz). simpl.
  apply list_elem_of_omap in Hz as (u & Hu & Eu).
  unfold emission in Eu; repeat case_match; by simplify_eq.
Qed.
End Emissions.

(** ** A whole turn *)
Section Turn.
Context {T : Type} (opts : SimpleSyncOptions T) `{D : Deque SyncChange}.

(** Between turns no microtask is left. *)
Definition idle (s : Store T) : Prop := jmap_wf (pendingOps s) /\ microtasks s = [].

(** An action that tracks an operation and then sets the entity, in a turn of
    its own, queues exactly one change. *)
Lemma turn_tracked_set id ct f s w t h' d : idle s -> opt_enabled opts = true ->
  f (state s) (host w) = (Return t, h') -> getEntityId opts t = Some id -> id <> "" ->
  serializeEntity opts t id = Return (Some d) ->
  exists s', turn opts (trackSync id ct;; syncSet opts f) s w
      = (Return tt, s', queueChange (entityType opts) id (coalesceChangeType (pendingOps s !! id) ct) d (set_host h' w))
    /\ state s' = t /\ idle s' /\ pendingOps s' !! id = None.
Proof.
  intros [Hwf Hm] Hen Hf Hid Hne Hser. apply str_truthy_spec in Hne.
  unfold turn, mbind, StoreM_bind, trackSync, syncSet. simpl.
  rewrite Hf, Hen, Hid, Hne, Hm. simpl. unfold run_microtasks. simpl.
  unfold microtask, consume. simpl. unfold track. rewrite jlookup_insert_eq, Hser. simpl.
  eexists. split; [reflexivity|]. simpl. split; [done|]. split; [split; [|done]; simpl; auto using jmap_wf_delete, jmap_wf_insert|].
  rewrite jlookup_delete by auto using jmap_wf_insert. by rewrite decide_True.
Qed.

(** An action that fails before it sets anything queues nothing. *)
Lemma turn_tracked_throw id ct f s w e h' : idle s ->
  f (state s) (host w) = (Throw e, h') ->
  turn opts (trackSync id ct;; syncSet opts f) s w
  = (Throw e, MkStore (state s) (track id ct (pendingOps s)) [], set_host h' w).
Proof.
  intros [Hwf Hm] Hf. unfold turn, mbind, StoreM_bind, trackSync, syncSet. simpl. rewrite Hf. simpl.
  unfold run_microtasks. simpl. by rewrite Hm.
Qed.

(** A [set] whose current entity has no tracked operation queues nothing. *)
Lemma turn_untracked_set f s w t h' : idle s -> f (state s) (host w) = (Return t, h') ->
  (forall id, getEntityId opts t = Some id -> pendingOps s !! id = None) ->
  exists s', turn opts (syncSet opts f) s w = (Return tt, s', set_host h' w)
    /\ state s' = t /\ idle s' /\ forall k, pendingOps s' !! k = pendingOps s !! k.
Proof.
  intros [Hwf Hm] Hf Hid. unfold turn, syncSet. simpl. rewrite Hf.
  destruct (negb (opt_enabled opts)); [simpl; rewrite Hm; by eexists|].
  destruct (getEntityId opts t) as [id|]; [|simpl; rewrite Hm; by eexists].
  destruct (str_truthy id); [|simpl; rewrite Hm; by eexists].
  unfold run_microtasks. simpl. rewrite Hm. simpl. unfold microtask, consume. simpl.
  rewrite (Hid id eq_refl). simpl. eexists. split; [reflexivity|]. split; [done|].
  split; [split; [by apply jmap_wf_delete|done]|]. intros k. simpl. rewrite jlookup_delete by done.
  case_decide; [subst|done]. by rewrite Hid.
Qed.
End Turn.

(** ** Witness: a store with one text, set three times *)
Definition text_options : SimpleSyncOptions string :=
  MkOptions Workflow_ (fun _ => Some "a") (fun t id => Return (Some (JStr t))) true.
Definition text_store : Store string :=
  MkStore "final" (<["a" := Insert_]> ∅) ["a"; "b"; "a"].

Lemma turn_emits_once_witness :
  (run_microtasks text_options text_store).1 = omap (emission text_options text_store) (set_of_list ["a"; "b"; "a"])
  /\ (run_microtasks text_options text_store).1 = [("a", Insert_, JStr "final")].
Proof.
  destruct (turn_emits_once text_options text_store) as [H _]; [apply jmap_wf_insert, jmap_wf_empty|].
  split; [exact H | vm_compute; reflexivity].
Defined.
