(* ===== verification/LastWriter.v ===== *)
(** * Last writer wins

    The merge rule of [upsertWorkflowFromSync] and [upsertScenarioFromSync]: an
    incoming entity replaces the stored one unless the stored one has a higher
    version, or the same version and a later [updated_at]. *)

From S2P Require Import Prelude FlowTypes JsLib.
Open Scope Z_scope.

Definition newer_meta (existing incoming : SyncMeta) : bool :=
  (version incoming <? version existing)
  || ((version existing =? version incoming) && str_gt (updated_at existing) (updated_at incoming)).

Lemma newer_meta_spec a b : newer_meta a b = true <->
  version b < version a \/ (version a = version b /\ str_gt (updated_at a) (updated_at b) = true).
Proof. unfold newer_meta. by rewrite orb_true_iff, andb_true_iff, Z.ltb_lt, Z.eqb_eq. Qed.

Lemma newer_meta_false a b : newer_meta a b = false <->
  version a < version b \/ (version a = version b /\ str_gt (updated_at a) (updated_at b) = false).
Proof.
  rewrite <- not_true_iff_false, newer_meta_spec, <- not_true_iff_false.
  destruct (str_gt _ _); lia.
Qed.

Lemma newer_meta_trans a b c : newer_meta a b = true -> newer_meta b c = true -> newer_meta a c = true.
Proof.
  rewrite !newer_meta_spec. intros [H1|[E1 G1]] [H2|[E2 G2]]; [left; lia..|].
  right. split; [lia|]. by eapply str_gt_trans.
Qed.

Lemma newer_meta_asym a b : newer_meta a b = true -> newer_meta b a = false.
Proof.
  rewrite newer_meta_spec, newer_meta_false. intros [H|[E G]]; [by left|]. right. split; [done|].
  destruct (str_gt (updated_at b) (updated_at a)) eqn:F; [|done].
  pose proof (str_gt_trans _ _ _ G F) as H. by rewrite str_gt_irrefl in H.
Qed.

Section Upsert.
Context {E : Type} (key : E -> string) (meta : E -> SyncMeta).
Implicit Types (m : jmap string E) (a b : E).

Definition upsert a m : jmap string E :=
  match m !! key a with
  | Some x => if newer_meta (meta x) (meta a) then m else <[key a := a]> m
  | None => <[key a := a]> m
  end.

Lemma upsert_lookup a m k : upsert a m !! k =
  if decide (key a = k) then
    match m !! k with
    | Some x => if newer_meta (meta x) (meta a) then Some x else Some a
    | None => Some a
    end
  else m !! k.
Proof.
  unfold upsert. destruct (decide (key a = k)) as [<-|Hk].
  - destruct (m !! key a) as [x|] eqn:Ex; [destruct (newer_meta (meta x) (meta a))|];
      rewrite ?jlookup_insert_eq; done.
  - repeat case_match; by rewrite ?jlookup_insert_ne.
Qed.

#[export] Instance upsert_proper a : Proper ((≡) ==> (≡)) (upsert a).
Proof. intros m1 m2 H k. by rewrite !upsert_lookup, H. Qed.

(** Two records of one entity whose stamps decide which is newer. *)
Definition untied a b : Prop :=
  key a = key b -> a = b \/ newer_meta (meta a) (meta b) = true \/ newer_meta (meta b) (meta a) = true.

(** What the pair leaves in the slot of a stored [x], when [a] is newer. *)
Lemma upsert_newer_cases x a b : newer_meta (meta a) (meta b) = true ->
  newer_meta (meta x) (meta a) = true -> newer_meta (meta x) (meta b) = true.
Proof. intros H1 H2. by eapply newer_meta_trans. Qed.

Lemma upsert_comm a b m : untied a b -> upsert a (upsert b m) ≡ upsert b (upsert a m).
Proof.
  intros Hu k. rewrite !upsert_lookup.
  destruct (decide (key a = k)) as [Ha|Ha], (decide (key b = k)) as [Hb|Hb]; try done.
  destruct (Hu (eq_trans Ha (eq_sym Hb))) as [->|[H|H]]; [done| |];
    pose proof (newer_meta_asym _ _ H) as H';
    destruct (m !! k) as [x|]; rewrite ?H, ?H'; try done.
  - destruct (newer_meta (meta x) (meta a)) eqn:Ea.
    + by rewrite (upsert_newer_cases _ _ _ H Ea), Ea.
    + destruct (newer_meta (meta x) (meta b)); rewrite ?Ea, ?H, ?H'; done.
  - destruct (newer_meta (meta x) (meta b)) eqn:Ea.
    + by rewrite (upsert_newer_cases _ _ _ H Ea), Ea.
    + destruct (newer_meta (meta x) (meta a)); rewrite ?Ea, ?H, ?H'; done.
Qed.

Definition upsert_all (l : list E) (m : jmap string E) : jmap string E := fold_left (fun m a => upsert a m) l m.

Lemma upsert_all_proper l : Proper ((≡) ==> (≡)) (upsert_all l).
Proof. induction l as [|a l IH]; intros m1 m2 H; [done|]. apply IH. by rewrite H. Qed.

Lemma upsert_all_perm l1 l2 m : l1 ≡ₚ l2 -> (forall a b, a ∈ l1 -> b ∈ l1 -> untied a b) ->
  upsert_all l1 m ≡ upsert_all l2 m.
Proof.
  intros Hp. revert m. induction Hp as [|x l1 l2 Hp IH|x y l|l1 l2 l3 H1 IH1 H2 IH2]; intros m Hu.
  - done.
  - apply IH. intros a b Ha Hb. apply Hu; by apply list_elem_of_further.
  - apply (upsert_all_proper l (upsert x (upsert y m)) (upsert y (upsert x m))), upsert_comm, Hu;
      rewrite !elem_of_cons; auto.
  - rewrite IH1 by done. apply IH2. intros a b. rewrite <- H1. apply Hu.
Qed.

(** Deliveries that the stored version already covers change nothing. *)
Lemma upsert_version a m x : m !! key a = Some x ->
  exists x', upsert a m !! key a = Some x' /\ version (meta x) <= version (meta x').
Proof.
  intros Hx. rewrite upsert_lookup, decide_True, Hx by done.
  destruct (newer_meta (meta x) (meta a)) eqn:En; eexists; (split; [done|]); [done|].
  apply newer_meta_false in En. lia.
Qed.
End Upsert.
