(* ===== verification/WorkflowStore.v ===== *)
(** * The workflow store: [ui-v2/src/modules/workflow/stores/workflow.store.sync.ts]

    One definition per action.  The store persists itself with zustand's
    [persist] middleware, which is outside the repository and not part of the
    state here. *)

From S2P Require Import Prelude FlowTypes SyncTypes ClientId FastQueue JsLib Json SyncService SyncMiddleware LastWriter.
Open Scope Z_scope.

Module WorkflowStore.
Record Workflow := MkWorkflow {
  wf_id : string;
  wf_projectId : string;
  wf_name : string;
  wf_description : option string;
  wf_nodes : list FlowNode;
  wf_edges : list FlowEdge;
  wf_customTestOrder : option (jmap string (list string));
  wf_provenance : option string;
  wf_meta : SyncMeta
}.

Record WorkflowState := MkState {
  workflows : jmap string Workflow;
  activeWorkflowId : option string;
  _currentEntityId : option string;
  hydrated : bool
}.

Definition initial : WorkflowState := MkState ∅ None None false.

Definition custom_order_json (m : jmap string (list string)) : JsonValue :=
  JObj (map (fun kv => (kv.1, json_strings kv.2)) (entries m)).

Definition meta_json (m : SyncMeta) : list (string * JsonValue) :=
  [("version", JNum (version m)); ("created_at", JStr (created_at m)); ("updated_at", JStr (updated_at m));
   ("user_id", JStr (user_id m)); ("client_id", JStr (client_id m)); ("is_deleted", JBool (is_deleted m))].

Definition serialize (st : WorkflowState) (entityId : string) : res (option JsonValue) :=
  match workflows st !! entityId with
  | None => Return None
  | Some wf =>
      Return (Some (json_obj [
        [("id", JStr (wf_id wf)); ("project_id", JStr (wf_projectId wf)); ("name", JStr (wf_name wf));
         ("description", JStr (ostr_or (wf_description wf) ""));
         ("nodes_config", JArr (map node_json (wf_nodes wf)));
         ("edges_config", JArr (map edge_json (wf_edges wf)));
         ("metadata", json_obj [prop "customTestOrder" custom_order_json (wf_customTestOrder wf);
                                prop "provenance" JStr (wf_provenance wf)])];
        meta_json (wf_meta wf)]))
  end.

Definition options : SimpleSyncOptions WorkflowState :=
  MkOptions Workflow_ _currentEntityId serialize true.

Definition Action := StoreM WorkflowState.
Definition set := syncSet options.

Definition setHydrated (v : bool) : Action unit :=
  set (pureSet (fun st => MkState (workflows st) (activeWorkflowId st) (_currentEntityId st) v)).

Definition createWorkflow (projectId name : string) (description : option string) : Action string :=
  id ← readHost generateId;
  m ← fromHost (addSyncMetadata no_metadata);
  let workflow := MkWorkflow id projectId name (Some (ostr_or description "")) [] [] (Some ∅) (Some "manual") m in
  trackSync id Insert_;;
  set (pureSet (fun st => MkState (<[id := workflow]> (workflows st)) (Some id) (Some id) (hydrated st)));;
  mret id.

Definition getWorkflow (id : string) (st : WorkflowState) : option Workflow := workflows st !! id.

(** [addSyncMetadata({...wf, ..., version: wf.version + 1})] under its key. *)
Definition rewritten (workflowId : string) (change : Workflow -> SyncMeta -> Workflow)
    (st : WorkflowState) (h : Host) : res WorkflowState * Host :=
  match workflows st !! workflowId with
  | None => (Return st, h)
  | Some wf =>
      let '(r, h') := addSyncMetadata (shape_of (version (wf_meta wf) + 1) (wf_meta wf)) h in
      match r with
      | Throw e => (Throw e, h')
      | Return m =>
          (Return (MkState (<[workflowId := change wf m]> (workflows st)) (activeWorkflowId st)
                     (Some workflowId) (hydrated st)), h')
      end
  end.

Definition updateWorkflowName (workflowId name : string) : Action unit :=
  trackSync workflowId Update_;;
  set (rewritten workflowId (fun wf m =>
    MkWorkflow (wf_id wf) (wf_projectId wf) name (wf_description wf) (wf_nodes wf) (wf_edges wf)
      (wf_customTestOrder wf) (wf_provenance wf) m)).

Definition updateWorkflowGraph (workflowId : string) (nodes : list FlowNode) (edges : list FlowEdge)
    (customTestOrder : option (jmap string (list string))) : Action unit :=
  trackSync workflowId Update_;;
  set (rewritten workflowId (fun wf m =>
    let testOrderRecord := match customTestOrder with
                           | Some o => jmap_of_pairs (entries o)
                           | None => default ∅ (wf_customTestOrder wf)
                           end in
    MkWorkflow (wf_id wf) (wf_projectId wf) (wf_name wf) (wf_description wf) nodes edges
      (Some testOrderRecord) (wf_provenance wf) m)).

Definition deleteWorkflow (id : string) : Action unit :=
  trackSync id Delete_;;
  set (fun st h =>
    match workflows st !! id with
    | None => (Return st, h)
    | Some wf =>
        let wf' := MkWorkflow (wf_id wf) (wf_projectId wf) (wf_name wf) (wf_description wf) (wf_nodes wf)
                     (wf_edges wf) (wf_customTestOrder wf) (wf_provenance wf) (markAsDeleted (wf_meta wf) h) in
        (Return (MkState (<[id := wf']> (workflows st))
                   (if decide (activeWorkflowId st = Some id) then None else activeWorkflowId st)
                   (Some id) (hydrated st)), h)
    end).

Definition setActiveWorkflow (id : option string) : Action unit :=
  set (pureSet (fun st => MkState (workflows st) id (_currentEntityId st) (hydrated st))).

Definition upsert_state (workflow : Workflow) (st : WorkflowState) : WorkflowState :=
  match workflows st !! wf_id workflow with
  | Some existing =>
      if newer_meta (wf_meta existing) (wf_meta workflow) then st
      else MkState (<[wf_id workflow := workflow]> (workflows st)) (activeWorkflowId st) (_currentEntityId st) (hydrated st)
  | None => MkState (<[wf_id workflow := workflow]> (workflows st)) (activeWorkflowId st) (_currentEntityId st) (hydrated st)
  end.

Definition upsertWorkflowFromSync (workflow : Workflow) : Action unit := set (pureSet (upsert_state workflow)).

Definition replace_state (workflow : Workflow) (st : WorkflowState) : WorkflowState :=
  MkState (<[wf_id workflow := workflow]> (workflows st)) (activeWorkflowId st) (_currentEntityId st) (hydrated st).

Definition replaceWorkflowFromSync (workflow : Workflow) : Action unit := set (pureSet (replace_state workflow)).

(** ** Edits reach the queue *)
Section Edits.
Context `{D : Deque SyncChange}.
Implicit Types (w : World).

Lemma serialize_version st id wf : workflows st !! id = Some wf ->
  exists d, serialize st id = Return (Some d) /\ serializedVersion d = version (wf_meta wf)
    /\ isDeletedPayload d = is_deleted (wf_meta wf).
Proof.
  intros E. unfold serialize. rewrite E. eexists. split; [reflexivity|].
  unfold json_obj, serializedVersion, isDeletedPayload. simpl. by destruct (is_deleted (wf_meta wf)).
Qed.

Lemma next_meta m h u : getUserId h = Return u -> 0 <= version m ->
  exists h' m', addSyncMetadata (shape_of (version m + 1) m) h = (Return m', h')
    /\ version m' = version m + 1 /\ is_deleted m' = is_deleted m /\ user_id m' = u
    /\ updated_at m' = nowIso h.
Proof.
  intros Hu Hv. unfold addSyncMetadata. rewrite Hu. destruct (getOrCreateClientId h) as [cid h'].
  do 2 eexists. split; [reflexivity|]. simpl. unfold num_or.
  by rewrite (proj2 (Z.eqb_neq (version m + 1) 0)) by lia.
Qed.

(** The graph edit of a stored workflow. *)
Definition edited (nodes : list FlowNode) (edges : list FlowEdge)
    (order : option (jmap string (list string))) (wf : Workflow) (m : SyncMeta) : Workflow :=
  let testOrderRecord := match order with
                         | Some o => jmap_of_pairs (entries o)
                         | None => default ∅ (wf_customTestOrder wf)
                         end in
  MkWorkflow (wf_id wf) (wf_projectId wf) (wf_name wf) (wf_description wf) nodes edges
    (Some testOrderRecord) (wf_provenance wf) m.

(** Saving a workflow's graph is synchronised: with a signed-in user and nothing pending
    on the workflow, the store holds the new graph one version up, and the
    turn queues exactly one change, an update whose payload is the stored
    workflow and whose base version is the version before the edit. *)
Theorem graph_edit_reaches_queue id nodes edges order s w wf u :
  idle s -> pendingOps s !! id = None -> workflows (state s) !! id = Some wf -> id <> "" ->
  getUserId (host w) = Return u -> 0 <= version (wf_meta wf) ->
  exists s' m d h', turn options (updateWorkflowGraph id nodes edges order) s w
      = (Return tt, s', queueChange Workflow_ id Update_ d (set_host h' w))
    /\ workflows (state s') !! id = Some (edited nodes edges order wf m)
    /\ version m = version (wf_meta wf) + 1
    /\ serialize (state s') id = Return (Some d)
    /\ client_version (fullChange Workflow_ id Update_ d h') = version (wf_meta wf)
    /\ idle s' /\ pendingOps s' !! id = None.
Proof.
  intros Hi Hp Hwf Hne Hu Hv.
  destruct (next_meta (wf_meta wf) (host w) u Hu Hv) as (h' & m & Em & Hver & _).
  set (st' := MkState (<[id := edited nodes edges order wf m]> (workflows (state s))) (activeWorkflowId (state s))
                (Some id) (hydrated (state s))).
  assert (Hl : workflows st' !! id = Some (edited nodes edges order wf m)) by apply jlookup_insert_eq.
  destruct (serialize_version st' id _ Hl) as (d & Ed & Hd & _).
  destruct (turn_tracked_set options id Update_ (rewritten id (edited nodes edges order)) s w st' h' d)
    as (s' & Et & Hs & Hi' & Hp'); try done.
  { unfold rewritten. by rewrite Hwf, Em. }
  exists s', m, d, h'. rewrite Hp in Et. split; [exact Et|]. rewrite Hs. split; [done|]. split; [done|].
  split; [done|]. split; [|done]. simpl. rewrite Hd. simpl. lia.
Qed.

(** An edit without a signed-in user throws and leaves the workflows as they were, but
    its operation stays tracked. *)
Theorem edit_without_user id nodes edges order s w wf e :
  idle s -> workflows (state s) !! id = Some wf -> getUserId (host w) = Throw e ->
  turn options (updateWorkflowGraph id nodes edges order) s w
  = (Throw e, MkStore (state s) (track id Update_ (pendingOps s)) [], w).
Proof.
  intros Hi Hwf Hu. unfold updateWorkflowGraph, set.
  rewrite (turn_tracked_throw options id Update_ _ s w e (host w) Hi); [by destruct w|].
  unfold rewritten. rewrite Hwf. unfold addSyncMetadata. by rewrite Hu.
Qed.

(** Deleting a workflow the store does not hold poisons its next edit: the delete stays
    tracked, and when the workflow has arrived from the server the first
    rename of it is queued as a delete although the payload is not deleted. *)
Theorem stale_delete_poisons_edit id name wf s w u :
  idle s -> pendingOps s = ∅ -> workflows (state s) !! id = None -> id <> "" -> wf_id wf = id ->
  _currentEntityId (state s) = None -> is_deleted (wf_meta wf) = false ->
  getUserId (host w) = Return u -> 0 <= version (wf_meta wf) ->
  exists s1 s2 s3 d h', turn options (deleteWorkflow id) s w = (Return tt, s1, w)
    /\ turn options (replaceWorkflowFromSync wf) s1 w = (Return tt, s2, w)
    /\ turn options (updateWorkflowName id name) s2 w
       = (Return tt, s3, queueChange Workflow_ id Delete_ d (set_host h' w))
    /\ isDeletedPayload d = false.
Proof.
  intros Hi Hp Hwf Hne <- Hcur Hdel Hu Hv. set (id := wf_id wf) in *.
  set (s1 := MkStore (state s) (track id Delete_ (pendingOps s)) []).
  assert (Hs1 : idle s1) by (split; [apply jmap_wf_insert, Hi|done]).
  assert (E1 : turn options (deleteWorkflow id) s w = (Return tt, s1, w)).
  { unfold turn, deleteWorkflow, mbind, StoreM_bind, trackSync, set, syncSet. simpl. rewrite Hwf. simpl.
    rewrite Hcur. simpl. rewrite (proj2 Hi). by destruct w. }
  set (st2 := MkState (<[wf_id wf := wf]> (workflows (state s))) (activeWorkflowId (state s))
                (_currentEntityId (state s)) (hydrated (state s))).
  destruct (turn_untracked_set options (pureSet (fun _ => st2)) s1 w st2 (host w) Hs1 eq_refl)
    as (s2 & E2 & Hs2 & Hi2 & Hp2); [simpl; by rewrite Hcur|].
  destruct (next_meta (wf_meta wf) (host w) u Hu Hv) as (h' & m & Em & Hver & Hd & _).
  set (wf3 := MkWorkflow (wf_id wf) (wf_projectId wf) name (wf_description wf) (wf_nodes wf) (wf_edges wf)
                (wf_customTestOrder wf) (wf_provenance wf) m).
  set (st3 := MkState (<[id := wf3]> (workflows st2)) (activeWorkflowId st2) (Some id) (hydrated st2)).
  destruct (serialize_version st3 id wf3 (jlookup_insert_eq _ _ _)) as (d & Ed & _ & Hdd).
  destruct (turn_tracked_set options id Update_ (rewritten id (fun wf m =>
    MkWorkflow (wf_id wf) (wf_projectId wf) name (wf_description wf) (wf_nodes wf) (wf_edges wf)
      (wf_customTestOrder wf) (wf_provenance wf) m)) s2 w st3 h' d) as (s3 & E3 & _); try done.
  { unfold rewritten. rewrite Hs2. simpl. by rewrite jlookup_insert_eq, Em. }
  exists s1, s2, s3, d, h'. split; [done|]. split; [destruct w; exact E2|].
  rewrite Hp2 in E3. simpl in E3. unfold track in E3. rewrite Hp, jlookup_insert_eq in E3.
  split; [exact E3|]. rewrite Hdd. simpl. congruence.
Qed.
End Edits.

(** ** Convergence of deliveries *)
Lemma upsert_state_workflows wf st :
  workflows (upsert_state wf st) = upsert wf_id wf_meta wf (workflows st).
Proof. unfold upsert_state, upsert. by repeat case_match. Qed.

Definition deliver (l : list Workflow) (st : WorkflowState) : WorkflowState :=
  fold_left (fun st wf => upsert_state wf st) l st.

Lemma deliver_workflows l st : workflows (deliver l st) = upsert_all wf_id wf_meta l (workflows st).
Proof.
  revert st; induction l as [|wf l IH]; intros st; [done|]. simpl. by rewrite IH, upsert_state_workflows.
Qed.

(** C39: stores converge: workflows delivered from the server in any order leave the same
    workflows, as long as two deliveries of one workflow differ in version or
    time stamp or are the same; no delivery lowers a stored version. *)
Theorem workflow_deliveries_converge l1 l2 st : l1 ≡ₚ l2 ->
  (forall a b, a ∈ l1 -> b ∈ l1 -> untied wf_id wf_meta a b) ->
  workflows (deliver l1 st) ≡ workflows (deliver l2 st)
  /\ forall id wf, workflows st !! id = Some wf ->
       exists wf', workflows (deliver l1 st) !! id = Some wf' /\ version (wf_meta wf) <= version (wf_meta wf').
Proof.
  intros Hp Hu. rewrite !deliver_workflows. split; [by apply upsert_all_perm|].
  generalize (workflows st). clear. induction l1 as [|a l IH]; intros m id wf Hwf; simpl; [exists wf; split; [done|lia]|].
  assert (H : exists x, upsert wf_id wf_meta a m !! id = Some x /\ version (wf_meta wf) <= version (wf_meta x)).
  { destruct (decide (wf_id a = id)) as [<-|Hne]; [by apply upsert_version|].
    exists wf. by rewrite upsert_lookup, decide_False. }
  destruct H as (x & Hx & Hle). destruct (IH _ _ _ Hx) as (y & Hy & Hle'). exists y. split; [done|lia].
Qed.

(** ** Witnesses *)
#[local] Existing Instance FastQueue.fast_queue_deque.

Definition demo_meta (v : Z) : SyncMeta := MkMeta v "t0" "t1" "user-1" "client-1" false.
Definition demo_workflow (v : Z) : Workflow :=
  MkWorkflow "w1" "p1" "Demo" None [] [] None None (demo_meta v).
Definition demo_store : Store WorkflowState :=
  MkStore (MkState (<["w1" := demo_workflow 3]> ∅) None None true) ∅ [].
Definition empty_store : Store WorkflowState := MkStore initial ∅ [].
Definition demo_browser (h : Host) : World :=
  MkWorld (MkService "" (dq_new 4) 3000 100 8000 None true 0) h SlotMissing [].

Lemma graph_edit_reaches_queue_witness : exists s' m d h',
  turn options (updateWorkflowGraph "w1" [] [] None) demo_store (demo_browser sample_host)
    = (Return tt, s', queueChange Workflow_ "w1" Update_ d (set_host h' (demo_browser sample_host)))
  /\ version m = 4 /\ client_version (fullChange Workflow_ "w1" Update_ d h') = 3.
Proof.
  destruct (graph_edit_reaches_queue "w1" [] [] None demo_store (demo_browser sample_host) (demo_workflow 3) "user-1")
    as (s' & m & d & h' & H & _ & Hm & _ & Hc & _);
    [split; [constructor | reflexivity] | reflexivity | reflexivity | discriminate | reflexivity | simpl; lia |].
  exists s', m, d, h'. split; [exact H | split; [exact Hm | exact Hc]].
Defined.

Lemma edit_without_user_witness :
  turn options (updateWorkflowGraph "w1" [] [] None) demo_store (demo_browser (clearAuth sample_host))
  = (Throw (JsError "No authenticated session user is available."),
     MkStore (state demo_store) (track "w1" Update_ ∅) [], demo_browser (clearAuth sample_host)).
Proof.
  apply (edit_without_user "w1" [] [] None demo_store (demo_browser (clearAuth sample_host)) (demo_workflow 3));
    [split; [constructor | reflexivity] | reflexivity | vm_compute; reflexivity].
Defined.

Lemma stale_delete_poisons_edit_witness : exists s2 s3 d h',
  turn options (updateWorkflowName "w1" "Renamed") s2 (demo_browser sample_host)
    = (Return tt, s3, queueChange Workflow_ "w1" Delete_ d (set_host h' (demo_browser sample_host)))
  /\ isDeletedPayload d = false.
Proof.
  destruct (stale_delete_poisons_edit "w1" "Renamed" (demo_workflow 3) empty_store (demo_browser sample_host) "user-1")
    as (s1 & s2 & s3 & d & h' & _ & _ & H & Hd);
    [split; [constructor | reflexivity] | reflexivity | reflexivity | discriminate | reflexivity | reflexivity
    | reflexivity | reflexivity | simpl; lia |].
  exists s2, s3, d, h'. split; [exact H | exact Hd].
Defined.

Lemma workflow_deliveries_converge_witness :
  workflows (deliver [demo_workflow 5; demo_workflow 4] (state demo_store))
  ≡ workflows (deliver [demo_workflow 4; demo_workflow 5] (state demo_store)).
Proof.
  apply workflow_deliveries_converge; [constructor|].
  intros a b Ha Hb. rewrite !elem_of_cons in *.
  repeat match goal with H : _ \/ _ |- _ => destruct H | H : _ ∈ [] |- _ => by apply elem_of_nil in H end;
    subst; intros _; vm_compute; auto.
Defined.
End WorkflowStore.
