(* ===== verification/ScenarioStore.v ===== *)
(** * The scenario store: [ui-v2/src/modules/workflow/stores/scenario.store.sync.ts]

    [localeCompare] is the platform's collation: a parameter of the queries
    that sort by it.  A property set to [null] or [undefined] in
    [activeScenarioIdByWorkflow] is [None]. *)

From S2P Require Import Prelude FlowTypes SyncTypes ClientId FastQueue JsLib Json SyncService SyncMiddleware LastWriter WorkflowStore.
Open Scope Z_scope.

Module ScenarioStore.
Record ScenarioState := MkState {
  scenarios : jmap string Scenario;
  activeScenarioIdByWorkflow : jmap string (option string);
  _currentEntityId : option string
}.

Definition initial : ScenarioState := MkState ∅ ∅ None.

Definition deriveOrder (tests : list ScenarioTestDefinition) (order : option (list string)) : list string :=
  let existing := match order with
                  | Some o => filter (fun id => existsb (fun t => bool_decide (test_id t = id)) tests = true) o
                  | None => []
                  end in
  let missing := filter (fun id => negb (bool_decide (id ∈ existing)) = true) (map test_id tests) in
  existing ++ missing.

Definition serialize (st : ScenarioState) (entityId : string) : res (option JsonValue) :=
  match scenarios st !! entityId with
  | None => Return None
  | Some sc =>
      Return (Some (json_obj [
        [("id", JStr (scn_id sc)); ("project_id", JStr (scn_projectId sc));
         ("workflow_id", JStr (scn_workflowId sc)); ("name", JStr (scn_name sc));
         ("description", JStr (ostr_or (scn_description sc) ""));
         ("tests_config", JArr (map test_json (scn_tests sc)));
         ("test_order", json_strings (scn_testOrder sc)); ("metadata", JObj [])];
        WorkflowStore.meta_json (scn_meta sc)]))
  end.

Definition options : SimpleSyncOptions ScenarioState := MkOptions Scenario_ _currentEntityId serialize true.

Definition Action := StoreM ScenarioState.
Definition set := syncSet options.

(** [workflowStore] is the state of the workflow store at the call. *)
Definition createScenario (workflowStore : WorkflowStore.WorkflowState) (workflowId : string)
    (name : option string) : Action string :=
  id ← readHost generateId;
  let projectId := match WorkflowStore.getWorkflow workflowId workflowStore with
                   | Some wf => WorkflowStore.wf_projectId wf | None => "" end in
  m ← fromHost (addSyncMetadata no_metadata);
  let scenario := MkScenario id projectId workflowId (default "New Scenario" name) (Some "") [] [] m in
  trackSync id Insert_;;
  set (pureSet (fun st => MkState (<[id := scenario]> (scenarios st))
                            (<[workflowId := Some id]> (activeScenarioIdByWorkflow st)) (Some id)));;
  mret id.

(** [Partial<Pick<Scenario, "name" | "description" | "tests" | "testOrder">>]. *)
Record Updates := MkUpdates {
  up_name : option string;
  up_description : option (option string);
  up_tests : option (list ScenarioTestDefinition);
  up_testOrder : option (list string)
}.

Definition apply_updates (u : Updates) (current : Scenario) (m : SyncMeta) : Scenario :=
  let nextTests := default (scn_tests current) (up_tests u) in
  let nextOrder := deriveOrder nextTests (Some (default (scn_testOrder current) (up_testOrder u))) in
  MkScenario (scn_id current) (scn_projectId current) (scn_workflowId current)
    (default (scn_name current) (up_name u)) (default (scn_description current) (up_description u))
    nextTests nextOrder m.

Definition update_state (scenarioId : string) (u : Updates) (st : ScenarioState) (h : Host)
    : res ScenarioState * Host :=
  match scenarios st !! scenarioId with
  | None => (Return st, h)
  | Some current =>
      let '(r, h') := addSyncMetadata (shape_of (version (scn_meta current) + 1) (scn_meta current)) h in
      match r with
      | Throw e => (Throw e, h')
      | Return m =>
          (Return (MkState (<[scenarioId := apply_updates u current m]> (scenarios st))
                     (activeScenarioIdByWorkflow st) (Some scenarioId)), h')
      end
  end.

Definition updateScenario (scenarioId : string) (u : Updates) : Action unit :=
  st ← getState;
  match scenarios st !! scenarioId with
  | None => mret tt
  | Some _ => trackSync scenarioId Update_;; set (update_state scenarioId u)
  end.

Definition deleteScenario (scenarioId : string) : Action unit :=
  st ← getState;
  match scenarios st !! scenarioId with
  | None => mret tt
  | Some scenario =>
      trackSync scenarioId Delete_;;
      set (fun st h =>
        match scenarios st !! scenarioId with
        | None => (Throw JsTypeError, h)
        | Some sc =>
            let sc' := MkScenario (scn_id sc) (scn_projectId sc) (scn_workflowId sc) (scn_name sc)
                         (scn_description sc) (scn_tests sc) (scn_testOrder sc) (markAsDeleted (scn_meta sc) h) in
            let active := default None (activeScenarioIdByWorkflow st !! scn_workflowId scenario) in
            (Return (MkState (<[scenarioId := sc']> (scenarios st))
               (<[scn_workflowId scenario := if decide (active = Some scenarioId) then None else active]>
                  (activeScenarioIdByWorkflow st)) (Some scenarioId)), h)
        end)
  end.

Definition setActiveScenario (workflowId : string) (scenarioId : option string) : Action unit :=
  set (pureSet (fun st => MkState (scenarios st) (<[workflowId := scenarioId]> (activeScenarioIdByWorkflow st))
                            (_currentEntityId st))).

Definition getScenario (scenarioId : string) (st : ScenarioState) : option Scenario := scenarios st !! scenarioId.

Definition keep_active (scenario : Scenario) (st : ScenarioState) : jmap string (option string) :=
  let active := default None (activeScenarioIdByWorkflow st !! scn_workflowId scenario) in
  <[scn_workflowId scenario := Some (default (scn_id scenario) active)]> (activeScenarioIdByWorkflow st).

Definition upsert_state (scenario : Scenario) (st : ScenarioState) : ScenarioState :=
  let replaced := MkState (<[scn_id scenario := scenario]> (scenarios st)) (keep_active scenario st)
                    (_currentEntityId st) in
  match scenarios st !! scn_id scenario with
  | Some existing => if newer_meta (scn_meta existing) (scn_meta scenario) then st else replaced
  | None => replaced
  end.

Definition upsertScenarioFromSync (scenario : Scenario) : Action unit := set (pureSet (upsert_state scenario)).

Definition replace_state (scenario : Scenario) (st : ScenarioState) : ScenarioState :=
  MkState (<[scn_id scenario := scenario]> (scenarios st)) (keep_active scenario st) (_currentEntityId st).

Definition replaceScenarioFromSync (scenario : Scenario) : Action unit := set (pureSet (replace_state scenario)).

Section Queries.
Context (localeCompare : string -> string -> Z).

Definition getScenariosByWorkflow (workflowId : string) (st : ScenarioState) : list Scenario :=
  js_sort (fun left right => localeCompare (updated_at (scn_meta right)) (updated_at (scn_meta left)))
    (filter (fun sc => scn_workflowId sc = workflowId /\ is_deleted (scn_meta sc) = false) (jvalues (scenarios st))).

Definition getActiveScenarioForWorkflow (workflowId : string) (st : ScenarioState) : option Scenario :=
  match default None (activeScenarioIdByWorkflow st !! workflowId) with
  | Some activeId =>
      if str_truthy activeId then scenarios st !! activeId
      else head (getScenariosByWorkflow workflowId st)
  | None => head (getScenariosByWorkflow workflowId st)
  end.
End Queries.

(** ** Test order *)
Lemma derive_valid tests id :
  existsb (fun t => bool_decide (test_id t = id)) tests = true <-> id ∈ map test_id tests.
Proof.
  rewrite existsb_exists, list_elem_of_In, in_map_iff.
  split; intros (t & H1 & H2); exists t; bools; auto using bool_decide_eq_true_2.
Qed.

Lemma derive_split tests order : deriveOrder tests (Some order) =
  filter (fun id => id ∈ map test_id tests) order ++ filter (fun id => id ∉ order) (map test_id tests).
Proof.
  unfold deriveOrder.
  rewrite (list_filter_iff _ (fun id => id ∈ map test_id tests) order) by (intros; apply derive_valid).
  f_equal. apply filter_ext_in. intros id Hid.
  rewrite negb_true_iff, bool_decide_eq_false, list_elem_of_filter. tauto.
Qed.

Lemma derived_order_elem tests order id :
  id ∈ deriveOrder tests (Some order) <-> id ∈ map test_id tests.
Proof. rewrite derive_split. apply completed_elem. Qed.

(** A scenario's test order always covers its tests: the derived order keeps the
    requested order of the tests that exist, appends the others in the order
    they are defined, and, when ids are distinct, is a permutation of the test ids. *)
Theorem derive_order_covers tests order :
  deriveOrder tests (Some order) =
    filter (fun id => id ∈ map test_id tests) order ++ filter (fun id => id ∉ order) (map test_id tests)
  /\ (forall id, id ∈ deriveOrder tests (Some order) <-> id ∈ map test_id tests)
  /\ (NoDup order -> NoDup (map test_id tests) -> deriveOrder tests (Some order) ≡ₚ map test_id tests).
Proof.
  split; [apply derive_split|]. split; [apply derived_order_elem|].
  intros Ho Ht. rewrite derive_split. by apply completed_perm.
Qed.

(** ** Edits reach the queue *)
Section Edits.
Context `{D : Deque SyncChange}.
Implicit Types (w : World).

Lemma scenario_serialize_version st id sc : scenarios st !! id = Some sc ->
  exists d, serialize st id = Return (Some d) /\ serializedVersion d = version (scn_meta sc)
    /\ isDeletedPayload d = is_deleted (scn_meta sc).
Proof.
  intros E. unfold serialize. rewrite E. eexists. split; [reflexivity|].
  unfold json_obj, serializedVersion, isDeletedPayload. simpl. by destruct (is_deleted (scn_meta sc)).
Qed.

(** Editing a scenario is synchronised: the store holds the edited scenario one version
    up, with a test order that covers its tests, and the turn queues exactly
    one change, an update based on the version before; editing an unknown
    scenario does nothing at all. *)
Theorem scenario_edit_reaches_queue id u s w user :
  idle s -> pendingOps s !! id = None -> id <> "" -> getUserId (host w) = Return user ->
  match scenarios (state s) !! id with
  | None => turn options (updateScenario id u) s w = (Return tt, s, w)
  | Some sc => 0 <= version (scn_meta sc) ->
      exists s' m d h', turn options (updateScenario id u) s w
          = (Return tt, s', queueChange Scenario_ id Update_ d (set_host h' w))
        /\ scenarios (state s') !! id = Some (apply_updates u sc m)
        /\ version m = version (scn_meta sc) + 1
        /\ serialize (state s') id = Return (Some d)
        /\ client_version (fullChange Scenario_ id Update_ d h') = version (scn_meta sc)
        /\ (forall t, t ∈ scn_testOrder (apply_updates u sc m) <->
                     t ∈ map test_id (scn_tests (apply_updates u sc m)))
  end.
Proof.
  intros Hi Hp Hne Hu. destruct (scenarios (state s) !! id) as [sc|] eqn:Hsc.
  - intros Hv. destruct (WorkflowStore.next_meta (scn_meta sc) (host w) user Hu Hv) as (h' & m & Em & Hver & _).
    set (st' := MkState (<[id := apply_updates u sc m]> (scenarios (state s)))
                  (activeScenarioIdByWorkflow (state s)) (Some id)).
    assert (Hl : scenarios st' !! id = Some (apply_updates u sc m)) by apply jlookup_insert_eq.
    destruct (scenario_serialize_version st' id _ Hl) as (d & Ed & Hd & _).
    destruct (turn_tracked_set options id Update_ (update_state id u) s w st' h' d)
      as (s' & Et & Hs & _ & _); try done.
    { unfold update_state. by rewrite Hsc, Em. }
    exists s', m, d, h'. rewrite Hp in Et. split.
    { etransitivity; [|exact Et]. unfold turn, updateScenario, getState, mbind, StoreM_bind. cbn [fst snd].
      by rewrite Hsc. }
    rewrite Hs. do 3 (split; [done|]). split; [simpl; rewrite Hd; simpl; lia|].
    intros t. apply derived_order_elem.
  - unfold turn, updateScenario, getState, mbind, StoreM_bind. cbn [fst snd]. rewrite Hsc. simpl.
    destruct s as [st ops mt]; destruct Hi as [_ Hm]; simpl in *; subst mt. by destruct w.
Qed.
End Edits.

(** ** Deliveries *)
Lemma upsert_state_scenarios sc st :
  scenarios (upsert_state sc st) = upsert scn_id scn_meta sc (scenarios st).
Proof. unfold upsert_state, upsert. by repeat case_match. Qed.

(** A deletion that arrives from the server does not clear the active scenario: the
    deleted scenario stays the active one of its workflow, although the list
    of the workflow's scenarios no longer shows it. *)
Theorem remote_delete_stays_active localeCompare st sc incoming : scn_id incoming <> "" ->
  scenarios st !! scn_id incoming = Some sc ->
  newer_meta (scn_meta sc) (scn_meta incoming) = false -> is_deleted (scn_meta incoming) = true ->
  default None (activeScenarioIdByWorkflow st !! scn_workflowId incoming) = Some (scn_id incoming) ->
  let st' := upsert_state incoming st in
  getActiveScenarioForWorkflow localeCompare (scn_workflowId incoming) st' = Some incoming
  /\ incoming ∉ getScenariosByWorkflow localeCompare (scn_workflowId incoming) st'.
Proof.
  intros Hne Hsc Hnew Hdel Hact. unfold upsert_state, keep_active. rewrite Hsc, Hnew, Hact. simpl. split.
  - unfold getActiveScenarioForWorkflow. simpl. rewrite jlookup_insert_eq. simpl.
    rewrite (proj2 (str_truthy_spec _) Hne). apply jlookup_insert_eq.
  - unfold getScenariosByWorkflow. rewrite elem_of_js_sort, list_elem_of_filter. intros [[_ H] _]. congruence.
Qed.

(** ** Witnesses *)
#[local] Existing Instance FastQueue.fast_queue_deque.

Definition demo_scenario (deleted : bool) : Scenario :=
  MkScenario "s1" "p1" "w1" "Demo" None [plain_test "t1" "First" THttp []] ["t1"]
    (MkMeta 2 "t0" "t1" "user-1" "client-1" deleted).
Definition demo_state : ScenarioState :=
  MkState (<["s1" := demo_scenario false]> ∅) (<["w1" := Some "s1"]> ∅) None.
Definition demo_updates : Updates :=
  MkUpdates None None (Some [plain_test "t2" "Second" THttp []; plain_test "t1" "First" THttp []]) None.

Lemma scenario_edit_reaches_queue_witness : exists s' m d h',
  turn options (updateScenario "s1" demo_updates) (MkStore demo_state ∅ []) (WorkflowStore.demo_browser sample_host)
    = (Return tt, s', queueChange Scenario_ "s1" Update_ d (set_host h' (WorkflowStore.demo_browser sample_host)))
  /\ version m = 3 /\ scn_testOrder (apply_updates demo_updates (demo_scenario false) m) = ["t1"; "t2"].
Proof.
  destruct (scenario_edit_reaches_queue "s1" demo_updates (MkStore demo_state ∅ [])
    (WorkflowStore.demo_browser sample_host) "user-1") as (s' & m & d & h' & H & _ & Hm & _);
    [split; [constructor | reflexivity] | reflexivity | discriminate | reflexivity | simpl; lia |].
  exists s', m, d, h'. split; [exact H | split; [exact Hm | reflexivity]].
Defined.

Lemma remote_delete_stays_active_witness :
  getActiveScenarioForWorkflow (fun _ _ => 0) "w1" (upsert_state (demo_scenario true) demo_state)
  = Some (demo_scenario true).
Proof.
  apply (remote_delete_stays_active (fun _ _ => 0) demo_state (demo_scenario false) (demo_scenario true));
    [discriminate | reflexivity | reflexivity | reflexivity | reflexivity].
Defined.
End ScenarioStore.
