(* ===== verification/ExecutionStore.v ===== *)
(** * The execution store: [ui-v2/src/modules/workflow/stores/execution.store.sync.ts]

    Workflow runs as the browser tracks them.  Results and time estimates are
    JSON values; times are milliseconds. *)

From S2P Require Import Prelude FlowTypes SyncTypes ClientId FastQueue JsLib Json SyncService SyncMiddleware RunEvents WorkflowStore.
Open Scope Z_scope.

Module ExecutionStore.
Record QueueInfo := MkQueueInfo {
  qi_position : option Z;
  qi_queuedAt : option string;
  qi_workerConcurrency : option Z;
  qi_estimatedRun : option JsonValue;
  qi_estimatedWait : option JsonValue;
  qi_estimatedTotal : option JsonValue
}.

Definition no_queue_info : QueueInfo := MkQueueInfo None None None None None None.

(** The six queue properties of an execution are grouped in [ex_queue]. *)
Record WorkflowExecution := MkExecution {
  ex_workflowRunId : string;
  ex_projectId : string;
  ex_workflowId : string;
  ex_status : WorkflowRunStatus;
  ex_logs : list string;
  ex_result : option JsonValue;
  ex_error : option string;
  ex_startedAt : Z;
  ex_finishedAt : option Z;
  ex_scenarioRunIds : list string;
  ex_lastEventId : option string;
  ex_queue : QueueInfo;
  ex_meta : SyncMeta
}.

Record ExecutionState := MkState {
  executions : jmap string WorkflowExecution;
  activeWorkflowRunId : option string;
  _currentEntityId : option string
}.

Definition initial : ExecutionState := MkState ∅ None None.

Definition serialize (st : ExecutionState) (entityId : string) : res (option JsonValue) :=
  match executions st !! entityId with
  | None => Return None
  | Some ex =>
      started ← toISOString (ex_startedAt ex);
      completed ← match ex_finishedAt ex with
                  | Some t => if t =? 0 then Return JNull else JStr <$> toISOString t
                  | None => Return JNull
                  end;
      Return (Some (json_obj [
        [("id", JStr (ex_workflowRunId ex)); ("project_id", JStr (ex_projectId ex));
         ("workflow_id", JStr (ex_workflowId ex)); ("status", JStr (workflow_status_name (ex_status ex)))];
        prop "summary" json_id (ex_result ex);
        [("logs", json_strings (ex_logs ex)); ("error", JStr (ostr_or (ex_error ex) ""));
         ("started_at", JStr started); ("completed_at", completed);
         ("metadata", JObj [("scenario_run_ids", json_strings (ex_scenarioRunIds ex))])];
        WorkflowStore.meta_json (ex_meta ex)]))
  end.

Definition options : SimpleSyncOptions ExecutionState := MkOptions WorkflowRun_ _currentEntityId serialize true.

Definition Action := StoreM ExecutionState.
Definition set := syncSet options.

Definition startExecution (projectId workflowId workflowRunId : string) (scenarioRunIds : list string)
    : Action unit :=
  now ← readHost nowMs;
  m ← fromHost (addSyncMetadata no_metadata);
  let execution := MkExecution workflowRunId projectId workflowId WPending [] None None now None
                     scenarioRunIds None no_queue_info m in
  trackSync workflowRunId Insert_;;
  set (pureSet (fun st => MkState (<[workflowRunId := execution]> (executions st))
                            (Some workflowRunId) (Some workflowRunId))).

(** The shape shared by the updates the runner drives: they bump the version. *)
Definition rewritten (workflowRunId : string) (change : WorkflowExecution -> SyncMeta -> Host -> WorkflowExecution)
    (st : ExecutionState) (h : Host) : res ExecutionState * Host :=
  match executions st !! workflowRunId with
  | None => (Return st, h)
  | Some ex =>
      let '(r, h') := addSyncMetadata (shape_of (version (ex_meta ex) + 1) (ex_meta ex)) h in
      match r with
      | Throw e => (Throw e, h')
      | Return m =>
          (Return (MkState (<[workflowRunId := change ex m h]> (executions st)) (activeWorkflowRunId st)
                     (Some workflowRunId)), h')
      end
  end.

Definition append_log (message : string) (ex : WorkflowExecution) (m : SyncMeta) (h : Host) : WorkflowExecution :=
  MkExecution (ex_workflowRunId ex) (ex_projectId ex) (ex_workflowId ex) (ex_status ex)
    (slice_last 500 (ex_logs ex ++ [message])) (ex_result ex) (ex_error ex) (ex_startedAt ex)
    (ex_finishedAt ex) (ex_scenarioRunIds ex) (ex_lastEventId ex) (ex_queue ex) m.

Definition appendLog (workflowRunId message : string) : Action unit :=
  set (rewritten workflowRunId (append_log message)).

Definition failExecution (workflowRunId error : string) : Action unit :=
  set (rewritten workflowRunId (fun ex m h =>
    MkExecution (ex_workflowRunId ex) (ex_projectId ex) (ex_workflowId ex) WFailed (ex_logs ex)
      (ex_result ex) (Some error) (ex_startedAt ex) (Some (nowMs h)) (ex_scenarioRunIds ex)
      (ex_lastEventId ex) (ex_queue ex) m)).

Definition with_status (status : WorkflowRunStatus) (result : option JsonValue) (error : option string)
    (ex : WorkflowExecution) (m : SyncMeta) (h : Host) : WorkflowExecution :=
  MkExecution (ex_workflowRunId ex) (ex_projectId ex) (ex_workflowId ex) status (ex_logs ex)
    (match json_present result with Some r => Some r | None => ex_result ex end)
    (match error with Some e => Some e | None => ex_error ex end)
    (ex_startedAt ex)
    (if isWorkflowRunActive (Some status) then ex_finishedAt ex else Some (nowMs h))
    (ex_scenarioRunIds ex) (ex_lastEventId ex) (ex_queue ex) m.

Definition updateExecutionStatus (workflowRunId : string) (status : WorkflowRunStatus)
    (result : option JsonValue) (error : option string) : Action unit :=
  set (rewritten workflowRunId (with_status status result error)).

Definition completeExecution (workflowRunId : string) (result : option JsonValue) : Action unit :=
  updateExecutionStatus workflowRunId WCompleted result None.

Definition cursor_state (workflowRunId eventId : string) (st : ExecutionState) : ExecutionState :=
  match executions st !! workflowRunId with
  | None => st
  | Some ex =>
      if isNewerEventId (ex_lastEventId ex) eventId then
        MkState (<[workflowRunId :=
          MkExecution (ex_workflowRunId ex) (ex_projectId ex) (ex_workflowId ex) (ex_status ex) (ex_logs ex)
            (ex_result ex) (ex_error ex) (ex_startedAt ex) (ex_finishedAt ex) (ex_scenarioRunIds ex)
            (Some eventId) (ex_queue ex) (ex_meta ex)]> (executions st))
          (activeWorkflowRunId st) (_currentEntityId st)
      else st
  end.

Definition updateReplayCursor (workflowRunId eventId : string) : Action unit :=
  set (pureSet (cursor_state workflowRunId eventId)).

Definition with_queue (q : QueueInfo) (ex : WorkflowExecution) : WorkflowExecution :=
  MkExecution (ex_workflowRunId ex) (ex_projectId ex) (ex_workflowId ex) (ex_status ex) (ex_logs ex)
    (ex_result ex) (ex_error ex) (ex_startedAt ex) (ex_finishedAt ex) (ex_scenarioRunIds ex)
    (ex_lastEventId ex) q (ex_meta ex).

Definition queue_state (workflowRunId : string) (q : QueueInfo) (st : ExecutionState) : ExecutionState :=
  match executions st !! workflowRunId with
  | None => st
  | Some ex =>
      MkState (<[workflowRunId := with_queue q ex]> (executions st)) (activeWorkflowRunId st) (_currentEntityId st)
  end.

Definition updateQueueInfo (workflowRunId : string) (queue : option QueueInfo) : Action unit :=
  match queue with
  | None => mret tt
  | Some q => set (pureSet (queue_state workflowRunId q))
  end.

Definition getExecution (workflowRunId : string) (st : ExecutionState) : option WorkflowExecution :=
  executions st !! workflowRunId.

Definition getActiveExecution (st : ExecutionState) : option WorkflowExecution :=
  match activeWorkflowRunId st with
  | Some id => if str_truthy id then executions st !! id else None
  | None => None
  end.

Definition getWorkflowExecutions (workflowId : string) (st : ExecutionState) : list WorkflowExecution :=
  filter (fun ex => ex_workflowId ex = workflowId) (jvalues (executions st)).

Definition clearExecution (workflowRunId : string) : Action unit :=
  trackSync workflowRunId Delete_;;
  set (fun st h =>
    match executions st !! workflowRunId with
    | None => (Return st, h)
    | Some ex =>
        let ex' := MkExecution (ex_workflowRunId ex) (ex_projectId ex) (ex_workflowId ex) (ex_status ex)
                     (ex_logs ex) (ex_result ex) (ex_error ex) (ex_startedAt ex) (ex_finishedAt ex)
                     (ex_scenarioRunIds ex) (ex_lastEventId ex) (ex_queue ex) (markAsDeleted (ex_meta ex) h) in
        (Return (MkState (<[workflowRunId := ex']> (executions st))
                   (if decide (activeWorkflowRunId st = Some workflowRunId) then None else activeWorkflowRunId st)
                   (Some workflowRunId)), h)
    end).

(** The cursor and the queue properties are the browser's own. *)
Definition upsert_state (execution : WorkflowExecution) (st : ExecutionState) : ExecutionState :=
  let existing := executions st !! ex_workflowRunId execution in
  MkState (<[ex_workflowRunId execution :=
    MkExecution (ex_workflowRunId execution) (ex_projectId execution) (ex_workflowId execution)
      (ex_status execution) (ex_logs execution) (ex_result execution) (ex_error execution)
      (ex_startedAt execution) (ex_finishedAt execution) (ex_scenarioRunIds execution)
      (existing ≫= ex_lastEventId) (match existing with Some ex => ex_queue ex | None => no_queue_info end)
      (ex_meta execution)]> (executions st))
    (activeWorkflowRunId st) (_currentEntityId st).

Definition upsertExecutionFromSync (execution : WorkflowExecution) : Action unit :=
  set (pureSet (upsert_state execution)).

(** ** Runner updates are not echoed *)

(** What the event stream and the pull from the server do to the store. *)
Inductive RunnerOp :=
| AppendLog (id message : string)
| FailRun (id error : string)
| SetStatus (id : string) (status : WorkflowRunStatus) (result : option JsonValue) (error : option string)
| CompleteRun (id : string) (result : option JsonValue)
| MoveCursor (id eventId : string)
| SetQueueInfo (id : string) (q : option QueueInfo)
| FromServer (ex : WorkflowExecution).

Definition runner_action (op : RunnerOp) : Action unit :=
  match op with
  | AppendLog id m => appendLog id m
  | FailRun id e => failExecution id e
  | SetStatus id s r e => updateExecutionStatus id s r e
  | CompleteRun id r => completeExecution id r
  | MoveCursor id e => updateReplayCursor id e
  | SetQueueInfo id q => updateQueueInfo id q
  | FromServer ex => upsertExecutionFromSync ex
  end.

Section Echo.
Context `{D : Deque SyncChange}.
Implicit Types (w : World).

Lemma turn_set_untracked f s w : idle s -> pendingOps s = ∅ ->
  exists r s' h', turn options (set f) s w = (r, s', set_host h' w) /\ idle s' /\ forall k, pendingOps s' !! k = None.
Proof.
  intros Hi Hp. destruct (f (state s) (host w)) as [[t|e] h'] eqn:Ef.
  - destruct (turn_untracked_set options f s w t h' Hi Ef) as (s' & E & _ & Hi' & Hk).
    { intros id _. by rewrite Hp. }
    exists (Return tt), s', h'. split; [done|]. split; [done|]. intros k. by rewrite Hk, Hp.
  - exists (Throw e), s, h'. unfold turn, set, syncSet. rewrite Ef.
    unfold run_microtasks. destruct Hi as [Hwf Hm]. rewrite Hm. simpl.
    split; [|split; [done|]; intros k; by rewrite Hp]. by destruct s; simpl in *; subst.
Qed.

(** What the runner reports is not sent back: an update of a run that comes from the
    event stream or from the server, in a turn with no tracked operation,
    leaves the sync queue and its copy in storage exactly as they were. *)
Theorem runner_updates_not_echoed op s w : idle s -> pendingOps s = ∅ ->
  let '(_, _, w') := turn options (runner_action op) s w in
  service w' = service w /\ slot w' = slot w /\ conflictEvents w' = conflictEvents w.
Proof.
  intros Hi Hp.
  assert (H : forall f, let '(_, _, w') := turn options (set f) s w in
    service w' = service w /\ slot w' = slot w /\ conflictEvents w' = conflictEvents w).
  { intros f. destruct (turn_set_untracked f s w Hi Hp) as (r & s' & h' & E & _). by rewrite E. }
  destruct op as [| | | | |? [q|]|]; try apply H.
  unfold turn. simpl. unfold run_microtasks. rewrite (proj2 Hi). by simpl.
Qed.
End Echo.

(** ** Cursors and logs *)
Definition move_cursor (id : string) (events : list string) (st : ExecutionState) : ExecutionState :=
  fold_left (fun st e => cursor_state id e st) events st.

Definition cursor_of (id : string) (st : ExecutionState) : option Z :=
  ex ← executions st !! id; e ← ex_lastEventId ex; js_BigInt e.

Definition numeric (e : string) (z : Z) : Prop := js_BigInt e = Some z /\ e <> "".

Lemma cursor_step id e z st ex : numeric e z -> executions st !! id = Some ex ->
  (forall c, ex_lastEventId ex = Some c -> exists zc, numeric c zc) ->
  exists ex', executions (cursor_state id e st) !! id = Some ex'
    /\ (forall c, ex_lastEventId ex' = Some c -> exists zc, numeric c zc)
    /\ cursor_of id (cursor_state id e st) = Some (match cursor_of id st with Some c => Z.max c z | None => z end).
Proof.
  intros [Hz Hne] Hex Hnum. unfold cursor_of, cursor_state. rewrite Hex. simpl.
  apply str_truthy_spec in Hne as Ht. unfold isNewerEventId. rewrite Ht. simpl.
  destruct (ex_lastEventId ex) as [c|] eqn:Ec; simpl.
  - destruct (Hnum c eq_refl) as (zc & Hzc & Hcn). apply str_truthy_spec in Hcn as Hct.
    rewrite Hct, Hz, Hzc. simpl. destruct (zc <? z) eqn:El; bools; simpl.
    + eexists. rewrite jlookup_insert_eq. split; [done|]. simpl. rewrite Hz.
      split; [|f_equal; lia]. intros ? [= <-]. by exists z.
    + exists ex. rewrite Hex. simpl. rewrite Ec. simpl. rewrite Hzc. split; [done|].
      split; [|f_equal; lia]. intros ? [= <-]. by exists zc.
  - eexists. rewrite jlookup_insert_eq. split; [done|]. simpl. rewrite Hz.
    split; [|done]. intros ? [= <-]. by exists z.
Qed.

(** The replay cursor of a run is the newest event seen: after any sequence of numeric
    event ids, late and repeated ones included, it is the largest of them and
    of its old value. *)
Theorem replay_cursor_is_newest id events zs st ex : Forall2 numeric events zs ->
  executions st !! id = Some ex -> (forall c, ex_lastEventId ex = Some c -> exists zc, numeric c zc) ->
  cursor_of id (move_cursor id events st)
  = fold_left (fun c z => Some (match c with Some c => Z.max c z | None => z end)) zs (cursor_of id st).
Proof.
  intros Hf. revert st ex. induction Hf as [|e z events zs Hn Hf IH]; intros st ex Hex Hnum; simpl; [done|].
  destruct (cursor_step id e z st ex Hn Hex Hnum) as (ex' & Hex' & Hnum' & Hc).
  by rewrite (IH _ ex' Hex' Hnum'), Hc.
Qed.

(** A run's log keeps the newest 500 lines: after any number of appended messages it is
    the tail of all of them, never longer than 500. *)
Theorem log_keeps_newest messages ex m h :
  let ex' := fold_left (fun ex msg => append_log msg ex m h) messages ex in
  (length (ex_logs ex) <= 500)%nat ->
  (length (ex_logs ex') <= 500)%nat /\ ex_logs ex' = slice_last 500 (ex_logs ex ++ messages).
Proof.
  cbn zeta. revert ex. induction messages as [|msg messages IH]; intros ex Hl; simpl.
  - rewrite app_nil_r, slice_last_all by lia. done.
  - destruct (IH (append_log msg ex m h)) as [H1 H2]; simpl.
    { pose proof (slice_last_length 500 (ex_logs ex ++ [msg]) ltac:(lia)). lia. }
    split; [done|]. rewrite H2. simpl. unfold slice_last. simpl.
    rewrite !length_app, !length_drop, !length_app. simpl.
    change (Pos.to_nat 500) with 500%nat.
    rewrite <- (drop_app_le (ex_logs ex ++ [msg]) messages) by (rewrite length_app; simpl; lia).
    rewrite drop_drop, <- app_assoc. simpl. f_equal. lia.
Qed.

(** ** Witnesses *)
#[local] Existing Instance FastQueue.fast_queue_deque.

Definition demo_execution : WorkflowExecution :=
  MkExecution "r1" "p1" "w1" WRunning [] None None 0 None [] (Some "7") no_queue_info (WorkflowStore.demo_meta 1).
Definition demo_state : ExecutionState := MkState (<["r1" := demo_execution]> ∅) (Some "r1") (Some "r1").

Lemma runner_updates_not_echoed_witness :
  let '(_, _, w') := turn options (runner_action (AppendLog "r1" "hello")) (MkStore demo_state ∅ [])
                       (WorkflowStore.demo_browser sample_host) in
  service w' = service (WorkflowStore.demo_browser sample_host)
  /\ slot w' = slot (WorkflowStore.demo_browser sample_host)
  /\ conflictEvents w' = conflictEvents (WorkflowStore.demo_browser sample_host).
Proof. apply (runner_updates_not_echoed (AppendLog "r1" "hello")); [split; [constructor | reflexivity] | reflexivity]. Defined.

Lemma replay_cursor_is_newest_witness :
  cursor_of "r1" (move_cursor "r1" ["10"; "9"; "8"] demo_state) = Some 10.
Proof.
  rewrite (replay_cursor_is_newest "r1" ["10"; "9"; "8"] [10; 9; 8] demo_state demo_execution).
  - reflexivity.
  - repeat constructor; discriminate.
  - reflexivity.
  - intros c [= <-]. exists 7. split; [reflexivity | discriminate].
Defined.

Lemma log_keeps_newest_witness :
  ex_logs (fold_left (fun ex msg => append_log msg ex (ex_meta ex) sample_host) ["a"; "b"] demo_execution) = ["a"; "b"].
Proof. apply (log_keeps_newest ["a"; "b"] demo_execution (ex_meta demo_execution) sample_host). simpl. lia. Defined.
End ExecutionStore.
