(* ===== verification/ScenarioRunStore.v ===== *)
(** * The scenario-run store: [ui-v2/src/modules/workflow/stores/scenario-run.store.sync.ts] *)

From S2P Require Import Prelude FlowTypes SyncTypes ClientId FastQueue JsLib Json SyncService SyncMiddleware WorkflowStore.
Open Scope Z_scope.

Module ScenarioRunStore.
Record ScenarioRun := MkRun {
  run_id : string;
  run_projectId : string;
  run_workflowRunId : string;
  run_workflowId : string;
  run_scenarioId : string;
  run_scenarioName : string;
  run_backendSessionId : option string;
  run_status : ScenarioRunStatus;
  run_result : option JsonValue;
  run_error : option string;
  run_phase : option string;
  run_checkpointIndex : option Z;
  run_logs : list string;
  run_startedAt : Z;
  run_finishedAt : option Z;
  run_meta : SyncMeta
}.

Record ScenarioRunState := MkState {
  scenarioRuns : jmap string ScenarioRun;
  _currentEntityId : option string
}.

Definition initial : ScenarioRunState := MkState ∅ None.

Definition serialize (st : ScenarioRunState) (entityId : string) : res (option JsonValue) :=
  match scenarioRuns st !! entityId with
  | None => Return None
  | Some run =>
      started ← toISOString (run_startedAt run);
      completed ← match run_finishedAt run with
                  | Some t => if t =? 0 then Return JNull else JStr <$> toISOString t
                  | None => Return JNull
                  end;
      Return (Some (json_obj [
        [("id", JStr (run_id run)); ("project_id", JStr (run_projectId run));
         ("workflow_run_id", JStr (run_workflowRunId run)); ("workflow_id", JStr (run_workflowId run));
         ("scenario_id", JStr (run_scenarioId run)); ("scenario_name", JStr (run_scenarioName run));
         ("backend_session_id", JStr (ostr_or (run_backendSessionId run) ""));
         ("status", JStr (scenario_status_name (run_status run)))];
        prop "result" json_id (run_result run);
        [("logs", json_strings (run_logs run)); ("error", JStr (ostr_or (run_error run) ""));
         ("started_at", JStr started); ("completed_at", completed)];
        WorkflowStore.meta_json (run_meta run)]))
  end.

Definition options : SimpleSyncOptions ScenarioRunState := MkOptions ScenarioRun_ _currentEntityId serialize true.

Definition Action := StoreM ScenarioRunState.
Definition set := syncSet options.

Definition startScenarioRun (projectId workflowRunId workflowId scenarioId scenarioName : string) : Action string :=
  id ← readHost generateId;
  now ← readHost nowMs;
  m ← fromHost (addSyncMetadata no_metadata);
  let scenarioRun := MkRun id projectId workflowRunId workflowId scenarioId scenarioName None SPending
                       None None None None [] now None m in
  trackSync id Insert_;;
  set (pureSet (fun st => MkState (<[id := scenarioRun]> (scenarioRuns st)) (Some id)));;
  mret id.

Definition rewritten (scenarioRunId : string) (change : ScenarioRun -> SyncMeta -> Host -> ScenarioRun)
    (st : ScenarioRunState) (h : Host) : res ScenarioRunState * Host :=
  match scenarioRuns st !! scenarioRunId with
  | None => (Return st, h)
  | Some run =>
      let '(r, h') := addSyncMetadata (shape_of (version (run_meta run) + 1) (run_meta run)) h in
      match r with
      | Throw e => (Throw e, h')
      | Return m => (Return (MkState (<[scenarioRunId := change run m h]> (scenarioRuns st)) (Some scenarioRunId)), h')
      end
  end.

Definition appendScenarioLog (scenarioRunId message : string) : Action unit :=
  set (rewritten scenarioRunId (fun run m h =>
    MkRun (run_id run) (run_projectId run) (run_workflowRunId run) (run_workflowId run) (run_scenarioId run)
      (run_scenarioName run) (run_backendSessionId run) (run_status run) (run_result run) (run_error run)
      (run_phase run) (run_checkpointIndex run) (run_logs run ++ [message]) (run_startedAt run)
      (run_finishedAt run) m)).

(** The properties [updateScenarioRun] accepts; a property given as
    [undefined] is [Some None]. *)
Record Updates := MkUpdates {
  up_backendSessionId : option (option string);
  up_status : option ScenarioRunStatus;
  up_result : option (option JsonValue);
  up_error : option (option string);
  up_finishedAt : option (option Z);
  up_phase : option (option string);
  up_checkpointIndex : option (option Z)
}.

Definition apply_updates (u : Updates) (run : ScenarioRun) (m : SyncMeta) (h : Host) : ScenarioRun :=
  let finishedAt :=
    match default None (up_finishedAt u) with
    | Some t => Some t
    | None => match up_status u with
              | Some s => if decide (s = SRunning) then run_finishedAt run else Some (nowMs h)
              | None => run_finishedAt run
              end
    end in
  MkRun (run_id run) (run_projectId run) (run_workflowRunId run) (run_workflowId run) (run_scenarioId run)
    (run_scenarioName run) (default (run_backendSessionId run) (up_backendSessionId u))
    (default (run_status run) (up_status u)) (default (run_result run) (up_result u))
    (default (run_error run) (up_error u)) (default (run_phase run) (up_phase u))
    (default (run_checkpointIndex run) (up_checkpointIndex u)) (run_logs run) (run_startedAt run) finishedAt m.

Definition updateScenarioRun (scenarioRunId : string) (u : Updates) : Action unit :=
  set (rewritten scenarioRunId (apply_updates u)).

Definition getScenarioRunsByWorkflowRun (workflowRunId : string) (st : ScenarioRunState) : list ScenarioRun :=
  js_sort (fun left right => run_startedAt left - run_startedAt right)
    (filter (fun run => run_workflowRunId run = workflowRunId /\ is_deleted (run_meta run) = false)
       (jvalues (scenarioRuns st))).

Definition upsert_state (scenarioRun : ScenarioRun) (st : ScenarioRunState) : ScenarioRunState :=
  MkState (<[run_id scenarioRun := scenarioRun]> (scenarioRuns st)) (_currentEntityId st).

Definition upsertScenarioRunFromSync (scenarioRun : ScenarioRun) : Action unit :=
  set (pureSet (upsert_state scenarioRun)).

Definition clearScenarioRun (scenarioRunId : string) : Action unit :=
  trackSync scenarioRunId Delete_;;
  set (fun st h =>
    match scenarioRuns st !! scenarioRunId with
    | None => (Return st, h)
    | Some run =>
        (Return (MkState (<[scenarioRunId :=
          MkRun (run_id run) (run_projectId run) (run_workflowRunId run) (run_workflowId run) (run_scenarioId run)
            (run_scenarioName run) (run_backendSessionId run) (run_status run) (run_result run) (run_error run)
            (run_phase run) (run_checkpointIndex run) (run_logs run) (run_startedAt run) (run_finishedAt run)
            (markAsDeleted (run_meta run) h)]> (scenarioRuns st)) (Some scenarioRunId)), h)
    end).

(** ** Queries and creation *)

(** The runs of a workflow run are listed in the order they were started, each live run
    of it exactly as often as it is stored, and no other. *)
Theorem runs_listed_by_start workflowRunId st :
  StronglySorted (fun a b => run_startedAt a <= run_startedAt b) (getScenarioRunsByWorkflowRun workflowRunId st)
  /\ getScenarioRunsByWorkflowRun workflowRunId st ≡ₚ
     filter (fun run => run_workflowRunId run = workflowRunId /\ is_deleted (run_meta run) = false)
       (jvalues (scenarioRuns st)).
Proof.
  split; [|apply js_sort_perm]. unfold getScenarioRunsByWorkflowRun.
  eapply StronglySorted_weaken; [|apply js_sort_sorted, key_comparator].
  unfold cmp_le. intros. lia.
Qed.

Section Creation.
Context `{D : Deque SyncChange}.
Implicit Types (w : World).

(** Starting a scenario run stores it under its fresh id and queues one insert based on
    version 0 whose payload is the stored run. *)
Theorem start_scenario_run_queued p wr wid sid name s w u iso : idle s ->
  let id := generateId (host w) in
  id <> "" -> pendingOps s !! id = None -> getUserId (host w) = Return u ->
  toISOString (nowMs (host w)) = Return iso ->
  exists s' run d h', turn options (startScenarioRun p wr wid sid name) s w
      = (Return id, s', queueChange ScenarioRun_ id Insert_ d (set_host h' w))
    /\ scenarioRuns (state s') !! id = Some run /\ run_id run = id /\ run_status run = SPending
    /\ run_startedAt run = nowMs (host w) /\ version (run_meta run) = 1
    /\ serialize (state s') id = Return (Some d)
    /\ client_version (fullChange ScenarioRun_ id Insert_ d h') = 0.
Proof.
  intros Hi id Hne Hp Hu Hiso.
  destruct (getOrCreateClientId (host w)) as [cid h'] eqn:Ec.
  set (m := MkMeta 1 (nowIso (host w)) (nowIso (host w)) u cid false).
  set (run := MkRun id p wr wid sid name None SPending None None None None [] (nowMs (host w)) None m).
  set (st' := MkState (<[id := run]> (scenarioRuns (state s))) (Some id)).
  assert (Hl : scenarioRuns st' !! id = Some run) by apply jlookup_insert_eq.
  assert (Hs : exists d, serialize st' id = Return (Some d)).
  { unfold serialize. rewrite Hl. simpl. rewrite Hiso. by eexists. }
  destruct Hs as [d Hd].
  destruct (turn_tracked_set options id Insert_ (fun _ _ => (Return st', h')) s w st' h' d)
    as (s' & Et & Hst & _); try done.
  exists s', run, d, h'. rewrite Hp in Et. rewrite Hst.
  split; [|done]. revert Et. unfold turn, startScenarioRun, mbind, StoreM_bind, readHost, fromHost. simpl.
  unfold addSyncMetadata. rewrite Hu, Ec. simpl. fold id. fold m. fold run.
  destruct (str_truthy id); simpl; destruct (run_microtasks _ _) as [es s2]; simpl; congruence.
Qed.
End Creation.

#[local] Existing Instance FastQueue.fast_queue_deque.

Lemma start_scenario_run_queued_witness : exists s' d h',
  turn options (startScenarioRun "p1" "r1" "w1" "s1" "Demo") (MkStore initial ∅ []) (WorkflowStore.demo_browser sample_host)
  = (Return (generateId sample_host), s',
     queueChange ScenarioRun_ (generateId sample_host) Insert_ d (set_host h' (WorkflowStore.demo_browser sample_host))).
Proof.
  destruct (start_scenario_run_queued "p1" "r1" "w1" "s1" "Demo" (MkStore initial ∅ [])
    (WorkflowStore.demo_browser sample_host) "user-1" "2023-11-14T22:13:20.000Z") as (s' & run & d & h' & H & _);
    [split; [constructor | reflexivity] | vm_compute; discriminate | reflexivity | reflexivity | vm_compute; reflexivity |].
  exists s', d, h'. exact H.
Defined.
End ScenarioRunStore.
