(* ===== verification/TestResultStore.v ===== *)
(** * The test-result store: [ui-v2/src/modules/workflow/stores/test-result.store.ts] *)

From S2P Require Import Prelude FlowTypes SyncTypes ClientId FastQueue JsLib Json SyncService SyncMiddleware WorkflowStore.
Open Scope Z_scope.

Module TestResultStore.
(** A result without its sync metadata ([TestResultInput]). *)
Record TestResultInput := MkInput {
  tr_id : string;
  tr_projectId : string;
  tr_sessionId : string;
  tr_workflowRunId : option string;
  tr_workflowId : string;
  tr_scenarioRunId : option string;
  tr_scenarioId : option string;
  tr_scenarioName : option string;
  tr_testName : string;
  tr_testType : string;
  tr_status : ScenarioTestResultStatus;
  tr_resultData : option JsonValue;
  tr_durationMs : Z;
  tr_executedAt : string;
  tr_containerLogs : option (jmap string string)
}.

Record TestResult := MkResult { tr_input : TestResultInput; tr_meta : SyncMeta }.

Record TestResultState := MkState {
  testResults : jmap string TestResult;
  _currentEntityId : option string
}.

Definition initial : TestResultState := MkState ∅ None.

Definition serialize (st : TestResultState) (entityId : string) : res (option JsonValue) :=
  match testResults st !! entityId with
  | None => Return None
  | Some result =>
      let r := tr_input result in
      let m := tr_meta result in
      Return (Some (json_obj [
        [("id", JStr (tr_id r)); ("project_id", JStr (tr_projectId r)); ("session_id", JStr (tr_sessionId r))];
        prop "workflow_run_id" JStr (tr_workflowRunId r);
        [("workflow_id", JStr (tr_workflowId r))];
        prop "scenario_run_id" JStr (tr_scenarioRunId r); prop "scenario_id" JStr (tr_scenarioId r);
        prop "scenario_name" JStr (tr_scenarioName r);
        [("test_name", JStr (tr_testName r)); ("test_type", JStr (tr_testType r));
         ("status", JStr (result_status_name (tr_status r)))];
        prop "result_data" (fun v => JStr (json_text v)) (tr_resultData r);
        [("duration_ms", JNum (tr_durationMs r)); ("executed_at", JStr (tr_executedAt r));
         ("container_logs", match tr_containerLogs r with
                            | Some logs => JStr (json_text (json_record logs))
                            | None => JNull
                            end);
         ("created_at", JStr (created_at m)); ("updated_at", JStr (updated_at m));
         ("user_id", JStr (user_id m)); ("client_id", JStr (client_id m));
         ("is_deleted", JBool (is_deleted m))]]))
  end.

Definition options : SimpleSyncOptions TestResultState := MkOptions TestResult_ _currentEntityId serialize true.

Definition Action := StoreM TestResultState.
Definition set := syncSet options.

Definition addTestResult (result : TestResultInput) : Action unit :=
  st ← getState;
  match testResults st !! tr_id result with
  | Some _ => mret tt
  | None =>
      m ← fromHost (addSyncMetadata no_metadata);
      set (pureSet (fun st => MkState (<[tr_id result := MkResult result m]> (testResults st)) (Some (tr_id result))))
  end.

(** [Partial<TestResult>]; optional properties that are absent stay, the others
    are those of the type.  [up_version], [up_updated_at], [up_user_id] and
    [up_client_id] are overwritten by the metadata and not listed. *)
Record Updates := MkUpdates {
  up_id : option string;
  up_projectId : option string;
  up_sessionId : option string;
  up_workflowRunId : option (option string);
  up_workflowId : option string;
  up_scenarioRunId : option (option string);
  up_scenarioId : option (option string);
  up_scenarioName : option (option string);
  up_testName : option string;
  up_testType : option string;
  up_status : option ScenarioTestResultStatus;
  up_resultData : option (option JsonValue);
  up_durationMs : option Z;
  up_executedAt : option string;
  up_containerLogs : option (option (jmap string string));
  up_created_at : option string;
  up_is_deleted : option bool
}.

Definition created_from (id sessionId workflowId testName testType : string) (u : Updates) (now : string)
    : TestResultInput :=
  MkInput id (default "" (up_projectId u)) sessionId (default None (up_workflowRunId u)) workflowId
    (default None (up_scenarioRunId u)) (default None (up_scenarioId u)) (default None (up_scenarioName u))
    testName testType (default RPending (up_status u))
    (Some (default JNull (json_present (default None (up_resultData u)))))
    (default 0 (up_durationMs u)) (default now (up_executedAt u)) (default None (up_containerLogs u)).

Definition merged (u : Updates) (r : TestResultInput) : TestResultInput :=
  MkInput (default (tr_id r) (up_id u)) (default (tr_projectId r) (up_projectId u))
    (default (tr_sessionId r) (up_sessionId u)) (default (tr_workflowRunId r) (up_workflowRunId u))
    (default (tr_workflowId r) (up_workflowId u)) (default (tr_scenarioRunId r) (up_scenarioRunId u))
    (default (tr_scenarioId r) (up_scenarioId u)) (default (tr_scenarioName r) (up_scenarioName u))
    (default (tr_testName r) (up_testName u)) (default (tr_testType r) (up_testType u))
    (default (tr_status r) (up_status u)) (default (tr_resultData r) (up_resultData u))
    (default (tr_durationMs r) (up_durationMs u)) (default (tr_executedAt r) (up_executedAt u))
    (default (tr_containerLogs r) (up_containerLogs u)).

(** The metadata of an update: its shape is the stored one with the update's
    own properties over it. *)
Definition put (id : string) (input : Host -> TestResultInput) (shape : SyncMetadataShape) : Action unit :=
  set (fun st h =>
    let '(r, h') := addSyncMetadata shape h in
    match r with
    | Throw e => (Throw e, h')
    | Return m => (Return (MkState (<[id := MkResult (input h) m]> (testResults st)) (Some id)), h')
    end).

Definition updateTestResult (id : string) (u : Updates) : Action unit :=
  st ← getState;
  match testResults st !! id with
  | None =>
      match up_sessionId u, up_workflowId u, up_testName u, up_testType u with
      | Some sessionId, Some workflowId, Some testName, Some testType =>
          if str_truthy sessionId && str_truthy workflowId && str_truthy testName && str_truthy testType
          then put id (fun h => created_from id sessionId workflowId testName testType u (nowIso h)) no_metadata
          else mret tt
      | _, _, _, _ => mret tt
      end
  | Some existing =>
      put id (fun _ => merged u (tr_input existing))
        (MkShape (Some (version (tr_meta existing) + 1))
           (Some (default (created_at (tr_meta existing)) (up_created_at u)))
           (Some (default (is_deleted (tr_meta existing)) (up_is_deleted u))))
  end.

Definition live (r : TestResult) : Prop := is_deleted (tr_meta r) = false.
#[export] Instance live_dec r : Decision (live r).
Proof. unfold live. apply _. Defined.

Definition getTestResult (id : string) (st : TestResultState) : option TestResult :=
  match testResults st !! id with
  | Some r => if is_deleted (tr_meta r) then None else Some r
  | None => None
  end.

Definition hasTestResult (id : string) (st : TestResultState) : bool :=
  match testResults st !! id with Some r => negb (is_deleted (tr_meta r)) | None => false end.

Definition deleted (h : Host) (r : TestResult) : TestResult := MkResult (tr_input r) (markAsDeleted (tr_meta r) h).

Definition deleteTestResult (id : string) : Action unit :=
  trackSync id Delete_;;
  set (fun st h =>
    match testResults st !! id with
    | None => (Return st, h)
    | Some existing => (Return (MkState (<[id := deleted h existing]> (testResults st)) (Some id)), h)
    end).

Definition getTestResultsBySession (sessionId : string) (st : TestResultState) : list TestResult :=
  filter (fun r => tr_sessionId (tr_input r) = sessionId /\ live r) (jvalues (testResults st)).
Definition getTestResultsByScenario (scenarioId : string) (st : TestResultState) : list TestResult :=
  filter (fun r => tr_scenarioId (tr_input r) = Some scenarioId /\ live r) (jvalues (testResults st)).
Definition getTestResultsByWorkflow (workflowId : string) (st : TestResultState) : list TestResult :=
  filter (fun r => tr_workflowId (tr_input r) = workflowId /\ live r) (jvalues (testResults st)).
Definition getAllTestResults (st : TestResultState) : list TestResult :=
  filter (fun r => live r) (jvalues (testResults st)).

Definition upsert_state (incoming : TestResult) (st : TestResultState) : TestResultState :=
  match testResults st !! tr_id (tr_input incoming) with
  | Some existing =>
      if version (tr_meta incoming) <? version (tr_meta existing) then st
      else MkState (<[tr_id (tr_input incoming) := incoming]> (testResults st)) (_currentEntityId st)
  | None => MkState (<[tr_id (tr_input incoming) := incoming]> (testResults st)) (_currentEntityId st)
  end.

Definition upsertTestResultFromSync (incoming : TestResult) : Action unit :=
  set (pureSet (upsert_state incoming)).

Definition clear_state (st : TestResultState) (h : Host) : TestResultState :=
  MkState (fold_left (fun m kv => <[kv.1 := deleted h kv.2]> m) (entries (testResults st)) ∅) (_currentEntityId st).

Definition clearAllTestResults : Action unit := set (fun st h => (Return (clear_state st h), h)).

(** ** Theorems *)
Lemma clear_lookup h l (m : jmap string TestResult) k : NoDup (map fst l) ->
  fold_left (fun m (kv : string * TestResult) => <[kv.1 := deleted h kv.2]> m) l m !! k
  = match assoc_get k l with Some r => Some (deleted h r) | None => m !! k end.
Proof.
  revert m; induction l as [|[k1 r1] l IH]; intros m Hn; simpl; [done|].
  apply NoDup_cons in Hn as [Hni Hn]. rewrite IH by done. rewrite jlookup_insert.
  case_decide as E; [subst|by rewrite decide_False by done].
  rewrite decide_True by done. by rewrite (proj2 (assoc_get_None k l)).
Qed.

Lemma clear_wf h l (m : jmap string TestResult) : jmap_wf m ->
  jmap_wf (fold_left (fun m (kv : string * TestResult) => <[kv.1 := deleted h kv.2]> m) l m).
Proof. revert m; induction l as [|kv l IH]; intros m Hm; simpl; [done|]. by apply IH, jmap_wf_insert. Qed.

(** Clearing the results hides every one of them and forgets none: no query finds a
    result afterwards, and each stored result is still there, deleted and one
    version up. *)
Theorem clear_hides_all st h : jmap_wf (testResults st) ->
  getAllTestResults (clear_state st h) = []
  /\ (forall id, hasTestResult id (clear_state st h) = false /\ getTestResult id (clear_state st h) = None)
  /\ forall id, testResults (clear_state st h) !! id = deleted h <$> testResults st !! id.
Proof.
  intros Hwf.
  assert (Hl : forall id, testResults (clear_state st h) !! id = deleted h <$> testResults st !! id).
  { intros id. unfold clear_state. simpl. rewrite clear_lookup by done.
    destruct (testResults st) as [l]; unfold lookup, jmap_lookup; simpl. by destruct (assoc_get id l). }
  split; [|split; [|done]].
  - unfold getAllTestResults. apply (filter_none (fun r => live r)), Forall_forall. intros r Hr Hlive.
    unfold jvalues in Hr. apply list_elem_of_fmap in Hr as ([k r'] & -> & Hin). simpl in Hlive.
    apply (elem_of_jlookup k r') in Hin; [|apply clear_wf, jmap_wf_empty].
    rewrite Hl in Hin. destruct (testResults st !! k); by simplify_eq/=.
  - intros id. unfold hasTestResult, getTestResult. rewrite Hl. by destruct (testResults st !! id).
Qed.

(** Results are recorded once: adding a result whose id is stored, a deleted one
    included, changes nothing; otherwise, with a signed-in user, it is stored at
    version 1 and no other result changes. *)
Theorem add_records_once result h s :
  match testResults (state s) !! tr_id result with
  | Some _ => addTestResult result (h, s) = (Return tt, (h, s))
  | None => forall u, getUserId h = Return u ->
      exists h' s' m, addTestResult result (h, s) = (Return tt, (h', s')) /\ version m = 1
        /\ is_deleted m = false /\ pendingOps s' = pendingOps s
        /\ testResults (state s') = <[tr_id result := MkResult result m]> (testResults (state s))
  end.
Proof.
  unfold addTestResult, getState, mbind, StoreM_bind. cbn [fst snd].
  destruct (testResults (state s) !! tr_id result) eqn:E; [done|]. intros u Hu.
  unfold fromHost, addSyncMetadata. cbn [fst snd]. rewrite Hu. destruct (getOrCreateClientId h) as [cid h'].
  unfold set, syncSet, pureSet. simpl.
  exists h'; destruct (str_truthy (tr_id result)); eexists;
    exists (MkMeta 1 (nowIso h) (nowIso h) u cid false); (split; [reflexivity|]); done.
Qed.

Definition demo_input : TestResultInput :=
  MkInput "t1" "p1" "s1" None "w1" None None None "First" "http" RPassed None 5 "t" None.
Definition demo_result : TestResult := MkResult demo_input (WorkflowStore.demo_meta 1).
Definition demo_state : TestResultState := MkState (<["t1" := demo_result]> ∅) None.

Lemma clear_hides_all_witness : getAllTestResults (clear_state demo_state sample_host) = [].
Proof. apply clear_hides_all. apply jmap_wf_insert, jmap_wf_empty. Defined.
End TestResultStore.
