(* ===== verification/Process.v ===== *)
(** * Server code that awaits

    An [async] function runs until its next [await], and while it waits any
    other request may run.  [Proc D A] is such a computation over a shared state
    [D]: each [Await] performs one atomic operation on the state (one SQL
    statement, or one transaction) and continues with its answer.  [run] is the
    execution without interference, [pool_step] any interleaving of the tasks
    of a pool, and [wp] the logic in which a task is verified once against every
    interference that respects a guarantee [G]. *)

From S2P Require Import Prelude.
From stdpp Require Import relations.

Section Process.
Context {D : Type}.

Inductive Proc (A : Type) : Type :=
| Done (r : res A)
| Await (X : Type) (stmt : D -> X * D) (k : X -> Proc A).
Arguments Done {A} r.
Arguments Await {A X} stmt k.

#[export] Instance Proc_ret : MRet Proc := fun A a => Done (Return a).

#[export] Instance Proc_bind : MBind Proc := fun A B f =>
  fix go p :=
    match p with
    | Done (Return a) => f a
    | Done (Throw e) => Done (Throw e)
    | Await stmt k => Await stmt (fun x => go (k x))
    end.

(** One operation on the state: one that may throw, a query, a write. *)
Definition statement {A} (stmt : D -> res A * D) : Proc A := Await stmt Done.
Definition query {A} (f : D -> A) : Proc A := Await (fun d => (f d, d)) (fun a => Done (Return a)).
Definition execute (f : D -> res D) : Proc unit :=
  statement (fun d => match f d with Return d' => (Return tt, d') | Throw e => (Throw e, d) end).

Definition throw {A} (e : js_error) : Proc A := Done (Throw e).
Definition fail {A} (message : string) : Proc A := Done (Throw (JsError message)).

(** [try { p } catch (e) { h(e) }]. *)
Fixpoint catch {A} (p : Proc A) (h : js_error -> Proc A) : Proc A :=
  match p with
  | Done (Return a) => Done (Return a)
  | Done (Throw e) => h e
  | Await stmt k => Await stmt (fun x => catch (k x) h)
  end.

(** A [for] loop whose body awaits. *)
Fixpoint proc_each {A} (f : A -> Proc unit) (l : list A) : Proc unit :=
  match l with
  | [] => mret tt
  | x :: l' => f x;; proc_each f l'
  end.

(** ** Without interference *)
Fixpoint run {A} (p : Proc A) (d : D) : res A * D :=
  match p with
  | Done r => (r, d)
  | Await stmt k => run (k (stmt d).1) (stmt d).2
  end.

Lemma run_bind {A B} (p : Proc A) (k : A -> Proc B) d :
  run (p ≫= k) d =
  match run p d with
  | (Return a, d') => run (k a) d'
  | (Throw e, d') => (Throw e, d')
  end.
Proof. revert d. induction p as [[a|e]|X stmt k' IH]; intros d; [done|done|]. simpl. apply IH. Qed.

Lemma run_catch {A} (p : Proc A) h d :
  run (catch p h) d =
  match run p d with
  | (Return a, d') => (Return a, d')
  | (Throw e, d') => run (h e) d'
  end.
Proof. revert d. induction p as [[a|e]|X stmt k' IH]; intros d; [done|done|]. simpl. apply IH. Qed.

Lemma run_query {A} (f : D -> A) d : run (query f) d = (Return (f d), d).
Proof. done. Qed.

Lemma run_execute (f : D -> res D) d :
  run (execute f) d = match f d with Return d' => (Return tt, d') | Throw e => (Throw e, d) end.
Proof. unfold execute, statement. simpl. by destruct (f d). Qed.

(** ** With interference

    [env i] is what the others do to the state before the [i]-th operation. *)
Fixpoint run_under {A} (env : nat -> D -> D) (i : nat) (p : Proc A) (d : D) : res A * D :=
  match p with
  | Done r => (r, d)
  | Await stmt k => run_under env (S i) (k (stmt (env i d)).1) (stmt (env i d)).2
  end.

Lemma run_under_ret {A B} env i (p : Proc A) (f : A -> B) d :
  run_under env i (p ≫= fun a => mret (f a)) d = (f <$> (run_under env i p d).1, (run_under env i p d).2).
Proof. revert i d. induction p as [[a|e]|X stmt k IH]; intros i d; [done|done|]. simpl. apply IH. Qed.

Lemma run_under_alone {A} i (p : Proc A) d : run_under (fun _ d => d) i p d = run p d.
Proof. revert i d. induction p as [r|X stmt k IH]; intros i d; [done|]. simpl. apply IH. Qed.

(** A computation that returns whatever happens around it. *)
Fixpoint returns {A} (p : Proc A) : Prop :=
  match p with
  | Done r => is_return r = true
  | Await stmt k => forall d, returns (k (stmt d).1)
  end.

Lemma returns_bind {A B} (p : Proc A) (k : A -> Proc B) :
  returns p -> (forall a, returns (k a)) -> returns (p ≫= k).
Proof. intros Hp Hk. induction p as [[a|e]|X stmt k' IH]; [apply Hk|done|]. intros d. apply IH, Hp. Qed.

Lemma returns_catch {A} (p : Proc A) h : (forall e, returns (h e)) -> returns (catch p h).
Proof. intros Hh. induction p as [[a|e]|X stmt k' IH]; [done|apply Hh|]. intros d. apply IH. Qed.

Lemma returns_run_under {A} (p : Proc A) env i d : returns p ->
  exists a, (run_under env i p d).1 = Return a.
Proof.
  revert i d. induction p as [[a|e]|X stmt k IH]; intros i d H; [by exists a|done|]. simpl. apply IH, H.
Qed.

(** ** Interleaving *)
Record Task := MkTask { task_result : Type; task : Proc task_result }.

Inductive pool_step : list Task * D -> list Task * D -> Prop :=
| step_task i T X (stmt : D -> X * D) (k : X -> Proc T) tasks d :
    tasks !! i = Some (MkTask T (Await stmt k)) ->
    pool_step (tasks, d) (<[i := MkTask T (k (stmt d).1)]> tasks, (stmt d).2).

Definition pool_steps : list Task * D -> list Task * D -> Prop := rtc pool_step.

(** One turn of the [i]-th task, and a whole schedule of turns. *)
Definition advance {A} (i : nat) (pool : list (Proc A) * D) : list (Proc A) * D :=
  let '(ps, d) := pool in
  match ps !! i with
  | Some (Await stmt k) => (<[i := k (stmt d).1]> ps, (stmt d).2)
  | _ => (ps, d)
  end.

Definition schedule {A} (turns : list nat) (pool : list (Proc A) * D) : list (Proc A) * D :=
  fold_left (fun pool i => advance i pool) turns pool.

Lemma advance_step {A} i (ps : list (Proc A)) d :
  pool_steps (map (MkTask A) ps, d)
    (map (MkTask A) (advance i (ps, d)).1, (advance i (ps, d)).2).
Proof.
  unfold advance. destruct (ps !! i) as [[r|X stmt k]|] eqn:E; [apply rtc_refl| |apply rtc_refl].
  simpl. apply rtc_once. rewrite list_fmap_insert. apply step_task.
  by rewrite list_lookup_fmap, E.
Qed.

(** Every schedule is an interleaving. *)
Lemma schedule_steps {A} turns (ps : list (Proc A)) d :
  pool_steps (map (MkTask A) ps, d)
    (map (MkTask A) (schedule turns (ps, d)).1, (schedule turns (ps, d)).2).
Proof.
  revert ps d. induction turns as [|i turns IH]; intros ps d; [apply rtc_refl|].
  change (schedule (i :: turns) (ps, d)) with (schedule turns (advance i (ps, d))).
  etransitivity; [apply (advance_step i)|]. destruct (advance i (ps, d)) as [ps' d']. apply IH.
Qed.

(** ** Verification under interference

    [I] holds between any two operations, [G] is what every operation of every
    task guarantees, a preorder.  [wp p Q d0] says of a task that continues in
    [d0]: whatever the others do, its operations keep [I] and respect [G], and
    if it returns then [Q] holds of the result in the state it last saw. *)
Section Logic.
Context (I : D -> Prop) (G : D -> D -> Prop) `{!PreOrder G}.

Fixpoint wp {A} (p : Proc A) (Q : A -> D -> Prop) (d0 : D) : Prop :=
  match p with
  | Done (Return a) => Q a d0
  | Done (Throw _) => True
  | Await stmt k => forall d, G d0 d -> I d ->
      I (stmt d).2 /\ G d (stmt d).2 /\ wp (k (stmt d).1) Q (stmt d).2
  end.

Lemma wp_mono {A} (p : Proc A) (Q Q' : A -> D -> Prop) d0 :
  (forall a d, Q a d -> Q' a d) -> wp p Q d0 -> wp p Q' d0.
Proof.
  intros HQ. revert d0. induction p as [[a|e]|X stmt k IH]; intros d0 H; simpl in *; [auto|done|].
  intros d Hd HI. destruct (H d Hd HI) as (? & ? & ?). eauto.
Qed.

Lemma wp_bind {A B} (p : Proc A) (k : A -> Proc B) Q d0 :
  wp p (fun a d => wp (k a) Q d) d0 -> wp (p ≫= k) Q d0.
Proof.
  revert d0. induction p as [[a|e]|X stmt k' IH]; intros d0 H; [done|done|].
  simpl in *. intros d Hd HI. destruct (H d Hd HI) as (? & ? & ?). eauto.
Qed.

Lemma wp_ret {A} (a : A) (Q : A -> D -> Prop) d0 : Q a d0 -> wp (mret a) Q d0.
Proof. done. Qed.

Lemma wp_query {A} (f : D -> A) (Q : A -> D -> Prop) d0 :
  (forall d, G d0 d -> I d -> Q (f d) d) -> wp (query f) Q d0.
Proof. intros H d Hd HI. simpl. repeat split; [done|reflexivity|auto]. Qed.

Lemma wp_execute (f : D -> res D) (Q : unit -> D -> Prop) d0 :
  (forall d d', G d0 d -> I d -> f d = Return d' -> I d' /\ G d d' /\ Q tt d') -> wp (execute f) Q d0.
Proof.
  intros H d Hd HI. simpl. destruct (f d) as [d'|e] eqn:E; simpl.
  - by apply H.
  - repeat split; [done|reflexivity].
Qed.

Lemma wp_statement {A} (stmt : D -> res A * D) (Q : A -> D -> Prop) d0 :
  (forall d r d', G d0 d -> I d -> stmt d = (r, d') ->
     I d' /\ G d d' /\ match r with Return a => Q a d' | Throw _ => True end) ->
  wp (statement stmt) Q d0.
Proof.
  intros H d Hd HI. simpl. destruct (stmt d) as [r d'] eqn:E. simpl.
  destruct (H d r d' Hd HI E) as (? & ? & ?). by destruct r.
Qed.

Lemma wp_catch {A} (p : Proc A) h (Q : A -> D -> Prop) d0 :
  wp p Q d0 -> (forall e d, wp (h e) Q d) -> wp (catch p h) Q d0.
Proof.
  revert d0. induction p as [[a|e]|X stmt k IH]; intros d0 H Hh; simpl in *; [done|apply Hh|].
  intros d Hd HI. destruct (H d Hd HI) as (? & ? & ?). eauto.
Qed.

Lemma wp_later {A} (p : Proc A) d0 d1 : wp p (fun _ _ => True) d0 -> G d0 d1 -> wp p (fun _ _ => True) d1.
Proof.
  destruct p as [[a|e]|X stmt k]; simpl; [done|done|].
  intros H HG d Hd. apply H. by etransitivity.
Qed.

Lemma wp_each {A} (f : A -> Proc unit) (l : list A) (Q : D -> Prop) d0 :
  (forall d d', Q d -> G d d' -> Q d') ->
  (forall x d, x ∈ l -> Q d -> wp (f x) (fun _ => Q) d) -> Q d0 -> wp (proc_each f l) (fun _ => Q) d0.
Proof.
  intros Hst. revert d0. induction l as [|x l IH]; intros d0 H HQ; [done|].
  change (wp (f x ≫= fun _ => proc_each f l) (fun _ => Q) d0).
  apply wp_bind. apply (wp_mono _ (fun _ => Q)); [|apply H; [left|done]].
  intros _ d Hd. apply IH; [|done]. intros y d' Hy. apply H. by right.
Qed.

(** What is proved of a task holds of it running alone. *)
Lemma wp_run {A} (p : Proc A) Q d0 : wp p Q d0 -> I d0 ->
  I (run p d0).2 /\ G d0 (run p d0).2
  /\ forall a, (run p d0).1 = Return a -> Q a (run p d0).2.
Proof.
  revert d0. induction p as [[a|e]|X stmt k IH]; intros d0 H HI; simpl in *.
  - repeat split; [done|reflexivity|]. by intros ? [= <-].
  - repeat split; [done|reflexivity|done].
  - destruct (H d0 (reflexivity _) HI) as (HI' & HG & H'). destruct (IH _ _ H' HI') as (? & ? & ?).
    repeat split; [done|by etransitivity|done].
Qed.

(** And of it running under any interference that respects [I] and [G]. *)
Lemma wp_run_under {A} (env : nat -> D -> D) (p : Proc A) Q i d0 :
  (forall n d, I d -> I (env n d) /\ G d (env n d)) -> wp p Q d0 -> I d0 ->
  I (run_under env i p d0).2 /\ G d0 (run_under env i p d0).2
  /\ forall a, (run_under env i p d0).1 = Return a -> Q a (run_under env i p d0).2.
Proof.
  intros Henv. revert i d0. induction p as [[a|e]|X stmt k IH]; intros i d0 H HI; simpl in *.
  - repeat split; [done|reflexivity|]. by intros ? [= <-].
  - repeat split; [done|reflexivity|done].
  - destruct (Henv i d0 HI) as [HI1 HG1]. destruct (H (env i d0) HG1 HI1) as (HI' & HG & H').
    destruct (IH _ (S i) _ H' HI') as (? & ? & ?). repeat split; [done| |done].
    etransitivity; [exact HG1|]. by etransitivity.
Qed.

Definition task_safe (d : D) (t : Task) : Prop := wp (task t) (fun _ _ => True) d.

(** Verified tasks keep the invariant however they interleave. *)
Lemma pool_safe c c' : pool_steps c c' -> I c.2 -> Forall (task_safe c.2) c.1 ->
  I c'.2 /\ G c.2 c'.2 /\ Forall (task_safe c'.2) c'.1.
Proof.
  induction 1 as [c|c1 c2 c3 Hstep _ IH]; intros HI Hs; [by repeat split|].
  destruct Hstep as [i T X stmt k tasks d Hi]. simpl in *.
  pose proof (proj1 (Forall_lookup _ _) Hs i _ Hi) as Hp.
  destruct (Hp d (reflexivity _) HI) as (HI' & HG & Hk).
  destruct IH as (? & ? & ?); [done| |repeat split; [done|by etransitivity|done]].
  apply Forall_insert; [|done]. eapply Forall_impl; [exact Hs|]. intros t Ht. by apply (wp_later _ d).
Qed.
End Logic.
End Process.

Arguments Proc D A : clear implicits.
Arguments Done {D A} r.
Arguments Await {D A X} stmt k.
Arguments Task D : clear implicits.
