(* ===== verification/ServerInput.v ===== *)
(** * What server actions are called with

    [FormData] of a submitted form, and the session that [auth()] of next-auth
    finds for the caller: [ui-v2/src/types/next-auth.d.ts] and the [session]
    callback of [ui-v2/src/auth.ts] give it an id and a role. *)

From S2P Require Import Prelude FlowTypes JsLib.

(** ** Forms *)
Inductive FormEntry := FText (text : string) | FFile.

Definition FormData : Type := list (string * FormEntry).

(** [formData.get(key)] is the first entry, [formData.getAll(key)] all of them. *)
Definition form_getAll (key : string) (f : FormData) : list FormEntry :=
  map snd (filter (fun e => e.1 = key) f).
Definition form_get (key : string) (f : FormData) : option FormEntry := head (form_getAll key f).

(** [readTrimmedString] of the auth and admin actions, [value] of the project
    actions. *)
Definition readTrimmedString (f : FormData) (key : string) : string :=
  match form_get key f with Some (FText s) => js_trim s | _ => "" end.

(** The non-empty strings among [formData.getAll(key)]. *)
Definition form_texts (key : string) (f : FormData) : list string :=
  omap (fun e => match e with FText s => if str_truthy s then Some s else None | FFile => None end)
    (form_getAll key f).

(** ** Sessions *)
Record SessionUser := MkSessionUser { su_id : option string; su_role : option string }.

(** [auth()]: no session, or one whose user may be missing. *)
Definition Session : Type := option (option SessionUser).

(** [session?.user?.id] when it is truthy, with the user. *)
Definition session_user (s : Session) : option (string * SessionUser) :=
  match s with
  | Some (Some u) => match su_id u with Some id => if str_truthy id then Some (id, u) else None | None => None end
  | _ => None
  end.
