(* ===== verification/Database.v ===== *)
(** * The database: [ui-v2/src/db]

    [Engine] is what the application relies on of its SQL database: what a
    query returns and what an insert, an update and a delete leave in a table.
    A table has no order, so every law is up to permutation.  The tables, their
    keys and their references are those of [db/schema/mysql.ts] and
    [db/schema/postgres.ts]; the statements below are the ones the modules use,
    with the constraints written out.  [list_engine] is a database of plain
    lists. *)

From S2P Require Import Prelude FlowTypes JsLib Process.
From stdpp Require Import relations.

(** ** The engine *)
Class Engine := {
  table : Type -> Type;
  rows : forall {R}, table R -> list R;
  select : forall {R}, (R -> bool) -> table R -> list R;
  select_desc : forall {R}, (R -> Z) -> (R -> bool) -> table R -> list R;
  inner_join : forall {R S}, (R -> S -> bool) -> table R -> table S -> list (R * S);
  insert_row : forall {R}, R -> table R -> table R;
  update_rows : forall {R}, (R -> bool) -> (R -> R) -> table R -> table R;
  delete_rows : forall {R}, (R -> bool) -> table R -> table R;
  unique_violation : string;
  reference_violation : string;
  select_rows : forall R p (t : table R), select p t ≡ₚ filter (fun r => p r = true) (rows t);
  select_desc_rows : forall R (key : R -> Z) p (t : table R),
    select_desc key p t ≡ₚ filter (fun r => p r = true) (rows t)
    /\ StronglySorted (fun a b => (key b <= key a)%Z) (select_desc key p t);
  join_rows : forall R S on (t : table R) (t' : table S),
    inner_join on t t' ≡ₚ filter (fun x => on x.1 x.2 = true) (list_prod (rows t) (rows t'));
  rows_insert : forall R (r : R) t, rows (insert_row r t) ≡ₚ r :: rows t;
  rows_update : forall R p f (t : table R), rows (update_rows p f t) ≡ₚ map (fun r => if p r then f r else r) (rows t);
  rows_delete : forall R p (t : table R), rows (delete_rows p t) ≡ₚ filter (fun r => p r = false) (rows t)
}.

Lemma list_desc {R} (key : R -> Z) (p : R -> bool) t :
  let l := js_sort (fun a b => (key b - key a)%Z) (filter (fun r => p r = true) t) in
  l ≡ₚ filter (fun r => p r = true) t /\ StronglySorted (fun a b => (key b <= key a)%Z) l.
Proof.
  split; [apply js_sort_perm|].
  assert (Comparator (fun a b : R => (key b - key a)%Z)) as Hc by (split; unfold cmp_le; intros; lia).
  eapply StronglySorted_weaken; [|apply js_sort_sorted, Hc]. unfold cmp_le. intros; lia.
Qed.

Definition list_engine : Engine := {|
  table R := list R;
  rows R t := t;
  select R p t := filter (fun r => p r = true) t;
  select_desc R key p t := js_sort (fun a b => (key b - key a)%Z) (filter (fun r => p r = true) t);
  inner_join R S on t t' := filter (fun x => on x.1 x.2 = true) (list_prod t t');
  insert_row R r t := r :: t;
  update_rows R p f t := map (fun r => if p r then f r else r) t;
  delete_rows R p t := filter (fun r => p r = false) t;
  unique_violation := "unique constraint violated";
  reference_violation := "foreign key constraint violated";
  select_rows R p t := reflexivity _;
  select_desc_rows R key p t := list_desc key p t;
  join_rows R S on t t' := reflexivity _;
  rows_insert R r t := reflexivity _;
  rows_update R p f t := reflexivity _;
  rows_delete R p t := reflexivity _
|}.

(** ** Configuration: [db/env.ts] *)
Inductive DatabaseType := PostgresDb | MysqlDb.
#[export] Instance DatabaseType_eq_dec : EqDecision DatabaseType.
Proof. solve_decision. Defined.

Record DatabaseConfig := MkDatabaseConfig { cfg_type : DatabaseType; databaseUrl : option string }.

Definition type_name (t : DatabaseType) : string := match t with PostgresDb => "postgres" | MysqlDb => "mysql" end.

(** [DB_TYPE] and [DATABASE_URL] of the environment. *)
Definition getDatabaseConfig (DB_TYPE DATABASE_URL : option string) : res DatabaseConfig :=
  let configuredType := ostr_or (js_trim <$> DB_TYPE) "mysql" in
  if decide (configuredType = "mysql") then Return (MkDatabaseConfig MysqlDb DATABASE_URL)
  else if decide (configuredType = "postgres") then Return (MkDatabaseConfig PostgresDb DATABASE_URL)
  else Throw (JsError ("Unsupported DB_TYPE=" +:+ configuredType +:+ "; expected mysql or postgres")).

Definition assertDatabaseConfig (config : DatabaseConfig) : res DatabaseConfig :=
  if ostr_truthy (databaseUrl config) then Return config
  else Throw (JsError ("DATABASE_URL must be set when DB_TYPE=" +:+ type_name (cfg_type config))).

(** ** Schema: the columns the application reads and writes *)
Record UserRow := MkUserRow {
  u_id : string; u_name : option string; u_email : string; u_passwordHash : option string;
  u_role : string; u_setupCompletedAt : option Date; u_isActive : bool;
  u_createdAt : Date; u_updatedAt : Date
}.

Inductive ProjectKind := Personal | Team.
Inductive ProjectRole := Owner | Editor | Runner.
Inductive ProjectAction := View | Edit | Run | Manage.
#[export] Instance ProjectKind_eq_dec : EqDecision ProjectKind.
Proof. solve_decision. Defined.
#[export] Instance ProjectRole_eq_dec : EqDecision ProjectRole.
Proof. solve_decision. Defined.
#[export] Instance ProjectAction_eq_dec : EqDecision ProjectAction.
Proof. solve_decision. Defined.

Record ProjectRow := MkProjectRow {
  p_id : string; p_name : string; p_kind : ProjectKind; p_createdBy : string;
  p_createdAt : Date; p_updatedAt : Date
}.

Record MemberRow := MkMemberRow { m_projectId : string; m_userId : string; m_role : ProjectRole; m_createdAt : Date }.

Record TokenRow := MkTokenRow {
  t_id : string; t_name : string; t_tokenHash : string; t_userId : string; t_projectId : string;
  t_scopes : string; t_expiresAt : Date; t_lastUsedAt : option Date; t_revokedAt : option Date;
  t_createdAt : Date
}.

(** The keys: a second row with the same key is refused. *)
Definition m_key (m : MemberRow) : string * string := (m_projectId m, m_userId m).

(** [personalOwnerKey]: the creator of a personal project; other rows have none. *)
Definition personalOwnerKey (p : ProjectRow) : option string :=
  match p_kind p with Personal => Some (p_createdBy p) | Team => None end.

Definition user_conflict (a b : UserRow) : bool :=
  bool_decide (u_id a = u_id b) || bool_decide (u_email a = u_email b).
Definition project_conflict (a b : ProjectRow) : bool :=
  bool_decide (p_id a = p_id b)
  || match personalOwnerKey a with Some k => bool_decide (Some k = personalOwnerKey b) | None => false end.
Definition member_conflict (a b : MemberRow) : bool := bool_decide (m_key a = m_key b).
Definition token_conflict (a b : TokenRow) : bool :=
  bool_decide (t_id a = t_id b) || bool_decide (t_tokenHash a = t_tokenHash b).

Section Tables.
Context `{E : Engine}.

Record Db := MkDb {
  users : table UserRow;
  projects : table ProjectRow;
  projectMembers : table MemberRow;
  agentTokens : table TokenRow
}.

Definition on_users f (d : Db) : Db := MkDb (f (users d)) (projects d) (projectMembers d) (agentTokens d).
Definition on_projects f (d : Db) : Db := MkDb (users d) (f (projects d)) (projectMembers d) (agentTokens d).
Definition on_members f (d : Db) : Db := MkDb (users d) (projects d) (f (projectMembers d)) (agentTokens d).
Definition on_tokens f (d : Db) : Db := MkDb (users d) (projects d) (projectMembers d) (f (agentTokens d)).

Definition has_user (id : string) (d : Db) : bool := existsb (fun u => bool_decide (u_id u = id)) (rows (users d)).
Definition has_project (id : string) (d : Db) : bool :=
  existsb (fun p => bool_decide (p_id p = id)) (rows (projects d)).

(** ** Statements

    [INSERT] refuses a row whose references do not exist and a row whose key is
    taken; [ON CONFLICT] and [ON DUPLICATE KEY] say what happens to the latter
    instead. *)
Definition guarded (ok : bool) (message : string) (d : Db) : res Db :=
  if ok then Return d else Throw (JsError message).

Definition insert_user (r : UserRow) (d : Db) : res Db :=
  if existsb (user_conflict r) (rows (users d)) then Throw (JsError unique_violation)
  else Return (on_users (insert_row r) d).

Definition insert_project (r : ProjectRow) (d : Db) : res Db :=
  if negb (has_user (p_createdBy r) d) then Throw (JsError reference_violation)
  else if existsb (project_conflict r) (rows (projects d)) then Throw (JsError unique_violation)
  else Return (on_projects (insert_row r) d).

Definition insert_project_or_ignore (r : ProjectRow) (d : Db) : res Db :=
  if existsb (project_conflict r) (rows (projects d)) then Return d else insert_project r d.

Definition insert_member (r : MemberRow) (d : Db) : res Db :=
  if negb (has_user (m_userId r) d && has_project (m_projectId r) d) then Throw (JsError reference_violation)
  else if existsb (member_conflict r) (rows (projectMembers d)) then Throw (JsError unique_violation)
  else Return (on_members (insert_row r) d).

Definition insert_member_or_ignore (r : MemberRow) (d : Db) : res Db :=
  if existsb (member_conflict r) (rows (projectMembers d)) then Return d else insert_member r d.

(** One [INSERT] of several rows: all or none. *)
Fixpoint insert_members_or_ignore (rs : list MemberRow) (d : Db) : res Db :=
  match rs with
  | [] => Return d
  | r :: rs' => d' ← insert_member_or_ignore r d; insert_members_or_ignore rs' d'
  end.

Definition set_role (role : ProjectRole) (m : MemberRow) : MemberRow :=
  MkMemberRow (m_projectId m) (m_userId m) role (m_createdAt m).

Definition insert_member_or_set_role (r : MemberRow) (role : ProjectRole) (d : Db) : res Db :=
  if existsb (member_conflict r) (rows (projectMembers d))
  then Return (on_members (update_rows (member_conflict r) (set_role role)) d)
  else insert_member r d.

Definition insert_token (r : TokenRow) (d : Db) : res Db :=
  if negb (has_user (t_userId r) d && has_project (t_projectId r) d) then Throw (JsError reference_violation)
  else if existsb (token_conflict r) (rows (agentTokens d)) then Throw (JsError unique_violation)
  else Return (on_tokens (insert_row r) d).

(** A transaction: its statements as one, undone when one of them throws. *)
Definition transaction {A} (body : Db -> res (A * Db)) : Proc Db A :=
  statement (fun d => match body d with Return (a, d') => (Return a, d') | Throw e => (Throw e, d) end).

Lemma run_committed {A} (body : Db -> res (A * Db)) d a d' : body d = Return (a, d') ->
  run (transaction body) d = (Return a, d').
Proof. intros H. unfold transaction, statement. simpl. by rewrite H. Qed.

Lemma run_rolled_back {A} (body : Db -> res (A * Db)) d e : body d = Throw e -> run (transaction body) d = (Throw e, d).
Proof. intros H. unfold transaction, statement. simpl. by rewrite H. Qed.

(** ** Integrity *)
Record intact (d : Db) : Prop := {
  user_ids : NoDup (map u_id (rows (users d)));
  user_emails : NoDup (map u_email (rows (users d)));
  project_ids : NoDup (map p_id (rows (projects d)));
  personal_owners : NoDup (omap personalOwnerKey (rows (projects d)));
  member_keys : NoDup (map m_key (rows (projectMembers d)));
  token_ids : NoDup (map t_id (rows (agentTokens d)));
  token_hashes : NoDup (map t_tokenHash (rows (agentTokens d)));
  project_refs : Forall (fun p => has_user (p_createdBy p) d = true) (rows (projects d));
  member_refs : Forall (fun m => has_user (m_userId m) d = true /\ has_project (m_projectId m) d = true)
                  (rows (projectMembers d));
  token_refs : Forall (fun t => has_user (t_userId t) d = true /\ has_project (t_projectId t) d = true)
                 (rows (agentTokens d))
}.

(** ** Rows of a table *)
Lemma elem_of_select {R} p (t : table R) r : r ∈ select p t <-> p r = true /\ r ∈ rows t.
Proof. by rewrite select_rows, list_elem_of_filter. Qed.

Lemma elem_of_insert_row {R} (r r' : R) t : r' ∈ rows (insert_row r t) <-> r' = r \/ r' ∈ rows t.
Proof. rewrite rows_insert. apply elem_of_cons. Qed.

Lemma elem_of_update_rows {R} p f (t : table R) r :
  r ∈ rows (update_rows p f t) <-> exists r0, r0 ∈ rows t /\ r = if p r0 then f r0 else r0.
Proof. rewrite rows_update, list_elem_of_fmap. naive_solver. Qed.

Lemma elem_of_delete_rows {R} p (t : table R) r : r ∈ rows (delete_rows p t) <-> r ∈ rows t /\ p r = false.
Proof. rewrite rows_delete, list_elem_of_filter. naive_solver. Qed.

Lemma elem_of_inner_join {R S} on (t : table R) (t' : table S) x :
  x ∈ inner_join on t t' <-> on x.1 x.2 = true /\ x.1 ∈ rows t /\ x.2 ∈ rows t'.
Proof.
  rewrite join_rows, list_elem_of_filter. destruct x as [a b]. simpl.
  rewrite !list_elem_of_In, in_prod_iff. done.
Qed.

Lemma has_user_spec id d : has_user id d = true <-> exists u, u ∈ rows (users d) /\ u_id u = id.
Proof.
  unfold has_user. rewrite existsb_exists. setoid_rewrite bool_decide_eq_true.
  by setoid_rewrite list_elem_of_In.
Qed.

Lemma has_project_spec id d : has_project id d = true <-> exists p, p ∈ rows (projects d) /\ p_id p = id.
Proof.
  unfold has_project. rewrite existsb_exists. setoid_rewrite bool_decide_eq_true.
  by setoid_rewrite list_elem_of_In.
Qed.

Lemma existsb_none {A} (p : A -> bool) l : existsb p l = false <-> forall x, x ∈ l -> p x = false.
Proof.
  rewrite <- not_true_iff_false, existsb_exists. setoid_rewrite <- list_elem_of_In.
  setoid_rewrite <- not_true_iff_false. naive_solver.
Qed.

(** The one row a key query can return. *)
Lemma select_key {R K} (key : R -> K) (p : R -> bool) (t : table R) r :
  NoDup (map key (rows t)) -> r ∈ rows t -> (forall x, p x = true <-> key x = key r) -> select p t = [r].
Proof.
  intros Hnd Hr Hp.
  assert (forall x, x ∈ select p t -> x = r) as Hall.
  { intros x [Hx Hin]%elem_of_select. apply (key_unique key (rows t)); [done..|]. by apply Hp. }
  assert (NoDup (select p t)) as Hn.
  { rewrite select_rows. apply NoDup_filter. by apply (NoDup_fmap_1 key). }
  assert (r ∈ select p t) as Hin by (apply elem_of_select; rewrite Hp; done).
  destruct (select p t) as [|a l]; [by apply elem_of_nil in Hin|].
  rewrite (Hall a (list_elem_of_here _ _)) in *. f_equal. apply NoDup_cons in Hn as [Hn _].
  destruct l as [|b l]; [done|]. exfalso. apply Hn. rewrite (Hall b); [left|right; left].
Qed.

Lemma select_none {R} (p : R -> bool) (t : table R) : (forall r, r ∈ rows t -> p r = false) -> select p t = [].
Proof.
  intros H. destruct (select p t) as [|r l] eqn:Es; [done|].
  assert (r ∈ select p t) as [Hp Hr]%elem_of_select by (rewrite Es; left). by rewrite (H r Hr) in Hp.
Qed.
End Tables.

(** * Integrity of the database

    Every statement the application issues keeps keys unique and references
    valid, and none removes a user or changes a project: [grows] is what any
    request may rely on while it waits. *)

Section Facts.
Context `{E : Engine}.
Implicit Types d : Db.

(** ** Keys *)
Lemma nodup_insert {R K} (key : R -> K) r (t : table R) :
  NoDup (map key (rows t)) -> (forall x, x ∈ rows t -> key x <> key r) -> NoDup (map key (rows (insert_row r t))).
Proof.
  intros Hn Hr. rewrite rows_insert. simpl. apply NoDup_cons. split; [|done].
  intros (x & Hk & Hx)%list_elem_of_fmap. by apply (Hr x).
Qed.

Lemma update_keys {R K} (key : R -> K) p f (t : table R) :
  (forall x, key (f x) = key x) -> map key (rows (update_rows p f t)) ≡ₚ map key (rows t).
Proof.
  intros Hf. rewrite rows_update, map_map. apply Permutation_refl', map_ext.
  intros x. by destruct (p x).
Qed.

Lemma nodup_update {R K} (key : R -> K) p f (t : table R) :
  (forall x, key (f x) = key x) -> NoDup (map key (rows t)) -> NoDup (map key (rows (update_rows p f t))).
Proof. intros Hf. by rewrite update_keys. Qed.

Lemma nodup_delete {R K} (key : R -> K) p (t : table R) :
  NoDup (map key (rows t)) -> NoDup (map key (rows (delete_rows p t))).
Proof.
  rewrite rows_delete. intros Hn. induction (rows t) as [|x l IH]; [done|].
  simpl in Hn. apply NoDup_cons in Hn as [Hx Hl]. rewrite filter_cons. case_decide; [|auto].
  simpl. apply NoDup_cons. split; [|auto].
  intros (y & Hk & [_ Hy]%list_elem_of_filter)%list_elem_of_fmap. apply Hx. rewrite Hk.
  by apply list_elem_of_fmap_2.
Qed.

Lemma forall_update {R} (P : R -> Prop) p f (t : table R) :
  (forall x, P x -> P (f x)) -> Forall P (rows t) -> Forall P (rows (update_rows p f t)).
Proof.
  rewrite !Forall_forall. intros Hf H x (y & Hy & ->)%elem_of_update_rows. destruct (p y); auto.
Qed.

Lemma forall_insert {R} (P : R -> Prop) r (t : table R) :
  P r -> Forall P (rows t) -> Forall P (rows (insert_row r t)).
Proof. rewrite rows_insert. by constructor. Qed.

Lemma forall_delete {R} (P : R -> Prop) p (t : table R) :
  Forall P (rows t) -> Forall P (rows (delete_rows p t)).
Proof. rewrite !Forall_forall. intros H x [Hx _]%elem_of_delete_rows. auto. Qed.

Lemma NoDup_list_prod {A B} (l : list A) (l' : list B) : NoDup l -> NoDup l' -> NoDup (list_prod l l').
Proof.
  intros Hl Hl'. induction Hl as [|x l Hx Hl IH]; simpl; [constructor|]. apply NoDup_app.
  split; [by apply NoDup_fmap_2; [congruence|]|]. split; [|done].
  intros [a b] (y & [= -> ->] & _)%list_elem_of_fmap Hin. apply list_elem_of_In, in_prod_iff in Hin as [Hin _].
  by apply Hx, list_elem_of_In.
Qed.

(** ** What never changes *)
Record grows d d' : Prop := {
  users_kept : forall id, has_user id d = true -> has_user id d' = true;
  projects_kept : forall p, p ∈ rows (projects d) -> p ∈ rows (projects d')
}.

#[export] Instance grows_preorder : PreOrder grows.
Proof.
  split; [by split|]. intros a b c [H1 H2] [H3 H4]. split; auto.
Qed.

Lemma grows_project d d' id : grows d d' -> has_project id d = true -> has_project id d' = true.
Proof. rewrite !has_project_spec. intros [_ Hp] (p & Hin & He). eauto. Qed.

Lemma grows_on_members f d : grows d (on_members f d).
Proof. by split. Qed.

Lemma grows_on_tokens f d : grows d (on_tokens f d).
Proof. by split. Qed.

Lemma grows_insert_project r d : grows d (on_projects (insert_row r) d).
Proof. split; [done|]. intros p Hp. simpl. apply elem_of_insert_row. by right. Qed.

Lemma grows_insert_user r d : grows d (on_users (insert_row r) d).
Proof.
  split; [|done]. intros id. rewrite !has_user_spec. intros (u & Hu & He).
  exists u. split; [apply elem_of_insert_row; by right|done].
Qed.

Lemma grows_update_users p f d : (forall u, u_id (f u) = u_id u) -> grows d (on_users (update_rows p f) d).
Proof.
  intros Hf. split; [|done]. intros id. rewrite !has_user_spec. intros (u & Hu & <-).
  exists (if p u then f u else u). split; [apply elem_of_update_rows; eauto|]. destruct (p u); auto.
Qed.

(** References stay valid while the database grows. *)
Lemma refs_grow {R} (user project : R -> string) l d d' : grows d d' ->
  Forall (fun r => has_user (user r) d = true /\ has_project (project r) d = true) l ->
  Forall (fun r => has_user (user r) d' = true /\ has_project (project r) d' = true) l.
Proof.
  intros Hg H. eapply Forall_impl; [exact H|]. intros r [Hu Hp]. split; [by apply Hg|by apply (grows_project d)].
Qed.

(** ** Every statement keeps the database intact *)
Lemma insert_user_intact r d d' : insert_user r d = Return d' -> intact d -> intact d' /\ grows d d'.
Proof.
  unfold insert_user. destruct (existsb _ _) eqn:Ex; [done|]. intros [= <-] [].
  pose proof (proj1 (existsb_none _ _) Ex) as Hc. pose proof (grows_insert_user r d) as Hg.
  split; [|done]. split; simpl; try done.
  - apply nodup_insert; [done|]. intros x Hx Hk. specialize (Hc x Hx). unfold user_conflict in Hc. bools. congruence.
  - apply nodup_insert; [done|]. intros x Hx Hk. specialize (Hc x Hx). unfold user_conflict in Hc. bools. congruence.
  - eapply Forall_impl; [done|]. intros p Hp. by apply Hg.
  - by apply (refs_grow m_userId m_projectId _ d).
  - by apply (refs_grow t_userId t_projectId _ d).
Qed.

Lemma insert_project_intact r d d' : insert_project r d = Return d' -> intact d -> intact d' /\ grows d d'.
Proof.
  unfold insert_project. destruct (has_user _ d) eqn:Hu; [|done]. simpl.
  destruct (existsb _ _) eqn:Ex; [done|]. intros [= <-] [].
  pose proof (proj1 (existsb_none _ _) Ex) as Hc. pose proof (grows_insert_project r d) as Hg.
  unfold project_conflict in Hc. split; [|done]. split; simpl; try done.
  - apply nodup_insert; [done|]. intros x Hx Hk. specialize (Hc x Hx). bools. congruence.
  - rewrite rows_insert. simpl. destruct (personalOwnerKey r) as [k|] eqn:Ek; [|done].
    apply NoDup_cons. split; [|done]. intros (x & Hx & Hk)%list_elem_of_omap.
    specialize (Hc x Hx). bools. congruence.
  - by apply forall_insert.
  - by apply (refs_grow m_userId m_projectId _ d).
  - by apply (refs_grow t_userId t_projectId _ d).
Qed.

Lemma insert_member_intact r d d' : insert_member r d = Return d' -> intact d -> intact d' /\ grows d d'.
Proof.
  unfold insert_member. destruct (_ && _) eqn:Hr; [|done]. simpl.
  destruct (existsb _ _) eqn:Ex; [done|]. intros [= <-] [].
  pose proof (proj1 (existsb_none _ _) Ex) as Hc. split; [|apply grows_on_members].
  unfold member_conflict in Hc. split; simpl; try done.
  - apply nodup_insert; [done|]. intros x Hx Hk. specialize (Hc x Hx). bools. congruence.
  - apply forall_insert; [|done]. by apply andb_true_iff in Hr.
Qed.

Lemma insert_token_intact r d d' : insert_token r d = Return d' -> intact d -> intact d' /\ grows d d'.
Proof.
  unfold insert_token. destruct (_ && _) eqn:Hr; [|done]. simpl.
  destruct (existsb _ _) eqn:Ex; [done|]. intros [= <-] [].
  pose proof (proj1 (existsb_none _ _) Ex) as Hc. split; [|apply grows_on_tokens].
  unfold token_conflict in Hc. split; simpl; try done.
  - apply nodup_insert; [done|]. intros x Hx Hk. specialize (Hc x Hx). bools. congruence.
  - apply nodup_insert; [done|]. intros x Hx Hk. specialize (Hc x Hx). bools. congruence.
  - apply forall_insert; [|done]. by apply andb_true_iff in Hr.
Qed.

Lemma update_users_intact p f d : (forall u, u_id (f u) = u_id u /\ u_email (f u) = u_email u) -> intact d ->
  intact (on_users (update_rows p f) d) /\ grows d (on_users (update_rows p f) d).
Proof.
  intros Hf []. assert (grows d (on_users (update_rows p f) d)) as Hg by (apply grows_update_users; apply Hf).
  split; [|done]. split; simpl; try done.
  - apply nodup_update; [apply Hf|done].
  - apply nodup_update; [apply Hf|done].
  - eapply Forall_impl; [done|]. intros q Hq. by apply Hg.
  - by apply (refs_grow m_userId m_projectId _ d).
  - by apply (refs_grow t_userId t_projectId _ d).
Qed.

Lemma update_members_intact p role d : intact d -> intact (on_members (update_rows p (set_role role)) d).
Proof. intros []. split; simpl; try done; [by apply nodup_update|by apply forall_update]. Qed.

Lemma delete_members_intact p d : intact d -> intact (on_members (delete_rows p) d).
Proof. intros []. split; simpl; try done; [by apply nodup_delete|by apply forall_delete]. Qed.

Lemma update_tokens_intact p f d :
  (forall t, t_id (f t) = t_id t /\ t_tokenHash (f t) = t_tokenHash t
             /\ t_userId (f t) = t_userId t /\ t_projectId (f t) = t_projectId t) ->
  intact d -> intact (on_tokens (update_rows p f) d).
Proof.
  intros Hf []. split; simpl; try done.
  - apply nodup_update; [apply Hf|done].
  - apply nodup_update; [apply Hf|done].
  - apply forall_update; [|done]. intros t. by destruct (Hf t) as (_ & _ & -> & ->).
Qed.

(** ** Queries by key *)
Lemma select_user_id d u : intact d -> u ∈ rows (users d) ->
  select (fun x => bool_decide (u_id x = u_id u)) (users d) = [u].
Proof. intros [] Hu. apply (select_key u_id); [done..|]. intros x. by rewrite bool_decide_eq_true. Qed.

Lemma select_user_email d u : intact d -> u ∈ rows (users d) ->
  select (fun x => bool_decide (u_email x = u_email u)) (users d) = [u].
Proof. intros [] Hu. apply (select_key u_email); [done..|]. intros x. by rewrite bool_decide_eq_true. Qed.

Lemma select_project_id d p : intact d -> p ∈ rows (projects d) ->
  select (fun x => bool_decide (p_id x = p_id p)) (projects d) = [p].
Proof. intros [] Hp. apply (select_key p_id); [done..|]. intros x. by rewrite bool_decide_eq_true. Qed.
End Facts.
