(* ===== verification/Projects.v ===== *)
(** * Projects and members: [ui-v2/src/modules/projects]

    [server/service.ts], the types of [types.ts] and the server actions of
    [actions.ts].  Every [await] on the database is one step of a [Proc];
    [now] and [uuid] are what [new Date()] and [randomUUID()] give the call;
    [connection_type] is the configured database; [localeCompare] is the
    platform's collation. *)

From S2P Require Import Prelude FlowTypes JsLib Process ServerInput Database.
Open Scope Z_scope.

(** ** Types *)
Record ProjectSummary := MkSummary {
  ps_id : string; ps_name : string; ps_kind : ProjectKind; ps_createdBy : string;
  ps_createdAt : string; ps_updatedAt : string
}.

Record ProjectMembership := MkMembership {
  pm_summary : ProjectSummary;
  pm_projectRole : ProjectRole;
  pm_allowedActions : list ProjectAction
}.

Record ProjectMemberUser := MkMemberUser {
  mu_id : string; mu_email : string; mu_name : option string; mu_role : string;
  mu_projectRole : option ProjectRole; mu_isActive : bool
}.

(** ** Roles *)
Definition ROLE_ACTIONS (role : ProjectRole) : list ProjectAction :=
  match role with
  | Owner => [View; Edit; Run; Manage]
  | Editor => [View; Edit; Run]
  | Runner => [View; Run]
  end.

Definition allowedActionsForRole (role : ProjectRole) : list ProjectAction := ROLE_ACTIONS role.

(** The columns hold dates, so only the first case of the function arises. *)
Definition toIsoString (value : Date) : string := date_iso value.

Definition mapProject (record : ProjectRow) : ProjectSummary :=
  MkSummary (p_id record) (p_name record) (p_kind record) (p_createdBy record)
    (toIsoString (p_createdAt record)) (toIsoString (p_updatedAt record)).

Definition mapMembership (record : ProjectRow) (projectRole : option ProjectRole) (platformRole : option string)
    : ProjectMembership :=
  let projectRole := if decide (platformRole = Some "admin") then Owner else default Editor projectRole in
  MkMembership (mapProject record) projectRole (allowedActionsForRole projectRole).

Section Service.
Context `{E : Engine} (connection_type : DatabaseType) (localeCompare : string -> string -> Z).

Definition sortMemberships (projects : list ProjectMembership) : list ProjectMembership :=
  js_sort (fun left right =>
    let l := pm_summary left in
    let r := pm_summary right in
    if decide (ps_kind l = ps_kind r) then localeCompare (ps_name l) (ps_name r)
    else if decide (ps_kind l = Personal) then -1 else 1) projects.

Definition listProjectsForUser (userId : string) (role : option string) : Proc Db (list ProjectMembership) :=
  rows ← (if decide (role = Some "admin")
          then query (fun d => map (fun p => (p, None))
                 (select (fun p => bool_decide (p_kind p = Team) || bool_decide (p_createdBy p = userId)) (projects d)))
          else query (fun d => map (fun x => (x.1, Some (m_role x.2)))
                 (inner_join (fun p m => bool_decide (p_id p = m_projectId m) && bool_decide (m_userId m = userId))
                    (projects d) (projectMembers d))));
  mret (sortMemberships (map (fun row => mapMembership row.1 row.2 role) rows)).

Definition createProject (name adminUserId : string) (now : Date) (uuid : string) : Proc Db ProjectSummary :=
  let values := MkProjectRow uuid (js_trim name) Team adminUserId now now in
  let member := MkMemberRow uuid adminUserId Owner now in
  match connection_type with
  | PostgresDb =>
      result ← transaction (fun d => d1 ← insert_project values d; d2 ← insert_member member d1; Return (values, d2));
      mret (mapProject result)
  | MysqlDb =>
      result ← transaction (fun d =>
        d1 ← insert_project values d;
        d2 ← insert_member member d1;
        Return (head (select (fun p => bool_decide (p_id p = uuid)) (projects d2)), d2));
      match result with Some row => mret (mapProject row) | None => throw JsTypeError end
  end.

Definition findExisting (userId : string) : Proc Db (option ProjectRow) :=
  query (fun d => head (select (fun p => bool_decide (p_createdBy p = userId) && bool_decide (p_kind p = Personal))
                          (projects d))).

Definition ensurePersonalProject (userId : string) (now : Date) (uuid : string) : Proc Db ProjectMembership :=
  existing ← findExisting userId;
  project ← (match existing with
             | Some p => mret (Some p)
             | None =>
                 let values := MkProjectRow uuid "Personal" Personal userId now now in
                 execute (insert_project_or_ignore values);;
                 findExisting userId
             end);
  match project with
  | None => fail "Unable to create personal workspace"
  | Some p =>
      execute (insert_member_or_set_role (MkMemberRow (p_id p) userId Owner now) Owner);;
      mret (mapMembership p (Some Owner) None)
  end.

Definition getProject (projectId : string) : Proc Db (option ProjectSummary) :=
  row ← query (fun d => head (select (fun p => bool_decide (p_id p = projectId)) (projects d)));
  mret (mapProject <$> (row : option ProjectRow)).

Definition member_user (x : MemberRow * UserRow) : ProjectMemberUser :=
  MkMemberUser (u_id x.2) (u_email x.2) (u_name x.2) (u_role x.2) (Some (m_role x.1)) (u_isActive x.2).

Definition by_email (l : list ProjectMemberUser) : list ProjectMemberUser :=
  js_sort (fun left right => localeCompare (mu_email left) (mu_email right)) l.

Definition listProjectMembers (projectId : string) : Proc Db (list ProjectMemberUser) :=
  rows ← query (fun d => map member_user
    (inner_join (fun m u => bool_decide (m_userId m = u_id u) && bool_decide (m_projectId m = projectId))
       (projectMembers d) (users d)));
  mret (by_email rows).

Definition addUsersToProject (projectId : string) (userIds : list string) (projectRole : ProjectRole) (now : Date)
    : Proc Db unit :=
  match userIds with
  | [] => mret tt
  | _ =>
      project ← getProject projectId;
      match project with
      | None => fail "Project not found"
      | Some p =>
          if decide (ps_kind p = Personal) then fail "Personal workspaces cannot have additional members"
          else
            let member userId := MkMemberRow projectId userId projectRole now in
            match connection_type with
            | PostgresDb => execute (insert_members_or_ignore (map member userIds))
            | MysqlDb => proc_each (fun userId => execute (insert_member_or_ignore (member userId))) userIds
            end
      end
  end.

Definition owners (members : list ProjectMemberUser) : list ProjectMemberUser :=
  filter (fun m => mu_projectRole m = Some Owner) members.

Definition find_member (userId : string) (members : list ProjectMemberUser) : option ProjectMemberUser :=
  List.find (fun m => bool_decide (mu_id m = userId)) members.

Definition is_membership (projectId userId : string) (m : MemberRow) : bool :=
  bool_decide (m_projectId m = projectId) && bool_decide (m_userId m = userId).

(** The checks that [removeUserFromProject] and [updateProjectMemberRole] share. *)
Definition team_members (projectId : string) : Proc Db (list ProjectMemberUser) :=
  project ← getProject projectId;
  match project with
  | None => fail "Project not found"
  | Some p =>
      if decide (ps_kind p = Personal) then fail "Personal workspace ownership cannot be changed"
      else listProjectMembers projectId
  end.

Definition final_owner (userId : string) (members : list ProjectMemberUser) : bool :=
  bool_decide ((find_member userId members ≫= mu_projectRole) = Some Owner)
  && (Z.of_nat (length (owners members)) <=? 1).

Definition removeUserFromProject (projectId userId : string) : Proc Db unit :=
  members ← team_members projectId;
  if final_owner userId members then fail "The final team owner cannot be removed"
  else execute (fun d => Return (on_members (delete_rows (is_membership projectId userId)) d)).

Definition updateProjectMemberRole (projectId userId : string) (projectRole : ProjectRole) : Proc Db unit :=
  members ← team_members projectId;
  match find_member userId members with
  | None => fail "Project member not found"
  | Some _ =>
      if final_owner userId members && negb (bool_decide (projectRole = Owner))
      then fail "The final team owner cannot be demoted"
      else execute (fun d => Return (on_members (update_rows (is_membership projectId userId) (set_role projectRole)) d))
  end.

Definition getProjectMembership (userId projectId : string) (platformRole : option string)
    : Proc Db (option ProjectMembership) :=
  if decide (platformRole = Some "admin") then
    project ← getProject projectId;
    mret ((fun p => MkMembership p Owner (allowedActionsForRole Owner)) <$> (project : option ProjectSummary))
  else
    projects ← listProjectsForUser userId platformRole;
    mret (List.find (fun m => bool_decide (ps_id (pm_summary m) = projectId)) projects).

Definition userHasProjectPermission (userId projectId : string) (action : ProjectAction)
    (platformRole : option string) : Proc Db bool :=
  membership ← getProjectMembership userId projectId platformRole;
  mret (match membership with Some m => set_has action (pm_allowedActions m) | None => false end).

Definition userHasProjectAccess (userId projectId : string) (role : option string) : Proc Db bool :=
  userHasProjectPermission userId projectId View role.

Definition listUnassignedUsersForProject (projectId : string) : Proc Db (list ProjectMemberUser) :=
  members ← listProjectMembers projectId;
  let memberIds := set_of_list (map mu_id members) in
  rows ← query (fun d => select (fun _ => true) (users d));
  mret (by_email (map (fun u =>
      MkMemberUser (u_id u) (u_email u) (if ostr_truthy (u_name u) then u_name u else None) (u_role u) None (u_isActive u))
    (filter (fun u => set_has (u_id u) memberIds = false) rows))).

(** ** Server actions: [actions.ts] *)
Definition requireMemberManager (session : Session) (projectId : string) : Proc Db unit :=
  let refuse := fail "You do not have permission to manage this team." in
  match session_user session with
  | None => refuse
  | Some (id, u) =>
      allowed ← userHasProjectPermission id projectId Manage (su_role u);
      if (allowed : bool) then mret tt else refuse
  end.

Definition role_of_text (s : string) : option ProjectRole :=
  if decide (s = "owner") then Some Owner
  else if decide (s = "editor") then Some Editor
  else if decide (s = "runner") then Some Runner else None.

Definition addTeamMembersAction (session : Session) (formData : FormData) (now : Date) : Proc Db unit :=
  let projectId := readTrimmedString formData "projectId" in
  requireMemberManager session projectId;;
  addUsersToProject projectId (form_texts "userIds" formData) Runner now.

Definition updateTeamMemberRoleAction (session : Session) (formData : FormData) : Proc Db unit :=
  let projectId := readTrimmedString formData "projectId" in
  let userId := readTrimmedString formData "userId" in
  let role := readTrimmedString formData "projectRole" in
  requireMemberManager session projectId;;
  match role_of_text role with
  | None => fail "Invalid project role."
  | Some r => updateProjectMemberRole projectId userId r
  end.

Definition removeTeamMemberAction (session : Session) (formData : FormData) : Proc Db unit :=
  let projectId := readTrimmedString formData "projectId" in
  let userId := readTrimmedString formData "userId" in
  requireMemberManager session projectId;;
  removeUserFromProject projectId userId.
End Service.
