(* ===== verification/ProjectFacts.v ===== *)
(** * What the project service guarantees

    Permissions, under any interleaving of calls the privacy of personal
    workspaces, and for calls that do not overlap the final owner of a team. *)

From S2P Require Import Prelude FlowTypes JsLib Process ServerInput Database Projects.
From stdpp Require Import relations.
Open Scope Z_scope.

Section Facts.
Context `{E : Engine} (connection_type : DatabaseType) (localeCompare : string -> string -> Z).
Implicit Types d : Db.

(** ** Permissions *)

(** Who may do what: an administrator everything in a project that exists, any
    other user what the role of the membership allows. *)
Definition may d (userId projectId : string) (action : ProjectAction) (platformRole : option string) : Prop :=
  if decide (platformRole = Some "admin") then has_project projectId d = true
  else exists m, m ∈ rows (projectMembers d) /\ m_key m = (projectId, userId) /\ action ∈ ROLE_ACTIONS (m_role m).

Lemma head_select_project d id :
  head (select (fun p => bool_decide (p_id p = id)) (projects d)) = None <-> has_project id d = false.
Proof.
  rewrite <- not_true_iff_false, has_project_spec. split.
  - intros Hh (p & Hp & Hid). destruct (select _ (projects d)) as [|x l] eqn:Es; [|done].
    assert (p ∈ select (fun p => bool_decide (p_id p = id)) (projects d)) as Hin.
    { apply elem_of_select. by rewrite bool_decide_eq_true. }
    rewrite Es in Hin. by apply elem_of_nil in Hin.
  - intros Hn. rewrite select_none; [done|]. intros p Hp. apply bool_decide_eq_false. eauto.
Qed.

Lemma head_select_in {R} (p : R -> bool) (t : table R) r : head (select p t) = Some r -> p r = true /\ r ∈ rows t.
Proof.
  intros Hh. apply elem_of_select. destruct (select p t); [done|]. injection Hh as ->. left.
Qed.

(** The memberships of a user, each from a row of the join. *)
Lemma run_listProjects userId role d : role <> Some "admin" ->
  exists l, run (listProjectsForUser localeCompare userId role) d = (Return l, d)
    /\ forall pm, pm ∈ l <-> exists p m, p ∈ rows (projects d) /\ m ∈ rows (projectMembers d)
                    /\ m_key m = (p_id p, userId) /\ pm = mapMembership p (Some (m_role m)) role.
Proof.
  intros Hr. unfold listProjectsForUser. rewrite decide_False by done. eexists. split; [done|].
  intros pm. unfold sortMemberships. rewrite elem_of_js_sort. simpl. rewrite map_map, list_elem_of_fmap. split.
  - intros ([p m] & -> & Hin%elem_of_inner_join). simpl in Hin. destruct Hin as (Hc & Hp & Hm).
    bools. exists p, m. repeat split; [done|done|]. unfold m_key. congruence.
  - intros (p & m & Hp & Hm & Hk & ->). injection Hk as Hk1 Hk2. exists (p, m). split; [done|].
    apply elem_of_inner_join. simpl. rewrite andb_true_iff, !bool_decide_eq_true. auto.
Qed.

Lemma permission_spec userId projectId action platformRole d : intact d ->
  exists b, run (userHasProjectPermission localeCompare userId projectId action platformRole) d = (Return b, d)
    /\ (b = true <-> may d userId projectId action platformRole).
Proof.
  intros Hd. unfold userHasProjectPermission, getProjectMembership, may. rewrite run_bind.
  destruct (decide (platformRole = Some "admin")) as [Ha|Ha]; rewrite run_bind.
  - unfold getProject. rewrite run_bind. simpl. eexists. split; [done|].
    destruct (head _) as [p|] eqn:Eh; simpl.
    + apply head_select_in in Eh as [He Hp]. bools. subst projectId. split; [intros _|].
      * apply has_project_spec. eauto.
      * intros _. by destruct action.
    + apply head_select_project in Eh. rewrite Eh. done.
  - destruct (run_listProjects userId platformRole d Ha) as (l & -> & Hl). eexists. split; [done|].
    simpl. destruct (List.find _ l) as [pm|] eqn:Ef.
    + apply List.find_some in Ef as [Hin He]. bools. apply list_elem_of_In, Hl in Hin as (p & m & Hp & Hm & Hk & ->).
      unfold set_has, mapMembership in *. simpl in *. rewrite decide_False by done. simpl.
      rewrite bool_decide_eq_true. subst projectId. split; [by eauto|].
      intros (m' & Hm' & Hk' & Hact). rewrite (key_unique m_key (rows (projectMembers d)) m m');
        [done|apply Hd|done|done|congruence].
    + split; [done|]. intros (m & Hm & Hk & _). exfalso.
      pose proof (proj1 (Forall_forall _ _) (member_refs d Hd) m Hm) as [_ Hp].
      apply has_project_spec in Hp as (p & Hp & Hid). injection Hk as Hk1 Hk2.
      assert (mapMembership p (Some (m_role m)) platformRole ∈ l) as Hin.
      { apply Hl. exists p, m. repeat split; [done|done|]. unfold m_key. congruence. }
      apply list_elem_of_In in Hin. apply (List.find_none _ _ Ef) in Hin. bools. simpl in Hin. congruence.
Qed.

(** ** Calls *)
Inductive Call :=
| CreateProject (name admin : string) (now : Date) (uuid : string)
| EnsurePersonal (userId : string) (now : Date) (uuid : string)
| AddUsers (projectId : string) (userIds : list string) (role : ProjectRole) (now : Date)
| RemoveUser (projectId userId : string)
| UpdateRole (projectId userId : string) (role : ProjectRole).

Definition serve (c : Call) : Proc Db unit :=
  match c with
  | CreateProject name admin now uuid => createProject connection_type name admin now uuid;; mret tt
  | EnsurePersonal userId now uuid => ensurePersonalProject userId now uuid;; mret tt
  | AddUsers projectId userIds role now => addUsersToProject connection_type projectId userIds role now
  | RemoveUser projectId userId => removeUserFromProject localeCompare projectId userId
  | UpdateRole projectId userId role => updateProjectMemberRole localeCompare projectId userId role
  end.

(** ** Personal workspaces stay private *)
Definition belongs d (m : MemberRow) : Prop := forall p, p ∈ rows (projects d) -> p_id p = m_projectId m ->
  p_kind p = Personal -> m_userId m = p_createdBy p /\ m_role m = Owner.

Definition private d : Prop := intact d /\ Forall (belongs d) (rows (projectMembers d)).

Definition team d (projectId : string) : Prop :=
  exists p, p ∈ rows (projects d) /\ p_id p = projectId /\ p_kind p = Team.

Lemma team_grows d d' id : grows d d' -> team d id -> team d' id.
Proof. intros Hg (p & Hp & ?). exists p. split; [by apply Hg|done]. Qed.

Lemma team_belongs d m : intact d -> team d (m_projectId m) -> belongs d m.
Proof.
  intros Hd (p & Hp & Hid & Hk) q Hq Hqid Hpers.
  assert (p = q) as -> by (apply (key_unique p_id (rows (projects d))); [apply Hd|done|done|congruence]).
  congruence.
Qed.

Lemma on_members_private f d : private d -> intact (on_members f d) ->
  Forall (belongs d) (rows (f (projectMembers d))) -> private (on_members f d) /\ grows d (on_members f d).
Proof. intros _ Hi Hb. split; [|apply grows_on_members]. by split. Qed.

Lemma insert_member_private r d d' : insert_member r d = Return d' -> private d -> belongs d r ->
  private d' /\ grows d d'.
Proof.
  intros Hins [Hd Hb] Hr. destruct (insert_member_intact r d d' Hins Hd) as [Hi Hg].
  unfold insert_member in Hins. destruct (negb _); [done|]. destruct (existsb _ _); [done|].
  injection Hins as <-. apply on_members_private; [done|done|]. by apply forall_insert.
Qed.

Lemma insert_member_or_ignore_private r d d' : insert_member_or_ignore r d = Return d' -> private d ->
  belongs d r -> private d' /\ grows d d'.
Proof.
  unfold insert_member_or_ignore. destruct (existsb _ _); [|apply insert_member_private].
  intros [= <-] Hp _. by split.
Qed.

Lemma insert_project_private r d d' : insert_project r d = Return d' -> private d -> private d' /\ grows d d'.
Proof.
  intros Hins [Hd Hb]. destruct (insert_project_intact r d d' Hins Hd) as [Hi Hg]. split; [|done]. split; [done|].
  unfold insert_project in Hins. destruct (negb _); [done|]. destruct (existsb _ _) eqn:Ex; [done|].
  injection Hins as <-. simpl. pose proof (proj1 (existsb_none _ _) Ex) as Hc.
  rewrite Forall_forall in *. intros m Hm p [->|Hp]%elem_of_insert_row Hid; [|by apply (Hb m)].
  pose proof (proj1 (Forall_forall _ _) (member_refs d Hd) m Hm) as [_ (q & Hq & Hqid)%has_project_spec].
  specialize (Hc q Hq). unfold project_conflict in Hc. bools. congruence.
Qed.

Local Notation wp_p p Q d := (wp private grows p Q d).

Lemma wp_getProject id d0 : wp_p (getProject id)
  (fun o d => forall s, o = Some s -> ps_kind s = Team -> team d id) d0.
Proof.
  unfold getProject. apply wp_bind, (wp_query _ grows). intros d Hg Hp. simpl. intros s Hs Hk.
  destruct (head _) as [p|] eqn:Eh; [|done]. injection Hs as <-. apply head_select_in in Eh as [He Hin].
  bools. exists p. done.
Qed.

Lemma wp_team_members id d0 : wp_p (team_members localeCompare id) (fun _ d => team d id) d0.
Proof.
  unfold team_members. apply wp_bind. eapply wp_mono; [|apply wp_getProject]. intros o d Ho.
  destruct o as [s|]; [|done]. simpl. case_decide as Hk; [done|]. specialize (Ho s eq_refl).
  unfold listProjectMembers. apply wp_bind, (wp_query _ grows). intros d' Hg _. apply (team_grows d); [done|].
  apply Ho. by destruct (ps_kind s).
Qed.

Lemma update_members_private projectId userId role d : private d -> team d projectId ->
  let d' := on_members (update_rows (is_membership projectId userId) (set_role role)) d in
  private d' /\ grows d d'.
Proof.
  intros [Hd Hb] Ht d'. apply on_members_private; [done|by apply update_members_intact|].
  rewrite Forall_forall in *. intros m (m0 & Hm0 & ->)%elem_of_update_rows.
  destruct (is_membership _ _ m0) eqn:Em; [|by apply Hb]. unfold is_membership in Em. bools.
  apply team_belongs; [done|]. simpl. congruence.
Qed.

Lemma wp_ensurePersonal userId now uuid d0 : wp_p (ensurePersonalProject userId now uuid) (fun _ _ => True) d0.
Proof.
  assert (forall d1, wp_p (findExisting userId) (fun o d => forall p, o = Some p ->
            p ∈ rows (projects d) /\ p_createdBy p = userId /\ p_kind p = Personal) d1) as Hfind.
  { intros d1. apply (wp_query _ grows). intros d Hg _ p [He Hp]%head_select_in. by bools. }
  unfold ensurePersonalProject. apply wp_bind. eapply wp_mono; [|apply Hfind]. intros o d Ho.
  apply wp_bind. apply (wp_mono _ _ _ (fun o d => forall p, o = Some p ->
    p ∈ rows (projects d) /\ p_createdBy p = userId /\ p_kind p = Personal)).
  2: { destruct o as [p|]; [done|]. apply wp_bind, (wp_execute _ grows). intros d1 d2 Hg Hpr Hins.
       assert (private d2 /\ grows d1 d2) as [H1 H2].
       { unfold insert_project_or_ignore in Hins. destruct (existsb _ _); [by injection Hins as <-|].
         by eapply insert_project_private. }
       split; [done|]. split; [done|]. apply Hfind. }
  intros o' d1 Ho'. destruct o' as [p|]; [|done]. destruct (Ho' p eq_refl) as (Hp & Hc & Hk).
  apply wp_bind, (wp_execute _ grows). intros d2 d3 Hg Hpr Hins.
  set (r := MkMemberRow (p_id p) userId Owner now) in *.
  assert (belongs d2 r) as Hb.
  { intros q Hq Hid _. simpl in *. split; [|done].
    rewrite (key_unique p_id (rows (projects d2)) q p); [done|apply Hpr|done|by apply Hg|done]. }
  unfold insert_member_or_set_role in Hins. destruct (existsb _ _).
  - injection Hins as <-. split; [|split; [apply grows_on_members|done]].
    destruct Hpr as [Hd Hm]. apply on_members_private; [done|by apply update_members_intact|].
    rewrite Forall_forall in *. intros m (m0 & Hm0 & ->)%elem_of_update_rows.
    destruct (member_conflict _ m0) eqn:Ec; [|by apply Hm]. unfold member_conflict in Ec. bools.
    injection Ec as Ec1 Ec2. intros q Hq Hid Hpers. simpl in *. split; [|done]. rewrite <- Ec2.
    apply (Hb q Hq); [by rewrite Hid|done].
  - destruct (insert_member_private _ _ _ Hins Hpr Hb). done.
Qed.

Lemma wp_createProject name admin now uuid d0 :
  wp_p (createProject connection_type name admin now uuid) (fun _ _ => True) d0.
Proof.
  set (values := MkProjectRow uuid (js_trim name) Team admin now now).
  assert (forall d d1 d2, private d -> insert_project values d = Return d1 ->
            insert_member (MkMemberRow uuid admin Owner now) d1 = Return d2 -> private d2 /\ grows d d2) as Hboth.
  { intros d d1 d2 Hp H1 H2. destruct (insert_project_private _ _ _ H1 Hp) as [Hp1 Hg1].
    destruct (insert_member_private _ _ _ H2 Hp1) as [Hp2 Hg2]; [|split; [done|by etransitivity]].
    apply team_belongs; [apply Hp1|]. exists values. split; [|done].
    unfold insert_project in H1. destruct (negb _); [done|]. destruct (existsb _ _); [done|].
    injection H1 as <-. simpl. apply elem_of_insert_row. by left. }
  unfold createProject. fold values.
  destruct connection_type; apply wp_bind, wp_statement; intros d r d' _ Hp; simpl;
    (destruct (insert_project values d) as [d1|e] eqn:H1; [|intros [= <- <-]; by split]; simpl;
     destruct (insert_member _ d1) as [d2|e] eqn:H2; [|intros [= <- <-]; by split]; simpl;
     intros [= <- <-]; destruct (Hboth d d1 d2 Hp H1 H2); split; [done|]; split; [done|]).
  - done.
  - by destruct (head _).
Qed.

Lemma wp_addUsers projectId userIds role now d0 :
  wp_p (addUsersToProject connection_type projectId userIds role now) (fun _ _ => True) d0.
Proof.
  assert (forall rs d d', insert_members_or_ignore rs d = Return d' -> private d -> team d projectId ->
            Forall (fun r => m_projectId r = projectId) rs -> private d' /\ grows d d') as Hall.
  { intros rs. induction rs as [|r rs IH]; intros d d'; simpl; [intros [= <-] **; by split|].
    destruct (insert_member_or_ignore r d) as [d1|] eqn:H1; [|done]. simpl. intros Hrs Hp Ht [Hr Hf]%Forall_cons.
    destruct (insert_member_or_ignore_private _ _ _ H1 Hp) as [Hp1 Hg1];
      [apply team_belongs; [apply Hp|congruence]|].
    destruct (IH _ _ Hrs Hp1 (team_grows _ _ _ Hg1 Ht) Hf) as [??]. split; [done|by etransitivity]. }
  unfold addUsersToProject. destruct userIds as [|u us]; [done|]. lazy beta iota zeta.
  generalize (u :: us). intros ids. apply wp_bind.
  eapply wp_mono; [|apply wp_getProject]. intros [s|] d Ho; [|done]. simpl. case_decide as Hk; [done|].
  assert (team d projectId) as Ht by (apply (Ho s); [done|by destruct (ps_kind s)]). clear Ho Hk.
  destruct connection_type.
  - apply (wp_execute _ grows). intros d1 d2 Hg Hp Hins.
    destruct (Hall (map (fun userId => MkMemberRow projectId userId role now) ids) _ _ Hins Hp
                (team_grows _ _ _ Hg Ht)) as [??]; [|done].
    apply Forall_forall. by intros r (x & -> & _)%list_elem_of_fmap.
  - eapply wp_mono; [|apply (wp_each private grows _ _ (fun d => team d projectId))]; [done|..|done].
    + intros d1 d2 H1 Hg. by eapply team_grows.
    + intros x d1 _ Ht1. apply (wp_execute _ grows). intros d2 d3 Hg Hp Hins.
      pose proof (team_grows _ _ _ Hg Ht1) as Ht2.
      destruct (insert_member_or_ignore_private _ _ _ Hins Hp) as [??]; [by apply team_belongs; [apply Hp|]|].
      split; [done|]. split; [done|]. by eapply team_grows.
Qed.

Lemma wp_removeUser projectId userId d0 :
  wp_p (removeUserFromProject localeCompare projectId userId) (fun _ _ => True) d0.
Proof.
  apply wp_bind. eapply wp_mono; [|apply wp_team_members]. intros members d Ht. simpl.
  destruct (final_owner _ _); [done|]. apply (wp_execute _ grows). intros d1 d2 Hg Hp [= <-].
  destruct Hp as [Hd Hb]. split; [|split; [apply grows_on_members|done]].
  apply on_members_private; [done|by apply delete_members_intact|by apply forall_delete].
Qed.

Lemma wp_updateRole projectId userId role d0 :
  wp_p (updateProjectMemberRole localeCompare projectId userId role) (fun _ _ => True) d0.
Proof.
  apply wp_bind. eapply wp_mono; [|apply wp_team_members]. intros members d Ht. simpl.
  destruct (find_member _ _); [|done]. destruct (_ && _); [done|].
  apply (wp_execute _ grows). intros d1 d2 Hg Hp [= <-].
  destruct (update_members_private projectId userId role d1 Hp (team_grows _ _ _ Hg Ht)). done.
Qed.

Lemma wp_serve c d0 : wp_p (serve c) (fun _ _ => True) d0.
Proof.
  destruct c as [name admin now uuid|userId now uuid|projectId userIds role now|projectId userId|projectId userId role];
    cbn [serve].
  - apply wp_bind. eapply wp_mono; [|apply wp_createProject]. done.
  - apply wp_bind. eapply wp_mono; [|apply wp_ensurePersonal]. done.
  - apply wp_addUsers.
  - apply wp_removeUser.
  - apply wp_updateRole.
Qed.

(** Personal workspaces stay private: however the calls of the service
    interleave, at every await, each user has at most one personal workspace and
    the only membership it has is its creator's, as owner. *)
Theorem personal_workspaces_private calls d c' :
  private d -> pool_steps (map (fun c => MkTask unit (serve c)) calls, d) c' ->
  NoDup (omap personalOwnerKey (rows (projects c'.2)))
  /\ forall p m, p ∈ rows (projects c'.2) -> p_kind p = Personal ->
       m ∈ rows (projectMembers c'.2) -> m_projectId m = p_id p -> m_userId m = p_createdBy p /\ m_role m = Owner.
Proof.
  intros Hp Hsteps. destruct (pool_safe private grows _ _ Hsteps Hp) as ((Hd & Hb) & _ & _).
  { apply Forall_forall. intros t (c & -> & _)%list_elem_of_fmap. apply wp_serve. }
  split; [apply Hd|]. intros p m Hin Hk Hm Hid. by apply (proj1 (Forall_forall _ _) Hb m Hm p).
Qed.

(** ** The final owner of a team *)
Definition owned d : Prop := forall p, p ∈ rows (projects d) -> p_kind p = Team ->
  exists m, m ∈ rows (projectMembers d) /\ m_projectId m = p_id p /\ m_role m = Owner.

Definition keeps_owned (f : Db -> res Db) : Prop := forall d d', f d = Return d' -> owned d -> owned d'.

Lemma owned_members d f :
  (forall m, m ∈ rows (projectMembers d) -> m_role m = Owner ->
     exists m', m' ∈ rows (f (projectMembers d)) /\ m_projectId m' = m_projectId m /\ m_role m' = Owner) ->
  owned d -> owned (on_members f d).
Proof.
  intros Hf Ho p Hp Hk. destruct (Ho p Hp Hk) as (m & Hm & Hid & Hr).
  destruct (Hf m Hm Hr) as (m' & ? & ? & ?). exists m'. repeat split; [done|congruence|done].
Qed.

Lemma insert_member_owned r : keeps_owned (insert_member r).
Proof.
  intros d d'. unfold insert_member. destruct (negb _); [done|]. destruct (existsb _ _); [done|].
  intros [= <-]. apply owned_members. intros m Hm Hr. exists m. split; [apply elem_of_insert_row; by right|done].
Qed.

Lemma insert_member_or_ignore_owned r : keeps_owned (insert_member_or_ignore r).
Proof.
  intros d d'. unfold insert_member_or_ignore. destruct (existsb _ _); [by intros [= <-]|apply insert_member_owned].
Qed.

Lemma insert_members_or_ignore_owned rs : keeps_owned (insert_members_or_ignore rs).
Proof.
  induction rs as [|r rs IH]; intros d d'; simpl; [by intros [= <-]|].
  destruct (insert_member_or_ignore r d) as [d1|] eqn:E1; [|done]. simpl.
  intros H Ho. eapply IH; [done|]. by eapply insert_member_or_ignore_owned.
Qed.

Lemma insert_member_or_set_owner_owned r : keeps_owned (insert_member_or_set_role r Owner).
Proof.
  intros d d'. unfold insert_member_or_set_role. destruct (existsb _ _); [|apply insert_member_owned].
  intros [= <-]. apply owned_members. intros m Hm Hr.
  exists (if member_conflict r m then set_role Owner m else m). split; [apply elem_of_update_rows; eauto|].
  by destruct (member_conflict r m).
Qed.

Lemma insert_project_rows r d d' : insert_project r d = Return d' -> d' = on_projects (insert_row r) d.
Proof. unfold insert_project. destruct (negb _); [done|]. destruct (existsb _ _); [done|]. by intros [= <-]. Qed.

Lemma insert_personal_owned r : p_kind r = Personal -> keeps_owned (insert_project_or_ignore r).
Proof.
  intros Hr d d'. unfold insert_project_or_ignore. destruct (existsb _ _); [by intros [= <-]|].
  intros ->%insert_project_rows Ho p [->|Hp]%elem_of_insert_row Hk; [congruence|by apply Ho].
Qed.

#[local] Instance no_rely : PreOrder (fun _ _ : Db => True).
Proof. by split. Qed.

Lemma wp_executes (f : Db -> res Db) d0 : keeps_owned f -> wp owned (fun _ _ => True) (execute f) (fun _ _ => True) d0.
Proof. intros Hf. apply (wp_execute _ _). intros d d' _ Ho Hd. split; [by eapply Hf|done]. Qed.

(** The calls that only add. *)
Lemma adding_owned c d : match c with RemoveUser _ _ | UpdateRole _ _ _ => False | _ => True end ->
  owned d -> owned (run (serve c) d).2.
Proof.
  intros Hc Ho. apply (wp_run owned (fun _ _ => True) (serve c) (fun _ _ => True)); [|done].
  destruct c as [name admin now uuid|userId now uuid|projectId userIds role now|projectId userId|projectId userId role];
    [..|done|done]; cbn [serve]; clear Hc.
  - apply wp_bind. unfold createProject.
    destruct connection_type; apply wp_bind, wp_statement; intros d0 r d' _ Hd; simpl;
      (destruct (insert_project _ d0) as [d1|e] eqn:H1; [|intros [= <- <-]; done]; simpl;
       destruct (insert_member _ d1) as [d2|e] eqn:H2; [|intros [= <- <-]; done]; simpl;
       intros [= <- <-]; split; [|split; [done|simpl; try done; by destruct (head _)]]);
      (apply insert_project_rows in H1 as ->; unfold insert_member in H2;
       destruct (negb _); [done|]; destruct (existsb _ _); [done|]; injection H2 as <-;
       intros p Hp Hk; simpl in *; apply elem_of_insert_row in Hp as [->|Hp];
       [eexists; split; [apply elem_of_insert_row; by left|done]|];
       destruct (Hd p Hp Hk) as (m & Hm & ?); exists m; split; [apply elem_of_insert_row; by right|done]).
  - apply wp_bind. unfold ensurePersonalProject, findExisting. apply wp_bind, (wp_query _ _). intros d1 _ _.
    apply wp_bind. destruct (head _) as [p|].
    + apply wp_ret, wp_bind. eapply wp_mono; [|apply wp_executes, insert_member_or_set_owner_owned]. done.
    + apply wp_bind. eapply wp_mono; [|by apply wp_executes, insert_personal_owned]. intros _ d2 _.
      apply (wp_query _ _). intros d3 _ _. destruct (head _) as [p|]; [|done].
      apply wp_bind. eapply wp_mono; [|apply wp_executes, insert_member_or_set_owner_owned]. done.
  - unfold addUsersToProject. destruct userIds as [|u us]; [done|]. lazy beta iota zeta.
    generalize (u :: us). intros ids. unfold getProject. apply wp_bind, wp_bind, (wp_query _ _). intros d1 _ _.
    simpl. destruct (head _) as [p|]; [|done]. simpl. case_decide; [done|]. destruct connection_type.
    + apply wp_executes, insert_members_or_ignore_owned.
    + apply (wp_each owned (fun _ _ => True) _ _ (fun _ => True)); [done| |done].
      intros x d2 _ _. apply wp_executes, insert_member_or_ignore_owned.
Qed.

(** The members of a project, each once. *)
Lemma run_members projectId d : intact d ->
  exists l, run (listProjectMembers localeCompare projectId) d = (Return l, d)
    /\ NoDup (map mu_id l)
    /\ forall x, x ∈ l <-> exists m u, m ∈ rows (projectMembers d) /\ u ∈ rows (users d)
                  /\ m_key m = (projectId, u_id u) /\ x = member_user (m, u).
Proof.
  intros Hd. unfold listProjectMembers. eexists. split; [done|]. simpl. unfold by_email. split.
  - rewrite js_sort_perm, map_map. apply NoDup_fmap_2_strong.
    + intros [m u] [m' u'] Hx Hy He. apply elem_of_inner_join in Hx as (Hc & Hm & Hu).
      apply elem_of_inner_join in Hy as (Hc' & Hm' & Hu'). simpl in *. bools.
      assert (u = u') as -> by (by apply (key_unique u_id (rows (users d))); [apply Hd|..]).
      f_equal. apply (key_unique m_key (rows (projectMembers d))); [apply Hd|done|done|].
      unfold m_key. congruence.
    + rewrite join_rows. apply NoDup_filter, NoDup_list_prod.
      * by eapply NoDup_fmap_1, member_keys.
      * by eapply NoDup_fmap_1, user_ids.
  - intros x. rewrite elem_of_js_sort, list_elem_of_fmap. split.
    + intros ([m u] & -> & (Hc & Hm & Hu)%elem_of_inner_join). simpl in *. bools.
      exists m, u. repeat split; [done|done|]. unfold m_key. congruence.
    + intros (m & u & Hm & Hu & Hk & ->). injection Hk as Hk1 Hk2. exists (m, u). split; [done|].
      apply elem_of_inner_join. simpl. rewrite andb_true_iff, !bool_decide_eq_true. auto.
Qed.

(** A member who is not the final owner leaves an owner behind. *)
Lemma other_owner userId l x : NoDup (map mu_id l) -> final_owner userId l = false ->
  x ∈ l -> mu_projectRole x = Some Owner -> exists y, y ∈ l /\ mu_id y <> userId /\ mu_projectRole y = Some Owner.
Proof.
  intros Hn Hf Hx Hr. destruct (decide (mu_id x = userId)) as [He|]; [|by exists x].
  assert (find_member userId l = Some x) as Hfind.
  { unfold find_member. destruct (List.find _ l) as [y|] eqn:Ey.
    - apply List.find_some in Ey as [Hy Hid]. bools. f_equal.
      apply (key_unique mu_id l); [done|by apply list_elem_of_In|done|congruence].
    - apply list_elem_of_In, (List.find_none _ _ Ey) in Hx. bools. done. }
  unfold final_owner in Hf. rewrite Hfind in Hf. simpl in Hf. rewrite bool_decide_eq_true_2 in Hf by done.
  apply Z.leb_gt in Hf.
  assert (NoDup (map mu_id (owners l))) as Hno.
  { unfold owners. clear -Hn. induction l as [|z l IH]; [done|]. simpl in Hn. apply NoDup_cons in Hn as [Hz Hl].
    rewrite filter_cons. case_decide; [|by apply IH]. simpl. apply NoDup_cons. split; [|by apply IH].
    intros (y & Hk & [_ Hy]%list_elem_of_filter)%list_elem_of_fmap. apply Hz. rewrite Hk. by apply list_elem_of_fmap_2. }
  assert (forall y, y ∈ owners l -> mu_projectRole y = Some Owner /\ y ∈ l) as Hown.
  { intros y. unfold owners. by rewrite list_elem_of_filter. }
  destruct (owners l) as [|a [|b ol]]; [done|simpl in Hf; lia|].
  destruct (Hown a) as [Ha Hal]; [left|]. destruct (Hown b) as [Hb Hbl]; [right; left|].
  destruct (decide (mu_id a = userId)) as [Hea|]; [|by exists a].
  exists b. split; [done|]. split; [|done]. simpl in Hno. apply NoDup_cons in Hno as [Hab _].
  intros Heb. apply Hab. rewrite Hea, <- Heb. left.
Qed.

Lemma run_team_members projectId d : intact d ->
  (exists e, run (team_members localeCompare projectId) d = (Throw e, d))
  \/ exists l, run (team_members localeCompare projectId) d = (Return l, d)
       /\ run (listProjectMembers localeCompare projectId) d = (Return l, d).
Proof.
  intros Hd. unfold team_members. rewrite run_bind. unfold getProject. rewrite run_bind. simpl.
  destruct (head _) as [p|]; simpl; [|left; by eexists]. case_decide; [left; by eexists|].
  right. destruct (run_members projectId d Hd) as (l & Hl & _). exists l. by rewrite Hl.
Qed.

(** The two ways to take an owner away. *)
Lemma changed_owned projectId userId l d f :
  intact d -> run (listProjectMembers localeCompare projectId) d = (Return l, d) ->
  (final_owner userId l = false \/ forall m, m_role m = Owner -> is_membership projectId userId m = true ->
      m ∈ rows (projectMembers d) ->
      exists m', m' ∈ rows (f (projectMembers d)) /\ m_projectId m' = m_projectId m /\ m_role m' = Owner) ->
  (forall m, m ∈ rows (projectMembers d) -> is_membership projectId userId m = false -> m ∈ rows (f (projectMembers d))) ->
  owned d -> owned (on_members f d).
Proof.
  intros Hd Hl Hcase Hkeep Ho. apply owned_members; [|done]. intros m Hm Hr.
  destruct (is_membership projectId userId m) eqn:Em; [|by exists m; split; [apply Hkeep|]].
  destruct Hcase as [Hf|Hf]; [|by apply Hf].
  destruct (run_members projectId d Hd) as (l' & Hl' & Hn & Hin). rewrite Hl in Hl'. injection Hl' as <-.
  pose proof (proj1 (Forall_forall _ _) (member_refs d Hd) m Hm) as [(u & Hu & Hid)%has_user_spec _].
  unfold is_membership in Em. bools.
  destruct (other_owner userId l (member_user (m, u)) Hn Hf) as (y & Hy & Hne & Hro).
  - apply Hin. exists m, u. repeat split; [done|done|]. unfold m_key. congruence.
  - simpl. by rewrite Hr.
  - apply Hin in Hy as (m' & u' & Hm' & Hu' & Hk' & ->). simpl in *. injection Hk' as Hk1 Hk2.
    injection Hro as Hro. exists m'. split; [|split; [congruence|done]].
    apply Hkeep; [done|]. unfold is_membership. rewrite andb_false_iff, !bool_decide_eq_false. right. congruence.
Qed.

Lemma serve_owned c d : private d -> owned d -> private (run (serve c) d).2 /\ owned (run (serve c) d).2.
Proof.
  intros Hp Ho. split; [by apply (wp_run private grows _ _ _ (wp_serve c d))|].
  destruct c as [name admin now uuid|userId now uuid|projectId userIds role now|projectId userId|projectId userId role];
    [by apply adding_owned..| |]; cbn [serve];
    [unfold removeUserFromProject|unfold updateProjectMemberRole]; rewrite run_bind;
    (destruct (run_team_members projectId d) as [(e & ->)|(l & -> & Hl)]; [apply Hp|done|]).
  - destruct (final_owner userId l) eqn:Hf; [done|]. simpl.
    apply (changed_owned projectId userId l); [apply Hp|done|by left| |done].
    intros m Hm Em. by apply elem_of_delete_rows.
  - destruct (find_member userId l); [|done]. destruct (_ && _) eqn:Hf; [done|]. simpl.
    apply (changed_owned projectId userId l); [apply Hp|done| | |done].
    + apply andb_false_iff in Hf as [Hf|Hf]; [by left|right]. bools. subst role. intros m Hr Em Hm.
      exists (set_role Owner m). split; [|done]. apply elem_of_update_rows. exists m. by rewrite Em.
    + intros m Hm Em. apply elem_of_update_rows. exists m. by rewrite Em.
Qed.

(** ** The personal workspace *)
Lemma omap_key_unique {A K} (key : A -> option K) l x y k :
  NoDup (omap key l) -> x ∈ l -> y ∈ l -> key x = Some k -> key y = Some k -> x = y.
Proof.
  intros Hn Hx Hy Kx Ky. induction l as [|z l IH]; [by apply elem_of_nil in Hx|].
  simpl in Hn. rewrite elem_of_cons in Hx, Hy.
  assert (forall w, w ∈ l -> key w = Some k -> key z = Some k -> False) as Hne.
  { intros w Hw Kw Kz. rewrite Kz in Hn. simpl in Hn. apply NoDup_cons in Hn as [Hk _]. apply Hk.
    apply list_elem_of_omap. eauto. }
  destruct Hx as [->|Hx], Hy as [->|Hy]; [done| | |].
  - by destruct (Hne y Hy Ky Kx).
  - by destruct (Hne x Hx Kx Ky).
  - apply IH; [|done|done]. destruct (key z); [by apply NoDup_cons in Hn as [_ ?]|done].
Qed.

Lemma run_findExisting d p : intact d -> p ∈ rows (projects d) -> p_kind p = Personal ->
  run (findExisting (p_createdBy p)) d = (Return (Some p), d).
Proof.
  intros Hd Hp Hk. unfold findExisting. simpl.
  destruct (head _) as [q|] eqn:Eh.
  - apply head_select_in in Eh as [Hc Hq]. bools. repeat f_equal.
    apply (omap_key_unique personalOwnerKey (rows (projects d)) q p (p_createdBy p));
      [apply Hd|done|done| |]; unfold personalOwnerKey; case_match; congruence.
  - destruct (select _ _) eqn:Es; [|done]. exfalso.
    assert (p ∈ select (fun x => bool_decide (p_createdBy x = p_createdBy p) && bool_decide (p_kind x = Personal))
                  (projects d)) as Hin.
    { apply elem_of_select. by rewrite !bool_decide_eq_true_2. }
    rewrite Es in Hin. by apply elem_of_nil in Hin.
Qed.

(** Taking the ownership of a workspace that exists. *)
Lemma run_own d p now : intact d -> p ∈ rows (projects d) -> has_user (p_createdBy p) d = true ->
  exists d', insert_member_or_set_role (MkMemberRow (p_id p) (p_createdBy p) Owner now) Owner d = Return d'
    /\ projects d' = projects d /\ users d' = users d
    /\ exists m, m ∈ rows (projectMembers d') /\ m_key m = (p_id p, p_createdBy p) /\ m_role m = Owner.
Proof.
  intros Hd Hp Hu. unfold insert_member_or_set_role. destruct (existsb _ _) eqn:Ex.
  - eexists. split; [done|]. split; [done|]. split; [done|]. apply existsb_exists in Ex as (m & Hm & Hc).
    apply list_elem_of_In in Hm. pose proof Hc as Hk. unfold member_conflict in Hk. bools.
    exists (set_role Owner m). split; [|split; [exact (eq_sym Hk)|done]].
    simpl. apply elem_of_update_rows. exists m. by rewrite Hc.
  - unfold insert_member. rewrite Ex. simpl. rewrite Hu.
    rewrite (proj2 (has_project_spec (p_id p) d)) by eauto. simpl.
    eexists. split; [done|]. split; [done|]. split; [done|].
    exists (MkMemberRow (p_id p) (p_createdBy p) Owner now). split; [|done].
    simpl. apply elem_of_insert_row. by left.
Qed.

Lemma ensure_found d p now uuid : intact d -> p ∈ rows (projects d) -> p_kind p = Personal ->
  has_user (p_createdBy p) d = true ->
  exists d', run (ensurePersonalProject (p_createdBy p) now uuid) d = (Return (mapMembership p (Some Owner) None), d')
    /\ projects d' = projects d
    /\ exists m, m ∈ rows (projectMembers d') /\ m_key m = (p_id p, p_createdBy p) /\ m_role m = Owner.
Proof.
  intros Hd Hp Hk Hu. unfold ensurePersonalProject. rewrite run_bind, run_findExisting by done.
  destruct (run_own d p now Hd Hp Hu) as (d' & Hown & ? & ? & ?). simpl. rewrite Hown. simpl.
  exists d'. done.
Qed.

Lemma ensure_created d userId now uuid : intact d -> has_user userId d = true -> has_project uuid d = false ->
  (forall p, p ∈ rows (projects d) -> p_createdBy p = userId -> p_kind p <> Personal) ->
  let p := MkProjectRow uuid "Personal" Personal userId now now in
  exists d', run (ensurePersonalProject userId now uuid) d = (Return (mapMembership p (Some Owner) None), d')
    /\ p ∈ rows (projects d')
    /\ exists m, m ∈ rows (projectMembers d') /\ m_key m = (uuid, userId) /\ m_role m = Owner.
Proof.
  intros Hd Hu Hid Hno p.
  assert (insert_project p d = Return (on_projects (insert_row p) d)) as Hins.
  { unfold insert_project. simpl. rewrite Hu. simpl.
    rewrite (proj2 (existsb_none _ _)); [done|]. intros q Hq. unfold project_conflict. simpl.
    apply orb_false_iff. rewrite !bool_decide_eq_false. split.
    - intros He. rewrite <- not_true_iff_false, has_project_spec in Hid. eauto.
    - unfold personalOwnerKey. case_match; [|done]. intros [= He]. by apply (Hno q). }
  destruct (insert_project_intact _ _ _ Hins Hd) as [Hd1 Hg].
  set (d1 := on_projects (insert_row p) d) in *.
  assert (p ∈ rows (projects d1)) as Hp1 by (simpl; apply elem_of_insert_row; by left).
  destruct (run_own d1 p now Hd1 Hp1) as (d' & Hown & Hpr & _ & Hm); [by apply Hg|].
  exists d'. rewrite Hpr. split; [|done]. unfold ensurePersonalProject. rewrite run_bind.
  assert (run (findExisting userId) d = (Return None, d)) as ->.
  { unfold findExisting. simpl. rewrite select_none; [done|]. intros q Hq.
    apply andb_false_iff. rewrite !bool_decide_eq_false.
    destruct (decide (p_createdBy q = userId)); [right; by apply Hno|by left]. }
  assert (run (execute (insert_project_or_ignore p)) d = (Return tt, d1)) as Hexec.
  { simpl. unfold insert_project_or_ignore. rewrite Hins. destruct (existsb _ _) eqn:Ex; [|done].
    exfalso. unfold insert_project in Hins. simpl in Hins. by rewrite Hu, Ex in Hins. }
  lazy beta iota zeta. fold p. rewrite run_bind, run_bind, Hexec.
  change userId with (p_createdBy p) at 1. rewrite run_findExisting by done.
  rewrite run_bind. unfold execute at 1, statement. cbn [run]. change userId with (p_createdBy p).
  by rewrite Hown.
Qed.

(** Every user gets exactly one personal workspace: for a user that exists the
    call returns, the user owns the workspace it reports, and calling it again
    reports the same one and adds none. *)
Theorem personal_workspace_ensured userId now uuid now' uuid' d :
  private d -> has_user userId d = true -> has_project uuid d = false ->
  exists pm d' d'', run (ensurePersonalProject userId now uuid) d = (Return pm, d')
    /\ pm_projectRole pm = Owner
    /\ (exists p m, p ∈ rows (projects d') /\ pm_summary pm = mapProject p /\ p_kind p = Personal /\ p_createdBy p = userId
         /\ m ∈ rows (projectMembers d') /\ m_key m = (p_id p, userId) /\ m_role m = Owner)
    /\ run (ensurePersonalProject userId now' uuid') d' = (Return pm, d'') /\ projects d'' = projects d'.
Proof.
  intros Hp Hu Huuid.
  pose proof (wp_run private grows _ _ _ (wp_ensurePersonal userId now uuid d) Hp) as (Hp' & Hg & _).
  assert (exists p d', run (ensurePersonalProject userId now uuid) d = (Return (mapMembership p (Some Owner) None), d')
            /\ p ∈ rows (projects d') /\ p_kind p = Personal /\ p_createdBy p = userId
            /\ exists m, m ∈ rows (projectMembers d') /\ m_key m = (p_id p, userId) /\ m_role m = Owner)
    as (p & d' & Hrun & Hin & Hk & <- & m & Hm).
  { destruct (decide (Exists (fun p => p_createdBy p = userId /\ p_kind p = Personal) (rows (projects d))))
      as [(p & Hin & <- & Hk)%Exists_exists|Hno].
    - destruct (ensure_found d p now uuid) as (d' & Hrun & Hpr & Hm); [apply Hp|done..|].
      exists p, d'. by rewrite Hpr.
    - destruct (ensure_created d userId now uuid) as (d' & Hrun & Hin & Hm); [apply Hp|done|done| |by eexists _, d'].
      intros p Hin Hc Hk. apply Hno, Exists_exists. eauto. }
  rewrite Hrun in Hp', Hg. destruct (ensure_found d' p now' uuid') as (d'' & Hrun' & Hpr & _);
    [apply Hp'|done|done|by apply Hg|].
  exists (mapMembership p (Some Owner) None), d', d''. repeat split; [done|by exists p, m|done|done].
Qed.

(** C32: a team never loses its final owner as long as calls do not overlap: after
    any sequence of calls of the service, served one after the other, every
    team project still has an owner. *)
Theorem final_owner_kept calls d : private d -> owned d ->
  owned (fold_left (fun d c => (run (serve c) d).2) calls d).
Proof.
  revert d. induction calls as [|c calls IH]; intros d Hp Ho; [done|]. simpl.
  destruct (serve_owned c d Hp Ho). by apply IH.
Qed.

(** Permissions are those of the role: the check answers yes exactly when the
    caller is an administrator and the project exists, or the caller's
    membership has a role that allows the action; it changes nothing. *)
Theorem permission_iff_role userId projectId action platformRole d : intact d ->
  exists b, run (userHasProjectPermission localeCompare userId projectId action platformRole) d = (Return b, d)
    /\ (b = true <-> may d userId projectId action platformRole).
Proof. apply permission_spec. Qed.
End Facts.

(** ** A database of lists *)
#[local] Existing Instance list_engine.

Definition epoch : Date := MkDate 0 eq_refl.
Definition by_code (a b : string) : Z := if decide (a = b) then 0 else if str_gt a b then 1 else -1.

Definition demo_user (id : string) : UserRow :=
  MkUserRow id (Some id) (id +:+ "@example.com") None "normal" None true epoch epoch.

(** Ann and Bob own a team together; Cid has no project. *)
Definition demo_db : Db :=
  MkDb [demo_user "ann"; demo_user "bob"; demo_user "cid"]
    [MkProjectRow "team" "Team" Team "ann" epoch epoch]
    [MkMemberRow "team" "ann" Owner epoch; MkMemberRow "team" "bob" Owner epoch] [].

Lemma demo_intact : intact demo_db.
Proof. by split; apply (bool_decide_unpack _); vm_compute. Qed.

Lemma demo_private : private demo_db.
Proof.
  split; [apply demo_intact|]. apply Forall_forall. intros m _ p [->|[]%elem_of_nil]%elem_of_cons. done.
Qed.

Lemma demo_owned : owned demo_db.
Proof.
  intros p [->|[]%elem_of_nil]%elem_of_cons _. exists (MkMemberRow "team" "ann" Owner epoch).
  split; [left|done].
Qed.

(** Two removals that overlap can take away both owners of a team: each counts two
    owners before either has deleted its row, so both succeed and the team is
    left without an owner. *)
Theorem overlapping_removals_orphan_team :
  private demo_db /\ owned demo_db
  /\ let calls := [RemoveUser "team" "ann"; RemoveUser "team" "bob"] in
     let '(tasks, d) := schedule [0; 1; 0; 1; 0; 1]%nat (map (serve MysqlDb by_code) calls, demo_db) in
     tasks = [Done (Return tt); Done (Return tt)] /\ rows (projectMembers d) = [] /\ ~ owned d.
Proof.
  split; [apply demo_private|]. split; [apply demo_owned|]. vm_compute.
  split; [done|]. split; [done|]. intros Ho.
  destruct (Ho (MkProjectRow "team" "Team" Team "ann" epoch epoch)) as (m & []%elem_of_nil & _); [left|done].
Qed.

Lemma personal_workspaces_private_witness :
  NoDup (omap personalOwnerKey
    (rows (projects (schedule [0; 1; 0; 1; 1; 0; 0; 1]%nat
       (map (serve MysqlDb by_code) [EnsurePersonal "cid" epoch "p1"; EnsurePersonal "cid" epoch "p2"], demo_db)).2))).
Proof.
  refine (proj1 (personal_workspaces_private MysqlDb by_code
    [EnsurePersonal "cid" epoch "p1"; EnsurePersonal "cid" epoch "p2"] demo_db _ demo_private
    (schedule_steps [0; 1; 0; 1; 1; 0; 0; 1]%nat
       (map (serve MysqlDb by_code) [EnsurePersonal "cid" epoch "p1"; EnsurePersonal "cid" epoch "p2"]) demo_db))).
Defined.

Lemma final_owner_kept_witness :
  owned (fold_left (fun d c => (run (serve MysqlDb by_code c) d).2)
           [RemoveUser "team" "ann"; RemoveUser "team" "bob"] demo_db).
Proof. exact (final_owner_kept MysqlDb by_code _ demo_db demo_private demo_owned). Defined.

Lemma permission_iff_role_witness :
  (run (userHasProjectPermission by_code "bob" "team" Manage (Some "normal")) demo_db).1 = Return true.
Proof.
  destruct (permission_iff_role by_code "bob" "team" Manage (Some "normal") demo_db demo_intact) as (b & -> & Hb).
  simpl. f_equal. apply Hb. exists (MkMemberRow "team" "bob" Owner epoch).
  split; [right; left|]. split; [reflexivity|]. simpl. repeat constructor.
Defined.

Lemma personal_workspace_ensured_witness :
  exists pm d', run (ensurePersonalProject "cid" epoch "p1") demo_db = (Return pm, d') /\ pm_projectRole pm = Owner.
Proof.
  destruct (personal_workspace_ensured "cid" epoch "p1" epoch "p2" demo_db demo_private) as (pm & d' & d'' & H & Hr & _);
    [reflexivity|reflexivity|]. exists pm, d'. split; [exact H|exact Hr].
Defined.
