(* ===== verification/JsonParse.v ===== *)
(** * [JSON.parse]

    A parser of JSON text: [None] is a [SyntaxError].  As elsewhere numbers are
    integers and characters are bytes, so a number with a fraction or an
    exponent and an escape above [\u00ff] are refused too.  An object keeps the
    last of two equal keys in the place of the first.  The fuel of a text is
    twice its length: a call that does not consume a character is followed by
    one that does. *)

From S2P Require Import Prelude FlowTypes JsLib ClientId Json.
From Stdlib Require Import Ascii.
Open Scope Z_scope.

Definition char_of (n : Z) : ascii := ascii_of_N (Z.to_N n).

(** ** Tokens *)
Definition is_json_ws (c : ascii) : bool := set_has (code c) [32; 9; 10; 13]%N.

Fixpoint skip_ws (s : string) : string :=
  match s with
  | String c s' => if is_json_ws c then skip_ws s' else s
  | EmptyString => EmptyString
  end.

Fixpoint scan_digits (acc : Z) (s : string) : Z * string :=
  match s with
  | String c s' => match dec_value c with Some d => scan_digits (10 * acc + d) s' | None => (acc, s) end
  | EmptyString => (acc, EmptyString)
  end.

(** What may not follow an integer: the number goes on. *)
Definition goes_on (s : string) : bool :=
  match s with
  | String c _ => set_has (code c) [46; 69; 101]%N
  | EmptyString => false
  end.

Definition scan_natural (s : string) : option (Z * string) :=
  match s with
  | String c s' =>
      match dec_value c with
      | Some d =>
          let '(n, rest) := if d =? 0 then (0, s') else scan_digits d s' in
          if goes_on rest then None else Some (n, rest)
      | None => None
      end
  | EmptyString => None
  end.

Definition simple_escape (c : ascii) : option ascii :=
  let n := Z.of_N (code c) in
  if (n =? 34) || (n =? 92) || (n =? 47) then Some c
  else if n =? 98 then Some (char_of 8)
  else if n =? 102 then Some (char_of 12)
  else if n =? 110 then Some (char_of 10)
  else if n =? 114 then Some (char_of 13)
  else if n =? 116 then Some (char_of 9)
  else None.

(** The rest of a string after its opening quote. *)
Fixpoint scan_string (s : string) : option (string * string) :=
  let put c r := match r with Some (t, rest) => Some (String c t, rest) | None => None end in
  match s with
  | EmptyString => None
  | String c s' =>
      if (code c =? 34)%N then Some (EmptyString, s')
      else if (code c =? 92)%N then
        match s' with
        | String e s'' =>
            match simple_escape e with
            | Some x => put x (scan_string s'')
            | None =>
                if (code e =? 117)%N then
                  match s'' with
                  | String z (String z' (String a (String b t))) =>
                      match hex_value z, hex_value z', hex_value a, hex_value b with
                      | Some 0, Some 0, Some x, Some y => put (char_of (16 * x + y)) (scan_string t)
                      | _, _, _, _ => None
                      end
                  | _ => None
                  end
                else None
            end
        | EmptyString => None
        end
      else if (code c <? 32)%N then None
      else put c (scan_string s')
  end.

(** [word s] when the text starts with it. *)
Fixpoint scan_word (word s : string) : option string :=
  match word, s with
  | EmptyString, _ => Some s
  | String a word', String b s' => if decide (a = b) then scan_word word' s' else None
  | _, _ => None
  end.

(** ** Values *)
Definition json_object (fields : list (string * JsonValue)) : JsonValue :=
  JObj (fold_left (fun l kv => assoc_set kv.1 kv.2 l) fields []).

(** A key and its colon. *)
Definition parse_key (text : string) : option (string * string) :=
  match skip_ws text with
  | String q s =>
      if (code q =? 34)%N then
        match scan_string s with
        | Some (k, s') =>
            match skip_ws s' with
            | String c rest => if (c =? ":")%char then Some (k, rest) else None
            | EmptyString => None
            end
        | None => None
        end
      else None
  | EmptyString => None
  end.

Fixpoint parse_value (fuel : nat) (text : string) : option (JsonValue * string) :=
  match fuel, skip_ws text with
  | S fuel, String c s =>
      if (c =? "[")%char then
        match skip_ws s with
        | String c' rest =>
            if (c' =? "]")%char then Some (JArr [], rest)
            else match parse_items fuel (skip_ws s) with Some (l, rest) => Some (JArr l, rest) | None => None end
        | EmptyString => None
        end
      else if (c =? "{")%char then
        match skip_ws s with
        | String c' rest =>
            if (c' =? "}")%char then Some (JObj [], rest)
            else match parse_fields fuel (skip_ws s) with Some (l, rest) => Some (json_object l, rest) | None => None end
        | EmptyString => None
        end
      else if (c =? "n")%char then
        match scan_word "ull" s with Some rest => Some (JNull, rest) | None => None end
      else if (c =? "t")%char then
        match scan_word "rue" s with Some rest => Some (JBool true, rest) | None => None end
      else if (c =? "f")%char then
        match scan_word "alse" s with Some rest => Some (JBool false, rest) | None => None end
      else if (code c =? 34)%N then
        match scan_string s with Some (t, rest) => Some (JStr t, rest) | None => None end
      else if (c =? "-")%char then
        match scan_natural s with Some (n, rest) => Some (JNum (- n), rest) | None => None end
      else match scan_natural (String c s) with Some (n, rest) => Some (JNum n, rest) | None => None end
  | _, _ => None
  end
with parse_items (fuel : nat) (text : string) : option (list JsonValue * string) :=
  match fuel with
  | O => None
  | S fuel =>
      match parse_value fuel text with
      | Some (v, s) =>
          match skip_ws s with
          | String c s' =>
              if (c =? ",")%char then
                match parse_items fuel s' with Some (l, rest) => Some (v :: l, rest) | None => None end
              else if (c =? "]")%char then Some ([v], s') else None
          | EmptyString => None
          end
      | None => None
      end
  end
with parse_fields (fuel : nat) (text : string) : option (list (string * JsonValue) * string) :=
  match fuel with
  | O => None
  | S fuel =>
      match parse_key text with
      | Some (k, s) =>
          match parse_value fuel s with
          | Some (v, s) =>
              match skip_ws s with
              | String c s' =>
                  if (c =? ",")%char then
                    match parse_fields fuel s' with Some (l, rest) => Some ((k, v) :: l, rest) | None => None end
                  else if (c =? "}")%char then Some ([(k, v)], s') else None
              | EmptyString => None
              end
          | None => None
          end
      | None => None
      end
  end.

Definition JSON_parse (text : string) : option JsonValue :=
  match parse_value (2 * String.length text) text with
  | Some (v, rest) => match skip_ws rest with EmptyString => Some v | _ => None end
  | None => None
  end.

Example parse_examples : JSON_parse (" [1, -20,{" +:+ quoted "a" +:+ ": null}, true ] ")
  = Some (JArr [JNum 1; JNum (-20); JObj [("a", JNull)]; JBool true])
  /\ JSON_parse "[01]" = None /\ JSON_parse "[1,]" = None /\ JSON_parse "" = None.
Proof. vm_compute. auto. Qed.

(** ** What is printed is parsed *)
Section JsonInd.
Variable P : JsonValue -> Prop.
Hypotheses (Hnull : P JNull) (Hbool : forall b, P (JBool b)) (Hnum : forall n, P (JNum n)) (Hstr : forall s, P (JStr s))
  (Harr : forall l, Forall P l -> P (JArr l))
  (Hobj : forall l, Forall (fun kv => P kv.2) l -> P (JObj l)).

Fixpoint json_ind' (v : JsonValue) : P v :=
  match v with
  | JNull => Hnull
  | JBool b => Hbool b
  | JNum n => Hnum n
  | JStr s => Hstr s
  | JArr l => Harr l ((fix go l := match l return Forall P l with
      | [] => Forall_nil_2 _ | x :: l' => Forall_cons_2 _ _ _ (json_ind' x) (go l') end) l)
  | JObj l => Hobj l ((fix go l := match l return Forall (fun kv => P kv.2) l with
      | [] => Forall_nil_2 _ | x :: l' => Forall_cons_2 _ _ _ (json_ind' x.2) (go l') end) l)
  end.
End JsonInd.

(** Objects have distinct keys. *)
Fixpoint json_wf (v : JsonValue) : Prop :=
  match v with
  | JArr l => (fix go l := match l with [] => True | x :: l' => json_wf x /\ go l' end) l
  | JObj l => NoDup (map fst l) /\ (fix go l := match l with [] => True | x :: l' => json_wf x.2 /\ go l' end) l
  | _ => True
  end.

Lemma json_wf_arr l : json_wf (JArr l) <-> Forall json_wf l.
Proof. simpl. induction l as [|x l IH]; [done|]. by rewrite Forall_cons, IH. Qed.

Lemma json_wf_obj l : json_wf (JObj l) <-> NoDup (map fst l) /\ Forall (fun kv => json_wf kv.2) l.
Proof.
  simpl. f_equiv. induction l as [|x l IH]; [done|]. by rewrite Forall_cons, IH.
Qed.

Lemma scan_char c t : scan_string (json_char c +:+ t)
  = match scan_string t with Some (s, rest) => Some (String c s, rest) | None => None end.
Proof. destruct c as [[] [] [] [] [] [] [] []]; reflexivity. Qed.

Lemma str_app_assoc a b c : (a +:+ b) +:+ c = a +:+ (b +:+ c).
Proof. induction a as [|x a IH]; [done|]. exact (f_equal (String x) IH). Qed.

Lemma scan_chars s rest : scan_string (json_chars s +:+ dq +:+ rest) = Some (s, rest).
Proof.
  induction s as [|c s IH]; [done|]. change (json_chars (String c s)) with (json_char c +:+ json_chars s).
  by rewrite str_app_assoc, scan_char, IH.
Qed.

(** Text after a value that cannot continue it. *)
Definition delimited (rest : string) : Prop :=
  match rest with String c _ => dec_value c = None /\ goes_on rest = false | EmptyString => True end.

Lemma digit_char d : (d < 10)%N -> dec_value (pretty_N_char d) = Some (Z.of_N d).
Proof.
  intros Hd. assert (d ∈ [0;1;2;3;4;5;6;7;8;9]%N) as Hin by (rewrite !elem_of_cons; lia).
  clear Hd. revert d Hin. apply Forall_forall. by repeat constructor.
Qed.

Lemma go_app x s rest : pretty_N_go x s +:+ rest = pretty_N_go x (s +:+ rest).
Proof.
  revert s. induction (N.lt_wf_0 x) as [x _ IH]; intros s.
  destruct (decide (0 < x)%N) as [Hx|]; [|by replace x with 0%N by lia].
  rewrite !(pretty_N_go_step x) by done. rewrite IH by (by apply N.div_lt). done.
Qed.

(** The digits of a positive number: the first is not zero. *)
Lemma scan_go x s : (0 < x)%N -> exists d t, pretty_N_go x s = String (pretty_N_char d) t
  /\ (0 < d < 10)%N /\ scan_digits (Z.of_N d) t = scan_digits (Z.of_N x) s.
Proof.
  revert s. induction (N.lt_wf_0 x) as [x _ IH]; intros s Hx. rewrite pretty_N_go_step by done.
  destruct (decide (x < 10)%N) as [Hs|Hb].
  - exists x, s. rewrite N.div_small, N.mod_small by done. done.
  - destruct (IH (x / 10)%N (N.div_lt x 10 Hx eq_refl) (String (pretty_N_char (x mod 10)) s)) as (d & t & -> & Hd & Hscan).
    { apply N.div_str_pos. lia. }
    exists d, t. split; [done|]. split; [done|]. rewrite Hscan. simpl.
    rewrite digit_char by (by apply N.mod_lt). f_equal. rewrite (N.div_mod x 10) at 3 by done. lia.
Qed.

Lemma scan_pretty p rest : delimited rest -> scan_natural (pretty (N.pos p) +:+ rest) = Some (Zpos p, rest).
Proof.
  intros Hr. unfold pretty, pretty_N. rewrite decide_False by done. rewrite go_app.
  destruct (scan_go (N.pos p) rest eq_refl) as (d & t & Hgo & Hd & Hscan).
  change (EmptyString +:+ rest) with rest. rewrite Hgo. cbn [scan_natural].
  rewrite digit_char by lia. rewrite (proj2 (Z.eqb_neq _ _)) by lia. rewrite Hscan.
  assert (scan_digits (Z.pos p) rest = (Z.pos p, rest)) as Hstop by (destruct rest; simpl in *; [done|by destruct Hr as [-> _]]).
  change (Z.of_N (N.pos p)) with (Z.pos p). rewrite Hstop. destruct rest as [|c r]; [done|]. by destruct Hr as [_ ->].
Qed.

(** The characters that start a value are none that closes an array. *)
Definition value_start (c : ascii) : bool := negb (is_json_ws c) && negb (c =? "]")%char.

Definition other_start (c : ascii) : bool :=
  (c =? "[")%char || (c =? "{")%char || (c =? "n")%char || (c =? "t")%char || (c =? "f")%char || (code c =? 34)%N
  || (c =? "-")%char.

Lemma digit_start d : (d < 10)%N -> value_start (pretty_N_char d) = true /\ other_start (pretty_N_char d) = false.
Proof.
  intros Hd. assert (d ∈ [0;1;2;3;4;5;6;7;8;9]%N) as Hin by (rewrite !elem_of_cons; lia).
  clear Hd. revert d Hin. apply Forall_forall. by repeat constructor.
Qed.

Lemma pretty_start (n : Z) rest : exists c t, pretty n +:+ rest = String c t /\ value_start c = true.
Proof.
  destruct n as [|p|p]; [by eexists _, _| |by eexists _, _].
  destruct (scan_go (N.pos p) rest eq_refl) as (d & t & Hgo & Hd & _). exists (pretty_N_char d), t.
  split; [|apply digit_start; lia]. unfold pretty, pretty_Z, pretty_positive, pretty, pretty_N.
  rewrite decide_False, go_app by done. exact Hgo.
Qed.

Lemma json_start v rest : exists c t, json_text v +:+ rest = String c t /\ value_start c = true.
Proof. destruct v as [|[]|n|s|l|l]; try by eexists _, _. apply pretty_start. Qed.

Lemma skip_start c t : value_start c = true -> skip_ws (String c t) = String c t.
Proof. unfold value_start. intros H. bools. simpl. by rewrite H. Qed.

Lemma skip_value v rest : skip_ws (json_text v +:+ rest) = json_text v +:+ rest.
Proof. destruct (json_start v rest) as (c & t & -> & Hc). by apply skip_start. Qed.

Lemma str_length_app a b : String.length (a +:+ b) = (String.length a + String.length b)%nat.
Proof. induction a as [|c a IH]; [done|]. exact (f_equal S IH). Qed.

Lemma join_cons a b l : join "," (a :: b :: l) = a +:+ "," +:+ join "," (b :: l).
Proof. done. Qed.

Definition parses v : Prop := forall fuel rest, (2 * String.length (json_text v) <= fuel)%nat -> delimited rest ->
  parse_value fuel (json_text v +:+ rest) = Some (v, rest).

Lemma parse_number n : parses (JNum n).
Proof.
  intros fuel rest Hf Hr. destruct (pretty_start n rest) as (c0 & t0 & H0 & _).
  assert (exists f, fuel = S f) as [f ->].
  { destruct fuel; [|eauto]. simpl in Hf. destruct (pretty_start n "") as (c & t & H & _).
    apply (f_equal String.length) in H. rewrite str_length_app in H. simpl in H. lia. }
  destruct n as [|p|p]; simpl json_text.
  - destruct rest as [|c r]; [done|]. destruct Hr as [_ Hg]. simpl in *. by rewrite Hg.
  - change (pretty (Z.pos p)) with (pretty (N.pos p)) in *. pose proof (scan_pretty p rest Hr) as Hscan.
    assert (exists d t, (d < 10)%N /\ pretty (N.pos p) +:+ rest = String (pretty_N_char d) t) as (d & t & Hd & Ht).
    { destruct (scan_go (N.pos p) rest eq_refl) as (d & t & Hgo & Hd & _). exists d, t. split; [lia|].
      unfold pretty, pretty_N. by rewrite decide_False, go_app by done. }
    rewrite Ht in *. destruct (digit_start d Hd) as [Hs Ho]. unfold other_start in Ho.
    repeat (apply orb_false_iff in Ho as [Ho ?]). cbn [parse_value]. rewrite (skip_start _ _ Hs).
    repeat match goal with H : _ = false |- _ => rewrite H; clear H end. by rewrite Hscan.
  - change (pretty (Z.neg p) +:+ rest) with (String "-" (pretty (N.pos p) +:+ rest)).
    cbn [parse_value]. rewrite skip_start by done. lazy [Ascii.eqb code N_of_ascii]. cbn [Bool.eqb N.eqb].
    by rewrite (scan_pretty p rest Hr).
Qed.

Lemma parse_items_print l fuel rest : Forall parses l -> l <> [] ->
  (2 * String.length (join "," (map json_text l)) + 1 <= fuel)%nat ->
  parse_items fuel (join "," (map json_text l) +:+ "]" +:+ rest) = Some (l, rest).
Proof.
  intros Hl. revert fuel. induction Hl as [|v l Hv Hl IH]; intros fuel Hne Hf; [done|].
  destruct fuel as [|fuel]; [lia|]. destruct l as [|w l].
  - cbn [map] in *. change (join "," [json_text v]) with (json_text v) in *. cbn [parse_items].
    rewrite (Hv fuel ("]" +:+ rest)); [done|lia|done].
  - cbn [map] in *. rewrite join_cons, !str_length_app in *. rewrite !str_app_assoc. cbn [parse_items].
    rewrite (Hv fuel); [|lia|done]. simpl in Hf. specialize (IH fuel ltac:(done) ltac:(simpl in *; lia)).
    transitivity (match parse_items fuel (join "," (map json_text (w :: l)) +:+ "]" +:+ rest) with
                  | Some (l', r) => Some (v :: l', r) | None => None end); [done|cbn [map]; by rewrite IH].
Qed.

Definition quote : ascii := ascii_of_nat 34.

Definition field_text (kv : string * JsonValue) : string := json_quote kv.1 +:+ ":" +:+ json_text kv.2.

Lemma key_print k rest : parse_key (json_quote k +:+ ":" +:+ rest) = Some (k, rest).
Proof.
  unfold json_quote. rewrite !str_app_assoc. change (dq +:+ json_chars k +:+ dq +:+ ":" +:+ rest)
    with (String quote (json_chars k +:+ dq +:+ ":" +:+ rest)).
  unfold parse_key. rewrite skip_start by done. lazy iota beta. rewrite N.eqb_refl. by rewrite scan_chars.
Qed.

Lemma parse_fields_print l fuel rest : Forall (fun kv => parses kv.2) l -> l <> [] ->
  (2 * String.length (join "," (map field_text l)) + 1 <= fuel)%nat ->
  parse_fields fuel (join "," (map field_text l) +:+ "}" +:+ rest) = Some (l, rest).
Proof.
  intros Hl. revert fuel. induction Hl as [|[k v] l Hv Hl IH]; intros fuel Hne Hf; [done|]. simpl in Hv.
  destruct fuel as [|fuel]; [lia|]. destruct l as [|w l].
  - cbn [map] in *. change (join "," [field_text (k, v)]) with (field_text (k, v)) in *. unfold field_text in *.
    rewrite !str_length_app in Hf. rewrite !str_app_assoc. cbn [parse_fields fst snd] in *. rewrite key_print.
    rewrite (Hv fuel ("}" +:+ rest)); [done|lia|done].
  - cbn [map] in *. rewrite join_cons in *. unfold field_text at 1 in Hf. unfold field_text at 1.
    rewrite !str_length_app in Hf. rewrite !str_app_assoc. cbn [parse_fields fst snd] in *. rewrite key_print.
    rewrite (Hv fuel); [|lia|done]. specialize (IH fuel ltac:(done) ltac:(simpl in *; lia)).
    transitivity (match parse_fields fuel (join "," (map field_text (w :: l)) +:+ "}" +:+ rest) with
                  | Some (l', r) => Some ((k, v) :: l', r) | None => None end); [done|cbn [map]; by rewrite IH].
Qed.

Lemma json_object_nodup l : NoDup (map fst l) -> json_object l = JObj l.
Proof.
  intros Hn. unfold json_object. f_equal.
  cut (forall acc : list (string * JsonValue), NoDup (map fst (acc ++ l)) ->
         fold_left (fun l kv => assoc_set kv.1 kv.2 l) l acc = acc ++ l); [intros H; by apply (H [])|].
  clear Hn. induction l as [|[k v] l IH]; intros acc Hn; simpl; [by rewrite app_nil_r|].
  assert (assoc_set k v acc = acc ++ [(k, v)]) as ->.
  { rewrite map_app in Hn. apply NoDup_app in Hn as (_ & Hd & _). clear IH.
    induction acc as [|[k' v'] acc IH]; [done|]. simpl. rewrite decide_False.
    - f_equal. apply IH. intros x Hx. apply Hd. by right.
    - intros ->. apply (Hd k'); [left|]. left. }
  rewrite IH; by rewrite <- app_assoc.
Qed.

Lemma parses_all v : json_wf v -> parses v.
Proof.
  induction v as [|b|n|s|l IH|l IH] using json_ind'; intros Hw fuel rest Hf Hr; [| |by apply parse_number| | |];
    (destruct fuel as [|fuel]; [by (try destruct b); simpl in Hf; lia|]).
  - done.
  - by destruct b.
  - change (json_text (JStr s) +:+ rest) with (String quote ((json_chars s +:+ dq) +:+ rest)).
    rewrite str_app_assoc. cbn [parse_value]. rewrite skip_start by done.
    transitivity (match scan_string (json_chars s +:+ dq +:+ rest) with
                  | Some (t, r) => Some (JStr t, r) | None => None end); [done|by rewrite scan_chars].
  - apply json_wf_arr in Hw. destruct l as [|v l]; [done|].
    assert (Forall parses (v :: l)) as Hp by (rewrite Forall_forall in IH, Hw |- *; auto).
    change (json_text (JArr (v :: l))) with ("[" +:+ join "," (map json_text (v :: l)) +:+ "]") in *.
    rewrite !str_length_app in Hf. rewrite !str_app_assoc.
    assert (exists c t, join "," (map json_text (v :: l)) +:+ "]" +:+ rest = String c t /\ value_start c = true)
      as (c & t & Hct & Hc).
    { destruct l as [|w l]; [apply json_start|]. cbn [map]. rewrite join_cons, !str_app_assoc. apply json_start. }
    pose proof (parse_items_print (v :: l) fuel rest Hp ltac:(done) ltac:(simpl in *; lia)) as Hi.
    rewrite Hct in *. change ("[" +:+ String c t) with (String "[" (String c t)). cbn [parse_value].
    rewrite (skip_start "[") by done. change (("[" =? "[")%char) with true. lazy iota. rewrite skip_start by done.
    unfold value_start in Hc. apply andb_true_iff in Hc as [_ Hc]. apply negb_true_iff in Hc. rewrite Hc, Hi. done.
  - apply json_wf_obj in Hw as [Hn Hw]. destruct l as [|kv l]; [done|].
    assert (Forall (fun kv => parses kv.2) (kv :: l)) as Hp
      by (rewrite Forall_forall in IH, Hw |- *; auto).
    change (json_text (JObj (kv :: l))) with ("{" +:+ join "," (map field_text (kv :: l)) +:+ "}") in *.
    rewrite !str_length_app in Hf. rewrite !str_app_assoc.
    assert (exists t, join "," (map field_text (kv :: l)) +:+ "}" +:+ rest = String quote t) as (t & Ht).
    { destruct l as [|w l]; [by eexists|]. cbn [map]. rewrite join_cons, !str_app_assoc. by eexists. }
    pose proof (parse_fields_print (kv :: l) fuel rest Hp ltac:(done) ltac:(simpl in *; lia)) as Hi.
    rewrite Ht in *. change ("{" +:+ String quote t) with (String "{" (String quote t)). cbn [parse_value].
    rewrite (skip_start "{") by done. change (("{" =? "[")%char) with false. change (("{" =? "{")%char) with true.
    lazy iota. rewrite skip_start by done. change ((quote =? "}")%char) with false. lazy iota. rewrite Hi.
    by rewrite json_object_nodup.
Qed.

Lemma JSON_roundtrip v : json_wf v -> JSON_parse (json_text v) = Some v.
Proof.
  intros Hw. unfold JSON_parse. pose proof (parses_all v Hw (2 * String.length (json_text v))%nat "" (le_n _) I) as Hp.
  assert (json_text v +:+ "" = json_text v) as He.
  { clear Hp. induction (json_text v) as [|c s IH]; [done|]. exact (f_equal (String c) IH). }
  rewrite He in Hp. by rewrite Hp.
Qed.
