(* ===== verification/Accounts.v ===== *)
(** * Accounts and sessions: [ui-v2/src/modules/auth], [ui-v2/src/auth.ts], [ui-v2/proxy.ts]

    Users and passwords ([server/repository.ts], [server/service.ts],
    [server/password.ts]), the callbacks given to next-auth, the guards and
    server actions, and the middleware that decides who sees which page.
    [scrypt] is Node's key derivation, a parameter; [salt_bytes], [now] and
    [uuid] are what the platform gives a call.  The transactions of the database
    are atomic. *)

From S2P Require Import Prelude FlowTypes JsLib ClientId Process ServerInput Database Projects.
From Stdlib Require Import Ascii.
Open Scope Z_scope.

(** ** Constants and types *)
Definition USER_ROLES : list string := ["admin"; "normal"].
Definition DEFAULT_USER_ROLE : string := "normal".
Definition ADMIN_USER_ROLE : string := "admin".
Definition isKnownUserRole (role : string) : bool := bool_decide (role ∈ USER_ROLES).

Record AuthUser := MkAuthUser {
  au_id : string; au_email : string; au_name : option string; au_role : string;
  au_isActive : bool; au_passwordHash : option string
}.

Record CreateInitialAdminInput := MkInitialAdmin { ia_email : string; ia_name : string; ia_password : string }.

Record CreateUserInput := MkCreateUser {
  cu_email : string; cu_name : string; cu_password : string; cu_role : string; cu_isActive : option bool
}.

Record AuthActionState := MkActionState { as_error : option string; as_redirectTo : option string }.

(** ** Passwords: [server/password.ts] *)

(** [Buffer.from(text, "hex")]: pairs of digits up to the first that is none. *)
Fixpoint hex_bytes (s : string) : list Z :=
  match s with
  | String a (String b s') =>
      match hex_value a, hex_value b with Some x, Some y => 16 * x + y :: hex_bytes s' | _, _ => [] end
  | _ => []
  end.

(** [buffer.toString("hex")]. *)
Definition hex_text (bytes : list Z) : string := join "" (map hex_byte bytes).

Definition KEY_LENGTH : Z := 64.

Section Passwords.
Context (scrypt : string -> string -> Z -> list Z).

Definition hashPassword (password : string) (salt_bytes : list Z) : string :=
  let salt := hex_text salt_bytes in
  let derivedKey := scrypt password salt KEY_LENGTH in
  "scrypt:" +:+ salt +:+ ":" +:+ hex_text derivedKey.

(** [timingSafeEqual] on buffers of one length compares their bytes. *)
Definition verifyPassword (password : string) (storedHash : option string) : bool :=
  match storedHash with
  | None => false
  | Some stored =>
      if negb (str_truthy stored) then false
      else
        let parts := split_on ":" stored in
        let algorithm := parts !! 0%nat in
        let salt := default "" (parts !! 1%nat) in
        let expectedHash := default "" (parts !! 2%nat) in
        if negb (bool_decide (algorithm = Some "scrypt")) || negb (str_truthy salt) || negb (str_truthy expectedHash)
        then false
        else
          let derivedKey := scrypt password salt KEY_LENGTH in
          let expectedBuffer := hex_bytes expectedHash in
          if decide (length derivedKey = length expectedBuffer) then bool_decide (derivedKey = expectedBuffer)
          else false
  end.

(** ** Repository: [server/repository.ts] *)
Definition mapUser (record : UserRow) : AuthUser :=
  MkAuthUser (u_id record) (u_email record)
    (if ostr_truthy (u_name record) then u_name record else None)
    (u_role record) (u_isActive record)
    (if ostr_truthy (u_passwordHash record) then u_passwordHash record else None).

Context `{E : Engine} (connection_type : DatabaseType) (localeCompare : string -> string -> Z).

Definition countUsers : Proc Db Z := query (fun d => Z.of_nat (length (rows (users d)))).

Definition getUserByEmail (email : string) : Proc Db (option AuthUser) :=
  query (fun d => fmap (M := option) mapUser (head (select (fun u => bool_decide (u_email u = email)) (users d)))).

Definition getUserById (id : string) : Proc Db (option AuthUser) :=
  query (fun d => fmap (M := option) mapUser (head (select (fun u => bool_decide (u_id u = id)) (users d)))).

Definition listUsers : Proc Db (list (AuthUser * Date * Date)) :=
  rows ← query (fun d => select (fun _ => true) (users d));
  mret (js_sort (fun left right => localeCompare (au_email left.1.1) (au_email right.1.1))
          (map (fun u => (mapUser u, u_createdAt u, u_updatedAt u)) rows)).

Definition touch (now : Date) (u : UserRow) : UserRow :=
  MkUserRow (u_id u) (u_name u) (u_email u) (u_passwordHash u) (u_role u) (u_setupCompletedAt u) (u_isActive u)
    (u_createdAt u) now.

Definition updateUserTimestamp (id : string) (now : Date) : Proc Db unit :=
  execute (fun d => Return (on_users (update_rows (fun u => bool_decide (u_id u = id)) (touch now)) d)).

Definition set_active (isActive : bool) (now : Date) (u : UserRow) : UserRow :=
  MkUserRow (u_id u) (u_name u) (u_email u) (u_passwordHash u) (u_role u) (u_setupCompletedAt u) isActive
    (u_createdAt u) now.

Definition updateUserStatus (id : string) (isActive : bool) (now : Date) : Proc Db unit :=
  execute (fun d => Return (on_users (update_rows (fun u => bool_decide (u_id u = id)) (set_active isActive now)) d)).

(** ** Service: [server/service.ts] *)
Definition normalizeEmail (email : string) : string := toLowerCase (js_trim email).

Definition isSetupComplete : Proc Db bool := n ← countUsers; mret (0 <? n).

Definition verifyPasswordLogin (email password : string) : Proc Db (option AuthUser) :=
  user ← getUserByEmail (normalizeEmail email);
  mret (match user with
        | Some u => if au_isActive u && verifyPassword password (au_passwordHash u) then Some u else None
        | None => None
        end).

(** The fields that the inserted row gives back. *)
Definition row_user (u : UserRow) : AuthUser :=
  MkAuthUser (u_id u) (u_email u) (u_name u) (u_role u) (u_isActive u) (u_passwordHash u).

Definition createInitialAdmin (input : CreateInitialAdminInput) (salt_bytes : list Z) (uuid : string) (now : Date)
    (project_now : Date) (project_uuid : string) : Proc Db AuthUser :=
  let passwordHash := hashPassword (ia_password input) salt_bytes in
  let values := MkUserRow uuid (Some (js_trim (ia_name input))) (normalizeEmail (ia_email input)) (Some passwordHash)
                  ADMIN_USER_ROLE (Some now) true now now in
  let insert_first d :=
    if 0 <? Z.of_nat (length (rows (users d))) then Throw (JsError "Initial setup has already been completed.")
    else insert_user values d in
  match connection_type with
  | PostgresDb =>
      user ← transaction (fun d => d' ← insert_first d; Return (values, d'));
      ensurePersonalProject (u_id user) project_now project_uuid;;
      mret (row_user user)
  | MysqlDb =>
      found ← transaction (fun d =>
        d' ← insert_first d;
        Return (head (select (fun u => bool_decide (u_id u = uuid)) (users d')), d'));
      match found with
      | None => fail "Failed to create initial administrator."
      | Some user =>
          ensurePersonalProject (u_id user) project_now project_uuid;;
          mret (row_user user)
      end
  end.

Definition createUser (input : CreateUserInput) (salt_bytes : list Z) (uuid : string) (now : Date)
    (project_now : Date) (project_uuid : string) : Proc Db AuthUser :=
  let normalizedEmail := normalizeEmail (cu_email input) in
  existing ← getUserByEmail normalizedEmail;
  match existing with
  | Some _ => fail "A user with that email already exists."
  | None =>
      if negb (isKnownUserRole (cu_role input)) then fail "Unsupported user role."
      else
        let passwordHash := hashPassword (cu_password input) salt_bytes in
        let values := MkUserRow uuid (Some (js_trim (cu_name input))) normalizedEmail (Some passwordHash)
                        (ostr_or (Some (cu_role input)) DEFAULT_USER_ROLE) None (default true (cu_isActive input)) now now in
        match connection_type with
        | PostgresDb =>
            execute (insert_user values);;
            ensurePersonalProject uuid project_now project_uuid;;
            mret (row_user values)
        | MysqlDb =>
            execute (insert_user values);;
            user ← getUserById uuid;
            match user with
            | None => fail "Failed to create user."
            | Some u => ensurePersonalProject (au_id u) project_now project_uuid;; mret u
            end
        end
  end.

Definition setUserActiveState (userId : string) (isActive : bool) (now : Date) : Proc Db unit :=
  updateUserStatus userId isActive now.

Definition getAllUsers : Proc Db (list (AuthUser * Date * Date)) := listUsers.

(** ** next-auth: [ui-v2/src/auth.ts] *)

(** The credentials a login form submits; a missing or non-string one is [None]. *)
Definition authorize (email password : option string) : Proc Db (option AuthUser) :=
  configuredUsers ← countUsers;
  if configuredUsers =? 0 then mret None
  else verifyPasswordLogin (default "" email) (default "" password).

Record Jwt := MkJwt { jwt_sub : option string; jwt_role : option string }.

(** The [jwt] callback: [user] is given at sign-in only. *)
Definition jwt_callback (token : Jwt) (user : option AuthUser) : Proc Db Jwt :=
  let token := match user with Some u => MkJwt (Some (au_id u)) (Some (au_role u)) | None => token end in
  if negb (ostr_truthy (jwt_role token)) && ostr_truthy (jwt_sub token) then
    dbUser ← getUserById (default "" (jwt_sub token));
    mret (MkJwt (jwt_sub token) (Some (match dbUser with Some u => au_role u | None => "normal" end)))
  else mret token.

Definition session_callback (token : Jwt) : SessionUser :=
  MkSessionUser (Some (default "" (jwt_sub token))) (Some (default "normal" (jwt_role token))).

(** ** Guards: [server/guards.ts] *)
Definition requireSession (session : Session) : res (string * SessionUser) :=
  match session_user session with
  | Some u => Return u
  | None => Throw (JsRedirect "/login")
  end.

Definition requireAdminSession (session : Session) : res (string * SessionUser) :=
  u ← requireSession session;
  if decide (su_role u.2 = Some "admin") then Return u else Throw (JsRedirect "/workflow").

(** ** Server actions: [actions.ts] *)
Definition getRedirectTarget (value : option FormEntry) (fallback : string) : string :=
  match value with
  | Some (FText s) => if negb (starts_with "/" s) || starts_with "//" s then fallback else s
  | _ => fallback
  end.

Definition failed (message : string) : AuthActionState := MkActionState (Some message) None.

(** [signIn] of next-auth succeeds, refuses the credentials with an [AuthError],
    or fails otherwise. *)
Inductive SignIn := SignedIn | RefusedSignIn | BrokenSignIn (e : js_error).

Context (signIn : string -> string -> Proc Db SignIn) (encodeURIComponent : string -> string)
  (native_message : js_error -> string).

Definition loginAction (formData : FormData) : Proc Db AuthActionState :=
  setup ← isSetupComplete;
  if negb setup then mret (failed "Initial setup is required before anyone can sign in.")
  else
    let email := normalizeEmail (readTrimmedString formData "email") in
    let password := readTrimmedString formData "password" in
    let redirectTo := getRedirectTarget (form_get "redirectTo" formData) "/workflow" in
    if negb (str_truthy email) || negb (str_truthy password) then mret (failed "Email and password are required.")
    else
      outcome ← signIn email password;
      match outcome with
      | SignedIn => mret (MkActionState None (Some redirectTo))
      | RefusedSignIn => mret (failed "Invalid email or password.")
      | BrokenSignIn e => throw e
      end.

(** [error.message]; the text of the language's own exceptions is the platform's. *)
Definition error_message (e : js_error) : string :=
  match e with JsError m => m | JsRedirect _ => "NEXT_REDIRECT" | _ => native_message e end.

Definition setupAction (formData : FormData) (salt_bytes : list Z) (uuid : string) (now : Date)
    (project_now : Date) (project_uuid : string) : Proc Db AuthActionState :=
  let email := normalizeEmail (readTrimmedString formData "email") in
  let name := readTrimmedString formData "name" in
  let password := readTrimmedString formData "password" in
  let confirmPassword := readTrimmedString formData "confirmPassword" in
  let redirectTo := getRedirectTarget (form_get "redirectTo" formData)
                      ("/login?email=" +:+ encodeURIComponent email +:+ "&setup=success") in
  if negb (str_truthy name) || negb (str_truthy email) || negb (str_truthy password) || negb (str_truthy confirmPassword)
  then mret (failed "All setup fields are required.")
  else if negb (str_includes "@" email) then mret (failed "Enter a valid email address.")
  else if Z.of_nat (String.length password) <? 8 then mret (failed "Password must be at least 8 characters long.")
  else if negb (bool_decide (password = confirmPassword)) then mret (failed "Passwords do not match.")
  else
    catch (createInitialAdmin (MkInitialAdmin email name password) salt_bytes uuid now project_now project_uuid;;
           mret (MkActionState None (Some redirectTo)))
      (fun e => mret (failed (error_message e))).

(** ** Administration: [admin/actions.ts] *)
Record AdminActionState := MkAdminState { ad_error : option string; ad_success : option string }.

Definition lift {A} (r : res A) : Proc Db A := Done r.

Definition admin_failed (e : js_error) : Proc Db AdminActionState :=
  mret (MkAdminState (Some (error_message e)) None).

Definition createUserAdminAction (session : Session) (formData : FormData) (salt_bytes : list Z) (uuid : string)
    (now : Date) (project_now : Date) (project_uuid : string) : Proc Db AdminActionState :=
  catch (
    lift (requireAdminSession session);;
    let email := normalizeEmail (readTrimmedString formData "email") in
    let name := readTrimmedString formData "name" in
    let password := readTrimmedString formData "password" in
    let role := ostr_or (Some (readTrimmedString formData "role")) "normal" in
    if negb (str_truthy email) || negb (str_truthy name) || (Z.of_nat (String.length password) <? 8)
    then mret (MkAdminState (Some "Name, email, and a password of at least 8 characters are required.") None)
    else
      createUser (MkCreateUser email name password role (Some true)) salt_bytes uuid now project_now project_uuid;;
      mret (MkAdminState None (Some ("Created " +:+ email +:+ " successfully."))))
  admin_failed.

(** A failure is only logged. *)
Definition toggleUserActiveAction (session : Session) (formData : FormData) (now : Date) : Proc Db unit :=
  catch (
    lift (requireAdminSession session);;
    let userId := readTrimmedString formData "userId" in
    let nextState := bool_decide (readTrimmedString formData "nextState" = "active") in
    if negb (str_truthy userId) then mret tt else setUserActiveState userId nextState now)
  (fun _ => mret tt).

Definition createProjectAdminAction (session : Session) (formData : FormData) (now : Date) (uuid : string)
    : Proc Db AdminActionState :=
  catch (
    u ← lift (requireAdminSession session);
    let name := readTrimmedString formData "name" in
    if negb (str_truthy name) then mret (MkAdminState (Some "Project name is required.") None)
    else
      createProject connection_type name u.1 now uuid;;
      mret (MkAdminState None (Some ("Created " +:+ name +:+ " successfully."))))
  admin_failed.

Definition addProjectMembersAction (session : Session) (formData : FormData) (now : Date) : Proc Db AdminActionState :=
  catch (
    lift (requireAdminSession session);;
    let projectId := readTrimmedString formData "projectId" in
    let selectedUsers := form_texts "userIds" formData in
    if negb (str_truthy projectId) || bool_decide (selectedUsers = [])
    then mret (MkAdminState (Some "Project and at least one user are required.") None)
    else
      addUsersToProject connection_type projectId selectedUsers Runner now;;
      mret (MkAdminState None (Some ("Added " +:+ pretty (length selectedUsers) +:+ " member"
        +:+ (if decide (length selectedUsers = 1%nat) then "" else "s") +:+ "."))))
  admin_failed.

Definition removeProjectMemberAction (session : Session) (formData : FormData) : Proc Db unit :=
  catch (
    lift (requireAdminSession session);;
    let projectId := readTrimmedString formData "projectId" in
    let userId := readTrimmedString formData "userId" in
    if negb (str_truthy projectId) || negb (str_truthy userId) then mret tt
    else removeUserFromProject localeCompare projectId userId)
  (fun _ => mret tt).

Definition updateProjectMemberRoleAdminAction (session : Session) (formData : FormData) : Proc Db unit :=
  lift (requireAdminSession session);;
  let projectId := readTrimmedString formData "projectId" in
  let userId := readTrimmedString formData "userId" in
  match role_of_text (readTrimmedString formData "projectRole") with
  | Some role => if negb (str_truthy projectId) || negb (str_truthy userId) then mret tt
                 else updateProjectMemberRole localeCompare projectId userId role
  | None => mret tt
  end.
End Passwords.

(** ** Pages: [public-paths.ts] and [proxy.ts] *)
Definition isPublicSitePath (pathname : string) : bool :=
  bool_decide (pathname = "/") || bool_decide (pathname = "/docs") || starts_with "/docs/" pathname.

Definition PUBLIC_ROUTES : list string := ["/"; "/login"; "/setup"].
Definition AUTH_ROUTES : list string := ["/login"; "/setup"].

Inductive PageResponse :=
| NextPage
| RedirectPage (path : string) (redirectTo : option string).

(** The middleware, given the path and query of the request, whether a user
    exists and whether the caller has a session.  [pathname] of a URL starts
    with a slash, so [redirectTo] is always set. *)
Definition proxy (pathname search : string) (setupComplete isAuthenticated : bool) : PageResponse :=
  if isPublicSitePath pathname then NextPage
  else if negb setupComplete && negb (bool_decide (pathname = "/setup")) then RedirectPage "/setup" None
  else if setupComplete && bool_decide (pathname = "/setup")
  then RedirectPage (if isAuthenticated then "/workflow" else "/login") None
  else if set_has pathname AUTH_ROUTES && isAuthenticated then RedirectPage "/workflow" None
  else if negb (set_has pathname PUBLIC_ROUTES) && negb isAuthenticated then
    let redirectTo := pathname +:+ search in
    RedirectPage "/login" (if starts_with "/" redirectTo then Some redirectTo else None)
  else NextPage.
