(* ===== verification/AccountFacts.v ===== *)
(** * What accounts, sessions and pages guarantee *)

From S2P Require Import Prelude FlowTypes JsLib ClientId Process ServerInput Database Projects.
From S2P Require Import ProjectFacts Accounts.
From stdpp Require Import relations.
From Stdlib Require Import Ascii.
Open Scope Z_scope.

(** ** Hexadecimal text *)
Definition is_byte (b : Z) : Prop := 0 <= b < 256.

Lemma nibble_cases n : 0 <= n < 16 -> n ∈ seqZ 0 16.
Proof. intros H. apply elem_of_seqZ. lia. Qed.

Lemma hex_digit_spec n : 0 <= n < 16 -> hex_value (hex_digit n) = Some n /\ not_char ":" (hex_digit n) = true.
Proof.
  intros Hn%nibble_cases. revert n Hn. apply Forall_forall. by apply (bool_decide_unpack _); vm_compute.
Qed.

Lemma hex_text_cons b l : hex_text (b :: l) = hex_byte b +:+ hex_text l.
Proof. unfold hex_text, join. simpl. by destruct (map hex_byte l). Qed.

Lemma nibbles b : is_byte b -> 0 <= Z.shiftr b 4 < 16 /\ 0 <= Z.land b 15 < 16 /\ 16 * Z.shiftr b 4 + Z.land b 15 = b.
Proof.
  intros Hb. rewrite Z.shiftr_div_pow2 by lia. change 15 with (Z.ones 4). rewrite Z.land_ones by lia.
  change (2 ^ 4) with 16. unfold is_byte in Hb.
  pose proof (Z.div_mod b 16 ltac:(lia)). pose proof (Z.mod_pos_bound b 16 ltac:(lia)). lia.
Qed.

Lemma hex_bytes_text l : Forall is_byte l -> hex_bytes (hex_text l) = l.
Proof.
  induction 1 as [|b l Hb Hl IH]; [done|]. rewrite hex_text_cons. destruct (nibbles b Hb) as (H1 & H2 & H3).
  unfold hex_byte. simpl. rewrite (proj1 (hex_digit_spec _ H1)), (proj1 (hex_digit_spec _ H2)).
  change (EmptyString +:+ hex_text l) with (hex_text l). rewrite IH. by f_equal.
Qed.

Lemma hex_text_clean l : Forall is_byte l -> str_forallb (not_char ":") (hex_text l) = true.
Proof.
  induction 1 as [|b l Hb Hl IH]; [done|]. rewrite hex_text_cons. destruct (nibbles b Hb) as (H1 & H2 & _).
  unfold hex_byte. simpl. by rewrite (proj2 (hex_digit_spec _ H1)), (proj2 (hex_digit_spec _ H2)).
Qed.

Lemma hex_text_truthy l : l <> [] -> str_truthy (hex_text l) = true.
Proof. destruct l as [|b l]; [done|]. intros _. by rewrite hex_text_cons. Qed.

Section Facts.
Context (scrypt : string -> string -> Z -> list Z).

(** What Node documents of [scrypt]: a buffer of the requested length. *)
Definition scrypt_ok : Prop := forall password salt n, 0 <= n ->
  Z.of_nat (length (scrypt password salt n)) = n /\ Forall is_byte (scrypt password salt n).

(** ** Passwords *)
Lemma verify_hash password other salt : scrypt_ok -> salt <> [] -> Forall is_byte salt ->
  verifyPassword scrypt other (Some (hashPassword scrypt password salt))
  = bool_decide (scrypt other (hex_text salt) KEY_LENGTH = scrypt password (hex_text salt) KEY_LENGTH).
Proof.
  intros Hs Hne Hb. set (key := scrypt password (hex_text salt) KEY_LENGTH).
  destruct (Hs password (hex_text salt) KEY_LENGTH) as [Hlen Hkey]; [done|]. fold key in Hlen, Hkey.
  assert (key <> []) as Hk0 by (by intros Hk; rewrite Hk in Hlen).
  unfold verifyPassword, hashPassword. fold key.
  assert (split_on ":" ("scrypt:" +:+ hex_text salt +:+ ":" +:+ hex_text key) = ["scrypt"; hex_text salt; hex_text key])
    as Hsplit.
  { change ("scrypt:" +:+ hex_text salt +:+ ":" +:+ hex_text key)
      with ("scrypt" +:+ String ":" (hex_text salt +:+ String ":" (hex_text key))).
    rewrite split_on_app, split_on_app, split_on_clean; [done|by apply hex_text_clean|by apply hex_text_clean|done]. }
  rewrite Hsplit. cbn [lookup list_lookup from_option id]. unfold id.
  rewrite (hex_text_truthy salt), (hex_text_truthy key), hex_bytes_text by done. simpl.
  destruct (Hs other (hex_text salt) KEY_LENGTH) as [Hlen' _]; [done|].
  by rewrite decide_True by lia.
Qed.

(** A stored password is verified by exactly the passwords with its derived key, so
    the password that was hashed is accepted. *)
Theorem password_roundtrip password other salt : scrypt_ok -> salt <> [] -> Forall is_byte salt ->
  verifyPassword scrypt password (Some (hashPassword scrypt password salt)) = true
  /\ (verifyPassword scrypt other (Some (hashPassword scrypt password salt)) = true
      <-> scrypt other (hex_text salt) KEY_LENGTH = scrypt password (hex_text salt) KEY_LENGTH).
Proof.
  intros Hs Hne Hb. rewrite !verify_hash, !bool_decide_eq_true by done. done.
Qed.

(** ** Users *)
Context `{E : Engine} (connection_type : DatabaseType) (localeCompare : string -> string -> Z).
Implicit Types d : Db.

#[local] Instance same_users : PreOrder (fun d d' => users d' = users d).
Proof. split; [done|]. intros a b c H1 H2. congruence. Qed.

Lemma insert_project_users r d d' : insert_project_or_ignore r d = Return d' -> users d' = users d.
Proof.
  unfold insert_project_or_ignore, insert_project. repeat case_match; intros; simplify_eq; done.
Qed.

Lemma insert_member_users r d d' : insert_member_or_set_role r Owner d = Return d' -> users d' = users d.
Proof.
  unfold insert_member_or_set_role, insert_member. repeat case_match; intros; simplify_eq; done.
Qed.

Lemma ensure_users userId now uuid d : users (run (ensurePersonalProject userId now uuid) d).2 = users d.
Proof.
  apply (wp_run (fun _ => True) (fun d d' => users d' = users d) _ (fun _ _ => True)); [|done].
  set (G := fun d d' => users d' = users d).
  assert (forall p d0, wp (fun _ => True) G (execute (insert_member_or_set_role p Owner)) (fun _ _ => True) d0) as Hown.
  { intros p d0. apply (wp_execute _ G). intros d1 d2 _ _ Hi. split; [done|]. split; [by eapply insert_member_users|done]. }
  unfold ensurePersonalProject, findExisting. apply wp_bind, (wp_query _ G). intros d1 _ _.
  apply wp_bind. destruct (head _) as [p|].
  - apply wp_ret, wp_bind. eapply wp_mono; [|apply Hown]. done.
  - apply wp_bind. apply (wp_execute _ G). intros d2 d3 _ _ Hi. split; [done|].
    split; [by eapply insert_project_users|]. apply (wp_query _ G). intros d4 _ _.
    destruct (head _) as [p|]; [|done]. apply wp_bind. eapply wp_mono; [|apply Hown]. done.
Qed.

Lemma insert_user_private r d d' : insert_user r d = Return d' -> private d ->
  private d' /\ grows d d' /\ users d' = insert_row r (users d).
Proof.
  intros Hi [Hd Hb]. destruct (insert_user_intact r d d' Hi Hd) as [Hd' Hg]. unfold insert_user in Hi.
  destruct (existsb _ _); [done|]. injection Hi as <-. done.
Qed.

Lemma ensure_private userId now uuid d : private d ->
  private (run (ensurePersonalProject userId now uuid) d).2.
Proof. intros Hp. by apply (wp_run private grows _ _ _ (wp_ensurePersonal userId now uuid d)). Qed.

(** The state a successful sign-up leaves. *)
Lemma createUser_row input salt uuid now pnow puuid d u d' : private d ->
  run (createUser scrypt connection_type input salt uuid now pnow puuid) d = (Return u, d') ->
  exists row, private d' /\ row ∈ rows (users d') /\ u_id row = uuid
    /\ u_email row = normalizeEmail (cu_email input)
    /\ u_passwordHash row = Some (hashPassword scrypt (cu_password input) salt)
    /\ u_isActive row = default true (cu_isActive input).
Proof.
  intros Hp. unfold createUser, getUserByEmail. rewrite run_bind, run_query.
  destruct (fmap mapUser _) as [x|]; [done|]. destruct (negb _); [done|].
  set (row := MkUserRow _ _ _ _ _ _ _ _ _).
  assert (forall d1, insert_user row d = Return d1 ->
            let d2 := (run (ensurePersonalProject uuid pnow puuid) d1).2 in
            private d2 /\ row ∈ rows (users d2)) as Hrow.
  { intros d1 Hi. destruct (insert_user_private _ _ _ Hi Hp) as (Hp1 & _ & Hu).
    split; [by apply ensure_private|]. rewrite ensure_users, Hu. apply elem_of_insert_row. by left. }
  intros Hrun. exists row.
  cut (private d' /\ row ∈ rows (users d')); [by intros [? ?]|].
  destruct connection_type; rewrite run_bind, run_execute in Hrun;
    destruct (insert_user row d) as [d1|] eqn:Hi; try done; specialize (Hrow d1 eq_refl); rewrite run_bind in Hrun.
  - destruct (run (ensurePersonalProject uuid pnow puuid) d1) as [[?|?] d2]; [|done]. by injection Hrun as _ <-.
  - destruct (insert_user_private _ _ _ Hi Hp) as (Hp1 & _ & Hu).
    assert (row ∈ rows (users d1)) as Hin by (rewrite Hu; apply elem_of_insert_row; by left).
    pose proof (select_user_id d1 row (proj1 Hp1) Hin) as Hsel. unfold getUserById in Hrun. rewrite run_query in Hrun.
    change (u_id row) with uuid in Hsel. rewrite Hsel in Hrun. cbn [head fmap option_fmap option_map] in Hrun.
    rewrite run_bind in Hrun. change (au_id (mapUser row)) with uuid in Hrun.
    destruct (run (ensurePersonalProject uuid pnow puuid) d1) as [[?|?] d2]; [|done]. by injection Hrun as _ <-.
Qed.

Lemma run_login email password d : run (verifyPasswordLogin scrypt email password) d =
  (Return (match head (select (fun u => bool_decide (u_email u = normalizeEmail email)) (users d)) with
           | Some u => if u_isActive u && verifyPassword scrypt password (au_passwordHash (mapUser u))
                       then Some (mapUser u) else None
           | None => None
           end), d).
Proof.
  unfold verifyPasswordLogin, getUserByEmail. rewrite run_bind, run_query. by destruct (head _).
Qed.

Lemma run_authorize email password d : rows (users d) <> [] ->
  run (authorize scrypt (Some email) (Some password)) d = run (verifyPasswordLogin scrypt email password) d.
Proof.
  intros Hne. unfold authorize, countUsers. rewrite run_bind, run_query.
  destruct (Z.eqb_spec (Z.of_nat (length (rows (users d)))) 0) as [H0|]; [|done].
  destruct (rows (users d)); [done|simpl in H0; lia].
Qed.

(** What the login form answers for the row of an email. *)
Lemma authorize_row row email password d : intact d -> row ∈ rows (users d) -> u_email row = normalizeEmail email ->
  run (authorize scrypt (Some email) (Some password)) d =
  (Return (if u_isActive row && verifyPassword scrypt password (au_passwordHash (mapUser row))
           then Some (mapUser row) else None), d).
Proof.
  intros Hd Hin He. rewrite run_authorize by (intros Hn; rewrite Hn in Hin; by apply elem_of_nil in Hin).
  rewrite run_login, <- He, (select_user_email d row Hd Hin). done.
Qed.

(** Whoever was signed up can log in: with any spelling of the email that normalises
    the same, the credentials check answers with that user exactly for an
    active account and a password whose derived key is the stored one, and
    nobody otherwise; it changes nothing. *)
Theorem signed_up_user_logs_in input salt uuid now pnow puuid d u d' email password :
  scrypt_ok -> salt <> [] -> Forall is_byte salt -> private d ->
  run (createUser scrypt connection_type input salt uuid now pnow puuid) d = (Return u, d') ->
  normalizeEmail email = normalizeEmail (cu_email input) ->
  exists answer, run (authorize scrypt (Some email) (Some password)) d' = (Return answer, d')
    /\ if default true (cu_isActive input)
          && bool_decide (scrypt password (hex_text salt) KEY_LENGTH = scrypt (cu_password input) (hex_text salt) KEY_LENGTH)
       then exists user, answer = Some user /\ au_id user = uuid else answer = None.
Proof.
  intros Hs Hne Hb Hp Hrun He.
  destruct (createUser_row _ _ _ _ _ _ _ _ _ Hp Hrun) as (row & [Hd' _] & Hin & Hid & Hem & Hpw & Hact).
  rewrite (authorize_row row email password d' Hd' Hin) by congruence. eexists. split; [done|].
  assert (au_passwordHash (mapUser row) = u_passwordHash row) as -> by (by simpl; rewrite Hpw).
  rewrite Hpw, verify_hash, Hact by done. destruct (_ && _); [|done]. exists (mapUser row). by rewrite <- Hid.
Qed.

(** ** Setup *)
Lemma insert_first_user r d : intact d -> rows (users d) = [] -> insert_user r d = Return (on_users (insert_row r) d).
Proof. intros Hd He. unfold insert_user. by rewrite He. Qed.

Lemma no_projects d : intact d -> rows (users d) = [] -> rows (projects d) = [].
Proof.
  intros Hd He. pose proof (project_refs d Hd) as Hr. destruct (rows (projects d)) as [|p l]; [done|].
  apply Forall_cons in Hr as [Hr _]. unfold has_user in Hr. by rewrite He in Hr.
Qed.

Lemma ensure_first row now uuid d : private d -> rows (users d) = [] ->
  let d1 := on_users (insert_row row) d in
  exists pm d', run (ensurePersonalProject (u_id row) now uuid) d1 = (Return pm, d')
    /\ rows (users d') ≡ₚ [row]
    /\ exists m, m ∈ rows (projectMembers d') /\ m_key m = (uuid, u_id row) /\ m_role m = Owner.
Proof.
  intros [Hd _] He d1.
  destruct (insert_user_intact row d d1) as [Hd1 _]; [by apply insert_first_user|done|].
  assert (rows (users d1) ≡ₚ [row]) as Hrows by (simpl; by rewrite rows_insert, He).
  destruct (ensure_created d1 (u_id row) now uuid) as (d' & Hrun & _ & Hm); [done| | | |].
  - apply has_user_spec. exists row. rewrite Hrows. by split; [left|].
  - unfold has_project. simpl. by rewrite no_projects.
  - simpl. rewrite no_projects by done. by intros p ?%elem_of_nil.
  - eexists _, d'. split; [exact Hrun|]. split; [|done]. pose proof (ensure_users (u_id row) now uuid d1) as Hu.
    rewrite Hrun in Hu. simpl in Hu. by rewrite Hu.
Qed.

(** The initial setup happens once: while nobody has an account it creates one active
    administrator, the only user, who owns a personal workspace; from then on
    it is refused and changes nothing. *)
Theorem initial_setup_once input salt uuid now pnow puuid d : private d ->
  let setup := run (createInitialAdmin scrypt connection_type input salt uuid now pnow puuid) d in
  (rows (users d) <> [] -> setup = (Throw (JsError "Initial setup has already been completed."), d))
  /\ (rows (users d) = [] ->
      exists u row, setup.1 = Return u /\ rows (users setup.2) ≡ₚ [row]
        /\ u_id row = uuid /\ u_role row = ADMIN_USER_ROLE /\ u_isActive row = true
        /\ u_email row = normalizeEmail (ia_email input)
        /\ (exists m, m ∈ rows (projectMembers setup.2) /\ m_key m = (puuid, uuid) /\ m_role m = Owner)
        /\ au_id u = uuid /\ au_role u = ADMIN_USER_ROLE).
Proof.
  intros Hp setup. split.
  - intros Hne. unfold setup, createInitialAdmin.
    assert ((0 <? Z.of_nat (length (rows (users d)))) = true) as Hpos.
    { apply Z.ltb_lt. destruct (rows (users d)); [done|simpl; lia]. }
    destruct connection_type;
      by rewrite run_bind, (run_rolled_back _ _ (JsError "Initial setup has already been completed.")) by (by rewrite Hpos).
  - intros He. set (row := MkUserRow uuid (Some (js_trim (ia_name input))) (normalizeEmail (ia_email input))
      (Some (hashPassword scrypt (ia_password input) salt)) ADMIN_USER_ROLE (Some now) true now now).
    destruct (ensure_first row pnow puuid d Hp He) as (pm & d' & Hrun & Hrows & Hm).
    assert (setup = (Return (row_user row), d')) as ->; [|exists (row_user row), row; done].
    pose proof (insert_first_user row d (proj1 Hp) He) as Hi.
    unfold setup, createInitialAdmin. fold row.
    set (d1 := on_users (insert_row row) d) in *.
    assert (forall A (k : Db -> A), (if 0 <? Z.of_nat (length (rows (users d)))
        then Throw (JsError "Initial setup has already been completed.") else insert_user row d)
      ≫= (fun d' => Return (k d', d')) = Return (k d1, d1)) as Hbody by (intros A k; by rewrite He, Hi).
    destruct connection_type; rewrite run_bind.
    + rewrite (run_committed _ d row d1) by apply (Hbody _ (fun _ => row)). by rewrite run_bind, Hrun.
    + rewrite (run_committed _ d (Some row) d1); [by rewrite run_bind, Hrun|].
      rewrite (Hbody _ (fun d' => head (select _ (users d')))). cbv beta.
      pose proof (select_user_id d1 row) as Hsel. change (u_id row) with uuid in Hsel.
      rewrite Hsel; [done| |simpl; apply elem_of_insert_row; by left]. by destruct (insert_user_intact row d d1 Hi (proj1 Hp)).
Qed.

(** ** Deactivation *)
Lemma run_setActive userId active now d : run (setUserActiveState userId active now) d =
  (Return tt, on_users (update_rows (fun u => bool_decide (u_id u = userId)) (set_active active now)) d).
Proof. done. Qed.

Lemma permission_users userId projectId action role f d :
  (run (userHasProjectPermission localeCompare userId projectId action role) (on_users f d)).1
  = (run (userHasProjectPermission localeCompare userId projectId action role) d).1.
Proof.
  unfold userHasProjectPermission, getProjectMembership, listProjectsForUser. by destruct (decide (role = Some "admin")).
Qed.

(** Deactivating a user only closes the login: no credentials of the account are
    accepted afterwards, but the session callbacks accept a token that was issued
    before without looking at the account, and every project permission of the
    user is answered as before. *)
Theorem deactivation_closes_login_only row email password now d : intact d -> row ∈ rows (users d) ->
  u_email row = normalizeEmail email ->
  exists d', run (setUserActiveState (u_id row) false now) d = (Return tt, d')
    /\ run (authorize scrypt (Some email) (Some password)) d' = (Return None, d')
    /\ (forall token, ostr_truthy (jwt_role token) = true -> run (jwt_callback token None) d' = (Return token, d'))
    /\ forall projectId action role,
         (run (userHasProjectPermission localeCompare (u_id row) projectId action role) d').1
         = (run (userHasProjectPermission localeCompare (u_id row) projectId action role) d).1.
Proof.
  intros Hd Hin He. rewrite run_setActive. eexists. split; [done|].
  set (d' := on_users _ d). split.
  - assert (set_active false now row ∈ rows (users d')) as Hin'.
    { simpl. apply elem_of_update_rows. exists row. by rewrite bool_decide_eq_true_2. }
    rewrite (authorize_row (set_active false now row) email password d'); [done| |done|done].
    by apply update_users_intact.
  - split; [|intros; apply permission_users]. intros token Ht. unfold jwt_callback. by rewrite Ht.
Qed.

(** ** Who may administer *)
Context (native_message : js_error -> string).

Definition is_admin (s : Session) : bool :=
  match session_user s with Some (_, u) => bool_decide (su_role u = Some "admin") | None => false end.

Lemma not_admin s : is_admin s = false -> exists page, requireAdminSession s = Throw (JsRedirect page).
Proof.
  unfold is_admin, requireAdminSession, requireSession. destruct (session_user s) as [[id u]|]; simpl.
  - intros H. bools. rewrite decide_False by done. eauto.
  - eauto.
Qed.

(** Only administrators administer: without an administrator's session none of the
    six administration actions performs a single database operation.  The
    redirect that the guard throws is caught with the other errors: three of
    them report it as the message NEXT_REDIRECT, two drop it silently, and
    only the role change redirects. *)
Theorem administration_needs_admin session form salt uuid now pnow puuid : is_admin session = false ->
  let caught := Done (Return (MkAdminState (Some "NEXT_REDIRECT") None)) in
  createUserAdminAction scrypt connection_type native_message session form salt uuid now pnow puuid = caught
  /\ createProjectAdminAction connection_type native_message session form now uuid = caught
  /\ addProjectMembersAction connection_type native_message session form now = caught
  /\ toggleUserActiveAction session form now = Done (Return tt)
  /\ removeProjectMemberAction localeCompare session form = Done (Return tt)
  /\ exists page, updateProjectMemberRoleAdminAction localeCompare session form = Done (Throw (JsRedirect page)).
Proof.
  intros (page & Hg)%not_admin. unfold createUserAdminAction, createProjectAdminAction, addProjectMembersAction,
    toggleUserActiveAction, removeProjectMemberAction, updateProjectMemberRoleAdminAction. rewrite Hg.
  repeat (split; [done|]). by exists page.
Qed.

Definition no_manager : js_error := JsError "You do not have permission to manage this team.".

Lemma run_requireManager session projectId d : intact d ->
  (forall id u, session_user session = Some (id, u) -> ~ may d id projectId Manage (su_role u)) ->
  run (requireMemberManager localeCompare session projectId) d = (Throw no_manager, d).
Proof.
  intros Hd Hn. unfold requireMemberManager. destruct (session_user session) as [[id u]|]; [|done].
  rewrite run_bind. destruct (permission_spec localeCompare id projectId Manage (su_role u) d Hd) as (b & -> & Hb).
  destruct b; [|done]. destruct (Hn id u eq_refl). by apply Hb.
Qed.

(** Teams are managed by their managers: a caller whose role in the project does not
    allow managing it can neither add, change nor remove a member; the action
    throws and changes nothing. *)
Theorem team_management_needs_permission session form now d : intact d ->
  (forall id u, session_user session = Some (id, u) ->
     ~ may d id (readTrimmedString form "projectId") Manage (su_role u)) ->
  run (addTeamMembersAction connection_type localeCompare session form now) d = (Throw no_manager, d)
  /\ run (updateTeamMemberRoleAction localeCompare session form) d = (Throw no_manager, d)
  /\ run (removeTeamMemberAction localeCompare session form) d = (Throw no_manager, d).
Proof.
  intros Hd Hn. unfold addTeamMembersAction, updateTeamMemberRoleAction, removeTeamMemberAction.
  by rewrite !run_bind, !run_requireManager.
Qed.
End Facts.

(** ** Pages *)

(** The page a browser ends on after at most [n] redirects. *)
Fixpoint browse (n : nat) (pathname search : string) (setupComplete isAuthenticated : bool) : option string :=
  match proxy pathname search setupComplete isAuthenticated, n with
  | NextPage, _ => Some pathname
  | RedirectPage path _, S n' => browse n' path "" setupComplete isAuthenticated
  | RedirectPage _ _, O => None
  end.

(** Pages are shown only to those who may see them: a request passes the middleware
    exactly for a public page, for the setup page while nobody has an account,
    for the login page of a visitor after that, and for any other page of a
    signed-in user. *)
Theorem pages_guarded pathname search setupComplete isAuthenticated :
  proxy pathname search setupComplete isAuthenticated = NextPage <->
  isPublicSitePath pathname = true
  \/ (setupComplete = false /\ isAuthenticated = false /\ pathname = "/setup")
  \/ (setupComplete = true /\ isAuthenticated = false /\ pathname = "/login")
  \/ (setupComplete = true /\ isAuthenticated = true /\ pathname <> "/login" /\ pathname <> "/setup").
Proof.
  unfold proxy. destruct (isPublicSitePath pathname) eqn:Ep; [tauto|].
  assert (pathname <> "/") as Hroot by (intros ->; done).
  unfold set_has, PUBLIC_ROUTES, AUTH_ROUTES.
  destruct (decide (pathname = "/setup")) as [->|Hs]; [by destruct setupComplete, isAuthenticated; naive_solver|].
  destruct (decide (pathname = "/login")) as [->|Hl]; [by destruct setupComplete, isAuthenticated; naive_solver|].
  rewrite (bool_decide_eq_false_2 (pathname = "/setup")), !bool_decide_eq_false_2 by set_solver.
  destruct setupComplete, isAuthenticated; naive_solver.
Qed.

(** Redirects end: whoever is signed in only when an account exists is shown a page
    after one redirect at most.  A session that survives the accounts (its
    token is valid, the user table is empty) is sent between the setup page
    and the workflows for ever. *)
Theorem redirects_settle pathname search setupComplete isAuthenticated :
  if setupComplete || negb isAuthenticated || isPublicSitePath pathname
  then exists page, browse 1 pathname search setupComplete isAuthenticated = Some page
  else forall n, browse n pathname search setupComplete isAuthenticated = None.
Proof.
  destruct (isPublicSitePath pathname) eqn:Ep.
  { rewrite orb_true_r. exists pathname. simpl. unfold proxy. by rewrite Ep. }
  rewrite orb_false_r. destruct (setupComplete || negb isAuthenticated) eqn:Eo.
  - simpl. destruct (proxy pathname search setupComplete isAuthenticated) as [|path query] eqn:E; [eauto|].
    assert (proxy path "" setupComplete isAuthenticated = NextPage) as ->; [|eauto].
    unfold proxy in E. rewrite Ep in E.
    destruct setupComplete, isAuthenticated; simpl in E; try done; rewrite ?andb_false_r in E;
      repeat case_match; simplify_eq; try done; bools; subst; done.
  - apply orb_false_iff in Eo as [-> Ha]. destruct isAuthenticated; [clear Ha|done].
    intros n. revert pathname search Ep. induction n as [|n IH]; intros pathname search Ep; simpl; unfold proxy; rewrite Ep;
      (destruct (decide (pathname = "/setup")) as [->|Hs]; [|rewrite bool_decide_eq_false_2 by done]); simpl; auto.
Qed.

(** ** Examples *)
#[local] Existing Instance list_engine.

(** A derivation of the documented length that depends on the first character. *)
Definition demo_scrypt (password salt : string) (n : Z) : list Z :=
  repeat (match password with String c _ => Z.of_nat (nat_of_ascii c) | EmptyString => 0 end) (Z.to_nat n).

Lemma demo_scrypt_ok : scrypt_ok demo_scrypt.
Proof.
  intros password salt n Hn. unfold demo_scrypt. rewrite repeat_length. split; [lia|].
  apply Forall_forall. intros x Hx. apply list_elem_of_In, repeat_spec in Hx as ->. unfold is_byte.
  destruct password as [|c s]; [lia|]. pose proof (nat_ascii_bounded c). lia.
Qed.

Definition demo_salt : list Z := [1; 171].

Lemma demo_salt_ok : demo_salt <> [] /\ Forall is_byte demo_salt.
Proof. split; [done|]. unfold demo_salt, is_byte. repeat constructor; lia. Qed.

Lemma password_roundtrip_witness :
  verifyPassword demo_scrypt "secret" (Some (hashPassword demo_scrypt "secret" demo_salt)) = true.
Proof.
  exact (proj1 (password_roundtrip demo_scrypt "secret" "guess" demo_salt demo_scrypt_ok
    (proj1 demo_salt_ok) (proj2 demo_salt_ok))).
Defined.

Definition dan : CreateUserInput := MkCreateUser " Dan@Example.com" "Dan" "secret" "normal" None.

Lemma signed_up_user_logs_in_witness :
  let created := run (createUser demo_scrypt MysqlDb dan demo_salt "dan" epoch epoch "p4") demo_db in
  exists user, (run (authorize demo_scrypt (Some "dan@example.COM") (Some "secret")) created.2).1 = Return (Some user)
    /\ au_id user = "dan".
Proof.
  destruct (run (createUser demo_scrypt MysqlDb dan demo_salt "dan" epoch epoch "p4") demo_db) as [[u|e] d'] eqn:Er;
    [|by vm_compute in Er].
  destruct (signed_up_user_logs_in demo_scrypt MysqlDb dan demo_salt "dan" epoch epoch "p4" demo_db u d'
    "dan@example.COM" "secret" demo_scrypt_ok (proj1 demo_salt_ok) (proj2 demo_salt_ok) demo_private Er eq_refl)
    as (answer & Ha & user & -> & Hid).
  exists user. split; [|exact Hid]. cbv zeta. cbn [snd]. rewrite Ha. reflexivity.
Defined.

Definition empty_db : Db := MkDb [] [] [] [].

Lemma empty_private : private empty_db.
Proof. split; [by split; apply (bool_decide_unpack _); vm_compute|constructor]. Qed.

Lemma initial_setup_once_witness :
  exists u, (run (createInitialAdmin demo_scrypt PostgresDb (MkInitialAdmin "Root@example.com" "Root" "password")
                    demo_salt "root" epoch epoch "p0") empty_db).1 = Return u /\ au_role u = "admin".
Proof.
  destruct (proj2 (initial_setup_once demo_scrypt PostgresDb (MkInitialAdmin "Root@example.com" "Root" "password")
    demo_salt "root" epoch epoch "p0" empty_db empty_private) eq_refl) as (u & row & Hu & _ & _ & _ & _ & _ & _ & _ & Hr).
  exists u. split; [exact Hu|exact Hr].
Defined.

Lemma deactivation_closes_login_only_witness :
  exists d', (run (setUserActiveState "ann" false epoch) demo_db) = (Return tt, d')
    /\ (run (userHasProjectPermission by_code "ann" "team" Manage (Some "normal")) d').1 = Return true.
Proof.
  destruct (deactivation_closes_login_only demo_scrypt by_code (demo_user "ann") "Ann@example.com" "secret" epoch demo_db
    demo_intact (list_elem_of_here _ _) eq_refl) as (d' & Hr & _ & _ & Hp).
  exists d'. split; [exact Hr|]. exact (Hp "team" Manage (Some "normal")).
Defined.

Definition bob_session : Session := Some (Some (MkSessionUser (Some "bob") (Some "normal"))).
Definition cid_session : Session := Some (Some (MkSessionUser (Some "cid") (Some "normal"))).

Lemma administration_needs_admin_witness :
  toggleUserActiveAction bob_session [("userId", FText "ann")] epoch = Done (Return tt).
Proof.
  exact (proj1 (proj2 (proj2 (proj2 (administration_needs_admin demo_scrypt MysqlDb by_code (fun _ => "") bob_session
    [("userId", FText "ann")] [] "" epoch epoch "" eq_refl))))).
Defined.

Lemma team_management_needs_permission_witness :
  run (removeTeamMemberAction by_code cid_session [("projectId", FText "team"); ("userId", FText "ann")]) demo_db
  = (Throw no_manager, demo_db).
Proof.
  refine (proj2 (proj2 (team_management_needs_permission MysqlDb by_code cid_session
    [("projectId", FText "team"); ("userId", FText "ann")] epoch demo_db demo_intact _))).
  intros id u [= <- <-] (m & Hm & Hk & _). vm_compute in Hk.
  apply elem_of_cons in Hm as [->|Hm]; [discriminate Hk|].
  apply elem_of_cons in Hm as [->|Hm]; [discriminate Hk|]. by apply elem_of_nil in Hm.
Defined.

(** A path that browsers read as another host passes the check of the redirect. *)
Example backslash_redirect : getRedirectTarget (Some (FText "/\evil.example")) "/workflow" = "/\evil.example".
Proof. done. Qed.
