(* ===== verification/AgentAccess.v ===== *)
(** * Access for agents: [ui-v2/src/modules/agent/server] and its routes

    [auth.ts] (scopes, personal tokens, authentication of a request),
    [internal-assertion.ts] (the signed assertions of the MCP service),
    [http.ts], the mode of [mcp-config.ts], and the routes
    [app/api/v1/agent/tokens] and [app/api/v1/agent/introspect].  The hash, the
    signature and the decoders of Node are parameters; [now] is the clock at the
    place where the code reads it. *)

From S2P Require Import Prelude FlowTypes JsLib ClientId Process ServerInput Database Projects Json JsonParse Accounts.
From Stdlib Require Import Ascii.
Open Scope Z_scope.

(** ** Scopes *)
Inductive AgentScope := ScopeRead | ScopeWrite | ScopeRun.
#[export] Instance AgentScope_eq_dec : EqDecision AgentScope.
Proof. solve_decision. Defined.

Definition scope_name (s : AgentScope) : string :=
  match s with ScopeRead => "read" | ScopeWrite => "workflow:write" | ScopeRun => "run" end.

Definition AGENT_SCOPES : list AgentScope := [ScopeRead; ScopeWrite; ScopeRun].

Definition SCOPE_ACTION (s : AgentScope) : ProjectAction :=
  match s with ScopeRead => View | ScopeWrite => Edit | ScopeRun => Run end.

(** A JSON value that is one of the scopes. *)
Definition as_scope (v : JsonValue) : option AgentScope :=
  match v with JStr s => List.find (fun scope => bool_decide (scope_name scope = s)) AGENT_SCOPES | _ => None end.

(** [scopes.includes(scope)] on values that came from JSON. *)
Definition includes_scope (scopes : list JsonValue) (scope : AgentScope) : bool :=
  existsb (fun v => bool_decide (as_scope v = Some scope)) scopes.

Definition scopes_json (scopes : list AgentScope) : JsonValue := json_strings (map scope_name scopes).

(** [String(value)]. *)
Fixpoint js_String (v : JsonValue) : string :=
  match v with
  | JNull => "null"
  | JBool b => if b then "true" else "false"
  | JNum n => pretty n
  | JStr s => s
  | JArr items => join "," (map (fun x => match x with JNull => "" | _ => js_String x end) items)
  | JObj _ => "[object Object]"
  end.

(** ** Requests and responses *)
Definition Headers : Type := jmap string string.

Record ApiResponse := MkResponse { status : Z; body : JsonValue }.

Definition api_error (status : Z) (message : string) : ApiResponse :=
  MkResponse status (JObj [("error", JStr message)]).

Record AgentEnv := MkAgentEnv { MCP_INTERNAL_SECRET : option string; MCP_AUTH_MODE : option string }.

Inductive McpAuthMode := PersonalToken | OAuth.
#[export] Instance McpAuthMode_eq_dec : EqDecision McpAuthMode.
Proof. solve_decision. Defined.

Definition getMcpAuthMode (env : AgentEnv) : McpAuthMode :=
  if decide (MCP_AUTH_MODE env = Some "oauth") then OAuth else PersonalToken.

(** ** Assertions: [internal-assertion.ts] *)
Definition ASSERTION_ISSUER : string := "tokyo-mcp".
Definition ASSERTION_AUDIENCE : string := "tokyo-ui-agent-api".

(** [email] and [user_id] are not checked by the code. *)
Record AgentAssertionClaims := MkClaims {
  cl_sub : string; cl_email : option JsonValue; cl_user_id : option JsonValue; cl_project_id : string;
  cl_scopes : list JsonValue; cl_iat : Z; cl_exp : Z
}.

Section Platform.
Context (sha256_hex : string -> string) (hmac_sha256 : string -> string -> list Z)
  (base64url : string -> list Z) (utf8 : list Z -> string).

Definition decodePart (value : string) : list Z := base64url value.
Definition signature (secret value : string) : list Z := hmac_sha256 secret value.

(** The property reads of [claims] and [header]: reading a property of [null]
    throws, which the code catches. *)
Definition check_claims (header claims : JsonValue) (now : Z) : option AgentAssertionClaims :=
  match header, claims with
  | JNull, _ | _, JNull => None
  | _, _ =>
      match json_field "alg" header, json_field "typ" header with
      | Some (JStr alg), Some (JStr typ) =>
          if negb (bool_decide (alg = "HS256")) || negb (bool_decide (typ = "JWT")) then None
          else
            match json_field "iss" claims, json_field "aud" claims, json_field "sub" claims,
              json_field "project_id" claims, json_field "iat" claims, json_field "exp" claims,
              json_field "scopes" claims with
            | Some (JStr iss), Some (JStr aud), Some (JStr sub), Some (JStr project_id), Some (JNum iat),
              Some (JNum exp), Some (JArr scopes) =>
                if negb (bool_decide (iss = ASSERTION_ISSUER)) || negb (bool_decide (aud = ASSERTION_AUDIENCE))
                   || (now + 30 <? iat) || (exp <=? now) || (120 <? exp - iat)
                   || existsb (fun scope => negb (set_has (js_String scope) ["read"; "workflow:write"; "run"])) scopes
                then None
                else Some (MkClaims sub (json_field "email" claims) (json_field "user_id" claims) project_id scopes iat exp)
            | _, _, _, _, _, _, _ => None
            end
      | _, _ => None
      end
  end.

Definition verifyAgentAssertion (assertion secret : string) (now : Z) : option AgentAssertionClaims :=
  if Z.of_nat (String.length secret) <? 32 then None
  else
    match split_on "." assertion with
    | [encodedHeader; encodedPayload; encodedSignature] =>
        let signingInput := encodedHeader +:+ "." +:+ encodedPayload in
        let expected := signature secret signingInput in
        let received := decodePart encodedSignature in
        if negb (bool_decide (length received = length expected)) || negb (bool_decide (received = expected)) then None
        else
          match JSON_parse (utf8 (decodePart encodedHeader)), JSON_parse (utf8 (decodePart encodedPayload)) with
          | Some header, Some claims => check_claims header claims now
          | _, _ => None
          end
    | _ => None
    end.

(** ** Tokens: [auth.ts] *)
Record AgentIdentity := MkIdentity {
  id_tokenId : string; id_userId : string; id_projectId : string; id_scopes : list JsonValue;
  id_membership : option ProjectMembership
}.

Record AgentTokenListItem := MkTokenItem {
  ti_id : string; ti_name : string; ti_projectId : string; ti_scopes : list AgentScope; ti_createdAt : string;
  ti_expiresAt : string; ti_lastUsedAt : option string; ti_revokedAt : option string
}.

Context `{E : Engine} (localeCompare : string -> string -> Z).

Definition scope_allowed (m : ProjectMembership) (scope : AgentScope) : bool :=
  set_has (SCOPE_ACTION scope) (pm_allowedActions m).

Definition availableAgentScopes (userId projectId : string) (platformRole : option string)
    : Proc Db (list AgentScope) :=
  membership ← getProjectMembership localeCompare userId projectId platformRole;
  mret (match membership with
        | None => []
        | Some m => filter (fun scope => scope_allowed m scope = true) AGENT_SCOPES
        end).

Definition tokenHash (token : string) : string := sha256_hex token.

(** [random] is the text of the 32 random bytes. *)
Definition createAgentToken (name userId projectId : string) (scopes : list AgentScope) (expiresAt : Date)
    (uuid random : string) (now : Date) : Proc Db (string * string * string) :=
  let secret := "tt_pat_" +:+ random in
  let record := MkTokenRow uuid name (tokenHash secret) userId projectId (json_text (scopes_json scopes))
                  expiresAt None None now in
  execute (insert_token record);;
  mret (uuid, secret, date_iso expiresAt).

Definition parseScopes (value : string) : option (list AgentScope) :=
  match JSON_parse value with
  | Some (JArr parsed) => Some (omap as_scope parsed)
  | _ => None
  end.

Definition iso (value : option Date) : option string := fmap (M := option) date_iso value.

Definition token_item (record : TokenRow) : AgentTokenListItem :=
  MkTokenItem (t_id record) (t_name record) (t_projectId record) (default [] (parseScopes (t_scopes record)))
    (date_iso (t_createdAt record)) (date_iso (t_expiresAt record))
    (iso (t_lastUsedAt record)) (iso (t_revokedAt record)).

Definition listAgentTokens (userId : string) : Proc Db (list AgentTokenListItem) :=
  rows ← query (fun d => select_desc (fun t => getTime (t_createdAt t)) (fun t => bool_decide (t_userId t = userId))
                           (agentTokens d));
  mret (map token_item rows).

Definition set_revoked (now : Date) (t : TokenRow) : TokenRow :=
  MkTokenRow (t_id t) (t_name t) (t_tokenHash t) (t_userId t) (t_projectId t) (t_scopes t) (t_expiresAt t)
    (t_lastUsedAt t) (Some now) (t_createdAt t).

Definition revokeAgentToken (userId tokenId : string) (now : Date) : Proc Db unit :=
  execute (fun d => Return (on_tokens
    (update_rows (fun t => bool_decide (t_id t = tokenId) && bool_decide (t_userId t = userId)
                           && bool_decide (t_revokedAt t = None)) (set_revoked now)) d)).

Definition set_used (now : Date) (t : TokenRow) : TokenRow :=
  MkTokenRow (t_id t) (t_name t) (t_tokenHash t) (t_userId t) (t_projectId t) (t_scopes t) (t_expiresAt t)
    (Some now) (t_revokedAt t) (t_createdAt t).

(** The row that a token names while it is valid. *)
Definition token_valid (token : string) (now : Date) (t : TokenRow) : bool :=
  bool_decide (t_tokenHash t = tokenHash token) && (getTime now <? getTime (t_expiresAt t))
  && bool_decide (t_revokedAt t = None).

(** [now] when the rows are selected, [now'] when the use is recorded. *)
Definition authenticatePersonalAgentToken (token : string) (now now' : Date) : Proc Db (option AgentIdentity) :=
  if negb (starts_with "tt_pat_" token) then mret None
  else
    found ← query (fun d => head (select (token_valid token now) (agentTokens d)));
    match (found : option TokenRow) with
    | None => mret None
    | Some record =>
        match parseScopes (t_scopes record) with
        | None => mret None
        | Some scopes =>
            user ← getUserById (t_userId record);
            match user with
            | None => mret None
            | Some u =>
                if negb (au_isActive u) then mret None
                else
                  membership ← getProjectMembership localeCompare (t_userId record) (t_projectId record) (Some (au_role u));
                  match membership with
                  | None => mret None
                  | Some m =>
                      let effectiveScopes := filter (fun scope => scope_allowed m scope = true) scopes in
                      let identity := MkIdentity (t_id record) (t_userId record) (t_projectId record)
                                        (map (fun s => JStr (scope_name s)) effectiveScopes) (Some m) in
                      if bool_decide (effectiveScopes = []) then mret None
                      else
                        let stale := match t_lastUsedAt record with
                                     | None => true
                                     | Some used => getTime used <? getTime now' - 5 * 60000
                                     end in
                        if stale then
                          execute (fun d => Return (on_tokens
                            (update_rows (fun t => bool_decide (t_id t = t_id record)) (set_used now')) d));;
                          mret (Some identity)
                        else mret (Some identity)
                  end
            end
        end
    end.

(** [claims.user_id] or else [claims.email] when it is truthy.  Values that are
    not strings have no [trim] and are no key of the table. *)
Definition assertion_user (claims : AgentAssertionClaims) : Proc Db (option AuthUser) :=
  let given v := match v with Some x => json_truthy x | None => false end in
  if given (cl_user_id claims) then
    match cl_user_id claims with Some (JStr id) => getUserById id | _ => throw JsTypeError end
  else if given (cl_email claims) then
    match cl_email claims with
    | Some (JStr email) => getUserByEmail (toLowerCase (js_trim email))
    | _ => throw JsTypeError
    end
  else mret None.

Definition bearer (headers : Headers) : string :=
  let authorization := default "" (headers !! "authorization") in
  if starts_with "Bearer " authorization
  then js_trim (String.substring 7 (String.length authorization - 7) authorization) else "".

Definition authenticateAgentRequest (env : AgentEnv) (headers : Headers) (required : list AgentScope)
    (now now' : Date) : Proc Db (option AgentIdentity) :=
  let assertion := default "" (fmap (M := option) js_trim (headers !! "x-tokyo-agent-assertion")) in
  if str_truthy assertion then
    match verifyAgentAssertion assertion (default "" (MCP_INTERNAL_SECRET env)) (getTime now / 1000) with
    | None => mret None
    | Some claims =>
        user ← assertion_user claims;
        match user with
        | None => mret None
        | Some u =>
            if negb (au_isActive u) then mret None
            else if negb (forallb (includes_scope (cl_scopes claims)) required) then mret None
            else
              membership ← getProjectMembership localeCompare (au_id u) (cl_project_id claims) (Some (au_role u));
              match membership with
              | None => mret None
              | Some m =>
                  if negb (forallb (scope_allowed m) required) then mret None
                  else mret (Some (MkIdentity ("assertion:" +:+ cl_sub claims) (au_id u) (cl_project_id claims)
                                     (cl_scopes claims) (Some m)))
              end
        end
    end
  else if decide (getMcpAuthMode env = OAuth) then mret None
  else
    identity ← authenticatePersonalAgentToken (bearer headers) now now';
    match identity with
    | None => mret None
    | Some i =>
        if negb (forallb (includes_scope (id_scopes i)) required) then mret None
        else if negb (forallb (fun scope => match id_membership i with Some m => scope_allowed m scope | None => false end)
                        required) then mret None
        else mret (Some i)
    end.

Definition unauthorizedAgentResponse : ApiResponse := api_error 401 "A valid project-scoped agent token is required.".

(** ** [http.ts] *)
Definition requiredIdempotencyKey (headers : Headers) : option string :=
  let key := default "" (fmap (M := option) js_trim (headers !! "idempotency-key")) in
  let n := Z.of_nat (String.length key) in
  if (8 <=? n) && (n <=? 200) then Some key else None.

(** ** Routes *)

(** [GET] of [agent/tokens]. *)
Definition ostr_json (o : option string) : JsonValue := match o with Some s => JStr s | None => JNull end.

Definition token_item_json (t : AgentTokenListItem) : JsonValue :=
  JObj [("id", JStr (ti_id t)); ("name", JStr (ti_name t)); ("projectId", JStr (ti_projectId t));
        ("scopes", scopes_json (ti_scopes t)); ("createdAt", JStr (ti_createdAt t)); ("expiresAt", JStr (ti_expiresAt t));
        ("lastUsedAt", ostr_json (ti_lastUsedAt t)); ("revokedAt", ostr_json (ti_revokedAt t))].

Definition tokens_GET (session : Session) : Proc Db ApiResponse :=
  match session_user session with
  | None => mret (api_error 401 "Unauthorized")
  | Some (id, _) =>
      tokens ← listAgentTokens id;
      mret (MkResponse 200 (JObj [("tokens", JArr (map token_item_json tokens))]))
  end.

(** The checks of the body of [POST]: a [None] of the outer option is refused. *)
Definition token_name_ok (v : option JsonValue) : bool :=
  match v with
  | None => true
  | Some (JStr s) => Z.of_nat (String.length (js_trim s)) <=? 100
  | Some _ => false
  end.

Definition token_scopes_ok (v : option JsonValue) : option (option (list AgentScope)) :=
  match v with
  | None => Some None
  | Some (JArr items) =>
      let scopes := omap as_scope items in
      if bool_decide (length scopes = length items) && bool_decide (NoDup scopes) then Some (Some scopes) else None
  | Some _ => None
  end.

Definition token_days_ok (v : option JsonValue) : option (option Z) :=
  match v with None => Some None | Some (JNum n) => Some (Some n) | Some _ => None end.

(** [POST] of [agent/tokens] once the body is an object. *)
Definition token_request (userId : string) (u : SessionUser) (b : JsonValue) (uuid random : string) (now now' : Date)
    : Proc Db ApiResponse :=
  match token_name_ok (json_field "name" b), json_field "projectId" b, token_scopes_ok (json_field "scopes" b),
    token_days_ok (json_field "expiresInDays" b) with
  | true, Some (JStr project), Some requested, Some expiresInDays =>
      let projectId := js_trim project in
      if 255 <? Z.of_nat (String.length projectId) then mret (api_error 400 "Invalid token request")
      else
        availableScopes ← (if str_truthy projectId then availableAgentScopes userId projectId (su_role u) else mret []);
        if bool_decide (availableScopes = []) then mret (api_error 403 "Forbidden")
        else
          let requestedScopes := default availableScopes requested in
          let unavailable := filter (fun scope => set_has scope availableScopes = false) requestedScopes in
          if negb (bool_decide (unavailable = []))
          then mret (api_error 403 ("Current project role does not allow: " +:+ join ", " (map scope_name unavailable)))
          else if bool_decide (requestedScopes = [])
          then mret (api_error 400 "At least one valid scope is required.")
          else
            let days := Z.min (Z.max (default 30 expiresInDays) 1) 90 in
            let name := match json_field "name" b with Some (JStr s) => js_trim s | _ => "" end in
            match new_Date (getTime now + days * 86400000) with
            | None => throw JsRangeError
            | Some expiresAt =>
                created ← createAgentToken (if str_truthy name then name else "Tokyo Tester agent") userId
                            projectId requestedScopes expiresAt uuid random now';
                mret (MkResponse 201 (JObj [("id", JStr created.1.1); ("token", JStr created.1.2);
                        ("expiresAt", JStr created.2); ("projectId", JStr projectId);
                        ("scopes", scopes_json requestedScopes)]))
            end
  | _, _, _, _ => mret (api_error 400 "Invalid token request")
  end.

Definition tokens_POST (env : AgentEnv) (session : Session) (request_body : option JsonValue)
    (uuid random : string) (now now' : Date) : Proc Db ApiResponse :=
  match session_user session with
  | None => mret (api_error 401 "Unauthorized")
  | Some (userId, u) =>
      if negb (bool_decide (getMcpAuthMode env = PersonalToken))
      then mret (api_error 409 "Personal tokens are disabled; connect with OAuth.")
      else
        match request_body with
        | None => mret (api_error 400 "Invalid JSON body")
        | Some JNull => throw JsTypeError
        | Some b => token_request userId u b uuid random now now'
        end
  end.

(** [DELETE] of [agent/tokens/[tokenId]]. *)
Definition token_DELETE (session : Session) (tokenId : string) (now : Date) : Proc Db ApiResponse :=
  match session_user session with
  | None => mret (api_error 401 "Unauthorized")
  | Some (userId, _) => revokeAgentToken userId tokenId now;; mret (MkResponse 204 JNull)
  end.

(** [POST] of [agent/introspect]. *)
Definition validInternalSecret (env : AgentEnv) (headers : Headers) : bool :=
  let expected := default "" (MCP_INTERNAL_SECRET env) in
  let received := default "" (headers !! "x-tokyo-mcp-secret") in
  (32 <=? Z.of_nat (String.length expected)) && bool_decide (String.length received = String.length expected)
  && bool_decide (received = expected).

Definition inactive (status : Z) : ApiResponse := MkResponse status (JObj [("active", JBool false)]).

Definition introspect_POST (env : AgentEnv) (headers : Headers) (now now' : Date) : Proc Db ApiResponse :=
  if negb (bool_decide (getMcpAuthMode env = PersonalToken)) then mret (inactive 404)
  else if negb (validInternalSecret env headers) then mret (inactive 401)
  else
    identity ← authenticatePersonalAgentToken (bearer headers) now now';
    match identity with
    | None => mret (inactive 200)
    | Some i =>
        user ← getUserById (id_userId i);
        match user with
        | Some u =>
            if str_truthy (au_email u)
            then mret (MkResponse 200 (JObj [("active", JBool true); ("sub", JStr (id_userId i));
                   ("user_id", JStr (id_userId i)); ("email", JStr (au_email u)); ("project_id", JStr (id_projectId i));
                   ("scopes", JArr (id_scopes i))]))
            else mret (inactive 200)
        | None => mret (inactive 200)
        end
    end.
End Platform.
