(* ===== verification/AgentFacts.v ===== *)
(** * What the access of agents guarantees *)

From S2P Require Import Prelude FlowTypes JsLib ClientId Process ServerInput Database Projects ProjectFacts.
From S2P Require Import Json JsonParse Accounts AccountFacts AgentAccess.
From Stdlib Require Import Ascii.
Open Scope Z_scope.

(** ** Scopes *)
Lemma as_scope_name s : as_scope (JStr (scope_name s)) = Some s.
Proof. by destruct s. Qed.

Lemma as_scope_Some v s : as_scope v = Some s -> v = JStr (scope_name s).
Proof.
  destruct v; simpl; try done. repeat case_decide; simpl; repeat case_bool_decide; intros; simplify_eq; by subst.
Qed.

Lemma scopes_named l : omap as_scope (map (fun s => JStr (scope_name s)) l) = l.
Proof. induction l as [|s l IH]; [done|]. destruct s; exact (f_equal (cons _) IH). Qed.

Lemma scopes_wf l : json_wf (scopes_json l).
Proof. apply json_wf_arr. rewrite map_map. apply Forall_forall. by intros v (s & -> & _)%list_elem_of_fmap. Qed.

(** Stored scopes are read back. *)
Lemma parseScopes_text l : parseScopes (json_text (scopes_json l)) = Some l.
Proof.
  unfold parseScopes. rewrite JSON_roundtrip by apply scopes_wf. unfold scopes_json, json_strings.
  rewrite map_map. f_equal. apply scopes_named.
Qed.

Lemma includes_scope_spec l s : includes_scope l s = true <-> JStr (scope_name s) ∈ l.
Proof.
  unfold includes_scope. rewrite existsb_exists. setoid_rewrite bool_decide_eq_true. split.
  - intros (v & Hv & ->%as_scope_Some). by apply list_elem_of_In.
  - intros Hv. exists (JStr (scope_name s)). rewrite as_scope_name. by rewrite <- list_elem_of_In.
Qed.

Section Facts.
Context (sha256_hex : string -> string) (hmac_sha256 : string -> string -> list Z)
  (base64url : string -> list Z) (utf8 : list Z -> string).

(** ** Assertions *)
Lemma check_claims_spec header claims now c : check_claims header claims now = Some c ->
  cl_iat c <= now + 30 /\ now < cl_exp c /\ cl_exp c - cl_iat c <= 120
  /\ (forall v, v ∈ cl_scopes c -> js_String v ∈ map scope_name AGENT_SCOPES).
Proof.
  unfold check_claims. intros H. repeat case_match; try done. injection H as <-. simpl.
  match goal with Hc : _ || _ = false |- _ => rename Hc into Hcond end.
  repeat (apply orb_false_iff in Hcond as [Hcond ?]).
  rewrite !Z.ltb_ge in *. rewrite Z.leb_gt in *. repeat split; [lia..|].
  intros v Hv. match goal with He : existsb _ _ = false |- _ => pose proof (proj1 (existsb_none _ _) He v Hv) as Hs end.
  unfold set_has in Hs. bools. done.
Qed.

(** An assertion is accepted only when it is authentic and fresh: the shared secret has
    at least 32 characters, the third part of the text decodes to the signature
    of the first two under it, it was issued at most 30 seconds ahead, has not
    expired, and expires within two and a half minutes from now. *)
Theorem assertion_authentic assertion secret now c :
  verifyAgentAssertion hmac_sha256 base64url utf8 assertion secret now = Some c ->
  32 <= Z.of_nat (String.length secret)
  /\ (exists h p s, split_on "." assertion = [h; p; s] /\ base64url s = hmac_sha256 secret (h +:+ "." +:+ p))
  /\ cl_iat c - 30 <= now < cl_exp c /\ cl_exp c <= now + 150
  /\ forall v, v ∈ cl_scopes c -> js_String v ∈ map scope_name AGENT_SCOPES.
Proof.
  unfold verifyAgentAssertion, decodePart, signature. intros H.
  destruct (Z.ltb_spec (Z.of_nat (String.length secret)) 32) as [|Hlen]; [done|].
  destruct (split_on "." assertion) as [|h [|p [|s [|]]]] eqn:Es; try done.
  destruct (negb _ || negb _) eqn:Eb; [done|]. bools.
  destruct (JSON_parse _) as [header|]; [|done]. destruct (JSON_parse _) as [claims|]; [|done].
  destruct (check_claims_spec _ _ _ _ H) as (Hiat & Hexp & Hlife & Hscopes).
  repeat split; [done|by exists h, p, s|lia..|done].
Qed.

(** ** Memberships *)
Context `{E : Engine} (localeCompare : string -> string -> Z).
Implicit Types d : Db.

Lemma membership_spec userId projectId role d : intact d ->
  exists om, run (getProjectMembership localeCompare userId projectId role) d = (Return om, d)
    /\ forall action, match om with Some m => set_has action (pm_allowedActions m) | None => false end = true
         <-> may d userId projectId action role.
Proof.
  intros Hd.
  assert (forall action, exists b, run (userHasProjectPermission localeCompare userId projectId action role) d
            = (Return b, d) /\ (b = true <-> may d userId projectId action role)) as H
    by (intros action; by apply permission_spec).
  unfold userHasProjectPermission in H. setoid_rewrite run_bind in H.
  destruct (run (getProjectMembership localeCompare userId projectId role) d) as [[om|e] d1].
  - exists om. destruct (H View) as (b & Hb & _). injection Hb as _ ->. split; [done|].
    intros action. destruct (H action) as (b' & Hb' & Hm). injection Hb' as <-. done.
  - by destruct (H View) as (b & Hb & _).
Qed.

Lemma run_getUserById id d : run (getUserById id) d =
  (Return (mapUser <$> head (select (fun u => bool_decide (u_id u = id)) (users d))), d).
Proof. done. Qed.

(** What is known of a user that a request acts for: [role] is the platform role. *)
Definition acts_for d (i : AgentIdentity) (role : string) : Prop :=
  (exists u, u ∈ rows (users d) /\ u_id u = id_userId i /\ u_isActive u = true /\ u_role u = role)
  /\ exists m, id_membership i = Some m
     /\ forall action, set_has action (pm_allowedActions m) = true
          <-> may d (id_userId i) (id_projectId i) action (Some role).

Lemma found_user d (p : UserRow -> bool) u :
  fmap (M := option) mapUser (head (select p (users d))) = Some u ->
  exists row, row ∈ rows (users d) /\ p row = true /\ u = mapUser row.
Proof.
  destruct (head _) as [row|] eqn:Eh; [|done]. intros [= <-]. apply head_select_in in Eh as [Hp Hin]. eauto.
Qed.

Lemma personal_sound token now now' d i d' : intact d ->
  run (authenticatePersonalAgentToken sha256_hex localeCompare token now now') d = (Return (Some i), d') ->
  exists t role, t ∈ rows (agentTokens d) /\ token_valid sha256_hex token now t = true
    /\ id_userId i = t_userId t /\ id_projectId i = t_projectId t /\ acts_for d i role
    /\ forall s, JStr (scope_name s) ∈ id_scopes i -> may d (id_userId i) (id_projectId i) (SCOPE_ACTION s) (Some role).
Proof.
  intros Hd. unfold authenticatePersonalAgentToken. destruct (negb (starts_with _ _)); [done|].
  rewrite run_bind, run_query. destruct (head _) as [t|] eqn:Et; [|done]. apply head_select_in in Et as [Hv Ht].
  destruct (parseScopes _) as [scopes|]; [|done]. rewrite run_bind, run_getUserById.
  destruct (fmap mapUser _) as [u|] eqn:Eu; [|done]. apply found_user in Eu as (row & Hrow & Hid & ->). bools.
  destruct (au_isActive (mapUser row)) eqn:Ea; [|done]. cbn [negb]. rewrite run_bind.
  destruct (membership_spec (t_userId t) (t_projectId t) (Some (au_role (mapUser row))) d Hd) as (om & -> & Hom).
  destruct om as [m|]; [|done]. destruct (bool_decide _); [done|]. intros Hrun.
  set (identity := MkIdentity _ _ _ _ _) in Hrun.
  assert (i = identity) as ->.
  { destruct (match t_lastUsedAt t with Some _ => _ | None => _ end).
    - rewrite run_bind, run_execute in Hrun. by injection Hrun as <- _.
    - by injection Hrun as <- _. }
  exists t, (u_role row). repeat split; [done|done| | |].
  - exists row. done.
  - exists m. split; [done|]. exact Hom.
  - intros s (s' & He & Hs)%list_elem_of_fmap. apply list_elem_of_filter in Hs as [Hs _].
    apply (Hom (SCOPE_ACTION s)). assert (s = s') as ->; [|done].
    injection He as He. destruct s, s'; done.
Qed.

Lemma request_sound env headers required now now' d i d' : intact d ->
  run (authenticateAgentRequest sha256_hex hmac_sha256 base64url utf8 localeCompare env headers required now now') d
    = (Return (Some i), d') ->
  exists role, acts_for d i role
    /\ (forall s, s ∈ required -> JStr (scope_name s) ∈ id_scopes i
          /\ may d (id_userId i) (id_projectId i) (SCOPE_ACTION s) (Some role))
    /\ ((exists c, verifyAgentAssertion hmac_sha256 base64url utf8
            (default "" (js_trim <$> (headers !! "x-tokyo-agent-assertion" : option string))) (default "" (MCP_INTERNAL_SECRET env)) (getTime now / 1000) = Some c /\ id_projectId i = cl_project_id c)
        \/ (getMcpAuthMode env = PersonalToken /\ exists t, t ∈ rows (agentTokens d)
              /\ t_tokenHash t = sha256_hex (bearer headers) /\ getTime now < getTime (t_expiresAt t)
              /\ t_revokedAt t = None /\ t_userId t = id_userId i /\ t_projectId t = id_projectId i)).
Proof.
  intros Hd. unfold authenticateAgentRequest. destruct (str_truthy _).
  - destruct (verifyAgentAssertion _ _ _ _ _ _) as [c|] eqn:Ev; [|done]. rewrite run_bind. intros Hrun.
    assert (exists u, run (assertion_user c) d = (u, d)
      /\ forall x, u = Return (Some x) -> exists row, row ∈ rows (users d) /\ x = mapUser row) as (u & Hu & Hrow).
    { unfold assertion_user, getUserById, getUserByEmail.
      repeat case_match; eexists; (split; [done|]); try done; intros x [= Hx]; apply found_user in Hx; naive_solver. }
    rewrite Hu in Hrun. destruct u as [[u|]|]; [|done..]. destruct (Hrow u eq_refl) as (row & Hin & ->).
    destruct (au_isActive (mapUser row)) eqn:Ea; [|done]. cbn [negb] in Hrun.
    destruct (forallb (includes_scope (cl_scopes c)) required) eqn:Esc; [|done]. cbn [negb] in Hrun.
    rewrite run_bind in Hrun.
    destruct (membership_spec (au_id (mapUser row)) (cl_project_id c) (Some (au_role (mapUser row))) d Hd)
      as (om & Hm & Hom). rewrite Hm in Hrun. destruct om as [m|]; [|done].
    destruct (forallb (scope_allowed m) required) eqn:Eal; [|done]. injection Hrun as <- _.
    exists (u_role row). split; [|split; [|left; exists c; by split]].
    + split; [by exists row|]. by exists m.
    + intros s Hs. apply list_elem_of_In in Hs. rewrite forallb_forall in Esc, Eal.
      split; [apply includes_scope_spec; by apply Esc|]. apply Hom. by apply Eal.
  - destruct (decide _) as [|Hmode]; [done|]. rewrite run_bind. intros Hrun.
    destruct (run (authenticatePersonalAgentToken _ _ _ _ _) d) as [[[j|]|] d1] eqn:Ep; [|done..].
    destruct (forallb (includes_scope _) _) eqn:Esc; [|done]. cbn [negb] in Hrun.
    destruct (forallb (fun scope => _) required) eqn:Eal; [|done]. injection Hrun as <- _.
    destruct (personal_sound _ _ _ _ _ _ Hd Ep) as (t & role & Ht & Hv & Hid & Hpid & Hact & Hsc).
    unfold token_valid in Hv. bools. exists role. split; [done|]. split.
    + intros s Hs. apply list_elem_of_In in Hs. rewrite forallb_forall in Esc. apply Esc, includes_scope_spec in Hs. auto.
    + right. split; [unfold getMcpAuthMode in *; by case_decide|]. exists t. repeat split; auto; lia.
Qed.

(** C18: whoever is let in may do what was asked: when a request is authenticated for some
    scopes, its identity is an active user whose role in the project allows the
    action of every scope, and it came either from an assertion that verifies
    under the configured secret, or, where personal tokens are enabled, from a
    stored token of that user and project that is neither expired nor revoked. *)
Theorem agent_identity_sound env headers required now now' d i d' : intact d ->
  run (authenticateAgentRequest sha256_hex hmac_sha256 base64url utf8 localeCompare env headers required now now') d
    = (Return (Some i), d') ->
  exists role, acts_for d i role
    /\ (forall s, s ∈ required -> JStr (scope_name s) ∈ id_scopes i
          /\ may d (id_userId i) (id_projectId i) (SCOPE_ACTION s) (Some role))
    /\ ((exists c, verifyAgentAssertion hmac_sha256 base64url utf8
            (default "" (js_trim <$> (headers !! "x-tokyo-agent-assertion" : option string))) (default "" (MCP_INTERNAL_SECRET env)) (getTime now / 1000) = Some c /\ id_projectId i = cl_project_id c)
        \/ (getMcpAuthMode env = PersonalToken /\ exists t, t ∈ rows (agentTokens d)
              /\ t_tokenHash t = sha256_hex (bearer headers) /\ getTime now < getTime (t_expiresAt t)
              /\ t_revokedAt t = None /\ t_userId t = id_userId i /\ t_projectId t = id_projectId i)).
Proof. apply request_sound. Qed.

(** The row that a query on a key and more conditions finds. *)
Lemma head_select_unique {R K} (key : R -> K) (p : R -> bool) (tbl : table R) r :
  NoDup (map key (rows tbl)) -> r ∈ rows tbl -> p r = true -> (forall x, p x = true -> key x = key r) ->
  head (select p tbl) = Some r.
Proof.
  intros Hn Hr Hp Hk. destruct (head (select p tbl)) as [x|] eqn:Eh.
  - apply head_select_in in Eh as [Hx Hin]. f_equal. by apply (key_unique key (rows tbl)); auto.
  - assert (r ∈ select p tbl) as Hin by (by apply elem_of_select). destruct (select p tbl); [|done].
    by apply elem_of_nil in Hin.
Qed.

(** ** Revocation *)
Lemma elem_of_revoked userId tokenId rnow d r :
  r ∈ rows (agentTokens (run (revokeAgentToken userId tokenId rnow) d).2) <->
  exists t, t ∈ rows (agentTokens d) /\
    r = if bool_decide (t_id t = tokenId) && bool_decide (t_userId t = userId) && bool_decide (t_revokedAt t = None)
        then set_revoked rnow t else t.
Proof. apply elem_of_update_rows. Qed.

(** Revocation is immediate and personal: once its owner has revoked a token no request
    is authenticated by it at any time, and the attempt of anyone else leaves
    every token as it was. *)
Theorem revoked_token_refused userId rnow d t token now now' : intact d -> t ∈ rows (agentTokens d) ->
  t_tokenHash t = sha256_hex token ->
  let d' := (run (revokeAgentToken userId (t_id t) rnow) d).2 in
  if decide (t_userId t = userId)
  then run (authenticatePersonalAgentToken sha256_hex localeCompare token now now') d' = (Return None, d')
  else rows (agentTokens d') ≡ₚ rows (agentTokens d).
Proof.
  intros Hd Ht Hh d'. destruct (decide (t_userId t = userId)) as [<-|Hu].
  - unfold authenticatePersonalAgentToken. destruct (negb (starts_with _ _)); [done|].
    rewrite run_bind, run_query. rewrite select_none; [done|].
    intros r (t0 & Ht0 & ->)%elem_of_revoked. unfold token_valid, tokenHash.
    destruct (decide (t_tokenHash t0 = sha256_hex token)) as [He|Hne].
    + assert (t0 = t) as ->.
      { apply (key_unique t_tokenHash (rows (agentTokens d))); [apply Hd|done|done|congruence]. }
      rewrite !(bool_decide_eq_true_2 (_ = _) eq_refl). simpl.
      destruct (decide (t_revokedAt t = None)) as [Hn|Hn].
      * rewrite (bool_decide_eq_true_2 _ Hn). simpl. by rewrite andb_false_r.
      * rewrite (bool_decide_eq_false_2 _ Hn). simpl. by rewrite (bool_decide_eq_false_2 _ Hn), andb_false_r.
    + rewrite bool_decide_eq_false_2; [done|]. by destruct (_ && _).
  - unfold d'. simpl. rewrite rows_update. rewrite <- (map_id (rows (agentTokens d))) at 2.
    assert (forall l, (forall r, r ∈ l -> r ∈ rows (agentTokens d)) ->
      map (fun r => if bool_decide (t_id r = t_id t) && bool_decide (t_userId r = userId) && bool_decide (t_revokedAt r = None)
                    then set_revoked rnow r else r) l = map id l) as Hmap; [|by rewrite Hmap].
    intros l Hl. apply map_ext_in. intros r Hr%list_elem_of_In%Hl.
    destruct (decide (t_id r = t_id t)) as [He|Hne]; [|by rewrite bool_decide_eq_false_2].
    assert (r = t) as -> by (apply (key_unique t_id (rows (agentTokens d))); [apply Hd|done..]).
    by rewrite (bool_decide_eq_false_2 (t_userId t = userId)), andb_false_r.
Qed.

(** ** Requests for a token *)
Definition granted d (session : Session) (uuid random : string) (now now' : Date) (r : res ApiResponse) d' : Prop :=
  exists id u projectId scopes days expiresAt name,
    session_user session = Some (id, u) /\ 1 <= days <= 90
    /\ new_Date (getTime now + days * 86400000) = Some expiresAt
    /\ scopes <> [] /\ (forall s, s ∈ scopes -> may d id projectId (SCOPE_ACTION s) (su_role u))
    /\ insert_token (MkTokenRow uuid name (sha256_hex ("tt_pat_" +:+ random)) id projectId
                       (json_text (scopes_json scopes)) expiresAt None None now') d = Return d'
    /\ r = Return (MkResponse 201 (JObj [("id", JStr uuid); ("token", JStr ("tt_pat_" +:+ random));
              ("expiresAt", JStr (date_iso expiresAt)); ("projectId", JStr projectId); ("scopes", scopes_json scopes)])).

Definition refused d (r : res ApiResponse) d' : Prop :=
  d' = d /\ match r with Return resp => status resp <> 201 | Throw _ => True end.

Lemma run_available userId projectId role d : intact d ->
  exists l, run (availableAgentScopes localeCompare userId projectId role) d = (Return l, d)
    /\ forall s, s ∈ l <-> may d userId projectId (SCOPE_ACTION s) role.
Proof.
  intros Hd. unfold availableAgentScopes. rewrite run_bind.
  destruct (membership_spec userId projectId role d Hd) as (om & -> & Hom). eexists. split; [done|].
  intros s. rewrite <- Hom. destruct om as [m|]; [|by split; [intros ?%elem_of_nil|]]. rewrite list_elem_of_filter. unfold scope_allowed.
  split; [by intros [? _]|]. intros H. split; [done|]. apply (bool_decide_unpack _). by destruct s.
Qed.

Lemma request_cases session id u b uuid random now now' d r d' : intact d -> session_user session = Some (id, u) ->
  run (token_request sha256_hex localeCompare id u b uuid random now now') d = (r, d') ->
  granted d session uuid random now now' r d' \/ refused d r d'.
Proof.
  intros Hd Hsession. unfold token_request.
  assert (forall resp, status resp <> 201 -> (Return resp, d) = (r, d') ->
    granted d session uuid random now now' r d' \/ refused d r d') as Href by (intros resp Hs [= <- <-]; by right).
  destruct (token_name_ok _); [|by apply Href]. destruct (json_field "projectId" b) as [[| | |project| |]|]; try by apply Href.
  destruct (token_scopes_ok _) as [requested|]; [|by apply Href]. destruct (token_days_ok _) as [days|]; [|by apply Href].
  set (projectId := js_trim project). destruct (255 <? _); [by apply Href|]. rewrite run_bind.
  destruct (str_truthy projectId); [|by apply Href].
  destruct (run_available id projectId (su_role u) d Hd) as (l & -> & Hl).
  destruct (bool_decide (l = [])); [by apply Href|]. set (scopes := default l requested).
  destruct (decide (filter (fun scope => set_has scope l = false) scopes = [])) as [Hf|Hf];
    [rewrite (bool_decide_eq_true_2 _ Hf)|rewrite (bool_decide_eq_false_2 _ Hf); by apply Href].
  destruct (decide (scopes = [])) as [Hs|Hs]; [rewrite (bool_decide_eq_true_2 _ Hs); by apply Href|].
  rewrite (bool_decide_eq_false_2 _ Hs). cbn [negb].
  destruct (new_Date _) as [expiresAt|] eqn:En; [|intros [= <- <-]; by right].
  unfold createAgentToken. rewrite run_bind, run_bind, run_execute. unfold tokenHash.
  destruct (insert_token _ d) as [d1|e] eqn:Ei; [|intros [= <- <-]; by right]. intros [= <- <-]. left.
  eexists id, u, projectId, scopes, _, expiresAt, _. split; [done|]. split; [|split; [exact En|]]; [lia|].
  split; [done|]. split; [|split; [exact Ei|done]].
  intros s Hin. apply Hl. destruct (decide (s ∈ l)) as [|Hn]; [done|]. exfalso.
  assert (s ∈ filter (fun scope => set_has scope l = false) scopes) as Hin'.
  { apply list_elem_of_filter. split; [|done]. unfold set_has. by apply bool_decide_eq_false_2. }
  rewrite Hf in Hin'. by apply elem_of_nil in Hin'.
Qed.

Lemma post_cases env session b uuid random now now' d r d' : intact d ->
  run (tokens_POST sha256_hex localeCompare env session b uuid random now now') d = (r, d') ->
  granted d session uuid random now now' r d' \/ refused d r d'.
Proof.
  intros Hd. unfold tokens_POST. destruct (session_user session) as [[id u]|] eqn:Es; [|by intros [= <- <-]; right].
  destruct (negb _); [by intros [= <- <-]; right|].
  destruct b as [[]|]; try (by intros [= <- <-]; right); intros Hrun; eapply request_cases; eauto.
Qed.

Lemma insert_token_rows row d d' : insert_token row d = Return d' -> d' = on_tokens (insert_row row) d.
Proof. unfold insert_token. repeat case_match; intros; simplify_eq; done. Qed.

(** C35: a token never has more rights or a longer life than allowed: a request for one
    either adds exactly one token, of the caller, unrevoked, with at least one
    scope, every scope within the caller's role in the project, that lives
    between one and ninety days; or it is refused and changes nothing. *)
Theorem token_request_bounded env session b uuid random now now' d r d' : intact d ->
  run (tokens_POST sha256_hex localeCompare env session b uuid random now now') d = (r, d') ->
  (exists id u row scopes resp, r = Return resp /\ status resp = 201 /\ session_user session = Some (id, u)
     /\ rows (agentTokens d') ≡ₚ row :: rows (agentTokens d) /\ t_userId row = id /\ t_revokedAt row = None
     /\ parseScopes (t_scopes row) = Some scopes /\ scopes <> []
     /\ (forall s, s ∈ scopes -> may d id (t_projectId row) (SCOPE_ACTION s) (su_role u))
     /\ 86400000 <= getTime (t_expiresAt row) - getTime now <= 7776000000)
  \/ (d' = d /\ match r with Return resp => status resp <> 201 | Throw _ => True end).
Proof.
  intros Hd [Hg|Hr]%post_cases; [left|by right|done].
  destruct Hg as (id & u & projectId & scopes & days & expiresAt & name & Hs & Hdays & Hdate & Hne & Hmay & Hi & ->).
  apply new_Date_Some in Hdate. apply insert_token_rows in Hi as ->.
  eexists id, u, _, scopes, _. split; [done|]. split; [done|]. split; [done|]. split; [apply rows_insert|].
  cbn [t_userId t_revokedAt t_scopes t_projectId t_expiresAt]. rewrite parseScopes_text.
  repeat split; [done|done|lia..].
Qed.

(** C36: a token that was granted works: until it expires, the text of the response
    authenticates as the caller for the project and exactly the scopes of the
    response, as long as the account is active and its role is the session's. *)
Theorem granted_token_authenticates env session b uuid random now now' d resp d' id u row :
  intact d -> run (tokens_POST sha256_hex localeCompare env session b uuid random now now') d = (Return resp, d') ->
  status resp = 201 -> session_user session = Some (id, u) ->
  row ∈ rows (users d) -> u_id row = id -> u_isActive row = true -> su_role u = Some (u_role row) ->
  exists token projectId scopes expiresAt, json_field "token" (body resp) = Some (JStr token)
    /\ json_field "projectId" (body resp) = Some (JStr projectId)
    /\ json_field "scopes" (body resp) = Some (JArr scopes)
    /\ json_field "expiresAt" (body resp) = Some (JStr (date_iso expiresAt))
    /\ getTime now + 86400000 <= getTime expiresAt
    /\ forall later later', getTime later < getTime expiresAt -> exists i d'',
         run (authenticatePersonalAgentToken sha256_hex localeCompare token later later') d' = (Return (Some i), d'')
         /\ id_userId i = id /\ id_projectId i = projectId /\ id_scopes i = scopes.
Proof.
  intros Hd Hrun Hst Hs Hrow Hid Hact Hrole.
  apply post_cases in Hrun as [Hg|[_ Hn]]; [|done|done].
  destruct Hg as (id' & u' & projectId & scopes & days & expiresAt & name & Hs' & Hdays & Hdate & Hne & Hmay & Hi & Hr).
  rewrite Hs in Hs'. injection Hs' as <- <-. injection Hr as ->. apply new_Date_Some in Hdate.
  destruct (insert_token_intact _ _ _ Hi Hd) as [Hd' _]. apply insert_token_rows in Hi.
  set (t := MkTokenRow _ _ _ _ _ _ _ _ _ _) in Hi.
  assert (t ∈ rows (agentTokens d')) as Ht by (rewrite Hi; apply elem_of_insert_row; by left).
  assert (users d' = users d /\ projects d' = projects d /\ projectMembers d' = projectMembers d) as (Hu & Hp & Hm)
    by (by rewrite Hi).
  exists ("tt_pat_" +:+ random), projectId, (map JStr (map scope_name scopes)), expiresAt.
  split; [done|]. split; [done|]. split; [done|]. split; [done|]. split; [lia|]. intros later later' Hlater.
  unfold authenticatePersonalAgentToken.
  assert (starts_with "tt_pat_" ("tt_pat_" +:+ random) = true) as -> by (unfold starts_with; simpl; by destruct random).
  cbn [negb].
  rewrite run_bind, run_query, (head_select_unique t_tokenHash _ _ t); [|apply Hd'|done| |].
  2: { unfold token_valid. simpl. rewrite !bool_decide_eq_true_2 by done. rewrite andb_true_r. apply Z.ltb_lt. lia. }
  2: { intros x Hx. unfold token_valid in Hx. by bools. }
  change (t_scopes t) with (json_text (scopes_json scopes)). rewrite parseScopes_text.
  assert (row ∈ rows (users d')) as Hrow' by (by rewrite Hu).
  pose proof (select_user_id d' row Hd' Hrow') as Hsel.
  rewrite run_bind, run_getUserById. change (t_userId t) with id. rewrite <- Hid, Hsel.
  cbn [head fmap option_fmap option_map]. change (au_isActive (mapUser row)) with (u_isActive row). rewrite Hact. cbn [negb].
  rewrite run_bind. change (t_projectId t) with projectId. change (au_role (mapUser row)) with (u_role row).
  destruct (membership_spec (u_id row) projectId (Some (u_role row)) d' Hd') as (om & -> & Hom).
  assert (forall s, s ∈ scopes -> may d' (u_id row) projectId (SCOPE_ACTION s) (Some (u_role row))) as Hmay'.
  { intros s Hin. specialize (Hmay s Hin). rewrite Hrole in Hmay. rewrite Hid. unfold may, has_project in *. by rewrite Hp, Hm. }
  destruct om as [m|].
  2: { exfalso. destruct scopes as [|s l]; [done|]. pose proof (Hmay' s (list_elem_of_here _ _)) as Hv.
    by apply Hom in Hv. }
  assert (filter (fun scope => scope_allowed m scope = true) scopes = scopes) as ->.
  { apply filter_all, Forall_forall. intros s Hin. apply Hom. auto. }
  rewrite (bool_decide_eq_false_2 _ Hne). change (t_lastUsedAt t) with (@None Date). lazy iota.
  eexists _, _. split; [by rewrite run_bind, run_execute|].
  split; [done|]. split; [done|]. by rewrite map_map.
Qed.
End Facts.

(** ** Examples *)
#[local] Existing Instance list_engine.

(** A hash, a signature and decoders that are easy to follow. *)
Definition demo_hash (s : string) : string := "#" +:+ s.
Fixpoint codes (s : string) : list Z :=
  match s with EmptyString => [] | String c s' => Z.of_N (code c) :: codes s' end.
Fixpoint text_of (l : list Z) : string :=
  match l with [] => EmptyString | n :: l' => String (char_of n) (text_of l') end.
Definition demo_hmac (secret value : string) : list Z := codes "sig".

Definition demo_secret : string := "0123456789abcdef0123456789abcdef".

Definition demo_claims : JsonValue :=
  JObj [("iss", JStr ASSERTION_ISSUER); ("aud", JStr ASSERTION_AUDIENCE); ("sub", JStr "s1"); ("user_id", JStr "bob");
        ("project_id", JStr "team"); ("iat", JNum 0); ("exp", JNum 60); ("scopes", scopes_json [ScopeRead; ScopeRun])].

Definition demo_assertion : string :=
  json_text (JObj [("alg", JStr "HS256"); ("typ", JStr "JWT")]) +:+ "." +:+ json_text demo_claims +:+ "." +:+ "sig".

Definition demo_env : AgentEnv := MkAgentEnv (Some demo_secret) None.

Lemma assertion_authentic_witness :
  exists c, verifyAgentAssertion demo_hmac codes text_of demo_assertion demo_secret 30 = Some c /\ cl_exp c <= 180.
Proof.
  destruct (verifyAgentAssertion demo_hmac codes text_of demo_assertion demo_secret 30) as [c|] eqn:Ev;
    [|by vm_compute in Ev].
  exists c. split; [reflexivity|].
  exact (proj1 (proj2 (proj2 (proj2 (assertion_authentic demo_hmac codes text_of demo_assertion demo_secret 30 c Ev))))).
Defined.

Lemma agent_identity_sound_witness :
  exists i role, (run (authenticateAgentRequest demo_hash demo_hmac codes text_of by_code demo_env
                        (JMap [("x-tokyo-agent-assertion", demo_assertion)]) [ScopeRun] epoch epoch) demo_db).1
                 = Return (Some i)
    /\ may demo_db (id_userId i) (id_projectId i) Run (Some role).
Proof.
  destruct (run (authenticateAgentRequest demo_hash demo_hmac codes text_of by_code demo_env
    (JMap [("x-tokyo-agent-assertion", demo_assertion)]) [ScopeRun] epoch epoch) demo_db) as [[[i|]|e] d'] eqn:Er;
    [|by vm_compute in Er..].
  destruct (agent_identity_sound demo_hash demo_hmac codes text_of by_code demo_env
    (JMap [("x-tokyo-agent-assertion", demo_assertion)]) [ScopeRun] epoch epoch demo_db i d' demo_intact Er)
    as (role & _ & Hs & _).
  exists i, role. split; [reflexivity|]. exact (proj2 (Hs ScopeRun (list_elem_of_here _ _))).
Defined.

Definition ann_session : Session := Some (Some (MkSessionUser (Some "ann") (Some "normal"))).

Definition ann_request : option JsonValue :=
  Some (JObj [("projectId", JStr " team "); ("scopes", scopes_json [ScopeRun]); ("expiresInDays", JNum 1000)]).

Definition ann_grant : res ApiResponse * Db :=
  run (tokens_POST demo_hash by_code demo_env ann_session ann_request "t1" "abc" epoch epoch) demo_db.

Lemma token_request_bounded_witness :
  exists row, rows (agentTokens ann_grant.2) ≡ₚ [row] /\ getTime (t_expiresAt row) <= 7776000000.
Proof.
  destruct (token_request_bounded demo_hash by_code demo_env ann_session ann_request "t1" "abc" epoch epoch demo_db
    ann_grant.1 ann_grant.2 demo_intact (surjective_pairing ann_grant))
    as [(id & u & row & scopes & resp & _ & _ & _ & Hrows & _ & _ & _ & _ & _ & _ & Hle)|[He _]]; [|by vm_compute in He].
  exists row. split; [exact Hrows|]. simpl in Hle. lia.
Defined.

Lemma granted_token_authenticates_witness :
  exists i, (run (authenticatePersonalAgentToken demo_hash by_code "tt_pat_abc" epoch epoch) ann_grant.2).1
    = Return (Some i) /\ id_userId i = "ann".
Proof.
  destruct ann_grant as [[resp|e] d'] eqn:Eg; [|by vm_compute in Eg].
  assert (status resp = 201 /\ json_field "token" (body resp) = Some (JStr "tt_pat_abc")) as [Hst Htok].
  { vm_compute in Eg. by injection Eg as <- _. }
  destruct (granted_token_authenticates demo_hash by_code demo_env ann_session ann_request "t1" "abc" epoch epoch demo_db
    resp d' "ann" (MkSessionUser (Some "ann") (Some "normal")) (demo_user "ann") demo_intact Eg
    Hst eq_refl (list_elem_of_here _ _) eq_refl eq_refl eq_refl)
    as (token & projectId & scopes & expiresAt & Ht & _ & _ & _ & Hexp & Hall).
  rewrite Htok in Ht. injection Ht as <-.
  destruct (Hall epoch epoch) as (i & d'' & Hi & Hid & _); [simpl in *; lia|].
  exists i. cbn [snd]. rewrite Hi. split; [reflexivity|exact Hid].
Defined.

Definition ann_token : TokenRow :=
  MkTokenRow "t1" "cli" (demo_hash "tt_pat_abc") "ann" "team" (json_text (scopes_json [ScopeRead])) epoch None None epoch.

Definition token_db : Db := on_tokens (insert_row ann_token) demo_db.

Lemma token_intact : intact token_db.
Proof. by destruct (insert_token_intact ann_token demo_db token_db eq_refl demo_intact). Qed.

Lemma revoked_token_refused_witness :
  let d' := (run (revokeAgentToken "ann" "t1" epoch) token_db).2 in
  run (authenticatePersonalAgentToken demo_hash by_code "tt_pat_abc" epoch epoch) d' = (Return None, d').
Proof.
  exact (revoked_token_refused demo_hash by_code "ann" epoch token_db ann_token "tt_pat_abc" epoch epoch
    token_intact (list_elem_of_here _ _) eq_refl).
Defined.
