(* ===== verification/ServerRoutes.v ===== *)
(** * Routes that forward to the runner: [ui-v2/src/app/api/v1]

    [modules/workflow/server/authorized-request.ts] (the caller's identity is
    written into a body), [runner-proxy.ts] and the handlers of [sync],
    [workflow-runs] and [workflows/.../revisions].  The runner is a separate
    program: [runner] answers a call and changes its own state [R].  A route is
    a computation on the database and the runner.  URLs are kept as path and
    query; the header of the response that turns buffering off and the
    cancellation signal are not part of the model. *)

From S2P Require Import Prelude FlowTypes JsLib Process ServerInput Database Projects Json JsonParse.
From S2P Require Import Accounts AgentAccess.
Open Scope Z_scope.

(** ** JSON objects *)

(** The properties that [{...v}] copies. *)
Definition json_spread (v : JsonValue) : list (string * JsonValue) :=
  match v with
  | JObj fields => fields
  | JArr items => imap (fun i x => (pretty i, x)) items
  | JStr s => imap (fun i c => (pretty i, JStr (String c EmptyString))) (String.list_ascii_of_string s)
  | _ => []
  end.

Definition is_object (v : JsonValue) : bool := match v with JObj _ | JArr _ => true | _ => false end.

(** ** [authorized-request.ts] *)
Definition bind_scenario (userId projectId : string) (scenario : JsonValue) : JsonValue :=
  if is_object scenario
  then JObj (assoc_set "projectId" (JStr projectId) (assoc_set "user_id" (JStr userId) (json_spread scenario)))
  else scenario.

Definition bindWorkflowRequestToIdentity (body : JsonValue) (userId projectId : string) : JsonValue :=
  let bound := assoc_set "userId" (JStr userId) (assoc_set "projectId" (JStr projectId) (json_spread body)) in
  JObj (match json_field "scenarios" body with
        | Some (JArr scenarios) => assoc_set "scenarios" (JArr (map (bind_scenario userId projectId) scenarios)) bound
        | _ => bound
        end).

Definition bind_change (userId projectId : string) (change : JsonValue) : JsonValue :=
  if is_object change then
    let record := json_spread change in
    JObj (match json_field "data" change with
          | Some (JObj data) =>
              assoc_set "data" (JObj (assoc_set "project_id" (JStr projectId) (assoc_set "user_id" (JStr userId) data))) record
          | _ => record
          end)
  else change.

Definition bindSyncBatchToIdentity (body : JsonValue) (userId projectId : string) : JsonValue :=
  let bound := assoc_set "project_id" (JStr projectId) (assoc_set "user_id" (JStr userId) (json_spread body)) in
  JObj (match json_field "changes" body with
        | Some (JArr changes) => assoc_set "changes" (JArr (map (bind_change userId projectId) changes)) bound
        | _ => bound
        end).

(** ** Requests *)
Record HttpRequest := MkHttpRequest {
  rq_method : string; rq_search : list (string * string); rq_headers : Headers; rq_text : string
}.

(** [request.json()]: [None] is a rejection. *)
Definition request_json (request : HttpRequest) : option JsonValue := JSON_parse (rq_text request).

(** [searchParams.get] and [searchParams.set]. *)
Definition search_get (k : string) (search : list (string * string)) : option string := assoc_get k search.

Fixpoint search_set (k v : string) (search : list (string * string)) : list (string * string) :=
  match search with
  | [] => [(k, v)]
  | (k', v') :: rest =>
      if decide (k' = k) then (k, v) :: filter (fun kv => kv.1 <> k) rest else (k', v') :: search_set k v rest
  end.

(** What is sent to the runner: a body is text or the JSON of a value. *)
Inductive RunnerBody := RawBody (text : string) | JsonBody (value : JsonValue).

Record RunnerCall := MkCall {
  call_method : string; call_path : string; call_search : list (string * string); call_headers : list (string * string);
  call_body : option RunnerBody
}.

Record RunnerResponse := MkRunnerResponse { rr_status : Z; rr_text : string }.

(** [response.ok] and [response.json()]. *)
Definition rr_ok (r : RunnerResponse) : bool := (200 <=? rr_status r) && (rr_status r <=? 299).
Definition rr_json (r : RunnerResponse) : option JsonValue := JSON_parse (rr_text r).

(** A response of a route: its own, or the runner's passed on. *)
Inductive RouteResponse := Own (r : ApiResponse) | Passed (r : RunnerResponse).

(** ** Database and runner *)
Section World.
Context {D R : Type}.

Fixpoint on_first {A} (p : Proc D A) : Proc (D * R) A :=
  match p with
  | Done r => Done r
  | Await stmt k => Await (fun w => ((stmt w.1).1, ((stmt w.1).2, w.2))) (fun x => on_first (k x))
  end.

Fixpoint on_second {A} (p : Proc R A) : Proc (D * R) A :=
  match p with
  | Done r => Done r
  | Await stmt k => Await (fun w => ((stmt w.2).1, (w.1, (stmt w.2).2))) (fun x => on_second (k x))
  end.

Lemma run_first {A} (p : Proc D A) d r : run (on_first p) (d, r) = ((run p d).1, ((run p d).2, r)).
Proof. revert d. induction p as [res|X stmt k IH]; intros d; [done|]. simpl. apply IH. Qed.

Lemma run_second {A} (p : Proc R A) d r : run (on_second p) (d, r) = ((run p r).1, (d, (run p r).2)).
Proof. revert r. induction p as [res|X stmt k IH]; intros r; [done|]. simpl. apply IH. Qed.
End World.

Section Routes.
Context {R : Type} (runner : RunnerCall -> R -> RunnerResponse * R) (encodeURIComponent : string -> string).
Context `{E : Engine} (localeCompare : string -> string -> Z).

Definition send (call : RunnerCall) : Proc R RunnerResponse := Await (runner call) (fun r => Done (Return r)).

(** ** [runner-proxy.ts] *)
Definition sent_headers (names : list string) (headers : Headers) : list (string * string) :=
  omap (fun name => match headers !! name with
                    | Some v => if str_truthy v then Some (name, v) else None
                    | None => None
                    end) names.

Definition sent_body (request : HttpRequest) (bodyOverride : option JsonValue) : option RunnerBody :=
  match bodyOverride with
  | Some v => Some (JsonBody v)
  | None => if set_has (rq_method request) ["GET"; "HEAD"] then None else Some (RawBody (rq_text request))
  end.

Definition proxyRunnerRequest (request : HttpRequest) (path : string) (bodyOverride : option JsonValue)
    : Proc (Db * R) RouteResponse :=
  response ← on_second (send (MkCall (rq_method request) path (rq_search request)
                                (sent_headers ["content-type"; "last-event-id"] (rq_headers request))
                                (sent_body request bodyOverride)));
  mret (Passed response).

(** ** [sync/[...path]/route.ts] *)
Definition proxyRequest (request : HttpRequest) (path : list string) (bodyOverride : option JsonValue)
    (identity : option (string * string)) : Proc (Db * R) RouteResponse :=
  let search := match identity with
                | Some (userId, projectId) => search_set "projectId" projectId (search_set "userId" userId (rq_search request))
                | None => rq_search request
                end in
  response ← on_second (send (MkCall (rq_method request) ("/api/v1/sync/" +:+ join "/" path) search
                                (sent_headers ["content-type"] (rq_headers request)) (sent_body request bodyOverride)));
  mret (Passed response).

Definition unauthorized : RouteResponse := Own (api_error 401 "Unauthorized").
Definition forbidden : RouteResponse := Own (api_error 403 "Forbidden").

(** A permission of the caller in a project, or the response that refuses. *)
Definition permitted (session : Session) (projectId : string) (action : ProjectAction)
    : Proc (Db * R) (RouteResponse + string) :=
  match session_user session with
  | None => mret (inl unauthorized)
  | Some (id, u) =>
      if negb (str_truthy projectId) then mret (inl forbidden)
      else
        allowed ← on_first (userHasProjectPermission localeCompare id projectId action (su_role u));
        mret (if (allowed : bool) then inr id else inl forbidden)
  end.

Definition authorizeProject (session : Session) (projectId : string) (action : ProjectAction)
    : Proc (Db * R) (RouteResponse + string * string) :=
  access ← permitted session projectId action;
  mret (match access with inl r => inl r | inr userId => inr (userId, projectId) end).

Definition search_project (request : HttpRequest) : string := default "" (search_get "projectId" (rq_search request)).

Definition sync_GET (session : Session) (request : HttpRequest) (path : list string) : Proc (Db * R) RouteResponse :=
  if decide (path !! 0%nat = Some "status") then
    match session_user session with
    | Some _ => proxyRequest request path None None
    | None => mret unauthorized
    end
  else
    access ← authorizeProject session (search_project request) View;
    match access with
    | inl response => mret response
    | inr identity => proxyRequest request path None (Some identity)
    end.

Definition executionEntities : list string := ["workflow_run"; "scenario_run"; "test_result"].

(** [String(change.entity_type)]; reading a property of [null] throws. *)
Definition is_execution (change : JsonValue) : res bool :=
  match change with
  | JNull => Throw JsTypeError
  | _ => Return (set_has (match json_field "entity_type" change with Some v => js_String v | None => "undefined" end)
                   executionEntities)
  end.

(** [changes.every(...)]. *)
Fixpoint all_execution (changes : list JsonValue) : res bool :=
  match changes with
  | [] => Return true
  | change :: rest => b ← is_execution change; if (b : bool) then all_execution rest else Return false
  end.

Definition sync_POST (session : Session) (request : HttpRequest) (path : list string) : Proc (Db * R) RouteResponse :=
  match request_json request with
  | None => mret (Own (api_error 400 "Invalid sync request"))
  | Some JNull => throw JsTypeError
  | Some body =>
      let projectId := match json_field "project_id" body with Some (JStr s) => s | _ => "" end in
      let changes := match json_field "changes" body with Some (JArr l) => l | _ => [] end in
      execution ← Done (all_execution changes);
      access ← authorizeProject session projectId (if (execution : bool) then Run else Edit);
      match access with
      | inl response => mret response
      | inr identity =>
          proxyRequest request path (Some (bindSyncBatchToIdentity body identity.1 identity.2)) (Some identity)
      end
  end.

Definition sync_DELETE (session : Session) (request : HttpRequest) (path : list string) : Proc (Db * R) RouteResponse :=
  access ← authorizeProject session (search_project request) View;
  match access with
  | inl response => mret response
  | inr identity => proxyRequest request path None (Some identity)
  end.

(** ** [workflow-runs] *)
Definition workflow_runs_POST (session : Session) (request : HttpRequest) : Proc (Db * R) RouteResponse :=
  match session_user session with
  | None => mret unauthorized
  | Some _ =>
      match request_json request with
      | None => mret (Own (api_error 400 "Invalid workflow request"))
      | Some JNull => throw JsTypeError
      | Some body =>
          let projectId := match json_field "projectId" body with Some (JStr s) => s | _ => "" end in
          access ← permitted session projectId Run;
          match access with
          | inl response => mret response
          | inr userId =>
              proxyRunnerRequest request "/api/v1/workflow-runs" (Some (bindWorkflowRequestToIdentity body userId projectId))
          end
      end
  end.

(** The handlers that check a permission in the project of the query and pass
    the request on. *)
Definition guarded_proxy (session : Session) (request : HttpRequest) (action : ProjectAction) (path : string)
    : Proc (Db * R) RouteResponse :=
  access ← permitted session (search_project request) action;
  match access with
  | inl response => mret response
  | inr _ => proxyRunnerRequest request path None
  end.

Definition run_path (workflowRunId : string) : string := "/api/v1/workflow-runs/" +:+ encodeURIComponent workflowRunId.

Definition workflow_run_GET session request (workflowRunId : string) :=
  guarded_proxy session request View (run_path workflowRunId).
Definition workflow_run_DELETE session request (workflowRunId : string) :=
  guarded_proxy session request Run (run_path workflowRunId).
Definition run_events_GET session request (workflowRunId : string) :=
  guarded_proxy session request View (run_path workflowRunId +:+ "/events").
Definition run_logs_GET session request (workflowRunId : string) :=
  guarded_proxy session request View (run_path workflowRunId +:+ "/logs").

(** ** [workflows/[workflowId]/revisions] *)
Definition revisions_path (workflowId : string) : string :=
  "/api/v1/workflows/" +:+ encodeURIComponent workflowId +:+ "/revisions".

Definition revisions_GET session request (workflowId : string) :=
  guarded_proxy session request View (revisions_path workflowId).

Definition revisions_POST (session : Session) (request : HttpRequest) (workflowId : string)
    : Proc (Db * R) RouteResponse :=
  access ← permitted session (search_project request) Edit;
  match access with
  | inl response => mret response
  | inr userId =>
      match request_json request with
      | Some JNull => throw JsTypeError
      | input =>
          proxyRunnerRequest request (revisions_path workflowId)
            (Some (json_obj [[("projectId", JStr (search_project request)); ("userId", JStr userId)];
                             prop "message" json_id (input ≫= json_field "message")]))
      end
  end.

(** [input.projectId ?? ""]: a value that is no string is the key of no project. *)
Definition restore_POST (session : Session) (request : HttpRequest) (workflowId revisionId : string)
    : Proc (Db * R) RouteResponse :=
  match session_user session with
  | None => mret unauthorized
  | Some _ =>
      match request_json request with
      | None => mret (Own (api_error 400 "Invalid request"))
      | Some JNull => throw JsTypeError
      | Some input =>
          let projectId := match json_field "projectId" input with Some (JStr s) => s | _ => "" end in
          access ← permitted session projectId Edit;
          match access with
          | inl response => mret response
          | inr userId =>
              proxyRunnerRequest request
                (revisions_path workflowId +:+ "/" +:+ encodeURIComponent revisionId +:+ "/restore")
                (Some (json_obj [[("projectId", JStr projectId)];
                                 prop "expectedVersion" json_id (json_field "expectedVersion" input);
                                 [("userId", JStr userId)]]))
          end
      end
  end.
End Routes.
