(* ===== verification/RouteFacts.v ===== *)
(** * What reaches the runner

    A route calls the runner at most once, for a caller who may do what the
    call asks, with the caller's identity in it. *)

From S2P Require Import Prelude FlowTypes JsLib Process ServerInput Database Projects ProjectFacts.
From S2P Require Import Json JsonParse Accounts AgentAccess ServerRoutes.
Open Scope Z_scope.

(** ** Objects and queries *)
Lemma field_set_same k v fs : json_field k (JObj (assoc_set k v fs)) = Some v.
Proof. simpl. rewrite assoc_get_set. by rewrite decide_True. Qed.

Lemma field_set_other k k' v fs : k <> k' -> json_field k (JObj (assoc_set k' v fs)) = json_field k (JObj fs).
Proof. intros Hne. simpl. rewrite assoc_get_set. by rewrite decide_False. Qed.

Lemma search_set_same k v l : search_get k (search_set k v l) = Some v.
Proof.
  unfold search_get. induction l as [|[k' v'] l IH]; simpl; [by rewrite decide_True|].
  destruct (decide (k' = k)) as [->|Hne]; simpl; [by rewrite decide_True|]. by rewrite decide_False.
Qed.

Lemma search_set_other k k' v l : k <> k' -> search_get k (search_set k' v l) = search_get k l.
Proof.
  intros Hne. unfold search_get. induction l as [|[a b] l IH]; simpl; [by rewrite decide_False|].
  destruct (decide (a = k')) as [->|Ha]; simpl.
  - rewrite !decide_False by done. clear IH. induction l as [|[a b'] l IH]; simpl; [done|].
    rewrite filter_cons. destruct (decide ((a, b').1 <> k')) as [Hk|Hk]; simpl in *.
    + by destruct (decide _); [|apply IH].
    + destruct (decide (a = k')) as [->|]; [|done]. rewrite decide_False by done. apply IH.
  - destruct (decide _); [done|apply IH].
Qed.

(** The index of an array element is not the name of a property. *)
Lemma index_not_data (n : nat) : pretty n <> "data".
Proof.
  unfold pretty, pretty_nat. destruct (N.of_nat n) as [|p] eqn:En; [done|]. unfold pretty, pretty_N.
  rewrite decide_False by done. destruct (scan_go (N.pos p) "" eq_refl) as (c & t & -> & Hc & _). intros [= Hd _].
  pose proof (digit_char c (proj2 Hc)) as Hv. rewrite Hd in Hv. done.
Qed.

Lemma spread_array_data items : json_field "data" (JObj (json_spread (JArr items))) = None.
Proof.
  simpl.
  cut (forall (f : nat -> nat), assoc_get "data" (imap (fun i x => (pretty (f i), x)) items) = None); [intros H; by apply (H id)|].
  induction items as [|x items IH]; intros f; [done|]. simpl. rewrite decide_False by (apply not_eq_sym, index_not_data).
  apply (IH (f ∘ S)).
Qed.

(** The data of a bound change carries the identity. *)
Lemma bind_change_data userId projectId change data :
  json_field "data" (bind_change userId projectId change) = Some (JObj data) ->
  json_field "user_id" (JObj data) = Some (JStr userId) /\ json_field "project_id" (JObj data) = Some (JStr projectId).
Proof.
  unfold bind_change. destruct change as [| | | |items|fs]; simpl is_object; cbv iota; try done.
  - change (json_field "data" (JArr items)) with (@None JsonValue). cbv iota. by rewrite spread_array_data.
  - change (json_spread (JObj fs)) with fs. destruct (json_field "data" (JObj fs)) as [[| | | | |dat]|] eqn:Ed; try by rewrite Ed.
    rewrite field_set_same. intros [= <-]. by rewrite field_set_same, field_set_other, field_set_same.
Qed.

Lemma bind_sync_fields b userId projectId :
  json_field "user_id" (bindSyncBatchToIdentity b userId projectId) = Some (JStr userId)
  /\ json_field "project_id" (bindSyncBatchToIdentity b userId projectId) = Some (JStr projectId).
Proof.
  unfold bindSyncBatchToIdentity. destruct (json_field "changes" b) as [[]|];
    rewrite ?(field_set_other _ "changes") by done; by rewrite field_set_same, field_set_other, field_set_same.
Qed.

Lemma bind_sync_changes fs userId projectId changes :
  json_field "changes" (bindSyncBatchToIdentity (JObj fs) userId projectId) = Some (JArr changes) ->
  exists given, json_field "changes" (JObj fs) = Some (JArr given) /\ changes = map (bind_change userId projectId) given.
Proof.
  unfold bindSyncBatchToIdentity. change (json_spread (JObj fs)) with fs.
  destruct (json_field "changes" (JObj fs)) as [[| | | |given|]|] eqn:Ec;
    try (rewrite !field_set_other by done; by rewrite Ec).
  rewrite field_set_same. intros [= <-]. eauto.
Qed.

Section Facts.
Context {R : Type} (runner : RunnerCall -> R -> RunnerResponse * R) (encodeURIComponent : string -> string).
Context `{E : Engine} (localeCompare : string -> string -> Z).
Implicit Types (d : Db) (r : R).

(** ** The session's routes *)
Inductive SessionRoute :=
| SyncGet (path : list string) | SyncPost (path : list string) | SyncDelete (path : list string)
| RunsPost | RunGet (id : string) | RunDelete (id : string) | EventsGet (id : string) | LogsGet (id : string)
| RevisionsGet (id : string) | RevisionsPost (id : string) | RestorePost (id revision : string).

Definition handle (session : Session) (request : HttpRequest) (route : SessionRoute) : Proc (Db * R) RouteResponse :=
  match route with
  | SyncGet path => sync_GET runner localeCompare session request path
  | SyncPost path => sync_POST runner localeCompare session request path
  | SyncDelete path => sync_DELETE runner localeCompare session request path
  | RunsPost => workflow_runs_POST runner localeCompare session request
  | RunGet id => workflow_run_GET runner encodeURIComponent localeCompare session request id
  | RunDelete id => workflow_run_DELETE runner encodeURIComponent localeCompare session request id
  | EventsGet id => run_events_GET runner encodeURIComponent localeCompare session request id
  | LogsGet id => run_logs_GET runner encodeURIComponent localeCompare session request id
  | RevisionsGet id => revisions_GET runner encodeURIComponent localeCompare session request id
  | RevisionsPost id => revisions_POST runner encodeURIComponent localeCompare session request id
  | RestorePost id revision => restore_POST runner encodeURIComponent localeCompare session request id revision
  end.

(** The permission a route asks for; a batch of execution records needs less
    than one that edits. *)
Definition needs (route : SessionRoute) (action : ProjectAction) : Prop :=
  match route with
  | SyncPost _ => action = Run \/ action = Edit
  | RunsPost | RunDelete _ => action = Run
  | RevisionsPost _ | RestorePost _ _ => action = Edit
  | _ => action = View
  end.

(** The project a call is about, in its query or in its body. *)
Definition about_project (call : RunnerCall) (projectId : string) : Prop :=
  search_get "projectId" (call_search call) = Some projectId
  \/ exists v, call_body call = Some (JsonBody v) /\ json_field "projectId" v = Some (JStr projectId).

Definition is_status (route : SessionRoute) : bool :=
  match route with SyncGet path => bool_decide (path !! 0%nat = Some "status") | _ => false end.

(** Nothing was sent, or one call that is allowed. *)
Definition guarded (session : Session) (route : SessionRoute) d r (result : res RouteResponse) (r' : R) : Prop :=
  (r' = r /\ forall resp, result <> Return (Passed resp))
  \/ exists id u call resp, session_user session = Some (id, u) /\ runner call r = (resp, r') /\ result = Return (Passed resp)
     /\ (is_status route = true
         \/ exists projectId action, about_project call projectId /\ needs route action
              /\ may d id projectId action (su_role u)).

Lemma run_permitted session projectId action d r : intact d ->
  exists access, run (permitted localeCompare session projectId action) (d, r) = (Return access, (d, r))
    /\ match access with
       | inl response => response = unauthorized \/ response = forbidden
       | inr id => str_truthy projectId = true
                   /\ exists u, session_user session = Some (id, u) /\ may d id projectId action (su_role u)
       end.
Proof.
  intros Hd. unfold permitted. destruct (session_user session) as [[id u]|]; [|eexists; split; [done|by left]].
  destruct (str_truthy projectId); [|eexists; split; [done|by right]]. cbn [negb]. rewrite run_bind, run_first.
  destruct (permission_spec localeCompare id projectId action (su_role u) d Hd) as (b & -> & Hb). simpl.
  eexists. split; [done|]. destruct b; [|by right]. split; [done|]. exists u. split; [done|]. by apply Hb.
Qed.

Lemma run_authorize_project session projectId action d r : intact d ->
  exists access, run (authorizeProject localeCompare session projectId action) (d, r) = (Return access, (d, r))
    /\ match access with
       | inl response => response = unauthorized \/ response = forbidden
       | inr (id, p) => p = projectId /\ exists u, session_user session = Some (id, u) /\ may d id projectId action (su_role u)
       end.
Proof.
  intros Hd. unfold authorizeProject. rewrite run_bind.
  destruct (run_permitted session projectId action d r Hd) as (access & -> & Ha).
  eexists. split; [done|]. destruct access; [done|]. by destruct Ha.
Qed.

Lemma run_send call d r : run (on_second (D := Db) (send runner call)) (d, r)
  = (Return (runner call r).1, (d, (runner call r).2)).
Proof. done. Qed.

Lemma run_proxyRunner request path b d r :
  run (proxyRunnerRequest (E := E) runner request path b) (d, r) =
  let call := MkCall (rq_method request) path (rq_search request)
                (sent_headers ["content-type"; "last-event-id"] (rq_headers request)) (sent_body request b) in
  (Return (Passed (runner call r).1), (d, (runner call r).2)).
Proof. unfold proxyRunnerRequest. by rewrite run_bind, run_send. Qed.

Lemma run_proxyRequest request path b identity d r :
  run (proxyRequest (E := E) runner request path b identity) (d, r) =
  let search := match identity with
                | Some (userId, projectId) => search_set "projectId" projectId (search_set "userId" userId (rq_search request))
                | None => rq_search request
                end in
  let call := MkCall (rq_method request) ("/api/v1/sync/" +:+ join "/" path) search
                (sent_headers ["content-type"] (rq_headers request)) (sent_body request b) in
  (Return (Passed (runner call r).1), (d, (runner call r).2)).
Proof. unfold proxyRequest. by rewrite run_bind, run_send. Qed.

Lemma answered session route d r response : response = unauthorized \/ response = forbidden ->
  guarded session route d r (Return response) r.
Proof. intros H. left. split; [done|]. intros resp [=]. destruct H; by subst. Qed.

Lemma threw session route d r e : guarded session route d r (Throw e) r.
Proof. by left. Qed.

Lemma forwarded session route d r call id u projectId action : session_user session = Some (id, u) ->
  about_project call projectId -> needs route action -> may d id projectId action (su_role u) ->
  guarded session route d r (Return (Passed (runner call r).1)) (runner call r).2.
Proof.
  intros Hs Hp Hn Hm. right. exists id, u, call, (runner call r).1. split; [done|].
  split; [apply surjective_pairing|]. split; [done|]. right. eauto.
Qed.

Lemma search_project_found request : str_truthy (search_project request) = true ->
  search_get "projectId" (rq_search request) = Some (search_project request).
Proof. unfold search_project. by destruct (search_get _ _). Qed.

Lemma guarded_proxy_guarded session request route action path d r : intact d -> needs route action ->
  exists result r', run (guarded_proxy runner localeCompare session request action path) (d, r) = (result, (d, r'))
    /\ guarded session route d r result r'.
Proof.
  intros Hd Hn. unfold guarded_proxy. rewrite run_bind.
  destruct (run_permitted session (search_project request) action d r Hd) as ([response|id] & -> & Ha).
  - eexists _, r. split; [done|]. by apply answered.
  - destruct Ha as (Ht & u & Hs & Hm). rewrite run_proxyRunner. eexists _, _. split; [done|].
    eapply forwarded; [done| |done|done]. left. by apply search_project_found.
Qed.

Lemma sync_guarded session request route action path d r : intact d -> needs route action ->
  forall projectId f,
  exists result r', run (access ← authorizeProject localeCompare session projectId action;
       match access with
       | inl response => mret response
       | inr identity => proxyRequest runner request path (f identity) (Some identity)
       end) (d, r) = (result, (d, r')) /\ guarded session route d r result r'.
Proof.
  intros Hd Hn projectId f. rewrite run_bind.
  destruct (run_authorize_project session projectId action d r Hd) as ([response|[id p]] & -> & Ha).
  - eexists _, r. split; [done|]. by apply answered.
  - destruct Ha as (-> & u & Hs & Hm). rewrite run_proxyRequest. eexists _, _. split; [done|].
    eapply forwarded; [done| |done|done]. left. apply search_set_same.
Qed.

(** ** Bodies that carry an identity *)
Lemma bind_workflow_fields b userId projectId :
  json_field "projectId" (bindWorkflowRequestToIdentity b userId projectId) = Some (JStr projectId)
  /\ json_field "userId" (bindWorkflowRequestToIdentity b userId projectId) = Some (JStr userId).
Proof.
  unfold bindWorkflowRequestToIdentity. destruct (json_field "scenarios" b) as [[]|];
    rewrite ?(field_set_other _ "scenarios") by done; by rewrite field_set_same, field_set_other, field_set_same.
Qed.

Lemma own_answer session route d r response : guarded session route d r (Return (Own response)) r.
Proof. by left. Qed.

Lemma runs_guarded session request d r : intact d ->
  exists result r', run (workflow_runs_POST runner localeCompare session request) (d, r) = (result, (d, r'))
    /\ guarded session RunsPost d r result r'.
Proof.
  intros Hd. unfold workflow_runs_POST.
  destruct (session_user session) as [[id0 u0]|] eqn:Es; [|eexists _, r; split; [done|apply own_answer]].
  destruct (request_json request) as [b|]; [|eexists _, r; split; [done|apply own_answer]].
  assert (forall projectId, exists result r', run (access ← permitted localeCompare session projectId Run;
     match access with
     | inl response => mret response
     | inr userId => proxyRunnerRequest runner request "/api/v1/workflow-runs"
                       (Some (bindWorkflowRequestToIdentity b userId projectId))
     end) (d, r) = (result, (d, r')) /\ guarded session RunsPost d r result r') as H.
  { intros projectId. rewrite run_bind.
    destruct (run_permitted session projectId Run d r Hd) as ([response|id] & -> & Ha).
    - eexists _, r. split; [done|]. by apply answered.
    - destruct Ha as (_ & u & Hs & Hm). rewrite run_proxyRunner. eexists _, _. split; [done|].
      eapply forwarded; [done| |done|done]. right. eexists. split; [done|]. apply bind_workflow_fields. }
  destruct b; [eexists _, r; split; [done|apply threw]|apply H..].
Qed.

Lemma restore_guarded session request id revision d r : intact d ->
  exists result r', run (restore_POST runner encodeURIComponent localeCompare session request id revision) (d, r)
      = (result, (d, r'))
    /\ guarded session (RestorePost id revision) d r result r'.
Proof.
  intros Hd. unfold restore_POST.
  destruct (session_user session) as [[id0 u0]|] eqn:Es; [|eexists _, r; split; [done|apply own_answer]].
  destruct (request_json request) as [b|]; [|eexists _, r; split; [done|apply own_answer]].
  assert (forall projectId, exists result r', run (access ← permitted localeCompare session projectId Edit;
     match access with
     | inl response => mret response
     | inr userId => proxyRunnerRequest runner request
         (revisions_path encodeURIComponent id +:+ "/" +:+ encodeURIComponent revision +:+ "/restore")
         (Some (json_obj [[("projectId", JStr projectId)]; prop "expectedVersion" json_id (json_field "expectedVersion" b);
                          [("userId", JStr userId)]]))
     end) (d, r) = (result, (d, r')) /\ guarded session (RestorePost id revision) d r result r') as H.
  { intros projectId. rewrite run_bind.
    destruct (run_permitted session projectId Edit d r Hd) as ([response|user] & -> & Ha).
    - eexists _, r. split; [done|]. by apply answered.
    - destruct Ha as (_ & u & Hs & Hm). rewrite run_proxyRunner. eexists _, _. split; [done|].
      eapply forwarded; [done| |done|done]. right. by eexists. }
  destruct b; [eexists _, r; split; [done|apply threw]|apply H..].
Qed.

Lemma revisions_guarded session request id d r : intact d ->
  exists result r', run (revisions_POST runner encodeURIComponent localeCompare session request id) (d, r) = (result, (d, r'))
    /\ guarded session (RevisionsPost id) d r result r'.
Proof.
  intros Hd. unfold revisions_POST. rewrite run_bind.
  destruct (run_permitted session (search_project request) Edit d r Hd) as ([response|user] & -> & Ha).
  - eexists _, r. split; [done|]. by apply answered.
  - destruct Ha as (Ht & u & Hs & Hm).
    assert (forall b, exists result r', run (proxyRunnerRequest (E := E) runner request (revisions_path encodeURIComponent id) b)
      (d, r) = (result, (d, r')) /\ guarded session (RevisionsPost id) d r result r') as H.
    { intros b. rewrite run_proxyRunner. eexists _, _. split; [done|]. eapply forwarded; [done| |done|done].
      left. by apply search_project_found. }
    destruct (request_json request) as [[]|]; [eexists _, r; split; [done|apply threw]|apply H..].
Qed.

Lemma sync_post_guarded session request path d r : intact d ->
  exists result r', run (sync_POST runner localeCompare session request path) (d, r) = (result, (d, r'))
    /\ guarded session (SyncPost path) d r result r'.
Proof.
  intros Hd. unfold sync_POST.
  destruct (request_json request) as [b|]; [|eexists _, r; split; [done|apply own_answer]].
  destruct b; [eexists _, r; split; [done|apply threw]|..];
    (rewrite run_bind; cbn [run]; destruct (all_execution _) as [execution|e];
     [|eexists _, r; split; [done|apply threw]]; apply sync_guarded; [done|]; destruct execution; simpl; auto).
Qed.


Lemma all_execution_false changes : all_execution changes = Return true ->
  forall change, change ∈ changes -> is_execution change = Return true.
Proof.
  induction changes as [|c changes IH]; simpl; [by intros _ ? ?%elem_of_nil|].
  intros H change. destruct (is_execution c) as [[|]|] eqn:Ec; try done. simpl in H.
  intros [->|Hin]%elem_of_cons; [done|]. by apply IH.
Qed.

(** C21: a synchronised batch is the caller's own: whatever identities the client wrote into
    it, the batch that reaches the runner names the signed-in user and a
    project the user may write to, in the query, in the envelope and in the
    data of every change; and one change that is not a record of an execution
    is enough to require the permission to edit. *)
Theorem sync_batch_bound session request path d r resp w' : intact d ->
  run (sync_POST runner localeCompare session request path) (d, r) = (Return (Passed resp), w') ->
  exists id u projectId call given v, session_user session = Some (id, u) /\ runner call r = (resp, w'.2)
    /\ request_json request = Some given /\ call_body call = Some (JsonBody v)
    /\ search_get "userId" (call_search call) = Some id /\ search_get "projectId" (call_search call) = Some projectId
    /\ json_field "user_id" v = Some (JStr id) /\ json_field "project_id" v = Some (JStr projectId)
    /\ (forall changes change data, json_field "changes" v = Some (JArr changes) -> change ∈ changes ->
          json_field "data" change = Some (JObj data) ->
          json_field "user_id" (JObj data) = Some (JStr id) /\ json_field "project_id" (JObj data) = Some (JStr projectId))
    /\ (may d id projectId Run (su_role u) \/ may d id projectId Edit (su_role u))
    /\ forall changes change, json_field "changes" given = Some (JArr changes) -> change ∈ changes ->
         is_execution change = Return false -> may d id projectId Edit (su_role u).
Proof.
  intros Hd. unfold sync_POST. destruct (request_json request) as [given|]; [|done].
  assert (exists fs, given = JObj fs \/ forall k, json_field k given = None) as [fs [->|Hno]].
  { destruct given; try (exists []; by right). exists fields. by left. }
  2: { assert (run (access ← authorizeProject localeCompare session "" Run;
         match access with inl response => mret response
         | inr identity => proxyRequest runner request path
             (Some (bindSyncBatchToIdentity given identity.1 identity.2)) (Some identity) end) (d, r)
         <> (Return (Passed resp), w')) as Hf.
       { rewrite run_bind. destruct (run_permitted session "" Run d r Hd) as (a & Ha & Hp).
         unfold authorizeProject. rewrite run_bind, Ha. destruct a as [response|id]; [|by destruct Hp].
         by destruct Hp as [-> | ->]. }
       intros Hrun. exfalso. apply Hf. rewrite <- Hrun. rewrite !Hno. by destruct given. }
  set (projectId := match json_field "project_id" (JObj fs) with Some (JStr s) => s | _ => "" end).
  set (changes := match json_field "changes" (JObj fs) with Some (JArr l) => l | _ => [] end).
  rewrite run_bind. cbn [run]. destruct (all_execution changes) as [execution|] eqn:Eall; [|done]. rewrite run_bind.
  destruct (run_authorize_project session projectId (if execution then Run else Edit) d r Hd)
    as ([response|[id p]] & -> & Ha); [by destruct Ha as [-> | ->]|].
  destruct Ha as (-> & u & Hs & Hm). rewrite run_proxyRequest. cbv zeta.
  match goal with |- context [runner ?c r] => set (call := c) end. intros [= Hresp <-].
  exists id, u, projectId, call, (JObj fs), (bindSyncBatchToIdentity (JObj fs) id projectId). split; [done|].
  split; [cbn [snd]; rewrite <- Hresp; by destruct (runner call r)|]. split; [done|]. split; [done|].
  split; [unfold call; cbn [call_search]; rewrite search_set_other by done; apply search_set_same|].
  split; [apply (search_set_same "projectId")|].
  split; [apply bind_sync_fields|]. split; [apply bind_sync_fields|]. split.
  { intros cs c data (given & _ & ->)%bind_sync_changes (c0 & -> & _)%list_elem_of_fmap. apply bind_change_data. }
  split; [destruct execution; auto|].
  intros cs c Hc Hin Hex. unfold changes in Eall. rewrite Hc in Eall. destruct execution; [|done].
  pose proof (all_execution_false _ Eall c Hin). congruence.
Qed.
End Facts.

(** ** Examples *)
#[local] Existing Instance list_engine.

(** A runner that accepts everything and remembers the calls. *)
Definition demo_runner (call : RunnerCall) (calls : list RunnerCall) : RunnerResponse * list RunnerCall :=
  (MkRunnerResponse 200 "{}", calls ++ [call]).

Definition member_session : Session := Some (Some (MkSessionUser (Some "bob") (Some "normal"))).

(** Bob sends a batch that claims to be Ann's and of another project. *)
Definition forged_batch : HttpRequest :=
  MkHttpRequest "POST" [("userId", "ann")] ∅
    (json_text (JObj [("project_id", JStr "team"); ("user_id", JStr "ann");
       ("changes", JArr [JObj [("entity_type", JStr "workflow");
          ("data", JObj [("user_id", JStr "ann"); ("project_id", JStr "other")])]])])).


Lemma sync_batch_bound_witness :
  exists resp w' call, run (sync_POST demo_runner by_code member_session forged_batch ["batch"]) (demo_db, [])
    = (Return (Passed resp), w') /\ demo_runner call [] = (resp, w'.2)
    /\ search_get "userId" (call_search call) = Some "bob".
Proof.
  destruct (run (sync_POST demo_runner by_code member_session forged_batch ["batch"]) (demo_db, []))
    as [[[r0|resp]|e] w'] eqn:Er; [by vm_compute in Er| |by vm_compute in Er].
  destruct (sync_batch_bound demo_runner by_code member_session forged_batch ["batch"] demo_db [] resp w' demo_intact Er)
    as (id & u & projectId & call & given & v & Hs & Hc & _ & _ & Hu & _).
  injection Hs as <- <-. exists resp, w', call. split; [reflexivity|]. split; [exact Hc|exact Hu].
Defined.
