(* ===== verification/AgentService.v ===== *)
(** * What agents do: [ui-v2/src/modules/agent/server/service.ts] and the routes of
      [app/api/v1/agent]

    Bundles and the responses of the runner are JSON whose shape the code does
    not check, so a property of [undefined] or [null] is a [TypeError].
    [sha256_hex] and [encodeURIComponent] are the platform's, [now] the text of
    the clock. *)

From S2P Require Import Prelude FlowTypes JsLib Process ServerInput Database Projects Json JsonParse.
From S2P Require Import Accounts AgentAccess ServerRoutes.
From Stdlib Require Import Ascii.
Open Scope Z_scope.

(** ** Reading JSON *)

(** [v.k]. *)
Definition member (v : option JsonValue) (k : string) : res (option JsonValue) :=
  match v with
  | None | Some JNull => Throw JsTypeError
  | Some x => Return (json_field k x)
  end.

(** An array on which [map], [filter] or [find] is called. *)
Definition array_of (v : option JsonValue) : res (list JsonValue) :=
  match v with Some (JArr items) => Return items | _ => Throw JsTypeError end.

(** [v ?? []] and [v ?? ""]. *)
Definition or_empty (v : option JsonValue) : option JsonValue := Some (default (JArr []) (json_present v)).
Definition or_text (v : option JsonValue) : JsonValue := default (JStr "") (json_present v).

Definition is_text (s : string) (v : option JsonValue) : bool :=
  match v with Some (JStr t) => bool_decide (t = s) | _ => false end.

Definition is_true (v : option JsonValue) : bool := match v with Some x => json_truthy x | None => false end.

Fixpoint res_filter {A} (p : A -> res bool) (l : list A) : res (list A) :=
  match l with
  | [] => Return []
  | x :: l' => b ← p x; rest ← res_filter p l'; Return (if (b : bool) then x :: rest else rest)
  end.

(** ** Redaction *)
Definition sensitive_words : list string := ["password"; "token"; "secret"; "authorization"; "cookie"].

Definition sensitive (key : string) : bool :=
  existsb (fun word => str_includes word (toLowerCase key)) sensitive_words.

Fixpoint redactSensitive (value : JsonValue) : JsonValue :=
  match value with
  | JArr items => JArr (map redactSensitive items)
  | JObj fields =>
      JObj (map (fun kv => (kv.1, if sensitive kv.1 then JStr "[REDACTED]" else redactSensitive kv.2)) fields)
  | _ => value
  end.

(** ** Calls *)
Section Service.
Context {R : Type} (runner : RunnerCall -> R -> RunnerResponse * R) (encodeURIComponent : string -> string)
  (sha256_hex : string -> string).

Definition nul : string := String (ascii_of_nat 0) EmptyString.

Definition stableId (prefix : string) (parts : list string) : string :=
  prefix +:+ "-" +:+ String.substring 0 32 (sha256_hex (join nul parts)).

Definition runnerRequest (method path : string) (search : list (string * string)) (content : option JsonValue)
    : Proc R RunnerResponse :=
  send runner (MkCall method path search [("content-type", "application/json")] (fmap (M := option) JsonBody content)).

(** A body of [undefined] is no body. *)
Definition validateBundle (bundle : option JsonValue) : Proc R RunnerResponse :=
  runnerRequest "POST" "/api/v1/workflow-bundles/validate" [] bundle.

Definition getCapabilities : Proc R RunnerResponse :=
  runnerRequest "GET" "/api/v1/workflow-bundles/capabilities" [] None.

(** ** Import *)
Definition ownership (identity : AgentIdentity) (now clientId : string) : list (string * JsonValue) :=
  [("version", JNum 1); ("created_at", JStr now); ("updated_at", JStr now); ("user_id", JStr (id_userId identity));
   ("client_id", JStr clientId); ("is_deleted", JBool false)].

Definition insert_change (entity_type entity_id now : string) (data : JsonValue) : JsonValue :=
  JObj [("entity_type", JStr entity_type); ("entity_id", JStr entity_id); ("change_type", JStr "insert");
        ("client_time", JStr now); ("client_version", JNum 0); ("data", data)].

(** [{...scenario, id}], with the id. *)
Definition imported_scenarios (workflowId : string) (scenarios : list JsonValue) : list (string * JsonValue) :=
  imap (fun index scenario =>
    let id := stableId "scenario" [workflowId; pretty index] in
    (id, JObj (assoc_set "id" (JStr id) (json_spread scenario)))) scenarios.

Definition workflow_change (identity : AgentIdentity) (now clientId workflowId : string) (bundle workflow : JsonValue)
    : JsonValue :=
  let w k := json_field k workflow in
  insert_change "workflow" workflowId now
    (json_obj [[("id", JStr workflowId); ("project_id", JStr (id_projectId identity))];
               prop "name" json_id (w "name"); [("description", or_text (w "description"))];
               prop "nodes_config" json_id (w "nodes"); prop "edges_config" json_id (w "edges");
               [("metadata", json_obj [[("importedBy", JStr "agent")];
                                       prop "bundleSchemaVersion" json_id (json_field "schemaVersion" bundle)])];
               ownership identity now clientId]).

Definition scenario_change (identity : AgentIdentity) (now clientId workflowId : string) (s : string * JsonValue)
    : JsonValue :=
  let f k := json_field k s.2 in
  insert_change "scenario" s.1 now
    (json_obj [[("id", JStr s.1); ("project_id", JStr (id_projectId identity)); ("workflow_id", JStr workflowId)];
               prop "name" json_id (f "name"); [("description", or_text (f "description"))];
               prop "tests_config" json_id (f "tests"); prop "test_order" json_id (f "testOrder");
               [("metadata", JObj [("importedBy", JStr "agent")])]; ownership identity now clientId]).

Definition batch_body (identity : AgentIdentity) (now clientId : string) (changes : list JsonValue) : JsonValue :=
  JObj [("client_id", JStr clientId); ("user_id", JStr (id_userId identity)); ("project_id", JStr (id_projectId identity));
        ("timestamp", JStr now); ("changes", JArr changes)].

Record Imported := MkImported {
  im_response : RunnerResponse; im_workflowId : string; im_scenarios : list (string * JsonValue); im_clientId : string
}.

Definition agent_client (identity : AgentIdentity) : string := "agent:" +:+ id_tokenId identity.

Definition importBundle (identity : AgentIdentity) (bundle : option JsonValue) (idempotencyKey now : string)
    : Proc R Imported :=
  let clientId := agent_client identity in
  let workflowId := stableId "wf" [id_projectId identity; idempotencyKey] in
  given ← Done (v ← member bundle "scenarios"; array_of v);
  let scenarios := imported_scenarios workflowId given in
  workflow ← Done (member bundle "workflow");
  match bundle, workflow with
  | None, _ | _, None | _, Some JNull => throw JsTypeError
  | Some b, Some w =>
      let changes := workflow_change identity now clientId workflowId b w
                     :: map (scenario_change identity now clientId workflowId) scenarios in
      response ← runnerRequest "POST" "/api/v1/sync/batch" [] (Some (batch_body identity now clientId changes));
      mret (MkImported response workflowId scenarios clientId)
  end.

(** ** Runs *)
Definition scenario_run (identity : AgentIdentity) (workflowRunId clientId id : string)
    (name description tests testOrder : option JsonValue) : JsonValue :=
  json_obj [[("id", JStr id); ("scenarioRunId", JStr (stableId "scenario-run" [workflowRunId; id]));
             ("projectId", JStr (id_projectId identity))];
            prop "name" json_id name; [("description", or_text description)]; prop "tests" json_id tests;
            prop "testOrder" json_id testOrder;
            [("user_id", JStr (id_userId identity)); ("client_id", JStr clientId)]].

Definition run_body (identity : AgentIdentity) (workflowRunId workflowId clientId : string)
    (name nodes edges : option JsonValue) (scenarios : list JsonValue) : JsonValue :=
  json_obj [[("workflowRunId", JStr workflowRunId); ("projectId", JStr (id_projectId identity));
             ("workflowId", JStr workflowId)];
            prop "workflowName" json_id name; prop "nodes" json_id nodes; prop "edges" json_id edges;
            [("scenarios", JArr scenarios); ("userId", JStr (id_userId identity)); ("clientId", JStr clientId);
             ("executionOptions", JObj [("continueOnFailure", JBool true)])]].

(** The positions of the scenarios that were asked for by name. *)
Definition select_indexes (names : list string) (given : list JsonValue) : res (list nat) :=
  if bool_decide (names = []) || negb (bool_decide (NoDup names))
  then Throw (JsError "scenarioNames must contain at least one unique scenario name.")
  else res_map (fun name =>
    matches ← res_filter (fun x => n ← member (Some x.2) "name"; Return (is_text name n)) (imap pair given);
    match matches with
    | [] => Throw (JsError ("Unknown scenario name: " +:+ name))
    | [m] => Return m.1
    | _ => Throw (JsError ("Scenario name is ambiguous: " +:+ name))
    end) names.

Record BundleRun := MkBundleRun { br_response : RunnerResponse; br_workflowId : string; br_workflowRunId : string }.

Definition runBundle (identity : AgentIdentity) (bundle : option JsonValue) (idempotencyKey now : string)
    (scenarioNames : option (list string)) : Proc R BundleRun :=
  imported ← importBundle identity bundle idempotencyKey now;
  if negb (rr_ok (im_response imported)) then mret (MkBundleRun (im_response imported) (im_workflowId imported) "")
  else
    let workflowRunId := stableId "run" [id_projectId identity; idempotencyKey] in
    given ← Done (v ← member bundle "scenarios"; array_of v);
    scenarioIndexes ← Done (match scenarioNames with
                            | Some names => select_indexes names given
                            | None => Return (seq 0 (length given))
                            end);
    workflow ← Done (member bundle "workflow");
    let w k := workflow ≫= json_field k in
    let scenarios := omap (fun index => im_scenarios imported !! index) scenarioIndexes in
    let body := run_body identity workflowRunId (im_workflowId imported) (im_clientId imported)
                  (w "name") (w "nodes") (w "edges")
                  (map (fun s : string * JsonValue =>
                     scenario_run identity workflowRunId (im_clientId imported) s.1 (json_field "name" s.2)
                       (json_field "description" s.2) (json_field "tests" s.2) (json_field "testOrder" s.2)) scenarios) in
    response ← runnerRequest "POST" "/api/v1/workflow-runs" [] (Some body);
    mret (MkBundleRun response (im_workflowId imported) workflowRunId).

(** ** Workflows of the project *)
Definition pullWorkspace (identity : AgentIdentity) : Proc R (option JsonValue) :=
  let clientId := encodeURIComponent ("agent-read:" +:+ id_tokenId identity) in
  response ← runnerRequest "GET" ("/api/v1/sync/pull/" +:+ clientId)
               [("userId", id_userId identity); ("projectId", id_projectId identity)] None;
  if negb (rr_ok response) then fail ("Unable to read workflows (" +:+ pretty (rr_status response) +:+ ").")
  else match rr_json response with None => throw JsSyntaxError | data => mret data end.

Definition alive (v : JsonValue) : res bool := d ← member (Some v) "is_deleted"; Return (negb (is_true d)).

Definition in_project (identity : AgentIdentity) (v : JsonValue) : bool :=
  is_text (id_projectId identity) (json_field "project_id" v).

(** Values of which one is the property of another. *)
Definition same_text (a b : option JsonValue) : bool :=
  match a, b with
  | Some (JStr s), Some (JStr t) => bool_decide (s = t)
  | None, None => true
  | _, _ => false
  end.

Definition listWorkflows (identity : AgentIdentity) : Proc R (list JsonValue) :=
  data ← pullWorkspace identity;
  Done (
    all_scenarios ← (v ← member data "scenarios"; array_of (or_empty v));
    scenarios ← res_filter alive all_scenarios;
    all_workflows ← (v ← member data "workflows"; array_of (or_empty v));
    workflows ← res_filter (fun w => b ← alive w; Return (b && in_project identity w)) all_workflows;
    Return (map (fun w =>
      json_obj [prop "id" json_id (json_field "id" w); prop "name" json_id (json_field "name" w);
                [("description", or_text (json_field "description" w));
                 ("scenarioCount", JNum (Z.of_nat (length (filter (fun s =>
                    same_text (json_field "workflow_id" s) (json_field "id" w) = true) scenarios))))];
                prop "updatedAt" json_id (json_field "updated_at" w)]) workflows)).

(** [find] stops at the first match. *)
Fixpoint find_workflow (identity : AgentIdentity) (workflowId : string) (l : list JsonValue) : res (option JsonValue) :=
  match l with
  | [] => Return None
  | w :: l' =>
      id ← member (Some w) "id";
      if is_text workflowId id && in_project identity w && negb (is_true (json_field "is_deleted" w)) then Return (Some w)
      else find_workflow identity workflowId l'
  end.

Definition belongs_to (identity : AgentIdentity) (workflowId : string) (s : JsonValue) : res bool :=
  id ← member (Some s) "workflow_id";
  Return (is_text workflowId id && in_project identity s && negb (is_true (json_field "is_deleted" s))).

Definition getExistingWorkflow (identity : AgentIdentity) (workflowId : string)
    : Proc R (option (JsonValue * list JsonValue)) :=
  data ← pullWorkspace identity;
  Done (
    workflows ← (v ← member data "workflows"; array_of (or_empty v));
    found ← find_workflow identity workflowId workflows;
    match found with
    | None => Return None
    | Some w =>
        all_scenarios ← (v ← member data "scenarios"; array_of (or_empty v));
        scenarios ← res_filter (belongs_to identity workflowId) all_scenarios;
        Return (Some (w, scenarios))
    end).

(** [new Map(scenarios.map((s) => [s.id, s])).get(id)]: the last one with the id. *)
Definition by_id (id : string) (scenarios : list JsonValue) : option JsonValue :=
  last (filter (fun s => is_text id (json_field "id" s) = true) scenarios).

Definition select_scenarios (scenarioIds : option (list string)) (scenarios : list JsonValue) : res (list JsonValue) :=
  match scenarioIds with
  | None => Return scenarios
  | Some ids =>
      if bool_decide (ids = []) || negb (bool_decide (NoDup ids))
      then Throw (JsError "scenarioIds must contain at least one unique scenario ID.")
      else res_map (fun id =>
        match by_id id scenarios with
        | None => Throw (JsError ("Scenario " +:+ id +:+ " is stale or belongs to another workflow."))
        | Some s => Return s
        end) ids
  end.

Record ExistingRun := MkExistingRun {
  er_response : RunnerResponse; er_workflowRunId : string; er_scenarioIds : list (option JsonValue)
}.

(** The text of an id; the ids of stored scenarios are strings. *)
Definition id_text (s : JsonValue) : string := match json_field "id" s with Some v => js_String v | None => "undefined" end.

Definition runExistingWorkflow (identity : AgentIdentity) (workflowId idempotencyKey : string)
    (scenarioIds : option (list string)) : Proc R ExistingRun :=
  existing ← getExistingWorkflow identity workflowId;
  match existing with
  | None => fail "Workflow not found in this project."
  | Some (workflow, all) =>
      scenarios ← Done (select_scenarios scenarioIds all);
      if bool_decide (length scenarios = 0%nat) then fail "Workflow has no scenarios to run."
      else
        let workflowRunId := stableId "run" [id_projectId identity; workflowId; idempotencyKey] in
        let clientId := agent_client identity in
        response ← runnerRequest "POST" "/api/v1/workflow-runs" []
          (Some (run_body identity workflowRunId workflowId clientId (json_field "name" workflow)
                   (json_field "nodes_config" workflow) (json_field "edges_config" workflow)
                   (map (fun s => scenario_run identity workflowRunId clientId (id_text s) (json_field "name" s)
                                    (json_field "description" s) (json_field "tests_config" s)
                                    (json_field "test_order" s)) scenarios)));
        mret (MkExistingRun response workflowRunId (map (json_field "id") scenarios))
  end.

(** ** Pass-through calls *)
Definition getRun (identity : AgentIdentity) (workflowRunId : string) : Proc R RunnerResponse :=
  runnerRequest "GET" ("/api/v1/workflow-runs/" +:+ encodeURIComponent workflowRunId)
    [("projectId", id_projectId identity)] None.

Definition listWorkflowRevisions (identity : AgentIdentity) (workflowId : string) : Proc R RunnerResponse :=
  runnerRequest "GET" (revisions_path encodeURIComponent workflowId) [("projectId", id_projectId identity)] None.

Definition createWorkflowRevision (identity : AgentIdentity) (workflowId : string) (message : option JsonValue)
    : Proc R RunnerResponse :=
  runnerRequest "POST" (revisions_path encodeURIComponent workflowId) []
    (Some (json_obj [[("projectId", JStr (id_projectId identity)); ("userId", JStr (id_userId identity))];
                     prop "message" json_id message])).

Definition restoreWorkflowRevision (identity : AgentIdentity) (workflowId revisionId : string) (expectedVersion : Z)
    : Proc R RunnerResponse :=
  runnerRequest "POST" (revisions_path encodeURIComponent workflowId +:+ "/" +:+ encodeURIComponent revisionId +:+ "/restore") []
    (Some (JObj [("projectId", JStr (id_projectId identity)); ("userId", JStr (id_userId identity));
                 ("expectedVersion", JNum expectedVersion)])).
End Service.
