(* ===== verification/AgentRoutes.v ===== *)
(** * The agent API: [ui-v2/src/app/api/v1/agent]

    The handlers that an agent calls with a token or an assertion: each
    authenticates the request for its scopes and works with the identity found,
    on the runner. *)

From S2P Require Import Prelude FlowTypes JsLib Process ServerInput Database Projects Json JsonParse.
From S2P Require Import Accounts AgentAccess ServerRoutes AgentService.
Open Scope Z_scope.

(** What a handler is called with: the server's settings, the request and the
    clock. *)
Record AgentCall := MkAgentCall { ac_env : AgentEnv; ac_request : HttpRequest; ac_now : Date; ac_now' : Date }.

Section Routes.
Context {R : Type} (runner : RunnerCall -> R -> RunnerResponse * R) (encodeURIComponent : string -> string)
  (sha256_hex : string -> string) (hmac_sha256 : string -> string -> list Z) (base64url : string -> list Z)
  (utf8 : list Z -> string) (native_message : js_error -> string).
Context `{E : Engine} (localeCompare : string -> string -> Z).

(** ** [http.ts] *)
Definition withAgent (c : AgentCall) (scope : list AgentScope) (handler : AgentIdentity -> Proc R RouteResponse)
    : Proc (Db * R) RouteResponse :=
  identity ← on_first (authenticateAgentRequest sha256_hex hmac_sha256 base64url utf8 localeCompare (ac_env c)
                         (rq_headers (ac_request c)) scope (ac_now c) (ac_now' c));
  match identity with
  | None => mret (Own unauthorizedAgentResponse)
  | Some i => on_second (handler i)
  end.

Definition copyJSONResponse (response : RunnerResponse) (transform : JsonValue -> JsonValue) : RouteResponse :=
  let value := default (JObj [("error", JStr "Tokyo Tester service returned an invalid response.")]) (rr_json response) in
  Own (MkResponse (rr_status response) (transform value)).

Definition same (v : JsonValue) : JsonValue := v.

(** ** Reading *)
Definition membership_json (m : ProjectMembership) : JsonValue :=
  let p := pm_summary m in
  JObj [("id", JStr (ps_id p)); ("name", JStr (ps_name p));
        ("kind", JStr (match ps_kind p with Personal => "personal" | Team => "team" end));
        ("createdBy", JStr (ps_createdBy p)); ("createdAt", JStr (ps_createdAt p)); ("updatedAt", JStr (ps_updatedAt p));
        ("projectRole", JStr (match pm_projectRole m with Owner => "owner" | Editor => "editor" | Runner => "runner" end));
        ("allowedActions", json_strings (map (fun a => match a with View => "view" | Edit => "edit" | Run => "run"
                                                       | Manage => "manage" end) (pm_allowedActions m)))].

Definition projects_GET (c : AgentCall) : Proc (Db * R) RouteResponse :=
  withAgent c [ScopeRead] (fun identity =>
    mret (Own (MkResponse 200 (JObj [("projects", JArr (match id_membership identity with
                                                        | Some m => [membership_json m]
                                                        | None => []
                                                        end))])))).

Definition capabilities_GET (c : AgentCall) : Proc (Db * R) RouteResponse :=
  withAgent c [ScopeRead] (fun _ => response ← getCapabilities runner; mret (copyJSONResponse response same)).

Definition workflows_GET (c : AgentCall) : Proc (Db * R) RouteResponse :=
  withAgent c [ScopeRead] (fun identity =>
    workflows ← listWorkflows runner encodeURIComponent identity;
    mret (Own (MkResponse 200 (JObj [("workflows", JArr workflows)])))).

Definition workflow_GET (c : AgentCall) (workflowId : string) : Proc (Db * R) RouteResponse :=
  withAgent c [ScopeRead] (fun identity =>
    result ← getExistingWorkflow runner encodeURIComponent identity workflowId;
    mret (Own (match result with
               | Some (workflow, scenarios) =>
                   MkResponse 200 (redactSensitive (JObj [("workflow", workflow); ("scenarios", JArr scenarios)]))
               | None => api_error 404 "Workflow not found."
               end))).

Definition run_GET (c : AgentCall) (workflowRunId : string) : Proc (Db * R) RouteResponse :=
  withAgent c [ScopeRead] (fun identity =>
    response ← getRun runner encodeURIComponent identity workflowRunId; mret (copyJSONResponse response same)).

Definition diagnostics_GET (c : AgentCall) (workflowRunId : string) : Proc (Db * R) RouteResponse :=
  withAgent c [ScopeRead] (fun identity =>
    response ← getRun runner encodeURIComponent identity workflowRunId; mret (copyJSONResponse response redactSensitive)).

(** ** Revisions *)
Definition agent_revisions_GET (c : AgentCall) (workflowId : string) : Proc (Db * R) RouteResponse :=
  withAgent c [ScopeRead] (fun identity =>
    response ← listWorkflowRevisions runner encodeURIComponent identity workflowId; mret (Passed response)).

Definition agent_revisions_POST (c : AgentCall) (workflowId : string) : Proc (Db * R) RouteResponse :=
  withAgent c [ScopeWrite] (fun identity =>
    message ← Done (member (Some (default (JObj []) (request_json (ac_request c)))) "message");
    response ← createWorkflowRevision runner encodeURIComponent identity workflowId message;
    mret (Passed response)).

Definition agent_restore_POST (c : AgentCall) (workflowId revisionId : string) : Proc (Db * R) RouteResponse :=
  withAgent c [ScopeWrite] (fun identity =>
    expectedVersion ← Done (member (Some (default (JObj []) (request_json (ac_request c)))) "expectedVersion");
    match expectedVersion with
    | Some (JNum n) =>
        if n <? 1 then mret (Own (api_error 400 "expectedVersion is required."))
        else
          response ← restoreWorkflowRevision runner encodeURIComponent identity workflowId revisionId n;
          mret (Passed response)
    | _ => mret (Own (api_error 400 "expectedVersion is required."))
    end).

(** ** Writing *)
Definition key_required : RouteResponse := Own (api_error 400 "Idempotency-Key must contain 8-200 characters.").

(** [body?.k] of a body that may be missing. *)
Definition body_field (c : AgentCall) (k : string) : option JsonValue := request_json (ac_request c) ≫= json_field k.

Definition validate_POST (c : AgentCall) : Proc (Db * R) RouteResponse :=
  withAgent c [ScopeRead] (fun _ =>
    let bundle := match json_present (body_field c "bundle") with
                  | Some b => b
                  | None => default JNull (request_json (ac_request c))
                  end in
    response ← validateBundle runner (Some bundle);
    mret (copyJSONResponse response same)).

(** The bundle of a validation, normalised by the runner. *)
Definition validated_bundle (validated : RunnerResponse) : res (option JsonValue) :=
  match rr_json validated with None => Throw JsSyntaxError | validation => member validation "bundle" end.

Definition import_POST (c : AgentCall) : Proc (Db * R) RouteResponse :=
  withAgent c [ScopeWrite] (fun identity =>
    match requiredIdempotencyKey (rq_headers (ac_request c)) with
    | None => mret key_required
    | Some key =>
        validated ← validateBundle runner (body_field c "bundle");
        if negb (rr_ok validated) then mret (copyJSONResponse validated same)
        else
          bundle ← Done (validated_bundle validated);
          imported ← importBundle runner sha256_hex identity bundle key (date_iso (ac_now' c));
          if negb (rr_ok (im_response imported)) then mret (copyJSONResponse (im_response imported) same)
          else mret (Own (MkResponse 201 (JObj [("workflowId", JStr (im_workflowId imported)); ("created", JBool true)])))
    end).

(** An optional array of strings: [None] of the outer option is refused. *)
Definition strings_given (v : option JsonValue) : option (option (list string)) :=
  match v with
  | None => Some None
  | Some (JArr items) =>
      let texts := omap (fun x => match x with JStr s => Some s | _ => None end) items in
      if bool_decide (length texts = length items) then Some (Some texts) else None
  | Some _ => None
  end.

Definition error_text (e : js_error) : string := error_message native_message e.

Definition invalid_run : JsonValue := JObj [("error", JStr "Runner returned an invalid response.")].

Definition bundle_run_POST (c : AgentCall) : Proc (Db * R) RouteResponse :=
  withAgent c [ScopeWrite; ScopeRun] (fun identity =>
    match requiredIdempotencyKey (rq_headers (ac_request c)) with
    | None => mret key_required
    | Some key =>
        match strings_given (body_field c "scenarioNames") with
        | None => mret (Own (api_error 400 "scenarioNames must be an array of strings."))
        | Some names =>
            validated ← validateBundle runner (body_field c "bundle");
            if negb (rr_ok validated) then mret (copyJSONResponse validated same)
            else
              bundle ← Done (validated_bundle validated);
              catch (
                run ← runBundle runner sha256_hex identity bundle key (date_iso (ac_now' c)) names;
                let value := default invalid_run (rr_json (br_response run)) in
                mret (Own (MkResponse (rr_status (br_response run))
                        (JObj (assoc_set "workflowRunId" (JStr (br_workflowRunId run))
                                 (assoc_set "workflowId" (JStr (br_workflowId run)) (json_spread value)))))))
              (fun e => mret (Own (api_error 400 (error_text e))))
        end
    end).

Definition existing_run_POST (c : AgentCall) (workflowId : string) : Proc (Db * R) RouteResponse :=
  withAgent c [ScopeRun] (fun identity =>
    match requiredIdempotencyKey (rq_headers (ac_request c)) with
    | None => mret key_required
    | Some key =>
        scenarioIds ← Done (member (Some (default (JObj []) (request_json (ac_request c)))) "scenarioIds");
        match strings_given scenarioIds with
        | None => mret (Own (api_error 400 "scenarioIds must be an array of strings."))
        | Some ids =>
            catch (
              run ← runExistingWorkflow runner encodeURIComponent sha256_hex identity workflowId key ids;
              let value := default invalid_run (rr_json (er_response run)) in
              mret (Own (MkResponse (rr_status (er_response run))
                      (JObj (assoc_set "scenarioIds" (JArr (map (default JNull) (er_scenarioIds run)))
                               (assoc_set "workflowRunId" (JStr (er_workflowRunId run)) (json_spread value)))))))
            (fun e => mret (Own (api_error 400 (error_text e))))
        end
    end).
End Routes.
