(* ===== verification/AgentRouteFacts.v ===== *)
(** * What agents can reach

    Redaction, the calls an agent's request makes to the runner, and the
    selection of scenarios. *)

From S2P Require Import Prelude FlowTypes JsLib Process ServerInput Database Projects ProjectFacts.
From S2P Require Import Json JsonParse Accounts AgentAccess AgentFacts ServerRoutes RouteFacts AgentService AgentRoutes.
Open Scope Z_scope.

(** ** Redaction *)

(** Every property with a sensitive name, at any depth, is hidden. *)
Fixpoint hidden (v : JsonValue) : Prop :=
  match v with
  | JArr items => (fix go l := match l with [] => True | x :: l' => hidden x /\ go l' end) items
  | JObj fields => (fix go l := match l with
      | [] => True
      | kv :: l' => (if sensitive kv.1 then kv.2 = JStr "[REDACTED]" else hidden kv.2) /\ go l'
      end) fields
  | _ => True
  end.

(** The same shape, except under sensitive names. *)
Fixpoint agrees (v w : JsonValue) : Prop :=
  match v, w with
  | JArr items, JArr items' =>
      (fix go l l' := match l, l' with
       | [], [] => True | x :: l, y :: l' => agrees x y /\ go l l' | _, _ => False end) items items'
  | JObj fields, JObj fields' =>
      (fix go l l' := match l, l' with
       | [], [] => True
       | x :: l, y :: l' => x.1 = y.1 /\ (sensitive x.1 = true \/ agrees x.2 y.2) /\ go l l'
       | _, _ => False end) fields fields'
  | _, _ => v = w
  end.

Lemma redact_hidden v : hidden (redactSensitive v).
Proof.
  induction v as [| | | |l IH|l IH] using json_ind'; try done; simpl.
  - induction IH as [|x l Hx Hl IHl]; [done|]. by split.
  - induction IH as [|[k x] l Hx Hl IHl]; [done|]. simpl in *. split; [|done]. by destruct (sensitive k).
Qed.

Lemma redact_agrees v : agrees v (redactSensitive v).
Proof.
  induction v as [| | | |l IH|l IH] using json_ind'; try done; simpl.
  - induction IH as [|x l Hx Hl IHl]; [done|]. by split.
  - induction IH as [|[k x] l Hx Hl IHl]; [done|]. simpl in *. split; [done|]. split; [|done].
    destruct (sensitive k); [by left|by right].
Qed.

(** Nothing is left to redact in a value that hides everything. *)
Lemma hidden_fixed v : hidden v -> redactSensitive v = v.
Proof.
  induction v as [| | | |l IH|l IH] using json_ind'; try done; simpl; intros H; f_equal.
  - induction IH as [|x l Hx Hl IHl]; [done|]. destruct H as [H1 H2]. simpl. by rewrite Hx, IHl.
  - induction IH as [|[k x] l Hx Hl IHl]; [done|]. destruct H as [H1 H2]. simpl in *. rewrite IHl by done.
    f_equal. f_equal. destruct (sensitive k); [done|]. by apply Hx.
Qed.

(** Redaction hides what it names and nothing else: in the result every property whose
    name contains password, token, secret, authorization or cookie reads
    [REDACTED] at any depth, everything else is unchanged, and redacting twice
    is redacting once. *)
Theorem redaction_complete v :
  hidden (redactSensitive v) /\ agrees v (redactSensitive v) /\ redactSensitive (redactSensitive v) = redactSensitive v.
Proof.
  split; [apply redact_hidden|]. split; [apply redact_agrees|]. apply hidden_fixed, redact_hidden.
Qed.

(** Redaction goes by the names of properties, so it shows the value of every environment
    variable of a service, a password among them, because the name of the
    variable is the value of the property key. *)
Theorem redaction_shows_environment variables :
  redactSensitive (JObj [("env", JArr (map env_json variables))]) = JObj [("env", JArr (map env_json variables))].
Proof.
  apply hidden_fixed. cbn [hidden]. split; [|done]. change (sensitive "env") with false. cbv iota.
  induction variables as [|e l IH]; [done|]. by split.
Qed.

(** ** Calls *)
Section Calls.
Context {R : Type} (runner : RunnerCall -> R -> RunnerResponse * R) (encodeURIComponent : string -> string)
  (sha256_hex : string -> string) (hmac_sha256 : string -> string -> list Z) (base64url : string -> list Z)
  (utf8 : list Z -> string) (native_message : js_error -> string).

(** The runner with a record of the calls it was sent. *)
Definition logged (call : RunnerCall) (s : R * list RunnerCall) : RunnerResponse * (R * list RunnerCall) :=
  ((runner call s.1).1, ((runner call s.1).2, s.2 ++ [call])).

Definition names (project user : string) (i : AgentIdentity) (v : JsonValue) : Prop :=
  json_field project v = Some (JStr (id_projectId i)) /\ json_field user v = Some (JStr (id_userId i)).

(** A call that is about no project, or about the identity's own. *)
Definition carries (i : AgentIdentity) (call : RunnerCall) : Prop :=
  call_path call ∈ ["/api/v1/workflow-bundles/validate"; "/api/v1/workflow-bundles/capabilities"]
  \/ search_get "projectId" (call_search call) = Some (id_projectId i)
  \/ exists v, call_body call = Some (JsonBody v) /\
       (names "projectId" "userId" i v
        \/ names "project_id" "user_id" i v
           /\ exists changes, json_field "changes" v = Some (JArr changes)
              /\ Forall (fun change => exists data, json_field "data" change = Some data
                                        /\ names "project_id" "user_id" i data) changes).

Definition calls_ok {A} (i : AgentIdentity) (p : Proc (R * list RunnerCall) A) : Prop :=
  forall s, Forall (carries i) s.2 -> Forall (carries i) (run p s).2.2.

Lemma calls_bind {A B} i (p : Proc (R * list RunnerCall) A) (k : A -> Proc (R * list RunnerCall) B) :
  calls_ok i p -> (forall a, calls_ok i (k a)) -> calls_ok i (p ≫= k).
Proof.
  intros Hp Hk s Hs. rewrite run_bind. specialize (Hp s Hs). destruct (run p s) as [[a|e] s']; [by apply Hk|done].
Qed.

Lemma calls_done {A} i (r : res A) : calls_ok i (Done r).
Proof. by intros s Hs. Qed.

Lemma calls_catch {A} i (p : Proc (R * list RunnerCall) A) h :
  calls_ok i p -> (forall e, calls_ok i (h e)) -> calls_ok i (catch p h).
Proof.
  intros Hp Hh s Hs. rewrite run_catch. specialize (Hp s Hs). destruct (run p s) as [[a|e] s']; [done|by apply Hh].
Qed.

Lemma calls_request i method path search content :
  carries i (MkCall method path search [("content-type", "application/json")] (JsonBody <$> content)) ->
  calls_ok i (runnerRequest logged method path search content).
Proof. intros Hc s Hs. simpl. by apply Forall_app_2; [|constructor]. Qed.

Lemma carries_stateless i method path search headers b :
  path ∈ ["/api/v1/workflow-bundles/validate"; "/api/v1/workflow-bundles/capabilities"] ->
  carries i (MkCall method path search headers b).
Proof. by left. Qed.

Lemma change_names i kind id now data : names "project_id" "user_id" i data ->
  exists data', json_field "data" (insert_change kind id now data) = Some data' /\ names "project_id" "user_id" i data'.
Proof. intros H. by exists data. Qed.

Lemma workflow_names i now client id b w : exists data,
  json_field "data" (workflow_change i now client id b w) = Some data /\ names "project_id" "user_id" i data.
Proof.
  apply change_names. split; [done|].
  by destruct (json_field "name" w), (json_field "nodes" w), (json_field "edges" w).
Qed.

Lemma scenario_names i now client id s : exists data,
  json_field "data" (scenario_change i now client id s) = Some data /\ names "project_id" "user_id" i data.
Proof.
  apply change_names. split; [done|].
  by destruct (json_field "name" s.2), (json_field "tests" s.2), (json_field "testOrder" s.2).
Qed.

Lemma import_ok i bundle key now : calls_ok i (importBundle logged sha256_hex i bundle key now).
Proof.
  unfold importBundle. apply calls_bind; [apply calls_done|]. intros given. apply calls_bind; [apply calls_done|].
  intros workflow. destruct bundle as [b|]; [|apply calls_done].
  destruct workflow as [w|]; [|apply calls_done].
  assert (calls_ok i (response ← runnerRequest logged "POST" "/api/v1/sync/batch" []
    (Some (batch_body i now (agent_client i) (workflow_change i now (agent_client i)
       (stableId sha256_hex "wf" [id_projectId i; key]) b w
       :: map (scenario_change i now (agent_client i) (stableId sha256_hex "wf" [id_projectId i; key]))
            (imported_scenarios sha256_hex (stableId sha256_hex "wf" [id_projectId i; key]) given))));
    mret (MkImported response (stableId sha256_hex "wf" [id_projectId i; key])
       (imported_scenarios sha256_hex (stableId sha256_hex "wf" [id_projectId i; key]) given) (agent_client i)))) as H.
  { apply calls_bind; [|intros; apply calls_done]. apply calls_request. right. right. eexists. split; [done|].
    right. split; [done|]. eexists. split; [done|]. constructor; [apply workflow_names|].
    apply Forall_fmap, Forall_forall. intros s _. apply scenario_names. }
  destruct w; [apply calls_done|apply H..].
Qed.

Lemma run_body_names i run workflow client name nodes edges scenarios :
  names "projectId" "userId" i (run_body i run workflow client name nodes edges scenarios).
Proof. split; [done|]. by destruct name, nodes, edges. Qed.

Lemma start_ok i run workflow client name nodes edges scenarios :
  calls_ok i (runnerRequest logged "POST" "/api/v1/workflow-runs" []
                (Some (run_body i run workflow client name nodes edges scenarios))).
Proof. apply calls_request. right. right. eexists. split; [done|]. left. apply run_body_names. Qed.

Lemma bundle_ok i bundle key now selected : calls_ok i (runBundle logged sha256_hex i bundle key now selected).
Proof.
  unfold runBundle. apply calls_bind; [apply import_ok|]. intros imported. destruct (negb _); [apply calls_done|].
  apply calls_bind; [apply calls_done|]. intros given. apply calls_bind; [apply calls_done|]. intros indexes.
  apply calls_bind; [apply calls_done|]. intros workflow. apply calls_bind; [apply start_ok|]. intros. apply calls_done.
Qed.

Lemma pull_ok i : calls_ok i (pullWorkspace logged encodeURIComponent i).
Proof.
  unfold pullWorkspace. apply calls_bind; [apply calls_request; right; by left|]. intros response.
  destruct (negb _); [apply calls_done|]. destruct (rr_json response); apply calls_done.
Qed.

Lemma existing_ok i workflowId : calls_ok i (getExistingWorkflow logged encodeURIComponent i workflowId).
Proof. unfold getExistingWorkflow. apply calls_bind; [apply pull_ok|]. intros. apply calls_done. Qed.

Lemma existing_run_ok i workflowId key ids :
  calls_ok i (runExistingWorkflow logged encodeURIComponent sha256_hex i workflowId key ids).
Proof.
  unfold runExistingWorkflow. apply calls_bind; [apply existing_ok|]. intros [[w all]|]; [|apply calls_done].
  apply calls_bind; [apply calls_done|]. intros scenarios. destruct (bool_decide _); [apply calls_done|].
  apply calls_bind; [apply start_ok|]. intros. apply calls_done.
Qed.

Lemma validate_ok i bundle : calls_ok i (validateBundle logged bundle).
Proof. apply calls_request. left. left. Qed.

(** ** Routes *)
Context `{E : Engine} (localeCompare : string -> string -> Z).
Implicit Types d : Db.

Inductive AgentRoute :=
| AProjects | ACapabilities | AWorkflows | AWorkflow (id : string) | ARun (id : string) | ADiagnostics (id : string)
| ARevisions (id : string) | ANewRevision (id : string) | ARestore (id revision : string)
| AValidate | AImport | ABundleRun | AExistingRun (id : string).

Definition scopes_of (route : AgentRoute) : list AgentScope :=
  match route with
  | ANewRevision _ | ARestore _ _ | AImport => [ScopeWrite]
  | ABundleRun => [ScopeWrite; ScopeRun]
  | AExistingRun _ => [ScopeRun]
  | _ => [ScopeRead]
  end.

(** The handlers, on a runner that records its calls. *)
Definition agent_handle (c : AgentCall) (route : AgentRoute) : Proc (Db * (R * list RunnerCall)) RouteResponse :=
  match route with
  | AProjects => projects_GET sha256_hex hmac_sha256 base64url utf8 localeCompare c
  | ACapabilities => capabilities_GET logged sha256_hex hmac_sha256 base64url utf8 localeCompare c
  | AWorkflows => workflows_GET logged encodeURIComponent sha256_hex hmac_sha256 base64url utf8 localeCompare c
  | AWorkflow id => workflow_GET logged encodeURIComponent sha256_hex hmac_sha256 base64url utf8 localeCompare c id
  | ARun id => run_GET logged encodeURIComponent sha256_hex hmac_sha256 base64url utf8 localeCompare c id
  | ADiagnostics id => diagnostics_GET logged encodeURIComponent sha256_hex hmac_sha256 base64url utf8 localeCompare c id
  | ARevisions id => agent_revisions_GET logged encodeURIComponent sha256_hex hmac_sha256 base64url utf8 localeCompare c id
  | ANewRevision id => agent_revisions_POST logged encodeURIComponent sha256_hex hmac_sha256 base64url utf8 localeCompare c id
  | ARestore id revision =>
      agent_restore_POST logged encodeURIComponent sha256_hex hmac_sha256 base64url utf8 localeCompare c id revision
  | AValidate => validate_POST logged sha256_hex hmac_sha256 base64url utf8 localeCompare c
  | AImport => import_POST logged sha256_hex hmac_sha256 base64url utf8 localeCompare c
  | ABundleRun => bundle_run_POST logged sha256_hex hmac_sha256 base64url utf8 native_message localeCompare c
  | AExistingRun id =>
      existing_run_POST logged encodeURIComponent sha256_hex hmac_sha256 base64url utf8 native_message localeCompare c id
  end.

(** What is promised of a request: it was not let in and nothing was sent, or all
    that was sent is the identity's own. *)
Definition contained (scopes : list AgentScope) d (result : res RouteResponse) (s : R * list RunnerCall) : Prop :=
  (s.2 = [] /\ forall response, result = Return response -> response = Own unauthorizedAgentResponse)
  \/ exists i role, acts_for d i role
     /\ (forall scope, scope ∈ scopes -> may d (id_userId i) (id_projectId i) (SCOPE_ACTION scope) (Some role))
     /\ Forall (carries i) s.2.

Lemma withAgent_contained c scopes handler d r : intact d -> (forall i, calls_ok i (handler i)) ->
  let '(result, w) := run (withAgent sha256_hex hmac_sha256 base64url utf8 localeCompare c scopes handler) (d, (r, [])) in
  contained scopes d result w.2.
Proof.
  intros Hd Hh. unfold withAgent. rewrite run_bind, run_first.
  destruct (run (authenticateAgentRequest _ _ _ _ _ _ _ _ _ _) d) as [[[i|]|e] d1] eqn:Ea; cbn [fst snd].
  - rewrite run_second. right. destruct (request_sound _ _ _ _ _ _ _ _ _ _ _ _ _ Hd Ea) as (role & Ha & Hs & _).
    exists i, role. split; [done|]. split; [intros scope Hin; by apply Hs|]. cbn [snd]. by apply Hh.
  - left. split; [done|]. by intros response [= <-].
  - by left.
Qed.

(** C11: an agent stays within its project: whichever handler it calls and whatever it
    sends, either the request is not let in and the runner sees no call, or it
    acts for an active user whose role allows every scope of the handler, and
    each call the runner sees names that user's project (in the query or,
    with the user, in the body and in every change of a batch), the two calls
    apart that are about no project at all. *)
Theorem agent_calls_contained c route d r : intact d ->
  let '(result, w) := run (agent_handle c route) (d, (r, [])) in contained (scopes_of route) d result w.2.
Proof.
  intros Hd. destruct route; apply withAgent_contained; try done; intros i.
  - apply calls_done.
  - apply calls_bind; [apply calls_request; left; right; left|intros; apply calls_done].
  - apply calls_bind; [|intros; apply calls_done]. unfold listWorkflows. apply calls_bind; [apply pull_ok|].
    intros. apply calls_done.
  - apply calls_bind; [apply existing_ok|intros; apply calls_done].
  - apply calls_bind; [apply calls_request; right; by left|intros; apply calls_done].
  - apply calls_bind; [apply calls_request; right; by left|intros; apply calls_done].
  - apply calls_bind; [apply calls_request; right; by left|intros; apply calls_done].
  - apply calls_bind; [apply calls_done|]. intros message. apply calls_bind; [|intros; apply calls_done].
    apply calls_request. right. right. eexists. split; [done|]. left. by destruct message.
  - apply calls_bind; [apply calls_done|]. intros version. destruct version as [[| |n| | |]|]; try apply calls_done.
    destruct (n <? 1); [apply calls_done|]. apply calls_bind; [|intros; apply calls_done].
    apply calls_request. right. right. eexists. split; [done|]. by left.
  - apply calls_bind; [apply validate_ok|intros; apply calls_done].
  - destruct (requiredIdempotencyKey _) as [key|]; [|apply calls_done].
    apply calls_bind; [apply validate_ok|]. intros validated. destruct (negb _); [apply calls_done|].
    apply calls_bind; [apply calls_done|]. intros bundle. apply calls_bind; [apply import_ok|]. intros imported.
    destruct (negb _); apply calls_done.
  - destruct (requiredIdempotencyKey _) as [key|]; [|apply calls_done].
    destruct (strings_given _) as [selected|]; [|apply calls_done].
    apply calls_bind; [apply validate_ok|]. intros validated. destruct (negb _); [apply calls_done|].
    apply calls_bind; [apply calls_done|]. intros bundle. apply calls_catch; [|intros; apply calls_done].
    apply calls_bind; [apply bundle_ok|intros; apply calls_done].
  - destruct (requiredIdempotencyKey _) as [key|]; [|apply calls_done].
    apply calls_bind; [apply calls_done|]. intros ids. destruct (strings_given _) as [selected|]; [|apply calls_done].
    apply calls_catch; [|intros; apply calls_done]. apply calls_bind; [apply existing_run_ok|intros; apply calls_done].
Qed.

(** ** Selections *)
Lemma res_filter_in {A} (p : A -> res bool) l l' x : res_filter p l = Return l' -> x ∈ l' -> x ∈ l /\ p x = Return true.
Proof.
  revert l'. induction l as [|y l IH]; intros l' H Hx; simpl in H; [by injection H as <-; apply elem_of_nil in Hx|].
  destruct (p y) as [b|] eqn:Ep; [|done]. destruct (res_filter p l) as [rest|] eqn:Er; [|done]. simpl in H.
  injection H as <-. rewrite elem_of_cons.
  destruct b; [apply elem_of_cons in Hx as [->|Hx]; [by split; [left|]|]|];
    (destruct (IH rest eq_refl Hx); by split; [right|]).
Qed.

Lemma by_id_in id l s : by_id id l = Some s -> s ∈ l /\ json_field "id" s = Some (JStr id).
Proof.
  unfold by_id. intros Hl. assert (s ∈ filter (fun s => is_text id (json_field "id" s) = true) l) as Hin.
  { apply last_Some in Hl as [l' ->]. apply elem_of_app. right. left. }
  apply list_elem_of_filter in Hin as [Ht Hin]. split; [done|]. unfold is_text in Ht.
  destruct (json_field "id" s) as [[]|]; try done. by bools; subst.
Qed.

Lemma select_scenarios_spec ids all l : select_scenarios ids all = Return l ->
  (forall s, s ∈ l -> s ∈ all)
  /\ match ids with
     | Some given => given <> [] /\ NoDup given /\ map (json_field "id") l = map (fun id => Some (JStr id)) given
     | None => l = all
     end.
Proof.
  destruct ids as [given|]; cbn [select_scenarios]; [|by intros [= ->]].
  destruct (bool_decide (given = []) || _) eqn:Eb; [done|]. bools. intros Hmap%res_map_return.
  assert ((forall s, s ∈ l -> s ∈ all) /\ map (json_field "id") l = map (fun id => Some (JStr id)) given) as [? ?]; [|auto].
  clear -Hmap. induction Hmap as [|id s given l Hs Hl [IH1 IH2]]; [by split; [intros s ?%elem_of_nil|]|].
  destruct (by_id id all) as [s'|] eqn:Es; [|done]. injection Hs as ->. destruct (by_id_in _ _ _ Es) as [Hin Hid].
  split; [|by simpl; rewrite Hid, IH2]. intros x [->|Hx]%elem_of_cons; auto.
Qed.

Definition pull_call (i : AgentIdentity) : RunnerCall :=
  MkCall "GET" ("/api/v1/sync/pull/" +:+ encodeURIComponent ("agent-read:" +:+ id_tokenId i))
    [("userId", id_userId i); ("projectId", id_projectId i)] [("content-type", "application/json")] None.

Lemma existing_spec i workflowId r w scenarios r' :
  run (getExistingWorkflow runner encodeURIComponent i workflowId) r = (Return (Some (w, scenarios)), r') ->
  exists data stored, rr_json (runner (pull_call i) r).1 = Some data /\ r' = (runner (pull_call i) r).2
    /\ array_of (or_empty (json_field "scenarios" data)) = Return stored
    /\ forall s, s ∈ scenarios -> s ∈ stored /\ belongs_to i workflowId s = Return true.
Proof.
  intros Hrun.
  assert (exists data, rr_json (runner (pull_call i) r).1 = Some data
    /\ run (pullWorkspace runner encodeURIComponent i) r = (Return (Some data), (runner (pull_call i) r).2))
    as (data & Hdata & Hpull).
  { unfold getExistingWorkflow in Hrun. rewrite run_bind in Hrun. revert Hrun. unfold pullWorkspace.
    rewrite run_bind. change (run (runnerRequest runner _ _ _ _) r)
      with (Return (A := RunnerResponse) (runner (pull_call i) r).1, (runner (pull_call i) r).2).
    lazy iota beta. destruct (negb _); [done|]. destruct (rr_json _) as [data|]; [|done]. intros _. by exists data. }
  unfold getExistingWorkflow in Hrun. rewrite run_bind, Hpull in Hrun. cbn [run] in Hrun. exists data.
  destruct (member (Some data) "workflows") as [v|]; [|done]. cbn [mbind res_bind] in Hrun.
  destruct (array_of (or_empty v)) as [ws|]; [|done]. cbn [mbind res_bind] in Hrun.
  destruct (find_workflow i workflowId ws) as [[w0|]|]; [|done..]. cbn [mbind res_bind] in Hrun.
  assert (member (Some data) "scenarios" = Return (json_field "scenarios" data)) as Hm by (by destruct data).
  rewrite Hm in Hrun. cbn [mbind res_bind] in Hrun.
  destruct (array_of (or_empty (json_field "scenarios" data))) as [stored|] eqn:Est; [|done]. cbn [mbind res_bind] in Hrun.
  destruct (res_filter _ stored) as [l|] eqn:Ef; [|done]. injection Hrun as <- <- <-.
  exists stored. repeat split; [done|by apply (res_filter_in _ _ _ _ Ef)..].
Qed.

(** An agent runs only what belongs to the workflow: when a stored workflow is started,
    every scenario that is run was stored for that workflow in the identity's
    project and is not deleted; there is at least one; and a selection of ids
    is run exactly, in its order, or the whole request fails. *)
Theorem existing_run_selects i workflowId key ids r result r' :
  run (runExistingWorkflow runner encodeURIComponent sha256_hex i workflowId key ids) r = (Return result, r') ->
  exists data stored, rr_json (runner (pull_call i) r).1 = Some data
    /\ array_of (or_empty (json_field "scenarios" data)) = Return stored
    /\ er_scenarioIds result <> []
    /\ (forall v, v ∈ er_scenarioIds result -> exists s, s ∈ stored /\ json_field "id" s = v
          /\ belongs_to i workflowId s = Return true)
    /\ match ids with
       | Some given => NoDup given /\ er_scenarioIds result = map (fun id => Some (JStr id)) given
       | None => True
       end.
Proof.
  unfold runExistingWorkflow. rewrite run_bind.
  destruct (run (getExistingWorkflow _ _ _ _) r) as [[[[w all]|]|] r1] eqn:Ee; [|done..].
  destruct (existing_spec _ _ _ _ _ _ Ee) as (data & stored & Hdata & _ & Hst & Hall).
  rewrite run_bind. cbn [run]. destruct (select_scenarios ids all) as [l|] eqn:Es; [|done].
  destruct (select_scenarios_spec _ _ _ Es) as [Hsub Hids].
  destruct (decide (length l = 0%nat)) as [Hl|Hl]; [by rewrite bool_decide_eq_true_2|].
  rewrite bool_decide_eq_false_2 by done. rewrite run_bind. cbn [run runnerRequest send]. intros [= <- _].
  exists data, stored. cbn [er_scenarioIds]. split; [done|]. split; [done|]. split; [by destruct l|]. split.
  - intros v (s & -> & Hs)%list_elem_of_fmap. exists s. destruct (Hall s); auto.
  - destruct ids as [given|]; [|done]. destruct Hids as (_ & Hn & Hm). done.
Qed.

(** A run of a bundle stores it before it looks at the selection: when the names of the
    selection are refused, the request fails although the runner has already
    been sent the workflow and its scenarios. *)
Theorem refused_selection_imports i bundle key now selected given e imported r s :
  json_field "scenarios" bundle = Some (JArr given) -> select_indexes selected given = Throw e ->
  run (importBundle logged sha256_hex i (Some bundle) key now) (r, []) = (Return imported, s) ->
  rr_ok (im_response imported) = true ->
  run (runBundle logged sha256_hex i (Some bundle) key now (Some selected)) (r, []) = (Throw e, s)
  /\ exists call, s.2 = [call] /\ call_path call = "/api/v1/sync/batch".
Proof.
  intros Hg Hsel Himp Hok. split.
  - unfold runBundle. rewrite run_bind, Himp, Hok. cbn [negb]. rewrite run_bind. cbn [run].
    assert (member (Some bundle) "scenarios" = Return (Some (JArr given))) as -> by (destruct bundle; simpl in *; congruence).
    change (Return (Some (JArr given)) ≫= _) with (Return given). lazy iota beta. rewrite run_bind. cbn [run].
    by rewrite Hsel.
  - revert Himp. unfold importBundle. rewrite run_bind. cbn [run]. destruct (mbind _ _) as [l|]; [|done].
    rewrite run_bind. cbn [run]. destruct (member (Some bundle) "workflow") as [[w|]|]; [|done..].
    destruct w; [done|..]; rewrite run_bind; cbn [run runnerRequest send logged fst snd]; intros [= _ <-]; by eexists.
Qed.
End Calls.

(** ** Examples *)
#[local] Existing Instance list_engine.

Definition demo_scenario (id workflow project : string) : JsonValue :=
  JObj [("id", JStr id); ("workflow_id", JStr workflow); ("project_id", JStr project); ("name", JStr id)].

Definition demo_workspace : JsonValue :=
  JObj [("workflows", JArr [JObj [("id", JStr "wf"); ("project_id", JStr "team"); ("name", JStr "W")]]);
        ("scenarios", JArr [demo_scenario "s1" "wf" "team"; demo_scenario "s2" "wf" "team"; demo_scenario "s3" "wf" "other"])].

(** A runner that has one workspace. *)
Definition workspace_runner (call : RunnerCall) (r : unit) : RunnerResponse * unit :=
  (MkRunnerResponse 200 (json_text demo_workspace), r).

Definition agent_request : HttpRequest :=
  MkHttpRequest "POST" [] (JMap [("x-tokyo-agent-assertion", demo_assertion); ("idempotency-key", "abcdefgh")]) "{}".

Lemma agent_calls_contained_witness :
  let '(result, w) := run (agent_handle workspace_runner (fun s => s) demo_hash demo_hmac codes text_of (fun _ => "")
                             by_code (MkAgentCall demo_env agent_request epoch epoch) (AExistingRun "wf"))
                          (demo_db, (tt, [])) in
  length w.2.2 = 2%nat /\ contained (R := unit) [ScopeRun] demo_db result w.2.
Proof.
  pose proof (agent_calls_contained workspace_runner (fun s => s) demo_hash demo_hmac codes text_of (fun _ => "")
    by_code (MkAgentCall demo_env agent_request epoch epoch) (AExistingRun "wf") demo_db tt demo_intact) as H.
  destruct (run _ (demo_db, (tt, []))) as [result w] eqn:Er.
  split; [by vm_compute in Er; injection Er as _ <-|exact H].
Defined.

Definition bob_identity : AgentIdentity := MkIdentity "t" "bob" "team" [] None.

Lemma existing_run_selects_witness :
  exists result, (run (runExistingWorkflow workspace_runner (fun s => s) demo_hash bob_identity "wf" "key" (Some ["s2"; "s1"])) tt).1
    = Return result /\ er_scenarioIds result = [Some (JStr "s2"); Some (JStr "s1")].
Proof.
  destruct (run (runExistingWorkflow workspace_runner (fun s => s) demo_hash bob_identity "wf" "key" (Some ["s2"; "s1"])) tt)
    as [[result|e] r'] eqn:Er; [|by vm_compute in Er].
  destruct (existing_run_selects workspace_runner (fun s => s) demo_hash bob_identity "wf" "key" (Some ["s2"; "s1"]) tt
    result r' Er) as (data & stored & _ & _ & _ & _ & _ & Hids).
  exists result. split; [reflexivity|exact Hids].
Defined.

Definition demo_bundle : JsonValue :=
  JObj [("workflow", JObj [("name", JStr "W")]); ("scenarios", JArr [JObj [("name", JStr "Smoke")]])].

Lemma refused_selection_imports_witness :
  exists s, run (runBundle (logged workspace_runner) demo_hash bob_identity (Some demo_bundle) "key" "now" (Some [])) (tt, [])
    = (Throw (JsError "scenarioNames must contain at least one unique scenario name."), s) /\ length s.2 = 1%nat.
Proof.
  destruct (run (importBundle (logged workspace_runner) demo_hash bob_identity (Some demo_bundle) "key" "now") (tt, []))
    as [[imported|e] s] eqn:Ei; [|by vm_compute in Ei].
  destruct (refused_selection_imports workspace_runner demo_hash bob_identity demo_bundle "key" "now" []
    [JObj [("name", JStr "Smoke")]] (JsError "scenarioNames must contain at least one unique scenario name.")
    imported tt s eq_refl eq_refl Ei) as (Hr & call & Hs & _); [by vm_compute in Ei; injection Ei as <- _|].
  exists s. split; [exact Hr|]. rewrite Hs. reflexivity.
Defined.
