(* ===== verification/ServerSystem.v ===== *)
(** * The server as a whole

    Every entry point that works on the database (the actions of the forms, the
    callbacks of next-auth and the routes of the agents' tokens), served
    concurrently: any number of requests, interleaved at any await. *)

From S2P Require Import Prelude FlowTypes JsLib ClientId Process ServerInput Database Projects ProjectFacts.
From S2P Require Import Json JsonParse Accounts AccountFacts AgentAccess AgentFacts.
From stdpp Require Import relations.
Open Scope Z_scope.

Section Server.
Context (scrypt : string -> string -> Z -> list Z) (encodeURIComponent : string -> string)
  (native_message : js_error -> string) (sha256_hex : string -> string) (hmac_sha256 : string -> string -> list Z)
  (base64url : string -> list Z) (utf8 : list Z -> string).
Context `{E : Engine} (connection_type : DatabaseType) (localeCompare : string -> string -> Z).
Implicit Types d : Db.

(** What the platform gives a request that creates something. *)
Record Fresh := MkFresh { fr_salt : list Z; fr_uuid : string; fr_uuid' : string; fr_random : string; fr_now : Date; fr_now' : Date }.

Inductive Request :=
| Setup (form : FormData)
| Authorize (email password : option string)
| JwtRefresh (token : Jwt)
| OpenWorkspace (userId : string)
| CreateUserForm (session : Session) (form : FormData)
| ToggleActive (session : Session) (form : FormData)
| CreateProjectForm (session : Session) (form : FormData)
| AddProjectMembers (session : Session) (form : FormData)
| RemoveProjectMember (session : Session) (form : FormData)
| UpdateProjectRole (session : Session) (form : FormData)
| AddTeamMembers (session : Session) (form : FormData)
| UpdateTeamRole (session : Session) (form : FormData)
| RemoveTeamMember (session : Session) (form : FormData)
| ListTokens (session : Session)
| NewToken (env : AgentEnv) (session : Session) (body : option JsonValue)
| RevokeToken (session : Session) (tokenId : string)
| Introspect (env : AgentEnv) (headers : Headers)
| AgentCall (env : AgentEnv) (headers : Headers) (required : list AgentScope).

Definition forget {A} (p : Proc Db A) : Proc Db unit := p;; mret tt.

Definition respond (f : Fresh) (q : Request) : Proc Db unit :=
  let '(MkFresh salt uuid uuid' random now now') := f in
  match q with
  | Setup form =>
      forget (setupAction scrypt connection_type encodeURIComponent native_message form salt uuid now now' uuid')
  | Authorize email password => forget (authorize scrypt email password)
  | JwtRefresh token => forget (jwt_callback token None)
  | OpenWorkspace userId => forget (ensurePersonalProject userId now uuid)
  | CreateUserForm s form =>
      forget (createUserAdminAction scrypt connection_type native_message s form salt uuid now now' uuid')
  | ToggleActive s form => toggleUserActiveAction s form now
  | CreateProjectForm s form => forget (createProjectAdminAction connection_type native_message s form now uuid)
  | AddProjectMembers s form => forget (addProjectMembersAction connection_type native_message s form now)
  | RemoveProjectMember s form => removeProjectMemberAction localeCompare s form
  | UpdateProjectRole s form => updateProjectMemberRoleAdminAction localeCompare s form
  | AddTeamMembers s form => addTeamMembersAction connection_type localeCompare s form now
  | UpdateTeamRole s form => updateTeamMemberRoleAction localeCompare s form
  | RemoveTeamMember s form => removeTeamMemberAction localeCompare s form
  | ListTokens s => forget (tokens_GET s)
  | NewToken env s b => forget (tokens_POST sha256_hex localeCompare env s b uuid random now now')
  | RevokeToken s tokenId => forget (token_DELETE s tokenId now)
  | Introspect env headers => forget (introspect_POST sha256_hex localeCompare env headers now now')
  | AgentCall env headers required =>
      forget (authenticateAgentRequest sha256_hex hmac_sha256 base64url utf8 localeCompare env headers required now now')
  end.

(** ** Operations that keep the database well formed *)
Definition safe {A} (p : Proc Db A) : Prop := forall d0, wp private grows p (fun _ _ => True) d0.

Lemma safe_bind {A B} (p : Proc Db A) (k : A -> Proc Db B) : safe p -> (forall a, safe (k a)) -> safe (p ≫= k).
Proof. intros Hp Hk d0. apply wp_bind. eapply wp_mono; [|apply Hp]. intros a d _. apply Hk. Qed.

Lemma safe_done {A} (r : res A) : safe (Done r).
Proof. by intros d0; destruct r. Qed.

Lemma safe_query {A} (f : Db -> A) : safe (query f).
Proof. intros d0. by apply (wp_query _ grows). Qed.

Lemma safe_catch {A} (p : Proc Db A) h : safe p -> (forall e, safe (h e)) -> safe (catch p h).
Proof. intros Hp Hh d0. apply wp_catch; [apply Hp|]. intros e d. apply Hh. Qed.

Lemma safe_execute (f : Db -> res Db) :
  (forall d d', private d -> f d = Return d' -> private d' /\ grows d d') -> safe (execute f).
Proof. intros Hf d0. apply (wp_execute _ grows). intros d d' _ Hp Hr. destruct (Hf d d' Hp Hr). done. Qed.

Lemma safe_transaction {A} (body : Db -> res (A * Db)) :
  (forall d a d', private d -> body d = Return (a, d') -> private d' /\ grows d d') -> safe (transaction body).
Proof.
  intros Hf d0. apply wp_statement. intros d r d' _ Hp. destruct (body d) as [[a d1]|e] eqn:Eb.
  - intros [= <- <-]. destruct (Hf d a d1 Hp Eb). done.
  - by intros [= <- <-].
Qed.

(** Statements on accounts and tokens leave the memberships alone. *)
Lemma safe_insert_user r : safe (execute (insert_user r)).
Proof. apply safe_execute. intros d d' Hp Hi. by destruct (insert_user_private r d d' Hi Hp) as (? & ? & _). Qed.

Lemma safe_update_users p f : (forall u, u_id (f u) = u_id u /\ u_email (f u) = u_email u) ->
  safe (execute (fun d => Return (on_users (update_rows p f) d))).
Proof.
  intros Hf. apply safe_execute. intros d d' [Hd Hb] [= <-].
  destruct (update_users_intact p f d Hf Hd) as [Hd' Hg]. by split; [split|].
Qed.

Lemma safe_insert_token r : safe (execute (insert_token r)).
Proof.
  apply safe_execute. intros d d' [Hd Hb] Hi. destruct (insert_token_intact r d d' Hi Hd) as [Hd' Hg].
  apply insert_token_rows in Hi as ->. by split; [split|].
Qed.

Lemma safe_update_tokens p f :
  (forall t, t_id (f t) = t_id t /\ t_tokenHash (f t) = t_tokenHash t
             /\ t_userId (f t) = t_userId t /\ t_projectId (f t) = t_projectId t) ->
  safe (execute (fun d => Return (on_tokens (update_rows p f) d))).
Proof.
  intros Hf. apply safe_execute. intros d d' [Hd Hb] [= <-].
  pose proof (update_tokens_intact p f d Hf Hd). by split; [split|apply grows_on_tokens].
Qed.
End Server.

Create HintDb safe discriminated.
#[export] Hint Resolve safe_done safe_query safe_insert_user safe_insert_token : safe.

(** Follows a computation through its binds and branches. *)
Ltac safe_steps :=
  repeat first
    [ solve [eauto with safe]
    | apply safe_bind; [|intros]
    | apply safe_catch; [|intros]
    | progress (lazy beta iota zeta)
    | case_match ].

Section Safety.
Context (scrypt : string -> string -> Z -> list Z) (encodeURIComponent : string -> string)
  (native_message : js_error -> string) (sha256_hex : string -> string) (hmac_sha256 : string -> string -> list Z)
  (base64url : string -> list Z) (utf8 : list Z -> string).
Context `{E : Engine} (connection_type : DatabaseType) (localeCompare : string -> string -> Z).
Implicit Types d : Db.

#[local] Hint Extern 1 (safe (mret _)) => apply safe_done : safe.
#[local] Hint Extern 1 (safe (throw _)) => apply safe_done : safe.
#[local] Hint Extern 1 (safe (fail _)) => apply safe_done : safe.
#[local] Hint Extern 1 (safe (lift _)) => apply safe_done : safe.

(** ** Projects *)
Lemma safe_ensure userId now uuid : safe (ensurePersonalProject userId now uuid).
Proof. intros d0. apply wp_ensurePersonal. Qed.
Lemma safe_createProject name admin now uuid : safe (createProject connection_type name admin now uuid).
Proof. intros d0. apply wp_createProject. Qed.
Lemma safe_addUsers projectId ids role now : safe (addUsersToProject connection_type projectId ids role now).
Proof. intros d0. apply wp_addUsers. Qed.
Lemma safe_removeUser projectId userId : safe (removeUserFromProject localeCompare projectId userId).
Proof. intros d0. apply wp_removeUser. Qed.
Lemma safe_updateRole projectId userId role : safe (updateProjectMemberRole localeCompare projectId userId role).
Proof. intros d0. apply wp_updateRole. Qed.
Hint Resolve safe_ensure safe_createProject safe_addUsers safe_removeUser safe_updateRole : safe.

Lemma safe_membership userId projectId role : safe (getProjectMembership localeCompare userId projectId role).
Proof. unfold getProjectMembership, getProject, listProjectsForUser. safe_steps. Qed.
Hint Resolve safe_membership : safe.

Lemma safe_permission userId projectId action role : safe (userHasProjectPermission localeCompare userId projectId action role).
Proof. unfold userHasProjectPermission. safe_steps. Qed.
Hint Resolve safe_permission : safe.

Lemma safe_manager session projectId : safe (requireMemberManager localeCompare session projectId).
Proof. unfold requireMemberManager. safe_steps. Qed.
Hint Resolve safe_manager : safe.

(** ** Accounts *)
Lemma safe_initial input salt uuid now pnow puuid :
  safe (createInitialAdmin scrypt connection_type input salt uuid now pnow puuid).
Proof.
  assert (forall (r : UserRow) A (k : Db -> A), safe (transaction (fun d =>
    d' ← (if 0 <? Z.of_nat (length (rows (users d))) then Throw (JsError "Initial setup has already been completed.")
          else insert_user r d); Return (k d', d')))) as Hfirst.
  { intros r A k. apply safe_transaction. intros d a d' Hp. destruct (0 <? _); [done|].
    destruct (insert_user r d) as [d1|] eqn:Hi; [|done]. intros [= _ <-].
    by destruct (insert_user_private r d d1 Hi Hp) as (? & ? & _). }
  unfold createInitialAdmin. destruct connection_type; lazy zeta; apply safe_bind.
  - apply (Hfirst _ _ (fun _ => _)).
  - intros user. safe_steps.
  - apply (Hfirst _ _ (fun d' => head (select _ (users d')))).
  - intros found. safe_steps.
Qed.

Lemma safe_create input salt uuid now pnow puuid : safe (createUser scrypt connection_type input salt uuid now pnow puuid).
Proof. unfold createUser, getUserByEmail, getUserById. safe_steps. Qed.

Lemma safe_active userId active now : safe (setUserActiveState userId active now).
Proof. by apply safe_update_users. Qed.
Hint Resolve safe_initial safe_create safe_active : safe.

Lemma safe_authorize email password : safe (authorize scrypt email password).
Proof. unfold authorize, countUsers, verifyPasswordLogin, getUserByEmail. safe_steps. Qed.

Lemma safe_jwt token user : safe (jwt_callback token user).
Proof. unfold jwt_callback, getUserById. safe_steps. Qed.
Hint Resolve safe_authorize safe_jwt : safe.

(** ** Tokens *)
Lemma safe_personal token now now' : safe (authenticatePersonalAgentToken sha256_hex localeCompare token now now').
Proof.
  unfold authenticatePersonalAgentToken, getUserById.
  assert (forall p n, safe (execute (fun d => Return (on_tokens (update_rows p (set_used n)) d)))) as Hused
    by (intros; by apply safe_update_tokens).
  safe_steps; apply Hused.
Qed.

Lemma safe_revoke userId tokenId now : safe (revokeAgentToken userId tokenId now).
Proof. by apply safe_update_tokens. Qed.

Lemma safe_request env headers required now now' :
  safe (authenticateAgentRequest sha256_hex hmac_sha256 base64url utf8 localeCompare env headers required now now').
Proof.
  pose proof safe_personal. unfold authenticateAgentRequest, assertion_user, getUserById, getUserByEmail. safe_steps.
Qed.

Lemma safe_token_request id u b uuid random now now' : safe (token_request sha256_hex localeCompare id u b uuid random now now').
Proof. unfold token_request, availableAgentScopes, createAgentToken. safe_steps. Qed.
Hint Resolve safe_personal safe_revoke safe_request safe_token_request : safe.

Lemma safe_respond f q :
  safe (respond scrypt encodeURIComponent native_message sha256_hex hmac_sha256 base64url utf8 connection_type localeCompare f q).
Proof.
  destruct f as [salt uuid uuid' random now now'], q; cbn [respond]; unfold forget;
    unfold setupAction, createUserAdminAction, toggleUserActiveAction, createProjectAdminAction, addProjectMembersAction,
      removeProjectMemberAction, updateProjectMemberRoleAdminAction, addTeamMembersAction, updateTeamMemberRoleAction,
      removeTeamMemberAction, tokens_GET, listAgentTokens, tokens_POST, token_DELETE, introspect_POST, getUserById, admin_failed;
    safe_steps.
Qed.

End Safety.

(** ** Example *)
#[local] Existing Instance list_engine.

Definition demo_fresh (n : string) : Fresh := MkFresh [1] ("u" +:+ n) ("p" +:+ n) n epoch epoch.

(** Two setup forms sent at the same time to an empty server. *)
Definition setup_form (email : string) : FormData :=
  [("email", FText email); ("name", FText "Root"); ("password", FText "password1"); ("confirmPassword", FText "password1")].

Definition demo_respond (fq : Fresh * Request) : Proc Db unit :=
  respond demo_scrypt (fun s => s) (fun _ => "") demo_hash demo_hmac codes text_of MysqlDb by_code fq.1 fq.2.

Definition demo_requests : list (Fresh * Request) :=
  [(demo_fresh "1", Setup (setup_form "a@x")); (demo_fresh "2", Setup (setup_form "b@x"))].

Definition demo_turns : list nat := [0; 1; 0; 1; 0; 1; 0; 1; 0; 0]%nat.

