(* ===== verification/TestRetry.v ===== *)
(** * Retry policies: [ui-v2/src/modules/workflow/lib/test-retry-policy.ts]

    What the editor tells the user about retries and how it drops a stale
    idempotency confirmation, together with the decision the runner takes on the
    translated test ([runner-v2/pkg/test/retry.go], [pkg/config/types.go]). *)

From S2P Require Import Prelude FlowTypes JsLib Json ClientId Graph ServiceNames EdgeModel ScenarioTranslator.
Open Scope Z_scope.

Definition operation (test : ScenarioTestDefinition) : string :=
  match test_type test with
  | THttp => default "GET" (http_method <$> test_httpConfig test)
  | TDocument => default "" (doc_operation <$> test_documentConfig test)
  | TCache => default "" (ca_operation <$> test_cacheConfig test)
  | TQueue => default "" (qu_operation <$> test_queueConfig test)
  | TDatabase => default "" (db_query <$> test_databaseConfig test)
  | TShell => default "" (sh_command <$> test_shellConfig test)
  | TDelay => default "" (pretty <$> test_delayConfig test)
  end.

Definition retryOperationSignature (test : ScenarioTestDefinition) : string :=
  test_type_name (test_type test) +:+ ":" +:+ operation test.

Definition isAutomaticallyRetrySafe (test : ScenarioTestDefinition) : bool :=
  match test_type test with
  | THttp => set_has (default "GET" (http_method <$> test_httpConfig test)) ["GET"; "HEAD"; "OPTIONS"]
  | TDocument => set_has (default "" (doc_operation <$> test_documentConfig test))
                   ["find_one"; "find_many"; "count_documents"; "exists"]
  | TCache => set_has (default "" (ca_operation <$> test_cacheConfig test)) ["ping"; "get"; "exists"]
  | TQueue => set_has (default "" (qu_operation <$> test_queueConfig test)) ["check_topic"; "list_topics"]
  | _ => false
  end.

(** [test.retryPolicy?.mode] and [test.retryPolicy?.idempotencyConfirmed]. *)
Definition retry_mode (test : ScenarioTestDefinition) : option string := rp_mode <$> test_retryPolicy test.
Definition retry_confirmed (test : ScenarioTestDefinition) : bool :=
  match test_retryPolicy test with Some policy => rp_idempotencyConfirmed policy | None => false end.

Definition hasExplicitIdempotencyRetry (test : ScenarioTestDefinition) : bool :=
  negb (bool_decide (retry_mode test = Some "never")) && retry_confirmed test.

Inductive RetryDescription :=
| NeverDelays | RetryDisabled | ConfirmedRetry | SafeRetry | NotRetried.

Definition retry_text (d : RetryDescription) : string :=
  match d with
  | NeverDelays => "Delay steps are never retried."
  | RetryDisabled => "Automatic retry is disabled. Switch to Expert mode to edit this policy."
  | ConfirmedRetry => "An Expert confirmed this operation can safely run twice. One transient transport failure will be retried."
  | SafeRetry => "Tokyo Tester retries one safe transient connection failure. Assertions and timeouts still fail immediately."
  | NotRetried => "This operation is not automatically retried. Switch to Expert mode only if you can confirm it is idempotent."
  end.

Definition guided_retry (test : ScenarioTestDefinition) : RetryDescription :=
  if decide (test_type test = TDelay) then NeverDelays
  else if bool_decide (retry_mode test = Some "never") then RetryDisabled
  else if hasExplicitIdempotencyRetry test then ConfirmedRetry
  else if isAutomaticallyRetrySafe test then SafeRetry
  else NotRetried.

Definition guidedRetryDescription (test : ScenarioTestDefinition) : string := retry_text (guided_retry test).

Definition with_retry_policy (policy : option TestRetryPolicy) (test : ScenarioTestDefinition) : ScenarioTestDefinition :=
  MkTest (test_id test) (test_name test) (test_type test) (test_targetServices test) (test_dependsOnTestIds test)
    policy (test_databaseConfig test) (test_documentConfig test) (test_httpConfig test) (test_shellConfig test)
    (test_cacheConfig test) (test_queueConfig test) (test_delayConfig test).

Definition clearStaleIdempotencyConfirmation (previous next : ScenarioTestDefinition) : ScenarioTestDefinition :=
  match test_retryPolicy previous with
  | Some policy =>
      if negb (rp_idempotencyConfirmed policy)
         || bool_decide (retryOperationSignature previous = retryOperationSignature next)
      then next
      else with_retry_policy (Some (MkRetryPolicy (default (rp_mode policy) (retry_mode next)) false)) next
  | None => next
  end.

(** ** The runner's decision *)
Inductive FailureClass :=
| FailureTransientTransport | FailureAssertion | FailureConfiguration | FailureExecution | FailureTimeout | FailureCancelled.
Inductive FailurePhase := PhaseSetup | PhaseDispatch | PhaseResponse | PhaseAssertion | PhaseUnknown.
#[export] Instance FailureClass_eq_dec : EqDecision FailureClass.
Proof. solve_decision. Defined.
#[export] Instance FailurePhase_eq_dec : EqDecision FailurePhase.
Proof. solve_decision. Defined.

Record FailureInfo := MkFailure { fi_class : FailureClass; fi_phase : FailurePhase }.

(** The test's policy; the zero value when the request has none. *)
Definition config_policy (cfg : TestConfig) : TestRetryPolicy := default (MkRetryPolicy "" false) (tc_retry_policy cfg).

Definition EffectiveMode (policy : TestRetryPolicy) : string :=
  if bool_decide (rp_mode policy = "") then "transient" else rp_mode policy.

(** [strings.ToLower(strings.TrimSpace(value))] of a string of the configuration. *)
Definition config_operation (cfg : TestConfig) (key : string) : string :=
  match assoc_get key (tc_config cfg) with
  | Some (JStr s) => toLowerCase (js_trim s)
  | _ => toLowerCase (js_trim "")
  end.

(** The methods are compared in upper case: [strings.ToUpper] of a lower-case text
    is one of them exactly when the text is their lower-case form. *)
Definition IsAutomaticallyRetrySafe (cfg : TestConfig) : bool :=
  match tc_type cfg with
  | THttp => set_has (config_operation cfg "method") ["get"; "head"; "options"]
  | TDocument => set_has (config_operation cfg "operation") ["find_one"; "find_many"; "count_documents"; "exists"]
  | TCache => set_has (config_operation cfg "operation") ["ping"; "get"; "exists"]
  | TQueue => set_has (config_operation cfg "operation") ["check_topic"; "list_topics"]
  | _ => false
  end.

Definition shouldRetry (cfg : TestConfig) (info : FailureInfo) (disabled : bool) : bool :=
  if disabled || bool_decide (EffectiveMode (config_policy cfg) = "never") || bool_decide (tc_type cfg = TDelay) then false
  else if negb (bool_decide (fi_class info = FailureTransientTransport)) then false
  else if bool_decide (fi_phase info = PhaseSetup) then true
  else if IsAutomaticallyRetrySafe cfg then true
  else rp_idempotencyConfirmed (config_policy cfg).

(** ** The editor's promise and the runner's decision *)

(** The operations the data model declares; a document or cache test must have its
    configuration, because the translation fills in a retried default. *)
Definition declared_operation (test : ScenarioTestDefinition) : Prop :=
  match test_type test with
  | THttp => match test_httpConfig test with
             | Some c => http_method c ∈ ["GET"; "POST"; "PUT"; "DELETE"; "PATCH"; "HEAD"; "OPTIONS"]
             | None => True
             end
  | TDocument => exists c, test_documentConfig test = Some c
      /\ doc_operation c ∈ ["insert_one"; "find_one"; "find_many"; "update_one"; "delete_one"; "count_documents"; "exists"]
  | TCache => exists c, test_cacheConfig test = Some c
      /\ ca_operation c ∈ ["ping"; "set"; "get"; "exists"; "delete"; "del"]
  | TQueue => match test_queueConfig test with
              | Some c => qu_operation c ∈ ["produce"; "consume"; "produce_and_consume"; "check_topic"; "list_topics"]
              | None => True
              end
  | _ => True
  end.

Ltac each_elem H := repeat (apply elem_of_cons in H as [->|H]); [..|by apply not_elem_of_nil in H].

Section Promise.
Context (JSON_parse : string -> option JsonValue).

Lemma no_service k o (l : list (string * JsonValue)) : k <> "service" ->
  assoc_get k (prop "service" JStr o ++ l) = assoc_get k l.
Proof. intros Hk. destruct o; [|done]. simpl. by rewrite decide_False by done. Qed.

Lemma safe_agrees test default_service required cfg :
  tc_type cfg = test_type test -> tc_config cfg = buildTestConfig JSON_parse test default_service required ->
  declared_operation test -> IsAutomaticallyRetrySafe cfg = isAutomaticallyRetrySafe test.
Proof.
  intros Ht Hc Hd. unfold IsAutomaticallyRetrySafe, isAutomaticallyRetrySafe, config_operation, declared_operation in *.
  rewrite Ht, Hc. unfold buildTestConfig, service_of.
  set (target := match default_service with Some _ => _ | None => _ end). clearbody target. clear Ht Hc.
  destruct (test_type test); try done.
  - destruct Hd as ([] & -> & Hop). simpl in Hop. rewrite no_service by done. each_elem Hop; reflexivity.
  - rewrite no_service by done. destruct (test_httpConfig test) as [[]|]; [|reflexivity]. simpl in Hd.
    each_elem Hd; reflexivity.
  - destruct Hd as ([] & -> & Hop). simpl in Hop. rewrite no_service by done. each_elem Hop; reflexivity.
  - rewrite no_service by done. destruct (test_queueConfig test) as [[]|]; [|reflexivity]. simpl in Hd.
    each_elem Hd; reflexivity.
Qed.

End Promise.

(** Without its configuration a document test is sent as a [find_one], which the
    runner retries though the editor says it does not. *)
Example unconfigured_document_retried :
  let test := plain_test "t1" "Read" TDocument ["db"] in
  guided_retry test = NotRetried
  /\ exists cfg, translate_test (fun _ => None) ["db"] None test = Return cfg
     /\ shouldRetry cfg (MkFailure FailureTransientTransport PhaseResponse) false = true.
Proof. split; [reflexivity|]. eexists. split; reflexivity. Qed.

(** ** Confirmations *)
Lemma signature_inj t t' : retryOperationSignature t = retryOperationSignature t' ->
  test_type t = test_type t' /\ operation t = operation t'.
Proof.
  unfold retryOperationSignature. generalize (operation t), (operation t'). intros o o'.
  destruct (test_type t), (test_type t'); simpl; intros E; simplify_eq; done.
Qed.

(** An editing session: every edit goes through [clearStaleIdempotencyConfirmation]. *)
Definition edit_session (test : ScenarioTestDefinition) (edits : list (ScenarioTestDefinition -> ScenarioTestDefinition))
    : ScenarioTestDefinition :=
  fold_left (fun t edit => clearStaleIdempotencyConfirmation t (edit t)) edits test.

Lemma clear_confirmed t t' : retry_confirmed (clearStaleIdempotencyConfirmation t t') = true ->
  clearStaleIdempotencyConfirmation t t' = t' /\ retry_confirmed t' = true
  /\ (retry_confirmed t = true -> test_type t = test_type t' /\ operation t = operation t').
Proof.
  unfold clearStaleIdempotencyConfirmation, retry_confirmed. destruct (test_retryPolicy t) as [policy|]; [|done].
  destruct (rp_idempotencyConfirmed policy); simpl; [|done].
  case_bool_decide as Hsig; simpl; [|done]. intros H. split; [done|]. split; [done|]. intros _. by apply signature_inj.
Qed.

(** Where a confirmation that is still there came from: the same operation ever since. *)
Definition same_operation (t t' : ScenarioTestDefinition) : Prop := test_type t = test_type t' /\ operation t = operation t'.

Lemma edit_session_snoc t edits f :
  edit_session t (edits ++ [f])
  = clearStaleIdempotencyConfirmation (edit_session t edits) (f (edit_session t edits)).
Proof. unfold edit_session. by rewrite fold_left_app. Qed.

(** A confirmation is for the operation that was confirmed.  If a test is marked
    idempotent after any sequence of edits, then it has been marked without a
    break since some edit (or since the start), and from that point on its type
    and its operation have never been other than they are now. *)
Theorem confirmation_tracks_operation t edits : retry_confirmed (edit_session t edits) = true ->
  exists n, (n <= length edits)%nat
  /\ match n with O => retry_confirmed t = true | S k => retry_confirmed (edit_session t (take k edits)) = false end
  /\ forall m, (n <= m <= length edits)%nat ->
       retry_confirmed (edit_session t (take m edits)) = true
       /\ same_operation (edit_session t (take m edits)) (edit_session t edits).
Proof.
  induction edits as [|f edits IH] using rev_ind; intros Hc.
  { exists 0%nat. split; [done|]. split; [done|]. intros m Hm. by rewrite take_nil. }
  rewrite edit_session_snoc in Hc |- *. pose proof (clear_confirmed _ _ Hc) as (E & _ & Hop). rewrite E in *.
  rewrite length_app. simpl.
  assert (Hlast : forall m, (length edits < m)%nat -> edit_session t (take m (edits ++ [f])) = f (edit_session t edits)).
  { intros m Hm. rewrite take_ge by (rewrite length_app; simpl; lia). by rewrite edit_session_snoc. }
  destruct (retry_confirmed (edit_session t edits)) eqn:Ec.
  - destruct (IH eq_refl) as (n & Hn & Horigin & Hsince). exists n. split; [lia|].
    assert (Htake : forall m, (m <= length edits)%nat -> take m (edits ++ [f]) = take m edits)
      by (intros; by apply take_app_le).
    split; [destruct n; [done|]; rewrite Htake by lia; done|]. intros m Hm.
    destruct (decide (m <= length edits)%nat) as [Hle|Hgt].
    + rewrite Htake by done. destruct (Hsince m ltac:(lia)) as [H1 [H2 H3]]. split; [done|].
      destruct (Hop eq_refl) as [H4 H5]. split; congruence.
    + rewrite Hlast by lia. by split.
  - exists (S (length edits)). split; [lia|]. split; [by rewrite take_app_le, firstn_all by lia|].
    intros m Hm. rewrite Hlast by lia. by split.
Qed.

(** ** Witnesses *)
Definition http_test (method : string) (policy : option TestRetryPolicy) : ScenarioTestDefinition :=
  MkTest "t1" "Create" THttp (Some ["api"]) None policy None None
    (Some (MkHttpConfig method "/orders" "80" None None None None)) None None None None.
Definition set_method (method : string) (t : ScenarioTestDefinition) : ScenarioTestDefinition :=
  http_test method (test_retryPolicy t).
Definition confirm (t : ScenarioTestDefinition) : ScenarioTestDefinition :=
  with_retry_policy (Some (MkRetryPolicy "transient" true)) t.


Lemma confirmation_tracks_operation_witness : exists n, (n <= 3)%nat
  /\ forall m, (n <= m <= 3)%nat ->
     retry_confirmed (edit_session (http_test "GET" None) (take m [set_method "POST"; confirm; set_method "POST"])) = true.
Proof.
  destruct (confirmation_tracks_operation (http_test "GET" None) [set_method "POST"; confirm; set_method "POST"])
    as (n & Hn & _ & H); [reflexivity|].
  exists n. split; [exact Hn|]. intros m Hm. apply H. exact Hm.
Defined.

(** Changing the method after the confirmation drops it. *)
Example changed_operation_unconfirmed :
  retry_confirmed (edit_session (http_test "GET" None) [set_method "POST"; confirm; set_method "DELETE"]) = false.
Proof. reflexivity. Qed.
