(* ===== verification/RegistryConfig.v ===== *)
(** * Registry settings: [ui-v2/src/modules/workflow/lib/registry-config.ts] and
    [ui-v2/src/modules/workflow/stores/registry-secret-store.ts]

    The registry host of a service, the image it is pulled from, the form that
    edits both, and the credentials kept in memory.  A regular expression is the
    function that decides it. *)

From S2P Require Import Prelude JsLib.
From Stdlib Require Import Ascii.
Open Scope Z_scope.

Inductive RegistryAuthType := AuthNone | AuthBasic | AuthToken.
#[export] Instance RegistryAuthType_eq_dec : EqDecision RegistryAuthType.
Proof. solve_decision. Defined.

Record RegistryRuntimeConfig := MkRuntimeConfig {
  rr_url : string;
  rr_auth_type : RegistryAuthType;
  rr_username : option string;
  rr_password : option string;
  rr_token : option string
}.

Record RegistryFormValue := MkRegistryForm {
  rf_enabled : bool;
  rf_url : string;
  rf_auth_type : RegistryAuthType;
  rf_username : string;
  rf_password : string;
  rf_token : string
}.

Definition EMPTY_REGISTRY_FORM : RegistryFormValue := MkRegistryForm false "" AuthBasic "" "" "".

Definition registryFormFromConfig (config : option RegistryRuntimeConfig) : RegistryFormValue :=
  match config with
  | None => EMPTY_REGISTRY_FORM
  | Some c => MkRegistryForm true (rr_url c) (rr_auth_type c) (default "" (rr_username c)) (default "" (rr_password c))
                (default "" (rr_token c))
  end.

(** ** Hosts *)
Definition is_digit (c : ascii) : bool := match dec_value c with Some _ => true | None => false end.
Definition is_alnum (c : ascii) : bool :=
  let n := code c in
  ((48 <=? n)%N && (n <=? 57)%N) || ((65 <=? n)%N && (n <=? 90)%N) || ((97 <=? n)%N && (n <=? 122)%N).
Definition is_hex_colon (c : ascii) : bool :=
  match hex_value c with Some _ => true | None => false end || bool_decide (c = ":"%char).

(** [/^\d+$/] *)
Definition all_digits (s : string) : bool := str_truthy s && str_forallb is_digit s.

Fixpoint last_char (c : ascii) (s : string) : ascii :=
  match s with EmptyString => c | String c' s' => last_char c' s' end.

(** [[a-zA-Z0-9](?:[a-zA-Z0-9-]{0,61}[a-zA-Z0-9])?], the whole string. *)
Definition is_label (s : string) : bool :=
  match s with
  | EmptyString => false
  | String c s' =>
      is_alnum c && is_alnum (last_char c s') && str_forallb (fun c => is_alnum c || bool_decide (c = "-"%char)) s'
      && (String.length s <=? 63)%nat
  end.

Definition valid_host (host : string) : bool :=
  bool_decide (host = "localhost") || forallb is_label (split_on "." host).

(** [input.match(/^(\[[0-9a-fA-F:]+\]):(\d+)$/)]: the bracketed address and the port. *)
Definition bracketed_host (input : string) : option (string * string) :=
  match split_on "]" input with
  | [String "[" address; String ":" port] =>
      if str_truthy address && str_forallb is_hex_colon address && all_digits port
      then Some ("[" +:+ address +:+ "]", port) else None
  | _ => None
  end%char.

(** [Number(port)] of decimal digits. *)
Definition port_number (port : string) : Z := default 0 (digits1 10 port).

Definition checked_port (port : option string) : res unit :=
  match port with
  | None => Return tt
  | Some p =>
      if negb (all_digits p) || (port_number p <? 1) || (65535 <? port_number p)
      then Throw (JsError "Registry port must be between 1 and 65535.") else Return tt
  end.

Definition with_port (host : string) (port : option string) : string :=
  host +:+ match port with Some p => if str_truthy p then ":" +:+ p else "" | None => "" end.

Definition has_char (cs : list ascii) (s : string) : bool := negb (str_forallb (fun c => negb (set_has c cs)) s).

Definition normalizeRegistryHost (value : string) : res string :=
  let input := js_trim value in
  if negb (str_truthy input) then Throw (JsError "Enter the registry host.")
  else if str_includes "://" input then Throw (JsError "Enter a host only, without http:// or https://.")
  else if has_char ["/"; "?"; "#"; "@"]%char input
  then Throw (JsError "The registry field cannot contain a path or credentials.")
  else
    match bracketed_host input with
    | Some (host, port) =>
        checked_port (Some port);;
        Return (with_port (toLowerCase host) (Some port))
    | None =>
        if starts_with "[" input then Throw (JsError "Enter a valid bracketed IPv6 registry host.")
        else
          match split_on ":" input with
          | [host] =>
              if valid_host host then Return (with_port (toLowerCase host) None)
              else Throw (JsError "Enter a valid registry host.")
          | [host; port] =>
              if valid_host host
              then checked_port (Some port);; Return (with_port (toLowerCase host) (Some port))
              else Throw (JsError "Enter a valid registry host.")
          | _ => Throw (JsError "Bracket IPv6 addresses before adding a port.")
          end
    end.

(** ** Images *)

(** [image.split("/", 1)[0] ?? ""] *)
Definition first_component (image : string) : string := default "" (head (split_on "/" image)).

Definition hasExplicitRegistry (image : string) : bool :=
  let first := first_component image in
  bool_decide (first = "localhost") || str_includes "." first || str_includes ":" first || starts_with "[" first.

Fixpoint strip_slashes (s : string) : string :=
  match s with String "/" s' => strip_slashes s' | _ => s end%char.

Definition resolveRegistryImage (registry image : string) : res string :=
  host ← normalizeRegistryHost registry;
  let repository := strip_slashes (js_trim image) in
  if negb (str_truthy repository) then Throw (JsError "Enter a container image.")
  else if str_includes "://" repository then Throw (JsError "Container images cannot include a URL scheme.")
  else if negb (hasExplicitRegistry repository) then Return (host +:+ "/" +:+ repository)
  else
    imageHost ← normalizeRegistryHost (first_component repository);
    if bool_decide (imageHost = host) then Return repository
    else Throw (JsError ("The image uses " +:+ imageHost +:+ ", but this service is configured for " +:+ host +:+ ".")).

(** ** The form *)
Definition validateRegistryForm (value : RegistryFormValue) : option (string * string) :=
  if negb (rf_enabled value) then None
  else
    match normalizeRegistryHost (rf_url value) with
    | Throw e => Some ("registry-url", match e with JsError m => m | _ => "Invalid registry host." end)
    | Return _ =>
        if bool_decide (rf_auth_type value = AuthBasic) && negb (str_truthy (js_trim (rf_username value)))
        then Some ("registry-username", "Enter the registry username.")
        else if bool_decide (rf_auth_type value = AuthBasic) && negb (str_truthy (rf_password value))
        then Some ("registry-password", "Enter a password or pull token.")
        else if bool_decide (rf_auth_type value = AuthToken) && negb (str_truthy (rf_token value))
        then Some ("registry-token", "Enter the Docker registry identity token.")
        else None
    end.

Definition registryConfigFromForm (value : RegistryFormValue) : res (option RegistryRuntimeConfig) :=
  if negb (rf_enabled value) then Return None
  else
    url ← normalizeRegistryHost (rf_url value);
    match rf_auth_type value with
    | AuthNone => Return (Some (MkRuntimeConfig url AuthNone None None None))
    | AuthToken => Return (Some (MkRuntimeConfig url AuthToken None None (Some (rf_token value))))
    | AuthBasic =>
        Return (Some (MkRuntimeConfig url AuthBasic (Some (js_trim (rf_username value))) (Some (rf_password value)) None))
    end.

(** ** The credentials in memory *)
Notation Secrets := (jmap string (jmap string RegistryRuntimeConfig)).

Definition setSecret (workflowId nodeId : string) (config : RegistryRuntimeConfig) (secrets : Secrets) : Secrets :=
  <[workflowId := <[nodeId := config]> (default ∅ (secrets !! workflowId))]> secrets.

Definition getSecret (workflowId nodeId : string) (secrets : Secrets) : option RegistryRuntimeConfig :=
  secrets !! workflowId ≫= (fun s : jmap string RegistryRuntimeConfig => s !! nodeId).

Definition clearSecret (workflowId nodeId : string) (secrets : Secrets) : Secrets :=
  let workflowSecrets := delete nodeId (default ∅ (secrets !! workflowId)) in
  if (length (jkeys workflowSecrets) =? 0)%nat then delete workflowId secrets
  else <[workflowId := workflowSecrets]> secrets.

Definition clearWorkflow (workflowId : string) (secrets : Secrets) : Secrets := delete workflowId secrets.
Definition clearAll (secrets : Secrets) : Secrets := ∅.

(** ** Examples *)
Example normalize_examples :
  normalizeRegistryHost "  Registry.Example.COM:5000 " = Return "registry.example.com:5000"
  /\ normalizeRegistryHost "[2001:DB8::1]:443" = Return "[2001:db8::1]:443"
  /\ normalizeRegistryHost "host:70000" = Throw (JsError "Registry port must be between 1 and 65535.")
  /\ normalizeRegistryHost "-bad.example" = Throw (JsError "Enter a valid registry host.")
  /\ resolveRegistryImage "ghcr.io" "/team/app:1" = Return "ghcr.io/team/app:1"
  /\ resolveRegistryImage "ghcr.io" "GHCR.io/team/app" = Return "GHCR.io/team/app".
Proof. by vm_compute. Qed.
