(* ===== verification/RegistryFacts.v ===== *)
(** * Registry settings: theorems

    Normalised hosts are canonical, a resolved image names the configured
    registry, a saved form reopens to the same settings, and the store of
    credentials is a map from services to credentials. *)

From S2P Require Import Prelude JsLib JsonParse RegistryConfig.
From Stdlib Require Import Ascii.
Open Scope Z_scope.

(** ** Characters *)
Ltac each_char :=
  intros [[] [] [] [] [] [] [] []]; vm_compute; (congruence || (intros _; repeat split; reflexivity)).

(** The characters of a host with its port. *)
Definition host_char (c : ascii) : bool :=
  is_alnum c || set_has c ["-"; "."; ":"; "["; "]"]%char.
Definition label_char (c : ascii) : bool := is_alnum c || bool_decide (c = "-"%char).

Lemma host_char_plain c : host_char c = true ->
  negb (is_ws c) = true /\ negb (set_has c ["/"; "?"; "#"; "@"]%char) = true /\ not_char "/" c = true.
Proof. revert c. each_char. Qed.

Lemma label_char_host c : label_char c = true ->
  label_char (lower_char c) = true /\ host_char c = true /\ lower_char (lower_char c) = lower_char c
  /\ not_char "." (lower_char c) = true /\ not_char ":" c = true /\ not_char "]" c = true
  /\ not_char ":" (lower_char c) = true /\ not_char "]" (lower_char c) = true.
Proof. revert c. each_char. Qed.

Lemma alnum_lower c : is_alnum c = true -> is_alnum (lower_char c) = true.
Proof. revert c. each_char. Qed.

Lemma digit_char_plain c : is_digit c = true ->
  host_char c = true /\ not_char ":" c = true /\ not_char "]" c = true.
Proof. revert c. each_char. Qed.

Lemma hex_char_plain c : is_hex_colon c = true ->
  is_hex_colon (lower_char c) = true /\ host_char (lower_char c) = true /\ lower_char (lower_char c) = lower_char c
  /\ not_char "]" (lower_char c) = true.
Proof. revert c. each_char. Qed.

(** ** Lower case *)
Lemma lower_idem s : toLowerCase (toLowerCase s) = toLowerCase s.
Proof.
  assert (Hc : forall c, lower_char (lower_char c) = lower_char c) by each_char.
  unfold toLowerCase. induction s as [|c s IH]; simpl; [done|]. by rewrite Hc, IH.
Qed.

Lemma split_on_lower c s : (forall a, lower_char a = c <-> a = c) ->
  split_on c (toLowerCase s) = map toLowerCase (split_on c s).
Proof.
  intros Hc. unfold toLowerCase. induction s as [|a s IH]; simpl; [done|]. rewrite IH.
  destruct (decide (a = c)) as [->|Ha]; [rewrite decide_True by (by apply Hc); done|].
  rewrite decide_False by (by rewrite Hc). by destruct (split_on c s).
Qed.

Lemma dot_lower a : lower_char a = "."%char <-> a = "."%char.
Proof. revert a. intros [[] [] [] [] [] [] [] []]; vm_compute; split; congruence. Qed.

Lemma last_char_map f c s : last_char (f c) (str_map f s) = f (last_char c s).
Proof. revert c. induction s as [|a s IH]; intros c; simpl; [done|]. apply IH. Qed.

Lemma length_map_str f s : String.length (str_map f s) = String.length s.
Proof. induction s; simpl; auto. Qed.

Lemma label_lower s : is_label s = true -> is_label (toLowerCase s) = true.
Proof.
  destruct s as [|c s]; [done|]. unfold is_label, toLowerCase. simpl. rewrite last_char_map, length_map_str, str_forallb_map.
  intros H. bools. rewrite !alnum_lower by done. simpl. apply andb_true_iff. split; [|done].
  eapply str_forallb_impl; [|exact H1]. intros a Ha. by apply (label_char_host a).
Qed.

Lemma valid_host_lower host : valid_host host = true -> valid_host (toLowerCase host) = true.
Proof.
  unfold valid_host. rewrite !orb_true_iff. intros [->%bool_decide_eq_true|H]; [by left|]. right.
  rewrite (split_on_lower "." host dot_lower). rewrite forallb_forall in *.
  intros w (w' & <- & Hw)%in_map_iff. by apply label_lower, H.
Qed.

(** ** The characters of a host *)
Lemma split_forall (P : ascii -> bool) c s : Forall (fun w => str_forallb P w = true) (split_on c s) ->
  str_forallb (fun a => P a || bool_decide (a = c)) s = true.
Proof.
  induction s as [|a s IH]; [done|]. cbn [split_on str_forallb].
  destruct (decide (a = c)) as [->|Ha].
  - intros H. inversion_clear H. rewrite bool_decide_true by done. rewrite orb_true_r. by apply IH.
  - destruct (split_on_cons c s) as (w & ws & E). rewrite E in *. intros H. inversion_clear H as [|? ? Hw Hws].
    simpl in Hw. apply andb_true_iff in Hw as [Ha' Hw]. rewrite Ha'. simpl. apply IH. by constructor.
Qed.

Lemma valid_host_chars host : valid_host host = true ->
  str_forallb (fun a => label_char a || bool_decide (a = "."%char)) host = true
  /\ exists c s, host = String c s /\ is_alnum c = true.
Proof.
  unfold valid_host. intros [->%bool_decide_eq_true|H]%orb_true_iff; [by split; [|by eexists _, _]|].
  rewrite forallb_forall in H. split.
  - apply split_forall, Forall_forall. intros w Hw%list_elem_of_In%H. destruct w as [|c w]; [done|].
    unfold is_label in Hw. bools. simpl. unfold label_char at 1. rewrite H0. done.
  - destruct (split_on_cons "." host) as (w & ws & E). specialize (H w). rewrite E in H. specialize (H (or_introl eq_refl)).
    destruct w as [|c w]; [done|]. unfold is_label in H. bools. destruct host as [|a host]; [done|]. exists a, host.
    split; [done|]. simpl in E. destruct (decide (a = "."%char)); [done|].
    destruct (split_on_cons "." host) as (w' & ws' & E'). rewrite E' in E. by injection E as -> _ _.
Qed.

Lemma no_scheme s : str_forallb (not_char "/") s = true -> str_includes "://" s = false.
Proof.
  assert (Hp : forall s, str_forallb (not_char "/") s = true -> String.prefix "://" s = false).
  { intros [|a [|b s']] H; [done|simpl; by case_match|]. simpl in H. bools.
    assert (b <> "/"%char) by (unfold not_char in *; by bools).
    cbn [String.prefix]. destruct (ascii_dec ":" a); [|done]. by destruct (ascii_dec "/" b). }
  induction s as [|a s IH]; [done|]. intros H. cbn [str_includes]. rewrite (Hp _ H). simpl in H. bools. by apply IH.
Qed.

(** Text made of host characters passes the checks of [normalizeRegistryHost]. *)
Lemma host_text_passes s : s <> "" -> str_forallb host_char s = true ->
  js_trim s = s /\ str_truthy s = true /\ str_includes "://" s = false /\ has_char ["/"; "?"; "#"; "@"]%char s = false.
Proof.
  intros Hne Hs. split_and!.
  - apply trim_clean. eapply str_forallb_impl; [|exact Hs]. intros c Hc. by apply host_char_plain.
  - by apply str_truthy_spec.
  - apply no_scheme. eapply str_forallb_impl; [|exact Hs]. intros c Hc. by apply host_char_plain.
  - unfold has_char. apply negb_false_iff. eapply str_forallb_impl; [|exact Hs]. intros c Hc. by apply host_char_plain.
Qed.

Lemma checked_port_ok p : checked_port (Some p) = Return tt ->
  all_digits p = true /\ 1 <= port_number p <= 65535.
Proof.
  unfold checked_port. destruct (all_digits p); simpl; [|done].
  destruct (Z.ltb_spec (port_number p) 1); simpl; [done|]. by destruct (Z.ltb_spec 65535 (port_number p)).
Qed.

Lemma checked_port_pass p : all_digits p = true -> 1 <= port_number p <= 65535 -> checked_port (Some p) = Return tt.
Proof.
  intros Hd Hr. unfold checked_port. rewrite Hd, (proj2 (Z.ltb_ge _ _)) by lia.
  by rewrite (proj2 (Z.ltb_ge 65535 _)) by lia.
Qed.

Lemma digits_chars p : all_digits p = true ->
  str_truthy p = true /\ str_forallb host_char p = true /\ str_forallb (not_char ":") p = true /\ str_forallb (not_char "]") p = true.
Proof.
  intros [Ht Hp]%andb_true_iff. split; [done|].
  split_and!; (eapply str_forallb_impl; [|exact Hp]); intros c Hc; by apply digit_char_plain.
Qed.

(** A host as it is stored, with its port. *)
Inductive canonical_host : string -> Prop :=
| canonical_name host : valid_host host = true -> toLowerCase host = host -> canonical_host host
| canonical_name_port host port : valid_host host = true -> toLowerCase host = host ->
    all_digits port = true -> 1 <= port_number port <= 65535 -> canonical_host (host +:+ ":" +:+ port)
| canonical_address_port address port : address <> "" -> str_forallb is_hex_colon address = true ->
    toLowerCase address = address -> all_digits port = true -> 1 <= port_number port <= 65535 ->
    canonical_host ("[" +:+ address +:+ "]:" +:+ port).

Lemma bracketed_spec input host port : bracketed_host input = Some (host, port) ->
  exists address, host = "[" +:+ address +:+ "]" /\ address <> "" /\ str_forallb is_hex_colon address = true
  /\ all_digits port = true.
Proof.
  unfold bracketed_host. intros H. repeat (case_match; try done). simplify_eq. bools.
  eexists. split; [reflexivity|]. split_and!; [by apply str_truthy_spec|done|done].
Qed.

Lemma bracketed_none s : str_forallb (not_char "]") s = true -> bracketed_host s = None.
Proof. intros Hs. unfold bracketed_host. rewrite (split_on_clean "]" s Hs). by repeat case_match. Qed.

Lemma lower_app s t : toLowerCase (s +:+ t) = toLowerCase s +:+ toLowerCase t.
Proof. unfold toLowerCase. induction s as [|c s IH]; simpl; [done|]. by rewrite IH. Qed.

Lemma str_app_nil s : s +:+ "" = s.
Proof. induction s as [|c s IH]; [done|]. change (String c (s +:+ "") = String c s). by rewrite IH. Qed.

(** What [normalizeRegistryHost] returns is canonical, ... *)
Lemma normalize_canonical value h : normalizeRegistryHost value = Return h -> canonical_host h.
Proof.
  unfold normalizeRegistryHost. set (input := js_trim value).
  destruct (negb (str_truthy input)); [done|]. destruct (str_includes "://" input); [done|].
  destruct (has_char _ input); [done|]. destruct (bracketed_host input) as [[host port]|] eqn:Eb.
  - apply bracketed_spec in Eb as (address & -> & Hne & Hhex & Hdig).
    destruct (checked_port (Some port)) as [[]|] eqn:Ep; [|done]. apply checked_port_ok in Ep as [_ Hport].
    intros [= <-]. rewrite !lower_app. unfold with_port. rewrite (proj1 (digits_chars port Hdig)).
    rewrite !str_app_assoc.
    change (canonical_host ("[" +:+ toLowerCase address +:+ "]:" +:+ port)).
    constructor; [by destruct address| |apply lower_idem|done|done].
    unfold toLowerCase. rewrite str_forallb_map. eapply str_forallb_impl; [|exact Hhex]. intros c Hc. by apply hex_char_plain.
  - destruct (starts_with "[" input); [done|]. destruct (split_on ":" input) as [|host [|port [|]]]; try done.
    + destruct (valid_host host) eqn:Ev; [|done]. intros [= <-]. unfold with_port. rewrite str_app_nil.
      constructor; [by apply valid_host_lower|apply lower_idem].
    + destruct (valid_host host) eqn:Ev; [|done].
      destruct (checked_port (Some port)) as [[]|] eqn:Ep; [|done]. apply checked_port_ok in Ep as [Hdig Hport].
      intros [= <-]. unfold with_port. rewrite (proj1 (digits_chars port Hdig)).
      by constructor; [apply valid_host_lower|apply lower_idem| |].
Qed.

Lemma host_chars host : valid_host host = true -> toLowerCase host = host ->
  host <> "" /\ str_forallb host_char host = true /\ str_forallb (not_char ":") host = true
  /\ str_forallb (not_char "]") host = true /\ starts_with "[" host = false.
Proof.
  intros Hv Hl. destruct (valid_host_chars host Hv) as [Hc (c & s & -> & Ha)]. split; [done|].
  assert (H : forall a, label_char a || bool_decide (a = "."%char) = true ->
    host_char a = true /\ not_char ":" a = true /\ not_char "]" a = true) by each_char.
  split_and!; try (eapply str_forallb_impl; [|exact Hc]; intros a Ha'; by apply H).
  unfold starts_with. cbn [String.prefix]. destruct (ascii_dec "[" c); [subst c; by vm_compute in Ha|done].
Qed.

Lemma canonical_chars h : canonical_host h -> h <> "" /\ str_forallb host_char h = true.
Proof.
  intros [host Hv Hl|host port Hv Hl Hd Hr|address port Hne Hhex Hl Hd Hr].
  - by destruct (host_chars host Hv Hl) as (? & ? & _).
  - destruct (host_chars host Hv Hl) as (Hne & Hc & _). split; [by destruct host|].
    rewrite !str_forallb_app, Hc. by destruct (digits_chars port Hd) as (_ & -> & _).
  - split; [done|]. assert (Ha : str_forallb host_char address = true).
    { rewrite <- Hl. unfold toLowerCase. rewrite str_forallb_map. eapply str_forallb_impl; [|exact Hhex].
      intros c Hc. by apply hex_char_plain. }
    rewrite !str_forallb_app, Ha. by destruct (digits_chars port Hd) as (_ & -> & _).
Qed.

(** ... and canonical hosts are kept as they are. *)
Lemma canonical_normalize h : canonical_host h -> normalizeRegistryHost h = Return h.
Proof.
  intros H. pose proof (canonical_chars h H) as Hp.
  destruct (host_text_passes h (proj1 Hp) (proj2 Hp)) as (Ht & Htr & Hs & Hh).
  unfold normalizeRegistryHost. rewrite Ht, Htr, Hs, Hh. cbn [negb]. clear Ht Htr Hs Hh Hp.
  destruct H as [host Hv Hl|host port Hv Hl Hd Hr|address port Hne Hhex Hl Hd Hr].
  - destruct (host_chars host Hv Hl) as (_ & _ & Hcol & Hbr & Hst). rewrite (bracketed_none host Hbr).
    rewrite Hst, (split_on_clean ":" _ Hcol), Hv, Hl. unfold with_port. by rewrite str_app_nil.
  - destruct (host_chars host Hv Hl) as (Hne & _ & Hcol & Hbr & Hst).
    destruct (digits_chars port Hd) as (Hpt & _ & Hpc & Hpb).
    assert (Hall : str_forallb (not_char "]") (host +:+ ":" +:+ port) = true)
      by (rewrite !str_forallb_app, Hbr, Hpb; done).
    rewrite (bracketed_none _ Hall).
    assert (Hst' : starts_with "[" (host +:+ ":" +:+ port) = false).
    { destruct host as [|a host]; [done|]. unfold starts_with in *.
      change (String.prefix "[" (String a (host +:+ ":" +:+ port)) = false). cbn [String.prefix] in *.
      destruct (ascii_dec "[" a); [by destruct host|done]. }
    assert (Hsp : split_on ":" (host +:+ ":" +:+ port) = [host; port])
      by (change (":" +:+ port) with (String ":" port); by rewrite (split_on_app ":" host port Hcol), split_on_clean).
    rewrite Hst', Hsp, Hv, Hl.
    rewrite (checked_port_pass port Hd Hr). unfold mbind, with_port. simpl. by rewrite Hpt.
  - destruct (digits_chars port Hd) as (Hpt & _ & _ & Hpb).
    assert (Hab : str_forallb (not_char "]") (String "[" address) = true).
    { simpl. rewrite <- Hl. unfold toLowerCase. rewrite str_forallb_map. eapply str_forallb_impl; [|exact Hhex].
      intros c Hc. by apply hex_char_plain. }
    assert (Hsp : split_on "]" ("[" +:+ address +:+ "]:" +:+ port) = [String "[" address; String ":" port]).
    { change ("[" +:+ address +:+ "]:" +:+ port) with (String "[" address +:+ String "]" (String ":" port)).
      rewrite (split_on_app "]" _ _ Hab), (split_on_clean "]" (String ":" port)); [done|]. simpl. by rewrite Hpb. }
    unfold bracketed_host. rewrite Hsp, Hhex, Hd, (proj2 (str_truthy_spec address) Hne). cbn [andb].
    rewrite (checked_port_pass port Hd Hr).
    change (Return (with_port (toLowerCase ("[" +:+ address +:+ "]")) (Some port)) = Return ("[" +:+ address +:+ "]:" +:+ port)).
    unfold with_port. by rewrite Hpt, !lower_app, Hl, !str_app_assoc.
Qed.

(** Normalising a registry host gives its canonical form.  A result is a lower-case
    host name or a bracketed address, with a port between 1 and 65535 when there
    is one (an address always has one); such texts, and no others, are left as
    they are, so normalising twice is the same as once. *)
Theorem registry_host_canonical :
  (forall value h, normalizeRegistryHost value = Return h -> canonical_host h)
  /\ forall h, canonical_host h <-> normalizeRegistryHost h = Return h.
Proof.
  split; [apply normalize_canonical|]. intros h. split; [apply canonical_normalize|apply normalize_canonical].
Qed.

Lemma canonical_no_slash h : canonical_host h -> str_forallb (not_char "/") h = true.
Proof.
  intros H. apply (str_forallb_impl host_char); [intros c Hc; by apply host_char_plain|]. by apply canonical_chars.
Qed.

(** An image that is resolved against a registry names that registry: its first
    component normalises to the registry's host, whether the image named it
    itself or the host was put in front. *)
Theorem image_names_registry registry image r : resolveRegistryImage registry image = Return r ->
  exists host, normalizeRegistryHost registry = Return host /\ normalizeRegistryHost (first_component r) = Return host.
Proof.
  unfold resolveRegistryImage. destruct (normalizeRegistryHost registry) as [host|] eqn:Eh; [|done].
  unfold mbind. simpl. intros H. exists host. split; [done|].
  set (repository := strip_slashes (js_trim image)) in *.
  destruct (negb (str_truthy repository)); [done|]. destruct (str_includes "://" repository); [done|].
  destruct (negb (hasExplicitRegistry repository)).
  - injection H as <-. pose proof (normalize_canonical _ _ Eh) as Hc. unfold first_component.
    change (host +:+ "/" +:+ repository) with (host +:+ String "/" repository).
    rewrite (split_on_app "/" host repository (canonical_no_slash host Hc)). by apply canonical_normalize.
  - destruct (normalizeRegistryHost (first_component repository)) as [imageHost|] eqn:Ei; [|done].
    simpl in H. case_bool_decide; [|done]. by simplify_eq.
Qed.

(** A host of one label is accepted, but an image on it does not count as naming a
    registry, neither here nor in Docker, so resolving it again puts the host in
    front once more. *)
Example single_label_host :
  resolveRegistryImage "registry" "team/app" = Return "registry/team/app"
  /\ hasExplicitRegistry "registry/team/app" = false
  /\ resolveRegistryImage "registry" "registry/team/app" = Return "registry/registry/team/app".
Proof. by vm_compute. Qed.

(** ** The form *)
Lemma trim_end_idem s : trim_end (trim_end s) = trim_end s.
Proof.
  induction s as [|c s IH]; [done|]. simpl. destruct (trim_end s) as [|c' t] eqn:E.
  - destruct (is_ws c) eqn:Ew; [done|]. simpl. by rewrite Ew.
  - change (trim_end (String c (String c' t))) with
      (match trim_end (String c' t) with EmptyString => if is_ws c then EmptyString else String c EmptyString
       | t' => String c t' end). by rewrite IH.
Qed.

Lemma js_trim_idem s : js_trim (js_trim s) = js_trim s.
Proof.
  unfold js_trim. assert (H : trim_start (trim_end (trim_start s)) = trim_end (trim_start s)); [|by rewrite H, trim_end_idem].
  assert (Hs : forall t, match t with EmptyString => True | String c _ => is_ws c = false end -> trim_start (trim_end t) = trim_end t).
  { intros [|c t] Hc; [done|]. simpl. rewrite Hc. destruct (trim_end t); simpl; by rewrite Hc. }
  apply Hs. induction s as [|c s IH]; [done|]. simpl. destruct (is_ws c) eqn:E; [done|]. by rewrite E.
Qed.

(** The settings a form can hold: the host is canonical, and exactly the credentials
    of the kind of authentication are there. *)
Definition complete_config (c : RegistryRuntimeConfig) : Prop :=
  canonical_host (rr_url c)
  /\ match rr_auth_type c with
     | AuthNone => rr_username c = None /\ rr_password c = None /\ rr_token c = None
     | AuthBasic => exists u p, rr_username c = Some u /\ u <> "" /\ rr_password c = Some p /\ p <> "" /\ rr_token c = None
     | AuthToken => exists t, rr_token c = Some t /\ t <> "" /\ rr_username c = None /\ rr_password c = None
     end.

(** A registry form that passes its validation is saved, with a canonical host and
    exactly the credentials its kind of authentication needs; and whatever was
    saved reopens as a form that saves the same settings again. *)
Theorem registry_form_roundtrip value :
  (validateRegistryForm value = None -> exists saved, registryConfigFromForm value = Return saved
     /\ (is_Some saved <-> rf_enabled value = true) /\ forall c, saved = Some c -> complete_config c)
  /\ forall saved, registryConfigFromForm value = Return saved ->
       registryConfigFromForm (registryFormFromConfig saved) = Return saved.
Proof.
  unfold validateRegistryForm, registryConfigFromForm, complete_config.
  destruct (rf_enabled value) eqn:Ee; simpl; [|split; [|by intros saved [= <-]]].
  2: { intros _. exists None. split; [done|]. split; [|done]. split; [by intros []|done]. }
  destruct (normalizeRegistryHost (rf_url value)) as [url|e] eqn:En; [|by split].
  pose proof (normalize_canonical _ _ En) as Hc. pose proof (canonical_normalize _ Hc) as Hurl. split.
  - destruct (rf_auth_type value); simpl; intros Hv.
    + eexists. split; [done|]. split; [by split; eauto|]. intros c [= <-]. by split_and!.
    + destruct (str_truthy (js_trim (rf_username value))) eqn:Eu; [|done].
      destruct (str_truthy (rf_password value)) eqn:Ep; [|done]. apply str_truthy_spec in Eu, Ep.
      eexists. split; [done|]. split; [by split; eauto|]. intros c [= <-]. split; [done|]. by eexists _, _.
    + destruct (str_truthy (rf_token value)) eqn:Et; [|done]. apply str_truthy_spec in Et.
      eexists. split; [done|]. split; [by split; eauto|]. intros c [= <-]. split; [done|]. by eexists _.
  - intros saved. destruct (rf_auth_type value); simpl; intros [= <-]; simpl; rewrite Hurl; simpl; [done| |done].
    by rewrite js_trim_idem.
Qed.

(** ** The credentials *)
Inductive SecretOp :=
| SetSecret (workflowId nodeId : string) (config : RegistryRuntimeConfig)
| ClearSecret (workflowId nodeId : string)
| ClearWorkflow (workflowId : string)
| ClearAll.

Definition secret_step (secrets : Secrets) (op : SecretOp) : Secrets :=
  match op with
  | SetSecret w n c => setSecret w n c secrets
  | ClearSecret w n => clearSecret w n secrets
  | ClearWorkflow w => clearWorkflow w secrets
  | ClearAll => clearAll secrets
  end.

(** The specification: a map from a workflow's service to its credentials. *)
Definition spec_step (get : string -> string -> option RegistryRuntimeConfig) (op : SecretOp) (w n : string)
    : option RegistryRuntimeConfig :=
  match op with
  | SetSecret w' n' c => if decide (w' = w /\ n' = n) then Some c else get w n
  | ClearSecret w' n' => if decide (w' = w /\ n' = n) then None else get w n
  | ClearWorkflow w' => if decide (w' = w) then None else get w n
  | ClearAll => None
  end.

(** No workflow is kept without a credential. *)
Definition secrets_wf (secrets : Secrets) : Prop :=
  jmap_wf secrets /\ forall w s, secrets !! w = Some s -> jmap_wf s /\ s <> ∅.

Lemma secrets_of_wf secrets w : secrets_wf secrets -> jmap_wf (default ∅ (secrets !! w)).
Proof. intros [_ H]. destruct (secrets !! w) as [s|] eqn:E; simpl; [by apply (H w)|apply jmap_wf_empty]. Qed.

Lemma secret_step_wf secrets op : secrets_wf secrets -> secrets_wf (secret_step secrets op).
Proof.
  intros Hwf. destruct Hwf as [Hwf Hs]. pose proof (fun w => secrets_of_wf secrets w (conj Hwf Hs)) as Hd.
  destruct op as [w n c|w n|w|]; simpl.
  - split; [by apply jmap_wf_insert|]. intros w' s. unfold setSecret. rewrite jlookup_insert. case_decide; [|apply Hs].
    intros [= <-]. split; [by apply jmap_wf_insert|]. intros E.
    assert (Hl : (<[n := c]> (default ∅ (secrets !! w)) : jmap string RegistryRuntimeConfig) !! n = Some c)
      by apply jlookup_insert_eq. by rewrite E in Hl.
  - unfold clearSecret. set (s' := delete n _). destruct (length (jkeys s') =? 0)%nat eqn:El.
    + split; [by apply jmap_wf_delete|]. intros w' s. rewrite jlookup_delete by done. case_decide; [done|apply Hs].
    + split; [by apply jmap_wf_insert|]. intros w' s. rewrite jlookup_insert. case_decide; [|apply Hs].
      intros [= <-]. split; [by apply jmap_wf_delete|]. intros E. by rewrite E in El.
  - split; [by apply jmap_wf_delete|]. intros w' s. unfold clearWorkflow. rewrite jlookup_delete by done.
    case_decide; [done|apply Hs].
  - split; [apply jmap_wf_empty|done].
Qed.

Lemma secret_step_spec secrets op w n : secrets_wf secrets ->
  getSecret w n (secret_step secrets op) = spec_step (fun w n => getSecret w n secrets) op w n.
Proof.
  intros Hw. pose proof (fun w => secrets_of_wf secrets w Hw) as Hd. destruct Hw as [Hwf Hs].
  destruct op as [w' n' c|w' n'|w'|]; simpl; unfold getSecret.
  - unfold setSecret. rewrite jlookup_insert. destruct (decide (w' = w)) as [->|Hne].
    + simpl. rewrite jlookup_insert. destruct (decide (n' = n)) as [->|Hn].
      * by rewrite decide_True.
      * rewrite decide_False by tauto. by destruct (secrets !! w).
    + by rewrite decide_False by tauto.
  - unfold clearSecret. set (s' := delete n' _).
    assert (Hs' : s' !! n = if decide (n' = n) then None else default ∅ (secrets !! w') !! n)
      by (apply jlookup_delete, Hd).
    destruct (decide (w' = w)) as [->|Hne].
    + replace ((if (length (jkeys s') =? 0)%nat then delete w secrets else <[w := s']> secrets) !! w
               ≫= (fun s : jmap string RegistryRuntimeConfig => s !! n)) with (s' !! n).
      2: { destruct (length (jkeys s') =? 0)%nat eqn:El.
           - rewrite jlookup_delete, decide_True by done. apply Nat.eqb_eq, length_zero_iff_nil in El.
             destruct s' as [l]. destruct l; done.
           - by rewrite jlookup_insert_eq. }
      rewrite Hs'. destruct (decide (n' = n)) as [->|Hn]; [by rewrite decide_True|].
      rewrite decide_False by tauto. by destruct (secrets !! w).
    + rewrite (decide_False (P := w' = w /\ n' = n)) by tauto.
      destruct (length (jkeys s') =? 0)%nat; [rewrite jlookup_delete by done|rewrite jlookup_insert];
        by rewrite decide_False.
  - unfold clearWorkflow. rewrite jlookup_delete by done. by case_decide.
  - done.
Qed.

(** The store of registry credentials refines a map from the services of workflows
    to credentials: after any sequence of operations every lookup is that of the
    map, and no workflow keeps an empty entry. *)
Theorem secret_store_refines ops :
  let secrets := fold_left secret_step ops ∅ in
  secrets_wf secrets
  /\ forall w n, getSecret w n secrets = fold_left spec_step ops (fun _ _ => None) w n.
Proof.
  cbn zeta. induction ops as [|op ops IH] using rev_ind; [split; [split; [apply jmap_wf_empty|done]|done]|].
  destruct IH as [Hwf Hget]. rewrite !fold_left_app. simpl. split; [by apply secret_step_wf|].
  intros w n. rewrite secret_step_spec by done. unfold spec_step. destruct op; by rewrite ?Hget.
Qed.

(** ** Witnesses *)
Lemma image_names_registry_witness : exists host,
  normalizeRegistryHost "GHCR.io" = Return host
  /\ normalizeRegistryHost (first_component "ghcr.io/team/app:1") = Return host.
Proof. apply (image_names_registry "GHCR.io" " /team/app:1"). vm_compute. reflexivity. Defined.
