(* ===== verification/ServerPages.v ===== *)
(** * The pages that the server renders and the forms on them

    [SitePages] has what the layouts and pages of [ui-v2/src/app] decide and read before
    they are rendered: whom they send away, and the rows, buttons and hidden fields they
    show.  [AdminForms] has the schemas of [modules/admin/forms.ts], the resolver between
    them and the form library, and what the forms of [modules/admin/components] submit.
    [PageFacts] shows that pages and server actions agree.

    The reads that a page starts together are written one after the other; none of them
    writes.  The string checks of zod that the schemas use are written out,
    but for that of an e-mail address, which is a parameter. *)

From S2P Require Import Prelude FlowTypes JsLib Process ServerInput Database Projects ProjectFacts Accounts AccountFacts RegistryFacts.
Open Scope Z_scope.

Module SitePages.
(** A query parameter given once or several times. *)
Inductive SearchParam := OneParam (text : string) | ManyParams (texts : list string).

Record AppShell := MkShell { sh_user : AuthUser; sh_projects : list ProjectMembership }.
Record LoginParams := MkLoginParams { lp_redirectTo : option SearchParam; lp_email : option SearchParam; lp_setup : option SearchParam }.
Record LoginView := MkLoginView { lv_redirectTo : string; lv_email : option string; lv_setupMessage : option string }.
Record MembersView := MkMembersView {
  mv_project : ProjectSummary; mv_members : list ProjectMemberUser; mv_availableUsers : list ProjectMemberUser
}.
Record ProjectDetail := MkDetail {
  pd_project : ProjectMembership; pd_members : list ProjectMemberUser; pd_availableUsers : list ProjectMemberUser
}.

Section Pages.
Context `{E : Engine} (localeCompare : string -> string -> Z).

Definition redirect {A} (path : string) : Proc Db A := throw (JsRedirect path).

Definition ProtectedAppLayout (session : Session) (now : Date) (uuid : string) : Proc Db AppShell :=
  setupComplete ← isSetupComplete;
  if negb setupComplete then redirect "/setup"
  else
    match session_user session with
    | None => redirect "/login?redirectTo=/workflow"
    | Some (id, _) =>
        sessionUser ← getUserById id;
        match sessionUser with
        | None => redirect "/login"
        | Some u =>
            ensurePersonalProject (au_id u) now uuid;;
            projects ← listProjectsForUser localeCompare (au_id u) (Some (au_role u));
            mret (MkShell u projects)
        end
    end.

Definition AdminLayout (session : Session) : Proc Db unit := lift (requireAdminSession session);; mret tt.

Definition LoginPage (session : Session) (params : LoginParams) : Proc Db LoginView :=
  setupComplete ← isSetupComplete;
  if negb setupComplete then redirect "/setup"
  else match session_user session with
  | Some _ => redirect "/workflow"
  | None =>
    mret (MkLoginView
      (match lp_redirectTo params with Some (OneParam s) => if starts_with "/" s then s else "/workflow" | _ => "/workflow" end)
      (match lp_email params with Some (OneParam s) => Some s | _ => None end)
      (match lp_setup params with
       | Some (OneParam s) => if decide (s = "success") then Some "Admin account created. Sign in to continue." else None
       | _ => None
       end))
  end.

Definition SetupPage (session : Session) : Proc Db unit :=
  setupComplete ← isSetupComplete;
  if (setupComplete : bool) then redirect (match session_user session with Some _ => "/workflow" | None => "/login" end)
  else mret tt.

Definition TeamMembersPage (session : Session) (projectId : string) : Proc Db MembersView :=
  match session_user session with
  | None => redirect "/login"
  | Some (id, u) =>
      canManage ← userHasProjectPermission localeCompare id projectId Manage (su_role u);
      project ← getProject projectId;
      match project with
      | Some p =>
          if negb canManage || negb (bool_decide (ps_kind p = Team)) then redirect "/workflow"
          else
            members ← listProjectMembers localeCompare projectId;
            availableUsers ← listUnassignedUsersForProject localeCompare projectId;
            mret (MkMembersView p members availableUsers)
      | None => redirect "/workflow"
      end
  end.

Definition ownerCount (members : list ProjectMemberUser) : nat := length (owners members).

(** Both buttons of a member and the choice of the role are disabled. *)
Definition isFinalOwner (members : list ProjectMemberUser) (member : ProjectMemberUser) : bool :=
  bool_decide (mu_projectRole member = Some Owner) && bool_decide (ownerCount members = 1%nat).

(** [member.name || member.email] *)
Definition member_label (name : option string) (email : string) : string := ostr_or name email.

Definition role_option (role : ProjectRole) : string :=
  match role with Owner => "owner" | Editor => "editor" | Runner => "runner" end.

(** The forms of the page. *)
Definition role_form (projectId : string) (member : ProjectMemberUser) (role : ProjectRole) : FormData :=
  [("projectId", FText projectId); ("userId", FText (mu_id member)); ("projectRole", FText (role_option role))].
Definition remove_form (projectId : string) (member : ProjectMemberUser) : FormData :=
  [("projectId", FText projectId); ("userId", FText (mu_id member))].
Definition add_form (projectId : string) (checked : list ProjectMemberUser) : FormData :=
  ("projectId", FText projectId) :: map (fun user => ("userIds", FText (mu_id user))) checked.

Definition AdminUsersPage : Proc Db (list (AuthUser * Date * Date)) := getAllUsers localeCompare.

Definition toggle_form (user : AuthUser) : FormData :=
  [("userId", FText (au_id user)); ("nextState", FText (if au_isActive user then "inactive" else "active"))].

Fixpoint project_details (projects : list ProjectMembership) : Proc Db (list ProjectDetail) :=
  match projects with
  | [] => mret []
  | project :: rest =>
      members ← listProjectMembers localeCompare (ps_id (pm_summary project));
      availableUsers ← listUnassignedUsersForProject localeCompare (ps_id (pm_summary project));
      details ← project_details rest;
      mret (MkDetail project members availableUsers :: details)
  end.

Definition AdminProjectsPage : Proc Db (list (AuthUser * Date * Date) * list ProjectDetail) :=
  users ← getAllUsers localeCompare;
  all ← listProjectsForUser localeCompare "admin" (Some "admin");
  details ← project_details (filter (fun project => ps_kind (pm_summary project) = Team) all);
  mret (users, details).
End Pages.
End SitePages.

Module AdminForms.
Record CreateUserFormValues := MkUserValues { uf_name : string; uf_email : string; uf_password : string; uf_role : string }.
Record AddMembersFormValues := MkMembersValues { mf_projectId : string; mf_userIds : list string }.

(** An issue of [safeParse]: the first step of its path and its message. *)
Definition Issue : Type := string * string.

(** The checks of one field that fail, in order. *)
Definition failing (key : string) (checks : list (bool * string)) : list Issue :=
  omap (fun c => if (c.1 : bool) then None else Some (key, c.2)) checks.

Definition len (s : string) : Z := Z.of_nat (String.length s).

Section Schemas.
Context (zod_email : string -> bool).

Definition parsed {A} (value : A) (issues : list Issue) : A + list Issue :=
  match issues with [] => inl value | _ => inr issues end.

Definition createUserSchema (values : CreateUserFormValues) : CreateUserFormValues + list Issue :=
  let name := js_trim (uf_name values) in
  let email := js_trim (uf_email values) in
  parsed (MkUserValues name email (uf_password values) (uf_role values))
    (failing "name" [(1 <=? len name, "Display name is required."); (len name <=? 100, "Display name must be 100 characters or less.")]
     ++ failing "email" [(1 <=? len email, "Email is required."); (zod_email email, "Enter a valid email address.")]
     ++ failing "password" [(8 <=? len (uf_password values), "Password must be at least 8 characters.");
                            (len (uf_password values) <=? 128, "Password must be 128 characters or less.")]
     ++ failing "role" [(bool_decide (uf_role values ∈ ["normal"; "admin"]), "Select a valid role.")]).

Definition createProjectSchema (name : string) : string + list Issue :=
  parsed (js_trim name)
    (failing "name" [(1 <=? len (js_trim name), "Project name is required.");
                     (len (js_trim name) <=? 120, "Project name must be 120 characters or less.")]).

(** The message of an empty user id is zod's own. *)
Definition addProjectMembersSchema (too_small : string) (values : AddMembersFormValues) : AddMembersFormValues + list Issue :=
  parsed values
    (failing "projectId" [(1 <=? len (mf_projectId values), "Project is required.")]
     ++ failing "userIds" (map (fun userId => (1 <=? len userId, too_small)) (mf_userIds values))
     ++ failing "userIds" [((1 <=? length (mf_userIds values))%nat, "Select at least one user.")]).

Definition first_message (errors : jmap string string) (issue : Issue) : jmap string string :=
  if ostr_truthy (errors !! issue.1) then errors else <[issue.1 := issue.2]> errors.

(** What the form library gets: the values, or one message per field. *)
Definition createZodResolver {A B} (schema : A -> B + list Issue) (values : A) : option B * jmap string string :=
  match schema values with
  | inl data => (Some data, ∅)
  | inr issues => (None, fold_left first_message issues ∅)
  end.
End Schemas.

(** What a form submits, for the values that its schema gave back. *)
Definition user_form_data (values : CreateUserFormValues) : FormData :=
  [("name", FText (uf_name values)); ("email", FText (uf_email values)); ("password", FText (uf_password values));
   ("role", FText (uf_role values))].
Definition project_form_data (name : string) : FormData := [("name", FText name)].
Definition members_form_data (values : AddMembersFormValues) : FormData :=
  ("projectId", FText (mf_projectId values)) :: map (fun userId => ("userIds", FText userId)) (mf_userIds values).

(** The check box of a user. *)
Definition onCheckedChange (nextChecked : bool) (userId : string) (selected : list string) : list string :=
  if nextChecked then selected ++ [userId] else filter (fun selectedId => selectedId <> userId) selected.
End AdminForms.

Module PageFacts.
Import SitePages AdminForms.

Lemma admin_passes session : is_admin session = true -> exists x, requireAdminSession session = Return x.
Proof.
  unfold is_admin, requireAdminSession, requireSession. destruct (session_user session) as [[id su]|]; [|done].
  intros Ha. bools. cbn. rewrite decide_True by done. by eexists.
Qed.

Lemma lower_truthy s : s <> "" -> str_truthy (toLowerCase s) = true.
Proof. by destruct s. Qed.

Section Facts.
Context `{E : Engine} (connection_type : DatabaseType) (localeCompare : string -> string -> Z).
Implicit Types d : Db.

Lemma run_getProject projectId d : intact d -> run (getProject projectId) d
  = (Return (mapProject <$> List.find (fun p => bool_decide (p_id p = projectId)) (rows (projects d))), d).
Proof.
  intros Hd. unfold getProject. rewrite run_bind. simpl. f_equal. f_equal.
  destruct (List.find _ _) as [p|] eqn:Ef.
  - apply List.find_some in Ef as [Hp%list_elem_of_In Hid]. bools. subst projectId. by rewrite select_project_id.
  - assert (head (select (fun p => bool_decide (p_id p = projectId)) (projects d)) = None) as ->; [|done].
    apply head_select_project, not_true_iff_false. rewrite has_project_spec. intros (p & Hp & Hid).
    apply list_elem_of_In, (List.find_none _ _ Ef) in Hp. by bools.
Qed.

Lemma project_row projectId d : intact d ->
  (exists p, run (getProject projectId) d = (Return (Some (mapProject p)), d) /\ p ∈ rows (projects d) /\ p_id p = projectId)
  \/ (run (getProject projectId) d = (Return None, d) /\ has_project projectId d = false).
Proof.
  intros Hd. rewrite run_getProject by done. destruct (List.find _ _) as [p|] eqn:Ef.
  - apply List.find_some in Ef as [Hp%list_elem_of_In Hid]. bools. left. by exists p.
  - right. split; [done|]. apply not_true_iff_false. rewrite has_project_spec. intros (p & Hp & Hid).
    apply list_elem_of_In, (List.find_none _ _ Ef) in Hp. by bools.
Qed.

Lemma team_row p d : intact d -> p ∈ rows (projects d) -> team d (p_id p) <-> p_kind p = Team.
Proof.
  intros Hd Hp. split; [|intros; by exists p]. intros (q & Hq & Hid & Hk).
  by rewrite (key_unique p_id (rows (projects d)) p q) by (apply Hd || done).
Qed.

(** The users who are no members, each once. *)
Lemma run_unassigned projectId d l : intact d -> run (listProjectMembers localeCompare projectId) d = (Return l, d) ->
  exists l', run (listUnassignedUsersForProject localeCompare projectId) d = (Return l', d)
    /\ forall id, id ∈ map mu_id l' <-> has_user id d = true /\ id ∉ map mu_id l.
Proof.
  intros Hd Hl. unfold listUnassignedUsersForProject. rewrite run_bind, Hl. eexists. split; [done|].
  intros id. unfold by_email. rewrite js_sort_perm, map_map, list_elem_of_fmap, has_user_spec. split.
  - intros (u & -> & (Hn & Hu)%list_elem_of_filter). apply elem_of_select in Hu as [_ Hu]. simpl.
    split; [by exists u|]. unfold set_has in Hn. bools. by rewrite elem_of_set_of_list in Hn.
  - intros ((u & Hu & <-) & Hn). exists u. split; [done|]. apply list_elem_of_filter. split; [|by apply elem_of_select].
    unfold set_has. apply bool_decide_eq_false. by rewrite elem_of_set_of_list.
Qed.

(** Whom the page of the members shows: a manager of a team. *)
Definition manages (session : Session) (projectId : string) d : Prop :=
  exists id u, session_user session = Some (id, u) /\ may d id projectId Manage (su_role u) /\ team d projectId.

(** The page of a team is shown to its managers and to nobody else, it changes nothing,
    and every user is on it exactly once, as a member or as one who can be added. *)
Theorem members_page_shown session projectId d : intact d ->
  (manages session projectId d /\ exists v, run (TeamMembersPage localeCompare session projectId) d = (Return v, d)
     /\ ps_id (mv_project v) = projectId
     /\ run (listProjectMembers localeCompare projectId) d = (Return (mv_members v), d)
     /\ forall id, has_user id d = true ->
          (id ∈ map mu_id (mv_members v) <-> id ∉ map mu_id (mv_availableUsers v)))
  \/ (~ manages session projectId d
      /\ run (TeamMembersPage localeCompare session projectId) d
         = (Throw (JsRedirect (match session_user session with Some _ => "/workflow" | None => "/login" end)), d)).
Proof.
  intros Hd. unfold TeamMembersPage, manages. destruct (session_user session) as [[id u]|]; [|right; naive_solver].
  rewrite run_bind. destruct (permission_spec localeCompare id projectId Manage (su_role u) d Hd) as (b & -> & Hb).
  rewrite run_bind. destruct (project_row projectId d Hd) as [(p & -> & Hp & <-)|(-> & Hno)].
  - destruct (decide (b = true /\ p_kind p = Team)) as [[-> Hk]|Hn].
    + left. split; [exists id, u; split_and!; [done|by apply Hb|by apply team_row]|].
      cbn [ps_kind mapProject negb orb]. rewrite Hk, bool_decide_eq_true_2 by done. cbn [negb orb]. destruct (run_members localeCompare (p_id p) d Hd) as (l & Hl & _).
      rewrite run_bind, Hl, run_bind. destruct (run_unassigned (p_id p) d l Hd Hl) as (l' & -> & Hl').
      eexists. split; [done|]. split_and!; [done|done|]. intros x Hx. simpl. rewrite Hl'.
      destruct (decide (x ∈ map mu_id l)); naive_solver.
    + right. split.
      * intros (? & ? & [= <- <-] & Hm & Ht). apply Hn. split; [by apply Hb|by eapply team_row].
      * simpl. destruct b; simpl; [|done]. rewrite bool_decide_eq_false_2 by naive_solver. done.
  - right. split; [|done]. intros (? & ? & _ & _ & (p & Hp & Hid & _)).
    apply not_true_iff_false in Hno. apply Hno, has_project_spec. eauto.
Qed.

(** ** The buttons of the members *)
Lemma find_member_in l m : NoDup (map mu_id l) -> m ∈ l -> find_member (mu_id m) l = Some m.
Proof.
  intros Hn Hm. unfold find_member. destruct (List.find _ l) as [y|] eqn:Ey.
  - apply List.find_some in Ey as [Hy%list_elem_of_In Hid]. bools. f_equal. by apply (key_unique mu_id l).
  - apply list_elem_of_In, (List.find_none _ _ Ey) in Hm. by bools.
Qed.

(** The page disables what the service refuses. *)
Lemma final_owner_shown l m : NoDup (map mu_id l) -> m ∈ l -> final_owner (mu_id m) l = isFinalOwner l m.
Proof.
  intros Hn Hm. unfold final_owner, isFinalOwner, ownerCount. rewrite find_member_in by done. cbn [mbind option_bind].
  destruct (decide (mu_projectRole m = Some Owner)) as [Ho|Ho]; [|by rewrite !(bool_decide_eq_false_2 (mu_projectRole m = Some Owner)) by done].
  rewrite !(bool_decide_eq_true_2 (mu_projectRole m = Some Owner)) by done. cbn [andb].
  assert (m ∈ owners l) as Hin by (by apply list_elem_of_filter).
  destruct (owners l) as [|a [|b ol]]; [by apply elem_of_nil in Hin|done|].
  rewrite bool_decide_eq_false_2 by done. apply Z.leb_gt. simpl. lia.
Qed.

Lemma manager_passes session projectId d : intact d -> manages session projectId d ->
  run (requireMemberManager localeCompare session projectId) d = (Return tt, d).
Proof.
  intros Hd (id & u & Hs & Hm & _). unfold requireMemberManager. rewrite Hs, run_bind.
  destruct (permission_spec localeCompare id projectId Manage (su_role u) d Hd) as (b & -> & Hb).
  by rewrite (proj2 Hb Hm).
Qed.

Lemma team_members_of projectId d l : intact d -> team d projectId ->
  run (listProjectMembers localeCompare projectId) d = (Return l, d) ->
  run (team_members localeCompare projectId) d = (Return l, d).
Proof.
  intros Hd Ht Hl. unfold team_members. rewrite run_bind.
  destruct (project_row projectId d Hd) as [(p & -> & Hp & <-)|(_ & Hno)].
  - cbn [ps_kind mapProject]. rewrite (proj1 (team_row p d Hd Hp) Ht). by rewrite decide_False.
  - destruct Ht as (p & Hp & Hid & _). apply not_true_iff_false in Hno. destruct Hno. apply has_project_spec. eauto.
Qed.

Definition with_role (role : ProjectRole) (m : ProjectMemberUser) : ProjectMemberUser :=
  MkMemberUser (mu_id m) (mu_email m) (mu_name m) (mu_role m) (Some role) (mu_isActive m).

(** The members after one of them was removed, or got another role. *)
Lemma members_after_removal projectId userId d l : intact d -> run (listProjectMembers localeCompare projectId) d = (Return l, d) ->
  let d' := on_members (delete_rows (is_membership projectId userId)) d in
  exists l', run (listProjectMembers localeCompare projectId) d' = (Return l', d')
    /\ forall x, x ∈ l' <-> x ∈ l /\ mu_id x <> userId.
Proof.
  intros Hd Hl d'. destruct (run_members localeCompare projectId d Hd) as (l0 & Hl0 & _ & Hx). rewrite Hl in Hl0. injection Hl0 as <-.
  destruct (run_members localeCompare projectId d' (delete_members_intact _ d Hd)) as (l' & Hl' & _ & Hx').
  exists l'. split; [done|]. intros x. rewrite Hx, Hx'. cbn [projectMembers on_members users d'].
  setoid_rewrite elem_of_delete_rows. unfold is_membership. split.
  - intros (m & u & (Hm & Hf) & Hu & Hk & ->). injection Hk as Hk1 Hk2. split; [exists m, u; by split_and!; try (unfold m_key; congruence)|].
    intros He. cbn in He. rewrite !bool_decide_eq_true_2 in Hf by congruence. done.
  - intros ((m & u & Hm & Hu & Hk & ->) & Hne). cbn in Hne. injection Hk as Hk1 Hk2. exists m, u. split_and!; [done| |done|unfold m_key; congruence|done].
    apply andb_false_iff. right. apply bool_decide_eq_false. congruence.
Qed.

Lemma members_after_role projectId userId role d l : intact d -> run (listProjectMembers localeCompare projectId) d = (Return l, d) ->
  let d' := on_members (update_rows (is_membership projectId userId) (set_role role)) d in
  exists l', run (listProjectMembers localeCompare projectId) d' = (Return l', d')
    /\ forall x, x ∈ l' <-> exists y, y ∈ l /\ x = if decide (mu_id y = userId) then with_role role y else y.
Proof.
  intros Hd Hl d'. destruct (run_members localeCompare projectId d Hd) as (l0 & Hl0 & _ & Hx). rewrite Hl in Hl0. injection Hl0 as <-.
  destruct (run_members localeCompare projectId d' (update_members_intact _ role d Hd)) as (l' & Hl' & _ & Hx').
  exists l'. split; [done|]. intros x. rewrite Hx'. setoid_rewrite Hx. cbn [projectMembers on_members users d'].
  setoid_rewrite elem_of_update_rows. unfold is_membership. split.
  - intros (m & u & (m0 & Hm0 & ->) & Hu & Hk & ->).
    assert (Hk0 : m_key m0 = (projectId, u_id u)) by (by destruct (_ && _)). injection Hk0 as Hk1 Hk2.
    exists (member_user (m0, u)). split; [exists m0, u; split_and!; [done..|unfold m_key; congruence|done]|].
    cbn [mu_id member_user fst snd]. rewrite Hk2, (bool_decide_eq_true_2 (m_projectId m0 = projectId)) by done. cbn [andb].
    destruct (decide (u_id u = userId)); [by rewrite bool_decide_eq_true_2|by rewrite bool_decide_eq_false_2].
  - intros (y & (m & u & Hm & Hu & Hk & ->) & ->). injection Hk as Hk1 Hk2.
    eexists _, u. split; [by exists m|]. split; [done|]. cbn [mu_id member_user fst snd].
    rewrite Hk2, (bool_decide_eq_true_2 (m_projectId m = projectId)) by done. cbn [andb].
    destruct (decide (u_id u = userId)); [rewrite bool_decide_eq_true_2 by done|rewrite bool_decide_eq_false_2 by done];
      (split; [unfold m_key; cbn; congruence|done]).
Qed.

Lemma form_fields projectId member role :
  readTrimmedString (remove_form projectId member) "projectId" = js_trim projectId
  /\ readTrimmedString (remove_form projectId member) "userId" = js_trim (mu_id member)
  /\ readTrimmedString (role_form projectId member role) "projectId" = js_trim projectId
  /\ readTrimmedString (role_form projectId member role) "userId" = js_trim (mu_id member)
  /\ role_of_text (readTrimmedString (role_form projectId member role) "projectRole") = Some role.
Proof. split_and!; try reflexivity. by destruct role. Qed.


(** ** The layout of the application *)
Lemma run_getUser id d : intact d ->
  (exists u, run (getUserById id) d = (Return (Some (mapUser u)), d) /\ u ∈ rows (users d) /\ u_id u = id)
  \/ (run (getUserById id) d = (Return None, d) /\ has_user id d = false).
Proof.
  intros Hd. destruct (has_user id d) eqn:Eh.
  - apply has_user_spec in Eh as (u & Hu & <-). left. exists u. unfold getUserById. cbn. by rewrite select_user_id.
  - right. split; [|done]. unfold getUserById. cbn. rewrite select_none; [done|]. intros u Hu. apply bool_decide_eq_false.
    intros He. apply not_true_iff_false in Eh. apply Eh, has_user_spec. eauto.
Qed.

Lemma run_setup d : run isSetupComplete d = (Return (negb (bool_decide (rows (users d) = []))), d).
Proof. unfold isSetupComplete, countUsers. cbn. by destruct (rows (users d)). Qed.

(** The projects listed for a user: those the user may view, the own workspace among them. *)
Lemma listed_projects userId role d : intact d ->
  exists l, run (listProjectsForUser localeCompare userId role) d = (Return l, d)
    /\ (forall pm, pm ∈ l -> may d userId (ps_id (pm_summary pm)) View role)
    /\ forall p m, p ∈ rows (projects d) -> p_createdBy p = userId -> m ∈ rows (projectMembers d) -> m_key m = (p_id p, userId) ->
         mapProject p ∈ map pm_summary l.
Proof.
  intros Hd. unfold may. destruct (decide (role = Some "admin")) as [->|Ha].
  - eexists. split; [done|]. split.
    + intros pm. cbn. unfold sortMemberships. rewrite elem_of_js_sort, map_map, list_elem_of_fmap.
      intros (p & -> & [_ Hp]%elem_of_select). apply has_project_spec. by exists p.
    + intros p m Hp Hc _ _. cbn. unfold sortMemberships. rewrite js_sort_perm, !map_map, list_elem_of_fmap.
      exists p. split; [done|]. apply elem_of_select. split; [|done]. apply orb_true_iff. right. by apply bool_decide_eq_true.
  - destruct (run_listProjects localeCompare userId role d Ha) as (l & Hl & Hin). exists l. split; [done|]. split.
    + intros pm (p & m & Hp & Hm & Hk & ->)%Hin. exists m. split_and!; [done|done|]. by destruct (m_role m); repeat constructor.
    + intros p m Hp _ Hm Hk. apply list_elem_of_fmap. eexists. split; [|apply Hin; by exists p, m]. done.
Qed.

(** The layout around every page: it sends away whoever is not a known user of a system
    that was set up, and shows a known user the projects that user may view, with a
    workspace of the user's own, which it creates where there is none. *)
Theorem layout_shows_own session now uuid d : private d -> has_project uuid d = false ->
  let outcome := run (ProtectedAppLayout localeCompare session now uuid) d in
  match rows (users d), session_user session with
  | [], _ => outcome = (Throw (JsRedirect "/setup"), d)
  | _, None => outcome = (Throw (JsRedirect "/login?redirectTo=/workflow"), d)
  | _, Some (id, _) =>
      if has_user id d
      then exists shell d', outcome = (Return shell, d') /\ private d' /\ users d' = users d /\ au_id (sh_user shell) = id
             /\ (forall pm, pm ∈ sh_projects shell ->
                   may d' id (ps_id (pm_summary pm)) View (Some (au_role (sh_user shell))))
             /\ exists p, p ∈ rows (projects d') /\ p_kind p = Personal /\ p_createdBy p = id
                   /\ mapProject p ∈ map pm_summary (sh_projects shell)
      else outcome = (Throw (JsRedirect "/login"), d)
  end.
Proof.
  intros Hp Hu. cbn zeta. pose proof (proj1 Hp) as Hd. unfold ProtectedAppLayout. rewrite run_bind, run_setup.
  destruct (rows (users d)) as [|u0 l0] eqn:Er; [done|]. rewrite bool_decide_eq_false_2 by done. cbn [negb].
  destruct (session_user session) as [[id su]|]; [|done]. rewrite run_bind.
  destruct (run_getUser id d Hd) as [(u & -> & Hin & <-)|(-> & Hno)]; [|by rewrite Hno].
  assert (Hh : has_user (u_id u) d = true) by (apply has_user_spec; eauto). rewrite Hh. cbn [au_id au_role mapUser].
  destruct (personal_workspace_ensured (u_id u) now uuid now uuid d Hp Hh Hu)
    as (pm & d' & _ & He & _ & (p & m & Hp' & _ & Hk & Hc & Hm & Hmk & _) & _).
  pose proof (ensure_private (u_id u) now uuid d Hp) as Hpr. pose proof (ensure_users (u_id u) now uuid d) as Hus.
  rewrite He in Hpr, Hus. cbn [snd] in Hpr, Hus.
  destruct (listed_projects (u_id u) (Some (u_role u)) d') as (l & Hl & Hmay & Hown); [apply Hpr|].
  rewrite run_bind, He, run_bind, Hl. eexists _, d'. split; [done|]. split_and!; [apply Hpr..|done|done|done|].
  exists p. split_and!; [done..|]. by apply (Hown p m).
Qed.

(** The session of a user whose row is gone, while the system is set up, leads nowhere:
    the layout sends it to the login, and both the middleware and the login page send it
    back. *)
Theorem stale_session_loops session id u now uuid params d : intact d -> session_user session = Some (id, u) ->
  rows (users d) <> [] -> has_user id d = false ->
  proxy "/workflow" "" true true = NextPage
  /\ run (ProtectedAppLayout localeCompare session now uuid) d = (Throw (JsRedirect "/login"), d)
  /\ proxy "/login" "" true true = RedirectPage "/workflow" None
  /\ run (LoginPage session params) d = (Throw (JsRedirect "/workflow"), d).
Proof.
  intros Hd Hs Hne Hno. split_and!; [done| |done|].
  - unfold ProtectedAppLayout. rewrite run_bind, run_setup, bool_decide_eq_false_2 by done. cbn [negb]. rewrite Hs, run_bind.
    destruct (run_getUser id d Hd) as [(u' & _ & Hu & Hid)|(-> & _)]; [|done].
    apply not_true_iff_false in Hno. destruct Hno. apply has_user_spec. eauto.
  - unfold LoginPage. rewrite run_bind, run_setup, bool_decide_eq_false_2 by done. cbn [negb]. by rewrite Hs.
Qed.

(** What the login form hands to the action that follows it is a path of the site. *)
Lemma login_target session params d v : run (LoginPage session params) d = (Return v, d) ->
  starts_with "/" (lv_redirectTo v) = true
  /\ let target := getRedirectTarget (Some (FText (lv_redirectTo v))) "/workflow" in
     starts_with "/" target = true /\ starts_with "//" target = false.
Proof.
  unfold LoginPage. rewrite run_bind, run_setup. destruct (negb (negb _)); [done|]. destruct (session_user session); [done|].
  intros [= <-]. cbn [lv_redirectTo getRedirectTarget]. destruct (lp_redirectTo params) as [[s|l]|]; [|done..].
  destruct (starts_with "/" s) eqn:Es; [|done]. rewrite Es. cbn [negb orb]. split; [done|].
  destruct (starts_with "//" s) eqn:E2; done.
Qed.

(** The button in the row of a user does what it says. *)
Lemma toggle_flips session u now d : is_admin session = true -> str_truthy (u_id u) = true -> js_trim (u_id u) = u_id u ->
  run (toggleUserActiveAction session (toggle_form (mapUser u)) now) d
  = (Return tt, on_users (update_rows (fun x => bool_decide (u_id x = u_id u)) (set_active (negb (u_isActive u)) now)) d).
Proof.
  intros Ha Ht Hi. unfold toggleUserActiveAction.
  destruct (admin_passes session Ha) as (x & ->).
  assert (readTrimmedString (toggle_form (mapUser u)) "userId" = u_id u) as -> by done.
  assert (bool_decide (readTrimmedString (toggle_form (mapUser u)) "nextState" = "active") = negb (u_isActive u)) as Hn.
  { by destruct u as [? ? ? ? ? ? []]. }
  cbn [lift]. rewrite Hn, Ht. done.
Qed.
End Facts.

(** ** Forms *)

(** A field of a form shows its first problem, and no message means no problem. *)
Theorem first_problem_shown issues key : Forall (fun i : Issue => i.2 <> "") issues ->
  fold_left first_message issues (∅ : jmap string string) !! key = snd <$> List.find (fun i => bool_decide (i.1 = key)) issues.
Proof.
  intros Hne. cut (forall acc : jmap string string, (forall k m, acc !! k = Some m -> m <> "") ->
    fold_left first_message issues acc !! key
    = match acc !! key with Some m => Some m | None => snd <$> List.find (fun i => bool_decide (i.1 = key)) issues end).
  { intros H. by rewrite H. }
  induction Hne as [|[k m] l Hm Hl IH]; intros acc Hacc; cbn [fold_left List.find]; [by destruct (acc !! key)|].
  assert (Hstep : forall k', first_message acc (k, m) !! k' = match acc !! k' with Some x => Some x | None => if decide (k = k') then Some m else None end).
  { intros k'. unfold first_message. cbn [fst snd]. destruct (acc !! k) as [x|] eqn:Ek; cbn.
    - rewrite (proj2 (str_truthy_spec x)) by (by eapply Hacc). destruct (acc !! k') eqn:Ek'; [done|]. case_decide; [congruence|done].
    - rewrite jlookup_insert. case_decide; [subst k'; by rewrite Ek|]. by destruct (acc !! k'). }
  rewrite IH, Hstep.
  - destruct (acc !! key); [done|]. cbn [fst]. case_decide; [by rewrite bool_decide_eq_true_2|by rewrite bool_decide_eq_false_2].
  - intros k' x. rewrite Hstep. destruct (acc !! k') eqn:Ek'; [intros [= <-]; by eapply Hacc|]. case_decide; [by intros [= <-]|done].
Qed.

Section UserForm.
Context `{E : Engine} (zod_email : string -> bool) (scrypt : string -> string -> Z -> list Z) (connection_type : DatabaseType)
  (native_message : js_error -> string).

Lemma form_values values accepted : createUserSchema zod_email values = inl accepted ->
  accepted = MkUserValues (js_trim (uf_name values)) (js_trim (uf_email values)) (uf_password values) (uf_role values)
  /\ js_trim (uf_name values) <> "" /\ js_trim (uf_email values) <> "" /\ 8 <= len (uf_password values)
  /\ uf_role values ∈ ["normal"; "admin"].
Proof.
  unfold createUserSchema, parsed, failing. cbn [omap list_omap fst snd app].
  destruct (1 <=? len (js_trim (uf_name values))) eqn:E1; [|done].
  destruct (len (js_trim (uf_name values)) <=? 100); [|done].
  destruct (1 <=? len (js_trim (uf_email values))) eqn:E2; [|done]. destruct (zod_email _); [|done].
  destruct (8 <=? len (uf_password values)) eqn:E3; [|done]. destruct (len (uf_password values) <=? 128); [|done].
  destruct (bool_decide _) eqn:E4; [|done]. intros [= <-]. bools. split_and!; [done| | |lia|done];
    intros He; by rewrite He in *.
Qed.

(** What the form for a new user accepts the action does not refuse for want of data,
    as long as the password neither starts nor ends with a blank. *)
Theorem accepted_user_created session values accepted salt uuid now pnow puuid : is_admin session = true ->
  createUserSchema zod_email values = inl accepted -> js_trim (uf_password values) = uf_password values ->
  let email := normalizeEmail (uf_email values) in
  createUserAdminAction scrypt connection_type native_message session (user_form_data accepted) salt uuid now pnow puuid
  = catch (createUser scrypt connection_type (MkCreateUser email (js_trim (uf_name values)) (uf_password values) (uf_role values) (Some true))
             salt uuid now pnow puuid;;
           mret (MkAdminState None (Some ("Created " +:+ email +:+ " successfully."))))
      (admin_failed native_message).
Proof.
  intros Ha (-> & Hn & He & Hp & Hr)%form_values Ht. cbn zeta. unfold createUserAdminAction.
  destruct (admin_passes session Ha) as (x & ->). set (f := user_form_data _).
  assert (Hf : readTrimmedString f "email" = js_trim (js_trim (uf_email values)) /\ readTrimmedString f "name" = js_trim (js_trim (uf_name values))
    /\ readTrimmedString f "password" = js_trim (uf_password values) /\ readTrimmedString f "role" = js_trim (uf_role values)) by done.
  destruct Hf as (-> & -> & -> & ->). rewrite !js_trim_idem, Ht. unfold normalizeEmail. rewrite js_trim_idem.
  rewrite lower_truthy, (proj2 (str_truthy_spec _) Hn) by done.
  assert ((Z.of_nat (String.length (uf_password values)) <? 8) = false) as -> by (apply Z.ltb_ge; exact Hp).
  assert (ostr_or (Some (js_trim (uf_role values))) "normal" = uf_role values) as ->; [|done].
  apply elem_of_cons in Hr as [->|Hr]; [done|]. by apply list_elem_of_singleton in Hr as ->.
Qed.

(** The form counts the blanks of a password, the action does not. *)
Example padded_password_refused :
  let values := MkUserValues "Dan" "dan@example.com" "       a" "normal" in
  createUserSchema (fun _ => true) values = inl values
  /\ forall d, run (createUserAdminAction scrypt connection_type native_message (Some (Some (MkSessionUser (Some "ann") (Some "admin"))))
       (user_form_data values) [] "" epoch epoch "") d
     = (Return (MkAdminState (Some "Name, email, and a password of at least 8 characters are required.") None), d).
Proof. by split. Qed.
End UserForm.

(** ** Witness *)
#[local] Existing Instance list_engine.

Definition team_page : MembersView :=
  match (run (TeamMembersPage by_code bob_session "team") demo_db).1 with
  | Return v => v
  | Throw _ => MkMembersView (mapProject (MkProjectRow "" "" Team "" epoch epoch)) [] []
  end.
Definition ann : ProjectMemberUser := member_user (MkMemberRow "team" "ann" Owner epoch, demo_user "ann").

End PageFacts.
