(* ===== verification/RunSnapshot.v ===== *)
(** * Run snapshots: [ui-v2/src/modules/workflow/lib/workflow-run-snapshot.ts]

    What the runner knows of a run is put into the three run stores of the
    browser at once.  The stores share the browser's host and keep their own
    trackers; an action of one of them is lifted to all three. *)

From S2P Require Import Prelude FlowTypes SyncTypes ClientId FastQueue JsLib Json SyncService SyncMiddleware RunEvents.
From S2P Require Import WorkflowStore ExecutionStore ScenarioRunStore TestResultStore.
Open Scope Z_scope.

Record WorkflowQueueInfo := MkWorkflowQueueInfo {
  wq_status : string;
  wq_position : option Z;
  wq_queuedAt : string;
  wq_startedAt : option string;
  wq_workerConcurrency : option Z;
  wq_estimatedRun : option JsonValue;
  wq_estimatedWait : option JsonValue;
  wq_estimatedTotal : option JsonValue
}.

(** [executionDefinition] is not used by the hydration. *)
Record WorkflowRunSnapshot := MkSnapshot {
  ss_workflowRun : WorkflowRunData;
  ss_scenarioRuns : option (list SessionData);
  ss_testResults : option (list TestResultData);
  ss_queue : option WorkflowQueueInfo
}.

(** ** The three stores *)
Record RunStores := MkStores {
  execution_store : Store ExecutionStore.ExecutionState;
  scenario_run_store : Store ScenarioRunStore.ScenarioRunState;
  test_result_store : Store TestResultStore.TestResultState
}.

Definition StoresM (A : Type) : Type := Host * RunStores -> res A * (Host * RunStores).

#[export] Instance StoresM_ret : MRet StoresM := fun A a c => (Return a, c).
#[export] Instance StoresM_bind : MBind StoresM := fun A B f m c =>
  match m c with
  | (Return a, c') => f a c'
  | (Throw e, c') => (Throw e, c')
  end.

Definition in_executions {A} (m : ExecutionStore.Action A) : StoresM A := fun '(h, s) =>
  let '(r, (h', s')) := m (h, execution_store s) in
  (r, (h', MkStores s' (scenario_run_store s) (test_result_store s))).
Definition in_scenario_runs {A} (m : ScenarioRunStore.Action A) : StoresM A := fun '(h, s) =>
  let '(r, (h', s')) := m (h, scenario_run_store s) in
  (r, (h', MkStores (execution_store s) s' (test_result_store s))).
Definition in_test_results {A} (m : TestResultStore.Action A) : StoresM A := fun '(h, s) =>
  let '(r, (h', s')) := m (h, test_result_store s) in
  (r, (h', MkStores (execution_store s) (scenario_run_store s) s')).

(** A computation that may throw and touches no store. *)
Definition stores_lift {A} (r : res A) : StoresM A := fun c => (r, c).

(** [for (const x of l)] with an accumulator. *)
Fixpoint stores_fold {A B} (f : B -> A -> StoresM B) (b : B) (l : list A) : StoresM B :=
  match l with
  | [] => mret b
  | x :: l' => b' ← f b x; stores_fold f b' l'
  end.

Section Snapshot.
(** [JSON.parse] ([None] is its [SyntaxError]), [new Date(text).getTime()] of the
    runner's timestamps, and the unchecked cast of a JSON value to
    [Record<string, string>]. *)
Context (parse_json : string -> option JsonValue) (date_time : string -> Z)
        (as_record : JsonValue -> jmap string string).

(** [parseJSON<unknown>(value, fallback)] *)
Definition parseJSON (value fallback : option JsonValue) : option JsonValue :=
  match value with
  | None | Some JNull => fallback
  | Some (JStr s) =>
      if str_truthy s then match parse_json s with Some v => Some v | None => fallback end else fallback
  | Some v => Some v
  end.

Definition timeValue (value : option string) (fallback : string) : Z := date_time (ostr_or value fallback).

Definition finished_time (completed_at : option string) : option Z :=
  match completed_at with
  | Some t => if str_truthy t then Some (date_time t) else None
  | None => None
  end.

(** The [scenario_run_ids] of the metadata: reading a property of [null], which the
    text of the metadata may denote, throws. *)
Definition scenario_run_ids (metadata : option JsonValue) : res (list string) :=
  ids ← json_get "scenario_run_ids" (default (JObj []) (parseJSON metadata (Some (JObj []))));
  Return (match ids with Some v => as_strings v | None => [] end).

Definition run_with (data : WorkflowRunData) (scenarioRunIds : list string) : ExecutionStore.WorkflowExecution :=
  ExecutionStore.MkExecution (wrd_id data) (wrd_project_id data) (wrd_workflow_id data) (wrd_status data)
    (default [] (wrd_logs data)) (parseJSON (wrd_summary data) (wrd_summary data)) (wrd_error data)
    (timeValue (wrd_started_at data) (wrd_created_at data)) (finished_time (wrd_completed_at data))
    scenarioRunIds None ExecutionStore.no_queue_info
    (MkMeta (wrd_version data) (wrd_created_at data) (wrd_updated_at data) (wrd_user_id data)
       (wrd_client_id data) (wrd_is_deleted data)).

Definition deserializeWorkflowRun (data : WorkflowRunData) : res ExecutionStore.WorkflowExecution :=
  ids ← scenario_run_ids (wrd_metadata data); Return (run_with data ids).

(** [text || undefined] *)
Definition truthy_text (o : option string) : option string := if ostr_truthy o then o else None.

Definition deserializeScenarioRun (data : SessionData) : ScenarioRunStore.ScenarioRun :=
  ScenarioRunStore.MkRun (sn_id data) (sn_project_id data) (default "" (sn_workflow_run_id data))
    (default "" (sn_workflow_id data)) (default "" (sn_scenario_id data)) (default "Scenario" (sn_scenario_name data))
    (truthy_text (sn_backend_session_id data)) (sn_status data) (parseJSON (sn_result data) (sn_result data))
    (truthy_text (sn_error data)) (sn_phase data) (sn_checkpoint_index data) (default [] (sn_logs data))
    (timeValue (sn_started_at data) (sn_created_at data)) (finished_time (sn_completed_at data))
    (MkMeta (default 1 (sn_version data)) (sn_created_at data) (sn_updated_at data) (sn_user_id data)
       (sn_client_id data) (sn_is_deleted data)).

Definition deserializeTestResult (scenarioRunIdsBySession : jmap string string) (data : TestResultData)
    : TestResultStore.TestResult :=
  TestResultStore.MkResult
    (TestResultStore.MkInput (trd_id data) (trd_project_id data) (trd_session_id data) (trd_workflow_run_id data)
       (trd_workflow_id data) (scenarioRunIdsBySession !! trd_session_id data) (trd_scenario_id data)
       (trd_scenario_name data) (trd_test_name data) (trd_test_type data) (trd_status data)
       (parseJSON (trd_result_data data) (Some JNull)) (trd_duration_ms data) (trd_executed_at data)
       (as_record <$> parseJSON (trd_container_logs data) None))
    (MkMeta 1 (trd_created_at data) (trd_updated_at data) (trd_user_id data) (trd_client_id data)
       (trd_is_deleted data)).

Definition queue_of (q : WorkflowQueueInfo) : ExecutionStore.QueueInfo :=
  ExecutionStore.MkQueueInfo (wq_position q) (Some (wq_queuedAt q)) (wq_workerConcurrency q) (wq_estimatedRun q)
    (wq_estimatedWait q) (wq_estimatedTotal q).

(** A scenario run is skipped when it is deleted or names no scenario. *)
Definition hydrated_run (scenarioRun : SessionData) : bool :=
  negb (sn_is_deleted scenarioRun || negb (ostr_truthy (sn_scenario_id scenarioRun))).

(** The bodies of the two loops. *)
Definition hydrate_scenario_run (ids : jmap string string) (scenarioRun : SessionData) : StoresM (jmap string string) :=
  if hydrated_run scenarioRun then
    in_scenario_runs (ScenarioRunStore.upsertScenarioRunFromSync (deserializeScenarioRun scenarioRun));;
    mret (<[sn_id scenarioRun := sn_id scenarioRun]> ids)
  else mret ids.

Definition hydrate_test_result (ids : jmap string string) (_ : unit) (testResult : TestResultData) : StoresM unit :=
  if trd_is_deleted testResult then mret tt
  else in_test_results (TestResultStore.upsertTestResultFromSync (deserializeTestResult ids testResult)).

Definition hydrateWorkflowRunSnapshot (snapshot : WorkflowRunSnapshot) : StoresM unit :=
  execution ← stores_lift (deserializeWorkflowRun (ss_workflowRun snapshot));
  in_executions (ExecutionStore.upsertExecutionFromSync execution);;
  in_executions (ExecutionStore.updateQueueInfo (wrd_id (ss_workflowRun snapshot)) (queue_of <$> ss_queue snapshot));;
  scenarioRunIdsBySession ← stores_fold hydrate_scenario_run ∅ (default [] (ss_scenarioRuns snapshot));
  stores_fold (hydrate_test_result scenarioRunIdsBySession) tt (default [] (ss_testResults snapshot)).

(** ** What a hydration does *)

(** A pure update of a store: no throw, no tracked operation. *)
Lemma set_pure {T} (opts : SimpleSyncOptions T) f h s : exists ms,
  syncSet opts (pureSet f) (h, s) = (Return tt, (h, MkStore (f (state s)) (pendingOps s) ms)).
Proof.
  unfold syncSet, pureSet. simpl. destruct (negb (opt_enabled opts)); [eauto|].
  destruct (getEntityId opts (f (state s))) as [id|]; [|eauto]. destruct (str_truthy id); eauto.
Qed.

Lemma stores_bind {A B} (m : StoresM A) (k : A -> StoresM B) c a c' :
  m c = (Return a, c') -> (m ≫= k) c = k a c'.
Proof. intros E. unfold mbind, StoresM_bind. by rewrite E. Qed.

(** Nothing tracked, nothing emitted. *)
Lemma untracked_quiet {T} (opts : SimpleSyncOptions T) s : pendingOps s = ∅ -> (run_microtasks opts s).1 = [].
Proof.
  intros Hp. unfold run_microtasks. rewrite Hp. generalize (state s), (microtasks s). clear.
  intros t ids. induction ids as [|id ids IH]; [done|].
  assert (Hm : microtask opts id (MkStore t ∅ []) = (None, MkStore t ∅ [])) by done.
  cbn [drain]. rewrite Hm. destruct (drain opts ids _) as [cs s2]. done.
Qed.

(** Entering a list of values, each under its own key, the later ones winning. *)
Definition overlay {A B} (key : A -> string) (f : A -> B) (l : list A) (old : jmap string B) (k : string) : option B :=
  match last (filter (fun x => key x = k) l) with Some x => Some (f x) | None => old !! k end.

Lemma overlay_cons {A B} (key : A -> string) (f : A -> B) x l old k :
  overlay key f l (<[key x := f x]> old) k = overlay key f (x :: l) old k.
Proof.
  unfold overlay. rewrite filter_cons, jlookup_insert.
  case_decide as E; [rewrite last_cons|]; by destruct (last (filter _ l)).
Qed.

(** The scenario runs and results of a snapshot that reach the stores. *)
Definition shown_runs (snapshot : WorkflowRunSnapshot) : list SessionData :=
  filter (fun d => hydrated_run d = true) (default [] (ss_scenarioRuns snapshot)).
Definition shown_results (snapshot : WorkflowRunSnapshot) : list TestResultData :=
  filter (fun d => trd_is_deleted d = false) (default [] (ss_testResults snapshot)).

Definition session_ids (l : list SessionData) (ids : jmap string string) : jmap string string :=
  fold_left (fun ids d => <[sn_id d := sn_id d]> ids) l ids.

Lemma scenario_run_step ids d h s : hydrated_run d = true -> exists ms,
  hydrate_scenario_run ids d (h, s)
  = (Return (<[sn_id d := sn_id d]> ids), (h, MkStores (execution_store s)
      (MkStore (ScenarioRunStore.upsert_state (deserializeScenarioRun d) (state (scenario_run_store s)))
        (pendingOps (scenario_run_store s)) ms) (test_result_store s))).
Proof.
  intros Hd. unfold hydrate_scenario_run. rewrite Hd.
  destruct (set_pure ScenarioRunStore.options (ScenarioRunStore.upsert_state (deserializeScenarioRun d)) h
    (scenario_run_store s)) as [ms E].
  exists ms. unfold mbind, StoresM_bind, in_scenario_runs, ScenarioRunStore.upsertScenarioRunFromSync, ScenarioRunStore.set.
  by rewrite E.
Qed.

Lemma scenario_runs_fold l ids h s : exists s',
  stores_fold hydrate_scenario_run ids l (h, s)
  = (Return (session_ids (filter (fun d => hydrated_run d = true) l) ids), (h, s'))
  /\ execution_store s' = execution_store s /\ test_result_store s' = test_result_store s
  /\ pendingOps (scenario_run_store s') = pendingOps (scenario_run_store s)
  /\ forall k, ScenarioRunStore.scenarioRuns (state (scenario_run_store s')) !! k
     = overlay sn_id deserializeScenarioRun (filter (fun d => hydrated_run d = true) l)
         (ScenarioRunStore.scenarioRuns (state (scenario_run_store s))) k.
Proof.
  revert ids s. induction l as [|d l IH]; intros ids s; [exists s; by split_and!|].
  rewrite filter_cons. cbn [stores_fold]. destruct (hydrated_run d) eqn:Ed.
  - rewrite decide_True by done. destruct (scenario_run_step ids d h s Ed) as [ms E].
    rewrite (stores_bind _ _ _ _ _ E).
    match goal with |- context [stores_fold _ _ _ (h, ?x)] =>
      destruct (IH (<[sn_id d := sn_id d]> ids) x) as (s' & Es & He & Ht & Hp & Hk) end.
    exists s'. split; [exact Es|]. split_and!; [done|done|done|]. intros k. rewrite Hk.
    apply (overlay_cons sn_id).
  - rewrite decide_False by done.
    rewrite (stores_bind _ _ (h, s) ids (h, s)) by (unfold hydrate_scenario_run; by rewrite Ed). apply IH.
Qed.

(** A result of the snapshot is at version 1: it replaces what is stored unless
    that has been updated in the browser. *)
Definition result_overlay (ids : jmap string string) (l : list TestResultData)
    (old : jmap string TestResultStore.TestResult) (k : string) : option TestResultStore.TestResult :=
  match old !! k with
  | Some r => if 1 <? version (TestResultStore.tr_meta r) then Some r
              else overlay trd_id (deserializeTestResult ids) l old k
  | None => overlay trd_id (deserializeTestResult ids) l old k
  end.

Lemma test_result_step ids d h s : trd_is_deleted d = false -> exists ms,
  hydrate_test_result ids tt d (h, s)
  = (Return tt, (h, MkStores (execution_store s) (scenario_run_store s)
      (MkStore (TestResultStore.upsert_state (deserializeTestResult ids d) (state (test_result_store s)))
        (pendingOps (test_result_store s)) ms))).
Proof.
  intros Hd. unfold hydrate_test_result. rewrite Hd.
  destruct (set_pure TestResultStore.options (TestResultStore.upsert_state (deserializeTestResult ids d)) h
    (test_result_store s)) as [ms E].
  exists ms. unfold in_test_results, TestResultStore.upsertTestResultFromSync, TestResultStore.set. by rewrite E.
Qed.

Lemma result_overlay_step ids d l st k :
  result_overlay ids l (TestResultStore.testResults (TestResultStore.upsert_state (deserializeTestResult ids d) st)) k
  = result_overlay ids (d :: l) (TestResultStore.testResults st) k.
Proof.
  unfold TestResultStore.upsert_state. set (new := deserializeTestResult ids d).
  change (TestResultStore.tr_id (TestResultStore.tr_input new)) with (trd_id d).
  change (version (TestResultStore.tr_meta new)) with 1. set (old := TestResultStore.testResults st).
  assert (Hins : (forall r, old !! trd_id d = Some r -> (1 <? version (TestResultStore.tr_meta r)) = false) ->
    result_overlay ids l (<[trd_id d := new]> old) k = result_overlay ids (d :: l) old k).
  { intros Hold. unfold result_overlay. rewrite jlookup_insert.
    pose proof (overlay_cons trd_id (deserializeTestResult ids) d l old k) as Hc. fold new in Hc. rewrite Hc.
    case_decide as Ek; [|done]. subst k. simpl. destruct (old !! trd_id d) as [r|]; [|done]. by rewrite (Hold r). }
  destruct (old !! trd_id d) as [r|] eqn:Er; [|by apply Hins].
  destruct (1 <? version (TestResultStore.tr_meta r)) eqn:Ev; [|apply Hins; intros ? [= <-]; done].
  fold old. unfold result_overlay. destruct (decide (trd_id d = k)) as [<-|Hk]; [by rewrite Er, Ev|].
  unfold overlay. by rewrite filter_cons, decide_False by done.
Qed.

Lemma test_results_fold ids l h s : exists s',
  stores_fold (hydrate_test_result ids) tt l (h, s) = (Return tt, (h, s'))
  /\ execution_store s' = execution_store s /\ scenario_run_store s' = scenario_run_store s
  /\ pendingOps (test_result_store s') = pendingOps (test_result_store s)
  /\ forall k, TestResultStore.testResults (state (test_result_store s')) !! k
     = result_overlay ids (filter (fun d => trd_is_deleted d = false) l)
         (TestResultStore.testResults (state (test_result_store s))) k.
Proof.
  revert s. induction l as [|d l IH]; intros s.
  { exists s. split_and!; try done. intros k. unfold result_overlay, overlay. simpl.
    destruct (_ !! k); [|done]. by destruct (1 <? _). }
  rewrite filter_cons. cbn [stores_fold]. destruct (trd_is_deleted d) eqn:Ed.
  - rewrite decide_False by done.
    rewrite (stores_bind _ _ (h, s) tt (h, s)) by (unfold hydrate_test_result; by rewrite Ed). apply IH.
  - rewrite decide_True by done. destruct (test_result_step ids d h s Ed) as [ms E].
    rewrite (stores_bind _ _ _ _ _ E).
    match goal with |- context [stores_fold _ _ _ (h, ?x)] => destruct (IH x) as (s' & Es & He & Ht & Hp & Hk) end.
    exists s'. split; [exact Es|]. split_and!; [done|done|done|]. intros k. rewrite Hk. apply result_overlay_step.
Qed.

Lemma session_ids_lookup l ids k :
  session_ids l ids !! k = if decide (k ∈ map sn_id l) then Some k else ids !! k.
Proof.
  revert ids. induction l as [|d l IH]; intros ids; [done|]. simpl. rewrite IH, jlookup_insert.
  destruct (decide (sn_id d = k)) as [E|E].
  - subst k. rewrite (decide_True (P := sn_id d ∈ sn_id d :: map sn_id l)) by left. by case_decide.
  - destruct (decide (k ∈ map sn_id l)) as [Hin|Hni].
    + by rewrite decide_True by (by right).
    + by rewrite decide_False by (intros [?|?]%elem_of_cons; congruence).
Qed.

(** The run as it is stored: the replay cursor is kept, and so is the queue
    information when the snapshot has none. *)
Definition hydrated_execution (snapshot : WorkflowRunSnapshot) (ids : list string) (existing : option ExecutionStore.WorkflowExecution)
    : ExecutionStore.WorkflowExecution :=
  let ex := run_with (ss_workflowRun snapshot) ids in
  ExecutionStore.MkExecution (ExecutionStore.ex_workflowRunId ex) (ExecutionStore.ex_projectId ex)
    (ExecutionStore.ex_workflowId ex) (ExecutionStore.ex_status ex) (ExecutionStore.ex_logs ex)
    (ExecutionStore.ex_result ex) (ExecutionStore.ex_error ex) (ExecutionStore.ex_startedAt ex)
    (ExecutionStore.ex_finishedAt ex) (ExecutionStore.ex_scenarioRunIds ex)
    (existing ≫= ExecutionStore.ex_lastEventId)
    (match ss_queue snapshot with
     | Some q => queue_of q
     | None => match existing with Some e => ExecutionStore.ex_queue e | None => ExecutionStore.no_queue_info end
     end)
    (ExecutionStore.ex_meta ex).

(** The execution state after both updates. *)
Definition executions_hydrated (snapshot : WorkflowRunSnapshot) (ids : list string) (st : ExecutionStore.ExecutionState)
    : ExecutionStore.ExecutionState :=
  let st1 := ExecutionStore.upsert_state (run_with (ss_workflowRun snapshot) ids) st in
  match ss_queue snapshot with
  | Some q => ExecutionStore.queue_state (wrd_id (ss_workflowRun snapshot)) (queue_of q) st1
  | None => st1
  end.

Lemma executions_hydrated_lookup snapshot ids st k :
  ExecutionStore.executions (executions_hydrated snapshot ids st) !! k
  = if decide (wrd_id (ss_workflowRun snapshot) = k)
    then Some (hydrated_execution snapshot ids (ExecutionStore.executions st !! k))
    else ExecutionStore.executions st !! k.
Proof.
  unfold executions_hydrated, hydrated_execution.
  destruct (ss_queue snapshot) as [q|]; unfold ExecutionStore.queue_state, ExecutionStore.upsert_state;
    cbn [ExecutionStore.executions ExecutionStore.ex_workflowRunId run_with];
    rewrite ?jlookup_insert_eq; cbn [ExecutionStore.executions]; rewrite !jlookup_insert; by case_decide; subst.
Qed.

Lemma executions_hydrate snapshot ids {B} (k : unit -> StoresM B) h s : exists ms,
  (in_executions (ExecutionStore.upsertExecutionFromSync (run_with (ss_workflowRun snapshot) ids));;
   in_executions (ExecutionStore.updateQueueInfo (wrd_id (ss_workflowRun snapshot)) (queue_of <$> ss_queue snapshot)) ≫= k)
    (h, s)
  = k tt (h, MkStores (MkStore (executions_hydrated snapshot ids (state (execution_store s)))
                         (pendingOps (execution_store s)) ms) (scenario_run_store s) (test_result_store s)).
Proof.
  set (ex := run_with (ss_workflowRun snapshot) ids). set (es := execution_store s).
  destruct (set_pure ExecutionStore.options (ExecutionStore.upsert_state ex) h es) as [ms1 E1].
  set (es1 := MkStore (ExecutionStore.upsert_state ex (state es)) (pendingOps es) ms1) in E1.
  assert (H1 : in_executions (ExecutionStore.upsertExecutionFromSync ex) (h, s)
    = (Return tt, (h, MkStores es1 (scenario_run_store s) (test_result_store s)))).
  { unfold in_executions, ExecutionStore.upsertExecutionFromSync, ExecutionStore.set. fold es. by rewrite E1. }
  rewrite (stores_bind _ _ _ _ _ H1). unfold executions_hydrated. fold ex.
  destruct (ss_queue snapshot) as [q|]; [|by exists ms1].
  destruct (set_pure ExecutionStore.options (ExecutionStore.queue_state (wrd_id (ss_workflowRun snapshot)) (queue_of q)) h es1)
    as [ms2 E2].
  exists ms2. apply stores_bind. change (queue_of <$> Some q) with (Some (queue_of q)).
  unfold in_executions. cbn [ExecutionStore.updateQueueInfo execution_store]. unfold ExecutionStore.set. by rewrite E2.
Qed.

(** A snapshot is put into the stores whole and nothing else is touched.  Hydrating
    throws only when the run's metadata denotes [null], before it has changed
    anything; otherwise the run is stored with the browser's replay cursor kept;
    every live scenario run with a scenario, and every live result that has not
    been updated in the browser, is stored, the last of a repeated id winning;
    all other entries stay.  A stored result is linked to its scenario run
    exactly when the snapshot's session has one, and that run is then in the
    store.  No tracked operation is added, so nothing is sent back. *)
Theorem snapshot_hydrates snapshot h s :
  match scenario_run_ids (wrd_metadata (ss_workflowRun snapshot)) with
  | Throw e => hydrateWorkflowRunSnapshot snapshot (h, s) = (Throw e, (h, s))
  | Return runIds =>
  exists s', hydrateWorkflowRunSnapshot snapshot (h, s) = (Return tt, (h, s'))
  /\ state (execution_store s') = executions_hydrated snapshot runIds (state (execution_store s))
  /\ (forall k, ScenarioRunStore.scenarioRuns (state (scenario_run_store s')) !! k
       = overlay sn_id deserializeScenarioRun (shown_runs snapshot)
           (ScenarioRunStore.scenarioRuns (state (scenario_run_store s))) k)
  /\ (exists ids, (forall k, TestResultStore.testResults (state (test_result_store s')) !! k
         = result_overlay ids (shown_results snapshot) (TestResultStore.testResults (state (test_result_store s))) k)
      /\ (forall session, ids !! session = if decide (session ∈ map sn_id (shown_runs snapshot)) then Some session else None)
      /\ forall session, session ∈ map sn_id (shown_runs snapshot) -> exists r,
           ScenarioRunStore.scenarioRuns (state (scenario_run_store s')) !! session = Some r
           /\ ScenarioRunStore.run_id r = session)
  /\ (pendingOps (execution_store s) = ∅ -> (run_microtasks ExecutionStore.options (execution_store s')).1 = [])
  /\ (pendingOps (scenario_run_store s) = ∅ -> (run_microtasks ScenarioRunStore.options (scenario_run_store s')).1 = [])
  /\ (pendingOps (test_result_store s) = ∅ -> (run_microtasks TestResultStore.options (test_result_store s')).1 = [])
  end.
Proof.
  unfold hydrateWorkflowRunSnapshot, deserializeWorkflowRun.
  destruct (scenario_run_ids (wrd_metadata (ss_workflowRun snapshot))) as [runIds|e]; [|done].
  rewrite (stores_bind _ _ _ (run_with (ss_workflowRun snapshot) runIds) (h, s)) by done.
  destruct (executions_hydrate snapshot runIds (fun _ =>
    ids ← stores_fold hydrate_scenario_run ∅ (default [] (ss_scenarioRuns snapshot));
    stores_fold (hydrate_test_result ids) tt (default [] (ss_testResults snapshot))) h s) as [ms E].
  rewrite E. clear E.
  match goal with |- context [mbind _ _ (h, ?x)] => set (s1 := x) end.
  destruct (scenario_runs_fold (default [] (ss_scenarioRuns snapshot)) ∅ h s1) as (s2 & E2 & He2 & Ht2 & Hp2 & Hk2).
  rewrite (stores_bind _ _ _ _ _ E2). clear E2. fold (shown_runs snapshot) in *.
  set (ids := session_ids (shown_runs snapshot) ∅).
  destruct (test_results_fold ids (default [] (ss_testResults snapshot)) h s2) as (s3 & E3 & He3 & Hs3 & Hp3 & Hk3).
  fold (shown_results snapshot) in *. exists s3. split; [exact E3|].
  rewrite He3, He2, Hs3. rewrite Ht2 in Hk3, Hp3. split; [done|]. split; [exact Hk2|]. split.
  - exists ids. split; [exact Hk3|]. split; [intros k; apply session_ids_lookup|].
    intros session (d & -> & Hd)%list_elem_of_fmap. rewrite Hk2. unfold overlay.
    destruct (last (filter (fun x => sn_id x = sn_id d) (shown_runs snapshot))) as [d'|] eqn:El.
    + exists (deserializeScenarioRun d'). split; [done|].
      apply last_Some_elem_of, list_elem_of_filter in El as [El _]. exact El.
    + apply last_None in El. exfalso. apply (not_elem_of_nil d). rewrite <- El. by apply list_elem_of_filter.
  - split_and!; intros Hp; apply untracked_quiet; [exact Hp|by rewrite Hp2|by rewrite Hp3].
Qed.
End Snapshot.

(** ** Witnesses *)
Definition demo_run_data : WorkflowRunData :=
  MkWorkflowRunData "r1" "p1" "w1" WCompleted None (Some ["done"]) None None None None 4 "t0" "t1" "u" "c" false.
Definition demo_session : SessionData :=
  MkSessionData "s1" "p1" (Some "r1") (Some "w1") (Some "sc1") None None SCompleted None None None None None None None
    None "t0" "t1" "u" "c" false.
Definition demo_result_data : TestResultData :=
  MkTestResultData "t1" "p1" "s1" (Some "r1") "w1" (Some "sc1") None "First" "http" RPassed None None 5 "t" "t0" "t1"
    "c" "u" false.
Definition demo_snapshot : WorkflowRunSnapshot :=
  MkSnapshot demo_run_data (Some [demo_session]) (Some [demo_result_data]) None.

(** The three stores with a result the browser has at version [v]. *)
Definition demo_stores (v : Z) : RunStores :=
  MkStores (MkStore ExecutionStore.demo_state ∅ []) (MkStore ScenarioRunStore.initial ∅ [])
    (MkStore (TestResultStore.MkState
      (<["t1" := TestResultStore.MkResult
           (TestResultStore.MkInput "t1" "p1" "s1" (Some "r1") "w1" None None None "First" "http" RRunning None 0 "t" None)
           (WorkflowStore.demo_meta v)]> ∅) None) ∅ []).

Definition demo_hydrated (v : Z) : res unit * (Host * RunStores) :=
  hydrateWorkflowRunSnapshot (fun _ => None) (fun _ => 0) (fun _ => ∅) demo_snapshot (sample_host, demo_stores v).

Definition demo_status (v : Z) : option ScenarioTestResultStatus :=
  TestResultStore.tr_status ∘ TestResultStore.tr_input
    <$> TestResultStore.testResults (state (test_result_store (demo_hydrated v).2.2)) !! "t1".

(** The runner's result replaces the browser's at version 1, and is dropped once the
    browser has updated its own, because a snapshot's results are all given
    version 1. *)
Example updated_result_stays : demo_status 1 = Some RPassed /\ demo_status 2 = Some RRunning.
Proof. split; reflexivity. Qed.
