(* ===== verification/RunReplay.v ===== *)
(** * Reading a run back from the runner: [ui-v2/src/modules/workflow/lib/runner-client.ts]

    The browser's calls to the runner, and the runner's paging of a run's log
    ([runner-v2/pkg/api/workflow_handlers.go] and
    [runner-v2/pkg/db/mysql/workflow_jobs.go]) that
    [fetchWorkflowRunEventsSince] pages through while the run goes on logging.
    A request is its method, the segments of its path (an id passed through
    [encodeURIComponent] is one segment) and its query parameters; the runner
    is an argument of the calls, except where a theorem is about the runner of
    this repository. *)

From S2P Require Import Prelude JsLib FlowTypes RunEvents JsonParse Process.
From Stdlib Require Import Ascii.
From stdpp Require Import sorting.
Open Scope Z_scope.

Record ApiRequest := MkApiRequest {
  rq_method : string;
  rq_path : list string;
  rq_query : list (string * string);
  rq_body : option string
}.

(** A response whose body has type [X] when it is JSON; [None] is a [SyntaxError]
    of [response.json()].  [rp_error] is the [error] of a JSON body, when it is
    an object that has one. *)
Record ApiReply (X : Type) := MkReply { rp_status : Z; rp_json : option X; rp_error : option string }.
Arguments MkReply {X}.
Arguments rp_status {X}.
Arguments rp_json {X}.
Arguments rp_error {X}.

Definition rp_ok {X} (r : ApiReply X) : bool := (200 <=? rp_status r) && (rp_status r <=? 299).

(** [new URLSearchParams(...).set(k, v)] on a key that is not there yet. *)
Definition query_set (k v : string) (q : list (string * string)) : list (string * string) := q ++ [(k, v)].

Record StoredEvent := MkStored {
  st_id : Z;
  st_workflow_run_id : string;
  st_event_type : string;
  st_payload : string
}.

Record WorkflowLogPage := MkPage {
  pg_events : list StoredEvent;
  pg_hasMore : bool;
  pg_nextBefore : option Z
}.

Record StoredWorkflowLogEvent := MkReplayed { rv_id : Z; rv_event : WorkflowLogEvent }.

Record WorkflowLogReplay := MkReplay {
  rl_events : list StoredWorkflowLogEvent;
  rl_newestEventId : option Z
}.

(** ** Single requests *)
Definition runner_returned {X} (response : ApiReply X) : js_error :=
  JsError ("Runner returned " +:+ pretty (rp_status response)).

(** The message of a failed call.  When the body is not JSON, [response.text()] is
    asked for it; but [response.json()] has consumed the body, the promise is
    rejected, and the default message stays. *)
Definition runner_error {X} (response : ApiReply X) : js_error :=
  JsError (ostr_or (rp_error response) ("Runner returned " +:+ pretty (rp_status response))).

(** [accepted] is the answer made up for a 202 whose body is not JSON. *)
Definition submission_reply {X} (accepted : X) (response : ApiReply X) : res X :=
  if rp_status response =? 202 then Return (default accepted (rp_json response))
  else if rp_ok response then
    Throw (JsError ("Runner returned unexpected " +:+ pretty (rp_status response)
                    +:+ "; the workflow was not accepted for execution"))
  else Throw (runner_error response).

Section Requests.
Context {R X : Type} (fetcher : ApiRequest -> R -> ApiReply X * R).

Definition fetch (request : ApiRequest) : Proc R (ApiReply X) := Await (fetcher request) (fun r => Done (Return r)).

Definition submitWorkflowRun (input : string) (accepted : X) : Proc R X :=
  response ← fetch (MkApiRequest "POST" ["api"; "v1"; "workflow-runs"] [] (Some input));
  Done (submission_reply accepted response).

(** [response.json()] of an answer that is good. *)
Definition good_json (response : ApiReply X) : Proc R X :=
  match rp_json response with Some x => mret x | None => throw JsSyntaxError end.

Definition cancelWorkflowRun (workflowRunId projectId : string) : Proc R X :=
  response ← fetch (MkApiRequest "DELETE" ["api"; "v1"; "workflow-runs"; workflowRunId] [("projectId", projectId)] None);
  if rp_ok response then good_json response else throw (runner_error response).

Definition fetchWorkflowRunSnapshot (workflowRunId projectId : string) : Proc R X :=
  response ← fetch (MkApiRequest "GET" ["api"; "v1"; "workflow-runs"; workflowRunId] [("projectId", projectId)] None);
  if negb (rp_ok response) then throw (runner_returned response) else good_json response.
End Requests.

(** ** Pages of the log *)
Section Client.
Context {R : Type} (fetcher : ApiRequest -> R -> ApiReply WorkflowLogPage * R).
(** [JSON.parse(payload) as WorkflowLogEvent] *)
Context (parse_event : string -> option WorkflowLogEvent).

Definition fetchWorkflowRunLogs (workflowRunId projectId : string) (before : option Z) (limit : Z)
    : Proc R WorkflowLogPage :=
  let query := [("projectId", projectId); ("limit", pretty limit)] in
  let query := match before with
               | Some b => if b =? 0 then query else query_set "before" (pretty b) query
               | None => query
               end in
  response ← fetch fetcher (MkApiRequest "GET" ["api"; "v1"; "workflow-runs"; workflowRunId; "logs"] query None);
  if negb (rp_ok response) then throw (runner_returned response) else good_json response.

Definition parseStoredWorkflowLogEvent (stored : StoredEvent) : option StoredWorkflowLogEvent :=
  match parse_event (st_payload stored) with
  | Some e => Some (MkReplayed (st_id stored) e)
  | None => None
  end.

(** The variables of the loop of [fetchWorkflowRunEventsSince]. *)
Record Paging := MkPaging {
  lp_collected : jmap Z WorkflowLogEvent;
  lp_newest : option Z;
  lp_reached : bool
}.

(** The body of [for (const stored of page.events)]. *)
Definition page_event (afterEventId : Z) (s : Paging) (stored : StoredEvent) : Paging :=
  if st_id stored <=? afterEventId then MkPaging (lp_collected s) (lp_newest s) true
  else
    MkPaging
      (match parseStoredWorkflowLogEvent stored with
       | Some parsed => <[rv_id parsed := rv_event parsed]> (lp_collected s)
       | None => lp_collected s
       end)
      (Some (Z.max (default 0 (lp_newest s)) (st_id stored)))
      (lp_reached s).

(** [while (true)], for at most [fuel] pages; [None] when that is not enough. *)
Fixpoint page_loop (fuel : nat) (workflowRunId projectId : string) (afterEventId pageSize : Z)
    (seenCursors : list Z) (before : option Z) (s : Paging) : Proc R (option Paging) :=
  match fuel with
  | O => mret None
  | S fuel' =>
      page ← fetchWorkflowRunLogs workflowRunId projectId before pageSize;
      let s' := fold_left (page_event afterEventId) (pg_events page)
                  (MkPaging (lp_collected s) (lp_newest s) false) in
      if lp_reached s' || negb (pg_hasMore page) then mret (Some s')
      else match pg_nextBefore page with
           | None => mret (Some s')
           | Some next =>
               if set_has next seenCursors then throw (JsError "Runner returned a repeated pagination cursor")
               else page_loop fuel' workflowRunId projectId afterEventId pageSize
                      (set_add next seenCursors) (Some next) s'
           end
  end.

Definition event_id_cmp (left right : StoredWorkflowLogEvent) : Z := rv_id left - rv_id right.

Definition fetchWorkflowRunEventsSince (fuel : nat) (workflowRunId projectId : string) (afterEventId pageSize : Z)
    : Proc R (option WorkflowLogReplay) :=
  result ← page_loop fuel workflowRunId projectId afterEventId pageSize [] None (MkPaging ∅ None false);
  mret (match result with
        | None => None
        | Some s => Some (MkReplay (js_sort event_id_cmp (map (fun kv => MkReplayed kv.1 kv.2) (entries (lp_collected s))))
                            (lp_newest s))
        end).
End Client.

(** ** The runner's log pages *)

(** The tables behind them: the project of each run that is not deleted, and the stored events in the
    order of their ids, which count up from 1. *)
Record RunnerLog := MkLog {
  lg_worker : bool;
  lg_projects : jmap string string;
  lg_events : list StoredEvent
}.

(** [strconv.ParseInt(text, 10, 64)] with its error dropped: 0 for a syntax
    error, the nearest bound out of range. *)
Definition ParseInt (text : string) : Z :=
  let bounded z := Z.max (- 2 ^ 63) (Z.min z (2 ^ 63 - 1)) in
  match text with
  | String "-" t => default 0 (bounded ∘ Z.opp <$> digits1 10 t)
  | String "+" t => default 0 (bounded <$> digits1 10 t)
  | _ => default 0 (bounded <$> digits1 10 text)
  end%char.

Definition query_get (k : string) (q : list (string * string)) : string := default "" (assoc_get k q).

Definition newest_first (a b : StoredEvent) : Z := st_id b - st_id a.

Definition page_limit (limit : Z) : Z := if (limit <=? 0) || (250 <? limit) then 100 else limit.

Definition ListWorkflowLogEventsBefore (log : RunnerLog) (workflowRunID : string) (beforeID limit : Z)
    : list StoredEvent * bool :=
  let limit := page_limit limit in
  let rows := filter (fun e => st_workflow_run_id e = workflowRunID /\ st_event_type e = "workflowlog"
                               /\ (0 < beforeID -> st_id e < beforeID)) (lg_events log) in
  let events := take (Z.to_nat (limit + 1)) (js_sort newest_first rows) in
  let hasMore := bool_decide (limit < Z.of_nat (length events)) in
  (if hasMore then take (Z.to_nat limit) events else events, hasMore).

Definition ListWorkflowRunLogs (request : ApiRequest) (log : RunnerLog) : ApiReply WorkflowLogPage :=
  match rq_path request with
  | [_; _; _; runID; _] =>
      let projectID := query_get "projectId" (rq_query request) in
      if negb (lg_worker log) then MkReply 500 None (Some "workflow worker is not enabled")
      else if bool_decide (projectID = "" \/ lg_projects log !! runID <> Some projectID) then MkReply 404 None (Some "workflow run not found")
      else
        let before := ParseInt (query_get "before" (rq_query request)) in
        let limit := ParseInt (query_get "limit" (rq_query request)) in
        let '(events, hasMore) := ListWorkflowLogEventsBefore log runID before limit in
        MkReply 200 (Some (MkPage events hasMore
          (Some (match last events with Some e => st_id e | None => 0 end)))) None
  | _ => MkReply 404 None None
  end.

(** The log as a fetcher: a page is a query. *)
Definition log_fetcher (request : ApiRequest) (log : RunnerLog) : ApiReply WorkflowLogPage * RunnerLog :=
  (ListWorkflowRunLogs request log, log).
