(* ===== verification/RunReplayFacts.v ===== *)
(** * Paging through a log that grows

    [fetchWorkflowRunEventsSince] against the runner's log pages: the cursor
    strictly decreases through ids the first request has already fixed, so the
    loop ends, and what it returns is a snapshot of the log. *)

From S2P Require Import Prelude JsLib FlowTypes RunEvents JsonParse Process RunReplay.
From Stdlib Require Import Ascii.
From stdpp Require Import sorting.
Open Scope Z_scope.

(** ** Numbers in queries *)
Lemma digits_go x s : (0 < x)%N -> digits 10 0 (pretty_N_go x s) = digits 10 (Z.of_N x) s.
Proof.
  revert s. induction (N.lt_wf_0 x) as [x _ IH]; intros s Hx. rewrite pretty_N_go_step by done.
  assert (Hd : digit_value (pretty_N_char (x mod 10)) = Some (Z.of_N (x mod 10))).
  { pose proof (digit_char (x mod 10) (N.mod_upper_bound x 10 ltac:(done))) as H.
    unfold dec_value in H. destruct (digit_value _) as [v|]; [|done]. by destruct (v <? 10). }
  assert (Hs : forall acc, digits 10 acc (String (pretty_N_char (x mod 10)) s)
                           = digits 10 (acc * 10 + Z.of_N (x mod 10)) s).
  { intros acc. simpl. rewrite Hd. rewrite (proj2 (Z.ltb_lt _ _)); [done|].
    pose proof (N.mod_upper_bound x 10 ltac:(done)). lia. }
  destruct (decide (x < 10)%N) as [Hlt|Hge].
  - rewrite (N.div_small x 10) by done. rewrite pretty_N_go_0, Hs. f_equal. rewrite N.mod_small by done. done.
  - rewrite IH; [|by apply N.div_lt|].
    + rewrite Hs. f_equal. pose proof (N.div_mod x 10 ltac:(done)). lia.
    + apply N.div_str_pos. lia.
Qed.

Lemma ParseInt_pretty z : 0 < z < 2 ^ 63 -> ParseInt (pretty z) = z.
Proof.
  intros [Hz Hb]. destruct z as [|p|p]; [done| |done].
  change (pretty (Zpos p)) with (pretty (N.pos p)). unfold pretty, pretty_N. rewrite decide_False by done.
  destruct (scan_go (N.pos p) "" eq_refl) as (d & t & E & Hd & _).
  pose proof (digits_go (N.pos p) "" eq_refl) as Hv. rewrite E in Hv |- *.
  assert (Hc : digits1 10 (String (pretty_N_char d) t) = Some (Z.pos p)) by exact Hv.
  assert (d = 1 \/ d = 2 \/ d = 3 \/ d = 4 \/ d = 5 \/ d = 6 \/ d = 7 \/ d = 8 \/ d = 9)%N as Hcases by lia.
  unfold ParseInt. repeat destruct Hcases as [->|Hcases]; [..|subst d]; simpl pretty_N_char in *;
    cbv beta iota; rewrite Hc; simpl; lia.
Qed.

(** ** The log *)

(** Ids count up from 1 and stay where a JavaScript number is exact. *)
Definition log_ordered (log : RunnerLog) : Prop :=
  StronglySorted (fun a b => st_id a < st_id b) (lg_events log)
  /\ Forall (fun e => 0 < st_id e < 2 ^ 53) (lg_events log).

(** The runner only appends while it runs. *)
Definition grown (log log' : RunnerLog) : Prop :=
  lg_worker log' = lg_worker log /\ lg_projects log' = lg_projects log
  /\ exists new, lg_events log' = lg_events log ++ new.

(** The log events of a run, oldest first, and those after a cursor. *)
Definition run_rows (workflowRunId : string) (log : RunnerLog) : list StoredEvent :=
  filter (fun e => st_workflow_run_id e = workflowRunId /\ st_event_type e = "workflowlog") (lg_events log).

Definition newer (after : Z) (rows : list StoredEvent) : list StoredEvent := filter (fun e => after < st_id e) rows.

#[export] Instance grown_preorder : PreOrder grown.
Proof.
  split.
  - intros log. repeat split. exists []. by rewrite app_nil_r.
  - intros a b c (Hw & Hp & n1 & H1) (Hw' & Hp' & n2 & H2). repeat split; [congruence|congruence|].
    exists (n1 ++ n2). by rewrite H2, H1, app_assoc.
Qed.

#[export] Instance newest_first_comparator : Comparator newest_first.
Proof. split; unfold cmp_le, newest_first; intros; lia. Qed.

#[export] Instance event_id_comparator : Comparator event_id_cmp.
Proof. split; unfold cmp_le, event_id_cmp; intros; lia. Qed.

Definition ascending (l : list StoredEvent) : Prop := StronglySorted (fun a b => st_id a < st_id b) l.
Definition descending (l : list StoredEvent) : Prop := StronglySorted (fun a b => st_id b < st_id a) l.

Lemma StronglySorted_snoc {A} (R : A -> A -> Prop) l x :
  StronglySorted R l -> Forall (fun y => R y x) l -> StronglySorted R (l ++ [x]).
Proof.
  induction 1 as [|y l Hs IH Hf]; intros Hx; simpl; [repeat constructor|].
  inversion_clear Hx. constructor; [by apply IH|]. apply Forall_app. split; [done|by repeat constructor].
Qed.

Lemma reverse_descending l : ascending l -> descending (reverse l).
Proof.
  induction 1 as [|x l Hs IH Hf]; [constructor|]. rewrite reverse_cons. apply StronglySorted_snoc; [done|].
  by apply Forall_reverse.
Qed.

(** A list in strict order is what sorting any arrangement of it gives. *)
Lemma sort_strict {A} (cmp : A -> A -> Z) `{!Comparator cmp} l l' :
  l' ≡ₚ l -> StronglySorted (fun a b => cmp a b < 0) l' -> (forall a b, cmp a b < 0 -> 0 < cmp b a) ->
  js_sort cmp l = l'.
Proof.
  intros Hp Hs Hflip. assert (Hle : StronglySorted (cmp_le cmp) l').
  { eapply StronglySorted_weaken; [|exact Hs]. unfold cmp_le. intros; simpl in *; lia. }
  assert (Hx : forall x y, x ∈ l' -> y ∈ l' -> x = y \/ cmp x y < 0 \/ cmp y x < 0).
  { clear -Hs. induction Hs as [|z l' Hs IH Hf]; [intros ?? []%not_elem_of_nil|].
    rewrite Forall_forall in Hf. intros x y [->|Hx]%elem_of_cons [->|Hy]%elem_of_cons; auto. }
  eapply StronglySorted_unique_strong; [|apply js_sort_sorted, _|exact Hle|by rewrite js_sort_perm, Hp].
  intros x y Hxin Hyin Hxy Hyx. rewrite elem_of_js_sort, <- Hp in Hxin. unfold cmp_le in *.
  destruct (Hx x y Hxin Hyin) as [?|[H|H]]; [done| |]; apply Hflip in H; lia.
Qed.

Lemma sort_newest_first l : ascending l -> js_sort newest_first l = reverse l.
Proof.
  intros Hl. apply (sort_strict newest_first l); [apply reverse_Permutation| |unfold newest_first; intros; lia].
  eapply StronglySorted_weaken; [|by apply reverse_descending]. unfold newest_first. intros; simpl in *; lia.
Qed.

(** ** The pages of a run *)
Lemma run_rows_ascending r log : log_ordered log -> ascending (run_rows r log).
Proof. intros [Hs _]. by apply StronglySorted_filter. Qed.

Lemma run_rows_ids r log e : log_ordered log -> e ∈ run_rows r log -> 0 < st_id e < 2 ^ 53.
Proof. intros [_ Hf] [_ He]%list_elem_of_filter. rewrite Forall_forall in Hf. by apply Hf. Qed.

(** The page that starts at the head of [rows], newest first. *)
Definition page_of (limit : Z) (rows : list StoredEvent) : WorkflowLogPage :=
  let n := Z.to_nat (page_limit limit) in
  MkPage (take n rows) (bool_decide (n < length rows)%nat)
    (Some (match last (take n rows) with Some e => st_id e | None => 0 end)).

Lemma page_limit_range limit : 1 <= page_limit limit <= 250.
Proof. unfold page_limit. destruct (limit <=? 0) eqn:E; simpl; [lia|]. destruct (250 <? limit) eqn:E'; lia. Qed.

(** The rows a request with cursor [before] pages through. *)
Definition rows_before (before : option Z) (rows : list StoredEvent) : list StoredEvent :=
  match before with Some b => filter (fun e => st_id e < b) rows | None => rows end.

Lemma list_before_spec log r before limit : log_ordered log ->
  (forall b, before = Some b -> 0 < b) ->
  ListWorkflowLogEventsBefore log r (default 0 before) limit
  = let page := page_of limit (reverse (rows_before before (run_rows r log))) in (pg_events page, pg_hasMore page).
Proof.
  intros Hlog Hb. unfold ListWorkflowLogEventsBefore.
  assert (Hrows : filter (fun e => st_workflow_run_id e = r /\ st_event_type e = "workflowlog"
      /\ (0 < default 0 before -> st_id e < default 0 before)) (lg_events log)
    = rows_before before (run_rows r log)).
  { destruct before as [b|]; simpl.
    - specialize (Hb b eq_refl). unfold run_rows. rewrite list_filter_filter. apply list_filter_iff. tauto.
    - apply list_filter_iff. intuition lia. }
  rewrite Hrows, sort_newest_first.
  2: { destruct before; simpl; [apply StronglySorted_filter|]; by apply run_rows_ascending. }
  set (rows := reverse _). unfold page_of. simpl. pose proof (page_limit_range limit).
  set (n := Z.to_nat (page_limit limit)).
  replace (Z.to_nat (page_limit limit + 1)) with (S n) by lia.
  assert (Hd : page_limit limit < Z.of_nat (length (take (S n) rows)) <-> (n < length rows)%nat)
    by (rewrite length_take; lia).
  destruct (decide (n < length rows)%nat) as [Hn|Hn].
  - rewrite !bool_decide_true by tauto. rewrite take_take. do 2 f_equal. lia.
  - rewrite !bool_decide_false by tauto. by rewrite !take_ge by lia.
Qed.

(** What the runner can answer for run [r] of project [p]. *)
Definition serves (r p : string) (log : RunnerLog) : Prop :=
  log_ordered log /\ lg_worker log = true /\ p <> "" /\ lg_projects log !! r = Some p.

(** What the client's request is answered with. *)
Lemma logs_reply r p before limit log {B} (k : WorkflowLogPage -> Proc RunnerLog B) env i d :
  env i d = log -> serves r p log -> 0 < limit < 2 ^ 63 -> (forall b, before = Some b -> 0 < b < 2 ^ 53) ->
  run_under env i (fetchWorkflowRunLogs log_fetcher r p before limit ≫= k) d
  = run_under env (S i) (k (page_of limit (reverse (rows_before before (run_rows r log))))) log.
Proof.
  intros Ei (Hlog & Hw & Hp & Hproj) Hl Hb. unfold fetchWorkflowRunLogs. simpl. rewrite Ei.
  set (q := match before with Some _ => _ | None => _ end).
  assert (Hq : query_get "projectId" q = p /\ ParseInt (query_get "limit" q) = limit
               /\ ParseInt (query_get "before" q) = default 0 before).
  { subst q. pose proof (ParseInt_pretty limit Hl) as Hpl. destruct before as [b|]; [|done].
    specialize (Hb b eq_refl). rewrite (proj2 (Z.eqb_neq b 0)) by lia.
    repeat split; [done|]. change (ParseInt (pretty b) = b). apply ParseInt_pretty. lia. }
  destruct Hq as (Hqp & Hql & Hqb). set (req := MkApiRequest _ _ _ _).
  assert (Hrep : ListWorkflowRunLogs req log
    = MkReply 200 (Some (page_of limit (reverse (rows_before before (run_rows r log))))) None).
  { unfold ListWorkflowRunLogs, req. cbv [rq_path rq_query]. rewrite Hqp, Hw, Hql, Hqb.
    rewrite bool_decide_false by (rewrite Hproj; tauto). cbv [negb].
    by rewrite list_before_spec by (done || intros b Eb; by apply Hb). }
  by rewrite Hrep.
Qed.

(** The pages after the first see the log as the first one did. *)
Lemma rows_before_grown log log' r e : log_ordered log' -> grown log log' -> e ∈ run_rows r log ->
  rows_before (Some (st_id e)) (run_rows r log') = rows_before (Some (st_id e)) (run_rows r log).
Proof.
  intros [Hs _] (_ & _ & new & E) [_ He]%list_elem_of_filter. unfold run_rows. rewrite E, filter_app. simpl.
  rewrite filter_app. rewrite (filter_none _ (filter _ new)), app_nil_r; [done|].
  rewrite Forall_forall. intros x [_ Hx]%list_elem_of_filter. rewrite E in Hs.
  pose proof (StronglySorted_app_1_elem_of _ _ _ _ _ Hs He Hx) as Hlt. simpl in Hlt. lia.
Qed.

(** A page ends at the row the next one starts below. *)
Lemma rows_below P e R L : descending (reverse L) -> reverse L = (P ++ [e]) ++ R ->
  reverse (rows_before (Some (st_id e)) L) = R.
Proof.
  intros Hd E. simpl. rewrite <- filter_reverse, E in *.
  rewrite filter_app, (filter_none _ (P ++ [e])), (filter_all _ R); [done| |]; apply Forall_forall; intros x Hx.
  - apply (StronglySorted_app_1_elem_of _ _ _ e x Hd); [|done]. apply elem_of_app. right. by apply list_elem_of_singleton.
  - apply StronglySorted_app_1_l in Hd. apply elem_of_app in Hx as [Hx| ->%list_elem_of_singleton]; [|lia].
    pose proof (StronglySorted_app_1_elem_of _ _ _ x e Hd Hx ltac:(by apply list_elem_of_singleton)) as Hlt.
    simpl in Hlt. lia.
Qed.

(** ** The loop *)
Section Loop.
Context (parse_event : string -> option WorkflowLogEvent).

Definition collect (rows : list StoredEvent) (m : jmap Z WorkflowLogEvent) : jmap Z WorkflowLogEvent :=
  fold_left (fun m e => <[rv_id e := rv_event e]> m) (omap (parseStoredWorkflowLogEvent parse_event) rows) m.

Definition newest (rows : list StoredEvent) (o : option Z) : option Z :=
  fold_left (fun o e => Some (Z.max (default 0 o) (st_id e))) rows o.

Lemma page_fold after rows s :
  fold_left (page_event parse_event after) rows s
  = MkPaging (collect (newer after rows) (lp_collected s)) (newest (newer after rows) (lp_newest s))
      (lp_reached s || existsb (fun e => st_id e <=? after) rows).
Proof.
  revert s. induction rows as [|e rows IH]; intros s; simpl; [by destruct s; rewrite orb_false_r|].
  rewrite IH. unfold newer, page_event. rewrite filter_cons. destruct (Z.leb_spec (st_id e) after).
  - rewrite decide_False by lia. simpl. by rewrite orb_true_r.
  - rewrite decide_True by lia. simpl. unfold collect. simpl.
    by destruct (parseStoredWorkflowLogEvent parse_event e).
Qed.

Lemma newer_all after rows : Forall (fun e => after < st_id e) rows -> newer after rows = rows.
Proof. apply filter_all. Qed.

Lemma newer_app after l l' : newer after (l ++ l') = newer after l ++ newer after l'.
Proof. apply filter_app. Qed.

(** Once a row at or below the cursor shows up, no newer one follows. *)
Lemma newer_cut after l l' : descending (l ++ l') -> existsb (fun e => st_id e <=? after) l = true ->
  newer after (l ++ l') = newer after l.
Proof.
  intros Hd (x & Hx%list_elem_of_In & Hle%Z.leb_le)%existsb_exists. rewrite newer_app. unfold newer at 2.
  rewrite filter_none, app_nil_r; [done|]. apply Forall_forall. intros y Hy.
  pose proof (StronglySorted_app_1_elem_of _ _ _ x y Hd Hx Hy) as Hlt. simpl in Hlt. lia.
Qed.

Context (r p : string) (after limit : Z) (env : nat -> RunnerLog -> RunnerLog).
Hypothesis limit_range : 0 < limit < 2 ^ 63.

Local Notation n := (Z.to_nat (page_limit limit)).
Local Notation loop := (page_loop log_fetcher parse_event).

(** One page: the last one, or a full page of newer rows. *)
Lemma loop_step fuel R before seen s i d log : env i d = log -> serves r p log ->
  (forall b, before = Some b -> 0 < b < 2 ^ 53) ->
  reverse (rows_before before (run_rows r log)) = R -> descending R ->
  (exists reached, run_under env i (loop (S fuel) r p after limit seen before s) d
     = (Return (Some (MkPaging (collect (newer after R) (lp_collected s)) (newest (newer after R) (lp_newest s))
                        reached)), log))
  \/ exists P e R', R = (P ++ [e]) ++ R' /\ length (P ++ [e]) = n /\ Forall (fun x => after < st_id x) (P ++ [e])
     /\ (st_id e ∉ seen ->
         run_under env i (loop (S fuel) r p after limit seen before s) d
         = run_under env (S i) (loop fuel r p after limit (set_add (st_id e) seen) (Some (st_id e))
             (MkPaging (collect (P ++ [e]) (lp_collected s)) (newest (P ++ [e]) (lp_newest s)) false)) log).
Proof.
  intros Ei Hs Hb HR Hd. pose proof (page_limit_range limit) as Hn.
  assert (Hrun : forall B (k : _ -> Proc RunnerLog B), run_under env i (fetchWorkflowRunLogs log_fetcher r p before limit ≫= k) d
    = run_under env (S i) (k (page_of limit R)) log) by (intros; rewrite <- HR; by apply logs_reply).
  cbn [page_loop]. rewrite Hrun, page_fold. cbn [lp_collected lp_newest lp_reached orb pg_events pg_hasMore pg_nextBefore page_of].
  destruct (existsb _ (take n R)) eqn:Hex; cbn [orb].
  - left. exists true. rewrite <- (newer_cut after (take n R) (drop n R)), take_drop; [done|by rewrite take_drop|done].
  - case_bool_decide as Hmore; cbn [negb].
    2: { left. exists false. by rewrite take_ge by lia. }
    assert (Hlen : length (take n R) = n) by (rewrite length_take; lia).
    destruct (exists_last (l := take n R)) as (P & e & HP); [intros E; rewrite E in Hlen; simpl in Hlen; lia|].
    assert (Hnew : Forall (fun x => after < st_id x) (P ++ [e])).
    { rewrite <- HP. apply Forall_forall. intros x Hx. destruct (Z.leb_spec (st_id x) after) as [Hle|]; [|done].
      exfalso. apply not_true_iff_false in Hex. apply Hex, existsb_exists. exists x.
      split; [by apply list_elem_of_In|by apply Z.leb_le]. }
    right. exists P, e, (drop n R). rewrite <- HP at 1. rewrite take_drop. rewrite HP in Hlen |- *.
    repeat split; [done|done|]. intros Hseen. rewrite last_snoc. rewrite (proj2 (set_has_false _ _) Hseen).
    by rewrite newer_all.
Qed.

Hypothesis env_appends : forall i d, log_ordered d -> grown d (env i d) /\ log_ordered (env i d).

Lemma serves_grown log log' : serves r p log -> grown log log' -> log_ordered log' -> serves r p log'.
Proof. intros (_ & Hw & Hp & Hr) (Hw' & Hp' & _) Ho. unfold serves. by rewrite Hw', Hp'. Qed.

Lemma collect_app l l' m : collect (l ++ l') m = collect l' (collect l m).
Proof. unfold collect. by rewrite omap_app, fold_left_app. Qed.

Lemma newest_app l l' o : newest (l ++ l') o = newest l' (newest l o).
Proof. apply fold_left_app. Qed.

(** The pages after the first one, by the rows that are left. *)
Lemma loop_rest log0 fuel P e R seen s i d : serves r p log0 ->
  reverse (run_rows r log0) = (P ++ [e]) ++ R -> seen ⊆ map st_id (P ++ [e]) ->
  grown log0 d -> log_ordered d -> (length (newer after R) / n < fuel)%nat ->
  exists reached d', run_under env i (loop fuel r p after limit seen (Some (st_id e)) s) d
  = (Return (Some (MkPaging (collect (newer after R) (lp_collected s)) (newest (newer after R) (lp_newest s))
                     reached)), d').
Proof.
  intros Hs. revert P e R seen s i d. induction fuel as [|fuel IH]; intros P e R seen s i d E Hseen Hg Ho Hf; [lia|].
  pose proof (page_limit_range limit) as Hn. destruct (env_appends i d Ho) as [Hg' Ho'].
  pose proof (transitivity Hg Hg') as Hg0. pose proof (serves_grown _ _ Hs Hg0 Ho') as Hs'.
  pose proof (reverse_descending _ (run_rows_ascending r log0 (proj1 Hs))) as Hd.
  assert (He : e ∈ run_rows r log0).
  { apply elem_of_reverse. rewrite E, !elem_of_app, list_elem_of_singleton. auto. }
  destruct (loop_step fuel R (Some (st_id e)) seen s i d _ eq_refl Hs') as [(reached & ->)|(P' & e' & R' & -> & Hlen & Hnew & Hstep)].
  - intros b [= <-]. by apply (run_rows_ids r log0 e (proj1 Hs)).
  - rewrite (rows_before_grown log0 _ r e Ho' Hg0 He). by apply (rows_below P e R).
  - rewrite E in Hd. by apply StronglySorted_app_1_r in Hd.
  - eauto.
  - rewrite newer_app, (newer_all after (P' ++ [e'])) in Hf |- * by done.
    assert (Hni : st_id e' ∉ seen).
    { intros Hin%Hseen. apply list_elem_of_fmap in Hin as (x & Ex & Hx). rewrite E in Hd.
      pose proof (StronglySorted_app_1_elem_of _ _ _ x e' Hd Hx) as Hlt. simpl in Hlt.
      rewrite !elem_of_app, list_elem_of_singleton in Hlt. specialize (Hlt ltac:(auto)). lia. }
    rewrite (Hstep Hni), (collect_app (P' ++ [e'])), (newest_app (P' ++ [e'])).
    destruct (IH ((P ++ [e]) ++ P') e' R' (set_add (st_id e') seen)
      (MkPaging (collect (P' ++ [e']) (lp_collected s)) (newest (P' ++ [e']) (lp_newest s)) false) (S i) (env i d))
      as (reached & d' & ->); [by rewrite E, <- !app_assoc| |done|done| |by eauto].
    + intros x [->|Hx]%elem_of_set_add; rewrite !map_app, !elem_of_app; simpl; [right; left|].
      apply Hseen in Hx. rewrite map_app, elem_of_app in Hx. tauto.
    + rewrite length_app, Hlen, <- (Nat.mul_1_l n) in Hf at 1. rewrite Nat.div_add_l in Hf by lia. lia.
Qed.

Lemma loop_all fuel d : let R := newer after (reverse (run_rows r (env 0%nat d))) in
  serves r p d -> (length R / n < fuel)%nat ->
  exists reached d', run_under env 0 (loop fuel r p after limit [] None (MkPaging ∅ None false)) d
  = (Return (Some (MkPaging (collect R ∅) (newest R None) reached)), d').
Proof.
  intros R Hs Hf. destruct fuel as [|fuel]; [lia|]. pose proof (page_limit_range limit) as Hn.
  destruct (env_appends 0%nat d (proj1 Hs)) as [Hg Ho]. pose proof (serves_grown _ _ Hs Hg Ho) as Hs'.
  pose proof (reverse_descending _ (run_rows_ascending r _ (proj1 Hs'))) as Hd.
  destruct (loop_step fuel _ None [] (MkPaging ∅ None false) 0%nat d _ eq_refl Hs' ltac:(done) eq_refl Hd)
    as [(reached & E)|(P & e & R' & HR & Hlen & Hnew & Hstep)]; [eauto|].
  simpl in HR. rewrite (Hstep (not_elem_of_nil _)). subst R.
  rewrite HR, newer_app, (newer_all after (P ++ [e])) in Hf |- * by done.
  rewrite (collect_app (P ++ [e])), (newest_app (P ++ [e])).
  apply (loop_rest (env 0%nat d) fuel P e R' _ (MkPaging (collect (P ++ [e]) ∅) (newest (P ++ [e]) None) false));
    [done|done| |reflexivity|done|].
  - intros x [->|[]%not_elem_of_nil]%elem_of_set_add. rewrite map_app, elem_of_app. right. left.
  - rewrite length_app, Hlen, <- (Nat.mul_1_l n) in Hf at 1. rewrite Nat.div_add_l in Hf by lia. lia.
Qed.
End Loop.

(** ** The replay *)
Lemma collect_fresh parse_event l m : NoDup (jkeys m ++ map st_id l) ->
  map (fun kv => MkReplayed kv.1 kv.2) (entries (collect parse_event l m))
  = map (fun kv => MkReplayed kv.1 kv.2) (entries m) ++ omap (parseStoredWorkflowLogEvent parse_event) l.
Proof.
  revert m. induction l as [|e l IH]; intros m Hn; simpl; [by rewrite app_nil_r|].
  unfold collect in *. simpl.
  assert (Hpe : parseStoredWorkflowLogEvent parse_event e
    = match parse_event (st_payload e) with Some ev => Some (MkReplayed (st_id e) ev) | None => None end) by done.
  rewrite Hpe. clear Hpe. destruct (parse_event (st_payload e)) as [ev|]; simpl.
  - apply NoDup_app in Hn as (Hm & Hd & Hl). assert (Hni : st_id e ∉ jkeys m) by (intros Hi; apply (Hd _ Hi); left).
    pose proof (entries_insert_fresh _ ev _ Hni) as He.
    assert (Hk : jkeys (<[st_id e := ev]> m) = jkeys m ++ [st_id e]) by (unfold jkeys; by rewrite He, map_app).
    rewrite IH, He, map_app, <- app_assoc; [done|]. rewrite Hk, <- app_assoc. apply NoDup_app. by split_and!.
  - apply IH. apply NoDup_app in Hn as (Hm & Hd & Hl). apply NoDup_cons in Hl as [_ Hl].
    apply NoDup_app. split_and!; [done| |done]. intros x Hx Hin. apply (Hd x Hx). by right.
Qed.

Lemma descending_ids l : descending l -> NoDup (map st_id l).
Proof.
  induction 1 as [|e l Hs IH Hf]; simpl; constructor; [|done]. rewrite list_elem_of_fmap.
  intros (x & E & Hx). rewrite Forall_forall in Hf. specialize (Hf x Hx). simpl in Hf. lia.
Qed.

Lemma newest_bounded l z : Forall (fun e => st_id e < z) l -> newest l (Some z) = Some z.
Proof.
  induction 1 as [|e l He Hl IH]; [done|]. unfold newest in *. simpl. by rewrite Z.max_l by lia.
Qed.

Lemma newest_head l : descending l -> Forall (fun e => 0 < st_id e) l -> newest l None = st_id <$> head l.
Proof.
  destruct 1 as [|e l Hs Hf]; intros Hp; [done|]. inversion_clear Hp. simpl.
  change (newest l (Some (Z.max 0 (st_id e))) = Some (st_id e)). rewrite Z.max_r by lia. by apply newest_bounded.
Qed.

(** What a replay after [after] is meant to return: the events of a run stored
    after that id, oldest first, and the last of their ids. *)
Definition replay_of (parse_event : string -> option WorkflowLogEvent) (after : Z) (rows : list StoredEvent)
    : WorkflowLogReplay :=
  MkReplay (omap (parseStoredWorkflowLogEvent parse_event) (newer after rows)) (st_id <$> last (newer after rows)).

Lemma parsed_ascending parse_event l : ascending l ->
  StronglySorted (fun a b => event_id_cmp a b < 0) (omap (parseStoredWorkflowLogEvent parse_event) l).
Proof.
  assert (Hid : forall e x, parseStoredWorkflowLogEvent parse_event e = Some x -> rv_id x = st_id e).
  { intros e x. unfold parseStoredWorkflowLogEvent. destruct (parse_event _); [by intros [= <-]|done]. }
  induction 1 as [|e l Hs IH Hf]; cbn; [constructor|].
  destruct (parseStoredWorkflowLogEvent parse_event e) as [x|] eqn:E; [|done]. constructor; [done|].
  apply Forall_forall. intros y (e' & He' & E')%list_elem_of_omap. rewrite Forall_forall in Hf.
  specialize (Hf e' He'). unfold event_id_cmp. rewrite (Hid _ _ E), (Hid _ _ E'). simpl in Hf. lia.
Qed.

(** Enough fuel, and the loop returns the snapshot. *)
Lemma since_replays parse_event r p after limit env fuel d :
  let log := env 0%nat d in
  serves r p d -> 0 < limit < 2 ^ 63 ->
  (forall i d, log_ordered d -> grown d (env i d) /\ log_ordered (env i d)) ->
  (length (newer after (run_rows r log)) / Z.to_nat (page_limit limit) < fuel)%nat ->
  (run_under env 0 (fetchWorkflowRunEventsSince log_fetcher parse_event fuel r p after limit) d).1
  = Return (Some (replay_of parse_event after (run_rows r log))).
Proof.
  intros log Hs Hl Henv Hf. pose proof (proj2 (Henv 0%nat d (proj1 Hs))) as Ho. fold log in Ho.
  pose proof (run_rows_ascending r log Ho) as Ha. unfold newer in Hf.
  set (R := newer after (reverse (run_rows r log))).
  assert (HR : R = reverse (newer after (run_rows r log))) by apply filter_reverse.
  assert (Hd : descending R) by (apply StronglySorted_filter, reverse_descending, Ha).
  destruct (loop_all parse_event r p after limit env Hl Henv fuel d Hs) as (reached & d' & E).
  { fold log R. by rewrite HR, length_reverse. }
  unfold fetchWorkflowRunEventsSince. rewrite run_under_ret, E. cbn. fold log R. do 2 f_equal. unfold replay_of. f_equal.
  - rewrite collect_fresh by (by apply descending_ids). simpl. rewrite HR. apply (sort_strict event_id_cmp).
    + by rewrite reverse_Permutation.
    + by apply parsed_ascending, StronglySorted_filter.
    + unfold event_id_cmp. lia.
  - rewrite newest_head; [by rewrite HR, head_reverse|done|]. apply Forall_forall.
    intros e He. apply list_elem_of_filter in He as [_ He]. rewrite reverse_Permutation in He.
    pose proof (run_rows_ids r log e Ho He). lia.
Qed.

(** C26: a replay is a snapshot of the log.  However much the run logs while the
    browser pages through it, [fetchWorkflowRunEventsSince] asks for at most one
    page more than the newer events fill, never meets a repeated cursor, and
    returns exactly the events stored after the cursor when the first page was
    read (those that parse), oldest first, with the id of the newest one. *)
Theorem replay_is_snapshot parse_event r p after limit env fuel d :
  let log := env 0%nat d in
  serves r p d -> 0 < limit < 2 ^ 63 ->
  (forall i d, log_ordered d -> grown d (env i d) /\ log_ordered (env i d)) ->
  (length (newer after (run_rows r log)) / Z.to_nat (page_limit limit) < fuel)%nat ->
  (run_under env 0 (fetchWorkflowRunEventsSince log_fetcher parse_event fuel r p after limit) d).1
  = Return (Some (replay_of parse_event after (run_rows r log))).
Proof. apply since_replays. Qed.

(** ** Witness: a runner that logs one more event before every request *)
Definition demo_row (id : Z) (payload : string) : StoredEvent := MkStored id "r1" "workflowlog" payload.
Definition demo_log : RunnerLog :=
  MkLog true (<["r1" := "p1"]> ∅) [demo_row 3 "a"; MkStored 4 "r2" "workflowlog" "x"; demo_row 7 "bad"; demo_row 8 "b"].

Definition demo_event (message : string) : WorkflowLogEvent :=
  MkLogEvent "r1" "p1" "w1" None None None message None None None None
    None None None None None None None None None 5 1 None (Some message).
Definition demo_parse (payload : string) : option WorkflowLogEvent :=
  if bool_decide (payload = "bad") then None else Some (demo_event payload).

Definition next_id (log : RunnerLog) : Z := default 0 (st_id <$> last (lg_events log)) + 1.
Definition logging (_ : nat) (log : RunnerLog) : RunnerLog :=
  if next_id log <? 2 ^ 53
  then MkLog (lg_worker log) (lg_projects log) (lg_events log ++ [demo_row (next_id log) "more"]) else log.

Lemma logging_appends i d : log_ordered d -> grown d (logging i d) /\ log_ordered (logging i d).
Proof.
  intros [Hs Hp]. unfold logging. destruct (Z.ltb_spec (next_id d) (2 ^ 53)) as [Hlt|]; [|by split].
  assert (Hlast : Forall (fun e => st_id e < next_id d) (lg_events d)).
  { unfold next_id. destruct (last (lg_events d)) as [x|] eqn:El; simpl; [|apply last_None in El; rewrite El; constructor].
    apply last_Some in El as [l' El]. rewrite El in *. apply Forall_app. split; [|constructor; [lia|constructor]].
    apply Forall_forall. intros e He.
    pose proof (StronglySorted_app_1_elem_of _ _ _ e x Hs He ltac:(by apply list_elem_of_singleton)) as H. simpl in H. lia. }
  assert (0 < next_id d).
  { unfold next_id. destruct (last (lg_events d)) as [x|] eqn:El; simpl; [|lia].
    apply last_Some_elem_of in El. rewrite Forall_forall in Hp. specialize (Hp x El). simpl in Hp. lia. }
  split; [repeat split; by eexists|]. split; simpl.
  - by apply StronglySorted_snoc.
  - apply Forall_app. split; [done|]. constructor; [simpl; lia|constructor].
Qed.

Lemma demo_log_serves : serves "r1" "p1" demo_log.
Proof. split; [split; repeat constructor; simpl; lia|]. by split_and!. Qed.

Lemma replay_is_snapshot_witness :
  (run_under logging 0 (fetchWorkflowRunEventsSince log_fetcher demo_parse 5 "r1" "p1" 3 2) demo_log).1
  = Return (Some (MkReplay [MkReplayed 8 (demo_event "b"); MkReplayed 9 (demo_event "more")] (Some 9))).
Proof.
  rewrite (replay_is_snapshot demo_parse "r1" "p1" 3 2 logging 5 demo_log).
  - vm_compute. reflexivity.
  - apply demo_log_serves.
  - lia.
  - apply logging_appends.
  - vm_compute. repeat constructor.
Defined.
