(* ===== verification/RunPage.v ===== *)
(** * The events of the run page: [ui-v2/src/modules/workflow/components/WorkflowRunPage.tsx]

    How the page of a run keeps its list of persisted events: the newest page
    of the log when it opens, replays from the stored cursor when the event
    stream is down or the run has ended, and earlier pages on demand.  The
    theorem is that, whatever the order of these and of the runner's writes,
    the page holds an unbroken stretch of the stored log. *)

From S2P Require Import Prelude FlowTypes JsLib ClientId SyncTypes SyncService SyncMiddleware RunEvents ExecutionStore.
From S2P Require Import JsonParse Process RunReplay RunReplayFacts.
From Stdlib Require Import Ascii.
From stdpp Require Import relations sorting.
Open Scope Z_scope.

(** The page's state and the part of the execution store it uses. *)
Record RunPage := MkRunPage {
  pp_executions : ExecutionStore.ExecutionState;
  pp_persisted : list WorkflowLogEvent;
  pp_oldest : option Z;
  pp_hasMore : bool
}.

Section Page.
Context (parse_event : string -> option WorkflowLogEvent) (r p : string).

(** [Number(lastEventId || 0)], 0 unless it is a safe integer. *)
Definition stored_cursor (st : ExecutionStore.ExecutionState) : Z :=
  match ExecutionStore.executions st !! r with
  | None => 0
  | Some ex =>
      match ExecutionStore.ex_lastEventId ex with
      | Some text =>
          if str_truthy text then
            match js_BigInt text with
            | Some z => if Z.abs z <=? 2 ^ 53 - 1 then z else 0
            | None => 0
            end
          else 0
      | None => 0
      end
  end.

(** The parsed events of a log page, oldest first. *)
Definition page_events (page : WorkflowLogPage) : list StoredWorkflowLogEvent :=
  js_sort event_id_cmp (omap (parseStoredWorkflowLogEvent parse_event) (pg_events page)).

(** [if (id) updateReplayCursor(workflowRunId, String(id))] *)
Definition move_page_cursor (id : Z) (st : ExecutionStore.ExecutionState) : ExecutionStore.ExecutionState :=
  if id =? 0 then st else ExecutionStore.cursor_state r (pretty id) st.

(** The log part of [loadInitialRun]. *)
Definition loadInitialRun (page : WorkflowLogPage) (pg : RunPage) : RunPage :=
  let parsed := page_events page in
  let newestEventId := fold_left (fun newest item => Z.max newest (st_id item)) (pg_events page) 0 in
  MkRunPage (move_page_cursor newestEventId (pp_executions pg)) (map rv_event parsed)
    (match pg_nextBefore page with Some b => Some b | None => rv_id <$> head parsed end) (pg_hasMore page).

(** The log part of [reconcileDurableRun]. *)
Definition reconcileDurableRun (replay : WorkflowLogReplay) (pg : RunPage) : RunPage :=
  MkRunPage
    (match rl_newestEventId replay with
     | Some id => move_page_cursor id (pp_executions pg)
     | None => pp_executions pg
     end)
    (if (0 <? length (rl_events replay))%nat
     then mergeWorkflowRunEvents [pp_persisted pg; map rv_event (rl_events replay)] else pp_persisted pg)
    (pp_oldest pg) (pp_hasMore pg).

Definition loadEarlierEvents (page : WorkflowLogPage) (pg : RunPage) : RunPage :=
  let parsed := page_events page in
  MkRunPage (pp_executions pg) (map rv_event parsed ++ pp_persisted pg)
    (match pg_nextBefore page with
     | Some b => Some b
     | None => match head parsed with Some e => Some (rv_id e) | None => pp_oldest pg end
     end) (pg_hasMore page).

(** What happens while the page is open: the runner logs, a reconciliation
    replays what is newer than the cursor while the runner goes on, and earlier
    events are loaded when there is an oldest one. *)
Inductive page_step : RunnerLog * RunPage -> RunnerLog * RunPage -> Prop :=
| step_logged log log' pg : grown log log' -> log_ordered log' -> page_step (log, pg) (log', pg)
| step_reconciled env fuel log log' replay pg :
    (forall i d, log_ordered d -> grown d (env i d) /\ log_ordered (env i d)) ->
    (length (newer (stored_cursor (pp_executions pg)) (run_rows r (env 0%nat log))) < fuel)%nat ->
    run_under env 0 (fetchWorkflowRunEventsSince log_fetcher parse_event fuel r p
                       (stored_cursor (pp_executions pg)) 200) log = (Return (Some replay), log') ->
    page_step (log, pg) (log', reconcileDurableRun replay pg)
| step_earlier log b page pg : pp_oldest pg = Some b -> b <> 0 ->
    run (fetchWorkflowRunLogs log_fetcher r p (Some b) 200) log = (Return page, log) ->
    page_step (log, pg) (log, loadEarlierEvents page pg).

(** ** Lists of events up to merging *)
Definition key_last (l : list WorkflowLogEvent) (k : string) : option WorkflowLogEvent :=
  last (filter (fun e => eventKey e = k) l).

(** Two lists show the same events: the last event of each key agrees. *)
Definition same_events (l l' : list WorkflowLogEvent) : Prop := forall k, key_last l k = key_last l' k.

#[export] Instance same_events_equiv : Equivalence same_events.
Proof. split; unfold same_events; [done| |]; intros; congruence. Qed.

Lemma key_last_app l l' k :
  key_last (l ++ l') k = match key_last l' k with Some e => Some e | None => key_last l k end.
Proof. unfold key_last. by rewrite filter_app, last_app. Qed.

#[export] Instance same_events_app : Proper (same_events ==> same_events ==> same_events) app.
Proof. intros l1 l2 H l1' l2' H' k. by rewrite !key_last_app, (H k), (H' k). Qed.

Lemma key_last_unique l k : NoDup (map eventKey l) -> forall e, key_last l k = Some e <-> e ∈ l /\ eventKey e = k.
Proof.
  intros Hn e. unfold key_last. split.
  - intros He%last_Some_elem_of. apply list_elem_of_filter in He. tauto.
  - intros [He Hk]. induction l as [|x l IH]; [by apply not_elem_of_nil in He|].
    simpl in Hn. apply NoDup_cons in Hn as [Hx Hn]. rewrite filter_cons.
    apply elem_of_cons in He as [->|He].
    + rewrite decide_True, (filter_none _ l); [done| |done]. apply Forall_forall. intros y Hy Ey. apply Hx.
      rewrite Hk, <- Ey. by apply list_elem_of_fmap_2.
    + specialize (IH Hn He). case_decide; [|done]. by rewrite last_cons, IH.
Qed.

(** Merging keeps the events a list shows. *)
Lemma merge_same sources : same_events (mergeWorkflowRunEvents sources) (concat sources).
Proof.
  intros k. pose proof (merge_keys_nodup sources) as Hn.
  destruct (key_last (concat sources) k) as [e|] eqn:E.
  - apply key_last_unique; [done|].
    assert (Hk : eventKey e = k) by (apply last_Some_elem_of, list_elem_of_filter in E; tauto).
    split; [|done]. apply merge_elem. by rewrite Hk.
  - destruct (key_last (mergeWorkflowRunEvents sources) k) as [e|] eqn:E'; [|done].
    apply key_last_unique in E' as [He <-]; [|done]. apply merge_elem in He. unfold key_last in E. congruence.
Qed.

Lemma same_events_merge l l' : same_events l l' ->
  forall e, e ∈ mergeWorkflowRunEvents [l] <-> e ∈ mergeWorkflowRunEvents [l'].
Proof.
  intros H e. rewrite !merge_elem. simpl. rewrite !app_nil_r.
  pose proof (H (eventKey e)) as Hk. unfold key_last in Hk. by rewrite Hk.
Qed.

(** ** Cursors *)
Lemma go_chars (P : ascii -> bool) x s : (forall d, (d < 10)%N -> P (pretty_N_char d) = true) ->
  str_forallb P s = true -> str_forallb P (pretty_N_go x s) = true.
Proof.
  intros HP. revert s. induction (N.lt_wf_0 x) as [x _ IH]; intros s Hs.
  destruct (decide (x = 0)%N) as [->|Hx]; [done|]. rewrite pretty_N_go_step by lia.
  apply IH; [apply N.div_lt; lia|]. simpl. rewrite Hs, HP by (by apply N.mod_upper_bound). done.
Qed.

Lemma BigInt_pretty z : 0 < z -> js_BigInt (pretty z) = Some z /\ str_truthy (pretty z) = true.
Proof.
  intros Hz. destruct z as [|q|q]; [done| |done].
  change (pretty (Zpos q)) with (pretty (N.pos q)). unfold pretty, pretty_N. rewrite decide_False by done.
  destruct (scan_go (N.pos q) "" eq_refl) as (d & t & E & Hd & _).
  pose proof (digits_go (N.pos q) "" eq_refl) as Hv.
  assert (Ht : js_trim (pretty_N_go (N.pos q) "") = pretty_N_go (N.pos q) "").
  { apply trim_clean, go_chars; [|done]. intros c Hc.
    destruct (decide (c < 5)%N); [assert (c = 0 \/ c = 1 \/ c = 2 \/ c = 3 \/ c = 4)%N as H by lia|
      assert (c = 5 \/ c = 6 \/ c = 7 \/ c = 8 \/ c = 9)%N as H by lia];
    repeat destruct H as [->|H]; try done; by subst. }
  unfold js_BigInt. rewrite Ht. rewrite E in Hv |- *. split; [|done].
  assert (Hc : digits1 10 (String (pretty_N_char d) t) = Some (Z.pos q)) by exact Hv.
  assert (d = 1 \/ d = 2 \/ d = 3 \/ d = 4 \/ d = 5 \/ d = 6 \/ d = 7 \/ d = 8 \/ d = 9)%N as Hcases by lia.
  repeat destruct Hcases as [->|Hcases]; [..|subst d]; exact Hc.
Qed.

(** The store has the run, with cursor [c]; 0 is none. *)
Definition cursor_is (c : Z) (st : ExecutionStore.ExecutionState) : Prop :=
  exists ex, ExecutionStore.executions st !! r = Some ex
  /\ (ExecutionStore.ex_lastEventId ex = None /\ c = 0
      \/ ExecutionStore.ex_lastEventId ex = Some (pretty c) /\ 0 < c < 2 ^ 53).

Lemma cursor_stored c st : cursor_is c st -> stored_cursor st = c.
Proof.
  intros (ex & Hex & [[He ->]|[He Hc]]); unfold stored_cursor; rewrite Hex, He; [done|].
  destruct (BigInt_pretty c) as [-> ->]; [lia|]. by rewrite (proj2 (Z.leb_le _ _)) by lia.
Qed.

Lemma cursor_moves c id st : cursor_is c st -> 0 < id < 2 ^ 53 -> cursor_is (Z.max c id) (move_page_cursor id st).
Proof.
  intros (ex & Hex & Hc) Hid. unfold move_page_cursor. rewrite (proj2 (Z.eqb_neq id 0)) by lia.
  unfold ExecutionStore.cursor_state. rewrite Hex. destruct (BigInt_pretty id) as [Hb Ht]; [lia|].
  unfold isNewerEventId. rewrite Ht. cbn [negb]. destruct Hc as [[He ->]|[He Hc]]; rewrite He.
  - eexists. cbn. rewrite jlookup_insert_eq. split; [done|]. right. simpl. rewrite Z.max_r by lia. auto.
  - destruct (BigInt_pretty c) as [Hb' Ht']; [lia|]. rewrite Ht', Hb, Hb'. cbn [negb].
    destruct (Z.ltb_spec c id).
    + eexists. cbn. rewrite jlookup_insert_eq. split; [done|]. right. simpl. rewrite Z.max_r by lia. auto.
    + exists ex. split; [done|]. right. rewrite Z.max_l by lia. auto.
Qed.

(** ** Reading leaves the log to the runner *)
Fixpoint reads {A} (q : Proc RunnerLog A) : Prop :=
  match q with
  | Done _ => True
  | Await stmt k => forall d, (stmt d).2 = d /\ reads (k (stmt d).1)
  end.

Lemma reads_bind {A B} (q : Proc RunnerLog A) (k : A -> Proc RunnerLog B) :
  reads q -> (forall a, reads (k a)) -> reads (q ≫= k).
Proof.
  intros Hq Hk. induction q as [[a|e]|X stmt k' IH]; [apply Hk|done|].
  intros d. destruct (Hq d) as [H1 H2]. split; [done|]. by apply IH.
Qed.

Lemma reads_run {A} env i (q : Proc RunnerLog A) d : reads q ->
  (forall i d, log_ordered d -> grown d (env i d) /\ log_ordered (env i d)) -> log_ordered d ->
  grown d (run_under env i q d).2 /\ log_ordered (run_under env i q d).2.
Proof.
  intros Hq Henv. revert i d. induction q as [res|X stmt k IH]; intros i d Ho; [done|].
  destruct (Henv i d Ho) as [Hg Ho']. simpl. destruct (Hq (env i d)) as [Hd Hk]. rewrite Hd.
  destruct (IH _ Hk (S i) _ Ho') as [Hg' Ho'']. split; [by etransitivity|done].
Qed.

Lemma reads_first {A} env i (q : Proc RunnerLog A) d : reads q ->
  (forall i d, log_ordered d -> grown d (env i d) /\ log_ordered (env i d)) -> log_ordered d ->
  match q with Done _ => True | Await _ _ => grown (env i d) (run_under env i q d).2 end.
Proof.
  intros Hq Henv Ho. destruct q as [res|X stmt k]; [done|]. simpl. destruct (Hq (env i d)) as [Hd Hk]. rewrite Hd.
  apply reads_run; [done|done|]. by apply Henv.
Qed.

Lemma logs_read before limit : reads (fetchWorkflowRunLogs log_fetcher r p before limit).
Proof.
  unfold fetchWorkflowRunLogs. apply reads_bind; [done|]. intros response.
  destruct (negb (rp_ok response)); [done|]. unfold good_json. by destruct (rp_json response).
Qed.

Lemma loop_reads fuel after limit seen before s :
  reads (page_loop log_fetcher parse_event fuel r p after limit seen before s).
Proof.
  revert seen before s. induction fuel as [|fuel IH]; intros seen before s; [done|].
  cbn [page_loop]. apply reads_bind; [apply logs_read|]. intros page. cbv zeta.
  case_match; [done|]. destruct (pg_nextBefore page); [|done]. by case_match.
Qed.

Lemma since_reads fuel after limit : reads (fetchWorkflowRunEventsSince log_fetcher parse_event fuel r p after limit).
Proof. apply reads_bind; [apply loop_reads|done]. Qed.

(** ** The invariant *)
Definition shown_events (rows : list StoredEvent) : list WorkflowLogEvent :=
  map rv_event (omap (parseStoredWorkflowLogEvent parse_event) rows).

Lemma shown_events_app l l' : shown_events (l ++ l') = shown_events l ++ shown_events l'.
Proof. unfold shown_events. by rewrite omap_app, map_app. Qed.

(** The page read last stretch of [rows]. *)
Lemma page_tail rows : ascending rows -> exists pre tail, rows = pre ++ tail
  /\ map rv_event (page_events (page_of 200 (reverse rows))) = shown_events tail
  /\ pg_events (page_of 200 (reverse rows)) = reverse tail
  /\ (pg_hasMore (page_of 200 (reverse rows)) = false -> pre = [])
  /\ (tail = [] -> pre = [])
  /\ pg_nextBefore (page_of 200 (reverse rows)) = Some (match head tail with Some e => st_id e | None => 0 end).
Proof.
  intros Ha. change (page_of 200) with (fun rows => MkPage (take 200 rows) (bool_decide (200 < length rows)%nat)
    (Some (match last (take 200 rows) with Some e => st_id e | None => 0 end))). cbv beta.
  remember (length rows - 200)%nat as k eqn:Hk. exists (take k rows), (drop k rows).
  assert (Ht : take 200 (reverse rows) = reverse (drop k rows)).
  { destruct (decide (200 <= length rows)%nat).
    - rewrite <- (take_drop k rows) at 1. rewrite reverse_app, take_app_length'; [done|].
      rewrite length_reverse, length_drop. lia.
    - replace k with 0%nat by lia. rewrite drop_0. apply take_ge. rewrite length_reverse. lia. }
  split; [by rewrite take_drop|]. unfold page_events. cbn [pg_events pg_hasMore pg_nextBefore]. rewrite Ht.
  split; [|split; [done|]; split_and!].
  - unfold shown_events. f_equal. apply (sort_strict event_id_cmp); [by rewrite reverse_Permutation| |unfold event_id_cmp; lia].
    apply parsed_ascending. rewrite <- (take_drop k rows) in Ha. by apply StronglySorted_app_1_r in Ha.
  - intros Hm%bool_decide_eq_false. rewrite length_reverse in Hm. by replace k with 0%nat by lia.
  - intros Hd%(f_equal length). rewrite length_drop in Hd. simpl in Hd. replace k with 0%nat by lia. done.
  - by rewrite last_reverse.
Qed.

(** The page holds the stretch [suf] of the log [L], which ends with the cursor and
    starts at the oldest id: everything before is still to be loaded. *)
Definition page_inv (L : RunnerLog) (c : RunnerLog * RunPage) : Prop :=
  serves r p c.1 /\ log_ordered L /\ grown L c.1
  /\ cursor_is (default 0 (st_id <$> last (run_rows r L))) (pp_executions c.2)
  /\ exists pre suf, run_rows r L = pre ++ suf
     /\ (pp_hasMore c.2 = false -> pre = [])
     /\ (pp_oldest c.2 = Some 0 /\ pre = [] \/ exists e, head suf = Some e /\ pp_oldest c.2 = Some (st_id e))
     /\ same_events (pp_persisted c.2) (shown_events suf).

Lemma grown_rows L log : grown L log -> exists new, run_rows r log = run_rows r L ++ new.
Proof.
  intros (_ & _ & new & E). unfold run_rows. rewrite E, filter_app. eauto.
Qed.

(** Rows that came after a log are newer than its cursor. *)
Lemma newer_rows L log new : log_ordered log -> run_rows r log = run_rows r L ++ new ->
  newer (default 0 (st_id <$> last (run_rows r L))) (run_rows r log) = new.
Proof.
  intros Ho E. pose proof (run_rows_ascending r log Ho) as Ha. unfold newer. rewrite E in Ha |- *.
  rewrite filter_app. destruct (last (run_rows r L)) as [e|] eqn:El; simpl.
  - apply last_Some in El as [l' El]. rewrite El in *.
    rewrite (filter_none _ (l' ++ [e])), (filter_all _ new); [done| |]; apply Forall_forall; intros x Hx.
    + apply (StronglySorted_app_1_elem_of _ _ _ e x Ha); [|done]. rewrite elem_of_app, list_elem_of_singleton. auto.
    + apply StronglySorted_app_1_l in Ha. apply elem_of_app in Hx as [Hx| ->%list_elem_of_singleton]; [|lia].
      pose proof (StronglySorted_app_1_elem_of _ _ _ x e Ha Hx ltac:(by apply list_elem_of_singleton)) as Hlt.
      simpl in Hlt. lia.
  - apply last_None in El. rewrite El in *. apply filter_all, Forall_forall. intros x Hx.
    apply (run_rows_ids r log x Ho). rewrite E. done.
Qed.

Lemma last_app_max (l new : list StoredEvent) : ascending (l ++ new) -> Forall (fun e => 0 < st_id e) (l ++ new) ->
  default 0 (st_id <$> last (l ++ new))
  = match last new with Some e => Z.max (default 0 (st_id <$> last l)) (st_id e) | None => default 0 (st_id <$> last l) end.
Proof.
  intros Ha Hp. rewrite last_app. destruct (last new) as [e|] eqn:E; [|done]. simpl.
  apply last_Some_elem_of in E. destruct (last l) as [x|] eqn:El; simpl.
  - apply last_Some_elem_of in El. pose proof (StronglySorted_app_1_elem_of _ _ _ x e Ha El E) as Hlt. simpl in Hlt. lia.
  - rewrite Forall_forall in Hp. specialize (Hp e). rewrite elem_of_app in Hp. specialize (Hp (or_intror E)). lia.
Qed.

Lemma rows_positive log : log_ordered log -> Forall (fun e => 0 < st_id e) (run_rows r log).
Proof. intros Ho. apply Forall_forall. intros e He. by apply (run_rows_ids r log e Ho). Qed.

Lemma logs_page log before : serves r p log -> (forall b, before = Some b -> 0 < b < 2 ^ 53) ->
  run (fetchWorkflowRunLogs log_fetcher r p before 200) log
  = (Return (page_of 200 (reverse (rows_before before (run_rows r log)))), log).
Proof.
  intros Hs Hb. pose proof (logs_reply r p before 200 log mret (fun _ d => d) 0 log eq_refl Hs ltac:(lia) Hb) as H.
  rewrite (run_under_ret _ _ _ (fun a => a)), run_under_alone in H. simpl in H.
  destruct (run _ log) as [[page|e] d]; simpl in H; by simplify_eq.
Qed.

Lemma earlier_inv L log b page pg : page_inv L (log, pg) -> pp_oldest pg = Some b -> b <> 0 ->
  run (fetchWorkflowRunLogs log_fetcher r p (Some b) 200) log = (Return page, log) ->
  page_inv L (log, loadEarlierEvents page pg).
Proof.
  intros (Hs & HoL & Hg & Hc & pre & suf & Er & Hmore & Hold & Hev) Hb Hb0 Hrun. cbn [fst snd] in *.
  destruct Hold as [[Hold _]|(e & He & Ho)]; [congruence|]. rewrite Ho in Hb. injection Hb as <-.
  assert (Hin : e ∈ run_rows r L) by (rewrite Er, elem_of_app; right; by apply head_Some_elem_of).
  rewrite logs_page in Hrun; [|done|]; [|intros ? [= <-]; by apply (run_rows_ids r L e HoL)].
  rewrite (rows_before_grown L log r e (proj1 Hs) Hg Hin) in Hrun.
  assert (Hpre : rows_before (Some (st_id e)) (run_rows r L) = pre).
  { pose proof (run_rows_ascending r L HoL) as Ha. rewrite Er in Ha |- *. simpl. rewrite filter_app.
    destruct suf as [|e' suf]; [done|]. injection He as ->.
    rewrite (filter_all _ pre), (filter_none _ (e :: suf)), app_nil_r; [done| |]; apply Forall_forall; intros x Hx.
    - apply StronglySorted_app_1_r in Ha. inversion_clear Ha as [|? ? _ Hf]. rewrite Forall_forall in Hf.
      apply elem_of_cons in Hx as [->|Hx]; [lia|]. specialize (Hf x Hx). simpl in Hf. lia.
    - apply (StronglySorted_app_1_elem_of _ _ _ x e Ha Hx). left. }
  rewrite Hpre in Hrun. injection Hrun as <-.
  destruct (page_tail pre) as (pre' & tail & Ep & Hsh & _ & Hm & Ht & Hn).
  { pose proof (run_rows_ascending r L HoL) as Ha. rewrite Er in Ha. by apply StronglySorted_app_1_l in Ha. }
  split; [done|]. split; [done|]. split; [done|]. split; [done|].
  exists pre', (tail ++ suf). unfold loadEarlierEvents. cbn [fst snd pp_hasMore pp_oldest pp_persisted].
  split; [by rewrite Er, Ep, app_assoc|]. split; [done|]. split.
  - rewrite Hn. destruct tail as [|x tail]; [left; auto|]. right. by exists x.
  - rewrite shown_events_app, Hsh. by apply same_events_app.
Qed.

Lemma reconcile_inv L env fuel log log' replay pg : page_inv L (log, pg) ->
  (forall i d, log_ordered d -> grown d (env i d) /\ log_ordered (env i d)) ->
  (length (newer (stored_cursor (pp_executions pg)) (run_rows r (env 0%nat log))) < fuel)%nat ->
  run_under env 0 (fetchWorkflowRunEventsSince log_fetcher parse_event fuel r p
                     (stored_cursor (pp_executions pg)) 200) log = (Return (Some replay), log') ->
  page_inv (env 0%nat log) (log', reconcileDurableRun replay pg).
Proof.
  intros (Hs & HoL & Hg & Hc & pre & suf & Er & Hmore & Hold & Hev) Henv Hf Hrun. simpl in *.
  destruct (Henv 0%nat log (proj1 Hs)) as [Hg1 Ho1]. set (L' := env 0%nat log) in *.
  pose proof (transitivity Hg Hg1) as Hg2. destruct (grown_rows L L' Hg2) as [new En].
  pose proof (newer_rows L L' new Ho1 En) as Hnew. rewrite (cursor_stored _ _ Hc) in Hf, Hrun.
  assert (Hrep : replay = MkReplay (omap (parseStoredWorkflowLogEvent parse_event) new) (st_id <$> last new)).
  { pose proof (since_replays parse_event r p (default 0 (st_id <$> last (run_rows r L))) 200 env fuel log Hs
      ltac:(lia) Henv) as Hsnap.
    rewrite Hrun in Hsnap. unfold replay_of in Hsnap. fold L' in Hsnap. rewrite Hnew in Hsnap, Hf.
    assert (Return (Some replay) = Return (Some (MkReplay (omap (parseStoredWorkflowLogEvent parse_event) new) (st_id <$> last new))))
      as [= ->]; [|done]. apply Hsnap. eapply Nat.le_lt_trans; [|exact Hf].
    change (Z.to_nat (page_limit 200)) with 200%nat. apply Nat.div_le_upper_bound; lia. }
  subst replay. unfold page_inv. cbn [fst snd].
  destruct (reads_run env 0 _ log (since_reads fuel (default 0 (st_id <$> last (run_rows r L))) 200) Henv (proj1 Hs)) as [Hgr Hor].
  rewrite Hrun in Hgr, Hor. cbn [snd] in Hgr, Hor.
  assert (Hgf : grown L' log').
  { destruct fuel as [|fuel]; [lia|].
    pose proof (reads_first env 0 _ log (since_reads (S fuel) (default 0 (st_id <$> last (run_rows r L))) 200) Henv (proj1 Hs)) as H.
    rewrite Hrun in H. exact H. }
  split; [by apply (serves_grown r p log)|]. split; [done|]. split; [done|]. split.
  - rewrite En, last_app_max by (rewrite <- En; auto using run_rows_ascending, rows_positive).
    unfold reconcileDurableRun. cbn [pp_executions rl_newestEventId]. destruct (last new) as [e|] eqn:El; [|done].
    apply cursor_moves; [done|]. apply (run_rows_ids r L' e Ho1). rewrite En. apply elem_of_app. right.
    by apply last_Some_elem_of.
  - exists pre, (suf ++ new). split; [by rewrite En, Er, app_assoc|]. split; [done|]. split.
    + destruct Hold as [Hold|(e & He & Ho)]; [by left|]. right. exists e. split; [|done]. by destruct suf.
    + rewrite shown_events_app. unfold reconcileDurableRun. cbn [pp_persisted rl_events]. unfold shown_events at 2.
      destruct (omap (parseStoredWorkflowLogEvent parse_event) new) as [|x l]; [by rewrite app_nil_r|].
      etransitivity; [apply (merge_same [pp_persisted pg; map rv_event (x :: l)])|]. cbn [concat]. rewrite app_nil_r.
      by apply same_events_app.
Qed.

Lemma fold_max_bounded l z : Forall (fun e => st_id e <= z) l ->
  fold_left (fun newest item => Z.max newest (st_id item)) l z = z.
Proof. induction 1 as [|e l He Hl IH]; simpl; [done|]. by rewrite Z.max_l by lia. Qed.

Lemma fold_max_head l : descending l -> Forall (fun e => 0 < st_id e) l ->
  fold_left (fun newest item => Z.max newest (st_id item)) l 0 = default 0 (st_id <$> head l).
Proof.
  destruct 1 as [|e l Hs Hf]; intros Hp; [done|]. inversion_clear Hp. simpl. rewrite Z.max_r by lia.
  apply fold_max_bounded. eapply Forall_impl; [exact Hf|]. simpl. lia.
Qed.

Lemma initial_inv log page pg c : serves r p log -> cursor_is c (pp_executions pg) ->
  c <= default 0 (st_id <$> last (run_rows r log)) ->
  run (fetchWorkflowRunLogs log_fetcher r p None 200) log = (Return page, log) ->
  page_inv log (log, loadInitialRun page pg).
Proof.
  intros Hs Hc Hle Hrun. rewrite logs_page in Hrun by done. injection Hrun as <-. simpl rows_before.
  pose proof (run_rows_ascending r log (proj1 Hs)) as Ha. pose proof (rows_positive log (proj1 Hs)) as Hp.
  destruct (page_tail (run_rows r log) Ha) as (pre & tail & Er & Hsh & Hev & Hm & Ht & Hn).
  split; [done|]. split; [apply Hs|]. split; [reflexivity|].
  assert (Hlast : last (run_rows r log) = last tail).
  { rewrite Er, last_app. destruct (last tail) eqn:El; [done|]. apply last_None in El. by rewrite (Ht El). }
  unfold loadInitialRun. cbn [fst snd pp_executions pp_persisted pp_oldest pp_hasMore]. rewrite Hev, Hn. split.
  - rewrite fold_max_head, head_reverse, <- Hlast.
    + destruct (last (run_rows r log)) as [e|] eqn:El; simpl in *.
      * pose proof (cursor_moves c (st_id e) _ Hc (run_rows_ids r log e (proj1 Hs) (last_Some_elem_of _ _ El))) as H.
        rewrite Z.max_r in H by done. exact H.
      * assert (c = 0) as -> by (destruct Hc as (ex & _ & [[_ ?]|[_ ?]]); lia). exact Hc.
    + apply reverse_descending. rewrite Er in Ha. by apply StronglySorted_app_1_r in Ha.
    + rewrite reverse_Permutation. rewrite Er in Hp. by apply Forall_app in Hp as [_ Hp].
  - exists pre, tail. split; [done|]. split; [done|]. split; [|by rewrite Hsh].
    destruct tail as [|e tail]; [left; auto|right; by exists e].
Qed.

Lemma steps_inv c c' : rtc page_step c c' -> forall L, page_inv L c -> exists L', grown L L' /\ page_inv L' c'.
Proof.
  induction 1 as [c|c1 c2 c3 Hstep _ IH]; intros L HL; [by exists L|].
  assert (exists L', grown L L' /\ page_inv L' c2) as (L1 & Hg1 & HL1).
  { destruct Hstep as [log log' pg Hg Ho|env fuel log log' replay pg Henv Hf Hrun|log b page pg Hb Hb0 Hrun].
    - exists L. split; [done|]. destruct HL as (Hs & HoL & HgL & Hrest). split; [by apply (serves_grown r p log)|].
      split; [done|]. split; [by etransitivity|done].
    - exists (env 0%nat log). split; [|by eapply reconcile_inv]. destruct HL as (Hs & _ & HgL & _).
      etransitivity; [exact HgL|]. by apply Henv, Hs.
    - exists L. split; [done|]. by eapply earlier_inv. }
  destruct (IH L1 HL1) as (L' & Hg' & HL'). exists L'. split; [by etransitivity|done].
Qed.

(** The page shows the log [L]: an unbroken stretch of the run's events up to its
    end, all of them unless earlier ones can be loaded, and the next replay
    starts after it.  What is displayed merges in the streamed [activities]. *)
Definition page_shows (L : RunnerLog) (pg : RunPage) : Prop :=
  exists pre suf, run_rows r L = pre ++ suf
  /\ (pp_hasMore pg = false -> pre = [])
  /\ stored_cursor (pp_executions pg) = default 0 (st_id <$> last (run_rows r L))
  /\ forall activities e, e ∈ mergeWorkflowRunEvents [pp_persisted pg; activities]
       <-> e ∈ mergeWorkflowRunEvents [shown_events suf; activities].

Lemma inv_shows L c : page_inv L c -> page_shows L c.2.
Proof.
  intros (_ & _ & _ & Hc & pre & suf & Er & Hm & _ & Hev). exists pre, suf. split; [done|]. split; [done|].
  split; [by apply cursor_stored|]. intros activities e. rewrite !merge_elem. cbn [concat].
  pose proof (same_events_app _ _ Hev _ _ (reflexivity (activities ++ [])) (eventKey e)) as Hk.
  unfold key_last in Hk. by rewrite Hk.
Qed.


End Page.

(** ** Witnesses *)
Definition demo_page : RunPage := MkRunPage ExecutionStore.demo_state [] None false.
Definition demo_opened : RunPage := loadInitialRun demo_parse "r1" (page_of 200 (reverse (run_rows "r1" demo_log))) demo_page.
Definition demo_refreshed : RunPage :=
  reconcileDurableRun "r1" (MkReplay [MkReplayed 9 (demo_event "more")] (Some 9)) demo_opened.

Lemma demo_cursor : cursor_is "r1" 7 (pp_executions demo_page).
Proof. exists ExecutionStore.demo_execution. split; [reflexivity|]. right. split; [reflexivity|lia]. Qed.

Lemma demo_refresh : page_step demo_parse "r1" "p1" (demo_log, demo_opened) (logging 0 demo_log, demo_refreshed).
Proof.
  apply (step_reconciled demo_parse "r1" "p1" logging 5).
  - apply logging_appends.
  - vm_compute. repeat constructor.
  - vm_compute. reflexivity.
Qed.


