(* ===== verification/Browser.v ===== *)
(** * The browser: every synchronised store beside the sync service

    The five stores share one [Host] with the service.  A [BrowserM] is code that
    runs in one task of the event loop over all of them; [settle] is the
    microtask checkpoint that follows it.  The stores are settled in the order
    in which code that uses several of them sets them: workflows, scenarios,
    scenario runs, runs, results. *)

From S2P Require Import Prelude FlowTypes SyncTypes ClientId FastQueue JsLib SyncService SyncMiddleware RunSnapshot.
From S2P Require Import WorkflowStore ScenarioStore ExecutionStore ScenarioRunStore TestResultStore.
Open Scope Z_scope.

Section Browser.
Context `{D : Deque SyncChange}.

Record Browser := MkBrowser {
  br_world : World;
  br_workflows : Store WorkflowStore.WorkflowState;
  br_scenarios : Store ScenarioStore.ScenarioState;
  br_runs : RunStores
}.

Definition BrowserM (A : Type) : Type := Browser -> res A * Browser.

#[export] Instance BrowserM_ret : MRet BrowserM := fun A a b => (Return a, b).
#[export] Instance BrowserM_bind : MBind BrowserM := fun A B f m b =>
  match m b with
  | (Return a, b') => f a b'
  | (Throw e, b') => (Throw e, b')
  end.

Definition lift_res {A} (r : res A) : BrowserM A := fun b => (r, b).
Definition readBrowser {A} (f : Browser -> A) : BrowserM A := fun b => (Return (f b), b).

Definition set_world (w : World) (b : Browser) : Browser :=
  MkBrowser w (br_workflows b) (br_scenarios b) (br_runs b).
Definition on_world (f : World -> World) : BrowserM unit := fun b => (Return tt, set_world (f (br_world b)) b).
Definition on_service (f : SyncService -> SyncService) : BrowserM unit := on_world (set_service f).
Definition br_host (b : Browser) : Host := host (br_world b).

Definition in_workflows {A} (m : WorkflowStore.Action A) : BrowserM A := fun b =>
  let '(r, (h, s)) := m (br_host b, br_workflows b) in
  (r, MkBrowser (set_host h (br_world b)) s (br_scenarios b) (br_runs b)).
Definition in_scenarios {A} (m : ScenarioStore.Action A) : BrowserM A := fun b =>
  let '(r, (h, s)) := m (br_host b, br_scenarios b) in
  (r, MkBrowser (set_host h (br_world b)) (br_workflows b) s (br_runs b)).
Definition in_runs {A} (m : StoresM A) : BrowserM A := fun b =>
  let '(r, (h, s)) := m (br_host b, br_runs b) in
  (r, MkBrowser (set_host h (br_world b)) (br_workflows b) (br_scenarios b) s).

(** [for (const x of l) { if (step(x)) count += 1; }] *)
Fixpoint browser_count {A} (step : A -> BrowserM bool) (l : list A) (count : Z) : BrowserM Z :=
  match l with
  | [] => mret count
  | x :: l' => step x ≫= fun counted : bool => browser_count step l' (if counted then count + 1 else count)
  end.

Fixpoint browser_map {A B} (step : A -> BrowserM B) (l : list A) : BrowserM (list B) :=
  match l with
  | [] => mret []
  | x :: l' => y ← step x; ys ← browser_map step l'; mret (y :: ys)
  end.

(** The microtask checkpoint. *)
Definition settle (b : Browser) : Browser :=
  let '(e1, s1) := run_microtasks WorkflowStore.options (br_workflows b) in
  let '(e2, s2) := run_microtasks ScenarioStore.options (br_scenarios b) in
  let '(e3, s3) := run_microtasks ScenarioRunStore.options (scenario_run_store (br_runs b)) in
  let '(e4, s4) := run_microtasks ExecutionStore.options (execution_store (br_runs b)) in
  let '(e5, s5) := run_microtasks TestResultStore.options (test_result_store (br_runs b)) in
  let w := queue_emissions WorkflowStore.options e1 (br_world b) in
  let w := queue_emissions ScenarioStore.options e2 w in
  let w := queue_emissions ScenarioRunStore.options e3 w in
  let w := queue_emissions ExecutionStore.options e4 w in
  let w := queue_emissions TestResultStore.options e5 w in
  MkBrowser w s1 s2 (MkStores s4 s3 s5).

(** A task: its code, then the checkpoint. *)
Definition task {A} (m : BrowserM A) (b : Browser) : res A * Browser :=
  let '(r, b') := m b in (r, settle b').

Lemma browser_bind {A B} (m : BrowserM A) (k : A -> BrowserM B) b a b' :
  m b = (Return a, b') -> (m ≫= k) b = k a b'.
Proof. intros E. unfold mbind, BrowserM_bind. by rewrite E. Qed.

(** Nothing tracked in any store: the state between tasks whose operations have
    all been handed over. *)
Definition untracked (b : Browser) : Prop :=
  pendingOps (br_workflows b) = ∅ /\ pendingOps (br_scenarios b) = ∅
  /\ pendingOps (scenario_run_store (br_runs b)) = ∅ /\ pendingOps (execution_store (br_runs b)) = ∅
  /\ pendingOps (test_result_store (br_runs b)) = ∅.

Lemma untracked_drain {T} (opts : SimpleSyncOptions T) s : pendingOps s = ∅ ->
  run_microtasks opts s = ([], MkStore (state s) ∅ []).
Proof.
  intros Hp. unfold run_microtasks. rewrite Hp. generalize (state s), (microtasks s). clear.
  intros t ids. induction ids as [|id ids IH]; [done|].
  assert (Hm : microtask opts id (MkStore t ∅ []) = (None, MkStore t ∅ [])) by done.
  cbn [drain]. rewrite Hm, IH. done.
Qed.

(** The checkpoint of such a state queues nothing and changes no entity. *)
Lemma settle_untracked b : untracked b ->
  br_world (settle b) = br_world b /\ untracked (settle b)
  /\ state (br_workflows (settle b)) = state (br_workflows b)
  /\ state (br_scenarios (settle b)) = state (br_scenarios b)
  /\ state (scenario_run_store (br_runs (settle b))) = state (scenario_run_store (br_runs b))
  /\ state (execution_store (br_runs (settle b))) = state (execution_store (br_runs b))
  /\ state (test_result_store (br_runs (settle b))) = state (test_result_store (br_runs b)).
Proof.
  intros (H1 & H2 & H3 & H4 & H5). unfold settle. by rewrite !untracked_drain by done.
Qed.
End Browser.
