(* ===== verification/SyncHydration.v ===== *)
(** * Hydration: [ui-v2/src/modules/sync/sync-hydration.tsx]

    What the server has is pulled into the stores when a workspace opens, and
    again on demand.  The code awaits the stores' persisted state and the
    server, so it is a [Proc] over the browser and the server; what happens
    after a reply is one task.  [as_nodes], [as_edges] and [as_tests] read a
    parsed value at its declared type, and [date_time] is [new Date(text).getTime()]. *)

From S2P Require Import Prelude FlowTypes SyncTypes ClientId FastQueue JsLib Json JsonParse EdgeModel Process.
From S2P Require Import SyncService SyncMiddleware LastWriter WorkflowStore ScenarioStore ExecutionStore ScenarioRunStore.
From S2P Require Import TestResultStore RunSnapshot Browser.
Open Scope Z_scope.

Module SyncHydration.
Record HydrationResult := MkHydration {
  hr_success : bool;
  hr_workflowCount : Z;
  hr_scenarioCount : Z;
  hr_workflowRunCount : Z;
  hr_scenarioRunCount : Z;
  hr_testResultCount : Z;
  hr_error : option string
}.

(** [parseJSON(value, fallback)]; [None] stands for the fallback. *)
Definition parseJSON (value : option JsonValue) : option JsonValue :=
  match value with
  | None | Some JNull => None
  | Some (JStr s) => JSON_parse s
  | Some v => Some v
  end.

(** [Record<string, string[]>] *)
Definition as_order (v : JsonValue) : jmap string (list string) :=
  match v with JObj fs => JMap (map (fun kv => (kv.1, as_strings kv.2)) fs) | _ => ∅ end.

(** [data as WorkflowData] and [data as ScenarioData] for a JSON value. *)
Definition text_field (k : string) (v : JsonValue) : string :=
  match json_field k v with Some x => as_text x | None => "" end.
Definition number_field (k : string) (v : JsonValue) : Z :=
  match json_field k v with Some x => as_number x | None => 0 end.
Definition flag_field (k : string) (v : JsonValue) : bool :=
  match json_field k v with Some x => as_flag x | None => false end.

Definition as_workflow_data (v : JsonValue) : WorkflowData :=
  MkWorkflowData (text_field "id" v) (text_field "project_id" v) (text_field "name" v)
    (as_text <$> json_present (json_field "description" v)) (json_field "nodes_config" v)
    (json_field "edges_config" v) (json_field "metadata" v) (number_field "version" v)
    (text_field "created_at" v) (text_field "updated_at" v) (text_field "user_id" v) (text_field "client_id" v)
    (flag_field "is_deleted" v).

Definition as_scenario_data (v : JsonValue) : ScenarioData :=
  MkScenarioData (text_field "id" v) (text_field "project_id" v) (text_field "workflow_id" v) (text_field "name" v)
    (as_text <$> json_present (json_field "description" v)) (json_field "tests_config" v)
    (json_field "test_order" v) (json_field "metadata" v) (number_field "version" v)
    (text_field "created_at" v) (text_field "updated_at" v) (text_field "user_id" v) (text_field "client_id" v)
    (flag_field "is_deleted" v).

Section Hydration.
Context `{D : Deque SyncChange}.
Context (as_nodes : JsonValue -> list FlowNode) (as_edges : JsonValue -> list FlowEdge)
        (as_tests : JsonValue -> list ScenarioTestDefinition) (date_time : string -> Z)
        (engine_text : js_error -> string).

(** [error instanceof Error ? error.message : String(error)]; the text of an
    exception that the language raises is the engine's. *)
Definition error_message (e : js_error) : string :=
  match e with JsError m => m | _ => engine_text e end.

(** ** Deserializers *)
Definition deserializeWorkflow (data : WorkflowData) : res WorkflowStore.Workflow :=
  let nodes := match parseJSON (wd_nodes_config data) with Some v => as_nodes v | None => [] end in
  edges ← match parseJSON (wd_edges_config data) with
          | None => Return []
          | Some (JArr _ as v) => Return (as_edges v)
          | Some _ => Throw JsTypeError
          end;
  let metadata := default (JObj []) (parseJSON (wd_metadata data)) in
  customTestOrder ← json_get "customTestOrder" metadata;
  provenance ← json_get "provenance" metadata;
  importedBy ← json_get "importedBy" metadata;
  Return (WorkflowStore.MkWorkflow (wd_id data) (wd_project_id data) (wd_name data)
    (Some (default "" (wd_description data))) nodes (normalizeEdges edges false)
    (Some (match json_present customTestOrder with Some v => as_order v | None => ∅ end))
    (Some (match json_present provenance with
           | Some v => as_text v
           | None => match importedBy with
                     | Some (JStr s) => if decide (s = "agent") then "mcp" else "manual"
                     | _ => "manual"
                     end
           end))
    (MkMeta (wd_version data) (wd_created_at data) (wd_updated_at data) (wd_user_id data)
       (wd_client_id data) (wd_is_deleted data))).

Definition deserializeScenario (data : ScenarioData) : Scenario :=
  MkScenario (sd_id data) (sd_project_id data) (sd_workflow_id data) (sd_name data)
    (Some (default "" (sd_description data)))
    (match parseJSON (sd_tests_config data) with Some v => as_tests v | None => [] end)
    (match parseJSON (sd_test_order data) with Some v => as_strings v | None => [] end)
    (MkMeta (sd_version data) (sd_created_at data) (sd_updated_at data) (sd_user_id data)
       (sd_client_id data) (sd_is_deleted data)).

Definition deserializeWorkflowRun (data : WorkflowRunData) : res ExecutionStore.WorkflowExecution :=
  let metadata := default (JObj []) (parseJSON (wrd_metadata data)) in
  ids ← json_get "scenario_run_ids" metadata;
  Return (ExecutionStore.MkExecution (wrd_id data) (wrd_project_id data) (wrd_workflow_id data) (wrd_status data)
    (default [] (wrd_logs data)) (wrd_summary data) (wrd_error data)
    (timeValue date_time (wrd_started_at data) (wrd_created_at data))
    (finished_time date_time (wrd_completed_at data))
    (match ids with Some v => as_strings v | None => [] end) None ExecutionStore.no_queue_info
    (MkMeta (wrd_version data) (wrd_created_at data) (wrd_updated_at data) (wrd_user_id data)
       (wrd_client_id data) (wrd_is_deleted data))).

Definition deserializeScenarioRun (data : SessionData) : ScenarioRunStore.ScenarioRun :=
  ScenarioRunStore.MkRun (sn_id data) (sn_project_id data) (default "" (sn_workflow_run_id data))
    (default "" (sn_workflow_id data)) (default "" (sn_scenario_id data)) (default "Scenario" (sn_scenario_name data))
    (truthy_text (sn_backend_session_id data)) (sn_status data) (sn_result data)
    (truthy_text (sn_error data)) None None (default [] (sn_logs data))
    (timeValue date_time (sn_started_at data) (sn_created_at data))
    (finished_time date_time (sn_completed_at data))
    (MkMeta 1 (sn_created_at data) (sn_updated_at data) (sn_user_id data) (sn_client_id data)
       (sn_is_deleted data)).

Definition deserializeTestResult (data : TestResultData) : TestResultStore.TestResult :=
  TestResultStore.MkResult
    (TestResultStore.MkInput (trd_id data) (trd_project_id data) (trd_session_id data) (trd_workflow_run_id data)
       (trd_workflow_id data) None (trd_scenario_id data) (trd_scenario_name data) (trd_test_name data)
       (trd_test_type data) (trd_status data) (Some (default JNull (parseJSON (trd_result_data data))))
       (trd_duration_ms data) (trd_executed_at data) None)
    (MkMeta 1 (trd_created_at data) (trd_updated_at data) (trd_user_id data) (trd_client_id data)
       (trd_is_deleted data)).

(** ** The loops; each body says whether it counts its entity *)
Definition hydrate_workflow (force : bool) (workflow : WorkflowData) : BrowserM bool :=
  if wd_is_deleted workflow then mret false
  else
    deserialized ← lift_res (deserializeWorkflow workflow);
    in_workflows (if force then WorkflowStore.replaceWorkflowFromSync deserialized
                  else WorkflowStore.upsertWorkflowFromSync deserialized);;
    mret true.
Definition hydrateWorkflows (workflows : list WorkflowData) (force : bool) : BrowserM Z :=
  browser_count (hydrate_workflow force) workflows 0.

Definition hydrate_scenario (force : bool) (scenario : ScenarioData) : BrowserM bool :=
  if sd_is_deleted scenario then mret false
  else
    in_scenarios (if force then ScenarioStore.replaceScenarioFromSync (deserializeScenario scenario)
                  else ScenarioStore.upsertScenarioFromSync (deserializeScenario scenario));;
    mret true.
Definition hydrateScenarios (scenarios : list ScenarioData) (force : bool) : BrowserM Z :=
  browser_count (hydrate_scenario force) scenarios 0.

Definition hydrate_workflow_run (workflowRun : WorkflowRunData) : BrowserM bool :=
  if wrd_is_deleted workflowRun then mret false
  else
    execution ← lift_res (deserializeWorkflowRun workflowRun);
    in_runs (in_executions (ExecutionStore.upsertExecutionFromSync execution));;
    mret true.
Definition hydrateWorkflowRuns (workflowRuns : list WorkflowRunData) : BrowserM Z :=
  browser_count hydrate_workflow_run workflowRuns 0.

Definition hydrate_scenario_run (scenarioRun : SessionData) : BrowserM bool :=
  if hydrated_run scenarioRun then
    in_runs (in_scenario_runs (ScenarioRunStore.upsertScenarioRunFromSync (deserializeScenarioRun scenarioRun)));;
    mret true
  else mret false.
Definition hydrateScenarioRuns (scenarioRuns : list SessionData) : BrowserM Z :=
  browser_count hydrate_scenario_run scenarioRuns 0.

Definition hydrate_test_result (testResult : TestResultData) : BrowserM bool :=
  if trd_is_deleted testResult then mret false
  else
    in_runs (in_test_results (TestResultStore.upsertTestResultFromSync (deserializeTestResult testResult)));;
    mret true.
Definition hydrateTestResults (testResults : list TestResultData) : BrowserM Z :=
  browser_count hydrate_test_result testResults 0.

(** What [hydrateFromServer] does once the reply is there. *)
Definition hydrate_all (force : bool) (pullResponse : SyncPullResponse) : BrowserM HydrationResult :=
  workflowCount ← hydrateWorkflows (default [] (pull_workflows pullResponse)) force;
  scenarioCount ← hydrateScenarios (default [] (pull_scenarios pullResponse)) force;
  workflowRunCount ← hydrateWorkflowRuns (default [] (pull_workflow_runs pullResponse));
  scenarioRunCount ← hydrateScenarioRuns (default [] (pull_sessions pullResponse));
  testResultCount ← hydrateTestResults (default [] (pull_test_results pullResponse));
  mret (MkHydration true workflowCount scenarioCount workflowRunCount scenarioRunCount testResultCount None).

Definition hydration_failed (e : js_error) : HydrationResult := MkHydration false 0 0 0 0 0 (Some (error_message e)).

(** ** With the server

    [rehydrate] is [ensureClientStoresHydrated]: it reads the stores'
    persisted state with zustand's [persist], and may fail. *)
Section Server.
Context {S : Type} (rehydrate : Browser -> res unit * Browser)
        (server_pull : S -> string -> FetchOutcome SyncPullResponse * S)
        (server_sync : S -> SyncBatchRequest -> FetchOutcome SyncBatchResponse * S).

Definition System : Type := Browser * S.

(** A task of the browser, and a request. *)
Definition local {A} (m : BrowserM A) : Proc System A :=
  statement (fun '(b, s) => let '(r, b') := task m b in (r, (b', s))).
Definition remote {A} (f : S -> A * S) : Proc System A :=
  Await (fun '(b, s) => let '(a, s') := f s in (a, (b, s'))) (fun a => Process.Done (Return a)).

Definition ensureClientStoresHydrated : Proc System unit := local rehydrate.

Definition pull_proc : Proc System SyncPullResponse :=
  url ← local (fun b => let '(r, w) := client_url "pull" (br_world b) in (r, set_world w b));
  outcome ← remote (fun s => server_pull s url);
  Process.Done (pull_reply outcome).

Definition hydrateFromServer (force : bool) : Proc System HydrationResult :=
  catch (ensureClientStoresHydrated;; pullResponse ← pull_proc; local (hydrate_all force pullResponse))
        (fun e => mret (hydration_failed e)).

(** [syncService.flush()], which never rejects and sends at most twice. *)
Definition world_step {A} (f : World -> A * World) : BrowserM A := fun b =>
  let '(a, w) := f (br_world b) in (Return a, set_world w b).

Fixpoint drive_proc (n : nat) (p : Progress) : Proc System (option SyncBatchResponse) :=
  match p with
  | SyncService.Done r => mret r
  | Waiting req pending =>
      match n with
      | 0%nat => mret None
      | Datatypes.S n' =>
          outcome ← remote (fun s => server_sync s req);
          next ← local (world_step (resume pending outcome));
          drive_proc n' next
      end
  end.
Definition flush_proc : Proc System (option SyncBatchResponse) :=
  p ← local (world_step flush_begin); drive_proc 2 p.

Definition initializeSyncWithHydration : Proc System unit :=
  ensureClientStoresHydrated;;
  _ ← hydrateFromServer false;
  _ ← flush_proc;
  _ ← hydrateFromServer false;
  local (on_service start).

Definition rehydrateFromServer : Proc System HydrationResult := hydrateFromServer false.
End Server.

Definition needsHydration (b : Browser) : bool :=
  bool_decide (jkeys (WorkflowStore.workflows (state (br_workflows b))) = [])
  && bool_decide (jkeys (ScenarioStore.scenarios (state (br_scenarios b))) = [])
  && bool_decide (jkeys (ExecutionStore.executions (state (execution_store (br_runs b)))) = [])
  && bool_decide (jkeys (ScenarioRunStore.scenarioRuns (state (scenario_run_store (br_runs b)))) = [])
  && bool_decide (jkeys (TestResultStore.testResults (state (test_result_store (br_runs b)))) = []).
End Hydration.
End SyncHydration.
