(* ===== verification/SyncHydrationFacts.v ===== *)
(** * What hydration does to the stores *)

From S2P Require Import Prelude FlowTypes SyncTypes ClientId FastQueue JsLib Json JsonParse EdgeModel Process.
From S2P Require Import SyncService SyncMiddleware LastWriter WorkflowStore ScenarioStore ExecutionStore ScenarioRunStore.
From S2P Require Import TestResultStore RunSnapshot Browser SyncHydration.
Open Scope Z_scope.

(** The entities of the five stores. *)
Record Entities := MkEntities {
  en_workflows : WorkflowStore.WorkflowState;
  en_scenarios : ScenarioStore.ScenarioState;
  en_executions : ExecutionStore.ExecutionState;
  en_scenarioRuns : ScenarioRunStore.ScenarioRunState;
  en_testResults : TestResultStore.TestResultState
}.

Definition on_wf f (e : Entities) : Entities :=
  MkEntities (f (en_workflows e)) (en_scenarios e) (en_executions e) (en_scenarioRuns e) (en_testResults e).
Definition on_sc f (e : Entities) : Entities :=
  MkEntities (en_workflows e) (f (en_scenarios e)) (en_executions e) (en_scenarioRuns e) (en_testResults e).
Definition on_ex f (e : Entities) : Entities :=
  MkEntities (en_workflows e) (en_scenarios e) (f (en_executions e)) (en_scenarioRuns e) (en_testResults e).
Definition on_sr f (e : Entities) : Entities :=
  MkEntities (en_workflows e) (en_scenarios e) (en_executions e) (f (en_scenarioRuns e)) (en_testResults e).
Definition on_tr f (e : Entities) : Entities :=
  MkEntities (en_workflows e) (en_scenarios e) (en_executions e) (en_scenarioRuns e) (f (en_testResults e)).

Section Frame.
Context `{D : Deque SyncChange}.

Definition entities (b : Browser) : Entities :=
  MkEntities (state (br_workflows b)) (state (br_scenarios b)) (state (execution_store (br_runs b)))
    (state (scenario_run_store (br_runs b))) (state (test_result_store (br_runs b))).

(** [b'] differs from [b] in entities and scheduled microtasks only. *)
Definition quiet (b b' : Browser) : Prop :=
  br_world b' = br_world b
  /\ pendingOps (br_workflows b') = pendingOps (br_workflows b)
  /\ pendingOps (br_scenarios b') = pendingOps (br_scenarios b)
  /\ pendingOps (scenario_run_store (br_runs b')) = pendingOps (scenario_run_store (br_runs b))
  /\ pendingOps (execution_store (br_runs b')) = pendingOps (execution_store (br_runs b))
  /\ pendingOps (test_result_store (br_runs b')) = pendingOps (test_result_store (br_runs b)).

#[export] Instance quiet_preorder : PreOrder quiet.
Proof. split; [by intros b; split_and!|]. intros a b c H1 H2. unfold quiet in *. intuition congruence. Qed.

Lemma quiet_untracked b b' : quiet b b' -> untracked b -> untracked b'.
Proof. unfold quiet, untracked. intuition congruence. Qed.

(** An action that only changes entities. *)
Definition updates {A} (m : BrowserM A) (a : A) (f : Entities -> Entities) : Prop :=
  forall b, exists b', m b = (Return a, b') /\ quiet b b' /\ entities b' = f (entities b).

Lemma updates_ret {A} (a : A) : updates (mret a) a (fun e => e).
Proof. intros b. exists b. by split_and!. Qed.

Lemma updates_bind {A B} (m : BrowserM A) a f (k : A -> BrowserM B) c g :
  updates m a f -> updates (k a) c g -> updates (m ≫= k) c (fun e => g (f e)).
Proof.
  intros Hm Hk b. destruct (Hm b) as (b1 & E1 & Q1 & H1), (Hk b1) as (b2 & E2 & Q2 & H2).
  exists b2. rewrite (browser_bind _ _ _ _ _ E1). split; [done|]. split; [by etrans|]. by rewrite H2, H1.
Qed.

Lemma updates_lift {A B} (r : res A) a (k : A -> BrowserM B) c g :
  r = Return a -> updates (k a) c g -> updates (lift_res r ≫= k) c g.
Proof. intros -> H. exact H. Qed.

Lemma updates_then {A} (m : BrowserM unit) f (a : A) : updates m tt f -> updates (m;; mret a) a f.
Proof. intros H. exact (updates_bind m tt f (fun _ => mret a) a (fun e => e) H (updates_ret a)). Qed.

Lemma set_host_id (w : World) : set_host (host w) w = w.
Proof. by destruct w. Qed.

(** The store's update is pure, and the rest of the browser is as it was. *)
Ltac by_set_pure E :=
  rewrite E; eexists; (split; [reflexivity|]);
  unfold quiet, entities; simpl; unfold br_host; rewrite set_host_id; by split_and!.

Lemma updates_workflows f : updates (in_workflows (WorkflowStore.set (pureSet f))) tt (on_wf f).
Proof.
  intros b. destruct (set_pure WorkflowStore.options f (br_host b) (br_workflows b)) as [ms E].
  unfold in_workflows, WorkflowStore.set. by_set_pure E.
Qed.

Lemma updates_scenarios f : updates (in_scenarios (ScenarioStore.set (pureSet f))) tt (on_sc f).
Proof.
  intros b. destruct (set_pure ScenarioStore.options f (br_host b) (br_scenarios b)) as [ms E].
  unfold in_scenarios, ScenarioStore.set. by_set_pure E.
Qed.

Lemma updates_executions f : updates (in_runs (in_executions (ExecutionStore.set (pureSet f)))) tt (on_ex f).
Proof.
  intros b. destruct (set_pure ExecutionStore.options f (br_host b) (execution_store (br_runs b))) as [ms E].
  unfold in_runs, in_executions, ExecutionStore.set. by_set_pure E.
Qed.

Lemma updates_scenario_runs f : updates (in_runs (in_scenario_runs (ScenarioRunStore.set (pureSet f)))) tt (on_sr f).
Proof.
  intros b. destruct (set_pure ScenarioRunStore.options f (br_host b) (scenario_run_store (br_runs b))) as [ms E].
  unfold in_runs, in_scenario_runs, ScenarioRunStore.set. by_set_pure E.
Qed.

Lemma updates_test_results f : updates (in_runs (in_test_results (TestResultStore.set (pureSet f)))) tt (on_tr f).
Proof.
  intros b. destruct (set_pure TestResultStore.options f (br_host b) (test_result_store (br_runs b))) as [ms E].
  unfold in_runs, in_test_results, TestResultStore.set. by_set_pure E.
Qed.

(** A counting loop over entities of which some are live. *)
Lemma updates_count {A} (step : A -> BrowserM bool) (live : A -> bool) (g : A -> Entities -> Entities) l c :
  (forall x, x ∈ l -> updates (step x) (live x) (if live x then g x else fun e => e)) ->
  updates (browser_count step l c) (c + Z.of_nat (length (filter (fun x => live x = true) l)))
    (fun e => fold_left (fun e x => g x e) (filter (fun x => live x = true) l) e).
Proof.
  revert c; induction l as [|x l IH]; intros c Hs.
  - simpl. rewrite Z.add_0_r. apply updates_ret.
  - pose proof (Hs x (list_elem_of_here _ _)) as Hx. specialize (IH (if live x then c + 1 else c)).
    rewrite filter_cons. destruct (live x) eqn:El.
    + rewrite decide_True by done. simpl. rewrite Nat2Z.inj_succ.
      replace (c + Z.succ (Z.of_nat (length (filter (fun x => live x = true) l))))
        with (c + 1 + Z.of_nat (length (filter (fun x => live x = true) l))) by lia.
      eapply updates_bind; [exact Hx|]. apply IH. intros y Hy. by apply Hs, list_elem_of_further.
    + rewrite decide_False by done. eapply (updates_bind _ _ (fun e => e)); [exact Hx|].
      apply IH. intros y Hy. by apply Hs, list_elem_of_further.
Qed.
End Frame.

Section Pull.
Context `{D : Deque SyncChange}.
Context (as_nodes : JsonValue -> list FlowNode) (as_edges : JsonValue -> list FlowEdge)
        (as_tests : JsonValue -> list ScenarioTestDefinition) (date_time : string -> Z)
        (engine_text : js_error -> string).

Notation deserializeWorkflow := (SyncHydration.deserializeWorkflow as_nodes as_edges).
Notation deserializeScenario := (SyncHydration.deserializeScenario as_tests).
Notation deserializeWorkflowRun := (SyncHydration.deserializeWorkflowRun date_time).
Notation deserializeScenarioRun := (SyncHydration.deserializeScenarioRun date_time).
Notation deserializeTestResult := SyncHydration.deserializeTestResult.
Notation hydrate_all := (SyncHydration.hydrate_all as_nodes as_edges as_tests date_time).

(** The entities of a reply that are not deleted. *)
Definition live_workflows (r : SyncPullResponse) :=
  filter (fun d => negb (wd_is_deleted d) = true) (default [] (pull_workflows r)).
Definition live_scenarios (r : SyncPullResponse) :=
  filter (fun d => negb (sd_is_deleted d) = true) (default [] (pull_scenarios r)).
Definition live_workflow_runs (r : SyncPullResponse) :=
  filter (fun d => negb (wrd_is_deleted d) = true) (default [] (pull_workflow_runs r)).
Definition live_sessions (r : SyncPullResponse) :=
  filter (fun d => hydrated_run d = true) (default [] (pull_sessions r)).
Definition live_test_results (r : SyncPullResponse) :=
  filter (fun d => negb (trd_is_deleted d) = true) (default [] (pull_test_results r)).

(** Replies whose live workflows and runs can be read. *)
Definition readable (r : SyncPullResponse) : Prop :=
  (forall d, d ∈ default [] (pull_workflows r) -> wd_is_deleted d = false -> is_return (deserializeWorkflow d) = true)
  /\ (forall d, d ∈ default [] (pull_workflow_runs r) -> wrd_is_deleted d = false ->
        is_return (deserializeWorkflowRun d) = true).

(** The effect of one entity, with its deserialised value. *)
Definition with_return {A} (r : res A) (f : A -> Entities -> Entities) (e : Entities) : Entities :=
  match r with Return a => f a e | Throw _ => e end.

Definition put_workflow (force : bool) (d : WorkflowData) : Entities -> Entities :=
  with_return (deserializeWorkflow d) (fun wf =>
    on_wf (if force then WorkflowStore.replace_state wf else WorkflowStore.upsert_state wf)).
Definition put_scenario (force : bool) (d : ScenarioData) : Entities -> Entities :=
  on_sc (if force then ScenarioStore.replace_state (deserializeScenario d)
         else ScenarioStore.upsert_state (deserializeScenario d)).
Definition put_workflow_run (d : WorkflowRunData) : Entities -> Entities :=
  with_return (deserializeWorkflowRun d) (fun ex => on_ex (ExecutionStore.upsert_state ex)).
Definition put_session (d : SessionData) : Entities -> Entities :=
  on_sr (ScenarioRunStore.upsert_state (deserializeScenarioRun d)).
Definition put_test_result (d : TestResultData) : Entities -> Entities :=
  on_tr (TestResultStore.upsert_state (deserializeTestResult d)).

Definition put_all {A} (put : A -> Entities -> Entities) (l : list A) (e : Entities) : Entities :=
  fold_left (fun e x => put x e) l e.

(** Everything a reply does to the entities. *)
Definition pulled (force : bool) (r : SyncPullResponse) (e : Entities) : Entities :=
  put_all put_test_result (live_test_results r)
   (put_all put_session (live_sessions r)
    (put_all put_workflow_run (live_workflow_runs r)
     (put_all (put_scenario force) (live_scenarios r)
      (put_all (put_workflow force) (live_workflows r) e)))).

Definition counted (r : SyncPullResponse) : SyncHydration.HydrationResult :=
  SyncHydration.MkHydration true (Z.of_nat (length (live_workflows r))) (Z.of_nat (length (live_scenarios r)))
    (Z.of_nat (length (live_workflow_runs r))) (Z.of_nat (length (live_sessions r)))
    (Z.of_nat (length (live_test_results r))) None.

Lemma workflow_updates force d : wd_is_deleted d = true \/ is_return (deserializeWorkflow d) = true ->
  updates (SyncHydration.hydrate_workflow as_nodes as_edges force d) (negb (wd_is_deleted d))
    (if negb (wd_is_deleted d) then put_workflow force d else fun e => e).
Proof.
  intros H. unfold SyncHydration.hydrate_workflow, put_workflow.
  destruct (wd_is_deleted d); [apply updates_ret|]. destruct H as [?|H]; [done|]. simpl.
  destruct (deserializeWorkflow d) as [wf|] eqn:E; [|done]. simpl.
  eapply updates_lift; [reflexivity|]. apply updates_then. destruct force; apply updates_workflows.
Qed.

Lemma scenario_updates force d :
  updates (SyncHydration.hydrate_scenario as_tests force d) (negb (sd_is_deleted d))
    (if negb (sd_is_deleted d) then put_scenario force d else fun e => e).
Proof.
  unfold SyncHydration.hydrate_scenario, put_scenario. destruct (sd_is_deleted d); [apply updates_ret|]. simpl.
  apply updates_then. destruct force; apply updates_scenarios.
Qed.

Lemma workflow_run_updates d : wrd_is_deleted d = true \/ is_return (deserializeWorkflowRun d) = true ->
  updates (SyncHydration.hydrate_workflow_run date_time d) (negb (wrd_is_deleted d))
    (if negb (wrd_is_deleted d) then put_workflow_run d else fun e => e).
Proof.
  intros H. unfold SyncHydration.hydrate_workflow_run, put_workflow_run.
  destruct (wrd_is_deleted d); [apply updates_ret|]. destruct H as [?|H]; [done|]. simpl.
  destruct (deserializeWorkflowRun d) as [ex|] eqn:E; [|done]. simpl.
  eapply updates_lift; [reflexivity|]. apply updates_then. apply updates_executions.
Qed.

Lemma session_updates d :
  updates (SyncHydration.hydrate_scenario_run date_time d) (hydrated_run d)
    (if hydrated_run d then put_session d else fun e => e).
Proof.
  unfold SyncHydration.hydrate_scenario_run, put_session. destruct (hydrated_run d); [|apply updates_ret].
  apply updates_then. apply updates_scenario_runs.
Qed.

Lemma test_result_updates d :
  updates (SyncHydration.hydrate_test_result d) (negb (trd_is_deleted d))
    (if negb (trd_is_deleted d) then put_test_result d else fun e => e).
Proof.
  unfold SyncHydration.hydrate_test_result, put_test_result. destruct (trd_is_deleted d); [apply updates_ret|]. simpl.
  apply updates_then. apply updates_test_results.
Qed.

Lemma hydrate_all_updates force r : readable r -> updates (hydrate_all force r) (counted r) (pulled force r).
Proof.
  intros [Hw Hr].
  assert (H1 : updates (SyncHydration.hydrateWorkflows as_nodes as_edges (default [] (pull_workflows r)) force)
    (Z.of_nat (length (live_workflows r))) (put_all (put_workflow force) (live_workflows r))).
  { apply (updates_count _ (fun d => negb (wd_is_deleted d))). intros d Hd. apply workflow_updates.
    destruct (wd_is_deleted d) eqn:E; [by left|right; auto]. }
  assert (H2 : updates (SyncHydration.hydrateScenarios as_tests (default [] (pull_scenarios r)) force)
    (Z.of_nat (length (live_scenarios r))) (put_all (put_scenario force) (live_scenarios r))).
  { apply (updates_count _ (fun d => negb (sd_is_deleted d))). intros d _. apply scenario_updates. }
  assert (H3 : updates (SyncHydration.hydrateWorkflowRuns date_time (default [] (pull_workflow_runs r)))
    (Z.of_nat (length (live_workflow_runs r))) (put_all put_workflow_run (live_workflow_runs r))).
  { apply (updates_count _ (fun d => negb (wrd_is_deleted d))). intros d Hd. apply workflow_run_updates.
    destruct (wrd_is_deleted d) eqn:E; [by left|right; auto]. }
  assert (H4 : updates (SyncHydration.hydrateScenarioRuns date_time (default [] (pull_sessions r)))
    (Z.of_nat (length (live_sessions r))) (put_all put_session (live_sessions r))).
  { apply (updates_count _ hydrated_run). intros d _. apply session_updates. }
  assert (H5 : updates (SyncHydration.hydrateTestResults (default [] (pull_test_results r)))
    (Z.of_nat (length (live_test_results r))) (put_all put_test_result (live_test_results r))).
  { apply (updates_count _ (fun d => negb (trd_is_deleted d))). intros d _. apply test_result_updates. }
  intros b. unfold SyncHydration.hydrate_all.
  destruct (H1 b) as (b1 & E1 & Q1 & P1). rewrite (browser_bind _ _ _ _ _ E1).
  destruct (H2 b1) as (b2 & E2 & Q2 & P2). rewrite (browser_bind _ _ _ _ _ E2).
  destruct (H3 b2) as (b3 & E3 & Q3 & P3). rewrite (browser_bind _ _ _ _ _ E3).
  destruct (H4 b3) as (b4 & E4 & Q4 & P4). rewrite (browser_bind _ _ _ _ _ E4).
  destruct (H5 b4) as (b5 & E5 & Q5 & P5). rewrite (browser_bind _ _ _ _ _ E5).
  exists b5. split; [done|]. split; [by rewrite Q1, Q2, Q3, Q4|]. by rewrite P5, P4, P3, P2, P1.
Qed.

(** C20: a pull reply is applied whole and is not echoed.  When its live workflows
    and runs can be read, the task counts exactly the live entities of each
    kind, every live workflow and scenario goes through the last-writer-wins rule
    (or replaces what is stored, when forced) and every live run, scenario run
    and result is upserted, in the order of the reply; deleted entities and
    sessions without a scenario are passed over; and with no operation pending
    the sync queue, its copy in storage and the host stay as they were. *)
Theorem reply_hydrates force r b : readable r -> untracked b ->
  exists b', task (hydrate_all force r) b = (Return (counted r), b')
    /\ entities b' = pulled force r (entities b) /\ br_world b' = br_world b /\ untracked b'.
Proof.
  intros Hr Hu. destruct (hydrate_all_updates force r Hr b) as (b1 & E & Q & He).
  pose proof (quiet_untracked _ _ Q Hu) as Hu1. destruct (settle_untracked b1 Hu1) as (Hw & Hu2 & H1 & H2 & H3 & H4 & H5).
  exists (settle b1). unfold task. rewrite E. split; [done|].
  split; [unfold entities in *; congruence|]. split; [|done]. rewrite Hw. apply Q.
Qed.

(** A pull takes away what the run page knows of a result: over a result at version 1
    the pulled one, which carries neither the container logs nor the scenario
    run, is stored. *)
Theorem pulled_result_drops_logs d st existing :
  TestResultStore.testResults st !! trd_id d = Some existing -> version (TestResultStore.tr_meta existing) = 1 ->
  exists r, TestResultStore.testResults (TestResultStore.upsert_state (deserializeTestResult d) st) !! trd_id d = Some r
    /\ TestResultStore.tr_containerLogs (TestResultStore.tr_input r) = None
    /\ TestResultStore.tr_scenarioRunId (TestResultStore.tr_input r) = None.
Proof.
  intros He Hv. exists (deserializeTestResult d). split; [|done]. unfold TestResultStore.upsert_state. simpl.
  rewrite He, Hv. apply jlookup_insert_eq.
Qed.
End Pull.

(** ** Nothing is replaced by something older *)
Definition forward (e e' : Entities) : Prop :=
  (forall id wf, WorkflowStore.workflows (en_workflows e) !! id = Some wf -> exists wf',
     WorkflowStore.workflows (en_workflows e') !! id = Some wf'
     /\ newer_meta (WorkflowStore.wf_meta wf) (WorkflowStore.wf_meta wf') = false)
  /\ (forall id sc, ScenarioStore.scenarios (en_scenarios e) !! id = Some sc -> exists sc',
     ScenarioStore.scenarios (en_scenarios e') !! id = Some sc'
     /\ newer_meta (scn_meta sc) (scn_meta sc') = false).

Lemma not_newer_refl m : newer_meta m m = false.
Proof. apply newer_meta_false. right. split; [done|apply str_gt_irrefl]. Qed.

Lemma not_newer_trans a b c : newer_meta a b = false -> newer_meta b c = false -> newer_meta a c = false.
Proof.
  rewrite !newer_meta_false. intros [H1|[E1 G1]] [H2|[E2 G2]]; [left; lia..|]. right. split; [lia|].
  destruct (str_gt (updated_at a) (updated_at c)) eqn:E; [|done].
  destruct (decide (updated_at b = updated_at c)) as [Eb|Hne]; [congruence|].
  destruct (str_gt_total _ _ Hne) as [H|H]; [congruence|].
  pose proof (str_gt_trans _ _ _ E H). congruence.
Qed.

#[export] Instance forward_preorder : PreOrder forward.
Proof.
  split; [intros e; split; intros id x Hx; exists x; split; [done|apply not_newer_refl|done|apply not_newer_refl]|].
  intros a b c [W1 S1] [W2 S2]. split; intros id x Hx.
  - destruct (W1 id x Hx) as (y & Hy & Hxy), (W2 id y Hy) as (z & Hz & Hyz). exists z. split; [done|].
    by eapply not_newer_trans.
  - destruct (S1 id x Hx) as (y & Hy & Hxy), (S2 id y Hy) as (z & Hz & Hyz). exists z. split; [done|].
    by eapply not_newer_trans.
Qed.

(** An upsert keeps what it finds or replaces it by something not older. *)
Lemma upsert_forward {E} (key : E -> string) (meta : E -> SyncMeta) a (m : jmap string E) id x :
  m !! id = Some x -> exists y, upsert key meta a m !! id = Some y /\ newer_meta (meta x) (meta y) = false.
Proof.
  intros Hx. rewrite upsert_lookup, Hx. case_decide; [|exists x; split; [done|apply not_newer_refl]].
  destruct (newer_meta (meta x) (meta a)) eqn:En; [exists x|exists a]; (split; [done|]); [apply not_newer_refl|done].
Qed.

Section Startup.
Context `{D : Deque SyncChange}.

Definition forwards {A} (m : BrowserM A) : Prop := forall b, forward (entities b) (entities (m b).2).

Lemma forwards_same {A} (m : BrowserM A) : (forall b, entities (m b).2 = entities b) -> forwards m.
Proof. intros H b. by rewrite H. Qed.

Lemma forwards_bind {A B} (m : BrowserM A) (k : A -> BrowserM B) :
  forwards m -> (forall a, forwards (k a)) -> forwards (m ≫= k).
Proof.
  intros Hm Hk b. unfold mbind, BrowserM_bind. specialize (Hm b). destruct (m b) as [[a|e] b']; [|done].
  etransitivity; [exact Hm|apply Hk].
Qed.

Lemma forwards_updates {A} (m : BrowserM A) a f : updates m a f -> (forall e, forward e (f e)) -> forwards m.
Proof. intros Hu Hf b. destruct (Hu b) as (b' & -> & _ & He). simpl. by rewrite He. Qed.

Lemma forwards_count {A} (step : A -> BrowserM bool) l c :
  (forall x, forwards (step x)) -> forwards (browser_count step l c).
Proof.
  intros Hs. revert c. induction l as [|x l IH]; intros c; [by apply forwards_same|].
  apply forwards_bind; [apply Hs|]. intros counted. apply IH.
Qed.

(** The checkpoint changes no entity. *)
Lemma microtasks_state {T} (opts : SimpleSyncOptions T) s : state (run_microtasks opts s).2 = state s.
Proof.
  unfold run_microtasks. generalize (microtasks s), (pendingOps s). intros ids.
  change (state s) with (state (MkStore (state s) (pendingOps s) [])) at 2. generalize (@nil string).
  revert s. induction ids as [|id ids IH]; intros s ms ops; [done|]. cbn [drain].
  unfold microtask, consume. cbn [pendingOps state microtasks].
  assert (H : forall o, state (let '(cs, s2) := drain opts ids (MkStore (state s) (delete id ops) ms) in
    (option_list o ++ cs, s2)).2 = state s).
  { intros o. specialize (IH s ms (delete id ops)). by destruct (drain opts ids _). }
  destruct (ops !! id) as [ct|]; [|apply H].
  destruct (serializeEntity opts (state s) id) as [[d|]|e]; apply H.
Qed.

Lemma settle_entities b : entities (settle b) = entities b.
Proof.
  unfold settle.
  pose proof (microtasks_state WorkflowStore.options (br_workflows b)) as H1.
  pose proof (microtasks_state ScenarioStore.options (br_scenarios b)) as H2.
  pose proof (microtasks_state ScenarioRunStore.options (scenario_run_store (br_runs b))) as H3.
  pose proof (microtasks_state ExecutionStore.options (execution_store (br_runs b))) as H4.
  pose proof (microtasks_state TestResultStore.options (test_result_store (br_runs b))) as H5.
  repeat destruct (run_microtasks _ _). simpl in *. unfold entities. simpl. congruence.
Qed.

(** Nor does it touch the timer. *)
Lemma queueChange_timer e id ct d (w : World) : intervalId (service (queueChange e id ct d w)) = intervalId (service w).
Proof.
  assert (Hp : forall w, intervalId (service (persistQueue w)) = intervalId (service w)).
  { intros w0. unfold persistQueue. by repeat case_match. }
  unfold queueChange, coalesceQueuedChange. repeat case_match; simplify_eq; rewrite ?Hp; done.
Qed.

Lemma emissions_timer {T} (opts : SimpleSyncOptions T) es (w : World) :
  intervalId (service (queue_emissions opts es w)) = intervalId (service w).
Proof.
  revert w. induction es as [|[[id ct] d] es IH]; intros w; [done|]. simpl.
  etransitivity; [apply IH|]. apply queueChange_timer.
Qed.

Lemma settle_timer b : intervalId (service (br_world (settle b))) = intervalId (service (br_world b)).
Proof. unfold settle. repeat destruct (run_microtasks _ _). simpl. by rewrite !emissions_timer. Qed.

Lemma task_forward {A} (m : BrowserM A) b : forwards m -> forward (entities b) (entities (task m b).2).
Proof. intros Hm. unfold task. specialize (Hm b). destruct (m b) as [r b']. simpl. by rewrite settle_entities. Qed.

Context (as_nodes : JsonValue -> list FlowNode) (as_edges : JsonValue -> list FlowEdge)
        (as_tests : JsonValue -> list ScenarioTestDefinition) (date_time : string -> Z)
        (engine_text : js_error -> string).

Lemma upsert_workflow_forward wf e : forward e (on_wf (WorkflowStore.upsert_state wf) e).
Proof.
  split; simpl; intros id x Hx; [|exists x; split; [done|apply not_newer_refl]].
  rewrite WorkflowStore.upsert_state_workflows. by apply upsert_forward.
Qed.

Lemma upsert_scenario_forward sc e : forward e (on_sc (ScenarioStore.upsert_state sc) e).
Proof.
  split; simpl; intros id x Hx; [exists x; split; [done|apply not_newer_refl]|].
  rewrite ScenarioStore.upsert_state_scenarios. by apply upsert_forward.
Qed.

(** Applying a reply replaces nothing by something older, even when it throws
    half way. *)
Lemma hydrate_all_forwards r : forwards (SyncHydration.hydrate_all as_nodes as_edges as_tests date_time false r).
Proof.
  unfold SyncHydration.hydrate_all.
  repeat (apply forwards_bind; [apply forwards_count; intros x|intros ?]); [| | | | |by apply forwards_same].
  - unfold SyncHydration.hydrate_workflow. destruct (wd_is_deleted x); [by apply forwards_same|].
    apply forwards_bind; [by apply forwards_same|]. intros wf.
    eapply forwards_updates; [apply updates_then, updates_workflows|]. apply upsert_workflow_forward.
  - unfold SyncHydration.hydrate_scenario. destruct (sd_is_deleted x); [by apply forwards_same|].
    eapply forwards_updates; [apply updates_then, updates_scenarios|]. apply upsert_scenario_forward.
  - unfold SyncHydration.hydrate_workflow_run. destruct (wrd_is_deleted x); [by apply forwards_same|].
    apply forwards_bind; [by apply forwards_same|]. intros ex.
    eapply forwards_updates; [apply updates_then, updates_executions|]. intros e. exact (@reflexivity _ forward _ e).
  - unfold SyncHydration.hydrate_scenario_run. destruct (hydrated_run x); [|by apply forwards_same].
    eapply forwards_updates; [apply updates_then, updates_scenario_runs|]. intros e. exact (@reflexivity _ forward _ e).
  - unfold SyncHydration.hydrate_test_result. destruct (trd_is_deleted x); [by apply forwards_same|].
    eapply forwards_updates; [apply updates_then, updates_test_results|]. intros e. exact (@reflexivity _ forward _ e).
Qed.

Context {S : Type} (rehydrate : Browser -> res unit * Browser)
        (server_pull : S -> string -> FetchOutcome SyncPullResponse * S)
        (server_sync : S -> SyncBatchRequest -> FetchOutcome SyncBatchResponse * S).

Definition system_forward (d d' : SyncHydration.System (S := S)) : Prop := forward (entities d.1) (entities d'.1).

#[export] Instance system_forward_preorder : PreOrder system_forward.
Proof.
  split; [intros d; exact (@reflexivity _ forward _ (entities d.1))|].
  intros a b c. exact (@transitivity _ forward _ (entities a.1) (entities b.1) (entities c.1)).
Qed.

Notation wp := (wp (fun _ => True) system_forward).

Lemma wp_local {A} (m : BrowserM A) Q d0 : forwards m ->
  (forall b s a b', task m b = (Return a, b') -> Q a (b', s)) -> wp (SyncHydration.local m) Q d0.
Proof.
  intros Hm HQ. apply wp_statement. intros [b s] r [b' s'] _ _ E. pose proof (task_forward m b Hm) as Hf.
  specialize (HQ b s). destruct (task m b) as [r' b1]. simplify_eq/=. split; [done|]. split; [done|].
  destruct r; [|done]. by apply HQ.
Qed.

Lemma wp_remote {A} (f : S -> A * S) (Q : A -> _ -> Prop) d0 : (forall a d, Q a d) -> wp (SyncHydration.remote f) Q d0.
Proof.
  intros HQ [b s] _ _. simpl. destruct (f s) as [a s'] eqn:E. simpl. split; [done|]. split; [|apply HQ].
  exact (@reflexivity _ forward _ (entities b)).
Qed.

Context (rehydrate_forward : forwards rehydrate).

Lemma wp_hydrate d0 : wp (SyncHydration.hydrateFromServer as_nodes as_edges as_tests date_time engine_text
  rehydrate server_pull false) (fun _ _ => True) d0.
Proof.
  apply wp_catch; [|done]. apply wp_bind, wp_local; [done|]. intros b s _ b' _. apply wp_bind.
  unfold SyncHydration.pull_proc. apply wp_bind, wp_local.
  { apply forwards_same. intros b1. by destruct (client_url "pull" (br_world b1)) as [r w]. }
  intros b1 s1 url b1' _. apply wp_bind, wp_remote. intros outcome d.
  destruct (pull_reply outcome) as [resp|e]; [|done].
  exact (wp_local _ _ d (hydrate_all_forwards resp) (fun _ _ _ _ _ => I)).
Qed.

Lemma wp_flush d0 : wp (SyncHydration.flush_proc server_sync) (fun _ _ => True) d0.
Proof.
  assert (Hw : forall A (f : World -> A * World), forwards (SyncHydration.world_step f)).
  { intros A f. apply forwards_same. intros b. unfold SyncHydration.world_step. by destruct (f (br_world b)). }
  apply wp_bind, wp_local; [apply Hw|]. intros b s p b' _. generalize (b', s). clear b s b'.
  generalize 2%nat. intros n. revert p. induction n as [|n IH]; intros [r|req pending] d; try done.
  apply wp_bind, wp_remote. intros outcome d1. apply wp_bind, wp_local; [apply Hw|]. intros b s p b' _. apply IH.
Qed.

Lemma wp_initialize d0 : wp (SyncHydration.initializeSyncWithHydration as_nodes as_edges as_tests date_time engine_text
    rehydrate server_pull server_sync) (fun _ d => isRunning (service (br_world d.1)) = true) d0.
Proof.
  apply wp_bind, wp_local; [done|]. intros b s _ b' _. apply wp_bind.
  apply (wp_mono _ _ _ (fun _ _ => True)); [|apply wp_hydrate]. intros _ d1 _. apply wp_bind.
  apply (wp_mono _ _ _ (fun _ _ => True)); [|apply wp_flush]. intros _ d2 _. apply wp_bind.
  apply (wp_mono _ _ _ (fun _ _ => True)); [|apply wp_hydrate]. intros _ d3 _.
  apply wp_local; [by apply forwards_same|]. intros b1 s1 [] b1' E. unfold task in E. simplify_eq/=.
  unfold isRunning. rewrite settle_timer. simpl. apply bool_decide_eq_true_2. unfold start.
  destruct (intervalId (service (br_world b1))) eqn:Ei; [rewrite Ei|]; eauto.
Qed.

Lemma returns_local {A} (m : BrowserM A) : (forall b, is_return (m b).1 = true) -> returns (SyncHydration.local (S := S) m).
Proof.
  intros Hm [b s]. specialize (Hm b). simpl. unfold task. destruct (m b) as [r b']. exact Hm.
Qed.

Lemma returns_initialize : (forall b, is_return (rehydrate b).1 = true) ->
  returns (SyncHydration.initializeSyncWithHydration as_nodes as_edges as_tests date_time engine_text
    rehydrate server_pull server_sync).
Proof.
  intros Hr.
  assert (Hh : returns (SyncHydration.hydrateFromServer as_nodes as_edges as_tests date_time engine_text
    rehydrate server_pull false)) by (by apply returns_catch).
  assert (Hw : forall A (f : World -> A * World), returns (SyncHydration.local (S := S) (SyncHydration.world_step f))).
  { intros A f. apply returns_local. intros b. unfold SyncHydration.world_step. by destruct (f (br_world b)). }
  assert (Hf : returns (SyncHydration.flush_proc server_sync)).
  { apply returns_bind; [apply Hw|]. generalize 2%nat. intros n. induction n as [|n IH]; intros [r|req pending]; try done.
    apply returns_bind; [done|]. intros o. apply returns_bind; [apply Hw|]. apply IH. }
  apply returns_bind; [by apply returns_local|]. intros _. apply returns_bind; [exact Hh|]. intros _.
  apply returns_bind; [exact Hf|]. intros _. apply returns_bind; [exact Hh|]. intros _. by apply returns_local.
Qed.

End Startup.

(** ** Witnesses *)
#[local] Existing Instance FastQueue.fast_queue_deque.

Definition demo_pulled : WorkflowData :=
  MkWorkflowData "w1" "p1" "Pulled" None (Some (JArr [])) (Some (JStr "[]")) None 4 "t0" "t2" "u" "c" false.
Definition demo_reply : SyncPullResponse := MkPull (Some [demo_pulled]) None (Some [demo_run_data]) (Some [demo_session]) None.
Definition demo_page : Browser :=
  MkBrowser (WorkflowStore.demo_browser sample_host) WorkflowStore.demo_store
    (MkStore ScenarioStore.demo_state ∅ []) (demo_stores 1).

Definition no_nodes (v : JsonValue) : list FlowNode := [].
Definition no_edges (v : JsonValue) : list FlowEdge := [].
Definition no_tests (v : JsonValue) : list ScenarioTestDefinition := [].

Lemma reply_hydrates_witness : exists b',
  task (SyncHydration.hydrate_all no_nodes no_edges no_tests (fun _ => 0) false demo_reply) demo_page
    = (Return (SyncHydration.MkHydration true 1 0 1 1 0 None), b')
  /\ br_world b' = br_world demo_page.
Proof.
  destruct (reply_hydrates no_nodes no_edges no_tests (fun _ => 0) false demo_reply demo_page) as (b' & E & _ & Hw & _).
  - split; intros d Hd _; simpl in Hd; apply list_elem_of_singleton in Hd as ->; vm_compute; reflexivity.
  - repeat split; reflexivity.
  - exists b'. split; [exact E | exact Hw].
Defined.

Lemma pulled_result_drops_logs_witness : exists r,
  TestResultStore.testResults (TestResultStore.upsert_state (SyncHydration.deserializeTestResult demo_result_data)
    (state (test_result_store (demo_stores 1)))) !! "t1" = Some r
  /\ TestResultStore.tr_containerLogs (TestResultStore.tr_input r) = None
  /\ TestResultStore.tr_scenarioRunId (TestResultStore.tr_input r) = None.
Proof.
  eapply (pulled_result_drops_logs demo_result_data (state (test_result_store (demo_stores 1)))); reflexivity.
Defined.

