(* ===== verification/SyncProvider.v ===== *)
(** * The sync provider: [ui-v2/src/modules/sync/SyncProvider.tsx]

    The effects and callbacks of the component that owns synchronisation: it
    starts and stops the service, polls the server's health, and resolves the
    conflicts the service reports.  Its React state is a record; the component's
    markup is not modelled. *)

From S2P Require Import Prelude FastQueue FlowTypes JsLib SyncTypes ClientId SyncService Json EdgeModel SyncMiddleware WorkflowStore.
From S2P Require Import ScenarioStore Process JsonParse RunSnapshot Browser SyncHydration SyncHydrationFacts.
Open Scope Z_scope.

Module SyncProvider.
Record ProviderState := MkProvider {
  pv_isInitialized : bool;
  pv_isHydrating : bool;
  pv_syncStatus : string;
  pv_queueSize : nat;
  pv_conflict : option ConflictInfo
}.

Definition initial : ProviderState := MkProvider false true "unknown" 0 None.

Definition set_conflict (c : option ConflictInfo) (p : ProviderState) : ProviderState :=
  MkProvider (pv_isInitialized p) (pv_isHydrating p) (pv_syncStatus p) (pv_queueSize p) c.
Definition set_initialized (v : bool) (p : ProviderState) : ProviderState :=
  MkProvider v (pv_isHydrating p) (pv_syncStatus p) (pv_queueSize p) (pv_conflict p).
Definition set_hydrating (v : bool) (p : ProviderState) : ProviderState :=
  MkProvider (pv_isInitialized p) v (pv_syncStatus p) (pv_queueSize p) (pv_conflict p).
Definition set_health (status : string) (size : nat) (p : ProviderState) : ProviderState :=
  MkProvider (pv_isInitialized p) (pv_isHydrating p) status size (pv_conflict p).

(** The listener of [tokyo:sync-conflict]. *)
Definition onConflict (conflicts : list ConflictInfo) (p : ProviderState) : ProviderState :=
  match List.find (fun item => cf_client_version item <? cf_current_version item) conflicts with
  | None => p
  | Some actionable =>
      match pv_conflict p with
      | Some _ => p
      | None => set_conflict (Some actionable) p
      end
  end.

(** [String(value)] of a JSON value. *)
Fixpoint js_String (v : JsonValue) : string :=
  match v with
  | JNull => "null"
  | JBool b => if b then "true" else "false"
  | JNum n => pretty n
  | JStr s => s
  | JArr l => join "," (map (fun x => match x with JNull => "" | _ => js_String x end) l)
  | JObj _ => "[object Object]"
  end.

(** [String(local.k ?? fallback)] *)
Definition text_or (k : string) (v : JsonValue) (fallback : string) : string :=
  match json_present (json_field k v) with Some x => js_String x | None => fallback end.

Section Provider.
Context `{D : Deque SyncChange}.
Context (as_nodes : JsonValue -> list FlowNode) (as_edges : JsonValue -> list FlowEdge)
        (as_tests : JsonValue -> list ScenarioTestDefinition) (date_time : string -> Z)
        (engine_text : js_error -> string).

(** ** Conflicts

    The result is the next conflict to show; an exception leaves it as it is. *)
Definition acceptServerVersion (conflict : ConflictInfo) : BrowserM (option ConflictInfo) :=
  match json_present (cf_current_data conflict) with
  | None => mret None
  | Some current =>
      match cf_entity_type conflict with
      | Workflow_ =>
          workflow ← lift_res (SyncHydration.deserializeWorkflow as_nodes as_edges (SyncHydration.as_workflow_data current));
          in_workflows (WorkflowStore.replaceWorkflowFromSync workflow);;
          mret None
      | Scenario_ =>
          in_scenarios (ScenarioStore.replaceScenarioFromSync
            (SyncHydration.deserializeScenario as_tests (SyncHydration.as_scenario_data current)));;
          mret None
      | _ => mret None
      end
  end.

Definition copy_workflow (copied : JsonValue) : BrowserM unit :=
  id ← in_workflows (WorkflowStore.createWorkflow (text_or "project_id" copied "")
         (text_or "name" copied "Workflow" +:+ " (conflict copy)") (Some (text_or "description" copied "")));
  in_workflows (WorkflowStore.updateWorkflowGraph id
    (match json_present (json_field "nodes_config" copied) with Some v => as_nodes v | None => [] end)
    (match json_present (json_field "edges_config" copied) with Some v => as_edges v | None => [] end) None).

Definition copy_scenario (copied : JsonValue) : BrowserM unit :=
  workflows ← readBrowser (fun b => state (br_workflows b));
  id ← in_scenarios (ScenarioStore.createScenario workflows (text_or "workflow_id" copied "")
         (Some (text_or "name" copied "Scenario" +:+ " (conflict copy)")));
  in_scenarios (ScenarioStore.updateScenario id (ScenarioStore.MkUpdates None
    (Some (Some (text_or "description" copied "")))
    (Some (match json_present (json_field "tests_config" copied) with Some v => as_tests v | None => [] end))
    (Some (match json_present (json_field "test_order" copied) with Some v => as_strings v | None => [] end)))).

Definition keepLocalCopy (conflict : ConflictInfo) : BrowserM (option ConflictInfo) :=
  match json_present (cf_local_data conflict) with
  | None => acceptServerVersion conflict
  | Some copied =>
      match cf_entity_type conflict with
      | Workflow_ => copy_workflow copied
      | Scenario_ => copy_scenario copied
      | _ => mret tt
      end;;
      acceptServerVersion conflict
  end.

(** ** Lifecycle

    [S] is the server beside the component's state. *)
Context {Srv : Type} (rehydrate_stores : Browser -> res unit * Browser)
        (server_pull : Srv -> string -> FetchOutcome SyncPullResponse * Srv)
        (server_sync : Srv -> SyncBatchRequest -> FetchOutcome SyncBatchResponse * Srv)
        (server_status : Srv -> FetchOutcome SyncStatusResponse * Srv).

Definition S : Type := Srv * ProviderState.
Definition on_server {X Y} (f : Srv -> X -> Y * Srv) (s : S) (x : X) : Y * S :=
  let '(y, srv) := f s.1 x in (y, (srv, s.2)).
Notation Provider := (Proc (SyncHydration.System (S := S))).

Definition setState (f : ProviderState -> ProviderState) : Provider unit :=
  SyncHydration.remote (fun s => (tt, (s.1, f s.2))).

Definition checkHealth : Provider unit :=
  outcome ← SyncHydration.remote (fun s => let '(o, srv) := server_status s.1 in (o, (srv, s.2)));
  health ← SyncHydration.local (readBrowser (fun b => checkSyncHealth outcome (br_world b)));
  setState (set_health health.1 health.2).

Definition stopSync : BrowserM unit := on_service stop.

Definition flush : Provider (option SyncBatchResponse) := SyncHydration.flush_proc (on_server server_sync).
Definition hydrateFromServer : Provider SyncHydration.HydrationResult :=
  SyncHydration.hydrateFromServer as_nodes as_edges as_tests date_time engine_text rehydrate_stores
    (on_server server_pull) false.

Definition or_default (o : option Z) (d : Z) : Z := match o with Some n => num_or n d | None => d end.

(** The effect that starts synchronisation for a user in a project. *)
Definition initialize (userId activeProjectId : option string) (config : SyncConfig) : Provider unit :=
  if negb (ostr_truthy userId) || negb (ostr_truthy activeProjectId) then
    SyncHydration.local stopSync;;
    SyncHydration.local (on_service (setEnabled false));;
    setState (set_initialized false);;
    setState (set_hydrating false)
  else
    catch (
      SyncHydration.local (on_service (initSync (MkSyncConfig (Some (default "" (cfg_baseUrl config)))
        (Some (or_default (cfg_syncInterval config) 3000)) (Some (or_default (cfg_maxBatchSize config) 100))
        (Some (default true (cfg_enabled config))) (Some false))));;
      SyncHydration.initializeSyncWithHydration as_nodes as_edges as_tests date_time engine_text rehydrate_stores
        (on_server server_pull) (on_server server_sync);;
      setState (set_initialized true);;
      setState (set_hydrating false);;
      checkHealth)
      (fun _ => setState (set_initialized false);; setState (set_hydrating false)).

(** What the effect's cleanup does. *)
Definition teardown : BrowserM unit := stopSync;; on_service (setEnabled false).

Definition handleVisibilityChange (hidden : bool) : Provider unit :=
  if hidden then _ ← flush; mret tt else mret tt.

Definition handlePageHide : BrowserM bool := fun b =>
  let '(r, w) := flushOnPageHide (br_world b) in (r, set_world w b).

Definition forceSync : Provider unit := _ ← flush; checkHealth.
Definition refreshStatus : Provider unit := checkHealth.

Definition rehydrate : Provider unit :=
  setState (set_hydrating true);;
  _ ← hydrateFromServer;
  checkHealth;;
  setState (set_hydrating false).
End Provider.
End SyncProvider.

(** * Payloads and conflicts

    What a store sends comes back as what it holds, and a conflict can be
    resolved without losing either side. *)

(** A JSON value as it may arrive: itself, or its text. *)
Definition on_wire (v raw : JsonValue) : Prop := raw = v \/ (json_wf v /\ raw = JStr (json_text v)).

Lemma parse_wire l raw : on_wire (JArr l) raw -> SyncHydration.parseJSON (Some raw) = Some (JArr l).
Proof. intros [->|[Hwf ->]]; [done|]. by apply JSON_roundtrip. Qed.

Lemma parse_wire_obj l raw : on_wire (JObj l) raw -> SyncHydration.parseJSON (Some raw) = Some (JObj l).
Proof. intros [->|[Hwf ->]]; [done|]. by apply JSON_roundtrip. Qed.

Lemma as_order_json o : SyncHydration.as_order (WorkflowStore.custom_order_json o) = o.
Proof.
  destruct o as [l]. unfold WorkflowStore.custom_order_json. simpl. f_equal. rewrite map_map. simpl.
  rewrite <- (map_id l) at 2. apply map_ext. intros [k v]. simpl. f_equal. apply as_strings_json.
Qed.

Section Roundtrip.
Context (as_nodes : JsonValue -> list FlowNode) (as_edges : JsonValue -> list FlowEdge)
        (as_tests : JsonValue -> list ScenarioTestDefinition).

(** A workflow as hydration leaves it: what is optional filled in, the edges
    normalised. *)
Definition canonical (wf : WorkflowStore.Workflow) : WorkflowStore.Workflow :=
  WorkflowStore.MkWorkflow (WorkflowStore.wf_id wf) (WorkflowStore.wf_projectId wf) (WorkflowStore.wf_name wf)
    (Some (ostr_or (WorkflowStore.wf_description wf) "")) (WorkflowStore.wf_nodes wf)
    (normalizeEdges (WorkflowStore.wf_edges wf) false) (Some (default ∅ (WorkflowStore.wf_customTestOrder wf)))
    (Some (default "manual" (WorkflowStore.wf_provenance wf))) (WorkflowStore.wf_meta wf).

(** The payload with its three structured parts in the form they arrive in. *)
Definition arrived (payload nodes edges metadata : JsonValue) : WorkflowData :=
  let d := SyncHydration.as_workflow_data payload in
  MkWorkflowData (wd_id d) (wd_project_id d) (wd_name d) (wd_description d) (Some nodes) (Some edges) (Some metadata)
    (wd_version d) (wd_created_at d) (wd_updated_at d) (wd_user_id d) (wd_client_id d) (wd_is_deleted d).

End Roundtrip.

(** ** Conflicts *)
Section Conflicts.
Context `{D : Deque SyncChange}.
Context (as_nodes : JsonValue -> list FlowNode) (as_edges : JsonValue -> list FlowEdge)
        (as_tests : JsonValue -> list ScenarioTestDefinition).

(** The workflow that holds the local side of a conflict. *)
Definition local_copy (id : string) (copied : JsonValue) (m : SyncMeta) : WorkflowStore.Workflow :=
  WorkflowStore.MkWorkflow id (SyncProvider.text_or "project_id" copied "")
    (SyncProvider.text_or "name" copied "Workflow" +:+ " (conflict copy)")
    (Some (SyncProvider.text_or "description" copied ""))
    (match json_present (json_field "nodes_config" copied) with Some v => as_nodes v | None => [] end)
    (match json_present (json_field "edges_config" copied) with Some v => as_edges v | None => [] end)
    (Some ∅) (Some "manual") m.

(** Creating the copy and giving it the local graph, before the microtasks run. *)
Lemma copy_workflow_spec copied b u : getUserId (br_host b) = Return u ->
  let id := generateId (br_host b) in id <> "" -> exists h m blank,
  SyncProvider.copy_workflow as_nodes as_edges copied b
  = (Return tt, MkBrowser (set_host h (br_world b))
      (MkStore (WorkflowStore.MkState
          (<[id := local_copy id copied m]> (<[id := blank]> (WorkflowStore.workflows (state (br_workflows b)))))
          (Some id) (Some id) (WorkflowStore.hydrated (state (br_workflows b))))
        (track id Update_ (track id Insert_ (pendingOps (br_workflows b))))
        (microtasks (br_workflows b) ++ [id] ++ [id]))
      (br_scenarios b) (br_runs b))
  /\ version m = 2 /\ is_deleted m = false.
Proof.
  intros Hu id Hne. apply str_truthy_spec in Hne. pose proof (client_id_user (br_host b)) as Hu2. rewrite Hu in Hu2.
  assert (Hd : ostr_or (Some (SyncProvider.text_or "description" copied "")) "" = SyncProvider.text_or "description" copied "").
  { simpl. destruct (str_truthy (SyncProvider.text_or _ _ _)) eqn:E; [done|]. symmetry.
    apply negb_false_iff, bool_decide_eq_true_1 in E. exact E. }
  unfold SyncProvider.copy_workflow, in_workflows, WorkflowStore.createWorkflow, mbind, BrowserM_bind, StoreM_bind.
  unfold readHost, fromHost. cbn [fst snd]. unfold addSyncMetadata at 1. rewrite Hu, Hd.
  destruct (getOrCreateClientId (br_host b)) as [cid h1]. simpl in Hu2.
  unfold trackSync, WorkflowStore.set, syncSet, pureSet. cbn. fold id. rewrite Hne. cbn.
  unfold WorkflowStore.updateWorkflowGraph, mbind, StoreM_bind, trackSync, WorkflowStore.set, syncSet. cbn.
  unfold WorkflowStore.rewritten. cbn [WorkflowStore.workflows]. rewrite jlookup_insert_eq. cbn.
  unfold addSyncMetadata. rewrite Hu2.
  destruct (getOrCreateClientId h1) as [cid2 h2]. cbn. rewrite Hne. cbn.
  rewrite <- app_assoc. eexists h2, _, _. split; [reflexivity|]. done.
Qed.

(** C17: keeping both sides of a conflict loses neither.  For a signed-in user and
    a workflow conflict whose server side can be read, "Keep as copy" stores the
    server's version under its own id and the local graph, name and description
    as a new workflow beside it, touches no other workflow, closes the conflict,
    and queues exactly one change: the insertion of the copy as it is stored. *)
Theorem conflict_copy_keeps_both c copied current theirs b u :
  idle (br_workflows b) -> untracked b -> getUserId (br_host b) = Return u ->
  cf_entity_type c = Workflow_ -> json_present (cf_local_data c) = Some copied ->
  json_present (cf_current_data c) = Some current ->
  SyncHydration.deserializeWorkflow as_nodes as_edges (SyncHydration.as_workflow_data current) = Return theirs ->
  let id := generateId (br_host b) in id <> "" -> id <> WorkflowStore.wf_id theirs ->
  exists h m payload b', task (SyncProvider.keepLocalCopy as_nodes as_edges as_tests c) b = (Return None, b')
    /\ WorkflowStore.workflows (state (br_workflows b')) !! WorkflowStore.wf_id theirs = Some theirs
    /\ WorkflowStore.workflows (state (br_workflows b')) !! id = Some (local_copy id copied m)
    /\ (forall k, k <> id -> k <> WorkflowStore.wf_id theirs ->
         WorkflowStore.workflows (state (br_workflows b')) !! k = WorkflowStore.workflows (state (br_workflows b)) !! k)
    /\ WorkflowStore.serialize (state (br_workflows b')) id = Return (Some payload)
    /\ br_world b' = queueChange Workflow_ id Insert_ payload (set_host h (br_world b))
    /\ untracked b'.
Proof.
  intros [_ Hm] (Hp1 & Hp2 & Hp3 & Hp4 & Hp5) Hu Hc Hl Hs Hd id Hne Hnew.
  destruct (copy_workflow_spec copied b u Hu Hne) as (h & m & blank & E & _). fold id in E.
  unfold task, SyncProvider.keepLocalCopy. rewrite Hl, Hc, (browser_bind _ _ _ _ _ E).
  unfold SyncProvider.acceptServerVersion. rewrite Hs, Hc, Hd. clear E.
  rewrite (browser_bind (lift_res (Return theirs)) _ _ theirs _) by reflexivity.
  set (ws := <[id := local_copy id copied m]> (<[id := blank]> (WorkflowStore.workflows (state (br_workflows b))))).
  set (st := WorkflowStore.MkState (<[WorkflowStore.wf_id theirs := theirs]> ws) (Some id) (Some id)
               (WorkflowStore.hydrated (state (br_workflows b)))).
  assert (Hid : WorkflowStore.workflows st !! id = Some (local_copy id copied m)).
  { simpl. rewrite jlookup_insert_ne by congruence. apply jlookup_insert_eq. }
  destruct (WorkflowStore.serialize_version st id _ Hid) as (payload & Hser & _).
  set (store := MkStore st (track id Update_ (track id Insert_ ∅)) [id; id; id]).
  assert (Er : run_microtasks WorkflowStore.options store = ([(id, Insert_, payload)], MkStore st ∅ [])).
  { assert (Et : track id Update_ (track id Insert_ ∅) = JMap [(id, Insert_)]).
    { unfold track. rewrite jlookup_insert_eq. unfold insert, jmap_insert. simpl. by rewrite decide_True. }
    assert (E1 : microtask WorkflowStore.options id (MkStore st (JMap [(id, Insert_)]) [])
      = (Some (id, Insert_, payload), MkStore st ∅ [])).
    { unfold microtask, consume, lookup, jmap_lookup, delete, jmap_delete. simpl.
      rewrite !decide_True by done. rewrite Hser. done. }
    unfold run_microtasks, store. cbn [state pendingOps microtasks drain]. rewrite Et, E1. done. }
  exists h, m, payload. eexists.
  unfold mbind, BrowserM_bind, in_workflows, WorkflowStore.replaceWorkflowFromSync, WorkflowStore.set, syncSet, pureSet. cbn.
  apply str_truthy_spec in Hne as Ht. rewrite Ht, Hm, Hp1. cbn. unfold settle. cbn [br_workflows br_scenarios br_runs br_world].
  match goal with |- context [run_microtasks WorkflowStore.options ?x] => change x with store end. rewrite Er, !untracked_drain by done. cbn.
  split; [reflexivity|]. cbn. split; [apply jlookup_insert_eq|]. split; [exact Hid|].
  split; [|split; [exact Hser|split; [by destruct (br_world b)|by split_and!]]].
  intros k Hk1 Hk2. unfold ws. rewrite !jlookup_insert_ne by congruence. done.
Qed.
End Conflicts.

(** ** Witnesses *)
#[local] Existing Instance FastQueue.fast_queue_deque.

(** Readers that suffice for connections, and workflows without nodes. *)
Definition optional_text (k : string) (v : JsonValue) : option string := as_text <$> json_field k v.
Definition read_points (v : JsonValue) : list (Z * Z) :=
  match v with
  | JArr l => map (fun p => (SyncHydration.number_field "x" p, SyncHydration.number_field "y" p)) l
  | _ => []
  end.
Definition read_edge_data (v : JsonValue) : EdgeData :=
  MkEdgeData (optional_text "label" v) (optional_text "description" v) (optional_text "protocol" v)
    (optional_text "relation" v) (optional_text "readiness" v) (as_flag <$> json_field "needsReview" v)
    (as_flag <$> json_field "showLabel" v) (read_points <$> json_field "layoutPoints" v).
Definition read_edge (v : JsonValue) : FlowEdge :=
  MkEdge (SyncHydration.text_field "id" v) (SyncHydration.text_field "source" v) (SyncHydration.text_field "target" v)
    (optional_text "type" v) (read_edge_data <$> json_field "data" v).
Definition read_edges (v : JsonValue) : list FlowEdge := match v with JArr l => map read_edge l | _ => [] end.

Definition demo_edge : FlowEdge :=
  MkEdge "e1" "a" "b" None (Some (MkEdgeData (Some "writes") None None (Some "writes") None None None (Some [(1, 2)]))).
Definition demo_sent : WorkflowStore.Workflow :=
  WorkflowStore.MkWorkflow "w1" "p1" "Demo" None [] [demo_edge] (Some (<["s" := ["t1"; "t2"]]> ∅)) None
    (WorkflowStore.demo_meta 3).
Definition demo_sent_state : WorkflowStore.WorkflowState :=
  WorkflowStore.MkState (<["w1" := demo_sent]> ∅) None None true.
Definition demo_payload : JsonValue :=
  match WorkflowStore.serialize demo_sent_state "w1" with Return (Some d) => d | _ => JNull end.
Definition wire_part (k : string) : JsonValue := default JNull (json_field k demo_payload).


Definition demo_conflict : ConflictInfo :=
  MkConflict Workflow_ "w1" "server_wins" "" 2 3 (Some demo_payload) (Some demo_payload).

Lemma conflict_copy_keeps_both_witness : exists h m payload b',
  task (SyncProvider.keepLocalCopy no_nodes read_edges no_tests demo_conflict) demo_page = (Return None, b')
  /\ WorkflowStore.workflows (state (br_workflows b')) !! "w1" = Some (canonical demo_sent)
  /\ WorkflowStore.workflows (state (br_workflows b')) !! generateId sample_host
     = Some (local_copy no_nodes read_edges (generateId sample_host) demo_payload m)
  /\ br_world b' = queueChange Workflow_ (generateId sample_host) Insert_ payload (set_host h (br_world demo_page)).
Proof.
  destruct (conflict_copy_keeps_both no_nodes read_edges no_tests demo_conflict demo_payload demo_payload
    (canonical demo_sent) demo_page "user-1") as (h & m & payload & b' & E & H1 & H2 & _ & _ & H3 & _);
    try reflexivity; [split; [constructor | reflexivity] | repeat split; reflexivity | vm_compute; discriminate
      | vm_compute; discriminate |].
  exists h, m, payload, b'. split; [exact E|]. split; [exact H1|]. split; [exact H2 | exact H3].
Defined.
