(* ===== verification/RealtimeLogs.v ===== *)
(** * The event stream of a run: [ui-v2/src/modules/workflow/hooks/useRealtimeLogs.tsx]

    The hook queues what the runner's event source delivers and applies one
    queued event per effect to the run stores.  [HookState] is the hook's React
    state and refs; an effect is a computation over it and the stores that also
    gives the callbacks it makes ([Notice]).  [scenarioRuns] is the store's map
    as the render that scheduled the effect saw it.  A queue holds the parsed
    payloads; what [JSON.parse] refuses never becomes an item. *)

From S2P Require Import Prelude FlowTypes ClientId JsLib Json SyncService SyncMiddleware RunEvents.
From S2P Require Import ExecutionStore ScenarioRunStore TestResultStore RunSnapshot.
Open Scope Z_scope.

Module RealtimeLogs.
Record LogItem := MkLogItem { li_data : WorkflowLogEvent; li_eventId : string }.
Record ResultItem := MkResultItem { ri_data : ScenarioTestResultEvent; ri_eventId : string }.

Record HookState := MkHook {
  processedEventIds : list string;
  processedRunId : option string;
  runnerLogQueue : list LogItem;
  runnerResultQueue : list ResultItem;
  runnerConnected : bool;
  lastActivityAt : option Z;
  activities : list WorkflowLogEvent
}.

Definition initial : HookState := MkHook [] None [] [] false None [].

Inductive Notice :=
| OnComplete (result : option JsonValue)
| OnError (error : string)
| ReconcileSnapshot (workflowRunId projectId : string).

(** ** Connection *)

(** The effect on [resolvedWorkflowRunId]. *)
Definition followRun (run : option string) (k : HookState) : HookState :=
  if decide (processedRunId k = run) then k
  else MkHook [] run [] [] (runnerConnected k) None [].

Definition shouldConnect (enabled : bool) (run project : option string) (status : option WorkflowRunStatus) : bool :=
  negb (negb enabled || negb (ostr_truthy run) || negb (ostr_truthy project)
        || negb (isWorkflowRunActive status)).

Definition buildWorkflowEventsUrl (encodeURIComponent : string -> string) (query_text : list (string * string) -> string)
    (workflowRunId projectId : string) (after : option string) : string :=
  let query := [("projectId", projectId)] ++ (if ostr_truthy after then [("after", default "" after)] else []) in
  "/api/v1/workflow-runs/" +:+ encodeURIComponent workflowRunId +:+ "/events?" +:+ query_text query.

Definition set_connected (v : bool) (k : HookState) : HookState :=
  MkHook (processedEventIds k) (processedRunId k) (runnerLogQueue k) (runnerResultQueue k) v (lastActivityAt k) (activities k).
Definition set_activity (now : Z) (k : HookState) : HookState :=
  MkHook (processedEventIds k) (processedRunId k) (runnerLogQueue k) (runnerResultQueue k) (runnerConnected k) (Some now)
    (activities k).

Definition onopen (now : Z) (k : HookState) : HookState := set_activity now (set_connected true k).
Definition onerror (k : HookState) : HookState := set_connected false k.

(** [timestamp] is [None] when the payload has none or cannot be parsed. *)
Definition onheartbeat (timestamp : option Z) (now : Z) (k : HookState) : HookState :=
  set_activity (match timestamp with Some t => num_or t now | None => now end) k.

Definition set_logs (q : list LogItem) (k : HookState) : HookState :=
  MkHook (processedEventIds k) (processedRunId k) q (runnerResultQueue k) (runnerConnected k) (lastActivityAt k) (activities k).
Definition set_results (q : list ResultItem) (k : HookState) : HookState :=
  MkHook (processedEventIds k) (processedRunId k) (runnerLogQueue k) q (runnerConnected k) (lastActivityAt k) (activities k).
Definition set_activities (l : list WorkflowLogEvent) (k : HookState) : HookState :=
  MkHook (processedEventIds k) (processedRunId k) (runnerLogQueue k) (runnerResultQueue k) (runnerConnected k)
    (lastActivityAt k) l.
Definition mark (id : string) (k : HookState) : HookState :=
  MkHook (set_add id (processedEventIds k)) (processedRunId k) (runnerLogQueue k) (runnerResultQueue k) (runnerConnected k)
    (lastActivityAt k) (activities k).

Definition onworkflowlog (item : LogItem) (now : Z) (k : HookState) : HookState :=
  set_logs (slice_last 500 (runnerLogQueue k ++ [item])) (set_activity now k).
Definition ontestresult (item : ResultItem) (now : Z) (k : HookState) : HookState :=
  set_results (slice_last 500 (runnerResultQueue k ++ [item])) (set_activity now k).

(** ** Applying an event *)
Definition log_event_id (e : WorkflowLogEvent) : string :=
  "workflowlog:" +:+ ev_workflowRunId e +:+ ":" +:+ ostr_or (ev_scenarioId e) "workflow" +:+ ":"
  +:+ pretty (ev_timestamp e) +:+ ":" +:+ pretty (ev_sequence e).

(** [Object.values(scenarioRuns).find(...)] *)
Definition find_run (scenarioRuns : jmap string ScenarioRunStore.ScenarioRun) (workflowRunId scenarioId : string)
    : option ScenarioRunStore.ScenarioRun :=
  List.find (fun run => bool_decide (ScenarioRunStore.run_workflowRunId run = workflowRunId)
                        && bool_decide (ScenarioRunStore.run_scenarioId run = scenarioId)) (jvalues scenarioRuns).

Definition scenario_updates (backendSessionId : option string) (status : ScenarioRunStatus)
    (error phase : option (option string)) : ScenarioRunStore.Updates :=
  ScenarioRunStore.MkUpdates (Some backendSessionId) (Some status) None error None phase None.

(** [a ?? b] *)
Definition or_else {A} (a b : option A) : option A := match a with Some x => Some x | None => b end.

Definition apply_scenario_log (scenarioRuns : jmap string ScenarioRunStore.ScenarioRun) (e : WorkflowLogEvent)
    : StoresM unit :=
  match ev_scenarioId e with
  | Some scenarioId =>
      if str_truthy scenarioId then
        match find_run scenarioRuns (ev_workflowRunId e) scenarioId with
        | Some scenarioRun =>
            in_scenario_runs (ScenarioRunStore.appendScenarioLog (ScenarioRunStore.run_id scenarioRun) (ev_message e));;
            in_scenario_runs (ScenarioRunStore.updateScenarioRun (ScenarioRunStore.run_id scenarioRun)
              (scenario_updates (ev_backendSessionId e)
                 (resolveScenarioLogStatus (ScenarioRunStore.run_status scenarioRun) (ev_status e))
                 (Some (or_else (ev_error e) (ScenarioRunStore.run_error scenarioRun)))
                 (Some (or_else (ev_stage e) (ScenarioRunStore.run_phase scenarioRun)))))
        | None => mret tt
        end
      else mret tt
  | None => mret tt
  end.

(** The status of an aggregated result, and its scenario results. *)
Definition aggregated_status (e : WorkflowLogEvent) : option WorkflowRunStatus :=
  if ostr_truthy (ev_scenarioId e) then None
  else
    match ev_result e with
    | Some (JObj fs) => match assoc_get "status" fs with Some (JStr s) => isWorkflowRunStatus s | _ => None end
    | _ => None
    end.

Definition scenario_status_of (s : string) : option ScenarioRunStatus :=
  List.find (fun st => bool_decide (scenario_status_name st = s))
    [SPending; SRunning; SCancelling; SCancelled; SCompleted; SFailed; SCleanupFailed].

Definition as_scenario_result (v : JsonValue) : AggregatedScenarioResult :=
  MkAggScenario (match json_field "scenarioId" v with Some x => as_text x | None => "" end)
    (match json_field "scenarioName" v with Some x => as_text x | None => "" end)
    (as_text <$> json_present (json_field "backendSessionId" v))
    (match json_present (json_field "status" v) with Some x => scenario_status_of (as_text x) | None => None end)
    (match json_field "success" v with Some (JBool b) => Some b | _ => None end)
    (as_text <$> json_present (json_field "error" v)).

Definition scenario_results (result : option JsonValue) : option (list AggregatedScenarioResult) :=
  match result ≫= json_field "scenarioResults" with
  | Some (JArr l) => Some (map as_scenario_result l)
  | _ => None
  end.

Fixpoint apply_scenario_results (scenarioRuns : jmap string ScenarioRunStore.ScenarioRun) (workflowRunId : string)
    (l : list AggregatedScenarioResult) : StoresM unit :=
  match l with
  | [] => mret tt
  | aggregatedScenario :: l' =>
      match find_run scenarioRuns workflowRunId (as_scenarioId aggregatedScenario) with
      | None => mret tt
      | Some scenarioRun =>
          in_scenario_runs (ScenarioRunStore.updateScenarioRun (ScenarioRunStore.run_id scenarioRun)
            (scenario_updates
               (if ostr_truthy (as_backendSessionId aggregatedScenario) then as_backendSessionId aggregatedScenario
                else ScenarioRunStore.run_backendSessionId scenarioRun)
               (match as_status aggregatedScenario with
                | Some s => s
                | None => match as_success aggregatedScenario with
                          | Some true => SCompleted
                          | Some false => SFailed
                          | None => ScenarioRunStore.run_status scenarioRun
                          end
                end)
               (Some (or_else (as_error aggregatedScenario) (ScenarioRunStore.run_error scenarioRun))) None))
      end;;
      apply_scenario_results scenarioRuns workflowRunId l'
  end.

Definition reconcile (e : WorkflowLogEvent) (activeProjectId : option string) : list Notice :=
  let project := ostr_first (Some (ev_projectId e)) activeProjectId in
  if ostr_truthy project then [ReconcileSnapshot (ev_workflowRunId e) (default "" project)] else [].

Definition apply_aggregated (scenarioRuns : jmap string ScenarioRunStore.ScenarioRun) (activeProjectId : option string)
    (status : WorkflowRunStatus) (e : WorkflowLogEvent) : StoresM (list Notice) :=
  let workflowError := extractWorkflowError (ev_error e) (scenario_results (ev_result e)) in
  apply_scenario_results scenarioRuns (ev_workflowRunId e) (default [] (scenario_results (ev_result e)));;
  in_executions (ExecutionStore.updateExecutionStatus (ev_workflowRunId e) status (ev_result e) workflowError);;
  mret (reconcile e activeProjectId ++
        match status with
        | WCompleted => [OnComplete (ev_result e)]
        | WFailed | WPartialFailed => [OnError (default "Workflow execution failed" workflowError)]
        | _ => []
        end).

(** The other events of the workflow itself. *)
Definition apply_status (activeProjectId : option string) (e : WorkflowLogEvent) : StoresM (list Notice) :=
  let run := ev_workflowRunId e in
  match workflowStatusFromLogEvent (ev_scenarioId e) (ev_status e) with
  | Some WRunning => in_executions (ExecutionStore.updateExecutionStatus run WRunning None None);; mret []
  | Some WCancelling => in_executions (ExecutionStore.updateExecutionStatus run WCancelling None None);; mret []
  | Some WCancelled =>
      in_executions (ExecutionStore.updateExecutionStatus run WCancelled (ev_result e) (ev_error e));;
      mret (reconcile e activeProjectId)
  | Some WCompleted =>
      in_executions (ExecutionStore.updateExecutionStatus run WCompleted (ev_result e) None);;
      mret (reconcile e activeProjectId ++ [OnComplete (ev_result e)])
  | Some WFailed =>
      let error := default "Workflow execution failed" (ev_error e) in
      in_executions (ExecutionStore.failExecution run error);;
      mret (reconcile e activeProjectId ++ [OnError error])
  | _ => mret []
  end.

(** What the first effect does to the stores with an event it has not seen. *)
Definition apply_log (scenarioRuns : jmap string ScenarioRunStore.ScenarioRun) (activeProjectId : option string)
    (item : LogItem) : StoresM (list Notice) :=
  let e := li_data item in
  (if str_truthy (li_eventId item)
   then in_executions (ExecutionStore.updateReplayCursor (ev_workflowRunId e) (li_eventId item)) else mret tt);;
  in_executions (ExecutionStore.appendLog (ev_workflowRunId e) (ev_message e));;
  apply_scenario_log scenarioRuns e;;
  match aggregated_status e with
  | Some status => apply_aggregated scenarioRuns activeProjectId status e
  | None => apply_status activeProjectId e
  end.

Definition shown (e : WorkflowLogEvent) (l : list WorkflowLogEvent) : list WorkflowLogEvent :=
  if ostr_truthy (ev_stage e) || ostr_truthy (ev_kind e) then slice_last 500 (l ++ [e]) else l.

(** The effect on [latestLogData].  An exception leaves the event at the head of
    the queue, marked as processed. *)
Definition handle_log (scenarioRuns : jmap string ScenarioRunStore.ScenarioRun) (activeProjectId : option string)
    (k : HookState) (c : Host * RunStores) : res (list Notice) * HookState * (Host * RunStores) :=
  match runnerLogQueue k with
  | [] => (Return [], k, c)
  | item :: rest =>
      let id := log_event_id (li_data item) in
      if set_has id (processedEventIds k) then (Return [], set_logs rest k, c)
      else
        let k1 := set_activities (shown (li_data item) (activities k)) (mark id k) in
        match apply_log scenarioRuns activeProjectId item c with
        | (Return notices, c') => (Return notices, set_logs rest k1, c')
        | (Throw err, c') => (Throw err, k1, c')
        end
  end.

(** ** Test results *)
Definition result_order (left right : TestResultEntry) : Z := tre_sequence left - tre_sequence right.

Definition result_update (scenarioRun : option ScenarioRunStore.ScenarioRun) (e : ScenarioTestResultEvent)
    (now : string) (result : TestResultEntry) : TestResultStore.Updates :=
  TestResultStore.MkUpdates None (Some (tev_projectId e))
    (Some (default (tev_scenarioId e)
       (ostr_first (tev_backendSessionId e)
         (ostr_first (scenarioRun ≫= ScenarioRunStore.run_backendSessionId)
           (ostr_first (ScenarioRunStore.run_id <$> scenarioRun) (Some (tev_scenarioId e)))))))
    (Some (Some (tev_workflowRunId e))) (Some (tev_workflowId e))
    (Some (ScenarioRunStore.run_id <$> scenarioRun)) (Some (Some (tev_scenarioId e))) (Some (Some (tev_scenarioName e)))
    (Some (tre_testName result)) (Some (ostr_or (tre_testType result) "database")) (Some (tre_status result))
    (Some (Some (default JNull (json_present (tre_resultData result))))) (Some (default 0 (tre_durationMs result)))
    (Some (default now (tre_executedAt result))) (Some (tre_containerLogs result)) None None.

Fixpoint apply_results (scenarioRun : option ScenarioRunStore.ScenarioRun) (e : ScenarioTestResultEvent)
    (l : list TestResultEntry) : StoresM unit :=
  match l with
  | [] => mret tt
  | result :: l' =>
      (fun c => in_test_results (TestResultStore.updateTestResult (tre_testResultId result)
                  (result_update scenarioRun e (nowIso c.1) result)) c);;
      apply_results scenarioRun e l'
  end.

Definition apply_test_result (scenarioRuns : jmap string ScenarioRunStore.ScenarioRun) (item : ResultItem) : StoresM unit :=
  let e := ri_data item in
  let scenarioRun := find_run scenarioRuns (tev_workflowRunId e) (tev_scenarioId e) in
  (if str_truthy (ri_eventId item)
   then in_executions (ExecutionStore.updateReplayCursor (tev_workflowRunId e) (ri_eventId item)) else mret tt);;
  (match scenarioRun with
   | Some run =>
       in_scenario_runs (ScenarioRunStore.updateScenarioRun (ScenarioRunStore.run_id run)
         (scenario_updates (tev_backendSessionId e)
            (resolveScenarioTestStatus (ScenarioRunStore.run_status run) (tev_results e)) None None))
   | None => mret tt
   end);;
  apply_results scenarioRun e (js_sort result_order (tev_results e)).

(** The effect on [latestResultData]. *)
Definition handle_result (scenarioRuns : jmap string ScenarioRunStore.ScenarioRun) (k : HookState)
    (c : Host * RunStores) : res unit * HookState * (Host * RunStores) :=
  match runnerResultQueue k with
  | [] => (Return tt, k, c)
  | item :: rest =>
      let id := tev_bulkId (ri_data item) in
      if set_has id (processedEventIds k) then (Return tt, set_results rest k, c)
      else
        match apply_test_result scenarioRuns item c with
        | (Return _, c') => (Return tt, set_results rest (mark id k), c')
        | (Throw err, c') => (Throw err, mark id k, c')
        end
  end.
End RealtimeLogs.
