(* ===== verification/RealtimeFacts.v ===== *)
(** * Every event of the stream is applied once

    The hook of [RealtimeLogs] as a machine: events arrive and effects run in
    any order.  Re-deliveries after a reconnection carry the ids of the first
    delivery. *)

From S2P Require Import Prelude FlowTypes ClientId FastQueue JsLib Json SyncService SyncMiddleware RunEvents WorkflowStore.
From S2P Require Import ExecutionStore ScenarioRunStore TestResultStore RunSnapshot RealtimeLogs.
Open Scope Z_scope.
Import RealtimeLogs.

(** ** First occurrences *)
Section Fresh.
Context {A : Type} (key : A -> string).

(** The elements of [q] whose key is neither in [seen] nor earlier in [q]. *)
Fixpoint fresh (seen : list string) (q : list A) : list A :=
  match q with
  | [] => []
  | x :: q' => if set_has (key x) seen then fresh seen q' else x :: fresh (set_add (key x) seen) q'
  end.

Lemma fresh_ext q s1 s2 : (forall x, x ∈ q -> key x ∈ s1 <-> key x ∈ s2) -> fresh s1 q = fresh s2 q.
Proof.
  revert s1 s2. induction q as [|x q IH]; intros s1 s2 H; [done|]. simpl.
  assert (Hx : set_has (key x) s1 = set_has (key x) s2).
  { apply bool_decide_ext, H. left. }
  rewrite Hx. destruct (set_has (key x) s2); [|f_equal].
  - apply IH. intros y Hy. apply H. by right.
  - apply IH. intros y Hy. rewrite !elem_of_set_add. rewrite (H y) by (by right). done.
Qed.

Lemma fresh_keys q seen : NoDup (map key (fresh seen q)) /\ forall x, x ∈ fresh seen q -> key x ∉ seen /\ x ∈ q.
Proof.
  revert seen. induction q as [|x q IH]; intros seen; simpl; [split; [constructor|by intros x ?%elem_of_nil]|].
  destruct (set_has (key x) seen) eqn:Ex.
  - destruct (IH seen) as [H1 H2]. split; [done|]. intros y Hy. destruct (H2 y Hy). split; [done|by right].
  - apply set_has_false in Ex. destruct (IH (set_add (key x) seen)) as [H1 H2]. split.
    + simpl. apply NoDup_cons. split; [|done]. intros (y & Ey & Hy)%list_elem_of_fmap.
      destruct (H2 y Hy) as [Hn _]. apply Hn. rewrite <- Ey. apply elem_of_set_add. by left.
    + intros y [->|Hy]%elem_of_cons; [split; [done|left]|]. destruct (H2 y Hy) as [Hn Hin].
      split; [|by right]. intros Hs. apply Hn, elem_of_set_add. by right.
Qed.
End Fresh.

Inductive Event := Log (item : LogItem) | Result (item : ResultItem).

Definition event_id (e : Event) : string :=
  match e with Log item => log_event_id (li_data item) | Result item => tev_bulkId (ri_data item) end.
Inductive Kind := LogKind | ResultKind.

#[export] Instance Kind_eq_dec : EqDecision Kind.
Proof. solve_decision. Defined.

Definition kind_of (e : Event) : Kind := match e with Log _ => LogKind | Result _ => ResultKind end.

(** The queue of a kind of events. *)
Definition waiting (kd : Kind) (k : HookState) : list Event :=
  match kd with LogKind => map Log (runnerLogQueue k) | ResultKind => map Result (runnerResultQueue k) end.

(** What can happen: an event is delivered at some time, or an effect runs. *)
Inductive Op := Arrive (e : Event) (now : Z) | Effect (kd : Kind).

Section Stream.
Context (activeProjectId : option string).

Definition runs_of (c : Host * RunStores) : jmap string ScenarioRunStore.ScenarioRun :=
  ScenarioRunStore.scenarioRuns (state (scenario_run_store c.2)).

Definition apply_event (e : Event) (c : Host * RunStores) : Host * RunStores :=
  match e with
  | Log item => (apply_log (runs_of c) activeProjectId item c).2
  | Result item => (apply_test_result (runs_of c) item c).2
  end.

(** The event an effect is about to apply. *)
Definition next_event (op : Op) (k : HookState) : option Event :=
  match op with
  | Arrive _ _ => None
  | Effect kd => match waiting kd k with
                 | e :: _ => if set_has (event_id e) (processedEventIds k) then None else Some e
                 | [] => None
                 end
  end.

Definition op_step (op : Op) (k : HookState) (c : Host * RunStores) : HookState * (Host * RunStores) :=
  match op with
  | Arrive (Log item) now => (onworkflowlog item now k, c)
  | Arrive (Result item) now => (ontestresult item now k, c)
  | Effect LogKind => let '(_, k', c') := handle_log (runs_of c) activeProjectId k c in (k', c')
  | Effect ResultKind => let '(_, k', c') := handle_result (runs_of c) k c in (k', c')
  end.

Fixpoint run_ops (ops : list Op) (k : HookState) (c : Host * RunStores) : list Event * HookState * (Host * RunStores) :=
  match ops with
  | [] => ([], k, c)
  | op :: ops' =>
      let '(k1, c1) := op_step op k c in
      let '(applied, k2, c2) := run_ops ops' k1 c1 in
      (option_list (next_event op k) ++ applied, k2, c2)
  end.

(** No event arrives while 500 of its kind wait. *)
Fixpoint no_overflow (ops : list Op) (k : HookState) (c : Host * RunStores) : Prop :=
  match ops with
  | [] => True
  | op :: ops' =>
      match op with
      | Arrive e _ => (length (waiting (kind_of e) k) < 500)%nat
      | Effect _ => True
      end /\ let '(k1, c1) := op_step op k c in no_overflow ops' k1 c1
  end.

Definition arrived (ops : list Op) : list Event :=
  omap (fun op => match op with Arrive e _ => Some e | _ => None end) ops.

Lemma map_slice_last {A B} (f : A -> B) n (l : list A) : map f (slice_last n l) = slice_last n (map f l).
Proof. unfold slice_last. rewrite length_map. destruct (n <=? 0); apply fmap_drop. Qed.

(** One step: what is applied, what is marked, what is left in the queues. *)
Lemma op_step_spec op k c : let '(k1, c1) := op_step op k c in
  c1 = match next_event op k with Some e => apply_event e c | None => c end
  /\ processedEventIds k1 = match next_event op k with Some e => set_add (event_id e) (processedEventIds k)
                            | None => processedEventIds k end
  /\ match op with
     | Arrive e _ => forall kd, waiting kd k1 =
         if decide (kind_of e = kd) then slice_last 500 (waiting kd k ++ [e]) else waiting kd k
     | Effect kd => forall kd', waiting kd' k1 = waiting kd' k
         \/ (kd' = kd /\ waiting kd' k1 = tail (waiting kd' k))
     end
  /\ (next_event op k = None -> match op with Effect kd => waiting kd k1 = tail (waiting kd k) | _ => True end).
Proof.
  destruct op as [[item|item] now|[]]; simpl.
  - do 2 (split; [done|]). split; [|done]. intros []; simpl; [|done]. by rewrite map_slice_last, map_app.
  - do 2 (split; [done|]). split; [|done]. intros []; simpl; [done|]. by rewrite map_slice_last, map_app.
  - unfold handle_log. destruct (runnerLogQueue k) as [|item rest] eqn:Eq; simpl.
    { split_and!; try done; [by left|by rewrite Eq]. }
    destruct (set_has _ _) eqn:Es; simpl.
    + split_and!; try done. intros []; simpl; [right; by rewrite Eq|by left].
    + destruct (apply_log (runs_of c) activeProjectId item c) as [[n|err] c'] eqn:Ea; simpl; rewrite ?Ea.
      * split_and!; try done. intros []; simpl; [right; by rewrite Eq|by left].
      * split_and!; try done. intros []; by left.
  - unfold handle_result. destruct (runnerResultQueue k) as [|item rest] eqn:Eq; simpl.
    { split_and!; try done; [by left|by rewrite Eq]. }
    destruct (set_has _ _) eqn:Es; simpl.
    + split_and!; try done. intros []; simpl; [by left|right; by rewrite Eq].
    + destruct (apply_test_result (runs_of c) item c) as [[n|err] c'] eqn:Ea; simpl; rewrite ?Ea.
      * split_and!; try done. intros []; simpl; [by left|right; by rewrite Eq].
      * split_and!; try done. intros []; by left.
Qed.

Lemma run_applies ops k c : let '(applied, _, c') := run_ops ops k c in
  c' = fold_left (fun c e => apply_event e c) applied c.
Proof.
  revert k c. induction ops as [|op ops IH]; intros k c; [done|]. simpl.
  pose proof (op_step_spec op k c) as H. destruct (op_step op k c) as [k1 c1]. destruct H as (-> & _ & _).
  specialize (IH k1 (match next_event op k with Some e => apply_event e c | None => c end)).
  destruct (run_ops ops k1 _) as [[applied k2] c2]. rewrite IH. by destruct (next_event op k).
Qed.

(** Nothing is applied that is marked as processed, and what is applied is marked. *)
Lemma next_event_new op k e : next_event op k = Some e -> event_id e ∉ processedEventIds k.
Proof.
  destruct op as [?|kd]; simpl; [done|]. destruct (waiting kd k) as [|e' q]; [done|].
  destruct (set_has (event_id e') (processedEventIds k)) eqn:Es; [done|]. intros [= ->]. by apply set_has_false.
Qed.

Lemma run_once ops k c : let '(applied, _, _) := run_ops ops k c in
  NoDup (map event_id applied) /\ forall e, e ∈ applied -> event_id e ∉ processedEventIds k.
Proof.
  revert k c. induction ops as [|op ops IH]; intros k c; simpl.
  { split; [constructor|]. by intros e ?%elem_of_nil. }
  pose proof (op_step_spec op k c) as H. destruct (op_step op k c) as [k1 c1]. destruct H as (_ & Hp & _).
  specialize (IH k1 c1). destruct (run_ops ops k1 c1) as [[applied k2] c2]. destruct IH as [H1 H2].
  pose proof (next_event_new op k) as Hn. rewrite Hp in H2. destruct (next_event op k) as [e|]; simpl; [|done].
  specialize (Hn e eq_refl). split.
  - apply NoDup_cons. split; [|done]. intros (y & Ey & Hy)%list_elem_of_fmap. apply (H2 y Hy).
    rewrite <- Ey. apply elem_of_set_add. by left.
  - intros y [->|Hy]%elem_of_cons; [done|]. intros Hs. apply (H2 y Hy), elem_of_set_add. by right.
Qed.

(** Ids tell the two kinds apart: a log's always starts with [workflowlog:]. *)
Definition named (e : Event) : Prop := kind_of e = LogKind <-> starts_with "workflowlog:" (event_id e) = true.

Lemma log_named item : named (Log item).
Proof. split; [|done]. intros _. unfold event_id, log_event_id, starts_with. cbn. by destruct (ev_workflowRunId (li_data item)). Qed.

Lemma named_ne e e' : named e -> named e' -> kind_of e <> kind_of e' -> event_id e <> event_id e'.
Proof.
  unfold named. intros H H' Hk E. rewrite E in H. apply Hk.
  assert (Hs : kind_of e = LogKind <-> kind_of e' = LogKind) by (by rewrite H, H').
  destruct (kind_of e), (kind_of e'); naive_solver.
Qed.

Lemma waiting_kind kd k e : e ∈ waiting kd k -> kind_of e = kd.
Proof. destruct kd; simpl; by intros (item & -> & _)%list_elem_of_fmap. Qed.

Definition well_named (k : HookState) : Prop := forall kd e, e ∈ waiting kd k -> named e.

Lemma slice_last_incl {A} n (l : list A) x : x ∈ slice_last n l -> x ∈ l.
Proof.
  intros Hx. destruct (slice_last_suffix n l) as [dropped ->]. apply elem_of_app. by right.
Qed.

Lemma op_step_named op k c : well_named k -> (forall e now, op = Arrive e now -> named e) ->
  well_named (op_step op k c).1.
Proof.
  intros Hk He. pose proof (op_step_spec op k c) as H. destruct (op_step op k c) as [k1 c1].
  destruct H as (_ & _ & H & _). intros kd e Hin. simpl in *. destruct op as [e0 now|kd0].
  - rewrite H in Hin. case_decide; [|by eapply Hk].
    apply slice_last_incl, elem_of_app in Hin as [Hin|Hin]; [by eapply Hk|].
    apply list_elem_of_singleton in Hin as ->. by eapply He.
  - destruct (H kd) as [E|[_ E]]; rewrite E in Hin; [by eapply Hk|].
    apply (Hk kd). destruct (waiting kd k); [done|by right].
Qed.

Lemma run_complete kd ops k c : no_overflow ops k c -> well_named k -> Forall named (arrived ops) ->
  let '(applied, k', _) := run_ops ops k c in
  filter (fun e => kind_of e = kd) applied ++ fresh event_id (processedEventIds k') (waiting kd k')
  = fresh event_id (processedEventIds k) (waiting kd k ++ filter (fun e => kind_of e = kd) (arrived ops)).
Proof.
  revert k c. induction ops as [|op ops IH]; intros k c Hov Hk Ha; simpl; [by rewrite app_nil_r|].
  destruct Hov as [Hroom Hov].
  assert (Hk1 : well_named (op_step op k c).1).
  { apply op_step_named; [done|]. intros e now ->. by inversion Ha. }
  pose proof (op_step_spec op k c) as H. destruct (op_step op k c) as [k1 c1]. destruct H as (_ & Hp & Hw & Hnone).
  assert (Ha' : Forall named (arrived ops)) by (destruct op; [by inversion Ha|done]).
  specialize (IH k1 c1 Hov Hk1 Ha'). simpl in Hk1. destruct (run_ops ops k1 c1) as [[applied k2] c2].
  destruct op as [e now|kd0].
  - simpl in *. rewrite IH, Hp, (Hw kd), filter_cons. destruct (decide (kind_of e = kd)) as [<-|Hne]; [|done].
    rewrite slice_last_all by (rewrite ?length_app; simpl; lia). by rewrite <- app_assoc.
  - change (arrived (Effect kd0 :: ops)) with (arrived ops). destruct (decide (kd0 = kd)) as [->|Hne].
    + cbn [next_event] in *. destruct (waiting kd k) as [|e q] eqn:Eq.
      { simpl. rewrite IH, Hp, (Hnone eq_refl), ?Eq. done. }
      simpl app. cbn [fresh]. destruct (set_has (event_id e) (processedEventIds k)) eqn:Es.
      { simpl. rewrite IH, Hp, (Hnone eq_refl), ?Eq. done. }
      assert (Hkind : kind_of e = kd) by (apply (waiting_kind kd k); rewrite Eq; left).
      simpl. rewrite filter_cons, decide_True by done. simpl. f_equal. rewrite IH, Hp.
      destruct (Hw kd) as [E|[_ E]]; rewrite E, Eq; simpl; [|done].
      by rewrite (proj2 (set_has_spec _ _) (proj2 (elem_of_set_add _ _ _) (or_introl eq_refl))).
    + assert (E : waiting kd k1 = waiting kd k) by (destruct (Hw kd) as [?|[? _]]; congruence). rewrite E in IH.
      destruct (next_event (Effect kd0) k) as [e|] eqn:En; simpl; [|by rewrite IH, Hp].
      assert (Hin : e ∈ waiting kd0 k).
      { cbn in En. destruct (waiting kd0 k) as [|e' q]; [done|]. destruct (set_has _ _); [done|].
        injection En as ->. left. }
      pose proof (waiting_kind _ _ _ Hin) as Hkind.
      rewrite filter_cons, decide_False by congruence. rewrite IH, Hp. apply fresh_ext. intros x Hx.
      rewrite elem_of_set_add. split; [intros [Heq|?]; [|done]|by right]. exfalso. revert Heq.
      apply elem_of_app in Hx as [Hx|[Hkx Hx]%list_elem_of_filter].
      * apply named_ne; [by eapply Hk|by eapply Hk|]. rewrite Hkind, (waiting_kind _ _ _ Hx). done.
      * apply named_ne; [by eapply Forall_forall in Ha'|by eapply Hk|]. by rewrite Hkind, Hkx.
Qed.


(** A burst loses its oldest event: when an event of a kind arrives while 500 of that
    kind wait, the first of them leaves the queue without having been applied. *)
Theorem burst_drops_oldest e now k c e0 q : waiting (kind_of e) k = e0 :: q -> (length q = 499)%nat ->
  waiting (kind_of e) (op_step (Arrive e now) k c).1 = q ++ [e]
  /\ (op_step (Arrive e now) k c).2 = c.
Proof.
  intros Eq Hl. pose proof (op_step_spec (Arrive e now) k c) as H.
  destruct (op_step (Arrive e now) k c) as [k1 c1]. destruct H as (Hc & _ & Hw & _).
  simpl in *. split; [|done]. rewrite (Hw (kind_of e)), decide_True, Eq by done. unfold slice_last. simpl.
  rewrite length_app, Hl. simpl. done.
Qed.
End Stream.

(** ** What an event does to its run *)
Section Ending.
Context (activeProjectId : option string).

Lemma in_executions_bind {A B} (m : ExecutionStore.Action A) (f : A -> StoresM B) h s a h' es :
  m (h, execution_store s) = (Return a, (h', es)) ->
  (in_executions m ≫= f) (h, s) = f a (h', MkStores es (scenario_run_store s) (test_result_store s)).
Proof. intros E. apply stores_bind. unfold in_executions. by rewrite E. Qed.

(** A rewrite of a stored run by a signed-in user. *)
Lemma rewritten_run id change h (s : Store ExecutionStore.ExecutionState) ex u :
  getUserId h = Return u -> ExecutionStore.executions (state s) !! id = Some ex ->
  exists h' m s', ExecutionStore.set (ExecutionStore.rewritten id change) (h, s) = (Return tt, (h', s'))
    /\ ExecutionStore.executions (state s') !! id = Some (change ex m h)
    /\ getUserId h' = Return u /\ nowMs h' = nowMs h.
Proof.
  intros Hu Hex. unfold ExecutionStore.set, syncSet, ExecutionStore.rewritten. rewrite Hex.
  unfold addSyncMetadata. rewrite Hu. pose proof (client_id_user h) as Hc. rewrite Hu in Hc.
  pose proof (client_id_clock h) as Hn.
  destruct (getOrCreateClientId h) as [cid h']. simpl in *.
  destruct (str_truthy id); do 3 eexists; (split; [reflexivity|]); simpl; by rewrite jlookup_insert_eq.
Qed.

Lemma rewritten_scenario_run id change h (s : Store ScenarioRunStore.ScenarioRunState) u :
  getUserId h = Return u ->
  exists h' s', ScenarioRunStore.set (ScenarioRunStore.rewritten id change) (h, s) = (Return tt, (h', s'))
    /\ getUserId h' = Return u /\ nowMs h' = nowMs h.
Proof.
  intros Hu. unfold ScenarioRunStore.set, syncSet, ScenarioRunStore.rewritten.
  assert (H : forall t h', getUserId h' = Return u -> nowMs h' = nowMs h -> exists h1 s',
    (if negb (opt_enabled ScenarioRunStore.options) then (Return tt, (h', MkStore t (pendingOps s) (microtasks s)))
     else match getEntityId ScenarioRunStore.options t with
          | Some id0 => if str_truthy id0 then (Return tt, (h', MkStore t (pendingOps s) (microtasks s ++ [id0])))
                        else (Return tt, (h', MkStore t (pendingOps s) (microtasks s)))
          | None => (Return tt, (h', MkStore t (pendingOps s) (microtasks s)))
          end) = (Return tt, (h1, s')) /\ getUserId h1 = Return u /\ nowMs h1 = nowMs h).
  { intros t h' Hu' Hn'. simpl. destruct (ScenarioRunStore._currentEntityId t) as [id0|]; [destruct (str_truthy id0)|]; eauto. }
  destruct (ScenarioRunStore.scenarioRuns (state s) !! id) as [run|]; [|by apply H].
  unfold addSyncMetadata. rewrite Hu. pose proof (client_id_user h) as Hc. rewrite Hu in Hc.
  pose proof (client_id_clock h) as Hn. destruct (getOrCreateClientId h) as [cid h']. by apply H.
Qed.

Lemma scenario_results_frame l runs run h s u : getUserId h = Return u ->
  exists h' ss, apply_scenario_results runs run l (h, s)
      = (Return tt, (h', MkStores (execution_store s) ss (test_result_store s)))
    /\ getUserId h' = Return u /\ nowMs h' = nowMs h.
Proof.
  revert h s. induction l as [|a l IH]; intros h s Hu; simpl.
  { exists h, (scenario_run_store s). by destruct s. }
  destruct (find_run runs run (as_scenarioId a)) as [r|]; [|by apply (IH h s)].
  edestruct (rewritten_scenario_run (ScenarioRunStore.run_id r)) as (h1 & s1 & E & Hu1 & Hn1); [exact Hu|].
  erewrite stores_bind; [|unfold in_scenario_runs, ScenarioRunStore.updateScenarioRun; rewrite E; reflexivity].
  destruct (IH h1 (MkStores (execution_store s) s1 (test_result_store s)) Hu1) as (h2 & ss & E2 & Hu2 & Hn2).
  exists h2, ss. split; [exact E2|]. split; [done|congruence].
Qed.

(** The callbacks of an aggregated result. *)
Definition ending_callbacks (status : WorkflowRunStatus) (e : WorkflowLogEvent) : list Notice :=
  match status with
  | WCompleted => [OnComplete (ev_result e)]
  | WFailed | WPartialFailed =>
      [OnError (default "Workflow execution failed" (extractWorkflowError (ev_error e) (scenario_results (ev_result e))))]
  | _ => []
  end.

(** Moving the cursor of a stored run. *)
Lemma cursor_part run eventId h s ex :
  ExecutionStore.executions (state (execution_store s)) !! run = Some ex ->
  exists es ex', (if str_truthy eventId then in_executions (ExecutionStore.updateReplayCursor run eventId) else mret tt) (h, s)
      = (Return tt, (h, MkStores es (scenario_run_store s) (test_result_store s)))
    /\ ExecutionStore.executions (state es) !! run = Some ex'
    /\ ExecutionStore.ex_logs ex' = ExecutionStore.ex_logs ex
    /\ ExecutionStore.ex_finishedAt ex' = ExecutionStore.ex_finishedAt ex
    /\ ExecutionStore.ex_lastEventId ex' = (if isNewerEventId (ExecutionStore.ex_lastEventId ex) eventId
                                            then Some eventId else ExecutionStore.ex_lastEventId ex).
Proof.
  intros Hex. destruct (str_truthy eventId) eqn:Et.
  - destruct (set_pure ExecutionStore.options (ExecutionStore.cursor_state run eventId) h (execution_store s)) as [ms E].
    unfold in_executions, ExecutionStore.updateReplayCursor, ExecutionStore.set. rewrite E.
    unfold ExecutionStore.cursor_state. rewrite Hex.
    destruct (isNewerEventId (ExecutionStore.ex_lastEventId ex) eventId); do 2 eexists; (split; [reflexivity|]); simpl;
      rewrite ?jlookup_insert_eq; by split_and!.
  - exists (execution_store s), ex. split; [by destruct s|]. split_and!; [done..|].
    unfold isNewerEventId. by rewrite Et.
Qed.

Lemma aggregated_shape e status : aggregated_status e = Some status ->
  ostr_truthy (ev_scenarioId e) = false /\ json_present (ev_result e) = ev_result e.
Proof.
  unfold aggregated_status. destruct (ostr_truthy (ev_scenarioId e)); [done|].
  destruct (ev_result e) as [[]|]; done.
Qed.

(** C23: the event that carries a run's aggregated result is recorded whole.  For a
    signed-in user and a stored run it does not fail: the run gets the status of
    the result, the result, the event's message at the end of its log, an end
    time exactly when the status is final, and the event's id as replay cursor
    when it is newer; the snapshot is fetched again and the completion or the
    error is reported once, with the errors of the scenarios when the event
    itself has none. *)
Theorem ending_recorded e eventId status h s ex u :
  getUserId h = Return u -> ExecutionStore.executions (state (execution_store s)) !! ev_workflowRunId e = Some ex ->
  aggregated_status e = Some status ->
  exists h' s' ex', apply_log (runs_of (h, s)) activeProjectId (MkLogItem e eventId) (h, s)
      = (Return (reconcile e activeProjectId ++ ending_callbacks status e), (h', s'))
    /\ ExecutionStore.executions (state (execution_store s')) !! ev_workflowRunId e = Some ex'
    /\ ExecutionStore.ex_status ex' = status
    /\ ExecutionStore.ex_result ex' = ev_result e
    /\ ExecutionStore.ex_logs ex' = slice_last 500 (ExecutionStore.ex_logs ex ++ [ev_message e])
    /\ ExecutionStore.ex_finishedAt ex' = (if isWorkflowRunActive (Some status) then ExecutionStore.ex_finishedAt ex
                                           else Some (nowMs h))
    /\ ExecutionStore.ex_lastEventId ex' = (if isNewerEventId (ExecutionStore.ex_lastEventId ex) eventId
                                            then Some eventId else ExecutionStore.ex_lastEventId ex).
Proof.
  intros Hu Hex Hagg. destruct (aggregated_shape e status Hagg) as [Hsc Hres]. unfold apply_log. cbn [li_data li_eventId].
  destruct (cursor_part (ev_workflowRunId e) eventId h s ex Hex) as (es1 & ex1 & E1 & Hex1 & Hl1 & Hf1 & Hc1).
  rewrite (stores_bind _ _ _ _ _ E1). clear E1. set (s1 := MkStores es1 _ _).
  destruct (rewritten_run (ev_workflowRunId e) (ExecutionStore.append_log (ev_message e)) h es1 ex1 u Hu Hex1)
    as (h2 & m2 & es2 & E2 & Hex2 & Hu2 & Hn2).
  rewrite (in_executions_bind _ _ h s1 tt h2 es2 E2). clear E2. set (s2 := MkStores es2 _ _).
  assert (E3 : apply_scenario_log (runs_of (h, s)) e (h2, s2) = (Return tt, (h2, s2))).
  { unfold apply_scenario_log. destruct (ev_scenarioId e) as [id|]; [|done]. simpl in Hsc. by rewrite Hsc. }
  rewrite (stores_bind _ _ _ _ _ E3), Hagg. clear E3. unfold apply_aggregated.
  destruct (scenario_results_frame (default [] (scenario_results (ev_result e))) (runs_of (h, s)) (ev_workflowRunId e)
    h2 s2 u Hu2) as (h4 & ss & E4 & Hu4 & Hn4). rewrite (stores_bind _ _ _ _ _ E4). clear E4.
  set (s4 := MkStores _ ss _).
  set (err := extractWorkflowError (ev_error e) (scenario_results (ev_result e))).
  destruct (rewritten_run (ev_workflowRunId e) (ExecutionStore.with_status status (ev_result e) err) h4 es2 _ u Hu4 Hex2)
    as (h5 & m5 & es5 & E5 & Hex5 & _).
  rewrite (in_executions_bind _ _ h4 s4 tt h5 es5 E5). clear E5.
  do 3 eexists. split; [reflexivity|]. simpl. split; [exact Hex5|]. cbn. rewrite Hres, Hl1, Hf1, Hn4, Hn2.
  split_and!; try done. unfold aggregated_status in Hagg. rewrite Hsc in Hagg. by destruct (ev_result e).
Qed.
End Ending.

(** ** Witnesses *)
Definition demo_log (seq : Z) (result : option JsonValue) : WorkflowLogEvent :=
  MkLogEvent "r1" "p1" "w1" None None None "hello" None (Some "services") None None None None None None None None None None
    None 5 seq result None.
Definition demo_results (bulk : string) : ScenarioTestResultEvent :=
  MkTestResultEvent "r1" "p1" "w1" "sc1" "Demo" None bulk 6
    [MkResultEntry "t1" "First" (Some "http") RPassed None None None "create" None None 1].
Definition demo_ops : list Op :=
  [Arrive (Log (MkLogItem (demo_log 1 None) "8")) 10; Arrive (Log (MkLogItem (demo_log 1 None) "8")) 11;
   Effect LogKind; Arrive (Result (MkResultItem (demo_results "b1") "9")) 12; Effect LogKind; Effect ResultKind;
   Arrive (Log (MkLogItem (demo_log 2 None) "10")) 13].


Definition demo_ending : WorkflowLogEvent :=
  demo_log 3 (Some (JObj [("status", JStr "failed");
    ("scenarioResults", JArr [JObj [("scenarioId", JStr "sc1"); ("scenarioName", JStr "Demo"); ("error", JStr "boom")]])])).

Lemma ending_recorded_witness : exists h' s' ex',
  apply_log (runs_of (sample_host, demo_stores 1)) None (MkLogItem demo_ending "12") (sample_host, demo_stores 1)
    = (Return [ReconcileSnapshot "r1" "p1"; OnError "Demo: boom"], (h', s'))
  /\ ExecutionStore.executions (state (execution_store s')) !! "r1" = Some ex'
  /\ ExecutionStore.ex_status ex' = WFailed /\ ExecutionStore.ex_lastEventId ex' = Some "12".
Proof.
  destruct (ending_recorded None demo_ending "12" WFailed sample_host (demo_stores 1) ExecutionStore.demo_execution "user-1")
    as (h' & s' & ex' & E & H1 & H2 & _ & _ & _ & H3); [reflexivity | reflexivity | reflexivity |].
  exists h', s', ex'. split; [exact E|]. split; [exact H1|]. split; [exact H2 | exact H3].
Defined.

Lemma burst_drops_oldest_witness : exists q,
  let e := Log (MkLogItem (demo_log 0 None) "") in
  let k := set_logs (repeat (MkLogItem (demo_log 1 None) "") 500) initial in
  waiting LogKind (op_step None (Arrive e 0) k (sample_host, demo_stores 1)).1 = q ++ [e] /\ length q = 499%nat.
Proof.
  exists (map Log (repeat (MkLogItem (demo_log 1 None) "") 499)). cbv zeta. split; [|vm_compute; reflexivity].
  eapply (burst_drops_oldest None (Log (MkLogItem (demo_log 0 None) "")) 0
    (set_logs (repeat (MkLogItem (demo_log 1 None) "") 500) initial)); reflexivity.
Defined.
