(* ===== verification/RunWorkflow.v ===== *)
(** * Starting a run: [ui-v2/src/modules/workflow/hooks/useWorkflowExecution.tsx]
      and the completion listener of [hooks/useRealTimeTestReults.tsx]

    [execute] selects scenarios, validates them against the graph on screen,
    flushes what the server must know first, records the run in the stores and
    hands it to the runner.  The hook's props and what it selected from the
    stores when it rendered are the record [Hook]; its React state, the
    callbacks it made and the page it navigated to are [HookState]. *)

From S2P Require Import Prelude FlowTypes SyncTypes ClientId FastQueue JsLib Json Process SyncService SyncMiddleware.
From S2P Require Import ServiceNames RunEvents ScenarioTranslator RegistryConfig WorkflowStore ScenarioStore ExecutionStore.
From S2P Require Import ScenarioRunStore TestResultStore RunSnapshot RunReplay Browser SyncHydration.
Open Scope Z_scope.

Module RunWorkflow.
(** ** Selection *)
Definition select_one (byId : jmap string Scenario) (workflowId scenarioId : string) : res Scenario :=
  let stale := Throw (JsError ("Scenario " +:+ scenarioId +:+ " is stale or does not belong to this workflow.")) in
  match byId !! scenarioId with
  | None => stale
  | Some scenario =>
      if is_deleted (scn_meta scenario) || negb (bool_decide (scn_workflowId scenario = workflowId)) then stale
      else Return scenario
  end.

Definition selectScenariosForRun (scenarios : list Scenario) (workflowId : string) (scenarioIds : option (list string))
    : res (list Scenario) :=
  match scenarioIds with
  | None => Return scenarios
  | Some [] => Throw (JsError "Select at least one scenario to run.")
  | Some ids =>
      if negb (length (set_of_list ids) =? length ids)%nat
      then Throw (JsError "Scenario selection contains duplicate IDs.")
      else res_map (select_one (jmap_of_pairs (map (fun s => (scn_id s, s)) scenarios)) workflowId) ids
  end.

(** ** The hook *)
Record Hook := MkHook {
  hk_workflowId : string;
  hk_workflowName : string;
  hk_nodes : list FlowNode;
  hk_edges : list FlowEdge;
  hk_scenarios : list Scenario;
  hk_registrySecrets : option (jmap string RegistryRuntimeConfig)
}.

Record HookState := MkHookState {
  hs_isExecuting : bool;
  hs_validationResult : option ValidationResult;
  hs_errors : list string;
  hs_started : list string;
  hs_pushed : option (list string * list (string * string))
}.

Definition initial : HookState := MkHookState false None [] [] None.

Definition set_isExecuting (v : bool) (s : HookState) : HookState :=
  MkHookState v (hs_validationResult s) (hs_errors s) (hs_started s) (hs_pushed s).
Definition set_validationResult (v : ValidationResult) (s : HookState) : HookState :=
  MkHookState (hs_isExecuting s) (Some v) (hs_errors s) (hs_started s) (hs_pushed s).
Definition onError (message : string) (s : HookState) : HookState :=
  MkHookState (hs_isExecuting s) (hs_validationResult s) (hs_errors s ++ [message]) (hs_started s) (hs_pushed s).
Definition onStart (id : string) (s : HookState) : HookState :=
  MkHookState (hs_isExecuting s) (hs_validationResult s) (hs_errors s) (hs_started s ++ [id]) (hs_pushed s).
Definition push (page : list string * list (string * string)) (s : HookState) : HookState :=
  MkHookState (hs_isExecuting s) (hs_validationResult s) (hs_errors s) (hs_started s) (Some page).

Definition secret_key (node : FlowNode) : string := sanitizeName (ostr_or (nd_label (node_data node)) (node_id node)).

(** [node.data.service.registry] *)
Definition node_registry (node : FlowNode) : res (option (string * string)) :=
  match nd_service (node_data node) with
  | Some svc => Return (svc_registry svc)
  | None => Throw JsTypeError
  end.

Definition secret_entry (registrySecrets : option (jmap string RegistryRuntimeConfig)) (node : FlowNode)
    : res (list (string * RegistrySecret)) :=
  registry ← node_registry node;
  match registry with
  | None => Return []
  | Some (url, auth_type) =>
      let secret := registrySecrets ≫= (fun s : jmap string RegistryRuntimeConfig => s !! node_id node) in
      let basic := bool_decide (auth_type = "basic") in
      Return [(secret_key node,
        MkSecret (Some url) auth_type
          (if basic then secret ≫= rr_username else None)
          (if basic then secret ≫= rr_password else None)
          (if bool_decide (auth_type = "token") then secret ≫= rr_token else None))]
  end.

Definition normalizedSecrets (hook : Hook) : res RegistrySecrets :=
  pairs ← res_map (secret_entry (hk_registrySecrets hook)) (hk_nodes hook);
  Return (jmap_of_pairs (concat pairs)).

(** Whether a node's credentials are missing. *)
Definition missing_credentials (secrets : RegistrySecrets) (node : FlowNode) : res bool :=
  registry ← node_registry node;
  match registry with
  | None => Return false
  | Some (_, auth_type) =>
      let runtime := secrets !! secret_key node in
      Return (if bool_decide (auth_type = "none") then false else
        let missingBasic := bool_decide (auth_type = "basic")
          && (negb (ostr_truthy (js_trim <$> (runtime ≫= rs_username))) || negb (ostr_truthy (runtime ≫= rs_password))) in
        let missingToken := bool_decide (auth_type = "token") && negb (ostr_truthy (runtime ≫= rs_token)) in
        missingBasic || missingToken)
  end.

Fixpoint first_missing (secrets : RegistrySecrets) (nodes : list FlowNode) : res (option FlowNode) :=
  match nodes with
  | [] => Return None
  | node :: nodes' =>
      missing ← missing_credentials secrets node;
      if missing : bool then Return (Some node) else first_missing secrets nodes'
  end.

Definition reenter (node : FlowNode) : ValidationResult :=
  MkValidation false
    [MkTranslationError (Some (node_id node))
       ("Re-enter the session-only registry credentials for “" +:+ shown (nd_label (node_data node)) +:+ "” before running.")
       (Some "registry")] [].

Definition validate_one (graph : WorkflowServiceGraph) (scenario : Scenario) : ValidationResult :=
  validateScenario graph (scn_name scenario) (scn_tests scenario) (scn_testOrder scenario).

(** ** The flush before a run

    [Page] is the state of the component that waits for it, beside the server. *)
Section Flush.
Context `{D : Deque SyncChange} {Srv Page : Type}
        (server_sync : Srv -> SyncBatchRequest -> FetchOutcome SyncBatchResponse * Srv).

Definition on_server {X Y} (f : Srv -> X -> Y * Srv) (s : Srv * Page) (x : X) : Y * (Srv * Page) :=
  let '(y, srv) := f s.1 x in (y, (srv, s.2)).

(** [syncService.flushPendingBeforeRun(attempts)] *)
Fixpoint flush_before_run (attempts : nat) : Proc (SyncHydration.System (S := Srv * Page)) unit :=
  match attempts with
  | 0%nat => mret tt
  | Datatypes.S n =>
      batch ← SyncHydration.local (fun b =>
        if negb (hasPendingPreRunChanges (br_world b)) then (Return [], b)
        else let '(batch, w) := dequeueMatching is_pre_run (br_world b) in (Return batch, set_world w b));
      match batch with
      | [] => mret tt
      | _ =>
          p ← SyncHydration.local (SyncHydration.world_step (commitBatch_begin batch));
          result ← SyncHydration.drive_proc (on_server server_sync) 2 p;
          match result with
          | None => mret tt
          | Some _ => flush_before_run n
          end
      end
  end.
End Flush.

Section Hook.
Context (localeCompare : string -> string -> Z) (hook : Hook).

Definition validateSelection (selectedScenarios : list Scenario) : res ValidationResult :=
  workflowValidation ← validateWorkflowGraph (hk_nodes hook) (hk_edges hook);
  if negb (vr_valid workflowValidation) then Return workflowValidation
  else
    secrets ← normalizedSecrets hook;
    missing ← first_missing secrets (hk_nodes hook);
    match missing with
    | Some node => Return (reenter node)
    | None =>
        serviceGraph ← translateWorkflowGraphToServiceGraph localeCompare (hk_nodes hook) (hk_edges hook) (Some secrets);
        match selectedScenarios with
        | [] => Return (MkValidation false [plain_error "Create at least one scenario before executing."] [])
        | _ =>
            Return (default workflowValidation
              (List.find (fun r => negb (vr_valid r)) (map (validate_one serviceGraph) selectedScenarios)))
        end
    end.

(** ** The request *)
Definition secret_json (s : RegistrySecret) : JsonValue :=
  json_obj [prop "url" JStr (rs_url s); [("auth_type", JStr (rs_auth_type s))]; prop "username" JStr (rs_username s);
            prop "password" JStr (rs_password s); prop "token" JStr (rs_token s)].

Definition scenario_input (p : Scenario * string) : JsonValue :=
  let '(sc, scenarioRunId) := p in
  json_obj [[("id", JStr (scn_id sc)); ("scenarioRunId", JStr scenarioRunId); ("projectId", JStr (scn_projectId sc));
             ("name", JStr (scn_name sc))]; prop "description" JStr (scn_description sc);
            [("tests", JArr (map test_json (scn_tests sc))); ("testOrder", json_strings (scn_testOrder sc));
             ("user_id", JStr (user_id (scn_meta sc))); ("client_id", JStr (client_id (scn_meta sc)))]].

Definition project_of (selected : list Scenario) : string :=
  match selected with sc :: _ => scn_projectId sc | [] => "" end.

Definition run_input (secrets : RegistrySecrets) (workflowRunId : string) (selected : list Scenario)
    (scenarioRunIds : list string) : JsonValue :=
  json_obj [[("workflowRunId", JStr workflowRunId); ("projectId", JStr (project_of selected));
             ("workflowId", JStr (hk_workflowId hook)); ("workflowName", JStr (hk_workflowName hook));
             ("nodes", JArr (map node_json (hk_nodes hook))); ("edges", JArr (map edge_json (hk_edges hook)));
             ("scenarios", JArr (map scenario_input (zip selected scenarioRunIds)));
             ("userId", JStr (match selected with sc :: _ => user_id (scn_meta sc) | [] => "demo-user" end))];
            prop "clientId" (fun sc => JStr (client_id (scn_meta sc))) (head selected);
            [("registrySecrets", JObj (map (fun '(k, s) => (k, secret_json s)) (entries secrets)));
             ("executionOptions", JObj [("continueOnFailure", JBool true)])]].

(** ** The run

    [Side] is the server and the runner beside the hook's state.  The random
    sources of the platform answer each call anew: [draws i] is what they give to
    the [i]-th id of the run, and [runner] the runner's answer to a submission
    ([None] when [fetch] rejects). *)
Context `{D : Deque SyncChange}.
Context {Srv : Type} (draws : nat -> Crypto * string)
        (server_sync : Srv -> SyncBatchRequest -> FetchOutcome SyncBatchResponse * Srv)
        (runner : Srv -> string -> option (ApiReply (option ExecutionStore.QueueInfo)) * Srv)
        (engine_text : js_error -> string).

Notation Side := (Srv * HookState)%type.
Notation Execution := (Proc (SyncHydration.System (S := Side))).

Definition setState (f : HookState -> HookState) : Execution unit :=
  SyncHydration.remote (fun s => (tt, (s.1, f s.2))).

Definition redraw (d : Crypto * string) (h : Host) : Host :=
  MkHost (hasWindow h) (storageThrows h) (localStorage h) (currentUserId h) (currentProjectId h) (nowMs h)
    (nowIso h) d.1 d.2 (sendBeacon h).
Definition drawn {A} (i : nat) (m : BrowserM A) : BrowserM A :=
  on_world (fun w => set_host (redraw (draws i) (host w)) w);; m.

Fixpoint start_runs (i : nat) (workflowRunId : string) (selected : list Scenario) : BrowserM (list string) :=
  match selected with
  | [] => mret []
  | sc :: rest =>
      id ← drawn i (in_runs (in_scenario_runs (ScenarioRunStore.startScenarioRun (scn_projectId sc) workflowRunId
             (hk_workflowId hook) (scn_id sc) (scn_name sc))));
      ids ← start_runs (Datatypes.S i) workflowRunId rest;
      mret (id :: ids)
  end.

(** The part between the flush and the submission, which runs in one task. *)
Definition begin_run (workflowRunId : string) (selected : list Scenario) : BrowserM (list string) :=
  blocked ← readBrowser (fun b => hasBlockingPreRunChanges (hk_workflowId hook) (br_world b));
  if blocked : bool then
    lift_res (Throw (JsError
      "This workflow has not been synchronized yet. Wait for sync or try Force sync before execution."))
  else
    ids ← start_runs 1 workflowRunId selected;
    in_runs (in_executions (ExecutionStore.startExecution (project_of selected) (hk_workflowId hook) workflowRunId ids));;
    mret ids.

Definition submission (secrets : RegistrySecrets) (workflowRunId : string) (selected : list Scenario)
    (ids : list string) : Execution (option ExecutionStore.QueueInfo) :=
  outcome ← SyncHydration.remote (fun s => on_server runner s (json_text (run_input secrets workflowRunId selected ids)));
  Process.Done (match outcome with
                | None => Throw JsTypeError
                | Some reply => submission_reply None reply
                end).

Definition run_page (workflowRunId : string) (selected : list Scenario) : list string * list (string * string) :=
  (["workflow"; hk_workflowId hook; "runs"; workflowRunId], [("projectId", project_of selected)]).

(** [error.message] *)
Definition message_of (e : js_error) : string := match e with JsError m => m | _ => engine_text e end.

Definition attempt (secrets : RegistrySecrets) (workflowRunId : string) (selected : list Scenario) : Execution bool :=
  flush_before_run server_sync 10;;
  ids ← SyncHydration.local (begin_run workflowRunId selected);
  setState (onStart workflowRunId);;
  queue ← submission secrets workflowRunId selected ids;
  SyncHydration.local (in_runs (in_executions (ExecutionStore.updateQueueInfo workflowRunId queue)));;
  setState (push (run_page workflowRunId selected));;
  mret true.

Definition failed_run (workflowRunId : string) (e : js_error) : Execution bool :=
  SyncHydration.local (in_runs (in_executions (ExecutionStore.failExecution workflowRunId (message_of e))));;
  setState (onError (message_of e));;
  mret false.

(** [try { body } finally { setIsExecuting(false) }] *)
Definition finally_idle (body : Execution bool) : Execution bool :=
  result ← catch body (fun e => setState (set_isExecuting false);; throw e);
  setState (set_isExecuting false);;
  mret result.

Definition execute (scenarioIds : option (list string)) : Execution bool :=
  match selectScenariosForRun (hk_scenarios hook) (hk_workflowId hook) scenarioIds with
  | Throw e => setState (onError (message_of e));; mret false
  | Return selected =>
      validation ← Process.Done (validateSelection selected);
      secrets ← Process.Done (normalizedSecrets hook);
      setState (set_validationResult validation);;
      if negb (vr_valid validation) then
        setState (onError ("Workflow validation failed: " +:+ join "; " (map te_message (vr_errors validation))));;
        mret false
      else
        setState (set_isExecuting true);;
        workflowRunId ← SyncHydration.local (drawn 0 (readBrowser (fun b => generateId (br_host b))));
        finally_idle (catch (attempt secrets workflowRunId selected) (failed_run workflowRunId))
  end.

Definition canExecute (s : HookState) : bool :=
  (0 <? length (hk_nodes hook))%nat && (0 <? length (hk_scenarios hook))%nat && negb (hs_isExecuting s).
End Hook.
End RunWorkflow.

(** ** The completion listener: [useRealtimeTestResults] *)
Module RunListener.
Record ListenerState := MkListener {
  previousStatuses : jmap string ScenarioTestResultStatus;
  observedActiveRuns : list string;
  notifiedRuns : list string
}.

Definition initial : ListenerState := MkListener ∅ [] [].

Record Summary := MkSummary { sm_total : Z; sm_passed : Z; sm_failed : Z; sm_duration : Z }.

(** The calls an effect makes. *)
Inductive Notice :=
| TestComplete (test : TestResultStore.TestResult)
| AllTestsComplete (workflowRunId : string) (summary : Summary).

Definition activeExecution (st : ExecutionStore.ExecutionState) : option ExecutionStore.WorkflowExecution :=
  match ExecutionStore.activeWorkflowRunId st with
  | Some id => if str_truthy id then ExecutionStore.executions st !! id else None
  | None => None
  end.

(** What the hook shows of the stores: the active run and its results. *)
Definition activeResults (active : option ExecutionStore.WorkflowExecution) (st : TestResultStore.TestResultState)
    : list TestResultStore.TestResult :=
  match active with
  | Some ex =>
      if str_truthy (ExecutionStore.ex_workflowRunId ex) then
        filter (fun r => TestResultStore.tr_workflowRunId (TestResultStore.tr_input r) = Some (ExecutionStore.ex_workflowRunId ex)
                         /\ is_deleted (TestResultStore.tr_meta r) = false) (jvalues (TestResultStore.testResults st))
      else []
  | None => []
  end.

Definition status_of (t : TestResultStore.TestResult) : ScenarioTestResultStatus := TestResultStore.tr_status (TestResultStore.tr_input t).
Definition finished (s : ScenarioTestResultStatus) : bool := bool_decide (s = RPassed) || bool_decide (s = RFailed).
Definition allComplete (tests : list TestResultStore.TestResult) : bool :=
  (0 <? length tests)%nat && forallb (fun t => finished (status_of t)) tests.
Definition count_status (s : ScenarioTestResultStatus) (tests : list TestResultStore.TestResult) : Z :=
  Z.of_nat (length (filter (fun t => status_of t = s) tests)).

Definition under_way (s : WorkflowRunStatus) : bool := match s with WPending | WRunning => true | _ => false end.

(** The loop over the results: a status that changed is remembered, and the end of
    a test that was seen before is announced. *)
Fixpoint observe (tests : list TestResultStore.TestResult) (seen : jmap string ScenarioTestResultStatus)
    : list Notice * jmap string ScenarioTestResultStatus :=
  match tests with
  | [] => ([], seen)
  | t :: rest =>
      let id := TestResultStore.tr_id (TestResultStore.tr_input t) in
      let previous := seen !! id in
      if bool_decide (previous = Some (status_of t)) then observe rest seen
      else
        let '(notices, seen') := observe rest (<[id := status_of t]> seen) in
        (if bool_decide (previous <> None) && finished (status_of t) then TestComplete t :: notices else notices, seen')
  end.

Definition summary (ex : ExecutionStore.WorkflowExecution) (tests : list TestResultStore.TestResult) : Summary :=
  MkSummary (Z.of_nat (length tests)) (count_status RPassed tests) (count_status RFailed tests)
    (match ExecutionStore.ex_finishedAt ex with
     | Some t => if t =? 0 then 0 else t - ExecutionStore.ex_startedAt ex
     | None => 0
     end).

Definition effect (active : option ExecutionStore.WorkflowExecution) (tests : list TestResultStore.TestResult)
    (s : ListenerState) : list Notice * ListenerState :=
  match active with
  | None => ([], MkListener ∅ (observedActiveRuns s) (notifiedRuns s))
  | Some ex =>
      let run := ExecutionStore.ex_workflowRunId ex in
      let observed := if str_truthy run && under_way (ExecutionStore.ex_status ex)
                      then set_add run (observedActiveRuns s) else observedActiveRuns s in
      let '(notices, seen) := observe tests (previousStatuses s) in
      if shouldNotifyTestRunCompletion (Some run) (allComplete tests) (set_has run observed) (set_has run (notifiedRuns s))
      then (notices ++ [AllTestsComplete run (summary ex tests)], MkListener seen observed (set_add run (notifiedRuns s)))
      else (notices, MkListener seen observed (notifiedRuns s))
  end.

(** The effect of every render, from the stores at that render. *)
Fixpoint renders (views : list (option ExecutionStore.WorkflowExecution * list TestResultStore.TestResult))
    (s : ListenerState) : list Notice * ListenerState :=
  match views with
  | [] => ([], s)
  | (active, tests) :: rest =>
      let '(n1, s1) := effect active tests s in
      let '(n2, s2) := renders rest s1 in
      (n1 ++ n2, s2)
  end.
End RunListener.
