(* ===== verification/RunWorkflowFacts.v ===== *)
(** * What starting a run guarantees *)

From S2P Require Import Prelude FlowTypes SyncTypes ClientId FastQueue JsLib Json Process SyncService SyncServiceFacts SyncMiddleware.
From S2P Require Import ServiceNames RunEvents ScenarioTranslator TranslatorFacts RegistryConfig WorkflowStore ScenarioStore ExecutionStore.
From S2P Require Import ScenarioRunStore TestResultStore RunSnapshot RunReplay Browser SyncHydration SyncHydrationFacts RealtimeFacts RunWorkflow.
Open Scope Z_scope.
Import RunWorkflow.

(** ** Selection *)
Definition selectable (scenarios : list Scenario) (workflowId : string) (sc : Scenario) : Prop :=
  sc ∈ scenarios /\ is_deleted (scn_meta sc) = false /\ scn_workflowId sc = workflowId.

Lemma select_one_spec scenarios workflowId id sc : NoDup (map scn_id scenarios) ->
  select_one (jmap_of_pairs (map (fun s => (scn_id s, s)) scenarios)) workflowId id = Return sc
  <-> scn_id sc = id /\ selectable scenarios workflowId sc.
Proof.
  intros Hn. set (pairs := map (fun s => (scn_id s, s)) scenarios).
  assert (Hk : NoDup (map fst pairs)) by (unfold pairs; by rewrite map_map).
  assert (Hp : forall s, (id, s) ∈ pairs <-> scn_id s = id /\ s ∈ scenarios).
  { intros s. unfold pairs. rewrite list_elem_of_fmap. split; [by intros (s' & [= -> ->] & H)|].
    intros [<- H]. by exists s. }
  unfold select_one, selectable. destruct (jmap_of_pairs pairs !! id) as [s|] eqn:El.
  - pose proof (proj1 (jlookup_of_pairs pairs id s Hk) El) as [Hid Hin]%Hp.
    destruct (is_deleted (scn_meta s)) eqn:Ed; simpl.
    + split; [done|]. intros (Hi & Hs & Hd & Hw).
      assert (E : jmap_of_pairs pairs !! id = Some sc) by (by apply jlookup_of_pairs, Hp). congruence.
    + destruct (decide (scn_workflowId s = workflowId)) as [Hw|Hw].
      * rewrite bool_decide_eq_true_2 by done. simpl. split; [by intros [= <-]|]. intros (Hi & Hs & _).
        assert (E : jmap_of_pairs pairs !! id = Some sc) by (by apply jlookup_of_pairs, Hp). congruence.
      * rewrite bool_decide_eq_false_2 by done. simpl. split; [done|]. intros (Hi & Hs & Hd & Hw').
        assert (E : jmap_of_pairs pairs !! id = Some sc) by (by apply jlookup_of_pairs, Hp). congruence.
  - split; [done|]. intros (Hi & Hs & _).
    assert (E : jmap_of_pairs pairs !! id = Some sc) by (by apply jlookup_of_pairs, Hp). congruence.
Qed.

(** A selection of scenarios is honoured exactly or refused: the
    scenarios that run are the named ones, in the named order, each live and of
    this workflow; an empty selection, a repeated id or a stale one is refused. *)
Theorem selection_exact scenarios workflowId ids selected : NoDup (map scn_id scenarios) ->
  selectScenariosForRun scenarios workflowId (Some ids) = Return selected
  <-> ids <> [] /\ NoDup ids /\ map scn_id selected = ids /\ Forall (selectable scenarios workflowId) selected.
Proof.
  intros Hn. unfold selectScenariosForRun. destruct ids as [|id ids]; [split; [done|by intros []]|].
  destruct (Nat.eqb_spec (length (set_of_list (id :: ids))) (length (id :: ids))) as [El|El];
    rewrite set_of_list_length_eq in El; simpl negb; cbv iota; [|split; [done|intros (_ & Hd & _); by destruct (El Hd)]].
  rewrite res_map_return. split.
  - intros H. split; [done|]. split; [done|]. clear El. induction H as [|i sc l ls Hs _ [IH1 IH2]]; [done|].
    apply (select_one_spec _ _ _ _ Hn) in Hs as [<- Hs]. simpl. rewrite IH1. by split; [|constructor].
  - intros (_ & _ & <- & Hf). clear El id ids. induction Hf as [|sc l Hs _ IH]; [constructor|].
    simpl. constructor; [by apply select_one_spec|done].
Qed.

(** ** The run *)
Section Execution.
Context `{D : Deque SyncChange}.
Implicit Types (b : Browser) (w : World).

(** What synchronisation leaves alone: the entities, the session and the clock. *)
Definition kept b b' : Prop :=
  entities b' = entities b /\ getUserId (br_host b') = getUserId (br_host b) /\ nowMs (br_host b') = nowMs (br_host b).

#[local] Instance kept_preorder : PreOrder kept.
Proof. split; [by intros b; split_and!|]. intros a b c H1 H2. unfold kept in *. intuition congruence. Qed.

Definition same_session w w' : Prop := getUserId (host w') = getUserId (host w) /\ nowMs (host w') = nowMs (host w).

#[local] Instance same_session_preorder : PreOrder same_session.
Proof. split; [by intros w; split_and!|]. intros a b c H1 H2. unfold same_session in *. intuition congruence. Qed.

Lemma queueChange_host e id ct d w : host (queueChange e id ct d w) = host w.
Proof. unfold queueChange, coalesceQueuedChange. repeat case_match; simplify_eq; by rewrite ?persist_host. Qed.

Lemma emissions_host {T} (opts : SimpleSyncOptions T) es w : host (queue_emissions opts es w) = host w.
Proof.
  revert w. induction es as [|[[id ct] d] es IH]; intros w; [done|]. simpl.
  etransitivity; [apply IH|]. apply queueChange_host.
Qed.

Lemma settle_host b : br_host (settle b) = br_host b.
Proof. unfold settle, br_host. repeat destruct (run_microtasks _ _). simpl. by rewrite !emissions_host. Qed.

Lemma settle_kept b : kept b (settle b).
Proof. split; [apply settle_entities|]. by rewrite settle_host. Qed.

Lemma send_session batch w : same_session w (sendBatch_request batch w).2.
Proof.
  unfold sendBatch_request. destruct (getUserId (host w)) eqn:Hu; [|done]. destruct (getProjectId _); [|done].
  pose proof (client_id_user (host w)) as H1. pose proof (client_id_clock (host w)) as H2.
  unfold same_session. by destruct (getOrCreateClientId (host w)).
Qed.

Lemma requeue_session batch w : same_session w (requeue batch w).
Proof. unfold same_session, requeue. by rewrite persist_host. Qed.

Lemma begin_session batch w : same_session w (commitBatch_begin batch w).2.
Proof.
  unfold commitBatch_begin. pose proof (send_session batch w) as H.
  destruct (sendBatch_request batch w) as [[req|e] w']; [done|]. simpl in *. etrans; [exact H|apply requeue_session].
Qed.

Lemma conflicts_session r batch w : same_session w (dispatchConflicts r batch w).
Proof. unfold dispatchConflicts. by repeat case_match. Qed.

Lemma resume_session p o w : same_session w (resume p o w).2.
Proof.
  unfold resume. destruct p as [batch|batch repaired]; destruct (sendBatch_reply o) as [r|e];
    try apply requeue_session.
  - destruct (repairMissingEntityUpdates batch (rsp_errors r)) as [repaired|].
    + pose proof (send_session repaired w) as H. destruct (sendBatch_request repaired w) as [[req|e] w']; [done|].
      simpl in *. etrans; [exact H|apply requeue_session].
    + destruct (rolled_back r); [apply requeue_session|apply conflicts_session].
  - destruct (rolled_back r); [apply requeue_session|apply conflicts_session].
Qed.

Lemma dequeue_session f w : same_session w (dequeueMatching f w).2.
Proof.
  unfold dequeueMatching. destruct (split_matching _ _ _ _ _). unfold same_session. simpl. by rewrite persist_host.
Qed.

Lemma world_kept w b : same_session (br_world b) w -> kept b (set_world w b).
Proof. intros [H1 H2]. by split. Qed.

Context {Srv : Type} (draws : nat -> Crypto * string)
        (server_sync : Srv -> SyncBatchRequest -> FetchOutcome SyncBatchResponse * Srv)
        (runner : Srv -> string -> option (ApiReply (option ExecutionStore.QueueInfo)) * Srv)
        (engine_text : js_error -> string) (localeCompare : string -> string -> Z) (hook : Hook).
Implicit Types (srv : Srv) (hs : HookState).

Lemma run_local {S A} (m : BrowserM A) b (s : S) :
  run (SyncHydration.local m) (b, s) = ((m b).1, (settle (m b).2, s)).
Proof. unfold SyncHydration.local, statement, Browser.task. simpl. by destruct (m b). Qed.

Lemma run_remote {S A} (f : S -> A * S) b s :
  run (SyncHydration.remote (D := D) f) (b, s) = (Return (f s).1, (b, (f s).2)).
Proof. simpl. by destruct (f s). Qed.

Lemma run_state f b srv hs : run (setState (D := D) f) (b, (srv, hs)) = (Return tt, (b, (srv, f hs))).
Proof. done. Qed.

Lemma run_world {S A} (f : World -> A * World) b (s : S) : same_session (br_world b) (f (br_world b)).2 ->
  exists b', run (SyncHydration.local (SyncHydration.world_step f)) (b, s) = (Return (f (br_world b)).1, (b', s)) /\ kept b b'.
Proof.
  intros Hs. rewrite run_local. unfold SyncHydration.world_step. destruct (f (br_world b)) as [a w]. simpl in *.
  eexists. split; [reflexivity|]. etrans; [by apply world_kept|apply settle_kept].
Qed.

(** Driving a batch returns, and keeps what synchronisation keeps. *)
Lemma run_drive {Page} n p b srv (hs : Page) : exists r b' srv',
  run (SyncHydration.drive_proc (S := Srv * Page) (on_server server_sync) n p) (b, (srv, hs)) = (Return r, (b', (srv', hs))) /\ kept b b'.
Proof.
  revert p b srv. induction n as [|n IH]; intros [r|req pend] b srv; try by do 3 eexists.
  cbn [SyncHydration.drive_proc]. rewrite run_bind, run_remote.
  assert (Eo : exists o srv1, on_server server_sync (srv, hs) req = (o, (srv1, hs))).
  { unfold on_server. simpl. destruct (server_sync srv req). by do 2 eexists. }
  destruct Eo as (o & srv1 & ->). cbn [fst snd]. rewrite run_bind.
  destruct (run_world (resume pend o) b (srv1, hs) (resume_session _ _ _)) as (b1 & E1 & K1).
  destruct (IH (resume pend o (br_world b)).1 b1 srv1) as (r & b2 & srv2 & E2 & K2).
  exists r, b2, srv2. split; [|by etrans]. by rewrite E1.
Qed.

Lemma run_flush {Page} n b srv (hs : Page) : exists b' srv',
  run (flush_before_run server_sync n) (b, (srv, hs)) = (Return tt, (b', (srv', hs))) /\ kept b b'.
Proof.
  revert b srv. induction n as [|n IH]; intros b srv; [by do 2 eexists|]. cbn [flush_before_run].
  rewrite run_bind, run_local.
  match goal with |- context [(if ?c then _ else _)] => set (blocked := c) end.
  assert (H1 : exists batch b1, (if blocked then (Return [], b)
      else let '(batch, w) := dequeueMatching is_pre_run (br_world b) in (Return batch, set_world w b))
    = (Return batch, b1) /\ kept b b1).
  { destruct blocked; [by do 2 eexists|]. pose proof (dequeue_session is_pre_run (br_world b)) as Hd.
    destruct (dequeueMatching is_pre_run (br_world b)) as [batch w]. do 2 eexists. split; [done|by apply world_kept]. }
  destruct H1 as (batch & b1 & -> & K1). cbn [fst snd].
  assert (K1' : kept b (settle b1)) by (etrans; [exact K1|apply settle_kept]).
  destruct batch as [|c batch]; [by do 2 eexists|].
  destruct (run_world (commitBatch_begin (c :: batch)) (settle b1) (srv, hs) (begin_session _ _)) as (b2 & E2 & K2).
  rewrite run_bind, E2, run_bind.
  destruct (run_drive 2 (commitBatch_begin (c :: batch) (br_world (settle b1))).1 b2 srv hs) as (r & b3 & srv3 & -> & K3).
  assert (K : kept b b3) by (do 2 (etrans; [eassumption|]); done).
  destruct r as [r|]; [|by do 2 eexists].
  destruct (IH b3 srv3) as (b4 & srv4 & E4 & K4). do 2 eexists. split; [exact E4|by etrans].
Qed.

(** The [i]-th id drawn at the browser's clock. *)
Definition drawn_id (i : nat) b : string := generateId (redraw (draws i) (br_host b)).

Lemma drawn_id_clock i b b' : nowMs (br_host b') = nowMs (br_host b) -> drawn_id i b' = drawn_id i b.
Proof. intros H. unfold drawn_id, generateId. simpl. by rewrite H. Qed.

(** The new run of a scenario. *)
Definition new_run (workflowRunId : string) (sc : Scenario) (run : ScenarioRunStore.ScenarioRun) : Prop :=
  ScenarioRunStore.run_scenarioId run = scn_id sc /\ ScenarioRunStore.run_projectId run = scn_projectId sc
  /\ ScenarioRunStore.run_workflowRunId run = workflowRunId
  /\ ScenarioRunStore.run_workflowId run = hk_workflowId hook
  /\ ScenarioRunStore.run_status run = SPending /\ is_deleted (ScenarioRunStore.run_meta run) = false.

Lemma start_one i rid sc b u : getUserId (br_host b) = Return u -> exists b' run,
  drawn draws i (in_runs (in_scenario_runs (ScenarioRunStore.startScenarioRun (scn_projectId sc) rid
    (hk_workflowId hook) (scn_id sc) (scn_name sc)))) b = (Return (drawn_id i b), b')
  /\ new_run rid sc run
  /\ entities b' = on_sr (fun st => ScenarioRunStore.MkState (<[drawn_id i b := run]> (ScenarioRunStore.scenarioRuns st))
                            (Some (drawn_id i b))) (entities b)
  /\ getUserId (br_host b') = Return u /\ nowMs (br_host b') = nowMs (br_host b).
Proof.
  intros Hu. unfold drawn, on_world, mbind, BrowserM_bind, in_runs, in_scenario_runs, ScenarioRunStore.startScenarioRun.
  unfold mbind, StoreM_bind, readHost, fromHost. cbn. unfold addSyncMetadata.
  assert (Hu' : getUserId (redraw (draws i) (br_host b)) = Return u) by exact Hu.
  pose proof (client_id_user (redraw (draws i) (br_host b))) as H1.
  pose proof (client_id_clock (redraw (draws i) (br_host b))) as H2.
  unfold br_host in Hu', H1, H2. rewrite Hu'. rewrite Hu' in H1.
  destruct (getOrCreateClientId (redraw (draws i) (host (br_world b)))) as [cid h]. cbn in *.
  unfold pureSet. cbn.
  destruct (str_truthy _); cbn; (eexists _, _; split; [reflexivity|]); (split; [|by split_and!]); by split_and!.
Qed.

Lemma start_runs_spec i rid selected b u : getUserId (br_host b) = Return u ->
  NoDup (map (fun k => drawn_id k b) (seq i (length selected))) -> exists b',
  start_runs hook draws i rid selected b = (Return (map (fun k => drawn_id k b) (seq i (length selected))), b')
  /\ getUserId (br_host b') = Return u /\ nowMs (br_host b') = nowMs (br_host b)
  /\ (exists f, entities b' = on_sr f (entities b))
  /\ (forall id, id ∉ map (fun k => drawn_id k b) (seq i (length selected)) ->
        ScenarioRunStore.scenarioRuns (en_scenarioRuns (entities b')) !! id
        = ScenarioRunStore.scenarioRuns (en_scenarioRuns (entities b)) !! id)
  /\ Forall2 (fun id sc => exists run, new_run rid sc run
       /\ ScenarioRunStore.scenarioRuns (en_scenarioRuns (entities b')) !! id = Some run)
       (map (fun k => drawn_id k b) (seq i (length selected))) selected.
Proof.
  revert i b. induction selected as [|sc rest IH]; intros i b Hu Hn.
  - exists b. split_and!; try done. by exists (fun st => st); destruct (entities b).
  - destruct (start_one i rid sc b u Hu) as (b1 & run & E1 & Hr & He & Hu1 & Hc1).
    assert (Eids : map (fun k => drawn_id k b1) (seq (Datatypes.S i) (length rest))
                   = map (fun k => drawn_id k b) (seq (Datatypes.S i) (length rest))).
    { apply map_ext. intros k. by apply drawn_id_clock. }
    cbn [length seq map] in Hn |- *. apply NoDup_cons in Hn as [Hni Hn].
    destruct (IH (Datatypes.S i) b1 Hu1) as (b2 & E2 & Hu2 & Hc2 & [f Hf] & Hfr & Hall); [by rewrite Eids|].
    rewrite Eids in *. exists b2. split; [|split; [done|split; [congruence|split; [|split]]]].
    + cbn [start_runs]. rewrite (browser_bind _ _ _ _ _ E1), (browser_bind _ _ _ _ _ E2). done.
    + rewrite Hf, He. by exists (fun st => f (ScenarioRunStore.MkState (<[drawn_id i b := run]> (ScenarioRunStore.scenarioRuns st))
        (Some (drawn_id i b)))).
    + intros id [Hne Hid]%not_elem_of_cons. rewrite (Hfr id Hid), He. cbn. by apply jlookup_insert_ne.
    + constructor; [|exact Hall]. exists run. split; [done|]. rewrite (Hfr _ Hni), He. cbn. apply jlookup_insert_eq.
Qed.

Lemma start_execution project rid ids b u : getUserId (br_host b) = Return u -> exists b' ex,
  in_runs (in_executions (ExecutionStore.startExecution project (hk_workflowId hook) rid ids)) b = (Return tt, b')
  /\ entities b' = on_ex (fun st => ExecutionStore.MkState (<[rid := ex]> (ExecutionStore.executions st)) (Some rid) (Some rid))
                     (entities b)
  /\ ExecutionStore.ex_workflowId ex = hk_workflowId hook /\ ExecutionStore.ex_scenarioRunIds ex = ids
  /\ ExecutionStore.ex_status ex = WPending
  /\ getUserId (br_host b') = Return u.
Proof.
  intros Hu. unfold in_runs, in_executions, ExecutionStore.startExecution, mbind, StoreM_bind, readHost, fromHost.
  cbn. unfold addSyncMetadata. rewrite Hu. pose proof (client_id_user (br_host b)) as H1. rewrite Hu in H1.
  destruct (getOrCreateClientId (br_host b)) as [cid h]. cbn in *. unfold pureSet.
  cbn. destruct (str_truthy rid); cbn; (eexists _, _; split; [reflexivity|]); by split_and!.
Qed.

(** The run [rid] of the selection in the stores. *)
Definition recorded (rid : string) (ids : list string) (selected : list Scenario) (ex : ExecutionStore.WorkflowExecution)
    (e : Entities) : Prop :=
  ExecutionStore.executions (en_executions e) !! rid = Some ex
  /\ ExecutionStore.ex_workflowId ex = hk_workflowId hook /\ ExecutionStore.ex_scenarioRunIds ex = ids
  /\ Forall2 (fun id sc => exists run, new_run rid sc run
       /\ ScenarioRunStore.scenarioRuns (en_scenarioRuns e) !! id = Some run) ids selected.

Notation blocked b := (hasBlockingPreRunChanges (hk_workflowId hook) (br_world b)).

Lemma begin_run_spec rid selected b u : getUserId (br_host b) = Return u ->
  let ids := map (fun k => drawn_id k b) (seq 1 (length selected)) in NoDup ids ->
  if blocked b then exists e, begin_run hook draws rid selected b = (Throw e, b)
  else exists b' ex, begin_run hook draws rid selected b = (Return ids, b') /\ recorded rid ids selected ex (entities b')
    /\ ExecutionStore.ex_status ex = WPending /\ getUserId (br_host b') = Return u.
Proof.
  intros Hu ids Hn. unfold begin_run. rewrite (browser_bind _ _ b (blocked b) b) by done.
  destruct (blocked b); [by eexists|].
  destruct (start_runs_spec 1 rid selected b u Hu Hn) as (b1 & E1 & Hu1 & _ & [f Hf] & _ & Hall).
  rewrite (browser_bind _ _ _ _ _ E1).
  destruct (start_execution (project_of selected) rid ids b1 u Hu1) as (b2 & ex & E2 & He & Hw & Hi & Hs & Hu2).
  rewrite (browser_bind _ _ _ _ _ E2). exists b2, ex. split; [done|]. split; [|done].
  unfold recorded. rewrite He. cbn. split; [apply jlookup_insert_eq|done].
Qed.

Definition submitted (secrets : RegistrySecrets) (rid : string) (selected : list Scenario) (ids : list string) srv
    : res (option ExecutionStore.QueueInfo) :=
  match (runner srv (json_text (run_input hook secrets rid selected ids))).1 with
  | None => Throw JsTypeError
  | Some reply => submission_reply None reply
  end.

Lemma run_submission secrets rid selected ids b srv hs : exists srv',
  run (submission hook runner secrets rid selected ids) (b, (srv, hs))
  = (submitted secrets rid selected ids srv, (b, (srv', hs))).
Proof.
  unfold submission, submitted. rewrite run_bind, run_remote. unfold on_server. cbn [fst snd].
  destruct (runner srv _) as [o srv']. by exists srv'.
Qed.

(** A failed run is marked, and its scenario runs stay. *)
Lemma run_failed rid e b srv hs ids selected ex u : getUserId (br_host b) = Return u -> recorded rid ids selected ex (entities b) ->
  exists b' ex', run (failed_run engine_text rid e) (b, (srv, hs))
    = (Return false, (b', (srv, onError (message_of engine_text e) hs)))
  /\ recorded rid ids selected ex' (entities b')
  /\ ExecutionStore.ex_status ex' = WFailed /\ ExecutionStore.ex_error ex' = Some (message_of engine_text e).
Proof.
  intros Hu (Hex & Hw & Hi & Hall). unfold failed_run. rewrite run_bind, run_local.
  unfold in_runs, in_executions, ExecutionStore.failExecution.
  match goal with |- context [ExecutionStore.set (ExecutionStore.rewritten _ ?c)] => set (change := c) end.
  destruct (rewritten_run rid change (br_host b) (execution_store (br_runs b)) ex u Hu Hex) as (h' & m & s' & E & Hl & _ & _).
  rewrite E. cbn [fst snd]. rewrite run_bind, run_state. cbn [run].
  do 2 eexists. split; [reflexivity|]. unfold recorded. rewrite settle_entities. cbn.
  split_and!; [exact Hl|done|done|exact Hall|done|done].
Qed.

Lemma run_failed_absent rid e b srv hs : ExecutionStore.executions (en_executions (entities b)) !! rid = None ->
  exists b', run (failed_run engine_text rid e) (b, (srv, hs))
    = (Return false, (b', (srv, onError (message_of engine_text e) hs))) /\ entities b' = entities b.
Proof.
  intros Hex. unfold failed_run. rewrite run_bind, run_local.
  unfold in_runs, in_executions, ExecutionStore.failExecution, ExecutionStore.set, syncSet, ExecutionStore.rewritten.
  cbn in Hex. rewrite Hex. cbn.
  destruct (ExecutionStore._currentEntityId _) as [id|]; [destruct (str_truthy id)|]; cbn;
    (eexists; split; [reflexivity|]); by rewrite settle_entities.
Qed.

(** The attempt and its handler, from the state after the flush. *)
Lemma attempt_outcome secrets rid selected b srv hs b1 srv1 u :
  run (flush_before_run server_sync 10) (b, (srv, hs)) = (Return tt, (b1, (srv1, hs))) ->
  getUserId (br_host b1) = Return u ->
  let ids := map (fun k => drawn_id k b1) (seq 1 (length selected)) in NoDup ids ->
  ExecutionStore.executions (en_executions (entities b1)) !! rid = None ->
  exists result b' srv' hs', run (catch (attempt hook draws server_sync runner secrets rid selected) (failed_run engine_text rid))
      (b, (srv, hs)) = (Return result, (b', (srv', hs')))
  /\ if blocked b1 then result = false /\ entities b' = entities b1 /\ srv' = srv1
     else exists ex, recorded rid ids selected ex (entities b')
       /\ match submitted secrets rid selected ids srv1 with
          | Return queue => result = true /\ ExecutionStore.ex_status ex = WPending
                            /\ hs_pushed hs' = Some (run_page hook rid selected)
          | Throw e => result = false /\ ExecutionStore.ex_status ex = WFailed
                       /\ ExecutionStore.ex_error ex = Some (message_of engine_text e)
          end.
Proof.
  intros Hf Hu ids Hn Hex. rewrite run_catch. unfold attempt. rewrite run_bind, Hf, run_bind, run_local.
  pose proof (begin_run_spec rid selected b1 u Hu Hn) as Hb. fold ids in Hb. destruct (blocked b1).
  - destruct Hb as [e ->]. cbn [fst snd].
    destruct (run_failed_absent rid e (settle b1) srv1 hs) as (b' & -> & He); [by rewrite settle_entities|].
    do 4 eexists. split; [reflexivity|]. by rewrite He, settle_entities.
  - destruct Hb as (b2 & ex & -> & Hr & Hs & Hu2). cbn [fst snd]. rewrite run_bind, run_state, run_bind.
    destruct (run_submission secrets rid selected ids (settle b2) srv1 (onStart rid hs)) as [srv2 ->].
    rewrite <- (settle_entities b2) in Hr. rewrite <- settle_host in Hu2.
    destruct (submitted secrets rid selected ids srv1) as [queue|e].
    + rewrite run_bind, run_local.
      assert (Hq : exists f, updates (in_runs (in_executions (ExecutionStore.updateQueueInfo rid queue))) tt (on_ex f)
        /\ (f = (fun st => st) \/ exists q, f = ExecutionStore.queue_state rid q)).
      { destruct queue as [q|]; [exists (ExecutionStore.queue_state rid q); split; [apply updates_executions|by eauto]|].
        exists (fun st => st). split; [|by left]. intros b0. exists b0.
        split; [by destruct b0 as [[] ? ? []]|]. split; [by apply quiet_preorder|by destruct (entities b0)]. }
      destruct Hq as (f & Hq & Hff). destruct (Hq (settle b2)) as (b3 & -> & _ & He3). cbn [fst snd].
      rewrite run_bind, run_state. do 4 eexists. split; [reflexivity|]. rewrite settle_entities, He3.
      destruct Hr as (Hl & Hw & Hi & Hall).
      destruct Hff as [->|[q ->]]; [by exists ex|]. exists (ExecutionStore.with_queue q ex).
      split; [|done]. split; [|done]. cbn. unfold ExecutionStore.queue_state. cbn in Hl. rewrite Hl. apply jlookup_insert_eq.
    + destruct (run_failed rid e (settle b2) srv2 (onStart rid hs) ids selected ex u Hu2 Hr) as (b' & ex' & -> & Hr' & Hst & Her).
      do 4 eexists. split; [reflexivity|]. by exists ex'.
Qed.

(** C7: a run that passes validation is recorded before the runner hears of it
    and its outcome is recorded too.  For a signed-in user, [execute] first
    flushes; if the workflow itself is still unsynchronised it returns [false] and
    records nothing.  Otherwise the stores hold the run with one pending
    scenario run per selected scenario, in order, and the run stays pending and
    its page is opened if the runner accepted it, or is marked failed with the
    runner's error and [false] is returned.  The hook is idle afterwards. *)
Theorem run_is_recorded scenarioIds selected validation secrets b srv hs u :
  selectScenariosForRun (hk_scenarios hook) (hk_workflowId hook) scenarioIds = Return selected ->
  validateSelection localeCompare hook selected = Return validation -> vr_valid validation = true ->
  normalizedSecrets hook = Return secrets -> getUserId (br_host b) = Return u ->
  let rid := drawn_id 0 b in
  let ids := map (fun k => drawn_id k b) (seq 1 (length selected)) in
  NoDup ids -> ExecutionStore.executions (en_executions (entities b)) !! rid = None ->
  exists b0 hs0 b1 srv1 result b' srv' hs',
    kept b b0 /\ run (flush_before_run server_sync 10) (b0, (srv, hs0)) = (Return tt, (b1, (srv1, hs0)))
    /\ run (execute localeCompare hook draws server_sync runner engine_text scenarioIds) (b, (srv, hs))
       = (Return result, (b', (srv', hs')))
    /\ hs_isExecuting hs' = false
    /\ if blocked b1 then result = false /\ entities b' = entities b /\ srv' = srv1
       else exists ex, recorded rid ids selected ex (entities b')
         /\ match submitted secrets rid selected ids srv1 with
            | Return queue => result = true /\ ExecutionStore.ex_status ex = WPending
                              /\ hs_pushed hs' = Some (run_page hook rid selected)
            | Throw e => result = false /\ ExecutionStore.ex_status ex = WFailed
                         /\ ExecutionStore.ex_error ex = Some (message_of engine_text e)
            end.
Proof.
  intros Hsel Hval Hv Hsec Hu rid ids Hn Hex.
  set (hs0 := set_isExecuting true (set_validationResult validation hs)).
  set (b0 := settle (set_world (set_host (redraw (draws 0) (host (br_world b))) (br_world b)) b)).
  assert (K0 : kept b b0) by (etrans; [|apply settle_kept]; by split).
  destruct (run_flush 10 b0 srv hs0) as (b1 & srv1 & Hf & K1).
  assert (K : kept b b1) by (by etrans). destruct K as (He & Hu1 & Hc).
  assert (Eids : map (fun k => drawn_id k b1) (seq 1 (length selected)) = ids)
    by (apply map_ext; intros k; by apply drawn_id_clock).
  destruct (attempt_outcome secrets rid selected b0 srv hs0 b1 srv1 u Hf) as (result & b' & srv' & hs' & E & H);
    [congruence|by rewrite Eids|by rewrite He|]. rewrite Eids, He in H.
  exists b0, hs0, b1, srv1, result, b', srv', (set_isExecuting false hs').
  split; [done|]. split; [done|]. split; [|split; [done|exact H]].
  unfold execute. rewrite Hsel, Hval, Hsec. cbn [mbind Proc_bind]. rewrite run_bind, run_state, Hv. cbn [negb].
  rewrite run_bind, run_state, run_bind, run_local. cbn [fst snd].
  change (drawn draws 0 (readBrowser (fun b => generateId (br_host b))) b)
    with (@Return string rid, set_world (set_host (redraw (draws 0) (host (br_world b))) (br_world b)) b).
  cbn [fst snd]. fold b0. fold hs0. unfold finally_idle.
  rewrite run_bind, run_catch, E, run_bind, run_state. done.
Qed.
End Execution.

(** ** Completion *)
Section Completion.
Import RunListener.

Definition completed (n : Notice) : option string := match n with AllTestsComplete run _ => Some run | _ => None end.

Lemma observe_no_completion tests seen : omap completed (observe tests seen).1 = [].
Proof.
  revert seen. induction tests as [|t rest IH]; intros seen; [done|]. simpl. case_match; [apply IH|].
  specialize (IH (<[TestResultStore.tr_id (TestResultStore.tr_input t) := status_of t]> seen)).
  destruct (observe rest _) as [ns seen']. simpl in *. by case_match.
Qed.

(** A view in which [run] is the active run, under way. *)
Definition seen_active (run : string) (v : option ExecutionStore.WorkflowExecution * list TestResultStore.TestResult) : Prop :=
  exists ex, v.1 = Some ex /\ ExecutionStore.ex_workflowRunId ex = run /\ under_way (ExecutionStore.ex_status ex) = true.

Definition is_complete (run : string) (v : option ExecutionStore.WorkflowExecution * list TestResultStore.TestResult) : Prop :=
  exists ex, v.1 = Some ex /\ ExecutionStore.ex_workflowRunId ex = run /\ allComplete v.2 = true.

Lemma effect_spec active tests s : let '(ns, s') := effect active tests s in
  (forall run, run ∈ observedActiveRuns s' -> run ∈ observedActiveRuns s \/ seen_active run (active, tests))
  /\ ((omap completed ns = [] /\ notifiedRuns s' = notifiedRuns s)
      \/ exists run, omap completed ns = [run] /\ run ∉ notifiedRuns s /\ notifiedRuns s' = notifiedRuns s ++ [run]
           /\ run ∈ observedActiveRuns s' /\ is_complete run (active, tests)).
Proof.
  unfold effect. destruct active as [ex|]; [|by split; [left|left]].
  pose proof (observe_no_completion tests (previousStatuses s)) as Ho.
  destruct (observe tests (previousStatuses s)) as [ns seen]. cbn in Ho.
  set (run := ExecutionStore.ex_workflowRunId ex).
  match goal with |- context [shouldNotifyTestRunCompletion _ _ (set_has _ ?o)] => set (observed := o) end.
  assert (Hob : forall r, r ∈ observed -> r ∈ observedActiveRuns s \/ seen_active r (Some ex, tests)).
  { intros r. unfold observed. destruct (str_truthy run && _) eqn:E; [|by left].
    rewrite elem_of_set_add. intros [->|H]; [|by left]. right. exists ex. apply andb_prop in E as [_ E]. done. }
  destruct (shouldNotifyTestRunCompletion _ _ _ _) eqn:E; (split; [exact Hob|]); [right|by left].
  unfold shouldNotifyTestRunCompletion in E. apply andb_prop in E as [E Hnot]. apply andb_prop in E as [E Hobs].
  apply andb_prop in E as [_ Hall]. apply negb_true_iff, set_has_false in Hnot. apply set_has_spec in Hobs.
  exists run. cbn. rewrite omap_app, Ho. split; [done|]. split; [done|].
  split; [by apply set_add_notin|]. split; [done|]. by exists ex.
Qed.

Lemma renders_spec views s : let '(ns, s') := renders views s in
  NoDup (omap completed ns) /\ (forall run, run ∈ omap completed ns -> run ∉ notifiedRuns s
    /\ (exists j v, views !! j = Some v /\ is_complete run v
        /\ (run ∈ observedActiveRuns s \/ exists i v', (i <= j)%nat /\ views !! i = Some v' /\ seen_active run v'))).
Proof.
  revert s. induction views as [|[active tests] rest IH]; intros s; [split; [constructor|by intros run ?%elem_of_nil]|].
  cbn [renders]. pose proof (effect_spec active tests s) as He. destruct (effect active tests s) as [n1 s1].
  destruct He as [Hobs He]. specialize (IH s1). destruct (renders rest s1) as [n2 s2]. destruct IH as [Hn Hall].
  assert (Hlater : forall run, run ∈ omap completed n2 -> run ∉ notifiedRuns s1 /\
    exists j v, ((active, tests) :: rest) !! j = Some v /\ is_complete run v
      /\ (run ∈ observedActiveRuns s \/ exists i v', (i <= j)%nat /\ ((active, tests) :: rest) !! i = Some v' /\ seen_active run v')).
  { intros run Hr. destruct (Hall run Hr) as [Hni (j & v & Hv & Hc & Ha)]. split; [done|]. exists (S j), v.
    split; [done|]. split; [done|]. destruct Ha as [Ha|(i & v' & Hi & Hv' & Ha)].
    - destruct (Hobs run Ha) as [|Hs]; [by left|right]. exists 0%nat, (active, tests). split; [lia|done].
    - right. exists (S i), v'. split; [lia|done]. }
  rewrite omap_app. destruct He as [[-> E1]|(run & -> & Hni & E1 & Ho & Hc)]; rewrite E1 in *.
  - split; [done|]. intros run Hr. by apply Hlater.
  - split.
    + apply NoDup_cons. split; [|done]. intros Hr. destruct (Hlater run Hr) as [H _]. apply H, elem_of_app. right. apply list_elem_of_here.
    + intros r [->|Hr]%elem_of_cons; [|destruct (Hlater r Hr) as [H ?]; split; [|done]; intros Hs; apply H, elem_of_app; by left].
      split; [done|]. exists 0%nat, (active, tests). split; [done|]. split; [done|].
      destruct (Hobs run Ho) as [|Hs]; [by left|right]. exists 0%nat, (active, tests). split; [lia|done].
Qed.

End Completion.

(** ** Witnesses *)
#[local] Existing Instance FastQueue.fast_queue_deque.

Definition demo_chosen (id : string) : Scenario :=
  MkScenario id "p1" "w1" ("Scenario " +:+ id) None demo_tests ["t1"; "t2"] (MkMeta 1 "t0" "t0" "user-1" "client-1" false).
Definition demo_hook : Hook :=
  MkHook "w1" "Demo" demo_nodes demo_edges [demo_chosen "s1"; demo_chosen "s2"] None.
Definition demo_draws (i : nat) : Crypto * string := (MkCrypto (Some ("uuid-" +:+ pretty (Z.of_nat i))) None, "").
Definition demo_reply_status (status : Z) : option (ApiReply (option ExecutionStore.QueueInfo)) :=
  Some (MkReply status None (Some "queue is full")).

Lemma selection_exact_witness :
  selectScenariosForRun (hk_scenarios demo_hook) "w1" (Some ["s2"; "s1"]) = Return [demo_chosen "s2"; demo_chosen "s1"].
Proof.
  apply selection_exact.
  - vm_compute. repeat constructor; rewrite ?elem_of_cons, ?elem_of_nil; naive_solver.
  - split; [discriminate|]. split; [repeat constructor; rewrite ?elem_of_cons, ?elem_of_nil; naive_solver|].
    split; [reflexivity|]. repeat constructor; vm_compute; auto.
Defined.

Definition demo_blank : Browser :=
  MkBrowser (WorkflowStore.demo_browser sample_host) WorkflowStore.demo_store (MkStore ScenarioStore.demo_state ∅ []) (demo_stores 1).
Definition demo_execute (status : Z) : res bool * (Browser * (unit * HookState)) :=
  run (execute (fun _ _ => 0) demo_hook demo_draws (fun s _ => (FetchRejected, s)) (fun s _ => (demo_reply_status status, s))
        (fun _ => "") (Some ["s2"; "s1"])) (demo_blank, (tt, initial)).

Lemma run_is_recorded_witness : exists result b' hs' ex,
  demo_execute 503 = (Return result, (b', (tt, hs')))
  /\ recorded demo_hook "uuid-0" ["uuid-1"; "uuid-2"] [demo_chosen "s2"; demo_chosen "s1"] ex (entities b')
  /\ result = false /\ ExecutionStore.ex_status ex = WFailed /\ ExecutionStore.ex_error ex = Some "queue is full".
Proof.
  destruct (run_is_recorded demo_draws (fun s _ => (FetchRejected, s)) (fun s _ => (demo_reply_status 503, s)) (fun _ => "")
    (fun _ _ => 0) demo_hook (Some ["s2"; "s1"]) [demo_chosen "s2"; demo_chosen "s1"] (MkValidation true [] []) ∅ demo_blank tt
    initial "user-1") as (b0 & hs0 & b1 & [] & result & b' & [] & hs' & _ & E1 & E & _ & H).
  - vm_compute. reflexivity.
  - vm_compute. reflexivity.
  - reflexivity.
  - vm_compute. reflexivity.
  - vm_compute. reflexivity.
  - vm_compute. repeat constructor; rewrite ?elem_of_cons, ?elem_of_nil; naive_solver.
  - vm_compute. reflexivity.
  - assert (Hn : ExecutionStore.executions (en_executions (entities (demo_execute 503).2.1)) !! "uuid-0" <> None)
      by (vm_compute; discriminate).
    change (demo_execute 503 = (Return result, (b', ((), hs')))) in E. rewrite E in Hn.
    match type of H with if ?c then _ else _ => destruct c end.
    + destruct H as (_ & He & _). cbn [fst snd] in Hn. rewrite He in Hn. contradiction Hn. vm_compute. reflexivity.
    + destruct H as (ex & Hr & H). exists result, b', hs', ex. split; [exact E|]. split; [exact Hr|]. exact H.
Defined.
