(* ===== verification/Canvas.v ===== *)
(** * The canvas: [ui-v2/src/modules/workflow/lib/architecture-view.ts],
      [workflow-presentation.ts] and [connection-suggestions.ts]

    Roles, names and sentences shown for the services of a workflow, the layout
    of the graph, the summaries of the workflow list, and the connections the
    guided builder suggests.  Coordinates are integers.  The layout engine ELK is
    third-party: it is an argument of the definitions that call it. *)

From S2P Require Import Prelude FlowTypes SyncTypes JsLib Json ClientId EdgeModel ServiceNames SyncService WorkflowStore ExecutionStore.
From Stdlib Require Import Ascii.
Open Scope Z_scope.

Module Canvas.
(** ** Roles and names *)
Inductive ArchitectureRole := Application | Data | Messaging.
#[export] Instance ArchitectureRole_eq_dec : EqDecision ArchitectureRole.
Proof. solve_decision. Defined.

Definition architectureRole (type : ServiceType) : ArchitectureRole :=
  match type with
  | Generic | Nginx | Mockserver => Application
  | Kafka | Rabbitmq => Messaging
  | _ => Data
  end.

(** [node.data.service.type] *)
Definition node_type (node : FlowNode) : res ServiceType :=
  match nd_service (node_data node) with Some svc => Return (svc_type svc) | None => Throw JsTypeError end.
Definition node_role (node : FlowNode) : res ArchitectureRole := architectureRole <$> node_type node.

(** [split(/[_-]+/)] *)
Definition is_separator (c : ascii) : bool := bool_decide (c = "_"%char) || bool_decide (c = "-"%char).

Fixpoint split_words (after_separator : bool) (s : string) : list string :=
  match s with
  | EmptyString => [EmptyString]
  | String c s' =>
      if is_separator c then
        if after_separator then split_words true s' else EmptyString :: split_words true s'
      else
        match split_words false s' with
        | w :: ws => String c w :: ws
        | [] => [String c EmptyString]
        end
  end.

(** [word.charAt(0).toUpperCase()]; the capitals of the micro sign and of y with
    diaeresis are not code units below 256, and these two are left as they are. *)
Definition upper_char (c : ascii) : string :=
  let n := code c in
  if ((97 <=? n)%N && (n <=? 122)%N) || ((224 <=? n)%N && (n <=? 254)%N && negb (n =? 247)%N)
  then String (ascii_of_N (n - 32)) EmptyString
  else if (n =? 223)%N then "SS" else String c EmptyString.

Definition capitalized (word : string) : string :=
  match word with EmptyString => EmptyString | String c w => upper_char c +:+ w end.

Definition preferred_names : list (string * string) :=
  [("api", "API"); ("mysql", "MySQL"); ("mariadb", "MariaDB"); ("mongodb", "MongoDB"); ("rabbitmq", "RabbitMQ");
   ("kafka", "Kafka"); ("redis", "Redis"); ("postgres", "Postgres"); ("memcached", "Memcached"); ("nginx", "Nginx");
   ("mockserver", "MockServer")].

(** [preferred[key]] on an object literal also finds what it inherits:
    [constructor] is a function, and its text ends up in the name. *)
Definition preferred (key : string) : option string :=
  match assoc_get key preferred_names with
  | Some v => Some v
  | None => if bool_decide (key = "constructor") then Some "function Object() { [native code] }" else None
  end.

Definition friendlyName (value : string) : string :=
  join " " (map (fun word => default (capitalized word) (preferred (toLowerCase word))) (split_words false value)).

Definition inferredProtocol (type : ServiceType) : option string :=
  match type with
  | Postgres => Some "PostgreSQL" | Mysql => Some "MySQL" | Mariadb => Some "MariaDB" | Redis => Some "Redis"
  | Memcached => Some "Memcached" | Mongodb => Some "MongoDB" | Rabbitmq => Some "AMQP" | Kafka => Some "Kafka protocol"
  | Nginx => Some "HTTP/HTTPS" | Mockserver => Some "HTTP" | Generic => None
  end.

(** ** What a node's connections mean *)
Record ArchitectureStatement := MkStatement {
  as_edgeId : string;
  as_sentence : option string;
  as_protocol : option string;
  as_readiness : option string
}.

(** [sentences[relation]]: an unknown relation has no sentence. *)
Definition relationshipSentence (relation : string) (isSource : bool) (other : string) : option string :=
  let pick (a b : string) := Some ((if isSource then a else b) +:+ other) in
  if decide (relation = "calls") then pick "Calls " "Receives calls from "
  else if decide (relation = "reads") then pick "Provides data to " "Reads from "
  else if decide (relation = "writes") then pick "Writes data to " "Receives data from "
  else if decide (relation = "publishes") then pick "Publishes messages to " "Receives published messages from "
  else if decide (relation = "consumes") then pick "Delivers messages to " "Consumes messages from "
  else None.

Definition readinessSentence (edge : FlowEdge) (selected source target : FlowNode) : res (option string) :=
  let readiness := data_prop ed_readiness edge in
  if bool_decide (readiness = Some "none") then Return None
  else if (bool_decide (readiness = Some "source_requires_target") && bool_decide (node_id selected = node_id source))
       || (bool_decide (readiness = Some "target_requires_source") && bool_decide (node_id selected = node_id target)) then
    match nd_label (node_data (if bool_decide (node_id selected = node_id source) then target else source)) with
    | Some label => Return (Some ("Starts after " +:+ friendlyName label))
    | None => Throw JsTypeError
    end
  else Return None.

Definition node_index (nodes : list FlowNode) : jmap string FlowNode :=
  jmap_of_pairs (map (fun node => (node_id node, node)) nodes).

Definition touches (nodeId : string) (edge : FlowEdge) : bool :=
  bool_decide (edge_source edge = nodeId) || bool_decide (edge_target edge = nodeId).

Definition describe_edge (selected : FlowNode) (nodeMap : jmap string FlowNode) (edge : FlowEdge)
    : res (option ArchitectureStatement) :=
  match nodeMap !! edge_source edge, nodeMap !! edge_target edge with
  | Some source, Some target =>
      let isSource := bool_decide (edge_source edge = node_id selected) in
      let otherNode := if isSource then target else source in
      let other := friendlyName (ostr_or (nd_label (node_data otherNode)) (node_id otherNode)) in
      let text := relationshipSentence (ostr_or (data_prop ed_relation edge) "calls") isSource other in
      readiness ← readinessSentence edge selected source target;
      protocol ← (if ostr_truthy (data_prop ed_protocol edge) then Return (data_prop ed_protocol edge)
                  else inferredProtocol <$> node_type otherNode);
      Return (Some (MkStatement (edge_id edge) text protocol readiness))
  | _, _ => Return None
  end.

Definition describeArchitectureNode (selected : FlowNode) (nodes : list FlowNode) (edges : list FlowEdge)
    : res (list ArchitectureStatement) :=
  statements ← res_map (describe_edge selected (node_index nodes))
                 (filter (fun edge => touches (node_id selected) edge = true) edges);
  Return (concat (map option_list statements)).

(** ** Layout *)
Definition NODE_WIDTH : Z := 184.
Definition NODE_HEIGHT : Z := 92.

Definition at_position (p : Z * Z) (node : FlowNode) : FlowNode :=
  MkNode (node_id node) p (node_view node) (node_data node).

(** [{ ...edge.data, layoutPoints }] *)
Definition with_route (points : option (list (Z * Z))) (edge : FlowEdge) : FlowEdge :=
  let prop {A} (f : EdgeData -> option A) := data_prop f edge in
  MkEdge (edge_id edge) (edge_source edge) (edge_target edge) (edge_type edge)
    (Some (MkEdgeData (prop ed_label) (prop ed_description) (prop ed_protocol) (prop ed_relation) (prop ed_readiness)
             (prop ed_needsReview) (prop ed_showLabel) points)).

Definition column (role : ArchitectureRole) : Z :=
  match role with Application => 0 | Data => 480 | Messaging => 960 end.

(** [counts[role]++] *)
Definition bump (role : ArchitectureRole) (counts : ArchitectureRole -> Z) : ArchitectureRole -> Z :=
  fun r => if decide (r = role) then counts r + 1 else counts r.

Fixpoint place (counts : ArchitectureRole -> Z) (nodes : list FlowNode) : res (list FlowNode) :=
  match nodes with
  | [] => Return []
  | node :: rest =>
      role ← node_role node;
      placed ← place (bump role counts) rest;
      Return (at_position (column role, counts role * 160) node :: placed)
  end.

Definition role_route (positions : jmap string (Z * Z)) (edge : FlowEdge) : FlowEdge :=
  match positions !! edge_source edge, positions !! edge_target edge with
  | Some source, Some target =>
      let start := (source.1 + NODE_WIDTH, source.2 + NODE_HEIGHT / 2) in
      let finish := (target.1, target.2 + NODE_HEIGHT / 2) in
      let middleX := (start.1 + finish.1) / 2 in
      with_route (Some [start; (middleX, start.2); (middleX, finish.2); finish]) edge
  | _, _ => edge
  end.

Definition layoutByRole (nodes : list FlowNode) (edges : list FlowEdge) : res (list FlowNode * list FlowEdge) :=
  layoutNodes ← place (fun _ => 0) nodes;
  let positions := jmap_of_pairs (map (fun node => (node_id node, node_position node)) layoutNodes) in
  Return (layoutNodes, map (role_route positions) edges).

(** What the layout engine is asked, and what it answers. *)
Record ElkGraph := MkElkGraph {
  eg_children : list (string * Z);
  eg_edges : list (string * string * string)
}.
Record ElkSection := MkSection { es_start : Z * Z; es_bends : option (list (Z * Z)); es_end : Z * Z }.
Record ElkLayout := MkElkLayout {
  el_children : option (list (string * (option Z * option Z)));
  el_edges : option (list (string * option (list ElkSection)))
}.

Definition partition (role : ArchitectureRole) : Z := match role with Application => 0 | Data => 1 | Messaging => 2 end.

Section Elk.
(** [elk.layout(graph)]: [None] when its promise is rejected. *)
Context (elk_layout : ElkGraph -> option ElkLayout).

Definition or_zero (o : option Z) : Z := default 0 o.

Definition layoutWithElk (nodes : list FlowNode) (edges : list FlowEdge) : res (list FlowNode * list FlowEdge) :=
  children ← res_map (fun node => role ← node_role node; Return (node_id node, partition role)) nodes;
  match elk_layout (MkElkGraph children (map (fun e => (edge_id e, edge_source e, edge_target e)) edges)) with
  | None => Throw JsTypeError
  | Some graph =>
      let layoutNodes := jmap_of_pairs (default [] (el_children graph)) in
      let layoutEdges := jmap_of_pairs (default [] (el_edges graph)) in
      Return (map (fun node => match layoutNodes !! node_id node with
                               | Some (x, y) => at_position (or_zero x, or_zero y) node
                               | None => node
                               end) nodes,
              map (fun edge =>
                let points := match layoutEdges !! edge_id edge with
                              | Some (Some (section :: _)) =>
                                  Some (es_start section :: default [] (es_bends section) ++ [es_end section])
                              | _ => None
                              end in with_route points edge) edges)
  end.

Definition layoutArchitecture (nodes : list FlowNode) (edges : list FlowEdge) : res (list FlowNode * list FlowEdge) :=
  match layoutWithElk nodes edges with
  | Return layout => Return layout
  | Throw _ => layoutByRole nodes edges
  end.
End Elk.

(** ** The boxes of the roles *)
Record RoleBounds := MkBounds { rb_role : ArchitectureRole; rb_left : Z; rb_top : Z; rb_width : Z; rb_height : Z }.

(** [node.measured?.width || d] *)
Definition measured (side : string) (d : Z) (node : FlowNode) : Z :=
  match node_view node !! "measured" ≫= json_field side with
  | Some (JNum n) => num_or n d
  | _ => d
  end.

(** [Math.min(...l)] and [Math.max(...l)] of a non-empty list. *)
Definition list_min (x : Z) (l : list Z) : Z := fold_left Z.min l x.
Definition list_max (x : Z) (l : list Z) : Z := fold_left Z.max l x.

Definition role_bounds (role : ArchitectureRole) (roleNodes : list FlowNode) : option RoleBounds :=
  match roleNodes with
  | [] => None
  | first :: rest =>
      let lowest (f : FlowNode -> Z) := list_min (f first) (map f rest) in
      let highest (f : FlowNode -> Z) := list_max (f first) (map f rest) in
      let left := lowest (fun n => (node_position n).1) - 48 in
      let top := lowest (fun n => (node_position n).2) - 68 in
      let right := highest (fun n => (node_position n).1 + measured "width" NODE_WIDTH n) + 48 in
      let bottom := highest (fun n => (node_position n).2 + measured "height" NODE_HEIGHT n) + 48 in
      Some (MkBounds role left top (right - left) (bottom - top))
  end.

Fixpoint nodes_of_role (role : ArchitectureRole) (nodes : list FlowNode) : res (list FlowNode) :=
  match nodes with
  | [] => Return []
  | node :: rest =>
      r ← node_role node;
      others ← nodes_of_role role rest;
      Return (if decide (r = role) then node :: others else others)
  end.

Definition architectureBounds (nodes : list FlowNode) : res (list RoleBounds) :=
  bounds ← res_map (fun role => role_bounds role <$> nodes_of_role role nodes) [Application; Data; Messaging];
  Return (concat (map option_list bounds)).

(** ** The workflow list *)
Inductive WorkflowListState := ListLoading | ListNoProject | ListEmptyEditable | ListEmptyReadonly | ListPopulated.

Definition resolveWorkflowListState (isReady hasProject canEdit : bool) (workflowCount : Z) : WorkflowListState :=
  if negb isReady then ListLoading
  else if negb hasProject then ListNoProject
  else if 0 <? workflowCount then ListPopulated
  else if canEdit then ListEmptyEditable else ListEmptyReadonly.

Record WorkflowListSummary := MkListSummary { ls_workflows : Z; ls_services : Z; ls_scenarios : Z; ls_executions : Z }.

Definition count {A} (p : A -> bool) (l : list A) : Z := Z.of_nat (length (filter (fun x => p x = true) l)).

Definition live_scenario (p : string -> bool) (sc : Scenario) : bool := negb (is_deleted (scn_meta sc)) && p (scn_workflowId sc).
Definition live_execution (p : string -> bool) (ex : ExecutionStore.WorkflowExecution) : bool :=
  negb (is_deleted (ExecutionStore.ex_meta ex)) && p (ExecutionStore.ex_workflowId ex).

Definition service_count (wf : WorkflowStore.Workflow) : Z := Z.of_nat (length (WorkflowStore.wf_nodes wf)).

Definition summarizeWorkflowList (workflows : list WorkflowStore.Workflow) (scenarios : list Scenario)
    (executions : list ExecutionStore.WorkflowExecution) : WorkflowListSummary :=
  let workflowIds := set_of_list (map WorkflowStore.wf_id workflows) in
  MkListSummary (Z.of_nat (length workflows)) (fold_left (fun total wf => total + service_count wf) workflows 0)
    (count (live_scenario (fun id => set_has id workflowIds)) scenarios)
    (count (live_execution (fun id => set_has id workflowIds)) executions).

Record WorkflowCardSummary := MkCardSummary {
  cs_services : Z; cs_scenarios : Z; cs_executions : Z; cs_latestExecution : option ExecutionStore.WorkflowExecution
}.

Definition summarizeWorkflowCard (workflow : WorkflowStore.Workflow) (scenarios : list Scenario)
    (executions : list ExecutionStore.WorkflowExecution) : WorkflowCardSummary :=
  let own (id : string) := bool_decide (id = WorkflowStore.wf_id workflow) in
  let workflowExecutions :=
    js_sort (fun left right => ExecutionStore.ex_startedAt right - ExecutionStore.ex_startedAt left)
      (filter (fun ex => live_execution own ex = true) executions) in
  MkCardSummary (service_count workflow) (count (live_scenario own) scenarios) (Z.of_nat (length workflowExecutions))
    (head workflowExecutions).

(** ** Removing a service *)
Record ServiceRemovalImpact := MkImpact { im_connectedEdges : Z; im_referencedTests : Z; im_referencedScenarios : Z }.

(** [replace(/[^a-z0-9_-]+/g, "_")]: a run of other characters becomes one underscore. *)
Fixpoint squeeze_chars (in_run : bool) (s : string) : string :=
  match s with
  | EmptyString => EmptyString
  | String c s' =>
      if name_char c then String c (squeeze_chars false s')
      else if in_run then squeeze_chars true s' else String under (squeeze_chars true s')
  end.

(** [replace(/^_+|_+$/g, "")] *)
Fixpoint drop_unders (s : string) : string :=
  match s with String c s' => if decide (c = under) then drop_unders s' else s | EmptyString => s end.
Fixpoint drop_end_unders (s : string) : string :=
  match s with
  | EmptyString => EmptyString
  | String c s' =>
      match drop_end_unders s' with
      | EmptyString => if decide (c = under) then EmptyString else String c EmptyString
      | t => String c t
      end
  end.

Definition sanitizeServiceName (value : string) : string :=
  drop_end_unders (drop_unders (squeeze_chars false (toLowerCase (js_trim value)))).

(** The names a test may use for the node.  A missing label has no [trim]. *)
Definition service_candidates (node : FlowNode) : res (list string) :=
  match nd_label (node_data node) with
  | None => Throw JsTypeError
  | Some label =>
      Return (set_of_list (map (fun v => toLowerCase (js_trim v))
        (filter (fun v => str_truthy v = true)
           [node_id node; label; sanitizeServiceName (node_id node); sanitizeServiceName label])))
  end.

(** [...test.targetServices] of a missing list throws. *)
Definition test_references (test : ScenarioTestDefinition) : res (list string) :=
  match test_targetServices test with
  | None => Throw JsTypeError
  | Some targets =>
      Return (filter (fun v => str_truthy v = true)
        (targets ++ option_list (doc_service <$> test_documentConfig test)
                 ++ option_list (ca_service <$> test_cacheConfig test)
                 ++ option_list (qu_service <$> test_queueConfig test)))
  end.

Definition testReferencesService (node : FlowNode) (test : ScenarioTestDefinition) : res bool :=
  candidates ← service_candidates node;
  references ← test_references test;
  Return (existsb (fun reference =>
    set_has (toLowerCase (js_trim reference)) candidates
    || set_has (toLowerCase (sanitizeServiceName reference)) candidates) references).

(** The nested loops over the live scenarios and their tests. *)
Fixpoint count_tests (node : FlowNode) (tests : list ScenarioTestDefinition) : res Z :=
  match tests with
  | [] => Return 0
  | test :: rest =>
      hit ← testReferencesService node test;
      n ← count_tests node rest;
      Return (if hit : bool then n + 1 else n)
  end.

Fixpoint count_references (node : FlowNode) (scenarios : list Scenario) (tests : Z) (ids : list string) : res (Z * list string) :=
  match scenarios with
  | [] => Return (tests, ids)
  | sc :: rest =>
      if is_deleted (scn_meta sc) then count_references node rest tests ids
      else
        n ← count_tests node (scn_tests sc);
        count_references node rest (tests + n) (if 0 <? n then set_add (scn_id sc) ids else ids)
  end.

Definition getServiceRemovalImpact (node : FlowNode) (edges : list FlowEdge) (scenarios : list Scenario)
    : res ServiceRemovalImpact :=
  counted ← count_references node scenarios 0 [];
  Return (MkImpact (count (touches (node_id node)) edges) counted.1 (Z.of_nat (length counted.2))).

Definition removeServiceFromGraph (nodes : list FlowNode) (edges : list FlowEdge) (nodeId : string)
    : list FlowNode * list FlowEdge :=
  (filter (fun node => node_id node <> nodeId) nodes,
   filter (fun edge => edge_source edge <> nodeId /\ edge_target edge <> nodeId) edges).

(** ** Suggested connections *)
Record ConnectionSuggestion := MkSuggestion {
  su_id : string;
  su_source : string;
  su_target : string;
  su_data : EdgeData;
  su_reason : string
}.

(** The part of the reference pattern after the service token's dot. *)
Definition reference_field (field : string) : bool :=
  bool_decide (field = "host")
  || (starts_with "port." field && (5 <? String.length field)%nat)
  || (starts_with "env." field && (4 <? String.length field)%nat).

(** A match at the text after a dollar brace: the token and the length of the match. *)
Definition suggestion_at (s : string) : option (string * nat) :=
  match span not_brace_dot s with
  | (String t0 t, String c s') =>
      if decide (c = "."%char) then
        match span not_brace s' with
        | (field, String _ _) =>
            if reference_field field
            then Some (String t0 t, (S (String.length t) + 1 + String.length field + 1)%nat)
            else None
        | _ => None
        end
      else None
  | _ => None
  end.

Fixpoint matched_tokens (skip : nat) (s : string) : list string :=
  match s with
  | EmptyString => []
  | String c s' =>
      match skip with
      | S k => matched_tokens k s'
      | 0%nat =>
          match s' with
          | String c2 body =>
              if decide (c = dollar /\ c2 = lbrace) then
                match suggestion_at body with
                | Some (token, len) => token :: matched_tokens (S len) s'
                | None => matched_tokens 0 s'
                end
              else matched_tokens 0 s'
          | EmptyString => matched_tokens 0 s'
          end
      end
  end.

Definition referencedServiceNames (node : FlowNode) : res (list string) :=
  match nd_service (node_data node) with
  | None => Throw JsTypeError
  | Some svc =>
      Return (set_of_list (concat (map (matched_tokens 0)
        (map env_value (default [] (svc_env svc)) ++ default [] (svc_command svc)))))
  end.

(** Template literals print a missing property as [undefined]. *)
Definition suggestionKey (source target : string) (relation : option string) : string :=
  source +:+ ":" +:+ default "undefined" relation +:+ ":" +:+ target.

Definition edge_key (edge : FlowEdge) : string :=
  suggestionKey (edge_source edge) (edge_target edge) (Some (default "calls" (data_prop ed_relation edge))).

Definition Suggestions : Type := jmap string ConnectionSuggestion.

Definition addSuggestion (existing : list string) (reason : string) (source target : FlowNode) (suggestions : Suggestions)
    : res Suggestions :=
  if bool_decide (node_id source = node_id target) then Return suggestions
  else
    data ← inferEdgeData source target;
    let key := suggestionKey (node_id source) (node_id target) (ed_relation data) in
    if set_has key existing || bool_decide (is_Some (suggestions !! key)) then Return suggestions
    else Return (<[key := MkSuggestion key (node_id source) (node_id target) data reason]> suggestions).

Fixpoint suggest_references (add : FlowNode -> Suggestions -> res Suggestions) (nodeByName : jmap string FlowNode)
    (names : list string) (suggestions : Suggestions) : res Suggestions :=
  match names with
  | [] => Return suggestions
  | name :: rest =>
      suggestions ← match nodeByName !! name with
                    | Some target => add target suggestions
                    | None => Return suggestions
                    end;
      suggest_references add nodeByName rest suggestions
  end.

Fixpoint suggest_runtime (existing : list string) (nodeByName : jmap string FlowNode) (sources : list FlowNode)
    (suggestions : Suggestions) : res Suggestions :=
  match sources with
  | [] => Return suggestions
  | source :: rest =>
      names ← referencedServiceNames source;
      suggestions ← suggest_references (addSuggestion existing "Referenced by this service's runtime configuration" source)
                      nodeByName names suggestions;
      suggest_runtime existing nodeByName rest suggestions
  end.

Definition is_generic (node : FlowNode) : res bool := (fun t => bool_decide (t = Generic)) <$> node_type node.

Fixpoint generic_nodes (nodes : list FlowNode) : res (list FlowNode) :=
  match nodes with
  | [] => Return []
  | node :: rest =>
      g ← is_generic node;
      others ← generic_nodes rest;
      Return (if g : bool then node :: others else others)
  end.

Fixpoint suggest_inventory (existing : list string) (application : FlowNode) (nodes : list FlowNode)
    (suggestions : Suggestions) : res Suggestions :=
  match nodes with
  | [] => Return suggestions
  | dependency :: rest =>
      g ← is_generic dependency;
      suggestions ← (if g : bool then Return suggestions
                     else addSuggestion existing "Likely application dependency based on the service inventory" application
                            dependency suggestions);
      suggest_inventory existing application rest suggestions
  end.

Definition suggestConnections (nodes : list FlowNode) (edges : list FlowEdge) : res (list ConnectionSuggestion) :=
  let nodeByName := jmap_of_pairs (map (fun node => (sanitizeName (ostr_or (nd_label (node_data node)) (node_id node)), node)) nodes) in
  let existing := set_of_list (map edge_key edges) in
  suggestions ← suggest_runtime existing nodeByName nodes ∅;
  applications ← generic_nodes nodes;
  suggestions ← match applications with
                | [application] => suggest_inventory existing application nodes suggestions
                | _ => Return suggestions
                end;
  Return (jvalues suggestions).
End Canvas.
