(* ===== verification/Journey.v ===== *)
(** * What the guided builder says: [ui-v2/src/modules/workflow/lib/scenario-journey.ts],
      [lib/builder-experience.ts] and [hooks/useBuilderExperience.ts] *)

From S2P Require Import Prelude FlowTypes SyncTypes ClientId JsLib EdgeModel ScenarioTranslator Canvas.
Open Scope Z_scope.

Module Journey.
Definition TEST_INTENT_LABELS (t : TestType) : string :=
  match t with
  | THttp => "Call an API" | TDatabase => "Check stored data" | TQueue => "Check a message" | TCache => "Check cached data"
  | TDocument => "Check a document" | TDelay => "Wait for something" | TShell => "Run an advanced command"
  end.

Definition orderedScenarioTests (tests : list ScenarioTestDefinition) (testOrder : list string) : list ScenarioTestDefinition :=
  let byId := jmap_of_pairs (map (fun t => (test_id t, t)) tests) in
  let ordered := omap (fun id => byId !! id) testOrder in
  let seen := set_of_list (map test_id ordered) in
  ordered ++ filter (fun t => set_has (test_id t) seen = false) tests.

Definition scenarioServiceNames (tests : list ScenarioTestDefinition) : list string :=
  set_of_list (concat (map (fun t => default [] (test_targetServices t)) tests)).

Definition plural (n : Z) : string := if n =? 1 then "" else "s".

Definition formatDuration (durationMs : Z) : string :=
  if (1000 <=? durationMs) && (durationMs mod 1000 =? 0)
  then pretty (durationMs / 1000) +:+ " second" +:+ plural (durationMs / 1000)
  else pretty durationMs +:+ " ms".

(** [test.targetServices[0]] of a missing list throws. *)
Definition step_target (test : ScenarioTestDefinition) : res string :=
  match test_targetServices test with
  | None => Throw JsTypeError
  | Some targets =>
      Return (match targets with
              | t :: _ => if str_truthy t then Canvas.friendlyName t else "a service"
              | [] => "a service"
              end)
  end.

(** [prefix “value”] when there is a value. *)
Definition mention (prefix : string) (value : option string) : string :=
  match value with Some v => if str_truthy v then prefix +:+ "“" +:+ v +:+ "”" else "" | None => "" end.

Definition describeScenarioStep (test : ScenarioTestDefinition) : res string :=
  target ← step_target test;
  Return (match test_type test with
  | THttp =>
      let http := test_httpConfig test in
      ostr_or (http_method <$> http) "GET" +:+ " " +:+ ostr_or (http_path <$> http) "/" +:+ " on " +:+ target
      +:+ match http ≫= http_expectedStatus with
          | Some n => if n =? 0 then "" else " and expect " +:+ pretty n
          | None => ""
          end
  | TDatabase => "Verify data stored in " +:+ target
  | TDocument => "Verify " +:+ ostr_or (doc_collection <$> test_documentConfig test) "a document collection" +:+ " in " +:+ target
  | TCache =>
      Canvas.friendlyName (ostr_or (ca_operation <$> test_cacheConfig test) "check")
      +:+ mention " " (test_cacheConfig test ≫= ca_key) +:+ " in " +:+ target
  | TQueue =>
      Canvas.friendlyName (ostr_or (qu_operation <$> test_queueConfig test) "check")
      +:+ mention " on " (test_queueConfig test ≫= qu_topic) +:+ " through " +:+ target
  | TDelay => "Wait " +:+ formatDuration (default 0 (test_delayConfig test)) +:+ " before continuing"
  | TShell => "Run an advanced verification command"
  end).

Definition joinPhrases (phrases : list string) : string :=
  match phrases with
  | [p] => p
  | [p; q] => p +:+ " and " +:+ q
  | _ => join ", " (removelast phrases) +:+ ", and " +:+ default "undefined" (last phrases)
  end.

Definition scenarioSummary (tests : list ScenarioTestDefinition) : string :=
  let services := Z.of_nat (length (scenarioServiceNames tests)) in
  let has (t : TestType) := existsb (fun x => bool_decide (test_type x = t)) tests in
  let phrases :=
    (if has THttp then ["calls application APIs"] else [])
    ++ (if has TDatabase || has TDocument then ["verifies stored data"] else [])
    ++ (if has TQueue then ["checks asynchronous messages"] else [])
    ++ (if has TCache then ["confirms cached state"] else []) in
  let phrases := match phrases with [] => ["validates the expected workflow behavior"] | _ => phrases end in
  "This journey " +:+ joinPhrases phrases +:+ " across " +:+ pretty services +:+ " service" +:+ plural services +:+ ".".
End Journey.

Module Experience.
Inductive AuthoringMode := Guided | Expert.
#[export] Instance AuthoringMode_eq_dec : EqDecision AuthoringMode.
Proof. solve_decision. Defined.
Definition mode_name (m : AuthoringMode) : string := match m with Guided => "guided" | Expert => "expert" end.

Inductive GuidedStage := Services | Connections | Scenarios | Review.
Inductive ChecklistStatus := Complete | Optional_ | NeedsReview | Pending | Ready.

Record GuidedChecklistItem := MkItem {
  ci_stage : GuidedStage;
  ci_title : string;
  ci_description : string;
  ci_status : ChecklistStatus
}.

Record BuilderExperience := MkExperience { be_mode : AuthoringMode; be_checklistDismissed : bool }.

(** ** Preferences in the browser's storage

    A storage whose [getItem] and [setItem] may throw. *)
Record PreferenceStorage := MkStorage { ps_throws : bool; ps_items : jmap string string }.

Definition builderModeStorageKey (userId : string) : string := "tokyo-tester:builder-mode" +:+ ":" +:+ userId.
Definition checklistStorageKey (userId : string) : string := "tokyo-tester:guided-checklist-dismissed" +:+ ":" +:+ userId.

Definition readBuilderExperience (storage : option PreferenceStorage) (userId : option string) : BuilderExperience :=
  match storage, userId with
  | Some st, Some user =>
      if negb (str_truthy user) || ps_throws st then MkExperience Guided false
      else
        MkExperience (if bool_decide (ps_items st !! builderModeStorageKey user = Some "expert") then Expert else Guided)
          (bool_decide (ps_items st !! checklistStorageKey user = Some "true"))
  | _, _ => MkExperience Guided false
  end.

(** [storage.setItem(key(userId), value)] of the two writers; the result is whether it was kept. *)
Definition persist (key : string -> string) (value : string) (storage : option PreferenceStorage) (userId : option string)
    : bool * option PreferenceStorage :=
  match storage, userId with
  | Some st, Some user =>
      if negb (str_truthy user) || ps_throws st then (false, storage)
      else (true, Some (MkStorage (ps_throws st) (<[key user := value]> (ps_items st))))
  | _, _ => (false, storage)
  end.

Definition persistBuilderMode (storage : option PreferenceStorage) (userId : option string) (mode : AuthoringMode) :=
  persist builderModeStorageKey (mode_name mode) storage userId.
Definition persistChecklistDismissal (storage : option PreferenceStorage) (userId : option string) (dismissed : bool) :=
  persist checklistStorageKey (if dismissed then "true" else "false") storage userId.

(** ** The hook *)
Record ExperienceState := MkState { xs_mode : AuthoringMode; xs_checklistDismissed : bool; xs_isReady : bool }.

Definition initial : ExperienceState := MkState Guided false false.

(** The effect that runs when the user changes. *)
Definition load (storage : option PreferenceStorage) (userId : option string) (s : ExperienceState) : ExperienceState :=
  let experience := readBuilderExperience storage userId in
  MkState (be_mode experience) (be_checklistDismissed experience) true.

Definition setMode (userId : option string) (next : AuthoringMode) (c : ExperienceState * option PreferenceStorage)
    : ExperienceState * option PreferenceStorage :=
  let '(s, storage) := c in
  (MkState next (xs_checklistDismissed s) (xs_isReady s), (persistBuilderMode storage userId next).2).

Definition setChecklistDismissed (userId : option string) (dismissed : bool) (c : ExperienceState * option PreferenceStorage)
    : ExperienceState * option PreferenceStorage :=
  let '(s, storage) := c in
  (MkState (xs_mode s) dismissed (xs_isReady s), (persistChecklistDismissal storage userId dismissed).2).

Definition dismissChecklist (userId : option string) := setChecklistDismissed userId true.
Definition restoreChecklist (userId : option string) := setChecklistDismissed userId false.

(** ** The checklist *)
Definition connection_state (serviceCount : Z) (edges : list FlowEdge) : string * ChecklistStatus :=
  let reviewed := (0 <? length edges)%nat && negb (existsb (fun e => default false (data_prop ed_needsReview e)) edges) in
  if serviceCount <? 2 then ("Not needed until two or more services interact.", Optional_)
  else if reviewed then ("Service relationships are confirmed.", Complete)
  else (if (length edges =? 0)%nat then "Review whether these services need to communicate."
        else "Confirm the suggested relationship and startup order.", NeedsReview).

Definition deriveGuidedChecklist (serviceCount : Z) (edges : list FlowEdge) (scenarios : list Scenario)
    (validationErrorCount : Z) : list GuidedChecklistItem :=
  let hasServices := 0 <? serviceCount in
  let hasScenarioTests :=
    existsb (fun sc => negb (is_deleted (scn_meta sc)) && (0 <? length (scn_tests sc))%nat) scenarios in
  let reviewReady := hasServices && hasScenarioTests && (validationErrorCount =? 0) in
  let '(connections, connectionStatus) := connection_state serviceCount edges in
  [MkItem Services "Add the environment"
     (if hasServices then pretty serviceCount +:+ " service" +:+ Journey.plural serviceCount +:+ " configured."
      else "Add the application and infrastructure this run needs.")
     (if hasServices then Complete else Pending);
   MkItem Connections "Review connections" connections connectionStatus;
   MkItem Scenarios "Describe what to prove"
     (if hasScenarioTests then "At least one ordered test step is ready."
      else "Create a scenario and add an assertion or recipe.")
     (if hasScenarioTests then Complete else Pending);
   MkItem Review "Validate and run"
     (if reviewReady then "Required configuration is ready for review."
      else if 0 <? validationErrorCount
           then pretty validationErrorCount +:+ " validation issue" +:+ Journey.plural validationErrorCount +:+ " need attention."
           else "Add a service and scenario before running.")
     (if reviewReady then Ready else Pending)].
End Experience.
