(* ===== verification/GraphEditor.v ===== *)
(** * The graph editor: [ui-v2/src/modules/workflow/hooks/useWorkflowGraph.tsx],
      [hooks/useTestOrderManager.tsx], and the state of
      [components/GuidedConnections.tsx] and [components/FlowBuilder/index.tsx]

    The hook keeps the graph it shows in React state, a copy in refs that its
    callbacks read, and saves to the workflow store.  A ref follows the state
    only when the component renders: [render] is that moment.  React Flow's
    [addEdge], [applyNodeChanges] and [applyEdgeChanges] are third-party and are
    arguments. *)

From S2P Require Import Prelude FlowTypes SyncTypes ClientId FastQueue JsLib EdgeModel SyncService SyncMiddleware RunEvents.
From S2P Require Import ScenarioTranslator WorkflowStore ScenarioStore ExecutionStore Browser Canvas Journey.
Open Scope Z_scope.

Module GraphEditor.
Record Editor := MkEditor {
  ge_workflow : option WorkflowStore.Workflow;
  ge_nodes : list FlowNode;
  ge_edges : list FlowEdge;
  ge_nodesRef : list FlowNode;
  ge_edgesRef : list FlowEdge;
  ge_editingEdgeId : option string
}.

(** The first render, before any effect: [edgesRef] starts with the workflow's edges. *)
Definition mounted (workflow : option WorkflowStore.Workflow) : Editor :=
  MkEditor workflow [] [] [] (match workflow with Some wf => WorkflowStore.wf_edges wf | None => [] end) None.

Definition setNodes (nodes : list FlowNode) (ed : Editor) : Editor :=
  MkEditor (ge_workflow ed) nodes (ge_edges ed) (ge_nodesRef ed) (ge_edgesRef ed) (ge_editingEdgeId ed).
Definition setEdges (edges : list FlowEdge) (ed : Editor) : Editor :=
  MkEditor (ge_workflow ed) (ge_nodes ed) edges (ge_nodesRef ed) (ge_edgesRef ed) (ge_editingEdgeId ed).
Definition setEditingEdgeId (id : option string) (ed : Editor) : Editor :=
  MkEditor (ge_workflow ed) (ge_nodes ed) (ge_edges ed) (ge_nodesRef ed) (ge_edgesRef ed) id.

(** The effects after a render: the refs take the state, and a workflow that is not
    the one rendered before ([changed]) replaces both. *)
Definition render (workflow : option WorkflowStore.Workflow) (changed : bool) (ed : Editor) : Editor :=
  match workflow with
  | Some wf =>
      if changed then
        let edges := normalizeEdges (WorkflowStore.wf_edges wf) false in
        MkEditor workflow (WorkflowStore.wf_nodes wf) edges (WorkflowStore.wf_nodes wf) edges (ge_editingEdgeId ed)
      else MkEditor workflow (ge_nodes ed) (ge_edges ed) (ge_nodes ed) (ge_edges ed) (ge_editingEdgeId ed)
  | None => MkEditor None (ge_nodes ed) (ge_edges ed) (ge_nodes ed) (ge_edges ed) (ge_editingEdgeId ed)
  end.

Section Editor.
Context `{D : Deque SyncChange}.

(** [if (workflow) updateWorkflowGraph(workflow.id, nodes, edges)] *)
Definition save (nodes : list FlowNode) (edges : list FlowEdge) (ed : Editor) : BrowserM unit :=
  match ge_workflow ed with
  | Some wf => in_workflows (WorkflowStore.updateWorkflowGraph (WorkflowStore.wf_id wf) nodes edges None)
  | None => mret tt
  end.

(** A callback of the hook: React keeps the state it has set even when the store's
    action then throws. *)
Definition EditorM (A : Type) : Type := Browser -> res A * Editor * Browser.
Definition saved {A} (nodes : list FlowNode) (edges : list FlowEdge) (ed shown : Editor) (result : A) : EditorM A := fun b =>
  let '(r, b') := save nodes edges ed b in
  (match r with Return _ => Return result | Throw e => Throw e end, shown, b').

Definition deleteNode (nodeId : string) (ed : Editor) : EditorM unit :=
  let '(newNodes, newEdges) := Canvas.removeServiceFromGraph (ge_nodesRef ed) (ge_edgesRef ed) nodeId in
  saved newNodes newEdges ed (setEdges newEdges (setNodes newNodes ed)) tt.

Definition updateNode (updatedNode : FlowNode) (ed : Editor) : EditorM unit :=
  let newNodes := map (fun n => if decide (node_id n = node_id updatedNode) then updatedNode else n) (ge_nodesRef ed) in
  saved newNodes (ge_edgesRef ed) ed (setNodes newNodes ed) tt.

Definition addNode (node : FlowNode) (ed : Editor) : EditorM unit :=
  let newNodes := ge_nodesRef ed ++ [node] in
  saved newNodes (ge_edgesRef ed) ed (setNodes newNodes ed) tt.

Definition find_node (id : string) (nodes : list FlowNode) : option FlowNode :=
  List.find (fun node => bool_decide (node_id node = id)) nodes.

(** [data: { ...data, needsReview: undefined }] *)
Definition reviewed (data : EdgeData) : EdgeData :=
  MkEdgeData (ed_label data) (ed_description data) (ed_protocol data) (ed_relation data) (ed_readiness data)
    None (ed_showLabel data) (ed_layoutPoints data).

Definition updateEdge (edgeId : string) (data : EdgeData) (ed : Editor) : EditorM unit :=
  let newEdges := map (fun edge => if decide (edge_id edge = edgeId)
    then MkEdge (edge_id edge) (edge_source edge) (edge_target edge) (Some "dataFlow") (Some (reviewed data))
    else edge) (ge_edgesRef ed) in
  saved (ge_nodesRef ed) newEdges ed (setEdges newEdges ed) tt.

(** State set after the store's action is not set when that throws. *)
Definition then_set {A} (f : Editor -> Editor) (m : EditorM A) : EditorM A := fun b =>
  match m b with
  | (Return a, ed, b') => (Return a, f ed, b')
  | (Throw e, ed, b') => (Throw e, ed, b')
  end.

Definition deleteEdge (edgeId : string) (ed : Editor) : EditorM unit :=
  let newEdges := filter (fun edge => edge_id edge <> edgeId) (ge_edgesRef ed) in
  then_set (fun ed' => if decide (ge_editingEdgeId ed = Some edgeId) then setEditingEdgeId None ed' else ed')
    (saved (ge_nodesRef ed) newEdges ed (setEdges newEdges ed) tt).

(** *** With React Flow *)
Context (addEdge : FlowEdge -> list FlowEdge -> list FlowEdge).

Definition connectNodes (source target : string) (ed : Editor) : EditorM unit := fun b =>
  match find_node source (ge_nodesRef ed), find_node target (ge_nodesRef ed) with
  | Some s, Some t =>
      match inferEdgeData s t with
      | Throw e => (Throw e, ed, b)
      | Return data =>
          let newEdge := MkEdge ("edge-" +:+ pretty (nowMs (br_host b))) source target (Some "dataFlow") (Some data) in
          let newEdges := addEdge newEdge (ge_edgesRef ed) in
          then_set (setEditingEdgeId (Some (edge_id newEdge))) (saved (ge_nodesRef ed) newEdges ed (setEdges newEdges ed) tt) b
      end
  | _, _ => (Return tt, ed, b)
  end.

Record GuidedEdge := MkGuidedEdge {
  gd_edgeId : option string;
  gd_source : string;
  gd_target : string;
  gd_data : option EdgeData
}.

(** [{ ...inferred, ...data, needsReview: undefined }]; a property [data] does not
    have is [None]. *)
Definition merge_data (inferred : EdgeData) (data : option EdgeData) : EdgeData :=
  let over {A} (f : EdgeData -> option A) : option A :=
    match data ≫= f with Some v => Some v | None => f inferred end in
  MkEdgeData (over ed_label) (over ed_description) (over ed_protocol) (over ed_relation) (over ed_readiness)
    None (over ed_showLabel) (over ed_layoutPoints).

Definition existing_edge (definition : GuidedEdge) (source target : FlowNode) (data : EdgeData) (edges : list FlowEdge)
    : option FlowEdge :=
  if ostr_truthy (gd_edgeId definition)
  then List.find (fun e => bool_decide (Some (edge_id e) = gd_edgeId definition)) edges
  else List.find (fun e => bool_decide (edge_source e = node_id source) && bool_decide (edge_target e = node_id target)
                           && bool_decide (data_prop ed_relation e = ed_relation data)) edges.

Definition saveGuidedEdge (definition : GuidedEdge) (ed : Editor) : EditorM (option FlowEdge) := fun b =>
  match find_node (gd_source definition) (ge_nodesRef ed), find_node (gd_target definition) (ge_nodesRef ed) with
  | Some source, Some target =>
      if decide (node_id source = node_id target) then (Return None, ed, b)
      else
        match inferEdgeData source target with
        | Throw e => (Throw e, ed, b)
        | Return inferred =>
            let data := merge_data inferred (gd_data definition) in
            let existing := existing_edge definition source target data (ge_edgesRef ed) in
            let nextEdge := MkEdge (default ("edge-" +:+ generateId (br_host b)) (edge_id <$> existing)) (node_id source)
                              (node_id target) (Some "dataFlow") (Some data) in
            let newEdges := match existing with
                            | Some old => map (fun e => if decide (edge_id e = edge_id old) then nextEdge else e) (ge_edgesRef ed)
                            | None => addEdge nextEdge (ge_edgesRef ed)
                            end in
            saved (ge_nodesRef ed) newEdges ed (setEdges newEdges ed) (Some nextEdge) b
        end
  | _, _ => (Return None, ed, b)
  end.

(** The changes React Flow reports: a removal, a move, or another one. *)
Inductive ChangeKind := RemoveChange | PositionChange (dragging : option bool) | OtherChange.
Record Change := MkGraphChange { ch_id : string; ch_kind : ChangeKind }.
Context (applyNodeChanges : list Change -> list FlowNode -> list FlowNode)
        (applyEdgeChanges : list Change -> list FlowEdge -> list FlowEdge).

Definition saved_if {A} (c : bool) (nodes : list FlowNode) (edges : list FlowEdge) (ed shown : Editor) (result : A) : EditorM A :=
  if c then saved nodes edges ed shown result else fun b => (Return result, shown, b).

Definition onEdgesChange (changes : list Change) (ed : Editor) : EditorM unit :=
  let newEdges := applyEdgeChanges changes (ge_edgesRef ed) in
  saved_if (existsb (fun c => match ch_kind c with RemoveChange => true | _ => false end) changes)
    (ge_nodesRef ed) newEdges ed (setEdges newEdges ed) tt.

Definition onNodesChange (changes : list Change) (ed : Editor) : EditorM unit :=
  let nextNodes := applyNodeChanges changes (ge_nodesRef ed) in
  let movedNodeIds := set_of_list (map ch_id
    (filter (fun c => match ch_kind c with PositionChange _ => true | _ => false end = true) changes)) in
  let nextEdges := invalidateRoutesForMovedNodes (ge_edgesRef ed) movedNodeIds in
  let dragFinished :=
    existsb (fun c => match ch_kind c with PositionChange (Some false) => true | _ => false end) changes in
  saved_if dragFinished nextNodes nextEdges ed
    (match movedNodeIds with [] => setNodes nextNodes ed | _ => setEdges nextEdges (setNodes nextNodes ed) end) tt.

Definition tidyLayout (elk_layout : Canvas.ElkGraph -> option Canvas.ElkLayout) (persist : bool) (ed : Editor) : EditorM unit :=
  fun b =>
  match Canvas.layoutArchitecture elk_layout (ge_nodesRef ed) (ge_edgesRef ed) with
  | Throw e => (Throw e, ed, b)
  | Return (nodes, edges) => saved_if persist nodes edges ed (setEdges edges (setNodes nodes ed)) tt b
  end.

(** ** [useTestOrderManager] *)
Definition loadTestOrder (workflow : option WorkflowStore.Workflow) (order : jmap string (list string))
    : jmap string (list string) :=
  match workflow ≫= WorkflowStore.wf_customTestOrder with Some o => jmap_of_pairs (entries o) | None => order end.

Definition updateTestOrder (workflow : option WorkflowStore.Workflow) (newOrder : jmap string (list string)) (b : Browser)
    : res unit * jmap string (list string) * Browser :=
  match workflow with
  | Some wf =>
      let '(r, b') := in_workflows (WorkflowStore.updateWorkflowGraph (WorkflowStore.wf_id wf) (WorkflowStore.wf_nodes wf)
                        (WorkflowStore.wf_edges wf) (Some newOrder)) b in (r, newOrder, b')
  | None => (Return tt, newOrder, b)
  end.
End Editor.

(** ** The draft of [GuidedConnections] *)
Record ConnectionDraft := MkDraft {
  dr_edgeId : option string;
  dr_source : string;
  dr_target : string;
  dr_relation : string;
  dr_readiness : string;
  dr_protocol : string
}.

(** The first node of type [generic]; a node without a service throws. *)
Fixpoint find_generic (nodes : list FlowNode) : res (option FlowNode) :=
  match nodes with
  | [] => Return None
  | node :: rest =>
      g ← Canvas.is_generic node;
      if g : bool then Return (Some node) else find_generic rest
  end.

Definition newDraft (nodes : list FlowNode) : res ConnectionDraft :=
  generic ← find_generic nodes;
  let source := match generic with Some n => Some n | None => head nodes end in
  let target := List.find (fun n => negb (bool_decide (Some (node_id n) = (node_id <$> source)))) nodes in
  Return (MkDraft None (default "" (node_id <$> source)) (default "" (node_id <$> target)) "calls"
            "source_requires_target" "").

Definition chooseRelation (relation : option string) (d : ConnectionDraft) : ConnectionDraft :=
  let next := default "calls" relation in
  MkDraft (dr_edgeId d) (dr_source d) (dr_target d) next (defaultReadiness next) (dr_protocol d).

(** What [saveDraft] hands to [onSave]; [None] when the draft cannot be saved. *)
Definition saveDraft (d : ConnectionDraft) : option GuidedEdge :=
  if negb (str_truthy (dr_source d)) || negb (str_truthy (dr_target d)) || bool_decide (dr_source d = dr_target d) then None
  else
    let protocol := js_trim (dr_protocol d) in
    Some (MkGuidedEdge (dr_edgeId d) (dr_source d) (dr_target d)
      (Some (MkEdgeData None None (if str_truthy protocol then Some protocol else None) (Some (dr_relation d))
               (Some (dr_readiness d)) None None None))).

(** The draft the edit button opens for a connection on screen, which is normalised
    and so has a relation and a readiness rule. *)
Definition editDraft (edge : FlowEdge) : ConnectionDraft :=
  MkDraft (Some (edge_id edge)) (edge_source edge) (edge_target edge)
    (default "calls" (data_prop ed_relation edge)) (default "source_requires_target" (data_prop ed_readiness edge))
    (default "" (data_prop ed_protocol edge)).

(** Accepting a suggestion. *)
Definition acceptSuggestion (s : Canvas.ConnectionSuggestion) : GuidedEdge :=
  MkGuidedEdge None (Canvas.su_source s) (Canvas.su_target s) (Some (Canvas.su_data s)).
End GraphEditor.
