(* ===== verification/Builder.v ===== *)
(** * The workflow builder: the state and callbacks of
      [ui-v2/src/modules/workflow/components/FlowBuilder/index.tsx] and
      [components/RunWorkflowDialog.tsx], with [stores/ui.store.ts] and
      [hooks/useKeyboardShortcuts.tsx]

    What the builder derives from its stores when it renders, which buttons it
    enables, and what a key press does.  Markup and toasts are not modelled. *)

From S2P Require Import Prelude FlowTypes SyncTypes ClientId FastQueue JsLib RunEvents ScenarioTranslator Process.
From S2P Require Import SyncService SyncMiddleware WorkflowStore ScenarioStore ExecutionStore RunReplay RunSnapshot Browser.
From S2P Require Import SyncHydration Canvas Journey RunWorkflow.
From Stdlib Require Import Ascii.
Open Scope Z_scope.

(** ** [stores/ui.store.ts] *)
Module UIStore.
Record UIState := MkUI {
  isDrawerOpen : bool;
  isNodeConfigOpen : bool;
  isScenarioDialogOpen : bool;
  isLogsOpen : bool;
  isShortcutsOpen : bool;
  selectedNode : option FlowNode
}.

Definition initial : UIState := MkUI false false false false false None.

Definition set_drawer (v : bool) (s : UIState) : UIState :=
  MkUI v (isNodeConfigOpen s) (isScenarioDialogOpen s) (isLogsOpen s) (isShortcutsOpen s) (selectedNode s).
Definition set_scenarios (v : bool) (s : UIState) : UIState :=
  MkUI (isDrawerOpen s) (isNodeConfigOpen s) v (isLogsOpen s) (isShortcutsOpen s) (selectedNode s).
Definition set_logs (v : bool) (s : UIState) : UIState :=
  MkUI (isDrawerOpen s) (isNodeConfigOpen s) (isScenarioDialogOpen s) v (isShortcutsOpen s) (selectedNode s).
Definition set_shortcuts (v : bool) (s : UIState) : UIState :=
  MkUI (isDrawerOpen s) (isNodeConfigOpen s) (isScenarioDialogOpen s) (isLogsOpen s) v (selectedNode s).

Definition openDrawer := set_drawer true.
Definition closeDrawer := set_drawer false.
Definition toggleDrawer (s : UIState) := set_drawer (negb (isDrawerOpen s)) s.

Definition openNodeConfig (node : FlowNode) (s : UIState) : UIState :=
  MkUI (isDrawerOpen s) true (isScenarioDialogOpen s) (isLogsOpen s) (isShortcutsOpen s) (Some node).
Definition closeNodeConfig (s : UIState) : UIState :=
  MkUI (isDrawerOpen s) false (isScenarioDialogOpen s) (isLogsOpen s) (isShortcutsOpen s) None.

Definition openScenarios := set_scenarios true.
Definition closeScenarios := set_scenarios false.
Definition toggleScenarios (s : UIState) := set_scenarios (negb (isScenarioDialogOpen s)) s.
Definition openLogs := set_logs true.
Definition closeLogs := set_logs false.
Definition toggleLogs (s : UIState) := set_logs (negb (isLogsOpen s)) s.
Definition openShortcuts := set_shortcuts true.
Definition closeShortcuts := set_shortcuts false.
Definition toggleShortcuts (s : UIState) := set_shortcuts (negb (isShortcutsOpen s)) s.
Definition closeAll (s : UIState) : UIState := MkUI false false false false false None.

(** The handler of Escape. *)
Definition closeDialogs (s : UIState) : UIState :=
  if isShortcutsOpen s then closeShortcuts s
  else if isScenarioDialogOpen s then closeScenarios s
  else if isLogsOpen s then closeLogs s
  else if isDrawerOpen s then closeDrawer s
  else if isNodeConfigOpen s then closeNodeConfig s
  else s.

Definition open_dialogs (s : UIState) : nat :=
  (if isShortcutsOpen s then 1 else 0) + (if isScenarioDialogOpen s then 1 else 0) + (if isLogsOpen s then 1 else 0)
  + (if isDrawerOpen s then 1 else 0) + (if isNodeConfigOpen s then 1 else 0).
End UIStore.

(** ** [hooks/useKeyboardShortcuts.tsx] *)
Module Keyboard.
(** The modifiers default to [false]. *)
Record Shortcut := MkShortcut { sc_key : string; sc_ctrl : bool; sc_shift : bool; sc_alt : bool; sc_meta : bool }.

Record KeyEvent := MkKeyEvent {
  ke_key : string; ke_ctrl : bool; ke_shift : bool; ke_alt : bool; ke_meta : bool; ke_target : string; ke_editable : bool
}.

Definition matches (s : Shortcut) (e : KeyEvent) : bool :=
  bool_decide (toLowerCase (ke_key e) = toLowerCase (sc_key s))
  && Bool.eqb (sc_ctrl s) (ke_ctrl e || ke_meta e)
  && Bool.eqb (sc_shift s) (ke_shift e)
  && Bool.eqb (sc_alt s) (ke_alt e)
  && Bool.eqb (sc_meta s) (ke_meta e).

(** The shortcut whose handler runs. *)
Definition handleKeyDown {H} (enabled : bool) (shortcuts : list (Shortcut * H)) (e : KeyEvent) : option H :=
  if negb enabled then None
  else if bool_decide (ke_target e = "INPUT") || bool_decide (ke_target e = "TEXTAREA") || ke_editable e then None
  else snd <$> List.find (fun p => matches p.1 e) shortcuts.

(** [toUpperCase] of each character, and of the first one. *)
Fixpoint upper (s : string) : string :=
  match s with EmptyString => EmptyString | String c s' => Canvas.upper_char c +:+ upper s' end.

Definition formatShortcut (isMac : bool) (s : Shortcut) : string :=
  let parts :=
    (if sc_ctrl s then [if isMac then "⌘" else "Ctrl"] else [])
    ++ (if sc_shift s then [if isMac then "⇧" else "Shift"] else [])
    ++ (if sc_alt s then [if isMac then "⌥" else "Alt"] else [])
    ++ (if sc_meta s then ["⌘"] else [])
    ++ [if (String.length (sc_key s) =? 1)%nat then upper (sc_key s) else Canvas.capitalized (sc_key s)] in
  join (if isMac then "" else "+") parts.

(** The builder's shortcuts. *)
Inductive Command := OpenLogs | OpenAddNode | RunWorkflow_ | ToggleShortcuts | CloseDialogs.

Definition plain (key : string) (ctrl : bool) : Shortcut := MkShortcut key ctrl false false false.
Definition builder_shortcuts : list (Shortcut * Command) :=
  [(plain "l" true, OpenLogs); (plain "n" true, OpenAddNode); (plain "Enter" true, RunWorkflow_);
   (plain "?" false, ToggleShortcuts); (plain "Escape" false, CloseDialogs)].
End Keyboard.

(** ** The builder *)
Module Builder.
(** What one render has: the graph on screen, the scenarios of the workflow that can
    run, the permissions, the hook's state and the length of the sync queue. *)
Record View := MkView {
  bv_nodes : list FlowNode;
  bv_edges : list FlowEdge;
  bv_scenarios : list Scenario;
  bv_canEdit : bool;
  bv_canRun : bool;
  bv_hook : RunWorkflow.HookState;
  bv_queueSize : Z
}.

Section Builder.
Context (localeCompare : string -> string -> Z).

Definition workflowStats (v : View) : Z * Z * Z :=
  (Z.of_nat (length (bv_nodes v)), Z.of_nat (length (bv_scenarios v)),
   fold_left (fun total sc => total + Z.of_nat (length (scn_tests sc))) (bv_scenarios v) 0).

(** [Array.from(new Map(errors.map((error) => [error.message, error])).values())] *)
Definition by_message (errors : list TranslationError) : list TranslationError :=
  jvalues (jmap_of_pairs (map (fun e => (te_message e, e)) errors)).

Definition guidedValidationErrors (v : View) : res (list TranslationError) :=
  serviceGraph ← translateWorkflowGraphToServiceGraph localeCompare (bv_nodes v) (bv_edges v) None;
  Return (by_message (concat (map (fun sc => vr_errors (RunWorkflow.validate_one serviceGraph sc)) (bv_scenarios v)))).

Definition displayedValidationErrors (v : View) : res (list TranslationError) :=
  guided ← guidedValidationErrors v;
  Return (by_message (guided ++ match RunWorkflow.hs_validationResult (bv_hook v) with Some r => vr_errors r | None => [] end)).

Definition guidedChecklist (v : View) : res (list Experience.GuidedChecklistItem) :=
  errors ← displayedValidationErrors v;
  Return (Experience.deriveGuidedChecklist (Z.of_nat (length (bv_nodes v))) (bv_edges v) (bv_scenarios v)
            (Z.of_nat (length errors))).

Definition hasRunnableTest (v : View) : bool := existsb (fun sc => (0 <? length (scn_tests sc))%nat) (bv_scenarios v).

Definition canExecute (v : View) : bool :=
  (0 <? length (bv_nodes v))%nat && (0 <? length (bv_scenarios v))%nat && negb (RunWorkflow.hs_isExecuting (bv_hook v)).

Definition canLaunchWorkflow (v : View) : res bool :=
  errors ← displayedValidationErrors v;
  Return (bv_canRun v && canExecute v && hasRunnableTest v && (length errors =? 0)%nat && (bv_queueSize v =? 0)).

Definition runDisabledReason (v : View) : res (option string) :=
  errors ← displayedValidationErrors v;
  let n := Z.of_nat (length errors) in
  Return (if RunWorkflow.hs_isExecuting (bv_hook v) then Some "A workflow run is already starting."
    else if negb (bv_canRun v) then Some "Your project role does not allow workflow runs."
    else if 0 <? bv_queueSize v then Some "Wait for pending workflow changes to finish syncing."
    else if (length (bv_nodes v) =? 0)%nat then Some "Add at least one service before running."
    else if (length (bv_scenarios v) =? 0)%nat then Some "Create at least one scenario before running."
    else if negb (hasRunnableTest v) then Some "Add at least one test step to a scenario before running."
    else if 0 <? n then Some ("Resolve " +:+ pretty n +:+ " validation issue" +:+ Journey.plural n +:+ " before running.")
    else None).

(** *** The run dialog *)
Definition dialog_open (v : View) : list string := set_of_list (map scn_id (bv_scenarios v)).
Definition toggle (id : string) (checked : bool) (selectedIds : list string) : list string :=
  if checked then set_add id selectedIds else filter (fun x => x <> id) selectedIds.

Definition submit_enabled (v : View) (selectedIds : list string) : res bool :=
  errors ← displayedValidationErrors v;
  Return (negb ((length selectedIds =? 0)%nat || RunWorkflow.hs_isExecuting (bv_hook v) || (0 <? length errors)%nat)).

(** The handler of the run shortcut opens the dialog. *)
Definition shortcut_opens_dialog (v : View) : bool := bv_canRun v && canExecute v.

(** *** Cancelling the active run

    [runner] answers the request ([None]: [fetch] rejected); the payload of a good
    answer is the status of the run. *)
Context `{D : Deque SyncChange} {Srv : Type}
        (runner : Srv -> string * string -> option (ApiReply WorkflowRunStatus) * Srv).

Definition cancel_reply (o : option (ApiReply WorkflowRunStatus)) : res WorkflowRunStatus :=
  match o with
  | None => Throw JsTypeError
  | Some response =>
      if rp_ok response then match rp_json response with Some s => Return s | None => Throw JsSyntaxError end
      else Throw (runner_error response)
  end.

Definition cancelActiveExecution (activeExecution : option ExecutionStore.WorkflowExecution)
    : Proc (SyncHydration.System (S := Srv)) unit :=
  match activeExecution with
  | None => mret tt
  | Some ex =>
      catch (
        outcome ← SyncHydration.remote (fun s => runner s (ExecutionStore.ex_workflowRunId ex, ExecutionStore.ex_projectId ex));
        status ← Process.Done (cancel_reply outcome);
        SyncHydration.local (in_runs (in_executions
          (ExecutionStore.updateExecutionStatus (ExecutionStore.ex_workflowRunId ex) status None None))))
        (fun _ => mret tt)
  end.
End Builder.
End Builder.
