(* ===== verification/CanvasFacts.v ===== *)
(** * What the canvas shows is what the graph holds *)

From S2P Require Import Prelude FlowTypes SyncTypes JsLib Json ClientId EdgeModel ServiceNames ScenarioTranslator SyncService.
From S2P Require Import WorkflowStore ExecutionStore Canvas Journey.
Open Scope Z_scope.
Import Canvas.

(** ** Layout by role *)
Definition overlap (a b : FlowNode) : Prop :=
  let '(ax, ay) := node_position a in
  let '(bx, by_) := node_position b in
  ax < bx + NODE_WIDTH /\ bx < ax + NODE_WIDTH /\ ay < by_ + NODE_HEIGHT /\ by_ < ay + NODE_HEIGHT.

(** Where the nodes of [place] are: in the column of their role, below the rows
    already taken. *)
Lemma place_spec counts nodes placed : place counts nodes = Return placed ->
  Forall2 (fun node p => exists role row, node_role node = Return role /\ p = at_position (column role, row * 160) node
    /\ counts role <= row) nodes placed
  /\ (forall i j a b, placed !! i = Some a -> placed !! j = Some b -> i <> j -> ~ overlap a b).
Proof.
  revert counts placed. induction nodes as [|node rest IH]; intros counts placed; simpl.
  { intros [= <-]. split; [constructor|]. intros i j a b Ha. by rewrite lookup_nil in Ha. }
  destruct (node_role node) as [role|e] eqn:Er; [|done]. simpl.
  destruct (place (bump role counts) rest) as [ps|e] eqn:Ep; [|done]. simpl. intros [= <-].
  destruct (IH _ _ Ep) as [Hf Hd]. set (p := at_position (column role, counts role * 160) node).
  assert (Hp : forall k q, ps !! k = Some q -> ~ overlap p q /\ ~ overlap q p).
  { intros k q Hq. destruct (Forall2_lookup_r _ _ _ _ _ Hf Hq) as (n & _ & r & row & _ & -> & Hrow).
    unfold bump in Hrow. unfold overlap. cbn. unfold NODE_WIDTH, NODE_HEIGHT, column in *.
    case_decide as Hr; [subst r; split; lia|]. destruct r, role; try done; split; lia. }
  split.
  - constructor; [exists role, (counts role); split_and!; [done|done|lia]|].
    eapply Forall2_impl; [exact Hf|]. intros n q (r & row & H1 & H2 & H3). exists r, row. split_and!; [done|done|].
    unfold bump in H3. case_decide; lia.
  - intros [|i] [|j] a b Ha Hb Hij; [done| | |]; cbn in Ha, Hb; simplify_eq.
    + by apply (Hp j).
    + by apply (Hp i).
    + apply (Hd i j); [done|done|lia].
Qed.

(** The fallback layout keeps every service, puts it in the column of its role
    and lets no two services overlap, however many there are. *)
Theorem role_layout_disjoint nodes edges placed routed : layoutByRole nodes edges = Return (placed, routed) ->
  map node_id placed = map node_id nodes /\ map node_data placed = map node_data nodes
  /\ map edge_id routed = map edge_id edges
  /\ (forall node role, node ∈ placed -> node_role node = Return role -> (node_position node).1 = column role)
  /\ (forall i j a b, placed !! i = Some a -> placed !! j = Some b -> i <> j -> ~ overlap a b).
Proof.
  unfold layoutByRole. destruct (place _ nodes) as [ps|e] eqn:Ep; [|done]. simpl. intros [= <- <-].
  destruct (place_spec _ _ _ Ep) as [Hf Hd]. split_and!; [| | | |exact Hd].
  - clear -Hf. induction Hf as [|n p l k (r & row & _ & -> & _) _ IH]; [done|]. simpl. by rewrite IH.
  - clear -Hf. induction Hf as [|n p l k (r & row & _ & -> & _) _ IH]; [done|]. simpl. by rewrite IH.
  - rewrite map_map. apply map_ext. intros e. unfold role_route. by repeat case_match.
  - intros node role [k Hk]%list_elem_of_lookup Hr.
    destruct (Forall2_lookup_r _ _ _ _ _ Hf Hk) as (n & _ & r & row & Hn & -> & _).
    unfold node_role, node_type in *. cbn in *. rewrite Hn in Hr. by simplify_eq.
Qed.

(** ** The boxes of the roles *)
Lemma fold_min_le l x : fold_left Z.min l x <= x /\ Forall (fun y => fold_left Z.min l x <= y) l.
Proof.
  revert x. induction l as [|y l IH]; intros x; simpl; [split; [lia|constructor]|].
  destruct (IH (Z.min x y)) as [H1 H2]. split; [lia|]. constructor; [lia|done].
Qed.

Lemma fold_max_ge l x : x <= fold_left Z.max l x /\ Forall (fun y => y <= fold_left Z.max l x) l.
Proof.
  revert x. induction l as [|y l IH]; intros x; simpl; [split; [lia|constructor]|].
  destruct (IH (Z.max x y)) as [H1 H2]. split; [lia|]. constructor; [lia|done].
Qed.

Lemma lowest_le (f : FlowNode -> Z) first rest n : n ∈ first :: rest -> list_min (f first) (map f rest) <= f n.
Proof.
  unfold list_min. destruct (fold_min_le (map f rest) (f first)) as [H1 H2].
  intros [->|H]%elem_of_cons; [done|]. rewrite Forall_forall in H2. apply H2. by apply list_elem_of_fmap_2.
Qed.

Lemma highest_ge (f : FlowNode -> Z) first rest n : n ∈ first :: rest -> f n <= list_max (f first) (map f rest).
Proof.
  unfold list_max. destruct (fold_max_ge (map f rest) (f first)) as [H1 H2].
  intros [->|H]%elem_of_cons; [done|]. rewrite Forall_forall in H2. apply H2. by apply list_elem_of_fmap_2.
Qed.

Lemma nodes_of_role_spec role nodes l : nodes_of_role role nodes = Return l ->
  forall n, n ∈ l <-> n ∈ nodes /\ node_role n = Return role.
Proof.
  revert l. induction nodes as [|node rest IH]; intros l; simpl.
  { intros [= <-] n. split; [by intros ?%elem_of_nil|by intros [?%elem_of_nil _]]. }
  destruct (node_role node) as [r|e] eqn:Er; [|done]. simpl.
  destruct (nodes_of_role role rest) as [l'|e] eqn:En; [|done]. simpl. intros [= <-] n.
  specialize (IH l' eq_refl n). case_decide as Hr; rewrite ?elem_of_cons, IH; [subst r|]; naive_solver congruence.
Qed.

Definition inside (b : RoleBounds) (n : FlowNode) : Prop :=
  rb_left b + 48 <= (node_position n).1 /\ (node_position n).1 + measured "width" NODE_WIDTH n + 48 <= rb_left b + rb_width b
  /\ rb_top b + 68 <= (node_position n).2
  /\ (node_position n).2 + measured "height" NODE_HEIGHT n + 48 <= rb_top b + rb_height b.

(** Every service on the canvas lies inside the box drawn for its role, with the
    margins for the box's border and title, and a box is drawn only for a role
    that has services. *)
Theorem role_boxes_contain nodes bounds : architectureBounds nodes = Return bounds ->
  (forall n role, n ∈ nodes -> node_role n = Return role -> exists b, b ∈ bounds /\ rb_role b = role /\ inside b n)
  /\ (forall b, b ∈ bounds -> exists n, n ∈ nodes /\ node_role n = Return (rb_role b)).
Proof.
  unfold architectureBounds. destruct (res_map _ _) as [bs|e] eqn:Em; [|done]. simpl. intros [= <-].
  apply res_map_return in Em.
  assert (Hb : forall role, exists l, nodes_of_role role nodes = Return l /\ role_bounds role l ∈ bs).
  { intros role. assert (Hin : role ∈ [Application; Data; Messaging]) by (destruct role; rewrite !elem_of_cons; auto).
    apply list_elem_of_lookup in Hin as [k Hk]. destruct (Forall2_lookup_l _ _ _ _ _ Em Hk) as (b & Hbk & Hr).
    destruct (nodes_of_role role nodes) as [l|] eqn:El; [|done]. exists l. split; [done|]. injection Hr as <-.
    by eapply list_elem_of_lookup_2. }
  assert (Hin : forall b, b ∈ concat (map option_list bs) <-> Some b ∈ bs).
  { intros b. rewrite list_elem_of_In, in_concat. split.
    - intros (l & (o & <- & Ho)%in_map_iff & Hl). destruct o as [b'|]; [|done]. destruct Hl as [->|[]].
      by apply list_elem_of_In.
    - intros H%list_elem_of_In. exists [b]. split; [|by left]. apply in_map_iff. by exists (Some b). }
  split.
  - intros n role Hn Hr. destruct (Hb role) as (l & El & Hbs). pose proof (nodes_of_role_spec role nodes l El n) as Hs.
    destruct l as [|first rest]; [by destruct (proj1 (elem_of_nil n) (proj2 Hs (conj Hn Hr)))|]. cbn in Hbs.
    eexists. split; [by apply Hin|]. split; [done|].
    assert (Hm : n ∈ first :: rest) by (by apply Hs). unfold inside. cbn.
    pose proof (lowest_le (fun n => (node_position n).1) first rest n Hm).
    pose proof (lowest_le (fun n => (node_position n).2) first rest n Hm).
    pose proof (highest_ge (fun n => (node_position n).1 + measured "width" NODE_WIDTH n) first rest n Hm).
    pose proof (highest_ge (fun n => (node_position n).2 + measured "height" NODE_HEIGHT n) first rest n Hm).
    cbn in *. split_and!; lia.
  - intros b H%Hin. apply list_elem_of_lookup in H as [k Hk].
    destruct (Forall2_lookup_r _ _ _ _ _ Em Hk) as (role & _ & Hr).
    destruct (nodes_of_role role nodes) as [l|] eqn:El; [|done]. injection Hr as Hr.
    destruct l as [|first rest]; [done|]. cbn in Hr. injection Hr as <-. exists first.
    apply (nodes_of_role_spec role nodes _ El), list_elem_of_here.
Qed.

(** ** Removing a service *)
Definition closed_graph (nodes : list FlowNode) (edges : list FlowEdge) : Prop :=
  Forall (fun e => edge_source e ∈ map node_id nodes /\ edge_target e ∈ map node_id nodes) edges.

Lemma removed_ids nodes edges id x :
  x ∈ map node_id (removeServiceFromGraph nodes edges id).1 <-> x ∈ map node_id nodes /\ x <> id.
Proof.
  cbn. rewrite !list_elem_of_fmap. split.
  - intros (n & -> & [Hn Hin]%list_elem_of_filter). split; [by exists n|done].
  - intros [(n & -> & Hin) Hne]. exists n. split; [done|]. by apply list_elem_of_filter.
Qed.

Lemma removal_closed nodes edges id : closed_graph nodes edges ->
  closed_graph (removeServiceFromGraph nodes edges id).1 (removeServiceFromGraph nodes edges id).2.
Proof.
  unfold closed_graph. rewrite !Forall_forall. intros H e [[H1 H2] He]%list_elem_of_filter.
  destruct (H e He) as [Hs Ht]. by split; apply removed_ids.
Qed.

Lemma count_split {A} (p : A -> bool) (l : list A) :
  count p l + Z.of_nat (length (filter (fun x => p x = false) l)) = Z.of_nat (length l).
Proof.
  unfold count. induction l as [|x l IH]; [done|]. rewrite !filter_cons.
  destruct (p x); [rewrite decide_True, decide_False by done|rewrite decide_False, decide_True by done];
    cbn [length]; lia.
Qed.

(** The dialog that asks before a service is removed tells the truth: exactly the
    connections it counts disappear, the rest of the graph is untouched, and no
    connection is left without one of its ends. *)
Theorem service_removal_exact node nodes edges scenarios impact :
  getServiceRemovalImpact node edges scenarios = Return impact ->
  let '(ns, es) := removeServiceFromGraph nodes edges (node_id node) in
  Z.of_nat (length es) + im_connectedEdges impact = Z.of_nat (length edges)
  /\ (forall x, x ∈ map node_id ns <-> x ∈ map node_id nodes /\ x <> node_id node)
  /\ (closed_graph nodes edges -> closed_graph ns es).
Proof.
  unfold getServiceRemovalImpact. destruct (count_references _ _ _ _) as [c|e]; [|done]. simpl. intros [= <-].
  split; [|split; [intros x; exact (removed_ids nodes edges _ x)|apply removal_closed]].
  cbn. pose proof (count_split (touches (node_id node)) edges) as H.
  assert (E : filter (fun e => edge_source e <> node_id node /\ edge_target e <> node_id node) edges
              = filter (fun e => touches (node_id node) e = false) edges).
  { apply list_filter_iff. intros e. unfold touches.
    rewrite orb_false_iff, !bool_decide_eq_false. done. }
  rewrite E. lia.
Qed.

(** ** Suggestions *)
Section Suggestions.
Context (nodes : list FlowNode) (existing : list string).

(** A suggestion worth making: between two different services of the workflow, with
    the inferred meaning, and not drawn yet. *)
Definition worthwhile (key : string) (s : ConnectionSuggestion) : Prop :=
  su_id s = key /\ key ∉ existing
  /\ exists source target, source ∈ nodes /\ target ∈ nodes /\ node_id source <> node_id target
     /\ su_source s = node_id source /\ su_target s = node_id target
     /\ inferEdgeData source target = Return (su_data s)
     /\ key = suggestionKey (su_source s) (su_target s) (ed_relation (su_data s)).

Definition sound (m : Suggestions) : Prop := jmap_wf m /\ forall k s, m !! k = Some s -> worthwhile k s.

Lemma sound_empty : sound ∅.
Proof. split; [apply jmap_wf_empty|done]. Qed.

Lemma add_sound reason source target m m' : source ∈ nodes -> target ∈ nodes -> sound m ->
  addSuggestion existing reason source target m = Return m' -> sound m'.
Proof.
  intros Hs Ht Hm. unfold addSuggestion. case_bool_decide as Hne; [by intros [= <-]|].
  destruct (inferEdgeData source target) as [d|e] eqn:Ed; [|done]. simpl.
  destruct (set_has _ existing) eqn:He; [by intros [= <-]|]. simpl.
  case_bool_decide; [by intros [= <-]|]. intros [= <-]. destruct Hm as [Hw Hm]. split; [by apply jmap_wf_insert|].
  intros k s Hk. unfold Suggestions in *. rewrite jlookup_insert in Hk. case_decide as Ek; [|by apply Hm].
  injection Hk as <-. subst k.
  split; [done|]. split; [by apply set_has_false|]. by exists source, target.
Qed.

Lemma references_sound reason source nodeByName names m m' : source ∈ nodes ->
  (forall k n, nodeByName !! k = Some n -> n ∈ nodes) -> sound m ->
  suggest_references (addSuggestion existing reason source) nodeByName names m = Return m' -> sound m'.
Proof.
  intros Hs Hn. revert m. induction names as [|name rest IH]; intros m Hm; simpl; [by intros [= <-]|].
  destruct (nodeByName !! name) as [target|] eqn:El; [|by apply IH].
  destruct (addSuggestion _ _ _ _ _) as [m1|e] eqn:Ea; [|done]. simpl. apply IH.
  by apply (add_sound reason source target m m1 Hs (Hn _ _ El) Hm).
Qed.

Lemma runtime_sound nodeByName sources m m' : (forall n, n ∈ sources -> n ∈ nodes) ->
  (forall k n, nodeByName !! k = Some n -> n ∈ nodes) -> sound m ->
  suggest_runtime existing nodeByName sources m = Return m' -> sound m'.
Proof.
  intros Hs Hn. revert m. induction sources as [|source rest IH]; intros m Hm; simpl; [by intros [= <-]|].
  destruct (referencedServiceNames source) as [names|e]; [|done]. simpl.
  destruct (suggest_references _ _ _ _) as [m1|e] eqn:Er; [|done]. simpl.
  apply IH; [intros n Hin; by apply Hs, list_elem_of_further|].
  eapply references_sound; [apply Hs, list_elem_of_here|exact Hn|exact Hm|exact Er].
Qed.

Lemma inventory_sound application l m m' : application ∈ nodes -> (forall n, n ∈ l -> n ∈ nodes) -> sound m ->
  suggest_inventory existing application l m = Return m' -> sound m'.
Proof.
  intros Ha. revert m. induction l as [|d rest IH]; intros m Hl Hm; simpl; [by intros [= <-]|].
  destruct (is_generic d) as [[]|e]; [| |done]; simpl.
  - apply IH; [intros n Hin; by apply Hl, list_elem_of_further|done].
  - destruct (addSuggestion _ _ _ _ _) as [m1|e] eqn:Ea; [|done]. simpl.
    apply IH; [intros n Hin; by apply Hl, list_elem_of_further|].
    eapply add_sound; [exact Ha|apply Hl, list_elem_of_here|exact Hm|exact Ea].
Qed.
End Suggestions.

Lemma generic_nodes_incl nodes l : generic_nodes nodes = Return l -> forall n, n ∈ l -> n ∈ nodes.
Proof.
  revert l. induction nodes as [|node rest IH]; intros l; simpl; [by intros [= <-]|].
  destruct (is_generic node) as [g|e]; [|done]. simpl. destruct (generic_nodes rest) as [l'|e]; [|done].
  simpl. intros [= <-] n. specialize (IH l' eq_refl n). destruct g; rewrite ?elem_of_cons; naive_solver.
Qed.

Lemma pairs_values {V} (l : list (string * V)) k v : jmap_of_pairs l !! k = Some v -> v ∈ map snd l.
Proof.
  unfold jmap_of_pairs. enough (H : forall m : jmap string V,
    fold_left (fun m p => <[p.1 := p.2]> m) l m !! k = Some v -> v ∈ map snd l \/ m !! k = Some v).
  { intros Hl. destruct (H ∅ Hl) as [|Hm]; [done|]. by rewrite jlookup_empty in Hm. }
  induction l as [|[k' v'] l IH]; intros m Hl; simpl in *; [by right|].
  destruct (IH _ Hl) as [H|H]; [left; by apply list_elem_of_further|].
  rewrite jlookup_insert in H. case_decide; [left; simplify_eq; apply list_elem_of_here|by right].
Qed.

Lemma sound_values nodes existing m : sound nodes existing m ->
  NoDup (map su_id (jvalues m)) /\ forall s, s ∈ jvalues m -> worthwhile nodes existing (su_id s) s.
Proof.
  intros [Hw Hm]. assert (Hin : forall s, s ∈ jvalues m -> exists k, m !! k = Some s).
  { intros s. unfold jvalues. rewrite list_elem_of_fmap. intros ([k v] & -> & Hin). exists k. by apply elem_of_jlookup. }
  split; [|intros s Hs; destruct (Hin s Hs) as [k Hk]; destruct (Hm k s Hk) as (E & H); rewrite E; by split].
  assert (E : map su_id (jvalues m) = jkeys m); [|rewrite E; exact Hw].
  unfold jvalues, jkeys. rewrite map_map. apply map_ext_in. intros [k v] Hkv%list_elem_of_In.
  apply (elem_of_jlookup k v m Hw) in Hkv. destruct (Hm k v Hkv) as [E _]. exact E.
Qed.

(** The connections the guided builder suggests are worth making: each joins
    two different services of the workflow with the relation inferred from their
    types, none is drawn already, and none is suggested twice. *)
Theorem suggestions_sound nodes edges suggestions : suggestConnections nodes edges = Return suggestions ->
  NoDup (map su_id suggestions)
  /\ forall s, s ∈ suggestions -> worthwhile nodes (set_of_list (map edge_key edges)) (su_id s) s.
Proof.
  unfold suggestConnections. set (existing := set_of_list (map edge_key edges)).
  destruct (suggest_runtime existing _ nodes ∅) as [m1|e] eqn:E1; [|done]. simpl.
  assert (H1 : sound nodes existing m1).
  { eapply runtime_sound; [done| |apply sound_empty|exact E1]. intros k n Hk.
    apply pairs_values in Hk. rewrite map_map in Hk. simpl in Hk. by rewrite map_id in Hk. }
  destruct (generic_nodes nodes) as [apps|e] eqn:Eg; [|done]. simpl.
  destruct apps as [|a [|a2 apps]]; simpl; try (intros [= <-]; by apply sound_values).
  destruct (suggest_inventory existing a nodes m1) as [m2|e] eqn:E2; [|done]. simpl. intros [= <-].
  apply sound_values. eapply inventory_sound; [|done|exact H1|exact E2].
  apply (generic_nodes_incl nodes _ Eg), list_elem_of_here.
Qed.

(** ** The journey *)
Lemma find_by_pairs tests id : NoDup (map test_id tests) ->
  jmap_of_pairs (map (fun t => (test_id t, t)) tests) !! id = List.find (fun t => bool_decide (test_id t = id)) tests.
Proof.
  intros Hn. rewrite jmap_of_pairs_distinct by (by rewrite map_map). unfold lookup, jmap_lookup. simpl. clear Hn.
  induction tests as [|t tests IH]; [done|]. simpl. case_decide as E; [subst; by rewrite bool_decide_eq_true_2|].
  by rewrite bool_decide_eq_false_2, IH.
Qed.

Lemma find_has_test tests id : is_Some (List.find (fun t => bool_decide (test_id t = id)) tests) <-> has_test tests id = true.
Proof.
  unfold has_test. induction tests as [|t tests IH]; simpl; [by split; [intros [? [=]]|]|].
  destruct (bool_decide (test_id t = id)); [by split; eauto|exact IH].
Qed.

Lemma omap_has_test tests (order : list string) :
  omap (fun id => List.find (fun t => bool_decide (test_id t = id)) tests) order
  = omap (fun id => List.find (fun t => bool_decide (test_id t = id)) tests) (filter (fun id => has_test tests id = true) order).
Proof.
  induction order as [|id order IH]; [done|]. rewrite filter_cons. cbn [omap list_omap].
  destruct (List.find _ tests) as [t|] eqn:Ef.
  - rewrite decide_True by (apply find_has_test; eauto). cbn [omap list_omap]. by rewrite Ef, <- IH.
  - rewrite decide_False; [exact IH|]. intros H%find_has_test. by rewrite Ef in H; destruct H.
Qed.

Lemma omap_ids tests (order : list string) : map test_id (omap (fun id => List.find (fun t => bool_decide (test_id t = id)) tests)
    (filter (fun id => has_test tests id = true) order)) = filter (fun id => has_test tests id = true) order.
Proof.
  induction order as [|id order IH]; [done|]. rewrite filter_cons. case_decide as H; [|exact IH].
  apply find_has_test in H as [t Ht]. cbn [omap list_omap]. rewrite Ht. simpl. rewrite IH. f_equal.
  apply find_some in Ht as [_ Ht]. by apply bool_decide_eq_true_1 in Ht.
Qed.

(** The steps a scenario's journey shows are the tests the runner gets, in the same
    order, for any saved order: stale ids in it, missing ones and an empty one. *)
Theorem journey_is_run_order tests testOrder : NoDup (map test_id tests) ->
  Journey.orderedScenarioTests tests testOrder = orderTests tests testOrder.
Proof.
  intros Hn. unfold Journey.orderedScenarioTests, orderTests.
  assert (E : omap (fun id => jmap_of_pairs (map (fun t => (test_id t, t)) tests) !! id) testOrder
    = omap (fun id => List.find (fun t => bool_decide (test_id t = id)) tests) (filter (fun id => has_test tests id = true) testOrder)).
  { rewrite <- omap_has_test. apply list_omap_ext. apply Forall_Forall2_diag, Forall_forall.
    intros id _. by apply find_by_pairs. }
  rewrite E. f_equal. apply list_filter_iff. intros t. rewrite omap_ids.
  by rewrite set_has_false, elem_of_set_of_list.
Qed.

(** ** Witnesses *)
Definition canvas_node (id label : string) (type : ServiceType) (env : list EnvironmentVariable) : FlowNode :=
  MkNode id (0, 0) ∅ (MkNodeData (Some label) None
    (Some (MkNodeService type None None None (Some env) None None None None)) None).
Definition canvas_nodes : list FlowNode :=
  [canvas_node "n1" "Orders API" Generic [MkEnv "1" "DB_HOST" "${orders_db.host}"];
   canvas_node "n2" "Orders DB" Postgres []; canvas_node "n3" "Billing API" Nginx []].
Definition canvas_edges : list FlowEdge :=
  [MkEdge "e1" "n1" "n3" None (Some (relation_data "calls"))].

Lemma role_layout_disjoint_witness : exists placed routed, layoutByRole canvas_nodes canvas_edges = Return (placed, routed)
  /\ forall i j a b, placed !! i = Some a -> placed !! j = Some b -> i <> j -> ~ overlap a b.
Proof.
  do 2 eexists. split; [reflexivity|]. apply (role_layout_disjoint canvas_nodes canvas_edges _ _ eq_refl).
Defined.

Lemma role_boxes_contain_witness : exists bounds, architectureBounds canvas_nodes = Return bounds
  /\ forall b, b ∈ bounds -> exists n, n ∈ canvas_nodes /\ node_role n = Return (rb_role b).
Proof. eexists. split; [reflexivity|]. apply (role_boxes_contain canvas_nodes _ eq_refl). Defined.

Lemma service_removal_exact_witness : exists impact,
  getServiceRemovalImpact (canvas_node "n3" "Billing API" Nginx []) canvas_edges [] = Return impact
  /\ Z.of_nat (length (removeServiceFromGraph canvas_nodes canvas_edges "n3").2) + im_connectedEdges impact = 1.
Proof.
  eexists. split; [reflexivity|].
  exact (proj1 (service_removal_exact (canvas_node "n3" "Billing API" Nginx []) canvas_nodes canvas_edges [] _ eq_refl)).
Defined.

Lemma suggestions_sound_witness : exists s, suggestConnections canvas_nodes canvas_edges = Return [s]
  /\ worthwhile canvas_nodes (set_of_list (map edge_key canvas_edges)) "n1:writes:n2" s.
Proof.
  eexists. split; [vm_compute; reflexivity|].
  refine (proj2 (suggestions_sound canvas_nodes canvas_edges _ _) _ (list_elem_of_here _ _)). vm_compute. reflexivity.
Defined.

Lemma journey_is_run_order_witness :
  map test_id (Journey.orderedScenarioTests [plain_test "a" "A" THttp []; plain_test "b" "B" THttp []] ["gone"; "b"]) = ["b"; "a"]
  /\ Journey.orderedScenarioTests [plain_test "a" "A" THttp []; plain_test "b" "B" THttp []] ["gone"; "b"]
     = orderTests [plain_test "a" "A" THttp []; plain_test "b" "B" THttp []] ["gone"; "b"].
Proof.
  split; [reflexivity|]. apply journey_is_run_order. cbn.
  repeat constructor; rewrite ?elem_of_cons, ?elem_of_nil; naive_solver.
Defined.

(** [friendlyName] finds an inherited property. *)
Example friendly_names : friendlyName "orders-api" = "Orders API" /\ friendlyName "user__db" = "User Db"
  /\ friendlyName "constructor" = "function Object() { [native code] }".
Proof. vm_compute. auto. Qed.
