(* ===== verification/BuilderFacts.v ===== *)
(** * The editor and the builder *)

From S2P Require Import Prelude FlowTypes SyncTypes ClientId FastQueue JsLib EdgeModel ScenarioTranslator TranslatorFacts.
From S2P Require Import SyncService SyncMiddleware WorkflowStore ScenarioStore ExecutionStore RunSnapshot Browser SyncHydrationFacts.
From S2P Require Import Canvas CanvasFacts Journey GraphEditor RunWorkflow RunWorkflowFacts Builder.
Open Scope Z_scope.

(** ** The editor *)
Section Editing.
Import GraphEditor.
Context `{D : Deque SyncChange}.
(** React Flow's [addEdge] adds at most the edge it is given. *)
Context (addEdge : FlowEdge -> list FlowEdge -> list FlowEdge)
        (addEdge_adds : forall e es x, x ∈ addEdge e es -> x = e \/ x ∈ es).

(** The edits of the hook. *)
Inductive Edit :=
| DeleteNode (nodeId : string)
| UpdateNode (node : FlowNode)
| AddNode (node : FlowNode)
| Connect (source target : string)
| UpdateEdge (edgeId : string) (data : EdgeData)
| SaveGuided (definition : GuidedEdge)
| DeleteEdge (edgeId : string).

Definition edit (op : Edit) (ed : Editor) (b : Browser) : Editor * Browser :=
  let out {A} (r : res A * Editor * Browser) := (r.1.2, r.2) in
  match op with
  | DeleteNode id => out (deleteNode id ed b)
  | UpdateNode node => out (updateNode node ed b)
  | AddNode node => out (addNode node ed b)
  | Connect s t => out (connectNodes addEdge s t ed b)
  | UpdateEdge id data => out (updateEdge id data ed b)
  | SaveGuided def => out (saveGuidedEdge addEdge def ed b)
  | DeleteEdge id => out (deleteEdge id ed b)
  end.

(** An edit by the user and the render that follows it. *)
Definition session_step (id : string) (c : Editor * Browser) (op : Edit) : Editor * Browser :=
  let '(ed, b) := edit op c.1 c.2 in
  (render (WorkflowStore.getWorkflow id (state (br_workflows b))) true ed, b).
Definition session (id : string) (ops : list Edit) (c : Editor * Browser) : Editor * Browser := fold_left (session_step id) ops c.

(** The editor shows the stored workflow, has rendered, and no connection dangles. *)
Definition in_step (id user : string) (c : Editor * Browser) : Prop :=
  let '(ed, b) := c in
  ge_nodesRef ed = ge_nodes ed /\ ge_edgesRef ed = ge_edges ed /\ closed_graph (ge_nodes ed) (ge_edges ed)
  /\ getUserId (br_host b) = Return user
  /\ exists wf, WorkflowStore.getWorkflow id (state (br_workflows b)) = Some wf /\ ge_workflow ed = Some wf
      /\ WorkflowStore.wf_id wf = id /\ WorkflowStore.wf_nodes wf = ge_nodes ed
      /\ normalizeEdges (WorkflowStore.wf_edges wf) false = ge_edges ed.

Lemma find_node_in id nodes n : find_node id nodes = Some n -> node_id n = id /\ id ∈ map node_id nodes.
Proof.
  intros H. apply find_some in H as [Hin Hid]. apply bool_decide_eq_true_1 in Hid. split; [done|].
  rewrite <- Hid. by apply list_elem_of_In, in_map.
Qed.

Lemma closed_replace nodes edges (f : FlowEdge -> FlowEdge) :
  (forall e, e ∈ edges -> (edge_source (f e) = edge_source e /\ edge_target (f e) = edge_target e)
     \/ (edge_source (f e) ∈ map node_id nodes /\ edge_target (f e) ∈ map node_id nodes)) ->
  closed_graph nodes edges -> closed_graph nodes (map f edges).
Proof.
  unfold closed_graph. rewrite !Forall_forall. intros Hf H e (e0 & -> & He)%list_elem_of_fmap.
  destruct (Hf e0 He) as [[-> ->]|]; [by apply H|done].
Qed.

Lemma closed_add nodes e edges : edge_source e ∈ map node_id nodes -> edge_target e ∈ map node_id nodes ->
  closed_graph nodes edges -> closed_graph nodes (addEdge e edges).
Proof.
  unfold closed_graph. rewrite !Forall_forall. intros Hs Ht H x Hx. destruct (addEdge_adds _ _ _ Hx) as [->|]; [done|].
  by apply H.
Qed.

Lemma closed_nodes nodes nodes' edges : (forall x, x ∈ map node_id nodes -> x ∈ map node_id nodes') ->
  closed_graph nodes edges -> closed_graph nodes' edges.
Proof. unfold closed_graph. rewrite !Forall_forall. intros Hn H e He. destruct (H e He). by split; apply Hn. Qed.

(** Every edit either does nothing or saves a closed graph, which it also shows. *)
Lemma edit_spec op ed b : ge_nodesRef ed = ge_nodes ed -> ge_edgesRef ed = ge_edges ed ->
  closed_graph (ge_nodes ed) (ge_edges ed) ->
  edit op ed b = (ed, b)
  \/ exists ns es ed', closed_graph ns es /\ edit op ed b = (ed', (save ns es ed b).2)
     /\ ge_workflow ed' = ge_workflow ed.
Proof.
  intros Hn He Hc. unfold edit, deleteNode, updateNode, addNode, connectNodes, updateEdge, saveGuidedEdge, deleteEdge.
  rewrite Hn, He. unfold then_set, saved.
  destruct op as [id|node|node|s t|id data|def|id].
  - right. pose proof (removal_closed _ _ id Hc) as H. destruct (Canvas.removeServiceFromGraph _ _ id) as [ns es].
    exists ns, es. destruct (save ns es ed b) as [r b']. by eexists.
  - right. eexists _, _. destruct (save _ _ ed b) as [r b'] eqn:E. eexists. split; [|split; [rewrite E; reflexivity|done]].
    eapply closed_nodes; [|exact Hc]. intros x (n & -> & Hin)%list_elem_of_fmap. apply list_elem_of_fmap.
    destruct (decide (node_id n = node_id node)) as [Hd|Hd].
    + exists node. split; [done|]. apply list_elem_of_fmap. exists n. by rewrite decide_True.
    + exists n. split; [done|]. apply list_elem_of_fmap. exists n. by rewrite decide_False.
  - right. eexists _, _. destruct (save _ _ ed b) as [r b'] eqn:E. eexists. split; [|split; [rewrite E; reflexivity|done]].
    eapply closed_nodes; [|exact Hc]. intros x Hx. rewrite map_app. apply elem_of_app. by left.
  - destruct (find_node s (ge_nodes ed)) as [ns|] eqn:Es; [|by left].
    destruct (find_node t (ge_nodes ed)) as [nt|] eqn:Et; [|by left].
    destruct (inferEdgeData ns nt) as [d|e]; [|by left]. right.
    apply find_node_in in Es as [_ Es], Et as [_ Et]. eexists _, _.
    destruct (save _ _ ed b) as [[r|e] b'] eqn:E; eexists;
      (split; [|split; [rewrite E; reflexivity|done]]); by apply closed_add.
  - right. eexists _, _. destruct (save _ _ ed b) as [r b'] eqn:E. eexists. split; [|split; [rewrite E; reflexivity|done]].
    apply closed_replace; [|done]. intros e _. left. by case_decide.
  - destruct (find_node _ (ge_nodes ed)) as [ns|] eqn:Es; [|by left].
    destruct (find_node (gd_target def) (ge_nodes ed)) as [nt|] eqn:Et; [|by left].
    case_decide; [by left|]. destruct (inferEdgeData ns nt) as [d|e]; [|by left]. right.
    apply find_node_in in Es as [Es Es2], Et as [Et Et2]. eexists _, _.
    destruct (save _ _ ed b) as [r b'] eqn:E. eexists. split; [|split; [rewrite E; reflexivity|done]].
    destruct (existing_edge _ _ _ _ _) as [old|].
    + apply closed_replace; [|done]. intros e _. case_decide; [right; simpl; by rewrite Es, Et|by left].
    + apply closed_add; simpl; [by rewrite Es|by rewrite Et|done].
  - assert (Hf : closed_graph (ge_nodes ed) (filter (fun e => edge_id e <> id) (ge_edges ed))).
    { unfold closed_graph in *. rewrite Forall_forall in *. intros e [_ Hin]%list_elem_of_filter. by apply Hc. }
    right. eexists _, _. destruct (save _ _ ed b) as [[r|e] b'] eqn:E; eexists;
      (split; [|split; [rewrite E; reflexivity|by try case_decide]]); exact Hf.
Qed.
Lemma save_spec ns es ed b wf id user : ge_workflow ed = Some wf -> WorkflowStore.wf_id wf = id ->
  WorkflowStore.getWorkflow id (state (br_workflows b)) = Some wf -> getUserId (br_host b) = Return user ->
  exists wf', WorkflowStore.getWorkflow id (state (br_workflows (save ns es ed b).2)) = Some wf'
    /\ WorkflowStore.wf_id wf' = id /\ WorkflowStore.wf_nodes wf' = ns /\ WorkflowStore.wf_edges wf' = es
    /\ getUserId (br_host (save ns es ed b).2) = Return user.
Proof.
  unfold WorkflowStore.getWorkflow. intros Hw Hid Hl Hu. unfold save. rewrite Hw, Hid.
  unfold in_workflows, WorkflowStore.updateWorkflowGraph, mbind, StoreM_bind, trackSync, WorkflowStore.set, syncSet. cbn.
  unfold WorkflowStore.rewritten. cbn. rewrite Hl. unfold addSyncMetadata. rewrite Hu.
  pose proof (client_id_user (br_host b)) as Hc. rewrite Hu in Hc.
  destruct (getOrCreateClientId (br_host b)) as [cid h]. cbn in *.
  destruct (str_truthy id); cbn; rewrite jlookup_insert_eq; (eexists; split; [reflexivity|]); by split_and!.
Qed.

Lemma closed_normalize nodes edges : closed_graph nodes edges -> closed_graph nodes (normalizeEdges edges false).
Proof. apply closed_replace. intros e _. by left. Qed.

Lemma session_step_ok id user c op : in_step id user c -> in_step id user (session_step id c op).
Proof.
  destruct c as [ed b]. intros (Hn & He & Hc & Hu & wf & Hl & Hw & Hid & Hns & Hes). unfold session_step. cbn [fst snd].
  destruct (edit_spec op ed b Hn He Hc) as [->|(ns & es & ed' & Hc' & -> & Hw')].
  - rewrite Hl. cbn. rewrite Hl, Hns, Hes. split_and!; try done. by exists wf.
  - destruct (save_spec ns es ed b wf id user Hw Hid Hl Hu) as (wf' & Hl' & Hid' & Hns' & Hes' & Hu').
    rewrite Hl'. cbn. rewrite Hl', Hns', Hes'. split_and!; try done; [by apply closed_normalize|].
    exists wf'. by rewrite Hes'.
Qed.


Lemma guided_edge_data definition ed b r ed' b' : saveGuidedEdge addEdge definition ed b = (Return (Some r), ed', b') ->
  exists relation, edge_data r = Some (merge_data (relation_data relation) (gd_data definition)).
Proof.
  unfold saveGuidedEdge. destruct (find_node (gd_source definition) _) as [s|]; [|by intros [=]].
  destruct (find_node (gd_target definition) _) as [t|]; [|by intros [=]].
  destruct (decide (node_id s = node_id t)); [by intros [=]|].
  destruct (inferEdgeData s t) as [d|e] eqn:Ed; [|by intros [=]].
  unfold saved. destruct (save _ _ _ _) as [[u|e] b1]; [|by intros [=]]. intros [= <- _ _].
  unfold inferEdgeData in Ed. destruct (nd_service _) as [ss|]; [|done]. destruct (nd_service _) as [ts|]; [|done].
  injection Ed as <-. by eexists.
Qed.

(** A connection edited in the guided builder loses the label and the description it
    had: the new data is built from the inferred data and the form alone. *)
Theorem guided_edit_drops_label edge definition ed b r ed' b' : saveDraft (editDraft edge) = Some definition ->
  saveGuidedEdge addEdge definition ed b = (Return (Some r), ed', b') ->
  data_prop ed_label r = None /\ data_prop ed_description r = None /\ data_prop ed_layoutPoints r = None.
Proof.
  intros Hd [relation Hr]%guided_edge_data. unfold data_prop. rewrite Hr.
  unfold saveDraft in Hd. destruct (_ || _); [done|]. by injection Hd as <-.
Qed.
End Editing.

(** ** Launching *)
Import Builder.

(** The run button and its explanation agree.  Whenever the errors of the
    graph can be computed, the button is enabled exactly when no reason for
    disabling it is shown. *)
Theorem launch_iff_no_reason localeCompare v : 0 <= bv_queueSize v ->
  match canLaunchWorkflow localeCompare v, runDisabledReason localeCompare v with
  | Return enabled, Return reason => enabled = true <-> reason = None
  | Throw e, Throw e' => e = e'
  | _, _ => False
  end.
Proof.
  intros Hq. unfold canLaunchWorkflow, runDisabledReason, canExecute.
  destruct (displayedValidationErrors localeCompare v) as [errors|e]; [|done]. simpl.
  destruct (RunWorkflow.hs_isExecuting (bv_hook v)); simpl; [rewrite andb_false_r; simpl|].
  { destruct (bv_canRun v); simpl; rewrite ?andb_false_r; by split. }
  destruct (bv_canRun v); simpl; [|by split].
  destruct (Z.ltb_spec 0 (bv_queueSize v)) as [Hl|Hl].
  { rewrite (proj2 (Z.eqb_neq (bv_queueSize v) 0)) by lia. rewrite andb_false_r. by split. }
  rewrite (proj2 (Z.eqb_eq (bv_queueSize v) 0)) by lia.
  destruct (bv_nodes v) as [|n ns]; [by split|]. destruct (bv_scenarios v) as [|sc scs] eqn:Es; [by split|].
  cbn [length Nat.eqb Nat.ltb Nat.leb andb negb].
  destruct (hasRunnableTest v); [|by split]. cbn [andb negb].
  destruct errors as [|err errors]; [done|]. cbn [length Nat.eqb andb]. by split.
Qed.

Lemma by_message_keeps errors e : e ∈ errors -> by_message errors <> [].
Proof.
  intros He Hnil. unfold by_message in Hnil.
  assert (Hk : jkeys (jmap_of_pairs (map (fun e => (te_message e, e)) errors)) = [])
    by (unfold jkeys, jvalues in *; by destruct (entries _)).
  assert (H : forall (l : list (string * TranslationError)) (m : jmap string TranslationError),
    (length (jkeys m) <= length (jkeys (fold_left (fun m p => <[p.1 := p.2]> m) l m)))%nat).
  { clear. induction l as [|[k v] l IH]; intros m; [simpl; lia|]. cbn [fold_left].
    etransitivity; [|apply IH]. cbn [fst snd]. rewrite jkeys_insert.
    unfold set_add. case_match; rewrite ?length_app; simpl; lia. }
  destruct errors as [|e0 errors]; [by apply elem_of_nil in He|]. unfold jmap_of_pairs in Hk. cbn [map fold_left fst snd] in Hk.
  specialize (H (map (fun e => (te_message e, e)) errors) (<[te_message e0 := e0]> ∅)). rewrite Hk in H.
  rewrite jkeys_insert in H. simpl in H. lia.
Qed.

(** A failed validation locks the builder: the errors of the last [execute]
    stay among the errors shown, whatever is repaired afterwards, and while they are
    shown neither the run button nor the dialog's button can call [execute]
    again. *)
Theorem stale_validation_locks localeCompare v r e selected :
  RunWorkflow.hs_validationResult (bv_hook v) = Some r -> e ∈ vr_errors r ->
  canLaunchWorkflow localeCompare v <> Return true /\ submit_enabled localeCompare v selected <> Return true.
Proof.
  intros Hr He. unfold canLaunchWorkflow, submit_enabled, displayedValidationErrors. rewrite Hr.
  destruct (guidedValidationErrors localeCompare v) as [guided|e']; [|done]. simpl.
  assert (H : by_message (guided ++ vr_errors r) <> []) by (eapply by_message_keeps, elem_of_app; by right).
  destruct (by_message _) as [|x l]; [done|]. simpl. rewrite andb_false_r, orb_true_r. simpl. split; congruence.
Qed.

(** ** Keys *)
Import Keyboard.

(** On a Mac a shortcut with [ctrl] is shown with the command sign, but pressing
    command never triggers it: the modifier must equal [ctrl] and also be absent. *)
Theorem shown_mac_shortcut_dead (key : string) (e : KeyEvent) :
  formatShortcut true (plain "l" true) = "⌘L"
  /\ (ke_meta e = true -> matches (plain key true) e = false).
Proof.
  split; [reflexivity|]. intros Hm. unfold matches. rewrite Hm. simpl. by rewrite !andb_false_r.
Qed.

(** The question mark that needs the shift key does not open the list of shortcuts. *)
Theorem shifted_question_mark_dead target editable :
  handleKeyDown true builder_shortcuts (MkKeyEvent "?" false true false false target editable) = None.
Proof. unfold handleKeyDown. by destruct (_ || _). Qed.

(** Escape closes one open dialog at a time and does nothing when none is open. *)
Theorem escape_closes_one s :
  UIStore.open_dialogs (UIStore.closeDialogs s) = Nat.pred (UIStore.open_dialogs s).
Proof. destruct s as [[] [] [] [] [] ?]; reflexivity. Qed.

(** ** Witnesses *)
#[local] Existing Instance FastQueue.fast_queue_deque.

Definition append_edge (e : FlowEdge) (es : list FlowEdge) : list FlowEdge := es ++ [e].
Lemma append_edge_adds e es x : x ∈ append_edge e es -> x = e \/ x ∈ es.
Proof. unfold append_edge. rewrite elem_of_app, elem_of_cons, elem_of_nil. naive_solver. Qed.

Definition drawn_workflow : WorkflowStore.Workflow :=
  WorkflowStore.MkWorkflow "w1" "p1" "Demo" None canvas_nodes (normalizeEdges canvas_edges false) None None
    (MkMeta 1 "t0" "t0" "user-1" "client-1" false).
Definition drawn_editor : GraphEditor.Editor := GraphEditor.render (Some drawn_workflow) true (GraphEditor.mounted (Some drawn_workflow)).
Definition drawn_browser : Browser :=
  MkBrowser (WorkflowStore.demo_browser sample_host)
    (MkStore (WorkflowStore.MkState (<["w1" := drawn_workflow]> ∅) (Some "w1") None true) ∅ [])
    (MkStore ScenarioStore.demo_state ∅ []) (demo_stores 1).
Definition drawn_edits : list Edit :=
  [SaveGuided (GraphEditor.MkGuidedEdge None "n1" "n2" None); DeleteNode "n3"; AddNode (canvas_node "n4" "Cache" Redis [])].


Definition labelled_edge : FlowEdge :=
  MkEdge "e1" "n1" "n3" (Some "dataFlow")
    (Some (MkEdgeData (Some "places orders") None None (Some "calls") (Some "none") None None None)).

Lemma guided_edit_drops_label_witness : exists definition r ed' b',
  GraphEditor.saveDraft (GraphEditor.editDraft labelled_edge) = Some definition
  /\ GraphEditor.saveGuidedEdge append_edge definition drawn_editor drawn_browser = (Return (Some r), ed', b')
  /\ data_prop ed_label labelled_edge = Some "places orders" /\ data_prop ed_label r = None.
Proof.
  set (definition := default (GraphEditor.MkGuidedEdge None "" "" None) (GraphEditor.saveDraft (GraphEditor.editDraft labelled_edge))).
  exists definition. destruct (GraphEditor.saveGuidedEdge append_edge definition drawn_editor drawn_browser) as [[[[r|]|] ed'] b'] eqn:E;
    [|vm_compute in E; discriminate E|vm_compute in E; discriminate E].
  exists r, ed', b'. split; [reflexivity|]. split; [first [exact E | reflexivity]|]. split; [reflexivity|].
  exact (proj1 (guided_edit_drops_label append_edge labelled_edge definition drawn_editor drawn_browser r ed' b' eq_refl E)).
Defined.

Definition drawn_view (r : option ValidationResult) : View :=
  MkView demo_nodes demo_edges [demo_chosen "s1"] true true (RunWorkflow.MkHookState false r [] [] None) 0.

Lemma launch_iff_no_reason_witness : canLaunchWorkflow (fun _ _ => 0) (drawn_view None) = Return true
  /\ match canLaunchWorkflow (fun _ _ => 0) (drawn_view None), runDisabledReason (fun _ _ => 0) (drawn_view None) with
     | Return enabled, Return reason => enabled = true <-> reason = None
     | Throw e, Throw e' => e = e'
     | _, _ => False
     end.
Proof. split; [vm_compute; reflexivity|]. apply launch_iff_no_reason. vm_compute. discriminate. Defined.

Lemma stale_validation_locks_witness :
  canLaunchWorkflow (fun _ _ => 0) (drawn_view (Some (MkValidation false [plain_error "Re-enter"] []))) <> Return true.
Proof.
  exact (proj1 (stale_validation_locks (fun _ _ => 0) (drawn_view (Some (MkValidation false [plain_error "Re-enter"] [])))
    (MkValidation false [plain_error "Re-enter"] []) (plain_error "Re-enter") [] eq_refl (list_elem_of_here _ _))).
Defined.

Lemma shown_mac_shortcut_dead_witness :
  handleKeyDown true builder_shortcuts (MkKeyEvent "l" false false false true "BODY" false) = None
  /\ matches (plain "l" true) (MkKeyEvent "l" false false false true "BODY" false) = false.
Proof.
  split; [reflexivity|]. exact (proj2 (shown_mac_shortcut_dead "l" (MkKeyEvent "l" false false false true "BODY" false)) eq_refl).
Defined.
