(* ===== verification/Defaults.v ===== *)
(** * Defaults, recipes and the test form: [ui-v2/src/modules/workflow/lib/workflow-defaults.ts],
      [lib/scenario-recipes.ts] and the helpers of [components/TestConfigForm.tsx]

    [fresh i] is the [i]-th id [generateId] gives in one call.  The numbers the
    form parses are integers; the parser of numbers and of JSON text are arguments. *)

From S2P Require Import Prelude FlowTypes JsLib ServiceNames TestRetry Canvas.
From Stdlib Require Import Ascii.
Open Scope Z_scope.

Module Defaults.
(** ** Services *)
Definition labels (type : ServiceType) : string :=
  match type with
  | Generic => "Application" | Postgres => "PostgreSQL" | Mysql => "MySQL" | Mariadb => "MariaDB" | Redis => "Redis"
  | Memcached => "Memcached" | Kafka => "Kafka" | Rabbitmq => "RabbitMQ" | Mongodb => "MongoDB" | Nginx => "Nginx"
  | Mockserver => "MockServer"
  end.

Definition images (type : ServiceType) : string :=
  match type with
  | Generic => "" | Postgres => "postgres:16-alpine" | Mysql => "mysql:8.4" | Mariadb => "mariadb:11"
  | Redis => "redis:7-alpine" | Memcached => "memcached:1.6-alpine" | Kafka => "confluentinc/confluent-local:7.5.0"
  | Rabbitmq => "rabbitmq:3.13-management-alpine" | Mongodb => "mongo:7" | Nginx => "nginx:1.30.4-alpine"
  | Mockserver => "mockserver/mockserver:5.15.0"
  end.

Definition ports (type : ServiceType) : list string :=
  match type with
  | Generic => ["8080"] | Postgres => ["5432"] | Mysql => ["3306"] | Mariadb => ["3306"] | Redis => ["6379"]
  | Memcached => ["11211"] | Kafka => ["9092"] | Rabbitmq => ["5672"] | Mongodb => ["27017"] | Nginx => ["80"; "443"]
  | Mockserver => ["1080"]
  end.

Definition environmentPresets (type : ServiceType) : list (string * string) :=
  match type with
  | Postgres => [("POSTGRES_DB", "testdb"); ("POSTGRES_USER", "postgres"); ("POSTGRES_PASSWORD", "postgres")]
  | Mysql => [("MYSQL_ROOT_PASSWORD", "root"); ("MYSQL_DATABASE", "testdb"); ("MYSQL_USER", "root"); ("MYSQL_PASSWORD", "root")]
  | Mariadb => [("MARIADB_DATABASE", "testdb"); ("MARIADB_USER", "root"); ("MARIADB_PASSWORD", "root");
                ("MARIADB_ROOT_PASSWORD", "root")]
  | Kafka => [("CLUSTER_ID", "test-cluster")]
  | Rabbitmq => [("RABBITMQ_DEFAULT_USER", "guest"); ("RABBITMQ_DEFAULT_PASS", "guest")]
  | Mongodb => [("MONGO_INITDB_DATABASE", "testdb"); ("MONGO_INITDB_ROOT_USERNAME", "admin");
                ("MONGO_INITDB_ROOT_PASSWORD", "admin")]
  | _ => []
  end.

Definition serviceTypeDefaults (fresh : nat -> string) (type : ServiceType) : ServiceNodeData :=
  let env := imap (fun i '(key, value) => MkEnv (fresh i) key value) (environmentPresets type) in
  let servicePorts := ports type in
  MkNodeData (Some (labels type)) None
    (Some (MkNodeService type (Some (images type)) (Some [])
       (Some (imap (fun i port => MkPort (fresh (length env + i)%nat) port port) servicePorts))
       (Some env) (Some (MkNodeWait true "port" (head servicePorts) (Some 30))) (Some [])
       (if bool_decide (type = Mockserver) then Some [] else None) None)) None.

Definition service_view : jmap string JsonValue := JMap [("type", JStr "serviceNode")].

Definition createDefaultServiceNode (fresh : nat -> string) (id : string) (position : Z * Z) (type : ServiceType) : FlowNode :=
  MkNode id position service_view (serviceTypeDefaults fresh type).

(** ** Tests *)
Fixpoint firstService (nodes : list FlowNode) (types : list ServiceType) : res (option FlowNode) :=
  match nodes with
  | [] => Return None
  | node :: rest =>
      t ← Canvas.node_type node;
      if set_has t types then Return (Some node) else firstService rest types
  end.

Definition type_of (node : option FlowNode) : option ServiceType :=
  n ← node; svc ← nd_service (node_data n); Some (svc_type svc).
Definition is_type (node : option FlowNode) (t : ServiceType) : bool := bool_decide (type_of node = Some t).

Definition environmentValue (node : option FlowNode) (keys : list string) (fallback : string) : string :=
  default fallback (n ← node; svc ← nd_service (node_data n); env ← svc_env svc;
    env_value <$> List.find (fun e => set_has (env_key e) keys) env).

Definition first_port (node : option FlowNode) (d : string) : string :=
  ostr_or (n ← node; svc ← nd_service (node_data n); ps ← svc_ports svc; containerPort <$> head ps) d.

(** A test without retry policy and dependencies. *)
Definition new_test (id name : string) (type : TestType) (targets : list string) : ScenarioTestDefinition :=
  MkTest id name type (Some targets) None None None None None None None None None.
Definition set_http (c : HttpConfig) (t : ScenarioTestDefinition) : ScenarioTestDefinition :=
  MkTest (test_id t) (test_name t) (test_type t) (test_targetServices t) (test_dependsOnTestIds t) (test_retryPolicy t)
    (test_databaseConfig t) (test_documentConfig t) (Some c) (test_shellConfig t) (test_cacheConfig t) (test_queueConfig t)
    (test_delayConfig t).
Definition set_database (c : DatabaseConfig) (t : ScenarioTestDefinition) : ScenarioTestDefinition :=
  MkTest (test_id t) (test_name t) (test_type t) (test_targetServices t) (test_dependsOnTestIds t) (test_retryPolicy t)
    (Some c) (test_documentConfig t) (test_httpConfig t) (test_shellConfig t) (test_cacheConfig t) (test_queueConfig t)
    (test_delayConfig t).
Definition set_document (c : DocumentConfig) (t : ScenarioTestDefinition) : ScenarioTestDefinition :=
  MkTest (test_id t) (test_name t) (test_type t) (test_targetServices t) (test_dependsOnTestIds t) (test_retryPolicy t)
    (test_databaseConfig t) (Some c) (test_httpConfig t) (test_shellConfig t) (test_cacheConfig t) (test_queueConfig t)
    (test_delayConfig t).
Definition set_cache (c : CacheConfig) (t : ScenarioTestDefinition) : ScenarioTestDefinition :=
  MkTest (test_id t) (test_name t) (test_type t) (test_targetServices t) (test_dependsOnTestIds t) (test_retryPolicy t)
    (test_databaseConfig t) (test_documentConfig t) (test_httpConfig t) (test_shellConfig t) (Some c) (test_queueConfig t)
    (test_delayConfig t).
Definition set_queue (c : QueueConfig) (t : ScenarioTestDefinition) : ScenarioTestDefinition :=
  MkTest (test_id t) (test_name t) (test_type t) (test_targetServices t) (test_dependsOnTestIds t) (test_retryPolicy t)
    (test_databaseConfig t) (test_documentConfig t) (test_httpConfig t) (test_shellConfig t) (test_cacheConfig t) (Some c)
    (test_delayConfig t).
Definition set_shell (c : ShellConfig) (t : ScenarioTestDefinition) : ScenarioTestDefinition :=
  MkTest (test_id t) (test_name t) (test_type t) (test_targetServices t) (test_dependsOnTestIds t) (test_retryPolicy t)
    (test_databaseConfig t) (test_documentConfig t) (test_httpConfig t) (Some c) (test_cacheConfig t) (test_queueConfig t)
    (test_delayConfig t).
Definition set_delay (ms : Z) (t : ScenarioTestDefinition) : ScenarioTestDefinition :=
  MkTest (test_id t) (test_name t) (test_type t) (test_targetServices t) (test_dependsOnTestIds t) (test_retryPolicy t)
    (test_databaseConfig t) (test_documentConfig t) (test_httpConfig t) (test_shellConfig t) (test_cacheConfig t)
    (test_queueConfig t) (Some ms).

(** [sanitizeName(node.data.label)], or the fallback without a node. *)
Definition targetName (fallback : string) (node : option FlowNode) : res string :=
  match node with Some n => nodeName n | None => Return fallback end.
Definition targets_of (name : string) : list string := if str_truthy name then [name] else [].

Definition createDefaultTest (type : TestType) (nodes : list FlowNode) (fallbackServices : list string) (id : string)
    : res ScenarioTestDefinition :=
  let fallback := default "" (head fallbackServices) in
  match type with
  | THttp =>
      node ← firstService nodes [Generic; Nginx; Mockserver];
      target ← targetName fallback node;
      Return (set_http (MkHttpConfig "GET" (if is_type node Nginx then "/" else "/health") (first_port node "8080") None None
                          (Some 200) None)
        (new_test id (if is_type node Nginx then "Check Nginx response"
                      else if is_type node Mockserver then "Check mocked response"
                      else "Check application health") THttp (targets_of target)))
  | TDatabase =>
      node ← firstService nodes [Postgres; Mysql; Mariadb];
      target ← targetName fallback node;
      let driver := default Postgres (type_of node) in
      let account := if decide (driver = Postgres) then "postgres" else "root" in
      Return (set_database (MkDatabaseConfig (service_type_name driver)
          (environmentValue node ["POSTGRES_DB"; "MYSQL_DATABASE"; "MARIADB_DATABASE"] "testdb")
          (environmentValue node ["POSTGRES_USER"; "MYSQL_USER"; "MARIADB_USER"] account)
          (environmentValue node ["POSTGRES_PASSWORD"; "MYSQL_PASSWORD"; "MARIADB_PASSWORD"] account)
          "SELECT 1 AS tokyo_ready" (Some (JObj [("mode", JStr "rows"); ("value", JBool true)])))
        (new_test id "Check database connection" TDatabase (targets_of target)))
  | TDocument =>
      node ← firstService nodes [Mongodb];
      service ← targetName fallback node;
      Return (set_document (MkDocumentConfig service (environmentValue node ["MONGO_INITDB_DATABASE"] "testdb") "health_checks"
          "exists" None (Some (JObj [])) None None None None (Some true))
        (new_test id "Check document store" TDocument (targets_of service)))
  | TCache =>
      node ← firstService nodes [Redis; Memcached];
      service ← targetName fallback node;
      Return (set_cache (MkCacheConfig service (if is_type node Memcached then "memcached" else "redis") "ping"
          None None None None None (Some 0) None)
        (new_test id "Check cache connection" TCache (targets_of service)))
  | TQueue =>
      node ← firstService nodes [Kafka; Rabbitmq];
      service ← targetName fallback node;
      Return (set_queue (MkQueueConfig service (if is_type node Rabbitmq then "rabbitmq" else "kafka") "list_topics"
          None None None None (Some 10) None None None None)
        (new_test id "Check message broker connection" TQueue (targets_of service)))
  | TShell =>
      node ← firstService nodes [Generic];
      target ← targetName fallback node;
      Return (set_shell (MkShellConfig "" (Some ∅) None (Some 0))
        (new_test id "Run an application command" TShell (targets_of target)))
  | TDelay => Return (set_delay 1000 (new_test id "Wait for the next step" TDelay []))
  end.
End Defaults.

(** ** [lib/scenario-recipes.ts] *)
Module Recipes.
Import Defaults.

Inductive ScenarioRecipeKind := HttpSmoke | RedisRoundTrip | DatabaseCheck | QueueRoundTrip.

Record ScenarioRecipe := MkRecipe {
  rc_kind : ScenarioRecipeKind;
  rc_label : string;
  rc_description : string;
  rc_serviceTypes : list ServiceType
}.

Definition recipe_of (kind : ScenarioRecipeKind) : ScenarioRecipe :=
  match kind with
  | HttpSmoke => MkRecipe HttpSmoke "API smoke check" "Call an application endpoint and expect a successful response."
                   [Generic; Nginx; Mockserver]
  | RedisRoundTrip => MkRecipe RedisRoundTrip "Redis round trip" "Store a run-scoped value and read it back." [Redis]
  | DatabaseCheck => MkRecipe DatabaseCheck "Database connection" "Run a safe query that verifies database access."
                       [Postgres; Mysql; Mariadb]
  | QueueRoundTrip => MkRecipe QueueRoundTrip "Message round trip" "Publish a run-scoped message and consume it."
                        [Kafka; Rabbitmq]
  end.

Definition SCENARIO_RECIPES : list ScenarioRecipe := map recipe_of [HttpSmoke; RedisRoundTrip; DatabaseCheck; QueueRoundTrip].

Definition add_first (recipe : ScenarioRecipe) : string :=
  "Add a " +:+ join " or " (map service_type_name (rc_serviceTypes recipe)) +:+ " service first.".

(** The reason why the recipe is not available. *)
Definition recipeAvailability (recipe : ScenarioRecipe) (nodes : list FlowNode) : res (option string) :=
  node ← firstService nodes (rc_serviceTypes recipe);
  Return (match node with Some _ => None | None => Some (add_first recipe) end).

(** [node.data.service.mockServer?.expectations[0]?.request.path ?? "/"]; an
    expectation without a request throws. *)
Definition expectation_path (node : FlowNode) : res string :=
  match svc ← nd_service (node_data node); svc_mockServer svc with
  | Some (ex :: _) =>
      match ex_request ex with
      | Some request => Return (default "/" (mr_path request))
      | None => Throw JsTypeError
      end
  | _ => Return "/"
  end.

(** [Check ${node.data.label}] and the like. *)
Definition checks (node : FlowNode) (suffix : string) : string :=
  "Check " +:+ default "undefined" (nd_label (node_data node)) +:+ suffix.

Definition hello : string := "hello from Tokyo Tester".
Definition run_suffix : string := "${tokyo.run_suffix}".

Definition createScenarioRecipe (fresh : nat -> string) (kind : ScenarioRecipeKind) (nodes : list FlowNode)
    : res (list ScenarioTestDefinition) :=
  let recipe := recipe_of kind in
  found ← firstService nodes (rc_serviceTypes recipe);
  match found with
  | None => Throw (JsError (add_first recipe))
  | Some node =>
      service ← nodeName node;
      match kind with
      | HttpSmoke =>
          path ← expectation_path node;
          Return [set_http (MkHttpConfig "GET" path (first_port (Some node) "80") None None (Some 200) None)
                    (new_test (fresh 0%nat) (checks node "") THttp [service])]
      | RedisRoundTrip =>
          let key := "tokyo:" +:+ run_suffix +:+ ":sample" in
          Return [set_cache (MkCacheConfig service "redis" "set" (Some key) (Some (JStr hello)) None None (Some 300) (Some 0) None)
                    (new_test (fresh 0%nat) "Store a run-scoped Redis value" TCache [service]);
                  set_cache (MkCacheConfig service "redis" "get" (Some key) None (Some (JStr hello)) None None (Some 0) None)
                    (new_test (fresh 1%nat) "Read the Redis value" TCache [service])]
      | DatabaseCheck =>
          let driver := service_type_name (default Postgres (type_of (Some node))) in
          Return [set_database (MkDatabaseConfig driver "" "" "" "SELECT 1 AS tokyo_ready"
                      (Some (JObj [("mode", JStr "rows"); ("value", JBool true)])))
                    (new_test (fresh 0%nat) (checks node " connection") TDatabase [service])]
      | QueueRoundTrip =>
          Return [set_queue (MkQueueConfig service (if is_type (Some node) Rabbitmq then "rabbitmq" else "kafka")
                      "produce_and_consume" (Some ("tokyo-" +:+ run_suffix +:+ "-sample")) (Some (JStr hello)) None None
                      (Some 10) None (Some 1) (Some (JStr hello)) None)
                    (new_test (fresh 0%nat) "Publish and consume a run-scoped message" TQueue [service])]
      end
  end.
End Recipes.

(** ** The test form *)
Module TestForm.
Import Defaults.

Definition inferQueueBrokerType (serviceName : option string) : string :=
  let lower := toLowerCase (ostr_or serviceName "") in
  if str_includes "rabbitmq" lower || str_includes "rabbit" lower then "rabbitmq" else "kafka".

Definition newline : ascii := ascii_of_nat 10.

(** [line.indexOf("=")]: the text before and after the first equals sign. *)
Fixpoint cut_at (c : ascii) (s : string) : option (string * string) :=
  match s with
  | EmptyString => None
  | String a s' =>
      if decide (a = c) then Some (EmptyString, s')
      else match cut_at c s' with Some (l, r) => Some (String a l, r) | None => None end
  end.

Definition env_entry (line : string) : string * string :=
  match cut_at "="%char line with
  | None => (line, "")
  | Some (key, value) => (js_trim key, js_trim value)
  end.

Definition parseEnvLines (value : string) : jmap string string :=
  jmap_of_pairs (filter (fun kv => str_truthy kv.1 = true)
    (map env_entry (filter (fun line => str_truthy line = true) (map js_trim (split_on newline value))))).

Definition formatEnvLines (value : option (jmap string string)) : string :=
  match value with
  | None => ""
  | Some m => join (String newline EmptyString) (map (fun '(key, entry) => key +:+ "=" +:+ entry) (entries m))
  end.

(** *** Numbers and JSON *)
Section Parsing.
(** [Number(text)], [None] when it is not a number; [JSON.parse]. *)
Context (js_number : string -> option Z) (parse_json : string -> option JsonValue).

Definition number_or_text (value : string) : JsonValue :=
  match js_number value with Some n => JNum n | None => JStr value end.

Definition parsePrimitive (value : string) : JsonValue :=
  if decide (value = "true") then JBool true
  else if decide (value = "false") then JBool false
  else number_or_text value.

Definition parseScalarValue (value : string) : JsonValue := if decide (value = "") then JStr "" else number_or_text value.

Definition comma_items (value : string) : list string :=
  filter (fun item => str_truthy item = true) (map js_trim (split_on ","%char value)).
Definition parsePrimitiveList (value : string) : list JsonValue := map parsePrimitive (comma_items value).
Definition parseScalarList (value : string) : list JsonValue := map parseScalarValue (comma_items value).

Definition parseJSONValue (value : string) : option JsonValue :=
  if str_truthy (js_trim value) then parse_json value else None.

Definition parseJSONObject (value : string) : option (list (string * JsonValue)) :=
  match parseJSONValue value with Some (JObj fields) => Some fields | _ => None end.

Record ColumnRules := MkRules {
  cr_value : option JsonValue;
  cr_in : option (list JsonValue);
  cr_contains : option string
}.

Definition is_scalar (v : JsonValue) : bool := match v with JStr _ | JNum _ => true | _ => false end.

Definition column_rules (rules : list (string * JsonValue)) : ColumnRules :=
  let get k := assoc_get k rules in
  MkRules (match get "value" with Some v => if is_scalar v then Some v else None | None => None end)
    (match get "in" with Some (JArr l) => Some (filter (fun v => is_scalar v = true) l) | _ => None end)
    (match get "contains" with Some (JStr s) => Some s | _ => None end).

Definition parseColumnRules (value : string) : option (jmap string ColumnRules) :=
  match parseJSONObject value with
  | None => None
  | Some fields =>
      Some (fold_left (fun result '(column, raw) =>
        match raw with JObj rules => <[column := column_rules rules]> result | _ => result end) fields ∅)
  end.
End Parsing.

(** *** Delays *)
Inductive DelayUnit := Ms | Sec | Min.

Definition inferDelayUnit (durationMs : Z) : DelayUnit :=
  if (60000 <=? durationMs) && (durationMs mod 60000 =? 0) then Min
  else if (1000 <=? durationMs) && (durationMs mod 1000 =? 0) then Sec
  else Ms.

(** The quotient of a duration that the unit divides. *)
Definition convertDurationToUnit (durationMs : Z) (unit : DelayUnit) : Z :=
  match unit with Min => durationMs / 60000 | Sec => durationMs / 1000 | Ms => durationMs end.
Definition convertUnitToDuration (value : Z) (unit : DelayUnit) : Z :=
  match unit with Min => value * 60000 | Sec => value * 1000 | Ms => value end.

(** *** Changing a test *)
Definition withTypeDefaults (test : ScenarioTestDefinition) (type : TestType) (serviceNodes : list FlowNode)
    (availableServices : list string) : res ScenarioTestDefinition :=
  defaults ← createDefaultTest type serviceNodes availableServices (test_id test);
  Return (MkTest (test_id defaults) (test_name test) (test_type defaults) (test_targetServices defaults)
    (test_dependsOnTestIds test)
    ((fun p => MkRetryPolicy (rp_mode p) false) <$> test_retryPolicy test)
    (test_databaseConfig defaults) (test_documentConfig defaults) (test_httpConfig defaults) (test_shellConfig defaults)
    (test_cacheConfig defaults) (test_queueConfig defaults) (test_delayConfig defaults)).

Definition retarget (targets : list string) (t : ScenarioTestDefinition) : ScenarioTestDefinition :=
  MkTest (test_id t) (test_name t) (test_type t) (Some targets) (test_dependsOnTestIds t) (test_retryPolicy t)
    (test_databaseConfig t) (test_documentConfig t) (test_httpConfig t) (test_shellConfig t) (test_cacheConfig t)
    (test_queueConfig t) (test_delayConfig t).

Definition withPrimaryService (test : ScenarioTestDefinition) (service : string) : ScenarioTestDefinition :=
  let next := retarget (targets_of service) test in
  match test_type test with
  | TCache =>
      let c := default (MkCacheConfig "" "redis" "ping" None None None None None None None) (test_cacheConfig test) in
      set_cache (MkCacheConfig service (ca_cacheType c) (ca_operation c) (ca_key c) (ca_value c) (ca_expectedValue c)
        (ca_expectedExists c) (ca_ttl c) (ca_db c) (ca_password c)) next
  | TDocument =>
      let c := default (MkDocumentConfig "" "testdb" "" "find_one" None None None None None None None) (test_documentConfig test) in
      set_document (MkDocumentConfig service (doc_database c) (doc_collection c) (doc_operation c) (doc_document c) (doc_filter c)
        (doc_update c) (doc_expectedDocument c) (doc_expectedDocuments c) (doc_expectedCount c) (doc_expectedExists c)) next
  | TQueue =>
      let c := default (MkQueueConfig "" "" "produce" None None None None None None None None None) (test_queueConfig test) in
      set_queue (MkQueueConfig service (inferQueueBrokerType (Some service)) (qu_operation c) (qu_topic c) (qu_message c)
        (qu_key c) (qu_partition c) (qu_timeout c) (qu_fromBeginning c) (qu_expectedCount c) (qu_expectedMessage c)
        (qu_expectedExists c)) next
  | _ => next
  end.

(** [updateTest(testId, updater)] *)
Definition updateTest (testId : string) (updater : ScenarioTestDefinition -> ScenarioTestDefinition)
    (tests : list ScenarioTestDefinition) : list ScenarioTestDefinition :=
  map (fun t => if decide (test_id t = testId) then clearStaleIdempotencyConfirmation t (updater t) else t) tests.
Definition removeTest (testId : string) (tests : list ScenarioTestDefinition) : list ScenarioTestDefinition :=
  filter (fun t => test_id t <> testId) tests.

(** The units shown for the delays: the ones chosen before, the others inferred. *)
Definition delay_units (tests : list ScenarioTestDefinition) (current : jmap string DelayUnit) : jmap string DelayUnit :=
  fold_left (fun next t =>
    if decide (test_type t = TDelay)
    then <[test_id t := default (inferDelayUnit (default 1000 (test_delayConfig t))) (current !! test_id t)]> next
    else next) tests ∅.
End TestForm.
