(* ===== verification/DefaultsFacts.v ===== *)
(** * What the defaults and the test form guarantee *)

From S2P Require Import Prelude FlowTypes JsLib ServiceNames ScenarioTranslator TestRetry Canvas Defaults.
From Stdlib Require Import Ascii.
Open Scope Z_scope.
Import Defaults.

(** ** Services *)

(** A service dropped from the palette has nothing to repair, except the image a
    generic service must name. *)
Theorem default_service_valid fresh id position type :
  node_errors (createDefaultServiceNode fresh id position type)
  = if decide (type = Generic)
    then [field_error (createDefaultServiceNode fresh id position type) "Generic service must specify the docker image" "service.image"]
    else [].
Proof. by destruct type. Qed.

(** ** Default tests *)

(** The types of service a kind of test can be run against. *)
Definition compatible (type : TestType) : list ServiceType :=
  match type with
  | THttp => [Generic; Nginx; Mockserver]
  | TDatabase => [Postgres; Mysql; Mariadb]
  | TDocument => [Mongodb]
  | TCache => [Redis; Memcached]
  | TQueue => [Kafka; Rabbitmq]
  | TShell => [Generic]
  | TDelay => []
  end.

Lemma first_service_found nodes types n : firstService nodes types = Return (Some n) ->
  n ∈ nodes /\ exists t, Canvas.node_type n = Return t /\ t ∈ types.
Proof.
  induction nodes as [|m rest IH]; simpl; [done|]. destruct (Canvas.node_type m) as [t|e] eqn:Et; [|done]. simpl.
  destruct (set_has t types) eqn:Eh.
  - intros [= <-]. split; [apply list_elem_of_here|]. exists t. split; [done|]. by apply set_has_spec.
  - intros H. destruct (IH H) as [Hin Ht]. split; [by apply list_elem_of_further|done].
Qed.

(** The test made for a kind that has a compatible service targets that service, by
    the name the translator gives it, and has a name: alone in a scenario over
    the workflow's services it is accepted. *)
Theorem default_test_valid type nodes fallback id n name test graph :
  type <> TDelay -> firstService nodes (compatible type) = Return (Some n) -> nodeName n = Return name -> name <> "" ->
  createDefaultTest type nodes fallback id = Return test -> name ∈ map sc_name (services graph) ->
  test_targetServices test = Some [name] /\ vr_valid (validateScenario graph "Scenario" [test] [id]) = true.
Proof.
  intros Hty Hf Hn Hne Ht Hin. assert (Hs : str_truthy name = true) by (by apply str_truthy_spec).
  assert (H : test_targetServices test = Some [name] /\ test_dependsOnTestIds test = None
    /\ str_truthy (js_trim (test_name test)) = true).
  { destruct type; cbn [compatible] in Hf; unfold createDefaultTest in Ht; rewrite ?Hf in Ht; cbn [mbind res_bind] in Ht;
      try done; unfold targetName in Ht; cbn in Ht; rewrite ?Hn in Ht; cbn in Ht; injection Ht as <-; unfold targets_of;
      cbn; rewrite Hs; split_and!; try done; by repeat case_match. }
  destruct H as (H1 & H2 & H3). split; [done|]. unfold validateScenario. cbn [map concat duplicate_errors set_has].
  unfold test_errors. rewrite H1, H2, H3. cbn.
  assert (Hh : set_has name (set_of_list (map sc_name (services graph))) = true)
    by (by apply set_has_spec, elem_of_set_of_list). by rewrite Hh.
Qed.

(** A pause added in the builder makes its scenario unrunnable: the form gives a
    delay no target service and lets none be chosen, and the validation of a
    scenario demands one of every test. *)
Theorem delay_step_never_valid nodes fallback id test graph name tests order :
  createDefaultTest TDelay nodes fallback id = Return test -> test ∈ tests ->
  vr_valid (validateScenario graph name tests order) = false.
Proof.
  intros [= <-] Hin. set (t := set_delay 1000 (new_test id "Wait for the next step" TDelay [])) in *.
  assert (Hc : concat (map (test_errors (set_of_list (map sc_name (services graph))) tests) tests) <> []).
  { intros Hnil. apply list_elem_of_split in Hin as (l1 & l2 & E). rewrite E in Hnil at 2. rewrite map_app, concat_app in Hnil.
    by apply app_eq_nil in Hnil as [_ Hnil]. }
  unfold validateScenario. cbn [vr_valid]. apply bool_decide_eq_false. intros H.
  apply app_eq_nil in H as [_ H]. apply app_eq_nil in H as [_ H]. by apply app_eq_nil in H as [_ H].
Qed.

(** A recipe is offered exactly when it can be made: the tests it makes name the
    first service of a type it is for; otherwise both give the same reason. *)
Theorem recipe_offered_iff_made fresh kind nodes : Forall (fun n => is_Some (nd_label (node_data n))) nodes ->
  Forall (fun n => forall svc ex rest, nd_service (node_data n) = Some svc -> svc_mockServer svc = Some (ex :: rest) ->
            is_Some (ex_request ex)) nodes ->
  match Recipes.recipeAvailability (Recipes.recipe_of kind) nodes with
  | Return None => exists n name tests, n ∈ nodes /\ nodeName n = Return name
      /\ Recipes.createScenarioRecipe fresh kind nodes = Return tests
      /\ tests <> [] /\ Forall (fun t => test_targetServices t = Some [name]) tests
  | Return (Some reason) => Recipes.createScenarioRecipe fresh kind nodes = Throw (JsError reason)
  | Throw e => Recipes.createScenarioRecipe fresh kind nodes = Throw e
  end.
Proof.
  intros Hl Hm. unfold Recipes.recipeAvailability, Recipes.createScenarioRecipe.
  destruct (firstService nodes _) as [[n|]|e] eqn:Ef; [|done|done]. simpl.
  apply first_service_found in Ef as [Hin _]. rewrite Forall_forall in Hl, Hm.
  destruct (Hl n Hin) as [label Hlab]. unfold nodeName. rewrite Hlab. cbn [mbind res_bind].
  assert (Hp : exists path, Recipes.expectation_path n = Return path).
  { unfold Recipes.expectation_path. destruct (nd_service (node_data n)) as [svc|] eqn:Es; [|by eexists]. simpl.
    destruct (svc_mockServer svc) as [[|ex rest]|] eqn:Em; [by eexists| |by eexists].
    destruct (Hm n Hin svc ex rest Es Em) as [r ->]. by eexists. }
  destruct Hp as [path Hp].
  destruct kind; cbn [mbind res_bind]; rewrite ?Hp; exists n, (sanitizeName label); eexists;
    (split; [done|split; [by rewrite ?Hlab|split; [reflexivity|split; [done|by repeat constructor]]]]).
Qed.

(** ** Delays *)

(** A delay is shown in the largest unit that divides it, and what is shown
    denotes the same delay. *)
Theorem delay_unit_roundtrip durationMs : 0 < durationMs ->
  let unit := TestForm.inferDelayUnit durationMs in
  TestForm.convertUnitToDuration (TestForm.convertDurationToUnit durationMs unit) unit = durationMs
  /\ 1 <= TestForm.convertDurationToUnit durationMs unit.
Proof.
  intros Hd. unfold TestForm.inferDelayUnit.
  destruct (Z.leb_spec 60000 durationMs), (Z.eqb_spec (durationMs mod 60000) 0); simpl;
    try (split; [|apply Z.div_le_lower_bound; lia]; rewrite Z.mul_comm; symmetry; apply Z_div_exact_full_2; lia).
  all: destruct (Z.leb_spec 1000 durationMs), (Z.eqb_spec (durationMs mod 1000) 0); simpl;
    try (split; [|apply Z.div_le_lower_bound; lia]; rewrite Z.mul_comm; symmetry; apply Z_div_exact_full_2; lia).
  all: split; lia.
Qed.

(** Choosing the same broker again in the form may change the kind of broker: the form
    guesses from the service's name, the default from its type. *)
Theorem broker_guessed_from_name fresh id : exists test,
  let node := MkNode id (0, 0) service_view
    (MkNodeData (Some "Order Events") None (nd_service (serviceTypeDefaults fresh Rabbitmq)) None) in
  createDefaultTest TQueue [node] [] id = Return test
  /\ qu_brokerType <$> test_queueConfig test = Some "rabbitmq"
  /\ test_targetServices test = Some ["order_events"]
  /\ qu_brokerType <$> test_queueConfig (TestForm.withPrimaryService test "order_events") = Some "kafka".
Proof. eexists. cbn zeta. split; [vm_compute; reflexivity|]. vm_compute. auto. Qed.

(** ** Environment variables as lines *)
Import TestForm.

(** A text without white space at either end. *)
Definition tidy (s : string) : Prop := trim_start s = s /\ trim_end s = s.
Definition line_entry (kv : string * string) : Prop :=
  kv.1 <> "" /\ tidy kv.1 /\ tidy kv.2 /\ str_forallb (not_char "="%char) kv.1 = true
  /\ str_forallb (not_char newline) (kv.1 +:+ kv.2) = true.
Definition line_of (kv : string * string) : string := kv.1 +:+ "=" +:+ kv.2.

Lemma tidy_trim s : tidy s -> js_trim s = s.
Proof. intros [H1 H2]. unfold js_trim. by rewrite H1. Qed.

Lemma trim_start_length s : (String.length (trim_start s) <= String.length s)%nat.
Proof. induction s as [|c s IH]; simpl; [lia|]. destruct (is_ws c); simpl; lia. Qed.

Lemma trim_start_app s t : s <> "" -> trim_start s = s -> trim_start (s +:+ t) = s +:+ t.
Proof.
  destruct s as [|c s]; [done|]. intros _. simpl. destruct (is_ws c); [|done]. intros E.
  pose proof (trim_start_length s) as H. rewrite E in H. simpl in H. lia.
Qed.

Lemma trim_end_app s t : t <> "" -> trim_end t = t -> trim_end (s +:+ t) = s +:+ t.
Proof.
  intros Hne Ht. induction s as [|c s IH]; [exact Ht|]. simpl. rewrite IH.
  destruct s as [|d s]; simpl; [by destruct t|done].
Qed.

Lemma line_trim kv : line_entry kv -> js_trim (line_of kv) = line_of kv.
Proof.
  destruct kv as [k v]. intros (Hne & [Hk _] & [_ Hv] & _). cbn in *. unfold js_trim, line_of. cbn [fst snd].
  rewrite trim_start_app by done. apply trim_end_app; [done|].
  change ("=" +:+ v) with (String "="%char v). cbn [trim_end]. rewrite Hv. by destruct v.
Qed.

Lemma cut_line k v : str_forallb (not_char "="%char) k = true -> cut_at "="%char (k +:+ "=" +:+ v) = Some (k, v).
Proof.
  induction k as [|c k IH]; [done|]. simpl. intros H. bools. unfold not_char in *. bools.
  rewrite decide_False by done. by rewrite IH.
Qed.

Lemma line_read kv : line_entry kv -> env_entry (line_of kv) = kv /\ str_truthy kv.1 = true /\ str_truthy (line_of kv) = true.
Proof.
  destruct kv as [k v]. intros (Hne & Hk & Hv & Hc & _). cbn in *. unfold env_entry, line_of. cbn [fst snd].
  rewrite cut_line by done. rewrite !tidy_trim by done. split; [done|]. split; [by apply str_truthy_spec|].
  apply str_truthy_spec. by destruct k.
Qed.

Lemma split_lines lines l : Forall (fun s => str_forallb (not_char newline) s = true) (l :: lines) ->
  split_on newline (join (String newline EmptyString) (l :: lines)) = l :: lines.
Proof.
  revert l. induction lines as [|l2 lines IH]; intros l; rewrite Forall_cons; intros [Hl Hls].
  - simpl. by apply split_on_clean.
  - change (join (String newline EmptyString) (l :: l2 :: lines))
      with (l +:+ String newline (join (String newline EmptyString) (l2 :: lines))).
    rewrite split_on_app by done. by rewrite IH.
Qed.

(** The text shown for the environment of a shell test denotes it: reading it back
    gives the same variables in the same order, for names and values without
    line breaks or white space at their ends and names without an equals sign. *)
Theorem env_lines_roundtrip m : jmap_wf m -> Forall line_entry (entries m) ->
  parseEnvLines (formatEnvLines (Some m)) = m.
Proof.
  intros Hw Hf. unfold parseEnvLines, formatEnvLines.
  assert (Hl : map (fun '(key, entry) => key +:+ "=" +:+ entry) (entries m) = map line_of (entries m))
    by (apply map_ext; by intros []).
  rewrite Hl. clear Hl.
  assert (Hc : Forall (fun s => str_forallb (not_char newline) s = true) (map line_of (entries m))).
  { rewrite Forall_fmap. eapply Forall_impl; [exact Hf|]. intros [k v] (_ & _ & _ & _ & H). cbn in *.
    unfold line_of. cbn [fst snd]. rewrite str_forallb_app in H. apply andb_prop in H as [H1 H2].
    rewrite !str_forallb_app, H1, H2. reflexivity. }
  assert (Hs : filter (fun line => str_truthy line = true) (map js_trim (split_on newline
      (join (String newline EmptyString) (map line_of (entries m))))) = map line_of (entries m)).
  { destruct (map line_of (entries m)) as [|l lines] eqn:E; [done|]. rewrite split_lines by done. rewrite <- E. clear -Hf.
    induction Hf as [|kv l Hkv _ IH]; [done|]. cbn [map]. rewrite (line_trim kv Hkv), filter_cons.
    rewrite decide_True by (by apply line_read). by rewrite IH. }
  rewrite Hs. assert (Hp : filter (fun kv => str_truthy kv.1 = true) (map env_entry (map line_of (entries m))) = entries m).
  { clear -Hf. induction Hf as [|kv l Hkv _ IH]; [done|]. cbn [map]. destruct (line_read kv Hkv) as (-> & Ht & _).
    rewrite filter_cons, decide_True by done. by rewrite IH. }
  rewrite Hp. destruct m as [l]. by apply jmap_of_pairs_distinct.
Qed.

(** ** Witnesses *)
Definition demo_fresh_id (i : nat) : string := "id-" +:+ pretty (Z.of_nat i).
Definition palette_node (id : string) (type : ServiceType) : FlowNode := createDefaultServiceNode demo_fresh_id id (0, 0) type.
Definition palette : list FlowNode := [palette_node "n1" Postgres; palette_node "n2" Redis].
Definition palette_graph : WorkflowServiceGraph :=
  match translateWorkflowGraphToServiceGraph (fun _ _ => 0) palette [] None with
  | Return g => g
  | Throw _ => MkServiceGraph ∅ ∅ []
  end.

Lemma default_test_valid_witness : exists test, createDefaultTest TCache palette [] "t1" = Return test
  /\ vr_valid (validateScenario palette_graph "Scenario" [test] ["t1"]) = true.
Proof.
  eexists. split; [reflexivity|]. refine (proj2 (default_test_valid TCache palette [] "t1" (palette_node "n2" Redis) "redis" _
    palette_graph _ _ _ _ eq_refl _)); [discriminate|reflexivity|reflexivity|discriminate|].
  apply set_has_spec. vm_compute. reflexivity.
Defined.

Lemma delay_step_never_valid_witness : exists test, createDefaultTest TDelay palette ["redis"] "t1" = Return test
  /\ vr_valid (validateScenario palette_graph "Pause" [test] ["t1"]) = false.
Proof.
  eexists. split; [reflexivity|].
  exact (delay_step_never_valid palette ["redis"] "t1" _ palette_graph "Pause" _ ["t1"] eq_refl (list_elem_of_here _ _)).
Defined.

Lemma recipe_offered_iff_made_witness :
  match Recipes.recipeAvailability (Recipes.recipe_of Recipes.RedisRoundTrip) palette with
  | Return None => exists n name tests, n ∈ palette /\ nodeName n = Return name
      /\ Recipes.createScenarioRecipe demo_fresh_id Recipes.RedisRoundTrip palette = Return tests
      /\ tests <> [] /\ Forall (fun t => test_targetServices t = Some [name]) tests
  | Return (Some reason) => Recipes.createScenarioRecipe demo_fresh_id Recipes.RedisRoundTrip palette = Throw (JsError reason)
  | Throw e => Recipes.createScenarioRecipe demo_fresh_id Recipes.RedisRoundTrip palette = Throw e
  end.
Proof.
  apply recipe_offered_iff_made; repeat constructor; try (by eexists); cbn; intros svc ex rest [= <-] H; discriminate H.
Defined.

Lemma delay_unit_roundtrip_witness :
  convertUnitToDuration (convertDurationToUnit 90000 (inferDelayUnit 90000)) (inferDelayUnit 90000) = 90000.
Proof. apply delay_unit_roundtrip. lia. Defined.

Lemma env_lines_roundtrip_witness :
  parseEnvLines (formatEnvLines (Some (JMap [("MODE", "a=b c"); ("EMPTY", "")]))) = JMap [("MODE", "a=b c"); ("EMPTY", "")].
Proof.
  apply env_lines_roundtrip.
  - vm_compute. repeat constructor; rewrite ?elem_of_cons, ?elem_of_nil; naive_solver.
  - repeat constructor; (discriminate || reflexivity).
Defined.
