(* ===== verification/Templates.v ===== *)
(** * Starter workflows: [ui-v2/src/modules/workflow/lib/workflow-templates.ts] and the
      node factories of [ui-v2/src/modules/utils/node-factory.ts] *)

From S2P Require Import Prelude FlowTypes JsLib ServiceNames ScenarioTranslator WorkflowBundle Defaults.
Open Scope Z_scope.

Module Templates.
Import Defaults.

Inductive WorkflowTemplateId := NginxSmoke | MockApiContract | PostgresRedisState.
#[export] Instance WorkflowTemplateId_eq_dec : EqDecision WorkflowTemplateId.
Proof. solve_decision. Defined.

Record WorkflowTemplate := MkTemplate {
  wt_id : WorkflowTemplateId;
  wt_name : string;
  wt_description : string;
  wt_serviceSummary : string;
  wt_bundle : WorkflowBundle
}.

Definition template_node (id : string) (position : Z * Z) (label description : string) (service : NodeService) : FlowNode :=
  MkNode id position service_view (MkNodeData (Some label) (Some description) (Some service) None).
Definition on_port (target : string) (timeout : Z) : option NodeWait := Some (MkNodeWait true "port" (Some target) (Some timeout)).

Definition nginx_smoke : WorkflowTemplate :=
  MkTemplate NginxSmoke "Nginx smoke test" "Start a real Nginx container and verify its default page over HTTP."
    "Nginx · HTTP assertion"
    (MkBundle 2 "cots.workflow-bundle"
      (MkBundleWorkflow "Nginx Smoke Test"
        (Some "A minimal workflow that demonstrates provisioning and testing a web service.")
        [template_node "nginx-web" (120, 100) "Nginx Web" "Serves the default Nginx welcome page."
           (MkNodeService Nginx (Some "nginx:1.30.4-alpine") None
              (Some [MkPort "nginx-http" "" "80"; MkPort "nginx-https" "" "443"]) None (on_port "80" 30) None None None)]
        [])
      [MkBundleScenario "Default page is available" (Some "Calls Nginx and checks its default response.")
         [set_http (MkHttpConfig "GET" "/" "80" None None (Some 200) (Some (MkExpectedBody "contains" (JStr "Welcome to nginx!"))))
            (new_test "nginx-default-page" "Nginx returns its welcome page" THttp ["nginx_web"])]
         ["nginx-default-page"]]).

Definition mock_user_body : string :=
  "{" +:+ quoted "id" +:+ ":42," +:+ quoted "name" +:+ ":" +:+ quoted "Tokyo" +:+ "}".

Definition mock_api_contract : WorkflowTemplate :=
  MkTemplate MockApiContract "Mock API contract" "Define an endpoint on MockServer, then verify its status and JSON response."
    "MockServer · HTTP contract"
    (MkBundle 2 "cots.workflow-bundle"
      (MkBundleWorkflow "Mock API Contract"
        (Some "Shows how service-owned MockServer expectations become runnable HTTP assertions.")
        [template_node "mock-api" (120, 100) "Mock API" "Returns a deterministic user response for contract tests."
           (MkNodeService Mockserver (Some "mockserver/mockserver:5.15.0") None
              (Some [MkPort "mockserver-http" "" "1080"]) None (on_port "1080" 45) None
              (Some [MkExpectation (Some "user-by-id") (Some (MkMockRequest (Some "GET") (Some "/api/users/42") None None))
                       (Some (MkMockResponse (Some 200) (Some (JMap [("Content-Type", "application/json")])) (Some mock_user_body)))])
              None)]
        [])
      [MkBundleScenario "User contract" (Some "Verifies the endpoint configured on the MockServer service.")
         [set_http (MkHttpConfig "GET" "/api/users/42" "1080" None None (Some 200)
                      (Some (MkExpectedBody "json_partial" (JObj [("id", JNum 42); ("name", JStr "Tokyo")]))))
            (new_test "mock-user-response" "Mock API returns the configured user" THttp ["mock_api"])]
         ["mock-user-response"]]).

Definition depends_on (ids : list string) (t : ScenarioTestDefinition) : ScenarioTestDefinition :=
  MkTest (test_id t) (test_name t) (test_type t) (test_targetServices t) (Some ids) (test_retryPolicy t)
    (test_databaseConfig t) (test_documentConfig t) (test_httpConfig t) (test_shellConfig t) (test_cacheConfig t)
    (test_queueConfig t) (test_delayConfig t).

Definition postgres_redis_state : WorkflowTemplate :=
  MkTemplate PostgresRedisState "PostgreSQL + Redis state"
    "Initialize relational data, exercise a cache, and assert both stores in one scenario."
    "PostgreSQL · Redis · 3 assertions"
    (MkBundle 2 "cots.workflow-bundle"
      (MkBundleWorkflow "PostgreSQL and Redis State"
        (Some "Demonstrates database initialization and an ordered cache round trip.")
        [template_node "postgres" (40, 100) "Postgres" "Stores seeded user records."
           (MkNodeService Postgres (Some "postgres:16-alpine") None (Some [MkPort "postgres-port" "" "5432"])
              (Some [MkEnv "pg-db" "POSTGRES_DB" "testdb"; MkEnv "pg-user" "POSTGRES_USER" "postgres";
                     MkEnv "pg-password" "POSTGRES_PASSWORD" "postgres"])
              (on_port "5432" 45)
              (Some [MkScript "seed-users" 1
                       "CREATE TABLE users (id SERIAL PRIMARY KEY, name TEXT NOT NULL); INSERT INTO users (name) VALUES ('Tokyo'), ('Tester');"
                       (Some "Create and seed users")]) None None);
         template_node "redis" (360, 100) "Redis" "Stores an ephemeral workflow value."
           (MkNodeService Redis (Some "redis:7-alpine") None (Some [MkPort "redis-port" "" "6379"]) None (on_port "6379" 30)
              None None None)]
        [])
      [MkBundleScenario "Persistent and cached state" (Some "Checks seeded SQL data and a Redis write/read round trip.")
         [set_database (MkDatabaseConfig "postgres" "testdb" "postgres" "postgres" "SELECT COUNT(*) FROM users"
              (Some (JObj [("mode", JStr "single"); ("value", JNum 2)])))
            (new_test "postgres-users" "Postgres contains two users" TDatabase ["postgres"]);
          set_cache (MkCacheConfig "redis" "redis" "set" (Some "tokyo:template:ready") (Some (JStr "yes")) None None
              (Some 300) (Some 0) None)
            (new_test "redis-set" "Store a value in Redis" TCache ["redis"]);
          depends_on ["redis-set"]
            (set_cache (MkCacheConfig "redis" "redis" "get" (Some "tokyo:template:ready") None (Some (JStr "yes")) None
                None (Some 0) None)
              (new_test "redis-get" "Read the value from Redis" TCache ["redis"]))]
         ["postgres-users"; "redis-set"; "redis-get"]]).

Definition WORKFLOW_TEMPLATES : list WorkflowTemplate := [nginx_smoke; mock_api_contract; postgres_redis_state].

Definition getWorkflowTemplate (id : WorkflowTemplateId) : option WorkflowTemplate :=
  List.find (fun t => bool_decide (wt_id t = id)) WORKFLOW_TEMPLATES.
End Templates.

(** ** [utils/node-factory.ts] *)
Module NodeFactory.
Import Defaults.

Definition numbered_scripts (scripts : option (list string)) : option (list InitScript) :=
  imap (fun i script => MkScript (pretty i) (Z.of_nat i) script None) <$> scripts.
Definition test_number (i : nat) : string := "test-" +:+ pretty i.

Definition factory_node (id : string) (position : Z * Z) (label : string) (service : NodeService)
    (tests : option (list ScenarioTestDefinition)) : FlowNode :=
  MkNode id position service_view (MkNodeData (Some label) None (Some service) tests).

Record SqlOptions := MkSqlOptions {
  so_label : option string; so_database : option string; so_user : option string; so_password : option string;
  so_initScripts : option (list string); so_tests : option (list (string * string))
}.

(** The three SQL factories differ in the type, the names of the variables and the account. *)
Definition sql_node (type : ServiceType) (label databaseKey userKey passwordKey account : string)
    (id : string) (position : Z * Z) (options : SqlOptions) : FlowNode :=
  let database := ostr_or (so_database options) "testdb" in
  let user := ostr_or (so_user options) account in
  let password := ostr_or (so_password options) account in
  factory_node id position (ostr_or (so_label options) label)
    (MkNodeService type None None None
       (Some [MkEnv "1" databaseKey database; MkEnv "2" userKey user; MkEnv "3" passwordKey password])
       None (numbered_scripts (so_initScripts options)) None None)
    (imap (fun i '(name, query) =>
       set_database (MkDatabaseConfig (service_type_name type) database user password query None)
         (new_test (test_number i) name TDatabase [id])) <$> so_tests options).

Definition createPostgresNode := sql_node Postgres "PostgreSQL" " POSTGRES_DB" "POSTGRES_USER" "POSTGRES_PASSWORD" "postgres".
Definition createMySqlNode := sql_node Mysql "MySql" "MYSQL_DB" "MYSQL_USER" "MYSQL_PASSWORD" "root".
Definition createMariaDbNode := sql_node Mariadb "MariaDB" "MARIA_DB" "MARIA_USER" "MARIA_PASSWORD" "root".

Record RedisTest := MkRedisTest {
  rt_name : string; rt_type : TestType; rt_operation : option string; rt_key : option string; rt_value : option JsonValue;
  rt_expectedValue : option JsonValue; rt_expectedExists : option bool; rt_ttl : option Z; rt_db : option Z
}.

(** [rt_operation] is there exactly when the test has a [cacheConfig]. *)
Definition createRedisNode (id : string) (position : Z * Z) (label password : option string) (database : option Z)
    (initScripts : option (list string)) (tests : option (list RedisTest)) : FlowNode :=
  let env := if ostr_truthy password then [MkEnv "1" "REDIS_PASSWORD" (default "" password)] else [] in
  factory_node id position (ostr_or label "Redis")
    (MkNodeService Redis (Some "redis:7") None None (Some env) None (numbered_scripts initScripts) None None)
    (imap (fun i test =>
       let testDef := new_test (test_number i) (rt_name test) (rt_type test) [id] in
       match rt_operation test with
       | Some operation =>
           if decide (rt_type test = TCache) then
             set_cache (MkCacheConfig id "redis" operation (rt_key test) (rt_value test) (rt_expectedValue test)
               (rt_expectedExists test) (rt_ttl test)
               (Some (match rt_db test with Some n => n | None => default 0 database end)) password) testDef
           else testDef
       | None => testDef
       end) <$> tests).

Record BrokerTest := MkBrokerTest { bt_name : string; bt_type : TestType; bt_config : option QueueConfig }.

(** The queue configuration of a test, for this service and broker. *)
Definition broker_test (id brokerType : string) (keep_partition : bool) (i : nat) (test : BrokerTest) : ScenarioTestDefinition :=
  let testDef := new_test (test_number i) (bt_name test) (bt_type test) [id] in
  match bt_config test with
  | Some c =>
      if decide (bt_type test = TQueue) then
        set_queue (MkQueueConfig id brokerType (qu_operation c) (qu_topic c) (qu_message c) (qu_key c)
          (if keep_partition then qu_partition c else None) (qu_timeout c) (if keep_partition then qu_fromBeginning c else None)
          (qu_expectedCount c) (qu_expectedMessage c) (qu_expectedExists c)) testDef
      else testDef
  | None => testDef
  end.

Definition createKafkaNode (id : string) (position : Z * Z) (label clusterId : option string)
    (initScripts : option (list string)) (tests : option (list BrokerTest)) : FlowNode :=
  factory_node id position (ostr_or label "Kafka")
    (MkNodeService Kafka (Some "confluentinc/confluent-local:7.5.0") None None
       (Some [MkEnv "1" "CLUSTER_ID" (ostr_or clusterId "test-cluster")]) None (numbered_scripts initScripts) None None)
    (imap (broker_test id "kafka" true) <$> tests).

Definition createRabbitMQNode (id : string) (position : Z * Z) (label username password : option string)
    (initScripts : option (list string)) (tests : option (list BrokerTest)) : FlowNode :=
  factory_node id position (ostr_or label "RabbitMQ")
    (MkNodeService Rabbitmq (Some "rabbitmq:3.13-management-alpine") None None
       (Some [MkEnv "1" "RABBITMQ_DEFAULT_USER" (ostr_or username "guest");
              MkEnv "2" "RABBITMQ_DEFAULT_PASS" (ostr_or password "guest")]) None (numbered_scripts initScripts) None None)
    (imap (broker_test id "rabbitmq" false) <$> tests).

Definition createMongoDBNode (id : string) (position : Z * Z) (label database username password : option string)
    (initScripts : option (list string)) : FlowNode :=
  factory_node id position (ostr_or label "MongoDB")
    (MkNodeService Mongodb (Some "mongo:7") None None
       (Some [MkEnv "1" "MONGO_INITDB_DATABASE" (ostr_or database "testdb");
              MkEnv "2" "MONGO_INITDB_ROOT_USERNAME" (ostr_or username "admin");
              MkEnv "3" "MONGO_INITDB_ROOT_PASSWORD" (ostr_or password "admin")]) None (numbered_scripts initScripts) None None)
    None.

Record GenericTest := MkGenericTest {
  gt_name : string; gt_type : TestType; gt_http : option HttpConfig; gt_shell : option ShellConfig
}.

Record GenericOptions := MkGenericOptions {
  go_label : string; go_image : string; go_ports : option (list (string * string)); go_env : option (jmap string string);
  go_command : option (list string); go_wait : option (string * option string * option Z);
  go_initScripts : option (list string); go_tests : option (list GenericTest)
}.

Definition generic_test (id : string) (i : nat) (test : GenericTest) : ScenarioTestDefinition :=
  let testDef := new_test (test_number i) (gt_name test) (gt_type test) [id] in
  match gt_http test, gt_shell test with
  | Some c, _ =>
      if decide (gt_type test = THttp) then
        set_http (MkHttpConfig (ostr_or (Some (http_method c)) "GET") (http_path c) (http_port c) (http_headers c) (http_body c)
          (Some (match http_expectedStatus c with Some n => if n =? 0 then 200 else n | None => 200 end)) None) testDef
      else match gt_shell test with
           | Some s => if decide (gt_type test = TShell) then set_shell s testDef else testDef
           | None => testDef
           end
  | None, Some s => if decide (gt_type test = TShell) then set_shell s testDef else testDef
  | None, None => testDef
  end.

Definition createGenericServiceNode (id : string) (position : Z * Z) (options : GenericOptions) : FlowNode :=
  factory_node id position (go_label options)
    (MkNodeService Generic (Some (go_image options)) (go_command options)
       (imap (fun i '(host, container) => MkPort (pretty i) host container) <$> go_ports options)
       (Some (match go_env options with
              | Some env => imap (fun i '(key, value) => MkEnv (pretty i) key value) (entries env)
              | None => []
              end))
       ((fun '(type, target, timeout) => MkNodeWait true type target timeout) <$> go_wait options)
       (numbered_scripts (go_initScripts options)) None None)
    (imap (generic_test id) <$> go_tests options).
End NodeFactory.

(** * The starters can be run *)

Import Defaults Templates.

(** Every template the gallery offers passes the validation of an imported bundle,
    which validates its graph and each of its scenarios, whatever the collation
    of the browser; each id finds its own template, and no two share an id. *)
Theorem templates_runnable localeCompare :
  Forall (fun t => validateWorkflowBundle localeCompare (raw_of (wt_bundle t)) = Return (wt_bundle t)
                   /\ wb_scenarios (wt_bundle t) <> []
                   /\ Forall (fun s => bs_tests s <> []) (wb_scenarios (wt_bundle t))
                   /\ getWorkflowTemplate (wt_id t) = Some t) WORKFLOW_TEMPLATES
  /\ NoDup (map wt_id WORKFLOW_TEMPLATES).
Proof.
  split; [|apply (bool_decide_unpack (NoDup (map wt_id WORKFLOW_TEMPLATES))); vm_compute; exact I].
  assert (H : forall t, t ∈ WORKFLOW_TEMPLATES -> validateWorkflowBundle localeCompare (raw_of (wt_bundle t)) = Return (wt_bundle t)).
  { intros t Ht. unfold WORKFLOW_TEMPLATES in Ht. rewrite !elem_of_cons, elem_of_nil in Ht. destruct Ht as [->|[->|[->|[]]]];
      [vm_compute; reflexivity|vm_compute; reflexivity|].
    vm_compute. match goal with |- context [localeCompare ?a ?b] => destruct (localeCompare a b) end; vm_compute; reflexivity. }
  apply Forall_forall. intros t Ht. split; [by apply H|]. unfold WORKFLOW_TEMPLATES in Ht.
  rewrite !elem_of_cons, elem_of_nil in Ht. destruct Ht as [->|[->|[->|[]]]];
    (split; [discriminate|]; split; [repeat constructor; discriminate|vm_compute; reflexivity]).
Qed.

(** The database a factory was asked for is not the one a default test checks: the
    factories set variables with other names than the ones the tests read. *)
Theorem factory_database_unread id position options test :
  let nodes := [NodeFactory.createPostgresNode id position options; NodeFactory.createMySqlNode id position options;
                NodeFactory.createMariaDbNode id position options] in
  forall node, node ∈ nodes -> createDefaultTest TDatabase [node] [] "t" = Return test ->
  db_database <$> test_databaseConfig test = Some "testdb".
Proof.
  intros nodes node Hn. unfold nodes in Hn. rewrite !elem_of_cons, elem_of_nil in Hn.
  destruct Hn as [->|[->|[->|[]]]]; intros [= <-]; reflexivity.
Qed.

Lemma factory_database_unread_witness : exists test,
  let options := NodeFactory.MkSqlOptions None (Some "orders") None None None None in
  createDefaultTest TDatabase [NodeFactory.createMySqlNode "n1" (0, 0) options] [] "t" = Return test
  /\ db_database <$> test_databaseConfig test = Some "testdb".
Proof.
  eexists. cbn zeta. split; [vm_compute; reflexivity|].
  eapply (factory_database_unread "n1" (0, 0) (NodeFactory.MkSqlOptions None (Some "orders") None None None None));
    [apply list_elem_of_further, list_elem_of_here|vm_compute; reflexivity].
Defined.
