(* ===== verification/ClientState.v ===== *)
(** * Leaving a project or a session: [ui-v2/src/modules/auth/client-state.ts] and
      [ui-v2/src/modules/projects/project-context.tsx]

    What the browser keeps of a user: the sync queue, the session variables, the
    registry credentials, the active project in [localStorage] and the stores in
    IndexedDB.  Each operation is one sequence without interference; the sync
    server is an argument. *)

From S2P Require Import Prelude FastQueue JsLib SyncTypes ClientId SyncService SyncServiceFacts SyncGuarantees WorkflowStore RegistryConfig.
Open Scope Z_scope.

Module ClientState.
Definition PERSISTED_KEYS : list string :=
  ["workflow-store"; "scenario-store"; "execution-store"; "scenario-run-store"; "test-result-store"].
Definition PROJECT_STATE_KEY_PREFIX : string := "cots_active_project".

Definition setCurrentSessionProjectId (p : option string) (h : Host) : Host :=
  MkHost (hasWindow h) (storageThrows h) (localStorage h) (currentUserId h) p (nowMs h) (nowIso h) (crypto h)
    (randomHex h) (sendBeacon h).
Definition setCurrentSessionUserId (u : option string) (h : Host) : Host := set_currentUserId u h.

Section State.
Context `{D : Deque SyncChange}.

Record Client := MkClient {
  cl_world : World;
  cl_secrets : jmap string (jmap string RegistryRuntimeConfig);
  cl_indexedDB : jmap string string
}.

Definition on_client (f : World -> World) (c : Client) : Client := MkClient (f (cl_world c)) (cl_secrets c) (cl_indexedDB c).
Definition on_host (f : Host -> Host) : Client -> Client := on_client (fun w => set_host (f (host w)) w).
Definition clear_secrets (c : Client) : Client := MkClient (cl_world c) (clearAll (cl_secrets c)) (cl_indexedDB c).
Definition delete_persisted (c : Client) : Client :=
  MkClient (cl_world c) (cl_secrets c) (fold_left (fun m key => delete key m) PERSISTED_KEYS (cl_indexedDB c)).

Context {S : Type} (server : S -> SyncBatchRequest -> FetchOutcome SyncBatchResponse * S).

Definition flushed (c : Client) (s : S) : Client * S :=
  let '(w, s') := flushPending server 10 (cl_world c) s in (on_client (fun _ => w) c, s').

Definition clearProjectScopedClientState (c : Client) (s : S) : Client * S :=
  let '(c, s) := flushed c s in
  let c := on_client clearQueue c in
  let c := on_host (setCurrentSessionProjectId None) c in
  (delete_persisted (clear_secrets c), s).

(** [Object.keys(localStorage).filter(...).forEach(removeItem)] *)
Definition forget_projects (m : jmap string string) : jmap string string :=
  fold_left (fun m key => delete key m) (filter (fun key => starts_with PROJECT_STATE_KEY_PREFIX key = true) (jkeys m)) m.

Definition clearUserScopedClientState (c : Client) (s : S) : res unit * Client * S :=
  let '(c, s) := flushed c s in
  let c := on_client (set_service stop) c in
  let c := on_client (set_service (setEnabled false)) c in
  let c := on_client clearQueue c in
  let c := on_host (setCurrentSessionUserId None) c in
  let c := on_host (setCurrentSessionProjectId None) c in
  let c := clear_secrets c in
  let h := host (cl_world c) in
  if negb (hasWindow h) then (Return tt, c, s)
  else if storageThrows h then (Throw JsTypeError, c, s)
  else
    let c := on_host (set_localStorage (fun m => forget_projects (delete "cots_user_id" m))) c in
    (Return tt, delete_persisted c, s).

(** ** The active project *)
Definition getStorageKey (userId : string) : string := PROJECT_STATE_KEY_PREFIX +:+ ":" +:+ userId.

Definition member (projects : list string) (projectId : option string) : bool :=
  match projectId with Some p => str_truthy p && set_has p projects | None => false end.

Definition remember (userId : string) (projectId : option string) (h : Host) : Host :=
  if negb (hasWindow h) then h
  else match projectId with
       | Some p => if str_truthy p then set_localStorage (insert (getStorageKey userId) p) h
                   else set_localStorage (delete (getStorageKey userId)) h
       | None => set_localStorage (delete (getStorageKey userId)) h
       end.

(** The effect of the provider when the user or the projects change; the result is
    the active project it shows. *)
Definition selectProject (userId : option string) (projects : list string) (c : Client) : option string * Client :=
  if negb (ostr_truthy userId) then (None, on_host (setCurrentSessionProjectId None) c)
  else
    let user := default "" userId in
    let h := host (cl_world c) in
    let stored := if hasWindow h then localStorage h !! getStorageKey user else None in
    let next := if member projects stored then stored else head projects in
    (next, on_host (fun h => remember user next (setCurrentSessionProjectId next h)) c).

Definition setActiveProjectId (userId : option string) (projects : list string) (projectId : option string) (c : Client) (s : S)
    : option string * Client * S :=
  if negb (ostr_truthy userId) then (None, on_host (setCurrentSessionProjectId None) c, s)
  else
    let normalized := if member projects projectId then projectId else None in
    let '(c, s) := clearProjectScopedClientState c s in
    (normalized, on_host (fun h => remember (default "" userId) normalized (setCurrentSessionProjectId normalized h)) c, s).
End State.
End ClientState.

(** * What is left after leaving *)

Import ClientState.

Section Leaving.
Context `{D : Deque SyncChange} {S : Type} (server : S -> SyncBatchRequest -> FetchOutcome SyncBatchResponse * S).
Implicit Types (w : World) (c : Client).

(** The queue and its mirror agree, and [localStorage] is a map. *)
Definition sane w : Prop := mirror_ok w /\ jmap_wf (localStorage (host w)).

Lemma client_id_wf h : jmap_wf (localStorage h) -> jmap_wf (localStorage (getOrCreateClientId h).2).
Proof. intros H. unfold getOrCreateClientId. repeat case_match; simpl; auto with tokyo. Qed.

Lemma send_wf batch w : jmap_wf (localStorage (host w)) -> jmap_wf (localStorage (host (sendBatch_request batch w).2)).
Proof.
  intros H. unfold sendBatch_request. destruct (getUserId _); [|done]. destruct (getProjectId _); [|done].
  pose proof (client_id_wf _ H) as H'. by destruct (getOrCreateClientId (host w)).
Qed.

Lemma commit_wf batch w : jmap_wf (localStorage (host w)) -> jmap_wf (localStorage (host (commitBatch_begin batch w).2)).
Proof.
  intros H. unfold commitBatch_begin. pose proof (send_wf batch w H) as H'.
  destruct (sendBatch_request batch w) as [[req|e] w']; simpl in *; [done|]. by rewrite requeue_host.
Qed.

Lemma resume_sane p o w : sane w -> sane (resume p o w).2.
Proof.
  intros [Hm Hl]. split; [by apply resume_mirror|]. unfold resume.
  destruct p as [batch|batch repaired]; destruct (sendBatch_reply o) as [r|e]; simpl; try by rewrite requeue_host.
  - destruct (repairMissingEntityUpdates batch (rsp_errors r)) as [rep|].
    + pose proof (send_wf rep w Hl) as H'. destruct (sendBatch_request rep w) as [[req|e] w']; simpl in *; [done|].
      by rewrite requeue_host.
    + destruct (rolled_back r); simpl; by rewrite ?requeue_host, ?dispatch_host.
  - destruct (rolled_back r); simpl; by rewrite ?requeue_host, ?dispatch_host.
Qed.

Lemma begin_sane w : sane w -> sane (flush_begin w).2.
Proof.
  intros [Hm Hl]. destruct (mirror_holds w Hm) as [l Hh].
  destruct (dequeue_holds w l (maxBatchSize (service w)) Hh) as (_ & _ & Eh & Hk). specialize (Hk (proj1 Hm)).
  destruct (flush_begin_cases w l Hh) as [[-> _]|[[-> _]|[-> _]]]; simpl.
  - by split.
  - split; [done|]. by rewrite Eh.
  - split; [by apply commit_begin_mirror|]. apply commit_wf. by rewrite Eh.
Qed.

Lemma drive_sane n p w s : sane w -> sane (drive server n (p, w) s).1.2.
Proof.
  revert p w s. induction n as [|n IH]; intros [r|req pd] w s H; simpl; try done.
  destruct (server s req) as [o s']. pose proof (resume_sane pd o w H) as H'.
  destruct (resume pd o w) as [p' w']. by apply (IH p' w' s').
Qed.

Lemma pending_sane n w s : sane w -> sane (flushPending server n w s).1.
Proof.
  revert w s. induction n as [|n IH]; intros w s H; simpl; [done|]. case_match; [done|].
  pose proof (begin_sane w H) as Hb. unfold flush. destruct (flush_begin w) as [p w0].
  pose proof (drive_sane 2 p w0 s Hb) as Hd. destruct (drive server 2 (p, w0) s) as [[[r|] w'] s']; [by apply IH|done].
Qed.

(** ** Deletions *)
Lemma delete_all_lookup {V} (keys : list string) (m : jmap string V) k : jmap_wf m ->
  jmap_wf (fold_left (fun m key => delete key m) keys m)
  /\ fold_left (fun m key => delete key m) keys m !! k = if set_has k keys then None else m !! k.
Proof.
  revert m. induction keys as [|key keys IH]; intros m Hw; [by split|]. simpl.
  destruct (IH (delete key m) (jmap_wf_delete key m Hw)) as [H1 H2]. split; [done|]. rewrite H2.
  rewrite jlookup_delete by done. destruct (decide (k = key)) as [->|Hne].
  - rewrite decide_True by done.
    rewrite (proj2 (set_has_spec key (key :: keys)) (list_elem_of_here _ _)). by case_match.
  - rewrite decide_False by done. destruct (set_has k keys) eqn:E.
    + apply set_has_spec in E. by rewrite (proj2 (set_has_spec k (key :: keys)) (list_elem_of_further _ _ _ E)).
    + rewrite (proj2 (set_has_false k (key :: keys))); [done|]. apply set_has_false in E.
      rewrite not_elem_of_cons. by split.
Qed.

Lemma forget_lookup (m : jmap string string) k : jmap_wf m ->
  forget_projects m !! k = if starts_with PROJECT_STATE_KEY_PREFIX k then None else m !! k.
Proof.
  intros Hw. unfold forget_projects. rewrite (proj2 (delete_all_lookup _ m k Hw)).
  destruct (starts_with PROJECT_STATE_KEY_PREFIX k) eqn:Es.
  - destruct (set_has k _) eqn:E; [done|]. apply set_has_false in E. apply jlookup_None. intros Hk. apply E.
    by apply list_elem_of_filter.
  - rewrite (proj2 (set_has_false k _)); [done|]. intros [H _]%list_elem_of_filter. congruence.
Qed.

Lemma cleared_queue w : sane w -> let w' := clearQueue w in
  holds w' [] /\ slot w' = SlotMissing /\ host w' = host w.
Proof.
  intros [Hm _]. destruct (mirror_holds w Hm) as [l Hh]. unfold clearQueue. cbn zeta.
  assert (H : holds (on_queue dq_clear w) []) by (unfold holds; by eapply dq_clear_repr).
  split; [by apply holds_persist|]. split; [|by rewrite persist_host].
  change SlotMissing with (slot_for []). apply persist_mirrors; [apply Hm|done].
Qed.

(** C24: logging out leaves nothing of the user behind, whether or not the last
    flush reached the server: the queue and its copy in storage are empty, the
    service is stopped and disabled, no user or project is current, no registry
    credential is kept, and the user id, every remembered project and the five
    persisted stores are gone from the browser's storage. *)
Theorem logout_leaves_nothing c s : sane (cl_world c) -> jmap_wf (cl_indexedDB c) ->
  exists c' s', clearUserScopedClientState server c s = (Return tt, c', s')
  /\ holds (cl_world c') [] /\ slot (cl_world c') = SlotMissing
  /\ enabled (service (cl_world c')) = false /\ isRunning (service (cl_world c')) = false
  /\ currentUserId (host (cl_world c')) = None /\ currentProjectId (host (cl_world c')) = None
  /\ cl_secrets c' = ∅
  /\ localStorage (host (cl_world c')) !! USER_ID_KEY = None
  /\ (forall k, starts_with PROJECT_STATE_KEY_PREFIX k = true -> localStorage (host (cl_world c')) !! k = None)
  /\ (forall k, k ∈ PERSISTED_KEYS -> cl_indexedDB c' !! k = None).
Proof.
  intros Hs Hi. unfold clearUserScopedClientState, flushed. pose proof (pending_sane 10 (cl_world c) s Hs) as Hp.
  destruct (flushPending server 10 (cl_world c) s) as [w1 s1]. cbn [fst] in Hp.
  set (w2 := set_service (setEnabled false) (set_service stop w1)).
  assert (Hp2 : sane w2).
  { destruct Hp as [[Hok (l & Hh & Hsl)] Hl]. split; [|done]. split; [done|]. exists l.
    split; [|done]. unfold holds in *. cbn. unfold stop. by destruct (intervalId (service w1)). }
  destruct (cleared_queue w2 Hp2) as (Hh & Hsl & Eh).
  assert (Hser : enabled (service (clearQueue w2)) = false /\ isRunning (service (clearQueue w2)) = false).
  { unfold clearQueue. rewrite persist_service. cbn. unfold isRunning, stop. cbn.
    split; [done|]. destruct (intervalId (service w1)) eqn:Ei; cbn; [done|by rewrite Ei]. }
  assert (Hok : hasWindow (host w1) = true /\ storageThrows (host w1) = false) by apply Hp.
  change (on_client clearQueue _) with (MkClient (clearQueue w2) (cl_secrets c) (cl_indexedDB c)).
  change (host w2) with (host w1) in Eh. set (w3 := clearQueue w2) in *. clearbody w3. clear w2 Hp2.
  unfold clear_secrets, on_host, on_client, setCurrentSessionProjectId, setCurrentSessionUserId, set_currentUserId.
  cbn [cl_world cl_secrets cl_indexedDB host set_host hasWindow storageThrows]. rewrite Eh.
  destruct Hok as [-> ->]. cbn [negb]. do 2 eexists. split; [reflexivity|]. cbn.
  destruct Hser as [He Hr]. split_and!; try done.
  - rewrite forget_lookup by (apply jmap_wf_delete, Hp). rewrite jlookup_delete by apply Hp. done.
  - intros k Hk. rewrite forget_lookup by (apply jmap_wf_delete, Hp). by rewrite Hk.
  - intros k Hk. pose proof (proj2 (delete_all_lookup PERSISTED_KEYS (cl_indexedDB c) k Hi)) as H. cbn in H. cbn.
    rewrite H. apply set_has_spec in Hk. cbn in Hk. by rewrite Hk.
Qed.

(** The project that becomes active is one the user is a member of, or none, and it is
    the one remembered for the user and the one requests are sent for. *)
Theorem active_project_is_member user projects requested c s : user <> "" -> sane (cl_world c) ->
  let '(active, c', _) := setActiveProjectId server (Some user) projects requested c s in
  (forall p, active = Some p -> p ∈ projects /\ requested = Some p)
  /\ currentProjectId (host (cl_world c')) = active
  /\ localStorage (host (cl_world c')) !! getStorageKey user = active.
Proof.
  intros Hu Hs. unfold setActiveProjectId, clearProjectScopedClientState, flushed.
  apply str_truthy_spec in Hu. cbn [ostr_truthy]. rewrite Hu. cbn [negb default].
  pose proof (pending_sane 10 (cl_world c) s Hs) as Hp. destruct (flushPending server 10 (cl_world c) s) as [w1 s1].
  cbn [fst] in Hp. destruct (cleared_queue w1 Hp) as (_ & _ & Eh).
  unfold delete_persisted, clear_secrets, on_host, on_client. cbn [cl_world host set_host]. rewrite Eh.
  set (active := if member projects requested then requested else None).
  assert (Hm : forall p, active = Some p -> p ∈ projects /\ requested = Some p /\ str_truthy p = true).
  { intros p. unfold active, member. destruct requested as [q|]; [|done].
    destruct (str_truthy q && set_has q projects) eqn:E; [|done]. intros [= ->].
    apply andb_prop in E as [E1 E2%set_has_spec]. done. }
  split; [intros p H; by destruct (Hm p H) as (? & ? & _)|].
  assert (Hok : hasWindow (host w1) = true) by apply Hp.
  unfold remember, setCurrentSessionProjectId. cbn [hasWindow]. rewrite Hok. cbn [negb].
  destruct active as [p|]; [destruct (Hm p eq_refl) as (_ & _ & ->)|]; cbn; (split; [done|]).
  - apply jlookup_insert_eq.
  - rewrite jlookup_delete by apply Hp. by rewrite decide_True.
Qed.

(** Switching projects while the server cannot be reached loses the queued changes:
    they are cleared from the queue and from storage although no server has
    them. *)
Theorem project_switch_drops_unsent user projects requested c l s : user <> "" -> sane (cl_world c) -> holds (cl_world c) l ->
  (forall s req, server s req = (FetchRejected, s)) ->
  let '(_, c', s') := setActiveProjectId server (Some user) projects requested c s in
  s' = s /\ holds (cl_world c') [] /\ slot (cl_world c') = SlotMissing.
Proof.
  intros Hu Hs Hl Hrej.
  assert (Hsrv : forall n p w s0, (drive server n (p, w) s0).2 = s0).
  { induction n as [|n IH]; intros [r|req pd] w s0; simpl; try done. rewrite Hrej. destruct (resume pd _ w). apply IH. }
  assert (Hfl : forall n w s0, (flushPending server n w s0).2 = s0).
  { induction n as [|n IH]; intros w s0; simpl; [done|]. case_match; [done|]. unfold flush.
    destruct (flush_begin w) as [p w0]. pose proof (Hsrv 2%nat p w0 s0) as H'.
    destruct (drive server 2 (p, w0) s0) as [[[r|] w'] s']; simpl in *; subst; [apply IH|done]. }
  unfold setActiveProjectId, clearProjectScopedClientState, flushed.
  apply str_truthy_spec in Hu. cbn [ostr_truthy]. rewrite Hu. cbn [negb default].
  pose proof (pending_sane 10 (cl_world c) s Hs) as Hp. pose proof (Hfl 10%nat (cl_world c) s) as Es.
  destruct (flushPending server 10 (cl_world c) s) as [w1 s1]. cbn [fst snd] in *. subst s1.
  destruct (cleared_queue w1 Hp) as (Hh & Hsl & Eh). split; [done|].
  unfold delete_persisted, clear_secrets, on_host, on_client. cbn [cl_world]. by split.
Qed.
End Leaving.

(** ** Instances *)
Definition unreachable (s : unit) (req : SyncBatchRequest) : FetchOutcome SyncBatchResponse * unit := (FetchRejected, s).
Definition demo_client : Client := MkClient demo_world ∅ (jmap_of_pairs [("workflow-store", "{}"); ("theme", "dark")]).

Lemma demo_sane : sane (cl_world demo_client).
Proof.
  split; [split; [by split|]; exists demo_items; split; [apply demo_holds|reflexivity]|].
  apply (bool_decide_unpack _). vm_compute. exact I.
Qed.

Lemma logout_leaves_nothing_witness : exists c' s', clearUserScopedClientState unreachable demo_client tt = (Return tt, c', s')
  /\ cl_indexedDB c' !! "workflow-store" = None.
Proof.
  destruct (logout_leaves_nothing unreachable demo_client tt demo_sane) as (c' & s' & E & H).
  - apply (bool_decide_unpack _). vm_compute. exact I.
  - exists c', s'. split; [exact E|]. apply H. by left.
Defined.

Lemma active_project_is_member_witness : "u1" <> ""
  /\ let '(active, c', _) := setActiveProjectId unreachable (Some "u1") ["p1"; "p2"] (Some "p2") demo_client tt in
     currentProjectId (host (cl_world c')) = active.
Proof.
  split; [discriminate|].
  pose proof (active_project_is_member unreachable "u1" ["p1"; "p2"] (Some "p2") demo_client tt) as H.
  destruct (setActiveProjectId unreachable (Some "u1") ["p1"; "p2"] (Some "p2") demo_client tt) as [[active c'] s'].
  apply H; [discriminate | apply demo_sane].
Defined.

Lemma project_switch_drops_unsent_witness :
  let '(_, c', _) := setActiveProjectId unreachable (Some "u1") ["p1"; "p2"] (Some "p2") demo_client tt in
  holds (cl_world demo_client) demo_items /\ holds (cl_world c') [].
Proof.
  pose proof (project_switch_drops_unsent unreachable "u1" ["p1"; "p2"] (Some "p2") demo_client demo_items tt) as H.
  destruct (setActiveProjectId unreachable (Some "u1") ["p1"; "p2"] (Some "p2") demo_client tt) as [[active c'] s'].
  split; [apply demo_holds|].
  apply H; [discriminate | apply demo_sane | apply demo_holds | reflexivity].
Defined.
