(* ===== verification/LegacyStores.v ===== *)
(** * The stores before synchronisation: [ui-v2/src/modules/workflow/hooks/workflow.store.ts]
      with [hooks/useLatestExecution.ts], [stores/workflow.store.ts] and
      [stores/execution.store.ts]

    They persist under the names the synchronised stores use, and no page imports
    them any more.  An action is a function on the state; the id it generates and
    the clock it reads come from the [Host].  zustand's [persist] is left out. *)

From S2P Require Import Prelude FlowTypes JsLib ClientId.
Open Scope Z_scope.

Inductive ExecutionStatus := Idle | Running | Completed | Failed.
#[export] Instance ExecutionStatus_eq_dec : EqDecision ExecutionStatus.
Proof. solve_decision. Defined.

(** ** [hooks/workflow.store.ts] *)
Module EditorStore.
(** [None] is [undefined]. *)
Record WorkflowExecution := MkExecution {
  sessionId : string;
  status : ExecutionStatus;
  logs : list string;
  result : option JsonValue;
  error : option string;
  startedAt : Z;
  finishedAt : option Z
}.

Record Workflow := MkWorkflow {
  id : string;
  name : string;
  nodes : list FlowNode;
  edges : list FlowEdge;
  executions : list WorkflowExecution;
  createdAt : Z;
  activeSessionId : option string;
  customTestOrder : jmap string (list string)
}.

Record WorkflowStore := MkStore { workflows : jmap string Workflow; activeWorkflowId : option string }.

Definition initial : WorkflowStore := MkStore ∅ None.

Definition set_workflows (m : jmap string Workflow) (s : WorkflowStore) : WorkflowStore := MkStore m (activeWorkflowId s).
Definition set_executions (l : list WorkflowExecution) (wf : Workflow) : Workflow :=
  MkWorkflow (id wf) (name wf) (nodes wf) (edges wf) l (createdAt wf) (activeSessionId wf) (customTestOrder wf).

(** [const wf = state.workflows[workflowId]; if (!wf) return state; ...] *)
Definition with_workflow (workflowId : string) (f : Workflow -> Workflow) (s : WorkflowStore) : WorkflowStore :=
  match workflows s !! workflowId with
  | Some wf => set_workflows (<[workflowId := f wf]> (workflows s)) s
  | None => s
  end.

Definition createWorkflow (h : Host) (newName : string) (s : WorkflowStore) : string * WorkflowStore :=
  let newId := generateId h in
  (newId, MkStore (<[newId := MkWorkflow newId newName [] [] [] (nowMs h) None ∅]> (workflows s)) (Some newId)).

Definition updateWorkflowName (workflowId newName : string) : WorkflowStore -> WorkflowStore :=
  with_workflow workflowId (fun wf =>
    MkWorkflow (id wf) newName (nodes wf) (edges wf) (executions wf) (createdAt wf) (activeSessionId wf) (customTestOrder wf)).

Definition updateWorkflowGraph (workflowId : string) (ns : list FlowNode) (es : list FlowEdge)
    (order : option (jmap string (list string))) : WorkflowStore -> WorkflowStore :=
  with_workflow workflowId (fun wf =>
    MkWorkflow (id wf) (name wf) ns es (executions wf) (createdAt wf) (activeSessionId wf)
      (match order with Some o => jmap_of_pairs (entries o) | None => customTestOrder wf end)).

Definition setActiveWorkflow (workflowId : option string) (s : WorkflowStore) : WorkflowStore := MkStore (workflows s) workflowId.

Definition deleteWorkflow (workflowId : string) (s : WorkflowStore) : WorkflowStore :=
  set_workflows (delete workflowId (workflows s)) s.

(** [result: null] *)
Definition startExecution (h : Host) (workflowId session : string) : WorkflowStore -> WorkflowStore :=
  with_workflow workflowId (fun wf =>
    MkWorkflow (id wf) (name wf) (nodes wf) (edges wf)
      (executions wf ++ [MkExecution session Running [] (Some JNull) None (nowMs h) None])
      (createdAt wf) (Some session) (customTestOrder wf)).

Definition of_session (session : string) (e : WorkflowExecution) : bool := bool_decide (sessionId e = session).

(** [wf.executions.map((e) => e.sessionId === sessionId ? f(e) : e)] *)
Definition on_session (session : string) (f : WorkflowExecution -> WorkflowExecution) (l : list WorkflowExecution)
    : list WorkflowExecution := map (fun e => if of_session session e then f e else e) l.

Definition append_message (message : string) (e : WorkflowExecution) : WorkflowExecution :=
  MkExecution (sessionId e) (status e) (logs e ++ [message]) (result e) (error e) (startedAt e) (finishedAt e).

Definition appendExecutionLog (h : Host) (workflowId session message : string) : WorkflowStore -> WorkflowStore :=
  with_workflow workflowId (fun wf => set_executions
    (if existsb (of_session session) (executions wf)
     then on_session session (append_message message) (executions wf)
     else executions wf ++ [MkExecution session Running [message] None None (nowMs h) None]) wf).

Definition completeExecution (h : Host) (workflowId session : string) (r : option JsonValue) : WorkflowStore -> WorkflowStore :=
  with_workflow workflowId (fun wf => set_executions
    (on_session session (fun e =>
       MkExecution (sessionId e) Completed (logs e) r (error e) (startedAt e) (Some (nowMs h))) (executions wf)) wf).

Definition failExecution (h : Host) (workflowId session err : string) : WorkflowStore -> WorkflowStore :=
  with_workflow workflowId (fun wf => set_executions
    (on_session session (fun e =>
       MkExecution (sessionId e) Failed (logs e) (result e) (Some err) (startedAt e) (Some (nowMs h))) (executions wf)) wf).

(** [hooks/useLatestExecution.ts] *)
Definition useLatestExecution (workflowId : string) (s : WorkflowStore) : option WorkflowExecution :=
  match workflows s !! workflowId with
  | Some wf => head (executions wf)
  | None => None
  end.

(** The actions, to speak of sequences of them. *)
Inductive Action :=
| CreateWorkflow (h : Host) (newName : string)
| UpdateWorkflowName (workflowId newName : string)
| UpdateWorkflowGraph (workflowId : string) (ns : list FlowNode) (es : list FlowEdge) (order : option (jmap string (list string)))
| SetActiveWorkflow (workflowId : option string)
| DeleteWorkflow (workflowId : string)
| StartExecution (h : Host) (workflowId session : string)
| AppendExecutionLog (h : Host) (workflowId session message : string)
| CompleteExecution (h : Host) (workflowId session : string) (r : option JsonValue)
| FailExecution (h : Host) (workflowId session err : string).

Definition act (a : Action) (s : WorkflowStore) : WorkflowStore :=
  match a with
  | CreateWorkflow h n => (createWorkflow h n s).2
  | UpdateWorkflowName w n => updateWorkflowName w n s
  | UpdateWorkflowGraph w ns es o => updateWorkflowGraph w ns es o s
  | SetActiveWorkflow w => setActiveWorkflow w s
  | DeleteWorkflow w => deleteWorkflow w s
  | StartExecution h w k => startExecution h w k s
  | AppendExecutionLog h w k m => appendExecutionLog h w k m s
  | CompleteExecution h w k r => completeExecution h w k r s
  | FailExecution h w k e => failExecution h w k e s
  end.
End EditorStore.

(** ** [stores/workflow.store.ts] *)
Module PlainWorkflows.
Record Workflow := MkWorkflow {
  id : string;
  name : string;
  nodes : list FlowNode;
  edges : list FlowEdge;
  createdAt : Z;
  customTestOrder : jmap string (list string)
}.

Record WorkflowStore := MkStore { workflows : jmap string Workflow; activeWorkflowId : option string }.
Definition initial : WorkflowStore := MkStore ∅ None.

Definition with_workflow (workflowId : string) (f : Workflow -> Workflow) (s : WorkflowStore) : WorkflowStore :=
  match workflows s !! workflowId with
  | Some wf => MkStore (<[workflowId := f wf]> (workflows s)) (activeWorkflowId s)
  | None => s
  end.

Definition createWorkflow (h : Host) (newName : string) (s : WorkflowStore) : string * WorkflowStore :=
  let newId := generateId h in
  (newId, MkStore (<[newId := MkWorkflow newId newName [] [] (nowMs h) ∅]> (workflows s)) (Some newId)).

Definition getWorkflow (workflowId : string) (s : WorkflowStore) : option Workflow := workflows s !! workflowId.

Definition updateWorkflowName (workflowId newName : string) : WorkflowStore -> WorkflowStore :=
  with_workflow workflowId (fun wf => MkWorkflow (id wf) newName (nodes wf) (edges wf) (createdAt wf) (customTestOrder wf)).

Definition updateWorkflowGraph (workflowId : string) (ns : list FlowNode) (es : list FlowEdge)
    (order : option (jmap string (list string))) : WorkflowStore -> WorkflowStore :=
  with_workflow workflowId (fun wf => MkWorkflow (id wf) (name wf) ns es (createdAt wf)
    (match order with Some o => jmap_of_pairs (entries o) | None => customTestOrder wf end)).

Definition deleteWorkflow (workflowId : string) (s : WorkflowStore) : WorkflowStore :=
  MkStore (delete workflowId (workflows s)) (if decide (activeWorkflowId s = Some workflowId) then None else activeWorkflowId s).

Definition setActiveWorkflow (workflowId : option string) (s : WorkflowStore) : WorkflowStore := MkStore (workflows s) workflowId.
End PlainWorkflows.

(** ** [stores/execution.store.ts] *)
Module PlainExecutions.
Record WorkflowExecution := MkExecution {
  sessionId : string;
  workflowId : string;
  status : ExecutionStatus;
  logs : list string;
  result : option JsonValue;
  error : option string;
  startedAt : Z;
  finishedAt : option Z
}.

Record ExecutionStore := MkStore { executions : jmap string WorkflowExecution; activeSessionId : option string }.
Definition initial : ExecutionStore := MkStore ∅ None.

Definition startExecution (h : Host) (workflow session : string) (s : ExecutionStore) : ExecutionStore :=
  MkStore (<[session := MkExecution session workflow Running [] None None (nowMs h) None]> (executions s)) (Some session).

Definition with_execution (session : string) (f : WorkflowExecution -> WorkflowExecution) (s : ExecutionStore) : ExecutionStore :=
  match executions s !! session with
  | Some e => MkStore (<[session := f e]> (executions s)) (activeSessionId s)
  | None => s
  end.

Definition appendLog (session message : string) : ExecutionStore -> ExecutionStore :=
  with_execution session (fun e =>
    MkExecution (sessionId e) (workflowId e) (status e) (logs e ++ [message]) (result e) (error e) (startedAt e) (finishedAt e)).

Definition completeExecution (h : Host) (session : string) (r : option JsonValue) : ExecutionStore -> ExecutionStore :=
  with_execution session (fun e =>
    MkExecution (sessionId e) (workflowId e) Completed (logs e) r (error e) (startedAt e) (Some (nowMs h))).

Definition failExecution (h : Host) (session err : string) : ExecutionStore -> ExecutionStore :=
  with_execution session (fun e =>
    MkExecution (sessionId e) (workflowId e) Failed (logs e) (result e) (Some err) (startedAt e) (Some (nowMs h))).

Definition getExecution (session : string) (s : ExecutionStore) : option WorkflowExecution := executions s !! session.

Definition getActiveExecution (s : ExecutionStore) : option WorkflowExecution :=
  match activeSessionId s with
  | Some session => if str_truthy session then executions s !! session else None
  | None => None
  end.

Definition getWorkflowExecutions (workflow : string) (s : ExecutionStore) : list WorkflowExecution :=
  filter (fun e => workflowId e = workflow) (jvalues (executions s)).

Definition clearExecution (session : string) (s : ExecutionStore) : ExecutionStore :=
  MkStore (delete session (executions s)) (if decide (activeSessionId s = Some session) then None else activeSessionId s).

Definition clearAllExecutions (s : ExecutionStore) : ExecutionStore := MkStore ∅ None.

Inductive Action :=
| StartExecution (h : Host) (workflow session : string)
| AppendLog (session message : string)
| CompleteExecution (h : Host) (session : string) (r : option JsonValue)
| FailExecution (h : Host) (session err : string)
| ClearExecution (session : string)
| ClearAllExecutions.

Definition act (a : Action) (s : ExecutionStore) : ExecutionStore :=
  match a with
  | StartExecution h w k => startExecution h w k s
  | AppendLog k m => appendLog k m s
  | CompleteExecution h k r => completeExecution h k r s
  | FailExecution h k e => failExecution h k e s
  | ClearExecution k => clearExecution k s
  | ClearAllExecutions => clearAllExecutions s
  end.
End PlainExecutions.

(** * What the earlier stores kept and what they did not *)

(** ** The execution store *)
Module ExecutionFacts.
Import PlainExecutions.

Definition is_final (st : ExecutionStatus) : bool := match st with Completed | Failed => true | _ => false end.

(** Executions lie under their session ids, the active one is stored, and exactly
    the finished ones have an end. *)
Record well_kept (s : ExecutionStore) : Prop := {
  wk_wf : jmap_wf (executions s);
  wk_keys : forall k e, executions s !! k = Some e -> sessionId e = k;
  wk_ends : forall k e, executions s !! k = Some e -> (is_Some (finishedAt e) <-> is_final (status e) = true);
  wk_active : forall k, activeSessionId s = Some k -> is_Some (executions s !! k)
}.

Lemma with_execution_kept k f s :
  (forall e, sessionId (f e) = sessionId e) ->
  (forall e, (is_Some (finishedAt e) <-> is_final (status e) = true) ->
             (is_Some (finishedAt (f e)) <-> is_final (status (f e)) = true)) ->
  well_kept s -> well_kept (with_execution k f s).
Proof.
  intros Hid Hend [H1 H2 H3 H4]. unfold with_execution. destruct (executions s !! k) as [e|] eqn:E; [|by split].
  split; simpl; [by apply jmap_wf_insert| | |]; intros k' e'.
  - rewrite jlookup_insert. case_decide as Hk; [intros [= <-]; rewrite Hid; subst; by apply H2 | apply H2].
  - rewrite jlookup_insert. case_decide as Hk; [intros [= <-]; by apply Hend, (H3 k) | apply H3].
  - rewrite jlookup_insert. case_decide; [by eexists | by apply H4].
Qed.

Lemma act_kept a s : well_kept s -> well_kept (act a s).
Proof.
  intros H. destruct a as [h w k|k m|h k r|h k e|k|]; cbn [act];
    try (apply with_execution_kept; [done|by try (intros e' He'; split; [done|by eexists])|done]).
  - destruct H as [H1 H2 H3 H4]. split; simpl; [by apply jmap_wf_insert| | |]; intros k' e'.
    + rewrite jlookup_insert. case_decide; [by intros [= <-] | apply H2].
    + rewrite jlookup_insert. case_decide; [intros [= <-]; split; [by intros []|done] | apply H3].
    + injection e' as <-. rewrite jlookup_insert_eq. by eexists.
  - destruct H as [H1 H2 H3 H4]. split; simpl; [by apply jmap_wf_delete| | |]; intros k' e'.
    + rewrite jlookup_delete by done. case_decide; [done | apply H2].
    + rewrite jlookup_delete by done. case_decide; [done | apply H3].
    + revert e'. case_decide as Hd; [done|]. intros Ha. rewrite jlookup_delete by done. case_decide; [by subst|by apply H4].
  - split; simpl; [apply NoDup_nil_2| | |]; done.
Qed.

(** Whatever sequence of actions runs, executions are found under their session
    ids, the active execution is one that is stored, and an execution has an end
    exactly when it has completed or failed. *)
Theorem executions_well_kept actions : well_kept (fold_left (fun s a => act a s) actions initial).
Proof.
  assert (H : forall s, well_kept s -> well_kept (fold_left (fun s a => act a s) actions s)).
  { induction actions as [|a l IH]; intros s Hs; [done|]. by apply IH, act_kept. }
  apply H. split; simpl; [apply NoDup_nil_2| | |]; done.
Qed.

(** The log an observer of the actions expects of a session. *)
Definition heard (k : string) (log : option (list string)) (a : Action) : option (list string) :=
  match a with
  | StartExecution _ _ k' => if decide (k' = k) then Some [] else log
  | AppendLog k' m => if decide (k' = k) then (fun l => l ++ [m]) <$> log else log
  | ClearExecution k' => if decide (k' = k) then None else log
  | ClearAllExecutions => None
  | _ => log
  end.

Lemma with_execution_logs k k' f s : jmap_wf (executions s) ->
  logs <$> getExecution k (with_execution k' f s)
  = if decide (k' = k) then (fun e => logs (f e)) <$> getExecution k s else logs <$> getExecution k s.
Proof.
  intros Hw. unfold with_execution, getExecution. destruct (executions s !! k') as [e|] eqn:E; simpl.
  - rewrite jlookup_insert. case_decide; [subst; by rewrite E|done].
  - case_decide; [subst; by rewrite E|done].
Qed.

Lemma act_logs k a s : well_kept s -> logs <$> getExecution k (act a s) = heard k (logs <$> getExecution k s) a.
Proof.
  intros H. pose proof (wk_wf s H) as Hw.
  destruct a as [h w k'|k' m|h k' r|h k' e|k'|]; cbn [act heard];
    try (unfold appendLog, completeExecution, failExecution; rewrite with_execution_logs by done; cbn [logs]; case_decide;
         [by destruct (getExecution k s)|done]); unfold getExecution; simpl.
  - rewrite jlookup_insert. by case_decide.
  - rewrite jlookup_delete by done. by case_decide.
  - done.
Qed.

(** The log of a session is what was appended to it since it was last started, in
    order; completing or failing an execution, and actions on others, leave it
    alone. *)
Theorem log_is_what_was_said actions k :
  logs <$> getExecution k (fold_left (fun s a => act a s) actions initial) = fold_left (heard k) actions None.
Proof.
  assert (H : forall s, well_kept s -> logs <$> getExecution k (fold_left (fun s a => act a s) actions s)
                        = fold_left (heard k) actions (logs <$> getExecution k s)).
  { induction actions as [|a l IH]; intros s Hs; [done|]. cbn [fold_left]. rewrite IH by by apply act_kept. by rewrite act_logs. }
  apply (H initial). split; simpl; [apply NoDup_nil_2| | |]; done.
Qed.
End ExecutionFacts.

(** ** The editor's store *)
Module EditorFacts.
Import EditorStore.

(** The action does not make or remove the workflow. *)
Definition keeps (w : string) (a : Action) : Prop :=
  match a with
  | CreateWorkflow h _ => generateId h <> w
  | DeleteWorkflow w' => w' <> w
  | _ => True
  end.

Lemma with_workflow_lookup w w' f s :
  workflows (with_workflow w' f s) !! w = if decide (w' = w) then f <$> workflows s !! w else workflows s !! w.
Proof.
  unfold with_workflow. destruct (workflows s !! w') as [wf|] eqn:E; simpl.
  - rewrite jlookup_insert. case_decide; [subst; by rewrite E|done].
  - case_decide; [subst; by rewrite E|done].
Qed.

Definition first_session (w : string) (s : WorkflowStore) : option string := sessionId <$> useLatestExecution w s.

Lemma with_workflow_first w w' f s k :
  (forall wf, sessionId <$> head (executions wf) = Some k -> sessionId <$> head (executions (f wf)) = Some k) ->
  first_session w s = Some k -> first_session w (with_workflow w' f s) = Some k.
Proof.
  intros Hf. unfold first_session, useLatestExecution. rewrite with_workflow_lookup.
  destruct (decide (w' = w)); [|done]. destruct (workflows s !! w) as [wf|]; simpl; [apply Hf|done].
Qed.

Lemma head_extended (l l' : list WorkflowExecution) k :
  sessionId <$> head l = Some k -> sessionId <$> head (l ++ l') = Some k.
Proof. by destruct l. Qed.

Lemma head_on_session session f (l : list WorkflowExecution) k : (forall e, sessionId (f e) = sessionId e) ->
  sessionId <$> head l = Some k -> sessionId <$> head (on_session session f l) = Some k.
Proof. intros Hf. destruct l as [|e l]; [done|]. simpl. intros [= <-]. case_match; simpl; by rewrite ?Hf. Qed.

Lemma act_first w a s k : jmap_wf (workflows s) -> keeps w a -> first_session w s = Some k -> first_session w (act a s) = Some k.
Proof.
  intros Hw Hk. destruct a; cbn [act keeps] in *;
    try (apply with_workflow_first; intros wf; simpl; auto using head_extended; by apply head_on_session); try done.
  - unfold first_session, useLatestExecution. simpl. rewrite jlookup_insert. by rewrite decide_False by congruence.
  - unfold first_session, useLatestExecution. simpl. rewrite jlookup_delete by done. by rewrite decide_False by congruence.
  - apply with_workflow_first. intros wf H. simpl. case_match; [by apply head_on_session|by apply head_extended].
Qed.

Lemma act_wf a s : jmap_wf (workflows s) -> jmap_wf (workflows (act a s)).
Proof.
  intros H. destruct a; cbn [act]; try done; simpl; auto with tokyo; unfold updateWorkflowName, updateWorkflowGraph, startExecution,
    appendExecutionLog, completeExecution, failExecution, with_workflow; case_match; simpl; auto with tokyo.
Qed.

(** The execution that [useLatestExecution] returns is the first one of the
    workflow: once there is one, no later start, log message or end of an execution
    ever changes which session it shows. *)
Theorem latest_is_first w s k actions : jmap_wf (workflows s) -> Forall (keeps w) actions -> first_session w s = Some k ->
  first_session w (fold_left (fun s a => act a s) actions s) = Some k.
Proof.
  intros Hw Hk. revert s Hw. induction Hk as [|a l Ha _ IH]; intros s Hw H; [done|].
  cbn [fold_left]. apply IH; [by apply act_wf | by apply act_first].
Qed.

(** Deleting the active workflow leaves its id active in this store, where
    [stores/workflow.store.ts] clears it. *)
Theorem deleted_stays_active w s (s' : PlainWorkflows.WorkflowStore) :
  activeWorkflowId s = Some w -> PlainWorkflows.activeWorkflowId s' = Some w -> jmap_wf (workflows s) ->
  (activeWorkflowId (deleteWorkflow w s) = Some w /\ workflows (deleteWorkflow w s) !! w = None)
  /\ PlainWorkflows.activeWorkflowId (PlainWorkflows.deleteWorkflow w s') = None.
Proof.
  intros H H' Hw. split; [split; [done|]|].
  - simpl. rewrite jlookup_delete by done. by rewrite decide_True.
  - unfold PlainWorkflows.deleteWorkflow. simpl. by rewrite decide_True.
Qed.
End EditorFacts.

(** ** Instances *)
Definition drawn_once : EditorStore.WorkflowStore :=
  let '(w, s) := EditorStore.createWorkflow sample_host "Shop" EditorStore.initial in
  EditorStore.startExecution sample_host w "s1" s.
Definition drawn_id : string := (EditorStore.createWorkflow sample_host "Shop" EditorStore.initial).1.

Lemma latest_is_first_witness :
  EditorFacts.first_session drawn_id (EditorStore.startExecution sample_host drawn_id "s2" drawn_once) = Some "s1".
Proof.
  apply (EditorFacts.latest_is_first drawn_id drawn_once "s1" [EditorStore.StartExecution sample_host drawn_id "s2"]).
  - apply (bool_decide_unpack _). vm_compute. exact I.
  - repeat constructor.
  - reflexivity.
Defined.

Lemma deleted_stays_active_witness :
  EditorStore.activeWorkflowId (EditorStore.deleteWorkflow drawn_id drawn_once) = Some drawn_id.
Proof.
  apply (EditorFacts.deleted_stays_active drawn_id drawn_once
    (PlainWorkflows.createWorkflow sample_host "Shop" PlainWorkflows.initial).2); try reflexivity.
  apply (bool_decide_unpack _). vm_compute. exact I.
Defined.
