(* ===== verification/RunCockpit.v ===== *)
(** * What the run page shows: [ui-v2/src/modules/workflow/components/WorkflowRunPage.tsx] and
      [components/ExecutionServiceMap.tsx]

    The page derives everything it shows from the definition of the run, the run
    stores and the events.  [View] is what one render has of them; the page's own
    selection and the effects that keep it consistent are [Selection].  Markup,
    icons and times of day are left out.  A diagnostic is the JSON value the runner
    sent, read at its declared type. *)

From S2P Require Import Prelude FlowTypes SyncTypes ClientId FastQueue JsLib Json Process SyncService SyncMiddleware RunEvents ServiceNames.
From S2P Require Import ExecutionStore ScenarioRunStore TestResultStore RunSnapshot RunReplay Browser SyncHydration Builder.
Open Scope Z_scope.

Module Cockpit.
(** ** Diagnostics *)
Record Evidence := MkEvidence { evi_kind : string; evi_serviceName : option string; evi_message : string }.
Record ExecutionDiagnostic := MkDiagnostic {
  dg_code : string;
  dg_source : string;
  dg_confidence : string;
  dg_stage : string;
  dg_summary : string;
  dg_scenarioId : option string;
  dg_testId : option string;
  dg_testName : option string;
  dg_serviceNames : option (list string);
  dg_evidence : option (list Evidence)
}.

Definition text_at (k : string) (v : JsonValue) : string := match json_field k v with Some x => as_text x | None => "" end.
Definition maybe_text (k : string) (v : JsonValue) : option string := as_text <$> json_present (json_field k v).

(** [value as ExecutionDiagnostic] *)
Definition as_diagnostic (v : JsonValue) : ExecutionDiagnostic :=
  MkDiagnostic (text_at "code" v) (text_at "source" v) (text_at "confidence" v) (text_at "stage" v) (text_at "summary" v)
    (maybe_text "scenarioId" v) (maybe_text "testId" v) (maybe_text "testName" v)
    (as_strings <$> json_present (json_field "serviceNames" v))
    (match json_field "evidence" v with
     | Some (JArr l) => Some (map (fun x => MkEvidence (text_at "kind" x) (maybe_text "serviceName" x) (text_at "message" x)) l)
     | _ => None
     end).

Definition truthy_field (fields : list (string * JsonValue)) (k : string) : bool :=
  match assoc_get k fields with Some v => json_truthy v | None => false end.

(** [null] and values that are no objects are none; an array has none of the fields. *)
Definition isDiagnostic (value : JsonValue) : bool :=
  match value with
  | JObj fields => forallb (truthy_field fields) ["code"; "source"; "confidence"; "stage"; "summary"]
  | _ => false
  end.

Definition nesting_fields : list string := ["diagnostic"; "diagnostics"; "scenarioResults"; "testResults"; "results"].

Fixpoint diagnosticsFromValue (value : JsonValue) : list JsonValue :=
  match value with
  | JArr l => concat (map diagnosticsFromValue l)
  | JObj fields =>
      if isDiagnostic value then [value]
      else
        let inside := map (fun '(k, v) => (k, diagnosticsFromValue v)) fields in
        concat (map (fun k => default [] (assoc_get k inside)) nesting_fields)
  | _ => []
  end.

(** [join] prints [undefined] as nothing. *)
Definition diagnosticKey (d : ExecutionDiagnostic) : string :=
  join ":" [dg_code d; default "" (dg_scenarioId d); default "" (dg_testId d); default "" (dg_testName d);
            match dg_serviceNames d with Some names => join "," names | None => "" end; dg_summary d].

(** ** What one render has *)
Record ScenarioDefinition := MkScenarioDef { sdf_id : string; sdf_name : string; sdf_tests : list ScenarioTestDefinition }.
Record ExecutionDefinition := MkDefinition { xd_nodes : list FlowNode; xd_edges : list FlowEdge; xd_scenarios : list ScenarioDefinition }.

Record View := MkView {
  cv_definition : option ExecutionDefinition;
  cv_execution : option ExecutionStore.WorkflowExecution;
  cv_scenarioRuns : list ScenarioRunStore.ScenarioRun;
  cv_testResults : list TestResultStore.TestResult;
  cv_persistedEvents : list WorkflowLogEvent;
  cv_activities : list WorkflowLogEvent
}.

(** The runs and results of the run, from the stores. *)
Definition page_scenarioRuns (workflowRunId : string) (m : jmap string ScenarioRunStore.ScenarioRun) : list ScenarioRunStore.ScenarioRun :=
  filter (fun r => ScenarioRunStore.run_workflowRunId r = workflowRunId /\ is_deleted (ScenarioRunStore.run_meta r) = false) (jvalues m).
Definition page_testResults (workflowRunId : string) (m : jmap string TestResultStore.TestResult) : list TestResultStore.TestResult :=
  filter (fun r => TestResultStore.tr_workflowRunId (TestResultStore.tr_input r) = Some workflowRunId
                   /\ is_deleted (TestResultStore.tr_meta r) = false) (jvalues m).

Definition rawEvents (v : View) : list WorkflowLogEvent := mergeWorkflowRunEvents [cv_persistedEvents v; cv_activities v].
Definition allEvents (v : View) : list WorkflowLogEvent := operationalWorkflowRunEvents (rawEvents v) MAX_OPERATIONAL_WORKFLOW_EVENTS.

Definition event_diagnostic (e : WorkflowLogEvent) : option ExecutionDiagnostic :=
  match ev_diagnostic e with Some d => if json_truthy d then Some (as_diagnostic d) else None | None => None end.
Definition found_in (value : option JsonValue) : list ExecutionDiagnostic :=
  match value with Some x => map as_diagnostic (diagnosticsFromValue x) | None => [] end.

Definition candidates (v : View) : list ExecutionDiagnostic :=
  concat (map (fun e => option_list (event_diagnostic e)) (rawEvents v))
  ++ concat (map (fun r => found_in (ScenarioRunStore.run_result r)) (cv_scenarioRuns v))
  ++ concat (map (fun r => found_in (TestResultStore.tr_resultData (TestResultStore.tr_input r))) (cv_testResults v))
  ++ found_in (cv_execution v ≫= ExecutionStore.ex_result).

Definition diagnostics (v : View) : list ExecutionDiagnostic :=
  jvalues (jmap_of_pairs (map (fun d => (diagnosticKey d, d)) (candidates v))).

Definition workflow_status (v : View) : option WorkflowRunStatus := ExecutionStore.ex_status <$> cv_execution v.
Definition run_of (v : View) (scenarioId : option string) : option ScenarioRunStore.ScenarioRun :=
  List.find (fun r => bool_decide (Some (ScenarioRunStore.run_scenarioId r) = scenarioId)) (cv_scenarioRuns v).
Definition scenario_status (v : View) (scenarioId : option string) : option ScenarioRunStatus :=
  ScenarioRunStore.run_status <$> run_of v scenarioId.

(** ** The lanes of the scenarios *)
Inductive LaneStage := LQueued | LProvision | LExecution | LCleanup | LComplete.
#[export] Instance LaneStage_eq_dec : EqDecision LaneStage.
Proof. solve_decision. Defined.
Definition STAGES : list LaneStage := [LQueued; LProvision; LExecution; LCleanup; LComplete].
Definition stage_index (s : LaneStage) : Z :=
  match s with LQueued => 0 | LProvision => 1 | LExecution => 2 | LCleanup => 3 | LComplete => 4 end.

Inductive StepState := StepPending | StepActive | StepComplete | StepFailed.
#[export] Instance StepState_eq_dec : EqDecision StepState.
Proof. solve_decision. Defined.

(** Of the event only its stage is read. *)
Definition eventStage (stage : option string) : LaneStage :=
  if is_str stage "provision" then LProvision
  else if is_str stage "execution" then LExecution
  else if is_str stage "cleanup" then LCleanup
  else if is_str stage "aggregation" then LComplete
  else LQueued.

Definition stepState (stage current : LaneStage) (failed terminal : bool) : StepState :=
  let index := stage_index stage in
  let currentIndex := stage_index current in
  if failed then StepFailed
  else if bool_decide (stage = LComplete) && terminal then StepComplete
  else if index <? currentIndex then StepComplete
  else if (index =? currentIndex) && negb terminal then StepActive
  else if terminal && (index <=? currentIndex) then StepComplete
  else StepPending.

Definition of_scenario (scenarioId : string) (ds : list ExecutionDiagnostic) : list ExecutionDiagnostic :=
  filter (fun d => dg_scenarioId d = Some scenarioId) ds.
Definition lane_status (v : View) (scenario : ScenarioDefinition) : ScenarioRunStatus :=
  resolveScenarioPresentationStatus (scenario_status v (Some (sdf_id scenario))) (workflow_status v).
Definition lane_terminal (v : View) (scenario : ScenarioDefinition) : bool :=
  match lane_status v scenario with SPending | SRunning | SCancelling => false | _ => true end.
Definition lane_current (v : View) (scenario : ScenarioDefinition) : LaneStage :=
  if lane_terminal v scenario then LComplete
  else eventStage (last (filter (fun e => ev_scenarioId e = Some (sdf_id scenario)) (allEvents v)) ≫= ev_stage).
Definition stage_failed (v : View) (scenario : ScenarioDefinition) (stage : LaneStage) : bool :=
  existsb (fun d => bool_decide (eventStage (Some (dg_stage d)) = stage)) (of_scenario (sdf_id scenario) (diagnostics v)).
Definition lane (v : View) (scenario : ScenarioDefinition) : list StepState :=
  map (fun stage => stepState stage (lane_current v scenario) (stage_failed v scenario stage) (lane_terminal v scenario)) STAGES.

(** ** Services *)
Definition selectedScenarioEvents (v : View) (scenarioId : option string) : list WorkflowLogEvent :=
  filter (fun e => ostr_truthy (ev_scenarioId e) = false \/ ev_scenarioId e = scenarioId) (allEvents v).

Notation States := (jmap string ServiceExecutionState).

(** The name and its sanitised form get the state. *)
Definition mark (state : ServiceExecutionState) (m : States) (name : string) : States :=
  <[sanitizeName name := state]> (<[name := state]> m).

Definition initial_state (m : States) (node : FlowNode) : res States :=
  match nd_label (node_data node) with
  | None => Throw JsTypeError
  | Some label =>
      Return (<[node_id node := Queued]> (<[sanitizeName label := Queued]> (<[toLowerCase label := Queued]> (<[label := Queued]> m))))
  end.
Fixpoint initial_states (nodes : list FlowNode) (m : States) : res States :=
  match nodes with [] => Return m | node :: rest => m' ← initial_state m node; initial_states rest m' end.

Definition truthy_names (names : list (option string)) : list string := filter (fun n => str_truthy n = true) (omap (fun n => n) names).
Definition event_names (e : WorkflowLogEvent) : list string :=
  truthy_names (ev_serviceId e :: ev_serviceName e :: map Some (default [] (ev_serviceNames e))).

Definition event_state (e : WorkflowLogEvent) : option ServiceExecutionState :=
  if is_str (ev_stage e) "provision" then
    Some (if is_str (ev_activityStatus e) "failed" then ServiceFailed
          else if is_str (ev_activityStatus e) "ready" then Ready else Provisioning)
  else if is_str (ev_stage e) "execution" then Some Testing
  else if is_str (ev_stage e) "cleanup" then
    Some (if is_str (ev_activityStatus e) "failed" then ServiceFailed
          else if is_str (ev_activityStatus e) "completed" then Complete else Cleaning)
  else None.

Definition blamed_names (e : WorkflowLogEvent) : list string :=
  match event_diagnostic e with
  | Some d => if bool_decide (dg_source d = "service_environment") && is_str (ev_activityStatus e) "failed"
              then default [] (dg_serviceNames d) else []
  | None => []
  end.

Definition apply_event (m : States) (e : WorkflowLogEvent) : States :=
  let m := match event_state e with Some state => fold_left (mark state) (event_names e) m | None => m end in
  fold_left (mark ServiceFailed) (blamed_names e) m.

(** The loop that reconciles every entry in place. *)
Definition reconcile_all (scenario : option ScenarioRunStatus) (workflow : option WorkflowRunStatus) (m : States) : States :=
  fold_left (fun m '(name, state) => <[name := reconcileServiceExecutionState state scenario workflow]> m) (entries m) m.

Definition serviceStates (v : View) (scenarioId : option string) : res States :=
  states ← initial_states (match cv_definition v with Some d => xd_nodes d | None => [] end) ∅;
  Return (reconcile_all (scenario_status v scenarioId) (workflow_status v)
            (fold_left apply_event (selectedScenarioEvents v scenarioId) states)).

Definition observedServices (v : View) (scenarioId : option string) : list string :=
  concat (map (fun e => if is_str (ev_kind e) "test" then default [] (ev_serviceNames e) else [])
    (selectedScenarioEvents v scenarioId)).

(** A node of [ExecutionServiceMap]. *)
Record ServiceBox := MkBox { bx_id : string; bx_position : Z * Z; bx_selected : bool; bx_label : string; bx_type : ServiceType;
                             bx_state : ServiceExecutionState; bx_observed : bool }.

Definition box_label (node : FlowNode) : string := ostr_or (nd_label (node_data node)) (node_id node).
Definition shown_state (states : States) (node : FlowNode) : ServiceExecutionState :=
  match states !! box_label node with
  | Some s => s
  | None => match states !! node_id node with
            | Some s => s
            | None => default Queued (states !! sanitizeName (box_label node))
            end
  end.

(** A stored node has a position. *)
Definition service_box (states : States) (observed : list string) (selectedService : option string) (node : FlowNode) : res ServiceBox :=
  match nd_service (node_data node) with
  | None => Throw JsTypeError
  | Some svc =>
      Return (MkBox (node_id node) (node_position node) (bool_decide (selectedService = Some (box_label node))) (box_label node)
                (svc_type svc) (shown_state states node)
                (set_has (sanitizeName (box_label node)) (set_of_list (map sanitizeName observed))))
  end.

Definition edge_animated (motionEnabled : bool) (boxes : list ServiceBox) (edge : FlowEdge) : bool :=
  motionEnabled && existsb (fun b =>
    (bool_decide (bx_id b = edge_source edge) || bool_decide (bx_id b = edge_target edge))
    && match bx_state b with Testing | Provisioning => true | _ => false end) boxes.

(** ** Tests *)
Definition test_event (test : ScenarioTestDefinition) (events : list WorkflowLogEvent) : option WorkflowLogEvent :=
  List.find (fun e => is_str (ev_kind e) "test"
                      && (bool_decide (ev_testId e = Some (test_id test)) || bool_decide (ev_testName e = Some (test_name test))))
    (rev events).

Definition testStatus (test : ScenarioTestDefinition) (events : list WorkflowLogEvent) (storedStatus : option string)
    (scenarioStatus : option ScenarioRunStatus) (workflowStatus : option WorkflowRunStatus) : TestExecutionDisplayStatus :=
  reconcileTestExecutionStatus (test_event test events ≫= ev_activityStatus) storedStatus scenarioStatus workflowStatus.

Definition TEST_STATUS_LABELS (s : TestExecutionDisplayStatus) : string :=
  match s with
  | DPending => "Queued" | DRunning => "Executing" | DPassed => "Passed" | DFailed => "Failed" | DNotRun => "Not run"
  | DNotRecorded => "Result unavailable" | DInterrupted => "Interrupted"
  end.

Definition result_status_name (s : ScenarioTestResultStatus) : string :=
  match s with RPending => "pending" | RRunning => "running" | RPassed => "passed" | RFailed => "failed" end.

Definition stored_result (test : ScenarioTestDefinition) (results : list TestResultStore.TestResult) : option TestResultStore.TestResult :=
  List.find (fun r => bool_decide (TestResultStore.tr_testName (TestResultStore.tr_input r) = test_name test)) results.

(** The status of a test's row and its label. *)
Definition row_status (v : View) (scenarioId : option string) (test : ScenarioTestDefinition) : TestExecutionDisplayStatus :=
  let results := filter (fun r => TestResultStore.tr_scenarioId (TestResultStore.tr_input r) = scenarioId) (cv_testResults v) in
  testStatus test (selectedScenarioEvents v scenarioId)
    ((fun r => result_status_name (TestResultStore.tr_status (TestResultStore.tr_input r))) <$> stored_result test results)
    (scenario_status v scenarioId) (workflow_status v).

Definition settled_label (status : TestExecutionDisplayStatus) (attempts : list JsonValue) (recovered : bool) : string :=
  match status with
  | DPassed => if recovered then "Passed after retry" else TEST_STATUS_LABELS status
  | DFailed => if (1 <? length attempts)%nat
               then "Failed after " +:+ pretty (Z.of_nat (length attempts)) +:+ " attempts" else TEST_STATUS_LABELS status
  | _ => TEST_STATUS_LABELS status
  end.

Definition status_label (status : TestExecutionDisplayStatus) (latest : option WorkflowLogEvent) (resultData : option JsonValue) : string :=
  let '(attempts, recovered) := testRetryResult resultData in
  match latest with
  | Some e =>
      if is_str (ev_activityStatus e) "retrying"
      then "Attempt " +:+ pretty (default 2 (ev_attempt e)) +:+ " of " +:+ pretty (default 2 (ev_maxAttempts e))
      else settled_label status attempts recovered
  | None => settled_label status attempts recovered
  end.

(** ** Logs *)
Definition eventMatchesService (e : WorkflowLogEvent) (serviceName : string) : bool :=
  let d := event_diagnostic e in
  existsb (fun name => bool_decide (sanitizeName name = sanitizeName serviceName))
    (truthy_names (ev_serviceId e :: ev_serviceName e
       :: map Some (default [] (ev_serviceNames e)) ++ map Some (default [] (d ≫= dg_serviceNames))
          ++ map evi_serviceName (default [] (d ≫= dg_evidence)))).

Definition filteredEvents (serviceFilter : option string) (events : list WorkflowLogEvent) : list WorkflowLogEvent :=
  match serviceFilter with
  | Some s => if str_truthy s then filter (fun e => eventMatchesService e s = true) events else events
  | None => events
  end.

Definition containerLogs (serviceFilter : option string) (results : list TestResultStore.TestResult) : list (string * string) :=
  concat (map (fun r =>
    filter (fun p => ostr_truthy serviceFilter = false \/ sanitizeName p.1 = sanitizeName (default "" serviceFilter))
      (match TestResultStore.tr_containerLogs (TestResultStore.tr_input r) with Some m => entries m | None => [] end)) results).

(** [ActivityInspector]: the last twelve structured events, newest first. *)
Definition structured (events : list WorkflowLogEvent) : list WorkflowLogEvent :=
  rev (slice_last 12 (filter (fun e => ostr_truthy (ev_stage e) || ostr_truthy (ev_kind e) = true) events)).

(** ** Header *)
Definition formatDuration (milliseconds : Z) : string :=
  let seconds := Z.max 0 (milliseconds / 1000) in
  let minutes := seconds / 60 in
  let remainder := seconds mod 60 in
  if 0 <? minutes then pretty minutes +:+ "m " +:+ pretty remainder +:+ "s" else pretty remainder +:+ "s".

Definition formatEstimate (seconds : option Z) : string :=
  match seconds with
  | Some n => if n =? 0 then "Collecting history" else "~" +:+ formatDuration (n * 1000)
  | None => "Collecting history"
  end.

Definition elapsed (v : View) (now : Z) : Z :=
  match cv_execution v with
  | Some ex => num_or (default 0 (ExecutionStore.ex_finishedAt ex)) now - ExecutionStore.ex_startedAt ex
  | None => 0
  end.

(** [projects] gives the actions allowed in each project. *)
Definition canCancel (v : View) (projectId : string) (projects : list (string * list string)) : bool :=
  isWorkflowRunActive (workflow_status v)
  && existsb (fun p => bool_decide (p.1 = projectId) && set_has "run" p.2) projects.

Definition connection_text (v : View) (isConnected : bool) : string :=
  if isWorkflowRunActive (workflow_status v) then if isConnected then "Live stream" else "Polling fallback" else "Durable snapshot".

(** ** The inspector *)
Definition DIAGNOSTIC_STAGE_LABELS (stage : string) : option string :=
  assoc_get stage [("validation", "Validation"); ("translation", "Translation"); ("provision", "Provisioning");
                   ("execution", "Testing"); ("cleanup", "Cleanup"); ("aggregation", "Aggregation")].

Definition CODE_ACTIONS : list (string * list string) :=
  [("VALIDATION_ERROR",
    ["Return to the workflow and repair the highlighted definition.";
     "Run the affected scenario again after the revision is saved."]);
   ("INVALID_REQUEST",
    ["Review the scenario and service fields in this immutable revision.";
     "Correct the definition in the workflow builder, then start a new run."]);
   ("MISSING_FIELD",
    ["Add the missing configuration value in the workflow builder.";
     "Save the workflow before retrying the scenario."]);
   ("DEPENDENCY_CYCLE_ERROR",
    ["Break the circular service or test dependency in the workflow.";
     "Confirm the revised dependency order before running again."]);
   ("DEPENDENCY_MISSING",
    ["Restore the referenced service or test, or remove the stale dependency.";
     "Save a new workflow revision and retry."]);
   ("REGISTRY_AUTH_ERROR",
    ["Re-enter the session-only registry credentials in the workflow builder.";
     "Confirm that the credential can pull the configured image."]);
   ("IMAGE_PULL_ERROR",
    ["Verify the image name, tag, registry availability, and host access.";
     "Retry after registry access is restored."]);
   ("NETWORK_CREATE_ERROR",
    ["Check Docker host capacity and network availability.";
     "Retry the run after the host condition is resolved."]);
   ("NETWORK_CLEANUP_ERROR",
    ["Check whether the Docker host can remove the isolated run network.";
     "Report the run ID if the network remains after a retry."]);
   ("CONTAINER_START_ERROR",
    ["Inspect the bounded container evidence below for the startup failure.";
     "Verify the image command, environment, ports, and readiness settings."]);
   ("SERVICE_PROVISION_ERROR",
    ["Inspect the affected service evidence and readiness configuration.";
     "Reproduce with the same image and environment before changing the test."]);
   ("TEST_EXECUTION_ERROR",
    ["Compare the assertion with the observed response in the evidence below.";
     "Inspect the targeted service logs before assigning fault."]);
   ("TEST_TIMEOUT",
    ["Inspect service readiness and latency around the timed-out test.";
     "Adjust the timeout only if the observed behavior is expected."]);
   ("TEST_TRANSPORT_CONNECTION_RESET",
    ["Inspect the targeted service and host around the reset before assigning fault.";
     "Retry the run after checking container restarts, readiness, and host pressure."]);
   ("TEST_TRANSPORT_CONNECTION_REFUSED",
    ["Confirm the targeted service remained ready and listening on the configured port.";
     "Inspect container lifecycle and host capacity before retrying the run."]);
   ("TEST_TRANSPORT_BROKEN_PIPE",
    ["Inspect the targeted service and network path for an interrupted response.";
     "Retry once after checking container restarts and host pressure."]);
   ("TEST_TRANSPORT_CLOSED",
    ["Check whether the service or Docker network closed while the request was active.";
     "Inspect lifecycle evidence before changing the application assertion."]);
   ("TEST_TRANSPORT_UNEXPECTED_EOF",
    ["Inspect the service response and lifecycle evidence for an incomplete connection.";
     "Retry after verifying readiness and available host resources."]);
   ("TEST_TRANSPORT_EOF",
    ["Check whether the target closed the connection without a complete response.";
     "Inspect service and host evidence before retrying."]);
   ("TEST_TRANSPORT_BAD_CONNECTION",
    ["Inspect the database connection and host evidence around the interruption.";
     "Retry once if the driver discarded a stale connection without other provider evidence."]);
   ("SERVICE_CLEANUP_ERROR",
    ["Confirm the Docker host can stop and remove the listed resource.";
     "Retry cleanup or report the run ID if the resource remains allocated."]);
   ("INTERNAL_ERROR",
    ["Retry the run once to rule out a transient worker failure.";
     "If it repeats, report this run ID with the diagnostic code."])].

Definition defaultActions (d : ExecutionDiagnostic) (runId : string) : list string :=
  if decide (dg_source d = "tokyo_tester") then
    ["Retry the run once without changing the application services.";
     "If it repeats, report run " +:+ runId +:+ " with code " +:+ dg_code d +:+ "."]
  else if decide (dg_source d = "host_infrastructure") then
    ["Check Docker host capacity, networking, and external registry access.";
     "Retry after the host condition has been resolved."]
  else if decide (dg_source d = "service_environment") then
    ["Inspect the affected service evidence before changing its configuration.";
     "Reproduce the observed behavior using the same image and environment."]
  else
    ["Inspect the bounded evidence and the events immediately before the failure.";
     "Use the complete filtered logs to narrow the source before making changes."].

(** The runner's codes are upper-case names, so no inherited property is found. *)
Definition actions (d : ExecutionDiagnostic) (runId : string) : list string :=
  default (defaultActions d runId) (assoc_get (dg_code d) CODE_ACTIONS).

Definition inspected (selectedKey : option string) (ds : list ExecutionDiagnostic) : option ExecutionDiagnostic :=
  match List.find (fun d => bool_decide (Some (diagnosticKey d) = selectedKey)) ds with Some d => Some d | None => head ds end.

Definition diagnostic_path (scenarios : list ScenarioDefinition) (d : ExecutionDiagnostic) : string :=
  let scenario := List.find (fun s => bool_decide (Some (sdf_id s) = dg_scenarioId d)) scenarios in
  join " → " (truthy_names [Some (ostr_or (sdf_name <$> scenario) "Workflow"); DIAGNOSTIC_STAGE_LABELS (dg_stage d);
    ostr_first (dg_serviceNames d ≫= head) (dg_testName d)]).

(** ** The selection

    [sl_seen] is the diagnostic that the previous render had selected, on which the
    last effect depends. *)
#[export] Instance Evidence_eq_dec : EqDecision Evidence.
Proof. solve_decision. Defined.
#[export] Instance ExecutionDiagnostic_eq_dec : EqDecision ExecutionDiagnostic.
Proof. solve_decision. Defined.

Record Selection := MkSelection {
  sl_scenario : option string;
  sl_key : option string;
  sl_service : option string;
  sl_rawOpen : bool;
  sl_seen : option ExecutionDiagnostic
}.

Definition selectedDiagnostic (ds : list ExecutionDiagnostic) (s : Selection) : option ExecutionDiagnostic :=
  List.find (fun d => bool_decide (Some (diagnosticKey d) = sl_key s)) ds.

(** The three effects of a render, each with its own condition. *)
Definition scenario_effect (ids : list string) (ds : list ExecutionDiagnostic) (s : Selection) : option string :=
  if ostr_truthy (sl_scenario s) && set_has (default "" (sl_scenario s)) ids then sl_scenario s
  else ostr_first (List.find (fun d => ostr_truthy (dg_scenarioId d)) ds ≫= dg_scenarioId)
         (match ids with id :: _ => if str_truthy id then Some id else None | [] => None end).

Definition key_effect (ds : list ExecutionDiagnostic) (s : Selection) : option string :=
  match ds with d :: _ => if ostr_truthy (sl_key s) then sl_key s else Some (diagnosticKey d) | [] => sl_key s end.

Definition commit (ids : list string) (ds : list ExecutionDiagnostic) (s : Selection) : Selection :=
  let selected := selectedDiagnostic ds s in
  let scenario := scenario_effect ids ds s in
  let key := key_effect ds s in
  match selected with
  | Some d =>
      if decide (sl_seen s = Some d) then MkSelection scenario key (sl_service s) (sl_rawOpen s) selected
      else MkSelection (ostr_first (dg_scenarioId d) scenario) key (dg_serviceNames d ≫= head) true selected
  | None => MkSelection scenario key (sl_service s) (sl_rawOpen s) selected
  end.

(** Renders follow each other until nothing changes; three are enough. *)
Definition settle_selection (ids : list string) (ds : list ExecutionDiagnostic) (s : Selection) : Selection :=
  Nat.iter 3 (commit ids ds) s.

(** What the user selects. *)
Definition onSelectScenario (ds : list ExecutionDiagnostic) (scenarioId : string) (s : Selection) : Selection :=
  let first := List.find (fun d => bool_decide (dg_scenarioId d = Some scenarioId)) ds in
  MkSelection (Some scenarioId) (diagnosticKey <$> first) (first ≫= (fun d => dg_serviceNames d ≫= head)) (sl_rawOpen s) (sl_seen s).

Definition onSelectService (ds : list ExecutionDiagnostic) (serviceName : string) (s : Selection) : Selection :=
  let relevant := List.find (fun d => existsb (fun name => bool_decide (sanitizeName name = sanitizeName serviceName))
                                       (default [] (dg_serviceNames d))) ds in
  MkSelection (sl_scenario s) (match relevant with Some d => Some (diagnosticKey d) | None => sl_key s end) (Some serviceName) true
    (sl_seen s).

Definition onSelectTest (diagnostic : option ExecutionDiagnostic) (services : list string) (s : Selection) : Selection :=
  MkSelection (sl_scenario s) (match diagnostic with Some d => Some (diagnosticKey d) | None => sl_key s end) (head services)
    (bool_decide (is_Some diagnostic)) (sl_seen s).

Definition onSelectDiagnostic (d : ExecutionDiagnostic) (s : Selection) : Selection :=
  MkSelection (ostr_first (dg_scenarioId d) (sl_scenario s)) (Some (diagnosticKey d)) (dg_serviceNames d ≫= head) (sl_rawOpen s)
    (sl_seen s).

Definition onSelectEvent (e : WorkflowLogEvent) (s : Selection) : Selection :=
  MkSelection (sl_scenario s) (match event_diagnostic e with Some d => Some (diagnosticKey d) | None => sl_key s end)
    (ostr_first (ev_serviceName e) (ev_serviceNames e ≫= head)) (sl_rawOpen s) (sl_seen s).

(** ** When the page reconciles *)
Definition polls (v : View) (isHydrated : bool) (projectId : string) (isConnected : bool) : bool :=
  isHydrated && str_truthy projectId && negb isConnected && isWorkflowRunActive (workflow_status v).

(** The effect that reconciles once when the run has ended: whether it does so, and
    the run it remembers. *)
Definition reconciles_at_end (v : View) (isHydrated : bool) (workflowRunId : string) (remembered : option string) : bool * option string :=
  match workflow_status v with
  | Some status =>
      if isHydrated && negb (isWorkflowRunActive (Some status)) && negb (bool_decide (remembered = Some workflowRunId))
      then (true, Some workflowRunId) else (false, remembered)
  | None => (false, remembered)
  end.
End Cockpit.
