(* ===== verification/CockpitFacts.v ===== *)
(** * What the run page shows is right, and where it is not *)

From S2P Require Import Prelude FlowTypes SyncTypes JsLib Json JsonParse RunEvents ServiceNames ExecutionStore ScenarioRunStore TestResultStore.
From S2P Require Import CanvasFacts RunCockpit.
Open Scope Z_scope.
Import Cockpit.

(** ** Diagnostics *)

(** A diagnostic inside a value: the value itself, or one inside an item of a list
    or inside one of the five fields of an object that is no diagnostic. *)
Inductive reported : JsonValue -> JsonValue -> Prop :=
| ReportedHere d : isDiagnostic d = true -> reported d d
| ReportedItem l v d : v ∈ l -> reported v d -> reported (JArr l) d
| ReportedField fields k v d : isDiagnostic (JObj fields) = false -> k ∈ nesting_fields -> assoc_get k fields = Some v ->
    reported v d -> reported (JObj fields) d.

Lemma assoc_get_map {A B} (f : A -> B) k (l : list (string * A)) :
  assoc_get k (map (fun '(k, v) => (k, f v)) l) = f <$> assoc_get k l.
Proof. induction l as [|[k' v] l IH]; simpl; [done|]. by case_decide. Qed.

Lemma assoc_get_elem {A} k (v : A) (l : list (string * A)) : assoc_get k l = Some v -> (k, v) ∈ l.
Proof.
  induction l as [|[k' v'] l IH]; simpl; [done|]. case_decide; [intros [= ->]; subst; by left|]. intros E. right. by apply IH.
Qed.

Lemma found_iff v d : d ∈ diagnosticsFromValue v <-> reported v d.
Proof.
  revert d. induction v as [|b|n|s|l IH|fields IH] using json_ind'; intros d;
    try (split; [by intros ?%elem_of_nil|intros H; inversion H; subst; simpl in *; congruence]).
  - cbn [diagnosticsFromValue]. rewrite list_elem_of_In, in_concat. setoid_rewrite in_map_iff. setoid_rewrite <- list_elem_of_In. split.
    + intros (x & (v & <- & Hv) & Hd). apply (ReportedItem l v); [done|]. rewrite Forall_forall in IH. by apply (IH v Hv d).
    + intros H. inversion H as [? E|l' v d' Hv Hr|]; subst; [discriminate|]. exists (diagnosticsFromValue v).
      split; [by exists v|]. rewrite Forall_forall in IH. by apply (IH v Hv d).
  - cbn [diagnosticsFromValue]. destruct (isDiagnostic (JObj fields)) eqn:Ed.
    + rewrite list_elem_of_singleton. split; [intros ->; by constructor|]. intros H. inversion H; subst; [done|congruence].
    + cbv zeta. rewrite list_elem_of_In, in_concat. setoid_rewrite in_map_iff. setoid_rewrite <- list_elem_of_In. split.
      * intros (x & (k & <- & Hk) & Hd). rewrite assoc_get_map in Hd.
        destruct (assoc_get k fields) as [v|] eqn:E; simpl in Hd; [|by apply elem_of_nil in Hd].
        apply (ReportedField fields k v); try done. rewrite Forall_forall in IH.
        by apply (IH (k, v) (assoc_get_elem _ _ _ E) d).
      * intros H. inversion H as [? E| |fs k v d' _ Hk E Hr]; subst; [congruence|].
        exists (diagnosticsFromValue v). split; [exists k; split; [by rewrite assoc_get_map, E|done]|].
        rewrite Forall_forall in IH. by apply (IH (k, v) (assoc_get_elem _ _ _ E) d).
Qed.

(** A diagnostic the run has raised: in an event, or in a stored result of a
    scenario, a test or the run. *)
Definition raised (v : View) (j : JsonValue) : Prop :=
  (exists e, e ∈ rawEvents v /\ ev_diagnostic e = Some j /\ json_truthy j = true)
  \/ (exists r x, r ∈ cv_scenarioRuns v /\ ScenarioRunStore.run_result r = Some x /\ reported x j)
  \/ (exists r x, r ∈ cv_testResults v /\ TestResultStore.tr_resultData (TestResultStore.tr_input r) = Some x /\ reported x j)
  \/ (exists ex x, cv_execution v = Some ex /\ ExecutionStore.ex_result ex = Some x /\ reported x j).

Lemma found_in_iff value d : d ∈ found_in value <-> exists x j, value = Some x /\ reported x j /\ d = as_diagnostic j.
Proof.
  destruct value as [x|]; simpl; [|split; [by intros ?%elem_of_nil|by intros (? & ? & ? & _)]].
  rewrite list_elem_of_fmap. setoid_rewrite found_iff. naive_solver.
Qed.

Lemma elem_of_concat_map {A B} (f : A -> list B) l x : x ∈ concat (map f l) <-> exists a, a ∈ l /\ x ∈ f a.
Proof.
  rewrite list_elem_of_In, in_concat. setoid_rewrite in_map_iff. setoid_rewrite <- list_elem_of_In. naive_solver.
Qed.

Lemma candidates_iff v d : d ∈ candidates v <-> exists j, raised v j /\ d = as_diagnostic j.
Proof.
  unfold candidates, raised. rewrite !elem_of_app, !elem_of_concat_map. setoid_rewrite found_in_iff. split.
  - intros [(e & He & Hd)|[(r & Hr & x & j & E & H & ->)|[(r & Hr & x & j & E & H & ->)|(x & j & E & H & ->)]]].
    + unfold event_diagnostic in Hd. destruct (ev_diagnostic e) as [j|] eqn:Ej; [|by apply elem_of_nil in Hd].
      destruct (json_truthy j) eqn:Et; [|by apply elem_of_nil in Hd]. simpl in Hd. apply list_elem_of_singleton in Hd. subst.
      exists j. split; [left; by exists e|done].
    + exists j. split; [right; left; by exists r, x|done].
    + exists j. split; [do 2 right; left; by exists r, x|done].
    + apply bind_Some in E as (ex & E1 & E2). exists j. split; [do 3 right; by exists ex, x|done].
  - intros (j & [(e & He & E & Et)|[(r & x & Hr & E & H)|[(r & x & Hr & E & H)|(ex & x & E1 & E2 & H)]]] & ->).
    + left. exists e. split; [done|]. unfold event_diagnostic. rewrite E, Et. by apply list_elem_of_singleton.
    + right; left. exists r. split; [done|]. by exists x, j.
    + do 2 right; left. exists r. split; [done|]. by exists x, j.
    + do 3 right. exists x, j. by rewrite E1.
Qed.

(** The map that keeps the last value of each key. *)
Lemma by_key_values {A} (key : A -> string) (l : list A) :
  let values := jvalues (jmap_of_pairs (map (fun x => (key x, x)) l)) in
  NoDup (map key values) /\ (forall x, x ∈ values -> x ∈ l) /\ (forall x, x ∈ l -> key x ∈ map key values).
Proof.
  unfold jmap_of_pairs. cbv zeta.
  enough (H : forall (m : jmap string A), jmap_wf m -> (forall k x, m !! k = Some x -> key x = k) ->
    let m' := fold_left (fun m p => <[p.1 := p.2]> m) (map (fun x => (key x, x)) l) m in
    jmap_wf m' /\ (forall k x, m' !! k = Some x -> key x = k /\ (x ∈ l \/ m !! k = Some x))
    /\ (forall x, x ∈ l -> is_Some (m' !! key x)) /\ (forall k, is_Some (m !! k) -> is_Some (m' !! k))).
  { destruct (H ∅ (jmap_wf_empty (K := string))) as (Hw & Hk & Hin & _); [done|].
    set (m' := fold_left _ _ _) in *. clearbody m'.
    assert (E : map key (jvalues m') = jkeys m').
    { unfold jvalues, jkeys. rewrite map_map. apply map_ext_in. intros [k x] Hkx%list_elem_of_In.
      apply (elem_of_jlookup k x m' Hw) in Hkx. by destruct (Hk k x Hkx). }
    rewrite E. split; [exact Hw|]. split.
    - intros x Hx. unfold jvalues in Hx. apply list_elem_of_fmap in Hx as ([k y] & -> & Hy).
      apply (elem_of_jlookup k y m' Hw) in Hy. by destruct (Hk k y Hy) as [_ [?|?]].
    - intros x Hx. destruct (Hin x Hx) as [y Hy]. apply (jlookup_elem_of _ _ m') in Hy.
      unfold jkeys. apply list_elem_of_fmap. by exists (key x, y). }
  induction l as [|x l IH]; intros m Hw Hm; simpl; [split; [done|]; split; [intros k x Hx; split; [by apply Hm|by right]|]; split; [by intros x ?%elem_of_nil|done]|].
  destruct (IH (<[key x := x]> m)) as (H1 & H2 & H3 & H4).
  - by apply jmap_wf_insert.
  - intros k y. rewrite jlookup_insert. case_decide; [by intros [= <-]|apply Hm].
  - split; [done|]. split; [|split].
    + intros k y Hy. destruct (H2 k y Hy) as [Hk [?|Hl]]; [split; [done|left; by right]|]. split; [done|].
      rewrite jlookup_insert in Hl. case_decide; [injection Hl as <-; left; by left|by right].
    + intros y [->|Hy]%elem_of_cons; [|by apply H3]. apply H4. rewrite jlookup_insert_eq. by eexists.
    + intros k Hk. apply H4. rewrite jlookup_insert. case_decide; [by eexists|done].
Qed.

(** The issues of a run page are those the run has raised, each once: every
    issue shown was raised by an event or sits in a stored result, in lists and under
    the fields in which results nest to any depth; every one that was raised is shown, up to repetition under the same
    key; and no key is shown twice. *)
Theorem issues_complete v :
  NoDup (map diagnosticKey (diagnostics v))
  /\ (forall d, d ∈ diagnostics v -> exists j, raised v j /\ d = as_diagnostic j)
  /\ (forall j, raised v j -> diagnosticKey (as_diagnostic j) ∈ map diagnosticKey (diagnostics v)).
Proof.
  destruct (by_key_values diagnosticKey (candidates v)) as (H1 & H2 & H3). split; [done|]. split.
  - intros d Hd. by apply candidates_iff, H2.
  - intros j Hj. apply H3, candidates_iff. by exists j.
Qed.

(** ** Lanes *)
Definition step_rank (s : StepState) : Z := match s with StepComplete => 2 | StepActive => 1 | _ => 0 end.

Lemma ended_lane v scenario : isTerminalWorkflowStatus (workflow_status v) = true -> lane_terminal v scenario = true.
Proof.
  intros H. unfold lane_terminal, lane_status. destruct (workflow_status v) as [[]|], (scenario_status v _) as [[]|]; done.
Qed.

Lemma lane_lookup v scenario i s : lane v scenario !! i = Some s ->
  exists stage, STAGES !! i = Some stage /\ stage_index stage = Z.of_nat i
    /\ s = stepState stage (lane_current v scenario) (stage_failed v scenario stage) (lane_terminal v scenario).
Proof.
  unfold lane. intros (stage & -> & Hs)%list_lookup_fmap_Some. exists stage. split; [done|]. split; [|done].
  do 5 (destruct i as [|i]; [by injection Hs as <-|]). done.
Qed.

(** A lane tells the story of its scenario: a step is marked failed exactly when an
    issue was raised in its stage; the other steps come in the order complete, in
    progress, pending with at most one in progress; and once the run has ended no
    step is left in progress or pending. *)
Theorem lane_tells_story v scenario :
  (forall i stage, STAGES !! i = Some stage ->
     (lane v scenario !! i = Some StepFailed <-> stage_failed v scenario stage = true))
  /\ (forall i j s t, (i < j)%nat -> lane v scenario !! i = Some s -> lane v scenario !! j = Some t ->
        s <> StepFailed -> t <> StepFailed -> step_rank t <= step_rank s /\ ~ (s = StepActive /\ t = StepActive))
  /\ (isTerminalWorkflowStatus (workflow_status v) = true ->
        Forall (fun s => s = StepComplete \/ s = StepFailed) (lane v scenario)).
Proof.
  split; [|split].
  - intros i stage Hs. unfold lane. rewrite list_lookup_fmap, Hs. simpl. split; [|intros ->; done].
    unfold stepState. by destruct (stage_failed v scenario stage); [|repeat case_match].
  - intros i j s t Hij Hi Hj Hs Ht. apply lane_lookup in Hi as (si & _ & Ei & ->). apply lane_lookup in Hj as (sj & _ & Ej & ->).
    revert Hs Ht. unfold stepState. destruct (stage_failed v scenario si); [done|]. destruct (stage_failed v scenario sj); [done|].
    intros _ _. rewrite Ei, Ej. set (c := stage_index (lane_current v scenario)).
    assert (Hc : si = LComplete -> False) by (intros ->; destruct sj; simpl in *; lia).
    rewrite (bool_decide_eq_false_2 (si = LComplete)) by done. cbn [andb].
    assert (H4 : lane_terminal v scenario = true -> c = 4) by (intros E; unfold c, lane_current; by rewrite E).
    assert (Hi4 : stage_index si < 4) by (destruct si; simpl; lia || by destruct Hc).
    destruct (lane_terminal v scenario) eqn:Et, (bool_decide (sj = LComplete)); try specialize (H4 eq_refl);
      cbn [andb negb]; rewrite ?andb_false_r, ?andb_true_r; repeat case_match; bools; simpl; (split; [lia|]); intros []; try done; lia.
  - intros Ht%(ended_lane v scenario). apply Forall_forall. intros s (i & Hi)%list_elem_of_lookup.
    apply lane_lookup in Hi as (stage & _ & Ei & ->). unfold stepState, lane_current. rewrite Ht.
    destruct (stage_failed v scenario stage); [by right|left]. by destruct stage.
Qed.

(** ** Services *)
Lemma reconcile_lookup ss ws (m : States) k : jmap_wf m ->
  reconcile_all ss ws m !! k = (fun s => reconcileServiceExecutionState s ss ws) <$> m !! k.
Proof.
  intros Hw. unfold reconcile_all.
  assert (H : forall l (m0 : States), NoDup (map fst l) ->
    fold_left (fun m '(name, state) => <[name := reconcileServiceExecutionState state ss ws]> m) l m0 !! k
    = match assoc_get k l with Some s => Some (reconcileServiceExecutionState s ss ws) | None => m0 !! k end).
  { induction l as [|[n s] l IH]; intros m0 Hn; [done|]. cbn [fold_left map fst] in *. apply NoDup_cons in Hn as [Hx Hn].
    rewrite IH by done. rewrite jlookup_insert. cbn [assoc_get]. destruct (decide (k = n)) as [->|Hk].
    - rewrite (proj2 (assoc_get_None n l) Hx). by rewrite decide_True.
    - rewrite (decide_False (P := n = k)) by congruence. by case_match. }
  rewrite H by exact Hw. change (m !! k) with (assoc_get k (entries m)). by destruct (assoc_get k (entries m)).
Qed.

(** Entries are only added or overwritten. *)
Lemma mark_lookup state (m : States) name k :
  mark state m name !! k = if decide (k = name \/ k = sanitizeName name) then Some state else m !! k.
Proof.
  unfold mark. rewrite !jlookup_insert. repeat case_decide; subst; try done; exfalso; naive_solver.
Qed.

Lemma marks_lookup state names (m : States) k :
  fold_left (mark state) names m !! k
  = if decide (Exists (fun name => k = name \/ k = sanitizeName name) names) then Some state else m !! k.
Proof.
  revert m. induction names as [|n names IH]; intros m; cbn [fold_left].
  - by rewrite decide_False by by intros ?%Exists_nil.
  - rewrite IH, mark_lookup. repeat case_decide; try done; rewrite Exists_cons in *; naive_solver.
Qed.

Lemma mark_wf state (m : States) name : jmap_wf m -> jmap_wf (mark state m name).
Proof. intros H. unfold mark. auto with tokyo. Qed.

Lemma marks_wf state names (m : States) : jmap_wf m -> jmap_wf (fold_left (mark state) names m).
Proof. revert m. induction names as [|n names IH]; intros m H; [done|]. by apply IH, mark_wf. Qed.

Lemma event_wf m e : jmap_wf m -> jmap_wf (apply_event m e).
Proof. intros H. unfold apply_event. apply marks_wf. case_match; [by apply marks_wf|done]. Qed.

Lemma events_wf l m : jmap_wf m -> jmap_wf (fold_left apply_event l m).
Proof. revert m. induction l as [|e l IH]; intros m H; [done|]. by apply IH, event_wf. Qed.

Lemma event_present m e k : is_Some (m !! k) -> is_Some (apply_event m e !! k).
Proof.
  intros H. unfold apply_event. rewrite marks_lookup. case_decide; [by eexists|].
  case_match; [|done]. rewrite marks_lookup. case_decide; [by eexists|done].
Qed.

Lemma events_present l m k : is_Some (m !! k) -> is_Some (fold_left apply_event l m !! k).
Proof. revert m. induction l as [|e l IH]; intros m H; [done|]. by apply IH, event_present. Qed.

(** The states before any event: every name of every node, all of them queued. *)
Lemma initial_ok nodes m st : initial_states nodes m = Return st -> jmap_wf m -> (forall k s, m !! k = Some s -> s = Queued) ->
  jmap_wf st /\ (forall k s, st !! k = Some s -> s = Queued) /\ (forall k, is_Some (m !! k) -> is_Some (st !! k))
  /\ (forall node, node ∈ nodes -> is_Some (st !! box_label node)
                                   /\ forall label, nd_label (node_data node) = Some label -> is_Some (st !! label)).
Proof.
  revert m. induction nodes as [|n nodes IH]; intros m H Hw Hq; cbn [initial_states] in H.
  { injection H as <-. split; [done|]. split; [done|]. split; [done|]. by intros ? ?%elem_of_nil. }
  unfold initial_state in H. destruct (nd_label (node_data n)) as [label|] eqn:El; [|done]. simpl in H.
  set (m1 := <[node_id n := Queued]> _) in *.
  assert (Hm1 : forall k, is_Some (m !! k) \/ k = node_id n \/ k = label -> is_Some (m1 !! k)).
  { intros k Hk. unfold m1. rewrite !jlookup_insert. repeat case_decide; try by eexists. naive_solver. }
  destruct (IH m1 H) as (H1 & H2 & H3 & H4).
  - unfold m1. auto with tokyo.
  - intros k s. unfold m1. rewrite !jlookup_insert. repeat case_decide; try (by intros [= <-]). apply Hq.
  - split; [done|]. split; [done|]. split; [intros k Hk; apply H3, Hm1; by left|].
    intros node [->|Hn]%elem_of_cons; [|by apply H4]. split.
    + apply H3, Hm1. right. unfold box_label. rewrite El. unfold ostr_or. case_match; auto.
    + intros l' [= <-]%(eq_trans (eq_sym El)). apply H3, Hm1. by right; right.
Qed.

Lemma states_ok v sid st : serviceStates v sid = Return st -> exists m0 : States,
  jmap_wf m0 /\ (forall k s, m0 !! k = Some s -> s = Queued)
  /\ (forall d node, cv_definition v = Some d -> node ∈ xd_nodes d -> is_Some (m0 !! box_label node)
        /\ forall label, nd_label (node_data node) = Some label -> is_Some (m0 !! label))
  /\ forall k, st !! k = (fun s => reconcileServiceExecutionState s (scenario_status v sid) (workflow_status v))
                           <$> fold_left apply_event (selectedScenarioEvents v sid) m0 !! k.
Proof.
  unfold serviceStates. destruct (initial_states _ ∅) as [m0|e] eqn:E; [|done]. simpl. intros [= <-].
  destruct (initial_ok _ _ _ E (jmap_wf_empty (K := string))) as (H1 & H2 & _ & H4); [done|].
  exists m0. split; [done|]. split; [done|]. split.
  - intros d node Ed Hn. rewrite Ed in *. by apply H4.
  - intros k. rewrite reconcile_lookup; [done|]. by apply events_wf.
Qed.

(** Once a run has ended, every service of its definition is shown as complete or
    failed, whatever its last event was. *)
Theorem services_settle v sid st d node : isTerminalWorkflowStatus (workflow_status v) = true ->
  serviceStates v sid = Return st -> cv_definition v = Some d -> node ∈ xd_nodes d ->
  shown_state st node = Complete \/ shown_state st node = ServiceFailed.
Proof.
  intros Ht Hst Hd Hn. destruct (states_ok v sid st Hst) as (m0 & _ & _ & Hp & Hl).
  destruct (Hp d node Hd Hn) as [Hb _]. unfold shown_state. rewrite Hl.
  destruct (events_present (selectedScenarioEvents v sid) m0 _ Hb) as [s ->]. simpl.
  unfold reconcileServiceExecutionState. rewrite Ht, orb_true_r. destruct s; auto.
Qed.

(** The services the events speak of. *)
Definition speaks_of (e : WorkflowLogEvent) (name : string) : Prop := name ∈ event_names e \/ name ∈ blamed_names e.

Lemma silent_event m e k : sanitizeName k <> k -> ~ speaks_of e k -> apply_event m e !! k = m !! k.
Proof.
  intros Hk Hn.
  assert (H : forall names, k ∉ names -> ~ Exists (fun name => k = name \/ k = sanitizeName name) names).
  { intros names Hx (name & Hin & [->| ->])%Exists_exists; [done|]. apply Hk, canonical_fixed, sanitize_canonical. }
  unfold apply_event. rewrite marks_lookup, decide_False by (apply H; intros ?; apply Hn; by right).
  case_match; [|done]. rewrite marks_lookup, decide_False by (apply H; intros ?; apply Hn; by left). done.
Qed.

(** The runner names a service by its sanitised name and its id, but the map looks
    the label up first and finds the state it was initialised with: a service whose
    label is not its sanitised name is shown as queued as long as the run lasts,
    whatever happens to it. *)
Theorem label_hides_progress v sid st d node label :
  serviceStates v sid = Return st -> cv_definition v = Some d -> node ∈ xd_nodes d ->
  nd_label (node_data node) = Some label -> sanitizeName label <> label -> str_truthy label = true ->
  Forall (fun e => ~ speaks_of e label) (selectedScenarioEvents v sid) ->
  isTerminalScenarioStatus (Some (resolveScenarioPresentationStatus (scenario_status v sid) (workflow_status v))) = false ->
  isTerminalWorkflowStatus (workflow_status v) = false ->
  shown_state st node = Queued.
Proof.
  intros Hst Hd Hn El Hs Ht Hf H1 H2. destruct (states_ok v sid st Hst) as (m0 & _ & Hq & Hp & Hl).
  destruct (Hp d node Hd Hn) as [_ Hlab]. destruct (Hlab label El) as [s Hm].
  assert (E : fold_left apply_event (selectedScenarioEvents v sid) m0 !! label = Some Queued).
  { rewrite <- (Hq label s Hm), <- Hm. clear Hm Hl Hst Hlab Hp Hq. revert m0.
    induction Hf as [|e l He _ IH]; intros m0; [done|]. cbn [fold_left]. rewrite IH. by apply silent_event. }
  unfold shown_state, box_label. rewrite El. cbn [ostr_or]. rewrite Ht, Hl, E.
  cbn [fmap option_fmap option_map]. unfold reconcileServiceExecutionState. by rewrite H1, H2.
Qed.

(** ** The selection *)
Lemma key_truthy d : str_truthy (diagnosticKey d) = true.
Proof.
  unfold diagnosticKey. apply str_truthy_spec. simpl. by destruct (dg_code d).
Qed.

Lemma first_selected ds d s : NoDup (map diagnosticKey ds) -> d ∈ ds -> sl_key s = Some (diagnosticKey d) ->
  selectedDiagnostic ds s = Some d.
Proof.
  intros Hn Hd Hk. unfold selectedDiagnostic. rewrite Hk. induction ds as [|x ds IH]; [by apply elem_of_nil in Hd|].
  cbn [map] in Hn. apply NoDup_cons in Hn as [Hx Hn]. simpl. case_bool_decide as E.
  - injection E as E. apply elem_of_cons in Hd as [->|Hd]; [done|]. exfalso. apply Hx. rewrite E. apply list_elem_of_fmap. by exists d.
  - apply elem_of_cons in Hd as [->|Hd]; [done|]. by apply IH.
Qed.

Lemma kept_scenario ids ds s id : sl_scenario s = Some id -> str_truthy id = true -> id ∈ ids -> scenario_effect ids ds s = Some id.
Proof.
  intros E Ht Hi. unfold scenario_effect. rewrite E. simpl. rewrite Ht. apply set_has_spec in Hi. by rewrite Hi.
Qed.

Lemma settle_unfold ids ds s : settle_selection ids ds s = commit ids ds (commit ids ds (commit ids ds s)).
Proof. done. Qed.

Lemma key_effect_twice ds s t : sl_key t = key_effect ds s -> key_effect ds t = sl_key t.
Proof.
  intros E. unfold key_effect at 1. destruct ds as [|d ds]; [done|].
  enough (H : ostr_truthy (sl_key t) = true) by (by rewrite H).
  rewrite E. unfold key_effect. destruct (ostr_truthy (sl_key s)) eqn:Hs; [done|]. apply key_truthy.
Qed.

Lemma scenario_effect_twice ids ds s t : sl_scenario t = scenario_effect ids ds s -> scenario_effect ids ds t = sl_scenario t.
Proof.
  unfold scenario_effect. intros E. destruct (ostr_truthy (sl_scenario s) && _) eqn:Hs.
  - by rewrite E, Hs.
  - rewrite <- E. by destruct (ostr_truthy (sl_scenario t) && _).
Qed.

Lemma commit_key ids ds s : sl_key (commit ids ds s) = key_effect ds s.
Proof. unfold commit. by repeat case_match. Qed.

Lemma commit_seen ids ds s : sl_seen (commit ids ds s) = selectedDiagnostic ds s.
Proof. unfold commit. by repeat case_match. Qed.

Lemma commit_quiet ids ds s : sl_seen s = selectedDiagnostic ds s ->
  commit ids ds s = MkSelection (scenario_effect ids ds s) (key_effect ds s) (sl_service s) (sl_rawOpen s) (sl_seen s).
Proof. intros E. unfold commit. rewrite <- E. destruct (sl_seen s); [by rewrite decide_True|done]. Qed.

(** The three effects set what the others read, yet they never chase each other:
    from any selection, three renders reach one that a further render leaves alone. *)
Theorem selection_settles ids ds s :
  commit ids ds (settle_selection ids ds s) = settle_selection ids ds s.
Proof.
  rewrite settle_unfold. set (s1 := commit ids ds s). set (s2 := commit ids ds s1).
  assert (K2 : sl_key s2 = sl_key s1) by (unfold s2; rewrite commit_key; apply (key_effect_twice ds s), commit_key).
  assert (Q2 : sl_seen s2 = selectedDiagnostic ds s2).
  { unfold s2 at 1. rewrite commit_seen. unfold selectedDiagnostic. by rewrite K2. }
  assert (K3 : key_effect ds s2 = sl_key s2) by (apply (key_effect_twice ds s1), commit_key).
  rewrite (commit_quiet ids ds s2 Q2), K3. set (s3 := MkSelection _ _ _ _ _).
  rewrite commit_quiet by exact Q2.
  rewrite (scenario_effect_twice ids ds s2 s3 eq_refl). change (key_effect ds s3) with (key_effect ds s2). by rewrite K3.
Qed.

(** Selecting a scenario that has issues works: when the effects have settled the
    scenario is selected, and with it its first issue. *)
Theorem diagnosed_scenario_selected ids ds s id d : NoDup (map diagnosticKey ds) -> str_truthy id = true -> id ∈ ids ->
  List.find (fun d => bool_decide (dg_scenarioId d = Some id)) ds = Some d ->
  let s' := settle_selection ids ds (onSelectScenario ds id s) in
  sl_scenario s' = Some id /\ selectedDiagnostic ds s' = Some d.
Proof.
  intros Hn Ht Hi Hf. cbv zeta.
  assert (Hd : d ∈ ds /\ dg_scenarioId d = Some id).
  { apply find_some in Hf as [H1 H2%bool_decide_eq_true_1]. split; [by apply list_elem_of_In|done]. }
  destruct Hd as [Hd Hid].
  assert (Hstep : forall s0, sl_scenario s0 = Some id -> sl_key s0 = Some (diagnosticKey d) ->
    sl_scenario (commit ids ds s0) = Some id /\ sl_key (commit ids ds s0) = Some (diagnosticKey d)).
  { intros s0 H1 H2. unfold commit. rewrite (first_selected ds d s0 Hn Hd H2), (kept_scenario ids ds s0 id H1 Ht Hi).
    assert (Hkey : key_effect ds s0 = Some (diagnosticKey d)).
    { unfold key_effect. rewrite H2. simpl. rewrite key_truthy. by destruct ds. }
    rewrite Hkey, Hid. case_decide; cbn [sl_scenario sl_key ostr_first]; [done|]. unfold ostr_first. by destruct (ostr_truthy (Some id)). }
  set (s0 := onSelectScenario ds id s).
  assert (H0 : sl_scenario s0 = Some id /\ sl_key s0 = Some (diagnosticKey d)).
  { unfold s0, onSelectScenario. rewrite Hf. done. }
  rewrite settle_unfold. destruct H0 as [H1 H2]. destruct (Hstep _ H1 H2) as [H3 H4].
  destruct (Hstep _ H3 H4) as [H5 H6]. destruct (Hstep _ H5 H6) as [H7 H8].
  split; [exact H7|]. by apply first_selected.
Qed.

(** Selecting a scenario without issues does not: with no issue of its own to select,
    the page selects the first issue of the run, and that selects the scenario it
    belongs to. *)
Theorem healthy_scenario_unselectable ids ds s id d0 other : ids <> [] -> id ∈ ids -> str_truthy id = true ->
  head ds = Some d0 -> dg_scenarioId d0 = Some other -> other ∈ ids -> str_truthy other = true ->
  Forall (fun d => dg_scenarioId d <> Some id) ds ->
  sl_scenario (settle_selection ids ds (onSelectScenario ds id s)) = Some other.
Proof.
  intros _ Hi Ht Hh Ho Hoi Hot Hf. destruct ds as [|d ds]; [done|]. injection Hh as ->.
  assert (En : List.find (fun d => bool_decide (dg_scenarioId d = Some id)) (d0 :: ds) = None).
  { destruct (List.find _ _) as [x|] eqn:E; [|done]. apply find_some in E as [H1%list_elem_of_In H2%bool_decide_eq_true_1].
    rewrite Forall_forall in Hf. by destruct (Hf x H1). }
  unfold onSelectScenario. rewrite En. cbn [option_fmap fmap option_bind mbind].
  rewrite settle_unfold.
  set (s0 := MkSelection _ _ _ _ _).
  assert (E1 : commit ids (d0 :: ds) s0 = MkSelection (Some id) (Some (diagnosticKey d0)) (sl_service s0) (sl_rawOpen s0) None).
  { unfold commit. rewrite (kept_scenario _ _ s0 id eq_refl Ht Hi).
    assert (Es : selectedDiagnostic (d0 :: ds) s0 = None) by (unfold selectedDiagnostic; simpl; clear; induction ds; done).
    rewrite Es. unfold key_effect. simpl. done. }
  rewrite E1. clear E1. set (s1 := MkSelection _ _ _ _ _).
  assert (E2 : selectedDiagnostic (d0 :: ds) s1 = Some d0).
  { unfold selectedDiagnostic. simpl. by rewrite bool_decide_eq_true_2. }
  assert (E3 : sl_scenario (commit ids (d0 :: ds) s1) = Some other
               /\ sl_seen (commit ids (d0 :: ds) s1) = Some d0 /\ sl_key (commit ids (d0 :: ds) s1) = Some (diagnosticKey d0)).
  { unfold commit. rewrite E2. cbn [sl_seen s1]. rewrite decide_False by done. cbn [sl_scenario sl_seen sl_key].
    rewrite Ho. split; [unfold ostr_first; cbn [ostr_truthy]; by rewrite Hot|]. split; [done|].
    unfold key_effect. cbn [s1 sl_key ostr_truthy]. by rewrite key_truthy. }
  destruct E3 as (E3 & E4 & E5). set (s2 := commit ids (d0 :: ds) s1) in *. clearbody s2.
  unfold commit. rewrite (kept_scenario _ _ s2 other E3 Hot Hoi). unfold selectedDiagnostic. simpl.
  rewrite bool_decide_eq_true_2 by (by rewrite E5). by rewrite decide_True.
Qed.

(** ** Instances *)
Definition shown_node : FlowNode := canvas_node "n1" "Orders API" Generic [].
Definition shown_definition : ExecutionDefinition :=
  MkDefinition [shown_node] [] [MkScenarioDef "s1" "Checkout" []; MkScenarioDef "s2" "Refund" []].
Definition shown_event : WorkflowLogEvent :=
  MkLogEvent "r1" "p1" "w1" (Some "s1") None None "testing" None (Some "execution") (Some "test") (Some "running")
    (Some "orders_api") None None None None None None None None 5 1 None None.
Definition shown_view (status : WorkflowRunStatus) : View :=
  MkView (Some shown_definition)
    (Some (ExecutionStore.MkExecution "r1" "p1" "w1" status [] None None 0 None [] None ExecutionStore.no_queue_info
       (MkMeta 1 "t0" "t1" "user-1" "client-1" false))) [] [] [shown_event] [].
Definition shown_states (status : WorkflowRunStatus) : States :=
  match serviceStates (shown_view status) (Some "s1") with Return st => st | Throw _ => ∅ end.
Definition shown_issue (scenario summary : string) : ExecutionDiagnostic :=
  MkDiagnostic "HTTP_STATUS_MISMATCH" "test" "high" "execution" summary (Some scenario) None None None None.

Lemma services_settle_witness :
  shown_state (shown_states WCompleted) shown_node = Complete \/ shown_state (shown_states WCompleted) shown_node = ServiceFailed.
Proof.
  apply (services_settle (shown_view WCompleted) (Some "s1") _ shown_definition); try reflexivity. by left.
Defined.

Lemma label_hides_progress_witness : shown_state (shown_states WRunning) shown_node = Queued.
Proof.
  apply (label_hides_progress (shown_view WRunning) (Some "s1") _ shown_definition _ "Orders API"); try reflexivity.
  - by left.
  - vm_compute. discriminate.
  - repeat constructor; vm_compute; intros [H|H]; apply list_elem_of_In in H; simpl in H; intuition discriminate.
Defined.

Lemma diagnosed_scenario_selected_witness :
  let ds := [shown_issue "s1" "a"; shown_issue "s2" "b"] in
  let s' := settle_selection ["s1"; "s2"] ds (onSelectScenario ds "s2" (MkSelection None None None false None)) in
  sl_scenario s' = Some "s2" /\ selectedDiagnostic ds s' = Some (shown_issue "s2" "b").
Proof.
  apply (diagnosed_scenario_selected ["s1"; "s2"] [shown_issue "s1" "a"; shown_issue "s2" "b"]); try reflexivity.
  - apply (bool_decide_unpack _). vm_compute. exact I.
  - apply (bool_decide_unpack _). vm_compute. exact I.
Defined.

Lemma healthy_scenario_unselectable_witness :
  sl_scenario (settle_selection ["s1"; "s2"] [shown_issue "s1" "a"]
    (onSelectScenario [shown_issue "s1" "a"] "s2" (MkSelection None None None false None))) = Some "s1".
Proof.
  apply (healthy_scenario_unselectable ["s1"; "s2"] [shown_issue "s1" "a"] _ "s2" (shown_issue "s1" "a") "s1"); try reflexivity; try done.
  - apply (bool_decide_unpack _). vm_compute. exact I.
  - apply (bool_decide_unpack _). vm_compute. exact I.
  - repeat constructor. discriminate.
Defined.
