(* ===== verification/WorkflowListPage.v ===== *)
(** * The workflow list: [ui-v2/src/modules/workflow/components/Workflowlist.tsx]

    What the list shows, and its handlers: creating a workflow, importing a
    bundle or a template, exporting, cloning, and deleting a workflow with all
    that belongs to it.  [ListView] is what the component read from the stores and
    the project context when it rendered: its handlers close over these values.
    Its React state, its toasts, its downloads and the page it navigated to are
    [ListState]. *)

From S2P Require Import Prelude FlowTypes SyncTypes ClientId FastQueue JsLib Json Process SyncService SyncMiddleware.
From S2P Require Import WorkflowStore ScenarioStore ExecutionStore ScenarioRunStore TestResultStore RunSnapshot Browser SyncHydration.
From S2P Require Import ServiceNames WorkflowBundle Canvas Templates RunWorkflow.
From Stdlib Require Import Ascii.
Open Scope Z_scope.
Import Canvas.

Module WorkflowList.
(** ** What a render has *)
Record ListView := MkListView {
  lv_workflows : jmap string WorkflowStore.Workflow;
  lv_hydrated : bool;
  lv_isHydrating : bool;
  lv_scenarios : jmap string Scenario;
  lv_executions : jmap string ExecutionStore.WorkflowExecution;
  lv_scenarioRuns : jmap string ScenarioRunStore.ScenarioRun;
  lv_testResults : jmap string TestResultStore.TestResult;
  lv_activeProjectId : option string;
  lv_allowedActions : option (list string)
}.

Inductive Toast :=
| ToastSuccess (title description : string)
| ToastError (title description : string).

Record ListState := MkListState {
  st_isCreating : bool;
  st_isImporting : bool;
  st_pendingDelete : option (string * string);
  st_isDeleting : bool;
  st_galleryOpen : bool;
  st_pendingTemplateId : option Templates.WorkflowTemplateId;
  st_toasts : list Toast;
  st_downloads : list (string * WorkflowBundle);
  st_pushed : option string
}.

Definition initial : ListState := MkListState false false None false false None [] [] None.

Definition setIsCreating (v : bool) (s : ListState) : ListState :=
  MkListState v (st_isImporting s) (st_pendingDelete s) (st_isDeleting s) (st_galleryOpen s) (st_pendingTemplateId s)
    (st_toasts s) (st_downloads s) (st_pushed s).
Definition setIsImporting (v : bool) (s : ListState) : ListState :=
  MkListState (st_isCreating s) v (st_pendingDelete s) (st_isDeleting s) (st_galleryOpen s) (st_pendingTemplateId s)
    (st_toasts s) (st_downloads s) (st_pushed s).
Definition setWorkflowPendingDelete (v : option (string * string)) (s : ListState) : ListState :=
  MkListState (st_isCreating s) (st_isImporting s) v (st_isDeleting s) (st_galleryOpen s) (st_pendingTemplateId s)
    (st_toasts s) (st_downloads s) (st_pushed s).
Definition setIsDeleting (v : bool) (s : ListState) : ListState :=
  MkListState (st_isCreating s) (st_isImporting s) (st_pendingDelete s) v (st_galleryOpen s) (st_pendingTemplateId s)
    (st_toasts s) (st_downloads s) (st_pushed s).
Definition setIsTemplateGalleryOpen (v : bool) (s : ListState) : ListState :=
  MkListState (st_isCreating s) (st_isImporting s) (st_pendingDelete s) (st_isDeleting s) v (st_pendingTemplateId s)
    (st_toasts s) (st_downloads s) (st_pushed s).
Definition setPendingTemplateId (v : option Templates.WorkflowTemplateId) (s : ListState) : ListState :=
  MkListState (st_isCreating s) (st_isImporting s) (st_pendingDelete s) (st_isDeleting s) (st_galleryOpen s) v
    (st_toasts s) (st_downloads s) (st_pushed s).
Definition toast (t : Toast) (s : ListState) : ListState :=
  MkListState (st_isCreating s) (st_isImporting s) (st_pendingDelete s) (st_isDeleting s) (st_galleryOpen s) (st_pendingTemplateId s)
    (st_toasts s ++ [t]) (st_downloads s) (st_pushed s).
Definition download (file : string * WorkflowBundle) (s : ListState) : ListState :=
  MkListState (st_isCreating s) (st_isImporting s) (st_pendingDelete s) (st_isDeleting s) (st_galleryOpen s) (st_pendingTemplateId s)
    (st_toasts s) (st_downloads s ++ [file]) (st_pushed s).
Definition push (page : string) (s : ListState) : ListState :=
  MkListState (st_isCreating s) (st_isImporting s) (st_pendingDelete s) (st_isDeleting s) (st_galleryOpen s) (st_pendingTemplateId s)
    (st_toasts s) (st_downloads s) (Some page).

(** The dialog closes unless a deletion is under way. *)
Definition onOpenChange (open : bool) (s : ListState) : ListState :=
  if negb open && negb (st_isDeleting s) then setWorkflowPendingDelete None s else s.

(** ** What the list shows

    [Date_time] is [new Date(text).getTime()], [None] where it is not a number,
    which [sort] takes for equal; [locale_date] is [toLocaleDateString]. *)
Section Shown.
Context (Date_time : string -> option Z) (locale_date : string -> string).

Definition newest_created (a b : WorkflowStore.Workflow) : Z :=
  match Date_time (created_at (WorkflowStore.wf_meta a)), Date_time (created_at (WorkflowStore.wf_meta b)) with
  | Some aTime, Some bTime => bTime - aTime
  | _, _ => 0
  end.

Definition workflowsList (v : ListView) : list WorkflowStore.Workflow :=
  js_sort newest_created
    (filter (fun w => is_deleted (WorkflowStore.wf_meta w) = false /\ ostr_truthy (lv_activeProjectId v) = true
                      /\ Some (WorkflowStore.wf_projectId w) = lv_activeProjectId v) (jvalues (lv_workflows v))).

Definition hasProject (v : ListView) : bool := ostr_truthy (lv_activeProjectId v).
Definition canEdit (v : ListView) : bool :=
  match lv_allowedActions v with Some actions => existsb (String.eqb "edit") actions | None => false end.
Definition isReady (v : ListView) : bool := lv_hydrated v && negb (lv_isHydrating v).

Definition scenariosList (v : ListView) : list Scenario :=
  filter (fun sc => is_deleted (scn_meta sc) = false) (jvalues (lv_scenarios v)).
Definition executionsList (v : ListView) : list ExecutionStore.WorkflowExecution :=
  filter (fun ex => is_deleted (ExecutionStore.ex_meta ex) = false) (jvalues (lv_executions v)).

Definition listState (v : ListView) : WorkflowListState :=
  resolveWorkflowListState (isReady v) (hasProject v) (canEdit v) (Z.of_nat (length (workflowsList v))).
Definition listSummary (v : ListView) : WorkflowListSummary :=
  summarizeWorkflowList (workflowsList v) (scenariosList v) (executionsList v).

Definition formatDate (now : Z) (date : string) : string :=
  match Date_time date with
  | None => locale_date date
  | Some d =>
      let diffMs := now - d in
      if diffMs / 60000 <? 1 then "Just now"
      else if diffMs / 60000 <? 60 then pretty (diffMs / 60000) +:+ "m ago"
      else if diffMs / 3600000 <? 24 then pretty (diffMs / 3600000) +:+ "h ago"
      else if diffMs / 86400000 <? 7 then pretty (diffMs / 86400000) +:+ "d ago"
      else locale_date date
  end.

Definition existing_names (v : ListView) : list string := map WorkflowStore.wf_name (workflowsList v).
End Shown.

Inductive Variant := Destructive | DefaultVariant | Secondary | Outline.
Definition executionStatusVariant (status : WorkflowRunStatus) : Variant :=
  match status with
  | WFailed | WPartialFailed | WCleanupFailed => Destructive
  | WRunning | WPending | WCancelling => DefaultVariant
  | WCompleted => Secondary
  | WCancelled => Outline
  end.

(** [status.replaceAll("_", " ").replace(/^./, upper)] *)
Definition executionStatusLabel (status : WorkflowRunStatus) : string :=
  capitalized (str_map (fun c => if decide (c = under) then " "%char else c) (workflow_status_name status)).

(** [name.toLowerCase().replace(/[^a-z0-9]+/g, "-")]: a run of other characters becomes one dash. *)
Definition file_char (c : ascii) : bool :=
  let n := code c in ((97 <=? n)%N && (n <=? 122)%N) || ((48 <=? n)%N && (n <=? 57)%N).
Fixpoint dash_runs (in_run : bool) (s : string) : string :=
  match s with
  | EmptyString => EmptyString
  | String c s' =>
      if file_char c then String c (dash_runs false s')
      else if in_run then dash_runs true s' else String "-"%char (dash_runs true s')
  end.
Definition file_name (name : string) : string :=
  ostr_or (Some (dash_runs false (toLowerCase name))) "workflow" +:+ ".workflow-bundle.json".

(** What a bundle takes of a stored workflow and of a stored scenario. *)
Definition exportable (w : WorkflowStore.Workflow) : WorkflowBundleWorkflow :=
  MkBundleWorkflow (WorkflowStore.wf_name w) (WorkflowStore.wf_description w) (WorkflowStore.wf_nodes w) (WorkflowStore.wf_edges w).
Definition exportable_scenario (sc : Scenario) : WorkflowBundleScenario :=
  MkBundleScenario (scn_name sc) (scn_description sc) (scn_tests sc) (scn_testOrder sc).
Definition own_scenarios (v : ListView) (workflowId : string) : list Scenario :=
  filter (fun sc => scn_workflowId sc = workflowId /\ is_deleted (scn_meta sc) = false) (jvalues (lv_scenarios v)).

(** ** The handlers

    [draws i] is what the random sources of the platform give to the [i]-th id of a
    handler's workflow and scenarios, [fresh i] to the [i]-th id of its tests;
    [engine_text] is the message of an error that the engine raises. *)
Section Handlers.
Context `{D : Deque SyncChange} {Srv : Type} (draws : nat -> Crypto * string) (fresh : nat -> string)
        (localeCompare : string -> string -> Z) (JSON_parse : string -> option (option RawBundle))
        (Date_time : string -> option Z)
        (server_sync : Srv -> SyncBatchRequest -> FetchOutcome SyncBatchResponse * Srv)
        (engine_text : js_error -> string) (view : ListView).

Notation Handler := (Proc (SyncHydration.System (S := Srv * ListState))).

Definition setState (f : ListState -> ListState) : Handler unit :=
  SyncHydration.remote (fun s => (tt, (s.1, f s.2))).

(** [try { body } catch (error) { ... } finally { setState(last) }]; no handler of an
    error throws here. *)
Definition try_block (body : Handler unit) (handler : js_error -> Handler unit) (last : ListState -> ListState) : Handler unit :=
  catch body handler;; setState last.
Definition toast_error (title : string) (e : js_error) : Handler unit :=
  setState (toast (ToastError title (RunWorkflow.message_of engine_text e))).

Definition workflow_page (workflowId : string) : string := "/workflow/" +:+ workflowId.

(** The wait of 100 ms lets other tasks run. *)
Definition pause : Handler unit := SyncHydration.remote (fun s => (tt, s)).

Definition handleCreate : Handler unit :=
  match lv_activeProjectId view with
  | Some projectId =>
      if negb (str_truthy projectId) || negb (canEdit view) then mret tt
      else
        try_block
          (setState (setIsCreating true);;
           id ← SyncHydration.local (
             id ← RunWorkflow.drawn draws 0 (in_workflows (WorkflowStore.createWorkflow projectId "New Workflow" None));
             in_workflows (WorkflowStore.setActiveWorkflow (Some id));;
             mret id);
           pause;;
           setState (push (workflow_page id)))
          (fun _ => mret tt) (setIsCreating false)
  | None => mret tt
  end.

(** The loop over the scenarios: each is created and then given its content. *)
Fixpoint create_scenarios (i : nat) (workflowId : string) (scenarios : list WorkflowBundleScenario)
    (firstScenarioId : option string) : BrowserM (option string) :=
  match scenarios with
  | [] => mret firstScenarioId
  | scenario :: rest =>
      workflows ← readBrowser (fun b => state (br_workflows b));
      scenarioId ← RunWorkflow.drawn draws i (in_scenarios (ScenarioStore.createScenario workflows workflowId (Some (bs_name scenario))));
      in_scenarios (ScenarioStore.updateScenario scenarioId (ScenarioStore.MkUpdates (Some (bs_name scenario))
        (Some (Some (ostr_or (bs_description scenario) ""))) (Some (bs_tests scenario)) (Some (bs_testOrder scenario))));;
      create_scenarios (Datatypes.S i) workflowId rest (if ostr_truthy firstScenarioId then firstScenarioId else Some scenarioId)
  end.

(** The part before the flush, which runs in one task. *)
Definition create_entities (projectId : string) (data : ImportedWorkflowBundleData) : BrowserM string :=
  let w := imp_workflow data in
  workflowId ← RunWorkflow.drawn draws 0 (in_workflows
    (WorkflowStore.createWorkflow projectId (bw_name w) (Some (ostr_or (bw_description w) ""))));
  in_workflows (WorkflowStore.updateWorkflowGraph workflowId (bw_nodes w) (bw_edges w) None);;
  firstScenarioId ← create_scenarios 1 workflowId (imp_scenarios data) None;
  in_workflows (WorkflowStore.setActiveWorkflow (Some workflowId));;
  (if ostr_truthy firstScenarioId then in_scenarios (ScenarioStore.setActiveScenario workflowId firstScenarioId) else mret tt);;
  mret workflowId.

Definition createWorkflowFromBundle (data : ImportedWorkflowBundleData) : Handler string :=
  match lv_activeProjectId view with
  | Some projectId =>
      if str_truthy projectId then
        workflowId ← SyncHydration.local (create_entities projectId data);
        RunWorkflow.flush_before_run server_sync 20;;
        setState (push (workflow_page workflowId));;
        mret workflowId
      else Process.fail "Select a project before importing a workflow."
  | None => Process.fail "Select a project before importing a workflow."
  end.

Definition allowed : bool := ostr_truthy (lv_activeProjectId view) && canEdit view.

(** [file] is what reading the chosen file gives; no file may be chosen. *)
Definition handleImport (file : option (res string)) : Handler unit :=
  match file with
  | Some text =>
      if negb allowed then mret tt
      else
        try_block
          (setState (setIsImporting true);;
           raw ← Process.Done text;
           bundle ← Process.Done (parseWorkflowBundle localeCompare JSON_parse raw);
           materialized ← Process.Done (materializeWorkflowBundle localeCompare fresh bundle (existing_names Date_time view));
           createWorkflowFromBundle materialized;;
           pending ← SyncHydration.local (readBrowser (fun b => hasPendingPreRunChanges (br_world b)));
           let name := bw_name (imp_workflow materialized) in
           setState (toast (ToastSuccess "Workflow imported"
             (if pending : bool
              then name +:+ " was created. Sync is still catching up, so wait for the status to clear before running."
              else name +:+ " is synced and ready to edit."))))
          (toast_error "Import failed") (setIsImporting false)
  | None => mret tt
  end.

Definition handleCreateFromTemplate (template : Templates.WorkflowTemplate) : Handler unit :=
  if negb allowed then mret tt
  else
    try_block
      (setState (setPendingTemplateId (Some (Templates.wt_id template)));;
       materialized ← Process.Done (materializeWorkflowBundle localeCompare fresh (Templates.wt_bundle template)
                                      (existing_names Date_time view));
       createWorkflowFromBundle materialized;;
       setState (setIsTemplateGalleryOpen false);;
       setState (toast (ToastSuccess "Workflow created from template"
         (bw_name (imp_workflow materialized) +:+ " is synced and ready to edit."))))
      (toast_error "Template creation failed") (setPendingTemplateId None).

(** The file holds the bundle as text. *)
Definition handleExport (workflowId : string) : Handler unit :=
  match lv_workflows view !! workflowId with
  | None => mret tt
  | Some workflow =>
      catch (bundle ← Process.Done (createWorkflowBundle localeCompare (exportable workflow)
                                     (map exportable_scenario (own_scenarios view workflowId)));
             setState (download (file_name (WorkflowStore.wf_name workflow), bundle));;
             setState (toast (ToastSuccess "Workflow exported"
               (WorkflowStore.wf_name workflow +:+ " was saved as a workflow bundle."))))
        (toast_error "Export failed")
  end.

Definition handleClone (workflowId : string) : Handler unit :=
  match lv_workflows view !! workflowId with
  | None => mret tt
  | Some workflow =>
      catch (cloned ← Process.Done (createClonedWorkflowBundle localeCompare fresh (exportable workflow)
                                     (map exportable_scenario (own_scenarios view workflowId)) (existing_names Date_time view));
             createWorkflowFromBundle cloned;;
             setState (toast (ToastSuccess "Workflow cloned"
               (bw_name (imp_workflow cloned) +:+ " was created from " +:+ WorkflowStore.wf_name workflow +:+ "."))))
        (toast_error "Clone failed")
  end.

(** ** Deleting *)
Definition relatedExecutions (workflowId : string) : list ExecutionStore.WorkflowExecution :=
  filter (fun ex => ExecutionStore.ex_workflowId ex = workflowId /\ is_deleted (ExecutionStore.ex_meta ex) = false)
    (jvalues (lv_executions view)).
Definition relatedScenarioRuns (workflowId : string) : list ScenarioRunStore.ScenarioRun :=
  filter (fun r => ScenarioRunStore.run_workflowId r = workflowId /\ is_deleted (ScenarioRunStore.run_meta r) = false)
    (jvalues (lv_scenarioRuns view)).
Definition relatedTestResults (workflowId : string) : list TestResultStore.TestResult :=
  filter (fun r => TestResultStore.tr_workflowId (TestResultStore.tr_input r) = workflowId /\ is_deleted (TestResultStore.tr_meta r) = false)
    (jvalues (lv_testResults view)).

(** [for (const x of l) { step(x); }] *)
Fixpoint browser_each {A} (step : A -> BrowserM unit) (l : list A) : BrowserM unit :=
  match l with [] => mret tt | x :: l' => step x;; browser_each step l' end.

Definition delete_related (workflowId : string) : BrowserM unit :=
  browser_each (fun r => in_runs (in_test_results (TestResultStore.deleteTestResult (TestResultStore.tr_id (TestResultStore.tr_input r)))))
    (relatedTestResults workflowId);;
  browser_each (fun r => in_runs (in_scenario_runs (ScenarioRunStore.clearScenarioRun (ScenarioRunStore.run_id r))))
    (relatedScenarioRuns workflowId);;
  browser_each (fun ex => in_runs (in_executions (ExecutionStore.clearExecution (ExecutionStore.ex_workflowRunId ex))))
    (relatedExecutions workflowId);;
  browser_each (fun sc => in_scenarios (ScenarioStore.deleteScenario (scn_id sc))) (own_scenarios view workflowId);;
  in_workflows (WorkflowStore.deleteWorkflow workflowId).

(** [pending] is [workflowPendingDelete] at the render. *)
Definition handleDeleteWorkflow (pending : option (string * string)) : Handler unit :=
  match pending with
  | None => mret tt
  | Some (workflowId, name) =>
      try_block
        (setState (setIsDeleting true);;
         SyncHydration.local (delete_related workflowId);;
         setState (setWorkflowPendingDelete None);;
         setState (toast (ToastSuccess "Workflow deleted" (name +:+ " and its related data were removed."))))
        (toast_error "Delete failed") (setIsDeleting false)
  end.
End Handlers.
End WorkflowList.
