(* ===== verification/WorkflowListFacts.v ===== *)
(** * What the workflow list stores and removes *)

From S2P Require Import Prelude FlowTypes SyncTypes ClientId FastQueue JsLib Json Process SyncService SyncServiceFacts SyncMiddleware.
From S2P Require Import WorkflowStore ScenarioStore ExecutionStore ScenarioRunStore TestResultStore RunSnapshot Browser SyncHydration.
From S2P Require Import SyncHydrationFacts RealtimeFacts WorkflowBundle Canvas Templates RunWorkflow RunWorkflowFacts BundleFacts TranslatorFacts WorkflowListPage.
Open Scope Z_scope.
Import WorkflowList.

Section Creation.
Context `{D : Deque SyncChange} (draws : nat -> Crypto * string).
Implicit Types (b : Browser).

(** What storing keeps of the platform. *)
Definition session (u : string) b b' : Prop :=
  getUserId (br_host b') = Return u /\ nowMs (br_host b') = nowMs (br_host b).

(** The workflow of an import in the store. *)
Definition stored_workflow (projectId id : string) (w : WorkflowBundleWorkflow) (wf : WorkflowStore.Workflow) : Prop :=
  WorkflowStore.wf_id wf = id /\ WorkflowStore.wf_projectId wf = projectId /\ WorkflowStore.wf_name wf = bw_name w
  /\ WorkflowStore.wf_description wf = Some (ostr_or (bw_description w) "")
  /\ WorkflowStore.wf_nodes wf = bw_nodes w /\ WorkflowStore.wf_edges wf = bw_edges w
  /\ is_deleted (WorkflowStore.wf_meta wf) = false.

Definition stored_scenario (projectId workflowId id : string) (s : WorkflowBundleScenario) (sc : Scenario) : Prop :=
  scn_id sc = id /\ scn_projectId sc = projectId /\ scn_workflowId sc = workflowId /\ scn_name sc = bs_name s
  /\ scn_description sc = Some (ostr_or (bs_description s) "") /\ scn_tests sc = bs_tests s
  /\ scn_testOrder sc = ScenarioStore.deriveOrder (bs_tests s) (Some (bs_testOrder s))
  /\ is_deleted (scn_meta sc) = false.

Lemma add_metadata shape h u : getUserId h = Return u -> default false (sh_is_deleted shape) = false ->
  exists m h', addSyncMetadata shape h = (Return m, h') /\ is_deleted m = false
    /\ getUserId h' = Return u /\ nowMs h' = nowMs h.
Proof.
  intros Hu Hd. unfold addSyncMetadata. rewrite Hu. pose proof (client_id_user h) as H1. pose proof (client_id_clock h) as H2.
  destruct (getOrCreateClientId h) as [cid h']. simpl in *. do 2 eexists. split; [done|]. simpl. rewrite Hd. by rewrite H1.
Qed.

Lemma set_run {T} (opts : SimpleSyncOptions T) update h (s : Store T) t h' :
  update (state s) h = (Return t, h') -> exists s', syncSet opts update (h, s) = (Return tt, (h', s')) /\ state s' = t.
Proof. intros E. unfold syncSet. rewrite E. repeat case_match; eexists; done. Qed.

(** ** The actions of the two stores *)
Lemma create_workflow_run projectId name description h (s : Store WorkflowStore.WorkflowState) u : getUserId h = Return u ->
  exists m h' s', WorkflowStore.createWorkflow projectId name (Some description) (h, s) = (Return (generateId h), (h', s'))
    /\ is_deleted m = false /\ getUserId h' = Return u /\ nowMs h' = nowMs h
    /\ state s' = WorkflowStore.MkState (<[generateId h :=
         WorkflowStore.MkWorkflow (generateId h) projectId name (Some (ostr_or (Some description) "")) [] [] (Some ∅) (Some "manual") m]>
           (WorkflowStore.workflows (state s))) (Some (generateId h)) (Some (generateId h)) (WorkflowStore.hydrated (state s)).
Proof.
  intros Hu. unfold WorkflowStore.createWorkflow, mbind, StoreM_bind, readHost, fromHost. cbn [fst snd].
  destruct (add_metadata no_metadata h u Hu eq_refl) as (m & h1 & -> & Hm & Hu1 & Hn1). cbn [fst snd].
  unfold trackSync. cbn [fst snd]. unfold WorkflowStore.set.
  match goal with |- context [syncSet ?o (pureSet ?f) (?h, ?s)] => destruct (set_run o (pureSet f) h s _ _ eq_refl) as (s' & -> & Hs) end.
  exists m, h1, s'. by rewrite Hs.
Qed.

Lemma update_graph_run id nodes edges h (s : Store WorkflowStore.WorkflowState) wf u :
  getUserId h = Return u -> WorkflowStore.workflows (state s) !! id = Some wf -> is_deleted (WorkflowStore.wf_meta wf) = false ->
  exists m h' s', WorkflowStore.updateWorkflowGraph id nodes edges None (h, s) = (Return tt, (h', s'))
    /\ is_deleted m = false /\ getUserId h' = Return u /\ nowMs h' = nowMs h
    /\ state s' = WorkflowStore.MkState (<[id :=
         WorkflowStore.MkWorkflow (WorkflowStore.wf_id wf) (WorkflowStore.wf_projectId wf) (WorkflowStore.wf_name wf)
           (WorkflowStore.wf_description wf) nodes edges (Some (default ∅ (WorkflowStore.wf_customTestOrder wf)))
           (WorkflowStore.wf_provenance wf) m]> (WorkflowStore.workflows (state s)))
         (WorkflowStore.activeWorkflowId (state s)) (Some id) (WorkflowStore.hydrated (state s)).
Proof.
  intros Hu Hwf Hd. unfold WorkflowStore.updateWorkflowGraph, mbind, StoreM_bind, trackSync. cbn [fst snd].
  destruct (add_metadata (shape_of (version (WorkflowStore.wf_meta wf) + 1) (WorkflowStore.wf_meta wf)) h u Hu Hd)
    as (m & h1 & E & Hm & Hu1 & Hn1).
  unfold WorkflowStore.set.
  match goal with |- context [syncSet ?o ?f (?h, ?s0)] =>
    destruct (set_run o f h s0 (WorkflowStore.MkState (<[id := WorkflowStore.edited nodes edges None wf m]> (WorkflowStore.workflows (state s)))
         (WorkflowStore.activeWorkflowId (state s)) (Some id) (WorkflowStore.hydrated (state s))) h1) as (s' & -> & Hs) end.
  { unfold WorkflowStore.rewritten. cbn [state]. by rewrite Hwf, E. }
  exists m, h1, s'. by rewrite Hs.
Qed.

Lemma create_scenario_run workflows workflowId name h (s : Store ScenarioStore.ScenarioState) u : getUserId h = Return u ->
  exists m h' s', ScenarioStore.createScenario workflows workflowId (Some name) (h, s) = (Return (generateId h), (h', s'))
    /\ is_deleted m = false /\ getUserId h' = Return u /\ nowMs h' = nowMs h
    /\ state s' = ScenarioStore.MkState (<[generateId h := MkScenario (generateId h)
           (match WorkflowStore.getWorkflow workflowId workflows with Some wf => WorkflowStore.wf_projectId wf | None => "" end)
           workflowId name (Some "") [] [] m]> (ScenarioStore.scenarios (state s)))
         (<[workflowId := Some (generateId h)]> (ScenarioStore.activeScenarioIdByWorkflow (state s))) (Some (generateId h)).
Proof.
  intros Hu. unfold ScenarioStore.createScenario, mbind, StoreM_bind, readHost, fromHost. cbn [fst snd].
  destruct (add_metadata no_metadata h u Hu eq_refl) as (m & h1 & -> & Hm & Hu1 & Hn1). cbn [fst snd].
  unfold trackSync. cbn [fst snd]. unfold ScenarioStore.set.
  match goal with |- context [syncSet ?o (pureSet ?f) (?h, ?s)] => destruct (set_run o (pureSet f) h s _ _ eq_refl) as (s' & -> & Hs) end.
  exists m, h1, s'. by rewrite Hs.
Qed.

Lemma update_scenario_run id up h (s : Store ScenarioStore.ScenarioState) sc u :
  getUserId h = Return u -> ScenarioStore.scenarios (state s) !! id = Some sc -> is_deleted (scn_meta sc) = false ->
  exists m h' s', ScenarioStore.updateScenario id up (h, s) = (Return tt, (h', s'))
    /\ is_deleted m = false /\ getUserId h' = Return u /\ nowMs h' = nowMs h
    /\ state s' = ScenarioStore.MkState (<[id := ScenarioStore.apply_updates up sc m]> (ScenarioStore.scenarios (state s)))
         (ScenarioStore.activeScenarioIdByWorkflow (state s)) (Some id).
Proof.
  intros Hu Hsc Hd. unfold ScenarioStore.updateScenario, mbind, StoreM_bind, getState, trackSync. cbn [fst snd]. rewrite Hsc.
  destruct (add_metadata (shape_of (version (scn_meta sc) + 1) (scn_meta sc)) h u Hu Hd) as (m & h1 & E & Hm & Hu1 & Hn1).
  unfold ScenarioStore.set.
  match goal with |- context [syncSet ?o ?f (?h, ?s0)] =>
    destruct (set_run o f h s0 (ScenarioStore.MkState (<[id := ScenarioStore.apply_updates up sc m]> (ScenarioStore.scenarios (state s)))
         (ScenarioStore.activeScenarioIdByWorkflow (state s)) (Some id)) h1) as (s' & -> & Hs) end.
  { unfold ScenarioStore.update_state. cbn [state]. by rewrite Hsc, E. }
  exists m, h1, s'. by rewrite Hs.
Qed.

(** ** One workflow, one scenario *)
Definition redrawn (i : nat) b : Browser :=
  set_world (set_host (RunWorkflow.redraw (draws i) (br_host b)) (br_world b)) b.

Lemma in_workflows_run {A} (m : WorkflowStore.Action A) b a h s : m (br_host b, br_workflows b) = (Return a, (h, s)) ->
  in_workflows m b = (Return a, MkBrowser (set_host h (br_world b)) s (br_scenarios b) (br_runs b)).
Proof. intros E. unfold in_workflows. by rewrite E. Qed.

Lemma in_scenarios_run {A} (m : ScenarioStore.Action A) b a h s : m (br_host b, br_scenarios b) = (Return a, (h, s)) ->
  in_scenarios m b = (Return a, MkBrowser (set_host h (br_world b)) (br_workflows b) s (br_runs b)).
Proof. intros E. unfold in_scenarios. by rewrite E. Qed.

Lemma store_workflow i projectId w b u : getUserId (br_host b) = Return u -> let id := drawn_id draws i b in exists b1 b2 wf,
  RunWorkflow.drawn draws i (in_workflows (WorkflowStore.createWorkflow projectId (bw_name w) (Some (ostr_or (bw_description w) "")))) b
    = (Return id, b1)
  /\ in_workflows (WorkflowStore.updateWorkflowGraph id (bw_nodes w) (bw_edges w) None) b1 = (Return tt, b2)
  /\ stored_workflow projectId id w wf /\ session u b b2
  /\ exists f, entities b2 = on_wf f (entities b)
      /\ forall k, WorkflowStore.workflows (f (en_workflows (entities b))) !! k
                   = if decide (k = id) then Some wf else WorkflowStore.workflows (en_workflows (entities b)) !! k.
Proof.
  intros Hu id.
  destruct (create_workflow_run projectId (bw_name w) (ostr_or (bw_description w) "") (br_host (redrawn i b)) (br_workflows b) u Hu)
    as (m1 & h1 & s1 & E1 & Hm1 & Hu1 & Hn1 & Hs1). change (generateId (br_host (redrawn i b))) with id in *.
  set (wf1 := WorkflowStore.MkWorkflow id _ _ _ _ _ _ _ m1) in *.
  set (b1 := MkBrowser (set_host h1 (br_world (redrawn i b))) s1 (br_scenarios b) (br_runs b)).
  assert (Hl : WorkflowStore.workflows (state s1) !! id = Some wf1) by (rewrite Hs1; apply jlookup_insert_eq).
  destruct (update_graph_run id (bw_nodes w) (bw_edges w) (br_host b1) s1 wf1 u Hu1 Hl Hm1)
    as (m2 & h2 & s2 & E2 & Hm2 & Hu2 & Hn2 & Hs2).
  exists b1, (MkBrowser (set_host h2 (br_world b1)) s2 (br_scenarios b1) (br_runs b1)).
  exists (WorkflowStore.MkWorkflow id projectId (bw_name w) (WorkflowStore.wf_description wf1) (bw_nodes w) (bw_edges w)
            (Some (default ∅ (WorkflowStore.wf_customTestOrder wf1))) (WorkflowStore.wf_provenance wf1) m2). split_and!.
  - exact (in_workflows_run _ (redrawn i b) _ _ _ E1).
  - exact (in_workflows_run _ b1 _ _ _ E2).
  - split_and!; try done. cbn. by destruct (bw_description w) as [[]|].
  - split; [exact Hu2|]. cbn in *. congruence.
  - exists (fun _ => state s2). split; [done|]. intros k. rewrite Hs2, Hs1. cbn.
    rewrite !jlookup_insert. repeat case_decide; congruence.
Qed.

Lemma store_scenario i workflowId projectId s b u wf : getUserId (br_host b) = Return u ->
  WorkflowStore.workflows (en_workflows (entities b)) !! workflowId = Some wf -> WorkflowStore.wf_projectId wf = projectId ->
  let id := drawn_id draws i b in exists b1 b2 sc,
  RunWorkflow.drawn draws i (in_scenarios (ScenarioStore.createScenario (state (br_workflows b)) workflowId (Some (bs_name s)))) b
    = (Return id, b1)
  /\ in_scenarios (ScenarioStore.updateScenario id (ScenarioStore.MkUpdates (Some (bs_name s))
       (Some (Some (ostr_or (bs_description s) ""))) (Some (bs_tests s)) (Some (bs_testOrder s)))) b1 = (Return tt, b2)
  /\ stored_scenario projectId workflowId id s sc /\ session u b b2
  /\ exists f, entities b2 = on_sc f (entities b)
      /\ (forall k, ScenarioStore.scenarios (f (en_scenarios (entities b))) !! k
                   = if decide (k = id) then Some sc else ScenarioStore.scenarios (en_scenarios (entities b)) !! k)
      /\ ScenarioStore.activeScenarioIdByWorkflow (f (en_scenarios (entities b)))
         = <[workflowId := Some id]> (ScenarioStore.activeScenarioIdByWorkflow (en_scenarios (entities b))).
Proof.
  intros Hu Hwf Hp id.
  destruct (create_scenario_run (state (br_workflows b)) workflowId (bs_name s) (br_host (redrawn i b)) (br_scenarios b) u Hu)
    as (m1 & h1 & s1 & E1 & Hm1 & Hu1 & Hn1 & Hs1). change (generateId (br_host (redrawn i b))) with id in *.
  change (WorkflowStore.getWorkflow workflowId (state (br_workflows b))) with (WorkflowStore.workflows (en_workflows (entities b)) !! workflowId) in Hs1.
  rewrite Hwf, Hp in Hs1. set (sc1 := MkScenario id _ _ _ _ _ _ m1) in *.
  set (b1 := MkBrowser (set_host h1 (br_world (redrawn i b))) (br_workflows b) s1 (br_runs b)).
  assert (Hl : ScenarioStore.scenarios (state s1) !! id = Some sc1) by (rewrite Hs1; apply jlookup_insert_eq).
  set (up := ScenarioStore.MkUpdates _ _ _ _).
  destruct (update_scenario_run id up (br_host b1) s1 sc1 u Hu1 Hl Hm1) as (m2 & h2 & s2 & E2 & Hm2 & Hu2 & Hn2 & Hs2).
  exists b1, (MkBrowser (set_host h2 (br_world b1)) (br_workflows b1) s2 (br_runs b1)), (ScenarioStore.apply_updates up sc1 m2). split_and!.
  - exact (in_scenarios_run _ (redrawn i b) _ _ _ E1).
  - exact (in_scenarios_run _ b1 _ _ _ E2).
  - by split_and!.
  - split; [exact Hu2|]. cbn in *. congruence.
  - exists (fun _ => state s2). split; [done|]. rewrite Hs2, Hs1. cbn. split; [|done].
    intros k. rewrite !jlookup_insert. repeat case_decide; congruence.
Qed.

(** ** The whole import *)
Definition scenario_ids (i : nat) (scenarios : list WorkflowBundleScenario) b : list string :=
  map (fun k => drawn_id draws k b) (seq i (length scenarios)).

Lemma scenario_ids_clock i l b b' : nowMs (br_host b') = nowMs (br_host b) -> scenario_ids i l b' = scenario_ids i l b.
Proof. intros H. apply map_ext. intros k. by apply drawn_id_clock. Qed.

Lemma create_scenarios_spec workflowId projectId wf u scenarios : forall i first b, getUserId (br_host b) = Return u ->
  WorkflowStore.workflows (en_workflows (entities b)) !! workflowId = Some wf -> WorkflowStore.wf_projectId wf = projectId ->
  NoDup (scenario_ids i scenarios b) -> exists b' f,
  create_scenarios draws i workflowId scenarios first b
    = (Return (fold_left (fun first id => if ostr_truthy first then first else Some id) (scenario_ids i scenarios b) first), b')
  /\ session u b b' /\ entities b' = on_sc f (entities b)
  /\ (forall k, k ∉ scenario_ids i scenarios b ->
        ScenarioStore.scenarios (f (en_scenarios (entities b))) !! k = ScenarioStore.scenarios (en_scenarios (entities b)) !! k)
  /\ Forall2 (fun id s => exists sc, stored_scenario projectId workflowId id s sc
       /\ ScenarioStore.scenarios (f (en_scenarios (entities b))) !! id = Some sc) (scenario_ids i scenarios b) scenarios
  /\ (forall k, k <> workflowId -> ScenarioStore.activeScenarioIdByWorkflow (f (en_scenarios (entities b))) !! k
                                   = ScenarioStore.activeScenarioIdByWorkflow (en_scenarios (entities b)) !! k).
Proof.
  induction scenarios as [|s rest IH]; intros i first b Hu Hwf Hp Hn.
  { exists b, (fun st => st). by split_and!. }
  destruct (store_scenario i workflowId projectId s b u wf Hu Hwf Hp)
    as (b1 & b2 & sc & E1 & E2 & Hsc & [Hu2 Hc2] & f1 & He & Hf1 & Ha1).
  set (id := drawn_id draws i b) in *.
  assert (Eids : scenario_ids (Datatypes.S i) rest b2 = scenario_ids (Datatypes.S i) rest b) by (by apply scenario_ids_clock).
  change (scenario_ids i (s :: rest) b) with (id :: scenario_ids (Datatypes.S i) rest b) in Hn |- *.
  apply NoDup_cons in Hn as [Hni Hn].
  destruct (IH (Datatypes.S i) (if ostr_truthy first then first else Some id) b2 Hu2) as (b3 & f2 & E3 & [Hu3 Hc3] & He3 & Hfr & Hall & Hact);
    [by rewrite He|done|by rewrite Eids|]. rewrite Eids in *. rewrite He in Hfr, Hall, Hact. cbn [on_wf on_sc en_scenarios en_workflows] in Hfr, Hall, Hact.
  exists b3, (fun st => f2 (f1 st)). split_and!.
  - cbn [create_scenarios]. rewrite (browser_bind (readBrowser _) _ b (state (br_workflows b)) b) by done.
    rewrite (browser_bind _ _ _ _ _ E1), (browser_bind _ _ _ _ _ E2). exact E3.
  - split; [done|congruence].
  - by rewrite He3, He.
  - intros k [Hk Hks]%not_elem_of_cons. rewrite (Hfr k Hks), Hf1. by rewrite decide_False.
  - constructor; [|exact Hall]. exists sc. split; [done|]. rewrite (Hfr _ Hni), Hf1. by rewrite decide_True.
  - intros k Hk. rewrite (Hact k Hk), Ha1. by apply jlookup_insert_ne.
Qed.

(** What an import leaves in the stores: the workflow and the scenarios of the
    bundle, the workflow and its first scenario active, and all else as it was. *)
Definition imported (projectId : string) (data : ImportedWorkflowBundleData) (workflowId : string) (ids : list string)
    (e e' : Entities) : Prop :=
  (exists wf, WorkflowStore.workflows (en_workflows e') !! workflowId = Some wf
     /\ stored_workflow projectId workflowId (imp_workflow data) wf)
  /\ Forall2 (fun id s => exists sc, stored_scenario projectId workflowId id s sc
       /\ ScenarioStore.scenarios (en_scenarios e') !! id = Some sc) ids (imp_scenarios data)
  /\ WorkflowStore.activeWorkflowId (en_workflows e') = Some workflowId
  /\ (forall id, head ids = Some id -> ScenarioStore.activeScenarioIdByWorkflow (en_scenarios e') !! workflowId = Some (Some id))
  /\ (forall k, k <> workflowId -> WorkflowStore.workflows (en_workflows e') !! k = WorkflowStore.workflows (en_workflows e) !! k
        /\ ScenarioStore.activeScenarioIdByWorkflow (en_scenarios e') !! k = ScenarioStore.activeScenarioIdByWorkflow (en_scenarios e) !! k)
  /\ (forall k, k ∉ ids -> ScenarioStore.scenarios (en_scenarios e') !! k = ScenarioStore.scenarios (en_scenarios e) !! k)
  /\ en_executions e' = en_executions e /\ en_scenarioRuns e' = en_scenarioRuns e /\ en_testResults e' = en_testResults e.

Lemma first_truthy (ids : list string) : Forall (fun id => str_truthy id = true) ids ->
  fold_left (fun first id => if ostr_truthy first then first else Some id) ids None = head ids.
Proof.
  destruct ids as [|id ids]; [done|]. intros [Hid _]%Forall_cons. simpl. clear -Hid. induction ids as [|x ids IH]; [done|].
  simpl. by rewrite Hid.
Qed.

Definition activated (workflowId : string) (first : option string) (st : ScenarioStore.ScenarioState) : ScenarioStore.ScenarioState :=
  if ostr_truthy first
  then ScenarioStore.MkState (ScenarioStore.scenarios st) (<[workflowId := first]> (ScenarioStore.activeScenarioIdByWorkflow st))
         (ScenarioStore._currentEntityId st)
  else st.

Lemma updates_activation workflowId first :
  updates (if ostr_truthy first then in_scenarios (ScenarioStore.setActiveScenario workflowId first) else mret tt) tt
    (on_sc (activated workflowId first)).
Proof.
  unfold activated. destruct (ostr_truthy first); [apply updates_scenarios|]. intros b. exists b.
  split; [done|]. split; [by apply quiet_preorder|done].
Qed.

Lemma quiet_session u b b' : quiet b b' -> getUserId (br_host b) = Return u -> session u b b'.
Proof. intros [Hq _] Hu. unfold session, br_host in *. by rewrite Hq. Qed.

Lemma create_entities_spec projectId data b u : getUserId (br_host b) = Return u ->
  let workflowId := drawn_id draws 0 b in let ids := scenario_ids 1 (imp_scenarios data) b in
  NoDup ids -> Forall (fun id => str_truthy id = true) ids -> exists b',
  create_entities draws projectId data b = (Return workflowId, b') /\ session u b b'
  /\ imported projectId data workflowId ids (entities b) (entities b').
Proof.
  intros Hu workflowId ids Hn Ht.
  destruct (store_workflow 0 projectId (imp_workflow data) b u Hu) as (b1 & b2 & wf & E1 & E2 & Hwf & [Hu2 Hc2] & f & He2 & Hf).
  fold workflowId in E1, E2, Hwf, Hf.
  assert (Hl : WorkflowStore.workflows (en_workflows (entities b2)) !! workflowId = Some wf) by (rewrite He2; cbn [on_wf en_workflows]; by rewrite Hf, decide_True).
  destruct (create_scenarios_spec workflowId projectId wf u (imp_scenarios data) 1 None b2 Hu2 Hl) as (b3 & g & E3 & [Hu3 Hc3] & He3 & Hfr & Hall & Hact);
    [apply Hwf|by rewrite (scenario_ids_clock _ _ b)|].
  rewrite (scenario_ids_clock _ _ b b2 Hc2) in *. fold ids in E3, Hfr, Hall. rewrite (first_truthy ids Ht) in E3.
  rewrite He2 in Hfr, Hall, Hact. cbn [on_wf on_sc en_scenarios en_workflows] in Hfr, Hall, Hact.
  destruct (updates_workflows (fun st => WorkflowStore.MkState (WorkflowStore.workflows st) (Some workflowId)
    (WorkflowStore._currentEntityId st) (WorkflowStore.hydrated st)) b3) as (b4 & E4 & Q4 & He4).
  destruct (updates_activation workflowId (head ids) b4) as (b5 & E5 & Q5 & He5).
  exists b5. split; [|split].
  - unfold create_entities. rewrite (browser_bind _ _ _ _ _ E1), (browser_bind _ _ _ _ _ E2), (browser_bind _ _ _ _ _ E3).
    rewrite (browser_bind _ _ _ _ _ E4). by rewrite (browser_bind _ _ _ _ _ E5).
  - assert (Q : quiet b3 b5) by (by etrans). destruct (quiet_session u _ _ Q Hu3) as [H1 H2]. split; [done|congruence].
  - rewrite He5, He4, He3, He2. unfold imported, activated. cbn [on_wf on_sc en_workflows en_scenarios en_executions en_scenarioRuns en_testResults].
    set (sc := if ostr_truthy (head ids) then _ else _).
    assert (Hsc : ScenarioStore.scenarios sc = ScenarioStore.scenarios (g (en_scenarios (entities b)))) by (unfold sc; by case_match).
    rewrite Hsc. split_and!; try done.
    + exists wf. split; [|done]. cbn [WorkflowStore.workflows]. by rewrite Hf, decide_True.
    + intros id Hid. unfold sc. rewrite Hid. destruct ids as [|i l]; [done|]. injection Hid as ->. apply Forall_cons in Ht as [Ht _].
      cbn [ostr_truthy]. rewrite Ht. apply jlookup_insert_eq.
    + intros k Hk. cbn [WorkflowStore.workflows]. rewrite Hf, decide_False by done. split; [done|]. rewrite <- (Hact k Hk). unfold sc.
      case_match; [|done]. by apply jlookup_insert_ne.
Qed.
End Creation.

(** ** The handlers *)
Section Handlers.
Context `{D : Deque SyncChange} {Srv : Type} (draws : nat -> Crypto * string) (fresh : nat -> string)
        (localeCompare : string -> string -> Z) (JSON_parse : string -> option (option RawBundle))
        (Date_time : string -> option Z)
        (server_sync : Srv -> SyncBatchRequest -> FetchOutcome SyncBatchResponse * Srv)
        (engine_text : js_error -> string) (view : ListView).
Implicit Types (b : Browser) (srv : Srv) (s : ListState).

Lemma run_set f b srv s : run (setState (D := D) f) (b, (srv, s)) = (Return tt, (b, (srv, f s))).
Proof. done. Qed.

(** The ids a handler draws for [data] are distinct. *)
Definition distinct_ids (data : ImportedWorkflowBundleData) b : Prop :=
  let ids := scenario_ids draws 1 (imp_scenarios data) b in NoDup ids /\ Forall (fun id => str_truthy id = true) ids.

Lemma from_bundle_run projectId data b srv s u : lv_activeProjectId view = Some projectId -> str_truthy projectId = true ->
  getUserId (br_host b) = Return u -> distinct_ids data b -> exists b' srv',
  run (createWorkflowFromBundle draws server_sync view data) (b, (srv, s))
    = (Return (drawn_id draws 0 b), (b', (srv', push (workflow_page (drawn_id draws 0 b)) s)))
  /\ imported projectId data (drawn_id draws 0 b) (scenario_ids draws 1 (imp_scenarios data) b) (entities b) (entities b').
Proof.
  intros Hp Ht Hu [Hn Hids]. unfold createWorkflowFromBundle. rewrite Hp, Ht.
  destruct (create_entities_spec draws projectId data b u Hu Hn Hids) as (b1 & E1 & _ & Hi).
  rewrite run_bind, run_local, E1. cbn [fst snd]. rewrite run_bind.
  destruct (run_flush server_sync 20 (settle b1) srv s) as (b2 & srv2 & -> & [He _]).
  rewrite run_bind, run_set. exists b2, srv2. split; [done|]. by rewrite He, settle_entities.
Qed.

(** The data an import makes of the text of a file. *)
Definition import_data (text : string) : res ImportedWorkflowBundleData :=
  bundle ← parseWorkflowBundle localeCompare JSON_parse text;
  materializeWorkflowBundle localeCompare fresh bundle (existing_names Date_time view).

(** C9: importing a file does all of it or nothing: a bundle that parses and
    validates is stored as a new workflow of the active project under an id of
    its own, with the nodes, connections, scenarios and steps of the bundle, opened
    and active, and no other entity changes; a file that does not is
    reported with its error and leaves stores, server and page as they
    were.  Either way the list is ready for the next import. *)
Theorem import_all_or_nothing text projectId b srv s u : lv_activeProjectId view = Some projectId -> allowed view = true ->
  getUserId (br_host b) = Return u -> (forall data, import_data text = Return data -> distinct_ids data b) ->
  exists b' srv' s',
    run (handleImport draws fresh localeCompare JSON_parse Date_time server_sync engine_text view (Some (Return text))) (b, (srv, s))
      = (Return tt, (b', (srv', s')))
    /\ st_isImporting s' = false
    /\ match import_data text with
       | Return data =>
           imported projectId data (drawn_id draws 0 b) (scenario_ids draws 1 (imp_scenarios data) b) (entities b) (entities b')
           /\ st_pushed s' = Some (workflow_page (drawn_id draws 0 b))
       | Throw e =>
           b' = b /\ srv' = srv /\ st_pushed s' = st_pushed s
           /\ st_toasts s' = st_toasts s ++ [ToastError "Import failed" (RunWorkflow.message_of engine_text e)]
       end.
Proof.
  intros Hp Ha Hu Hd. unfold handleImport. rewrite Ha. unfold try_block. cbn [negb].
  assert (Ht : str_truthy projectId = true) by (unfold allowed in Ha; rewrite Hp in Ha; by apply andb_prop in Ha as [? _]).
  rewrite run_bind, run_catch, run_bind, run_set. unfold import_data in *. cbn [mbind Proc_bind res_bind] in Hd |- *.
  destruct (parseWorkflowBundle localeCompare JSON_parse text) as [bundle|e]; cbn [mbind Proc_bind res_bind] in Hd |- *;
    [|by do 3 eexists].
  destruct (materializeWorkflowBundle localeCompare fresh bundle (existing_names Date_time view)) as [data|e]; [|by do 3 eexists].
  destruct (from_bundle_run projectId data b srv (setIsImporting true s) u Hp Ht Hu (Hd data eq_refl)) as (b1 & srv1 & E1 & Hi).
  cbn [mbind Proc_bind]. rewrite run_bind, E1, run_bind, run_local. cbn [fst snd readBrowser].
  rewrite run_set, run_set.
  do 3 eexists. split; [reflexivity|]. split; [done|]. split; [by rewrite settle_entities|done].
Qed.
End Handlers.

(** ** Deleting *)

(** Every value of the map sits under its own id. *)
Definition filed {V} (id : V -> string) (m : jmap string V) : Prop :=
  jmap_wf m /\ forall k v, m !! k = Some v -> id v = k.

(** [m'] is [m] with the values that satisfy [mine] marked. *)
Definition removed {V} (mine : V -> Prop) `{!forall v, Decision (mine v)} (mark : V -> V) (m m' : jmap string V) : Prop :=
  forall k, m' !! k = (fun v => if decide (mine v) then mark v else v) <$> m !! k.

Lemma filed_values {V} (id : V -> string) (m : jmap string V) (P : V -> Prop) `{!forall v, Decision (P v)} : filed id m ->
  NoDup (map id (filter P (jvalues m))) /\ (forall v, v ∈ filter P (jvalues m) -> m !! id v = Some v)
  /\ forall k, k ∈ map id (filter P (jvalues m)) <-> exists v, m !! k = Some v /\ P v.
Proof.
  intros [Hw Hk].
  assert (Hv : forall v, v ∈ jvalues m <-> m !! id v = Some v).
  { intros v. unfold jvalues. rewrite list_elem_of_fmap. split.
    - intros ([k v'] & -> & Hin). simpl. apply (elem_of_jlookup k v' m Hw) in Hin. by rewrite (Hk k v' Hin).
    - intros Hl. exists (id v, v). split; [done|]. by apply jlookup_elem_of. }
  split; [|split].
  - assert (Hn : NoDup (map id (jvalues m))).
    { replace (map id (jvalues m)) with (jkeys m); [done|]. unfold jvalues, jkeys. rewrite map_map. apply map_ext_in.
      intros [k v] Hin. simpl. symmetry. apply Hk, elem_of_jlookup; [done|]. by apply list_elem_of_In. }
    clear Hv Hk Hw. induction (jvalues m) as [|v l IH]; [constructor|]. cbn [map] in Hn. apply NoDup_cons in Hn as [Hni Hn].
    rewrite filter_cons. case_decide; [|by apply IH]. cbn [map]. constructor; [|by apply IH].
    rewrite list_elem_of_fmap. intros (x & E & [_ Hx]%list_elem_of_filter). apply Hni, list_elem_of_fmap. by exists x.
  - intros v [_ Hin]%list_elem_of_filter. by apply Hv.
  - intros k. rewrite list_elem_of_fmap. split.
    + intros (v & -> & [HP Hin]%list_elem_of_filter). exists v. split; [by apply Hv|done].
    + intros (v & Hl & HP). exists v. split; [by rewrite (Hk k v Hl)|]. apply list_elem_of_filter. split; [done|].
      apply Hv. by rewrite (Hk k v Hl).
Qed.

Section Loop.
Context `{D : Deque SyncChange} {V R : Type} (id : V -> string) (step : V -> BrowserM unit) (get : Entities -> jmap string V)
        (rest : Entities -> R) (mark : Host -> V -> V).
Hypothesis step_marks : forall x b v, get (entities b) !! id x = Some v -> exists b', step x b = (Return tt, b')
  /\ br_host b' = br_host b /\ rest (entities b') = rest (entities b)
  /\ get (entities b') = <[id x := mark (br_host b) v]> (get (entities b)).

Lemma each_marks l : forall b, NoDup (map id l) -> (forall x, x ∈ l -> is_Some (get (entities b) !! id x)) -> exists b',
  browser_each step l b = (Return tt, b') /\ br_host b' = br_host b /\ rest (entities b') = rest (entities b)
  /\ forall k, get (entities b') !! k = if decide (k ∈ map id l) then mark (br_host b) <$> get (entities b) !! k else get (entities b) !! k.
Proof.
  induction l as [|x l IH]; intros b Hn Hp; [by exists b|]. cbn [map] in Hn. apply NoDup_cons in Hn as [Hx Hn].
  destruct (Hp x) as [v Hv]; [by left|]. destruct (step_marks x b v Hv) as (b1 & E1 & Hh1 & Hr1 & Hg1).
  destruct (IH b1 Hn) as (b2 & E2 & Hh2 & Hr2 & Hg2).
  { intros y Hy. rewrite Hg1, jlookup_insert. case_decide; [by eexists|]. apply Hp. by right. }
  exists b2. cbn [browser_each]. rewrite (browser_bind _ _ _ _ _ E1). split; [done|]. split; [congruence|]. split; [congruence|].
  intros k. rewrite Hg2, Hh1, Hg1. cbn [map]. rewrite jlookup_insert.
  destruct (decide (k = id x)) as [->|Hne].
  - destruct (decide (id x ∈ map id l)); [done|]. destruct (decide (id x ∈ id x :: map id l)) as [_|Hc]; [|by destruct Hc; left].
    rewrite decide_True by done. by rewrite Hv.
  - rewrite (decide_False (P := id x = k)) by congruence.
    destruct (decide (k ∈ map id l)) as [Hk|Hk], (decide (k ∈ id x :: map id l)) as [Hc|Hc]; try done;
      exfalso; [by apply Hc; right|by apply elem_of_cons in Hc as [|]].
Qed.

Lemma marks_removed (mine : V -> Prop) `{!forall v, Decision (mine v)} b : filed id (get (entities b)) -> exists b',
  browser_each step (filter mine (jvalues (get (entities b)))) b = (Return tt, b') /\ br_host b' = br_host b
  /\ rest (entities b') = rest (entities b) /\ removed mine (mark (br_host b)) (get (entities b)) (get (entities b')).
Proof.
  intros Hf. destruct (filed_values id _ mine Hf) as (Hn & Hv & Hm).
  destruct (each_marks (filter mine (jvalues (get (entities b)))) b Hn) as (b' & E & Hh & Hr & Hg).
  { intros x Hx. rewrite (Hv x Hx). by eexists. }
  exists b'. split_and!; try done. intros k. rewrite Hg. destruct (decide (k ∈ _)) as [Hk|Hk].
  - apply Hm in Hk as (v & -> & HP). simpl. by rewrite decide_True.
  - destruct (get (entities b) !! k) as [v|] eqn:El; [|done]. simpl. rewrite decide_False; [done|].
    intros HP. apply Hk, Hm. by exists v.
Qed.
End Loop.

(** The tombstones. *)
Definition deleted_run (h : Host) (r : ScenarioRunStore.ScenarioRun) : ScenarioRunStore.ScenarioRun :=
  let m := markAsDeleted (ScenarioRunStore.run_meta r) h in
  ScenarioRunStore.MkRun (ScenarioRunStore.run_id r) (ScenarioRunStore.run_projectId r) (ScenarioRunStore.run_workflowRunId r)
    (ScenarioRunStore.run_workflowId r) (ScenarioRunStore.run_scenarioId r) (ScenarioRunStore.run_scenarioName r)
    (ScenarioRunStore.run_backendSessionId r) (ScenarioRunStore.run_status r) (ScenarioRunStore.run_result r)
    (ScenarioRunStore.run_error r) (ScenarioRunStore.run_phase r) (ScenarioRunStore.run_checkpointIndex r)
    (ScenarioRunStore.run_logs r) (ScenarioRunStore.run_startedAt r) (ScenarioRunStore.run_finishedAt r) m.
Definition deleted_execution (h : Host) (ex : ExecutionStore.WorkflowExecution) : ExecutionStore.WorkflowExecution :=
  ExecutionStore.MkExecution (ExecutionStore.ex_workflowRunId ex) (ExecutionStore.ex_projectId ex) (ExecutionStore.ex_workflowId ex)
    (ExecutionStore.ex_status ex) (ExecutionStore.ex_logs ex) (ExecutionStore.ex_result ex) (ExecutionStore.ex_error ex)
    (ExecutionStore.ex_startedAt ex) (ExecutionStore.ex_finishedAt ex) (ExecutionStore.ex_scenarioRunIds ex)
    (ExecutionStore.ex_lastEventId ex) (ExecutionStore.ex_queue ex) (markAsDeleted (ExecutionStore.ex_meta ex) h).
Definition deleted_scenario (h : Host) (sc : Scenario) : Scenario :=
  MkScenario (scn_id sc) (scn_projectId sc) (scn_workflowId sc) (scn_name sc) (scn_description sc) (scn_tests sc) (scn_testOrder sc)
    (markAsDeleted (scn_meta sc) h).
Definition deleted_workflow (h : Host) (wf : WorkflowStore.Workflow) : WorkflowStore.Workflow :=
  WorkflowStore.MkWorkflow (WorkflowStore.wf_id wf) (WorkflowStore.wf_projectId wf) (WorkflowStore.wf_name wf)
    (WorkflowStore.wf_description wf) (WorkflowStore.wf_nodes wf) (WorkflowStore.wf_edges wf) (WorkflowStore.wf_customTestOrder wf)
    (WorkflowStore.wf_provenance wf) (markAsDeleted (WorkflowStore.wf_meta wf) h).

(** The other stores. *)
Definition but_results (e : Entities) := (en_workflows e, en_scenarios e, en_executions e, en_scenarioRuns e).
Definition but_runs (e : Entities) := (en_workflows e, en_scenarios e, en_executions e, en_testResults e).
Definition but_executions (e : Entities) := (en_workflows e, en_scenarios e, en_scenarioRuns e, en_testResults e).
Definition but_scenarios (e : Entities) := (en_workflows e, en_executions e, en_scenarioRuns e, en_testResults e).
Definition but_workflows (e : Entities) := (en_scenarios e, en_executions e, en_scenarioRuns e, en_testResults e).

(** Two sets of stores that agree but for one agree in the others. *)
Lemma but_results_eq e e' : but_results e = but_results e' -> en_workflows e = en_workflows e' /\ en_scenarios e = en_scenarios e' /\ en_executions e = en_executions e' /\ en_scenarioRuns e = en_scenarioRuns e'.
Proof. by intros [= ? ? ? ?]. Qed.
Lemma but_runs_eq e e' : but_runs e = but_runs e' -> en_workflows e = en_workflows e' /\ en_scenarios e = en_scenarios e' /\ en_executions e = en_executions e' /\ en_testResults e = en_testResults e'.
Proof. by intros [= ? ? ? ?]. Qed.
Lemma but_executions_eq e e' : but_executions e = but_executions e' -> en_workflows e = en_workflows e' /\ en_scenarios e = en_scenarios e' /\ en_scenarioRuns e = en_scenarioRuns e' /\ en_testResults e = en_testResults e'.
Proof. by intros [= ? ? ? ?]. Qed.
Lemma but_scenarios_eq e e' : but_scenarios e = but_scenarios e' -> en_workflows e = en_workflows e' /\ en_executions e = en_executions e' /\ en_scenarioRuns e = en_scenarioRuns e' /\ en_testResults e = en_testResults e'.
Proof. by intros [= ? ? ? ?]. Qed.
Lemma but_workflows_eq e e' : but_workflows e = but_workflows e' -> en_scenarios e = en_scenarios e' /\ en_executions e = en_executions e' /\ en_scenarioRuns e = en_scenarioRuns e' /\ en_testResults e = en_testResults e'.
Proof. by intros [= ? ? ? ?]. Qed.

Section Deletion.
Context `{D : Deque SyncChange} {Srv : Type} (engine_text : js_error -> string).
Implicit Types (b : Browser) (srv : Srv) (s : ListState).

(** The store's update is known, and the rest of the browser is as it was. *)
Local Ltac by_set :=
  match goal with |- context [syncSet ?o ?f (?h, ?s0)] =>
    let s' := fresh "s'" in let E := fresh "E" in let Hs := fresh "Hs" in
    destruct (set_run o f h s0 _ h ltac:(cbn [state]; match goal with H : _ !! _ = Some _ |- _ => rewrite H end; reflexivity))
      as (s' & -> & Hs); eexists; split; [reflexivity|]; cbn; rewrite Hs; by split_and!
  end.

Lemma delete_result_step id b r : TestResultStore.testResults (en_testResults (entities b)) !! id = Some r -> exists b',
  in_runs (in_test_results (TestResultStore.deleteTestResult id)) b = (Return tt, b') /\ br_host b' = br_host b
  /\ but_results (entities b') = but_results (entities b)
  /\ TestResultStore.testResults (en_testResults (entities b'))
     = <[id := TestResultStore.deleted (br_host b) r]> (TestResultStore.testResults (en_testResults (entities b))).
Proof.
  cbn. intros H. unfold in_runs, in_test_results, TestResultStore.deleteTestResult, mbind, StoreM_bind, trackSync, TestResultStore.set.
  by_set.
Qed.

Lemma clear_run_step id b r : ScenarioRunStore.scenarioRuns (en_scenarioRuns (entities b)) !! id = Some r -> exists b',
  in_runs (in_scenario_runs (ScenarioRunStore.clearScenarioRun id)) b = (Return tt, b') /\ br_host b' = br_host b
  /\ but_runs (entities b') = but_runs (entities b)
  /\ ScenarioRunStore.scenarioRuns (en_scenarioRuns (entities b'))
     = <[id := deleted_run (br_host b) r]> (ScenarioRunStore.scenarioRuns (en_scenarioRuns (entities b))).
Proof.
  cbn. intros H. unfold in_runs, in_scenario_runs, ScenarioRunStore.clearScenarioRun, mbind, StoreM_bind, trackSync, ScenarioRunStore.set.
  by_set.
Qed.

Lemma clear_execution_step id b ex : ExecutionStore.executions (en_executions (entities b)) !! id = Some ex -> exists b',
  in_runs (in_executions (ExecutionStore.clearExecution id)) b = (Return tt, b') /\ br_host b' = br_host b
  /\ but_executions (entities b') = but_executions (entities b)
  /\ ExecutionStore.executions (en_executions (entities b'))
     = <[id := deleted_execution (br_host b) ex]> (ExecutionStore.executions (en_executions (entities b))).
Proof.
  cbn. intros H. unfold in_runs, in_executions, ExecutionStore.clearExecution, mbind, StoreM_bind, trackSync, ExecutionStore.set.
  by_set.
Qed.

Lemma delete_scenario_step id b sc : ScenarioStore.scenarios (en_scenarios (entities b)) !! id = Some sc -> exists b',
  in_scenarios (ScenarioStore.deleteScenario id) b = (Return tt, b') /\ br_host b' = br_host b
  /\ but_scenarios (entities b') = but_scenarios (entities b)
  /\ ScenarioStore.scenarios (en_scenarios (entities b'))
     = <[id := deleted_scenario (br_host b) sc]> (ScenarioStore.scenarios (en_scenarios (entities b))).
Proof.
  cbn. intros H. unfold in_scenarios, ScenarioStore.deleteScenario, mbind, StoreM_bind, getState, trackSync, ScenarioStore.set.
  cbn [fst snd]. rewrite H. by_set.
Qed.

Lemma delete_workflow_step id b wf : WorkflowStore.workflows (en_workflows (entities b)) !! id = Some wf -> exists b',
  in_workflows (WorkflowStore.deleteWorkflow id) b = (Return tt, b') /\ br_host b' = br_host b
  /\ but_workflows (entities b') = but_workflows (entities b)
  /\ WorkflowStore.workflows (en_workflows (entities b'))
     = <[id := deleted_workflow (br_host b) wf]> (WorkflowStore.workflows (en_workflows (entities b))).
Proof.
  cbn. intros H. unfold in_workflows, WorkflowStore.deleteWorkflow, mbind, StoreM_bind, trackSync, WorkflowStore.set.
  by_set.
Qed.

(** The four loops. *)
Lemma delete_results id b : filed (fun r => TestResultStore.tr_id (TestResultStore.tr_input r)) (TestResultStore.testResults (en_testResults (entities b))) ->
  exists b', browser_each (fun r => in_runs (in_test_results (TestResultStore.deleteTestResult (TestResultStore.tr_id (TestResultStore.tr_input r)))))
    (filter (fun r => TestResultStore.tr_workflowId (TestResultStore.tr_input r) = id /\ is_deleted (TestResultStore.tr_meta r) = false)
      (jvalues (TestResultStore.testResults (en_testResults (entities b))))) b = (Return tt, b')
  /\ br_host b' = br_host b /\ but_results (entities b') = but_results (entities b)
  /\ removed (fun r => TestResultStore.tr_workflowId (TestResultStore.tr_input r) = id /\ is_deleted (TestResultStore.tr_meta r) = false)
    (TestResultStore.deleted (br_host b)) (TestResultStore.testResults (en_testResults (entities b))) (TestResultStore.testResults (en_testResults (entities b'))).
Proof.
  apply (marks_removed _ _ (fun e => TestResultStore.testResults (en_testResults e)) but_results TestResultStore.deleted).
  intros x b0 r. apply delete_result_step.
Qed.

Lemma clear_runs id b : filed ScenarioRunStore.run_id (ScenarioRunStore.scenarioRuns (en_scenarioRuns (entities b))) ->
  exists b', browser_each (fun r => in_runs (in_scenario_runs (ScenarioRunStore.clearScenarioRun (ScenarioRunStore.run_id r))))
    (filter (fun r => ScenarioRunStore.run_workflowId r = id /\ is_deleted (ScenarioRunStore.run_meta r) = false)
      (jvalues (ScenarioRunStore.scenarioRuns (en_scenarioRuns (entities b))))) b = (Return tt, b')
  /\ br_host b' = br_host b /\ but_runs (entities b') = but_runs (entities b)
  /\ removed (fun r => ScenarioRunStore.run_workflowId r = id /\ is_deleted (ScenarioRunStore.run_meta r) = false)
    (deleted_run (br_host b)) (ScenarioRunStore.scenarioRuns (en_scenarioRuns (entities b))) (ScenarioRunStore.scenarioRuns (en_scenarioRuns (entities b'))).
Proof.
  apply (marks_removed _ _ (fun e => ScenarioRunStore.scenarioRuns (en_scenarioRuns e)) but_runs deleted_run).
  intros x b0 r. apply clear_run_step.
Qed.

Lemma clear_executions id b : filed ExecutionStore.ex_workflowRunId (ExecutionStore.executions (en_executions (entities b))) ->
  exists b', browser_each (fun ex => in_runs (in_executions (ExecutionStore.clearExecution (ExecutionStore.ex_workflowRunId ex))))
    (filter (fun ex => ExecutionStore.ex_workflowId ex = id /\ is_deleted (ExecutionStore.ex_meta ex) = false)
      (jvalues (ExecutionStore.executions (en_executions (entities b))))) b = (Return tt, b')
  /\ br_host b' = br_host b /\ but_executions (entities b') = but_executions (entities b)
  /\ removed (fun ex => ExecutionStore.ex_workflowId ex = id /\ is_deleted (ExecutionStore.ex_meta ex) = false)
    (deleted_execution (br_host b)) (ExecutionStore.executions (en_executions (entities b))) (ExecutionStore.executions (en_executions (entities b'))).
Proof.
  apply (marks_removed _ _ (fun e => ExecutionStore.executions (en_executions e)) but_executions deleted_execution).
  intros x b0 r. apply clear_execution_step.
Qed.

Lemma delete_scenarios id b : filed scn_id (ScenarioStore.scenarios (en_scenarios (entities b))) ->
  exists b', browser_each (fun sc => in_scenarios (ScenarioStore.deleteScenario (scn_id sc)))
    (filter (fun sc => scn_workflowId sc = id /\ is_deleted (scn_meta sc) = false) (jvalues (ScenarioStore.scenarios (en_scenarios (entities b))))) b
    = (Return tt, b')
  /\ br_host b' = br_host b /\ but_scenarios (entities b') = but_scenarios (entities b)
  /\ removed (fun sc => scn_workflowId sc = id /\ is_deleted (scn_meta sc) = false)
    (deleted_scenario (br_host b)) (ScenarioStore.scenarios (en_scenarios (entities b))) (ScenarioStore.scenarios (en_scenarios (entities b'))).
Proof.
  apply (marks_removed _ _ (fun e => ScenarioStore.scenarios (en_scenarios e)) but_scenarios deleted_scenario).
  intros x b0 r. apply delete_scenario_step.
Qed.

(** The list as it was rendered from the stores of [b], in which every entity sits
    under its own id. *)
Definition rendered_from (view : ListView) b : Prop :=
  let e := entities b in
  lv_workflows view = WorkflowStore.workflows (en_workflows e) /\ lv_scenarios view = ScenarioStore.scenarios (en_scenarios e)
  /\ lv_executions view = ExecutionStore.executions (en_executions e)
  /\ lv_scenarioRuns view = ScenarioRunStore.scenarioRuns (en_scenarioRuns e)
  /\ lv_testResults view = TestResultStore.testResults (en_testResults e).

Definition all_filed (e : Entities) : Prop :=
  filed scn_id (ScenarioStore.scenarios (en_scenarios e)) /\ filed ExecutionStore.ex_workflowRunId (ExecutionStore.executions (en_executions e))
  /\ filed ScenarioRunStore.run_id (ScenarioRunStore.scenarioRuns (en_scenarioRuns e))
  /\ filed (fun r => TestResultStore.tr_id (TestResultStore.tr_input r)) (TestResultStore.testResults (en_testResults e)).

(** The workflow and everything of it that was live, and nothing else, is a tombstone. *)
Definition workflow_gone (h : Host) (id : string) (e e' : Entities) : Prop :=
  removed (fun wf => WorkflowStore.wf_id wf = id) (deleted_workflow h)
    (WorkflowStore.workflows (en_workflows e)) (WorkflowStore.workflows (en_workflows e'))
  /\ removed (fun sc => scn_workflowId sc = id /\ is_deleted (scn_meta sc) = false) (deleted_scenario h)
    (ScenarioStore.scenarios (en_scenarios e)) (ScenarioStore.scenarios (en_scenarios e'))
  /\ removed (fun ex => ExecutionStore.ex_workflowId ex = id /\ is_deleted (ExecutionStore.ex_meta ex) = false) (deleted_execution h)
    (ExecutionStore.executions (en_executions e)) (ExecutionStore.executions (en_executions e'))
  /\ removed (fun r => ScenarioRunStore.run_workflowId r = id /\ is_deleted (ScenarioRunStore.run_meta r) = false) (deleted_run h)
    (ScenarioRunStore.scenarioRuns (en_scenarioRuns e)) (ScenarioRunStore.scenarioRuns (en_scenarioRuns e'))
  /\ removed (fun r => TestResultStore.tr_workflowId (TestResultStore.tr_input r) = id /\ is_deleted (TestResultStore.tr_meta r) = false)
    (TestResultStore.deleted h) (TestResultStore.testResults (en_testResults e)) (TestResultStore.testResults (en_testResults e')).

Lemma delete_related_run view id wf b : rendered_from view b -> all_filed (entities b) ->
  filed WorkflowStore.wf_id (WorkflowStore.workflows (en_workflows (entities b))) ->
  WorkflowStore.workflows (en_workflows (entities b)) !! id = Some wf -> exists b',
  delete_related view id b = (Return tt, b') /\ workflow_gone (br_host b) id (entities b) (entities b').
Proof.
  intros (_ & Vsc & Vex & Vsr & Vtr) (Fsc & Fex & Fsr & Ftr) Fwf Hwf.
  unfold delete_related, own_scenarios, relatedExecutions, relatedScenarioRuns, relatedTestResults. rewrite Vsc, Vex, Vsr, Vtr.
  destruct (delete_results id b Ftr) as (b1 & E1 & H1 & (W1 & S1 & X1 & N1)%but_results_eq & D1).
  rewrite (browser_bind _ _ _ _ _ E1). rewrite <- N1 in Fsr |- *.
  destruct (clear_runs id b1 Fsr) as (b2 & E2 & H2 & (W2 & S2 & X2 & T2)%but_runs_eq & D2).
  rewrite (browser_bind _ _ _ _ _ E2). rewrite <- X1, <- X2 in Fex |- *.
  destruct (clear_executions id b2 Fex) as (b3 & E3 & H3 & (W3 & S3 & N3 & T3)%but_executions_eq & D3).
  rewrite (browser_bind _ _ _ _ _ E3). rewrite <- S1, <- S2, <- S3 in Fsc |- *.
  destruct (delete_scenarios id b3 Fsc) as (b4 & E4 & H4 & (W4 & X4 & N4 & T4)%but_scenarios_eq & D4).
  rewrite (browser_bind _ _ _ _ _ E4).
  assert (W : en_workflows (entities b4) = en_workflows (entities b)) by congruence. rewrite <- W in Fwf, Hwf.
  destruct (delete_workflow_step id b4 wf Hwf) as (b5 & E5 & _ & (S5 & X5 & N5 & T5)%but_workflows_eq & D5).
  exists b5. split; [exact E5|].
  unfold workflow_gone. split_and!.
  - intros k. rewrite D5, jlookup_insert, H4, H3, H2, H1, <- W. case_decide as Hk.
    + subst k. rewrite Hwf. simpl. rewrite decide_True; [done|]. by apply Fwf.
    + destruct (_ !! k) as [wf'|] eqn:El; [|done]. simpl. rewrite decide_False; [done|].
      apply (proj2 Fwf) in El. congruence.
  - rewrite S5. by rewrite S3, S2, S1, H3, H2, H1 in D4.
  - rewrite X5, X4. by rewrite X2, X1, H2, H1 in D3.
  - rewrite N5, N4, N3. by rewrite N1, H1 in D2.
  - by rewrite T5, T4, T3, T2.
Qed.

(** C10: deleting a workflow deletes what belongs to it and nothing else: once the
    deletion is confirmed, the workflow and every live scenario, run, scenario run
    and test result of it is a tombstone with a new version, every other entity of
    the five stores is as it was, and the dialog is closed. *)
Theorem deletion_exact view id name wf b srv s : rendered_from view b -> all_filed (entities b) ->
  filed WorkflowStore.wf_id (WorkflowStore.workflows (en_workflows (entities b))) ->
  WorkflowStore.workflows (en_workflows (entities b)) !! id = Some wf ->
  exists b' s', run (handleDeleteWorkflow engine_text view (Some (id, name))) (b, (srv, s)) = (Return tt, (b', (srv, s')))
    /\ workflow_gone (br_host b) id (entities b) (entities b')
    /\ st_pendingDelete s' = None /\ st_isDeleting s' = false
    /\ st_toasts s' = st_toasts s ++ [ToastSuccess "Workflow deleted" (name +:+ " and its related data were removed.")].
Proof.
  intros Hv Ha Hw Hwf. destruct (delete_related_run view id wf b Hv Ha Hw Hwf) as (b1 & E1 & Hg).
  unfold handleDeleteWorkflow, try_block. rewrite run_bind, run_catch, run_bind, run_set, run_bind, run_local, E1. cbn [fst snd].
  rewrite run_bind, !run_set. do 2 eexists. split; [reflexivity|]. rewrite settle_entities. by split_and!.
Qed.
End Deletion.

(** ** Witnesses *)
#[local] Existing Instance FastQueue.fast_queue_deque.

Definition shown_list : ListView :=
  MkListView (WorkflowStore.workflows (state (br_workflows demo_blank))) true false
    (ScenarioStore.scenarios (state (br_scenarios demo_blank)))
    (ExecutionStore.executions (state (execution_store (br_runs demo_blank))))
    (ScenarioRunStore.scenarioRuns (state (scenario_run_store (br_runs demo_blank))))
    (TestResultStore.testResults (state (test_result_store (br_runs demo_blank)))) (Some "p1") (Some ["read"; "edit"]).
Definition demo_file (text : string) : option (option RawBundle) :=
  if decide (text = "bundle") then Some (raw_of BundleFacts.demo_bundle) else None.
Definition demo_import (text : string) : res unit * (Browser * (unit * ListState)) :=
  run (handleImport demo_draws numbered no_collation demo_file (fun _ => None) (fun s _ => (FetchRejected, s)) (fun _ => "")
         shown_list (Some (Return text))) (demo_blank, (tt, initial)).

Lemma return_inj {A} (x y : A) : Return x = Return y -> x = y.
Proof. by intros [=]. Qed.

Definition demo_data : ImportedWorkflowBundleData :=
  match import_data numbered no_collation demo_file (fun _ => None) shown_list "bundle" with
  | Return data => data
  | Throw _ => MkImported BundleFacts.demo_workflow []
  end.

Lemma import_all_or_nothing_witness : exists b' s',
  demo_import "bundle" = (Return tt, (b', (tt, s')))
  /\ imported "p1" demo_data "uuid-0" ["uuid-1"] (entities demo_blank) (entities b') /\ st_pushed s' = Some "/workflow/uuid-0".
Proof.
  assert (Ed : import_data numbered no_collation demo_file (fun _ => None) shown_list "bundle" = Return demo_data)
    by (vm_compute; reflexivity).
  assert (Ei : scenario_ids demo_draws 1 (imp_scenarios demo_data) demo_blank = ["uuid-1"]) by (vm_compute; reflexivity).
  destruct (import_all_or_nothing demo_draws numbered no_collation demo_file (fun _ => None) (fun s _ => (FetchRejected, s))
    (fun _ => "") shown_list "bundle" "p1" demo_blank tt initial "user-1") as (b' & [] & s' & E & _ & H).
  - reflexivity.
  - reflexivity.
  - vm_compute. reflexivity.
  - intros data Hd. rewrite Ed in Hd. apply return_inj in Hd as <-. unfold distinct_ids. rewrite Ei. split.
    + repeat constructor; rewrite ?elem_of_nil; naive_solver.
    + repeat constructor.
  - rewrite Ed, Ei in H. exists b', s'. split; [exact E|exact H].
Defined.

Lemma deletion_exact_witness : exists b' s',
  run (handleDeleteWorkflow (fun _ => "") shown_list (Some ("w1", "Demo"))) (demo_blank, (tt, initial)) = (Return tt, (b', (tt, s')))
  /\ workflow_gone sample_host "w1" (entities demo_blank) (entities b').
Proof.
  assert (Hf : forall {V} (id : V -> string) (m : jmap string V), forallb (fun '(k, v) => bool_decide (id v = k)) (entries m) = true ->
    bool_decide (NoDup (jkeys m)) = true -> filed id m).
  { intros V id m H Hn. split; [by apply bool_decide_eq_true_1 in Hn|]. intros k v Hl. apply jlookup_elem_of in Hl.
    rewrite forallb_forall in H. apply list_elem_of_In, H in Hl. by apply bool_decide_eq_true_1 in Hl. }
  destruct (deletion_exact (fun _ => "") shown_list "w1" "Demo" (WorkflowStore.demo_workflow 3) demo_blank tt initial) as (b' & s' & E & H & _).
  - by split_and!.
  - split_and!; apply Hf; vm_compute; reflexivity.
  - apply Hf; vm_compute; reflexivity.
  - vm_compute. reflexivity.
  - exists b', s'. split; [exact E|exact H].
Defined.
