(* ===== verification/ScenarioEditor.v ===== *)
(** * The scenario panel: [ui-v2/src/modules/workflow/components/ScenarioManager.tsx]

    The scenarios of a workflow, the one that is shown, and the handlers that edit it.
    [Panel] is the component's React state; [PanelView] is what it read from the
    store and its props when it rendered, which its handlers close over.  A
    handler is an action of the scenario store that also sets the panel's state.
    [arrayMove] is that of the library the panel drags with. *)

From S2P Require Import Prelude FastQueue FlowTypes JsLib SyncTypes ClientId SyncService Json ServiceNames ScenarioTranslator TranslatorFacts.
From S2P Require Import SyncMiddleware WorkflowStore ScenarioStore CanvasFacts Defaults.
Open Scope Z_scope.

Module ScenarioEditor.
Import Defaults Recipes.

Record Panel := MkPanel {
  expandedTests : list string;
  activeTestId : option string;
  shownScenario : option string
}.
Definition initial : Panel := MkPanel [] None None.

Definition setExpandedTests (s : list string) (p : Panel) : Panel := MkPanel s (activeTestId p) (shownScenario p).
Definition setActiveTestId (id : option string) (p : Panel) : Panel := MkPanel (expandedTests p) id (shownScenario p).

Record PanelView := MkPanelView {
  pv_workflowId : string;
  pv_nodes : list FlowNode;
  pv_scenariosMap : jmap string Scenario;
  pv_activeScenarioId : option string
}.

Section Panel.
Context (localeCompare : string -> string -> Z)
        (arrayMove : list ScenarioTestDefinition -> nat -> nat -> list ScenarioTestDefinition).

(** ** What is shown *)
Definition scenarios (v : PanelView) : list Scenario :=
  js_sort (fun a b => localeCompare (updated_at (scn_meta b)) (updated_at (scn_meta a)))
    (filter (fun s => scn_workflowId s = pv_workflowId v /\ is_deleted (scn_meta s) = false) (jvalues (pv_scenariosMap v))).

Definition activeScenario (v : PanelView) : option Scenario :=
  match (if ostr_truthy (pv_activeScenarioId v) then pv_scenariosMap v !! default "" (pv_activeScenarioId v) else None) with
  | Some scenario => Some scenario
  | None => head (scenarios v)
  end.

(** The view of the store's state. *)
Definition view_of (workflowId : string) (nodes : list FlowNode) (st : ScenarioStore.ScenarioState) : PanelView :=
  MkPanelView workflowId nodes (ScenarioStore.scenarios st)
    (default None (ScenarioStore.activeScenarioIdByWorkflow st !! workflowId)).

(** The effect that selects a scenario when none is shown. *)
Definition select_effect (v : PanelView) : ScenarioStore.Action unit :=
  match activeScenario v, scenarios v with
  | None, first :: _ => ScenarioStore.setActiveScenario (pv_workflowId v) (Some (scn_id first))
  | _, _ => mret tt
  end.

(** The effect that closes the rows when another scenario is shown. *)
Definition reset_effect (v : PanelView) (p : Panel) : Panel :=
  let shown := scn_id <$> activeScenario v in
  if decide (shownScenario p = shown) then p else MkPanel [] (activeTestId p) shown.

Definition toggleTest (testId : string) (p : Panel) : Panel :=
  setExpandedTests (if set_has testId (expandedTests p) then filter (fun id => id <> testId) (expandedTests p)
                    else set_add testId (expandedTests p)) p.

Definition availableServices (v : PanelView) : res (list string) := res_map nodeName (pv_nodes v).

Definition draggingTest (v : PanelView) (p : Panel) : option ScenarioTestDefinition :=
  match activeTestId p with
  | Some id => if str_truthy id then
                 activeScenario v ≫= (fun sc => List.find (fun t => bool_decide (test_id t = id)) (scn_tests sc))
               else None
  | None => None
  end.

(** ** The handlers *)
Definition Handler : Type := Panel -> ScenarioStore.Action Panel.

Definition only (f : Panel -> Panel) : Handler := fun p => mret (f p).
Definition lift {A} (r : res A) : ScenarioStore.Action A := fun c => (r, c).

(** [updateScenario(id, {tests, testOrder: tests.map(t => t.id)})] *)
Definition saveTests (scenario : Scenario) (tests : list ScenarioTestDefinition) : ScenarioStore.Action unit :=
  ScenarioStore.updateScenario (scn_id scenario) (ScenarioStore.MkUpdates None None (Some tests) (Some (map test_id tests))).

Definition handleDragStart (active : string) : Handler := only (setActiveTestId (Some active)).

(** [tests.findIndex(t => t.id === id)] *)
Fixpoint test_index (id : string) (tests : list ScenarioTestDefinition) : option nat :=
  match tests with
  | [] => None
  | t :: rest => if decide (test_id t = id) then Some 0%nat else S <$> test_index id rest
  end.

Definition handleDragEnd (v : PanelView) (active : string) (over : option string) : Handler := fun p =>
  let p := setActiveTestId None p in
  match over, activeScenario v with
  | Some over, Some scenario =>
      if decide (active = over) then mret p
      else
        match test_index active (scn_tests scenario), test_index over (scn_tests scenario) with
        | Some oldIndex, Some newIndex =>
            saveTests scenario (arrayMove (scn_tests scenario) oldIndex newIndex);; mret p
        | _, _ => mret p
        end
  | _, _ => mret p
  end.

Definition onNewScenario (workflows : WorkflowStore.WorkflowState) (v : PanelView) : Handler := fun p =>
  id ← ScenarioStore.createScenario workflows (pv_workflowId v)
         (Some ("Scenario " +:+ pretty (Z.of_nat (length (scenarios v)) + 1)));
  ScenarioStore.setActiveScenario (pv_workflowId v) (Some id);;
  mret p.

Definition onSelectScenario (v : PanelView) (scenarioId : string) : Handler := fun p =>
  ScenarioStore.setActiveScenario (pv_workflowId v) (Some scenarioId);; mret p.

Definition onRename (scenario : Scenario) (name : string) : Handler := fun p =>
  ScenarioStore.updateScenario (scn_id scenario) (ScenarioStore.MkUpdates (Some name) None None None);; mret p.
Definition onDescribe (scenario : Scenario) (description : string) : Handler := fun p =>
  ScenarioStore.updateScenario (scn_id scenario) (ScenarioStore.MkUpdates None (Some (Some description)) None None);; mret p.
Definition onDeleteScenario (scenario : Scenario) : Handler := fun p =>
  ScenarioStore.deleteScenario (scn_id scenario);; mret p.

(** [fresh i] is the [i]-th id the recipe draws. *)
Definition onRecipe (fresh : nat -> string) (v : PanelView) (scenario : Scenario) (kind : ScenarioRecipeKind) : Handler := fun p =>
  recipeTests ← lift (createScenarioRecipe fresh kind (pv_nodes v));
  saveTests scenario (scn_tests scenario ++ recipeTests);;
  mret (setExpandedTests [] p).

Definition onAddTest (v : PanelView) (scenario : Scenario) : Handler := fun p =>
  id ← readHost generateId;
  newTest ← lift (createDefaultTest THttp (pv_nodes v) [] id);
  saveTests scenario (scn_tests scenario ++ [newTest]);;
  mret (setExpandedTests (set_add (test_id newTest) (expandedTests p)) p).

Definition onDeleteTest (scenario : Scenario) (test : ScenarioTestDefinition) : Handler := fun p =>
  saveTests scenario (filter (fun t => test_id t <> test_id test) (scn_tests scenario));; mret p.

Definition onUpdateTest (scenario : Scenario) (test updated : ScenarioTestDefinition) : Handler := fun p =>
  saveTests scenario (map (fun t => if decide (test_id t = test_id test) then updated else t) (scn_tests scenario));; mret p.
End Panel.
End ScenarioEditor.

(** * The scenario panel shows the order in which steps run *)

Import Defaults Recipes ScenarioEditor.

(** ** What is shown *)

(** The effect that is to select a scenario when none is shown never does: the newest
    scenario is shown instead. *)
Theorem select_effect_idle lc v : select_effect lc v = mret tt.
Proof.
  unfold select_effect, activeScenario. destruct (if ostr_truthy _ then _ else _) as [sc|]; [done|].
  by destruct (scenarios lc v).
Qed.

(** ** The order of the steps *)

(** The steps are stored in the order in which they run. *)
Definition listed (sc : Scenario) : Prop := scn_testOrder sc = map test_id (scn_tests sc).
Definition all_listed (st : ScenarioStore.ScenarioState) : Prop :=
  forall id sc, ScenarioStore.scenarios st !! id = Some sc -> listed sc.

Lemma derive_listed tests : ScenarioStore.deriveOrder tests (Some (map test_id tests)) = map test_id tests.
Proof.
  rewrite ScenarioStore.derive_split, filter_all, filter_none; [apply app_nil_r| |]; apply Forall_forall; intros x Hx; [intros Hn|]; done.
Qed.

(** An update that gives the order with the tests, or neither. *)
Definition ordered_update (u : ScenarioStore.Updates) : Prop :=
  (exists tests, ScenarioStore.up_tests u = Some tests /\ ScenarioStore.up_testOrder u = Some (map test_id tests))
  \/ ScenarioStore.up_tests u = None /\ ScenarioStore.up_testOrder u = None.

Lemma update_listed u sc m : ordered_update u -> listed sc -> listed (ScenarioStore.apply_updates u sc m).
Proof.
  unfold listed, ScenarioStore.apply_updates. intros [(tests & -> & ->)|[-> ->]] Hl; cbn; [apply derive_listed|].
  rewrite Hl. apply derive_listed.
Qed.

(** ** Actions that keep it *)
Definition keeps {A} (m : ScenarioStore.Action A) : Prop :=
  forall h s, all_listed (state s) -> all_listed (state (m (h, s)).2.2).

Create HintDb listed.

Lemma keeps_ret {A} (a : A) : keeps (mret a).
Proof. by intros h s H. Qed.

Lemma keeps_bind {A B} (m : ScenarioStore.Action A) (k : A -> ScenarioStore.Action B) :
  keeps m -> (forall a, keeps (k a)) -> keeps (m ≫= k).
Proof.
  intros Hm Hk h s H. unfold mbind, StoreM_bind. specialize (Hm h s H). destruct (m (h, s)) as [[a|e] [h' s']]; [|done].
  by apply Hk.
Qed.

Lemma keeps_lift {A} (r : res A) : keeps (lift r).
Proof. by intros h s H. Qed.

Lemma keeps_host {A} (f : Host -> A) : keeps (readHost f).
Proof. by intros h s H. Qed.

Lemma keeps_from {A} (f : Host -> res A * Host) : keeps (fromHost f).
Proof. intros h s H. unfold fromHost. by destruct (f _). Qed.

Lemma keeps_track id ct : keeps (trackSync id ct).
Proof. by intros h s H. Qed.

Lemma keeps_set update : (forall st h st' h', all_listed st -> update st h = (Return st', h') -> all_listed st') ->
  keeps (ScenarioStore.set update).
Proof.
  intros Hu h s H. unfold ScenarioStore.set, syncSet. destruct (update (state s) h) as [[t|e] h'] eqn:E; [|done].
  pose proof (Hu _ _ _ _ H E). by repeat case_match.
Qed.

Lemma keeps_pure f : (forall st, all_listed st -> all_listed (f st)) -> keeps (ScenarioStore.set (pureSet f)).
Proof. intros Hf. apply keeps_set. intros st h st' h' H [= <- <-]. by apply Hf. Qed.

Lemma insert_listed id sc st active current : listed sc -> all_listed st ->
  all_listed (ScenarioStore.MkState (<[id := sc]> (ScenarioStore.scenarios st)) active current).
Proof. intros Hsc H k x. cbn. rewrite jlookup_insert. case_decide; [by intros [= <-]|apply H]. Qed.

Lemma keeps_update id u : ordered_update u -> keeps (ScenarioStore.updateScenario id u).
Proof.
  intros Hu. apply keeps_bind; [by intros h s H|]. intros st. destruct (_ !! id); [|apply keeps_ret].
  apply keeps_bind; [apply keeps_track|]. intros _. apply keeps_set. clear st. intros st h st' h' H. unfold ScenarioStore.update_state.
  destruct (ScenarioStore.scenarios st !! id) as [current|] eqn:El; [|by intros [= <- <-]].
  destruct (addSyncMetadata _ h) as [[m|e] h1]; [|done]. intros [= <- <-]. apply insert_listed; [|done].
  apply update_listed; [done|]. by apply (H id).
Qed.

Lemma keeps_save sc tests : keeps (saveTests sc tests).
Proof. apply keeps_update. left. by exists tests. Qed.

Lemma keeps_active id sid : keeps (ScenarioStore.setActiveScenario id sid).
Proof. apply keeps_pure. by intros st H. Qed.

Lemma keeps_create workflows wid name : keeps (ScenarioStore.createScenario workflows wid name).
Proof.
  apply keeps_bind; [apply keeps_host|]. intros id. apply keeps_bind; [apply keeps_from|]. intros m.
  apply keeps_bind; [apply keeps_track|]. intros _. apply keeps_bind; [|intros _; apply keeps_ret].
  apply keeps_pure. intros st H. by apply insert_listed.
Qed.

Lemma keeps_delete id : keeps (ScenarioStore.deleteScenario id).
Proof.
  apply keeps_bind; [by intros h s H|]. intros st. destruct (_ !! id); [|apply keeps_ret].
  apply keeps_bind; [apply keeps_track|]. intros _. apply keeps_set. intros st0 h st' h' H.
  destruct (ScenarioStore.scenarios st0 !! id) as [sc|] eqn:El; [|done]. intros [= <- <-]. apply insert_listed; [|done].
  by apply (H id sc).
Qed.

#[export] Hint Resolve keeps_ret keeps_lift keeps_host keeps_save keeps_active keeps_create keeps_delete : listed.
#[export] Hint Extern 1 (keeps (_ ≫= _)) => apply keeps_bind; [|intros ?] : listed.
#[export] Hint Extern 1 (keeps (ScenarioStore.updateScenario _ _)) => apply keeps_update; right : listed.

(** ** A session with the panel

    Each operation is one the panel offers at its last render, on the scenario it
    shows. *)
Inductive Op :=
| Drag (active : string) (over : option string)
| NewScenario (workflows : WorkflowStore.WorkflowState)
| SelectScenario (scenarioId : string)
| Rename (name : string)
| Describe (description : string)
| DeleteScenario
| Recipe (fresh : nat -> string) (kind : ScenarioRecipeKind)
| AddTest
| DeleteTest (test : ScenarioTestDefinition)
| UpdateTest (test updated : ScenarioTestDefinition).

Section Session.
Context (lc : string -> string -> Z) (arrayMove : list ScenarioTestDefinition -> nat -> nat -> list ScenarioTestDefinition)
        (workflowId : string) (nodes : list FlowNode).

Definition on_shown (v : PanelView) (f : Scenario -> Handler) : Handler := fun p =>
  match activeScenario lc v with Some sc => f sc p | None => mret p end.

Definition handler (op : Op) (v : PanelView) : Handler :=
  match op with
  | Drag active over => handleDragEnd lc arrayMove v active over
  | NewScenario workflows => onNewScenario lc workflows v
  | SelectScenario id => onSelectScenario v id
  | Rename name => on_shown v (fun sc => onRename sc name)
  | Describe text => on_shown v (fun sc => onDescribe sc text)
  | DeleteScenario => on_shown v onDeleteScenario
  | Recipe fresh kind => on_shown v (fun sc => onRecipe fresh v sc kind)
  | AddTest => on_shown v (onAddTest v)
  | DeleteTest test => on_shown v (fun sc => onDeleteTest sc test)
  | UpdateTest test updated => on_shown v (fun sc => onUpdateTest sc test updated)
  end.

(** A handler that throws leaves the panel as it was, and what it did stays done. *)
Definition perform (c : Panel * (Host * Store ScenarioStore.ScenarioState)) (op : Op) : Panel * (Host * Store ScenarioStore.ScenarioState) :=
  let v := view_of workflowId nodes (state c.2.2) in
  match handler op v c.1 c.2 with
  | (Return p, hs) => (p, hs)
  | (Throw _, hs) => (c.1, hs)
  end.

Lemma handler_keeps op v p : keeps (handler op v p).
Proof.
  destruct op; cbn [handler]; unfold on_shown, handleDragEnd, onNewScenario, onSelectScenario, onRename, onDescribe, onDeleteScenario,
    onRecipe, onAddTest, onDeleteTest, onUpdateTest; repeat case_match; auto 10 with listed.
Qed.

Lemma find_listed tests t : NoDup (map test_id tests) -> t ∈ tests ->
  List.find (fun x => bool_decide (test_id x = test_id t)) tests = Some t.
Proof.
  induction tests as [|x tests IH]; intros Hn Ht; [by apply elem_of_nil in Ht|]. cbn [map] in Hn. apply NoDup_cons in Hn as [Hx Hn].
  simpl. apply elem_of_cons in Ht as [->|Ht]; [by rewrite bool_decide_eq_true_2|].
  rewrite bool_decide_eq_false_2; [by apply IH|]. intros E. apply Hx. rewrite E. apply list_elem_of_fmap. by exists t.
Qed.

Lemma order_listed tests : NoDup (map test_id tests) -> orderTests tests (map test_id tests) = tests.
Proof.
  intros Hn. unfold orderTests.
  rewrite (filter_all (fun id => has_test tests id = true)) by (apply Forall_forall; intros id Hid; by apply ScenarioStore.derive_valid).
  rewrite (filter_none _ tests) by (apply Forall_forall; intros t Ht Hne; apply Hne, list_elem_of_fmap; by exists t).
  rewrite app_nil_r. assert (H : forall l, (forall t, t ∈ l -> t ∈ tests) ->
    omap (fun id => List.find (fun t => bool_decide (test_id t = id)) tests) (map test_id l) = l).
  { intros l. induction l as [|t l IH]; intros Hl; [done|]. cbn [map omap list_omap]. rewrite (find_listed tests t Hn) by (apply Hl; by left).
    f_equal. apply IH. intros x Hx. apply Hl. by right. }
  by apply H.
Qed.

(** C27: the scenario panel lists the steps of a scenario in the order in which they
    run: whatever the user does in the panel, in any order and whether or not an
    action fails, every scenario keeps its stored order in step with its list of
    steps, so that the runner's order is the order on screen. *)
Theorem steps_run_as_listed ops p h s : all_listed (state s) ->
  let '(_, (_, s')) := fold_left perform ops (p, (h, s)) in
  forall id sc, ScenarioStore.scenarios (state s') !! id = Some sc -> NoDup (map test_id (scn_tests sc)) ->
    orderTests (scn_tests sc) (scn_testOrder sc) = scn_tests sc.
Proof.
  intros Hl.
  assert (H : all_listed (state (fold_left perform ops (p, (h, s))).2.2)).
  { revert p h s Hl. induction ops as [|op ops IH]; intros p h s Hl; [done|]. cbn [fold_left]. unfold perform at 2. cbn [fst snd].
    pose proof (handler_keeps op (view_of workflowId nodes (state s)) p h s Hl) as Hk.
    destruct (handler op _ p (h, s)) as [[p'|e] [h' s']]; by apply IH. }
  destruct (fold_left perform ops (p, (h, s))) as [p' [h' s']]. intros id sc Hsc Hn. rewrite (H id sc Hsc). by apply order_listed.
Qed.
End Session.

(** ** Witness *)
Definition moved_by_drag (l : list ScenarioTestDefinition) (i j : nat) : list ScenarioTestDefinition :=
  match l !! i with Some x => take j (delete i l) ++ x :: drop j (delete i l) | None => l end.
Definition panel_scenario : Scenario :=
  MkScenario "s1" "p1" "w1" "Main" None [plain_test "a" "A" THttp []; plain_test "b" "B" THttp []; plain_test "c" "C" THttp []]
    ["a"; "b"; "c"] (MkMeta 1 "t0" "t0" "user-1" "client-1" false).
Definition panel_store : Store ScenarioStore.ScenarioState :=
  MkStore (ScenarioStore.MkState (<["s1" := panel_scenario]> ∅) ∅ None) ∅ [].
Definition after_drag : Panel * (Host * Store ScenarioStore.ScenarioState) :=
  fold_left (perform (fun _ _ => 0) moved_by_drag "w1" []) [Drag "a" (Some "c"); Rename "Checkout"] (initial, (sample_host, panel_store)).

Lemma steps_run_as_listed_witness : exists sc, ScenarioStore.scenarios (state after_drag.2.2) !! "s1" = Some sc
  /\ map test_id (orderTests (scn_tests sc) (scn_testOrder sc)) = ["b"; "c"; "a"].
Proof.
  assert (Hl : all_listed (state panel_store)).
  { intros id sc. unfold panel_store. cbn [state ScenarioStore.scenarios]. rewrite jlookup_insert.
    case_decide; [intros [= <-]; reflexivity|discriminate]. }
  pose proof (steps_run_as_listed (fun _ _ => 0) moved_by_drag "w1" [] [Drag "a" (Some "c"); Rename "Checkout"] initial sample_host panel_store Hl) as H.
  change (let '(_, (_, s')) := after_drag in forall id sc, ScenarioStore.scenarios (state s') !! id = Some sc ->
    NoDup (map test_id (scn_tests sc)) -> orderTests (scn_tests sc) (scn_testOrder sc) = scn_tests sc) in H.
  assert (E : exists sc, ScenarioStore.scenarios (state after_drag.2.2) !! "s1" = Some sc /\ map test_id (scn_tests sc) = ["b"; "c"; "a"])
    by (eexists; split; vm_compute; reflexivity).
  destruct E as (sc & E & Hids). exists sc. split; [exact E|]. destruct after_drag as [p [h s']]. rewrite (H "s1" sc E); [exact Hids|].
  rewrite Hids. apply (bool_decide_unpack _). vm_compute. exact I.
Defined.
