(* ===== verification/ServiceDialog.v ===== *)
(** * Configuring a service: [ui-v2/src/modules/workflow/components/ServiceConfigForm.tsx],
      [RegistryConfigForm.tsx] and [NodeConfigDialog.tsx]

    [ServiceForm] has the form of a service: its values, what the form hands to
    the dialog whenever a value changes, and its buttons.  [NodeDialog] has the
    dialog around it, with the registry form beside it, and what saving does to
    the node and to the credentials.  The form library keeps the values and tells
    which fields the user has edited, which is the record [Dirty]. *)

From S2P Require Import Prelude FlowTypes JsLib ServiceNames ScenarioTranslator RegistryConfig RegistryFacts Defaults.
Open Scope Z_scope.

Module ServiceForm.
Import Defaults.

Record ServiceFormData := MkForm {
  fm_label : option string;
  fm_description : option string;
  fm_serviceType : ServiceType;
  fm_image : option string;
  fm_command : list (string * string);
  fm_env : list EnvironmentVariable;
  fm_ports : list PortMapping;
  fm_waitEnabled : bool;
  fm_waitType : string;
  fm_waitTarget : option string;
  fm_waitTimeout : option Z;
  fm_initScripts : list InitScript
}.

(** ** Opening the form

    [serviceData.service.type] of a node without a service throws. *)
Definition defaultValues (fresh : nat -> string) (data : ServiceNodeData) : res ServiceFormData :=
  match nd_service data with
  | None => Throw JsTypeError
  | Some svc =>
      Return (MkForm (nd_label data) (nd_description data) (svc_type svc) (svc_image svc)
        (imap (fun i cmd => (fresh i, cmd)) (default [] (svc_command svc)))
        (default [] (svc_env svc)) (default [] (svc_ports svc))
        (match svc_wait svc with Some w => nw_enabled w | None => false end)
        (match svc_wait svc with Some w => nw_type w | None => "log" end)
        (svc_wait svc ≫= nw_target) (svc_wait svc ≫= nw_timeout)
        (default [] (svc_initScripts svc)))
  end.

(** ** What the dialog is told

    The callback given to [watch]: every value of the form replaces that of the
    service, blank arguments and a wait that is switched off are left out, and
    expectations are kept by a mock server only. *)
Definition watched (data : ServiceNodeData) (value : ServiceFormData) : res ServiceNodeData :=
  match nd_service data with
  | None => Throw JsTypeError
  | Some svc =>
      Return (MkNodeData (from_option Some (nd_label data) (fm_label value)) (fm_description value)
        (Some (MkNodeService (fm_serviceType value) (fm_image value)
          (Some (filter (fun v => js_trim v <> "") (map snd (fm_command value))))
          (Some (fm_ports value)) (Some (fm_env value))
          (if fm_waitEnabled value
           then Some (MkNodeWait true (fm_waitType value) (fm_waitTarget value) (fm_waitTimeout value)) else None)
          (Some (fm_initScripts value))
          (if decide (fm_serviceType value = Mockserver) then Some (default [] (svc_mockServer svc)) else None)
          (svc_registry svc))) (nd_tests data))
  end.

(** The expectations have an editor of their own, whose changes go past the form. *)
Definition expectationsChanged (data : ServiceNodeData) (expectations : list MockServerExpectation) : res ServiceNodeData :=
  match nd_service data with
  | None => Throw JsTypeError
  | Some svc =>
      Return (MkNodeData (nd_label data) (nd_description data)
        (Some (MkNodeService Mockserver (svc_image svc) (svc_command svc) (svc_ports svc) (svc_env svc) (svc_wait svc)
          (svc_initScripts svc) (Some expectations) (svc_registry svc))) (nd_tests data))
  end.

(** ** Setting values *)
Definition set_serviceType (v : ServiceType) (f : ServiceFormData) : ServiceFormData :=
  MkForm (fm_label f) (fm_description f) v (fm_image f) (fm_command f) (fm_env f) (fm_ports f) (fm_waitEnabled f)
    (fm_waitType f) (fm_waitTarget f) (fm_waitTimeout f) (fm_initScripts f).
Definition set_image (v : option string) (f : ServiceFormData) : ServiceFormData :=
  MkForm (fm_label f) (fm_description f) (fm_serviceType f) v (fm_command f) (fm_env f) (fm_ports f) (fm_waitEnabled f)
    (fm_waitType f) (fm_waitTarget f) (fm_waitTimeout f) (fm_initScripts f).
Definition set_command (v : list (string * string)) (f : ServiceFormData) : ServiceFormData :=
  MkForm (fm_label f) (fm_description f) (fm_serviceType f) (fm_image f) v (fm_env f) (fm_ports f) (fm_waitEnabled f)
    (fm_waitType f) (fm_waitTarget f) (fm_waitTimeout f) (fm_initScripts f).
Definition set_env (v : list EnvironmentVariable) (f : ServiceFormData) : ServiceFormData :=
  MkForm (fm_label f) (fm_description f) (fm_serviceType f) (fm_image f) (fm_command f) v (fm_ports f) (fm_waitEnabled f)
    (fm_waitType f) (fm_waitTarget f) (fm_waitTimeout f) (fm_initScripts f).
Definition set_ports (v : list PortMapping) (f : ServiceFormData) : ServiceFormData :=
  MkForm (fm_label f) (fm_description f) (fm_serviceType f) (fm_image f) (fm_command f) (fm_env f) v (fm_waitEnabled f)
    (fm_waitType f) (fm_waitTarget f) (fm_waitTimeout f) (fm_initScripts f).
Definition set_wait (enabled : bool) (type : string) (target : option string) (timeout : option Z) (f : ServiceFormData) : ServiceFormData :=
  MkForm (fm_label f) (fm_description f) (fm_serviceType f) (fm_image f) (fm_command f) (fm_env f) (fm_ports f) enabled
    type target timeout (fm_initScripts f).
Definition set_initScripts (v : list InitScript) (f : ServiceFormData) : ServiceFormData :=
  MkForm (fm_label f) (fm_description f) (fm_serviceType f) (fm_image f) (fm_command f) (fm_env f) (fm_ports f) (fm_waitEnabled f)
    (fm_waitType f) (fm_waitTarget f) (fm_waitTimeout f) v.

Definition appendCommand (id : string) (f : ServiceFormData) : ServiceFormData := set_command (fm_command f ++ [(id, "")]) f.
Definition removeCommand (i : nat) (f : ServiceFormData) : ServiceFormData := set_command (delete i (fm_command f)) f.
Definition appendEnv (e : EnvironmentVariable) (f : ServiceFormData) : ServiceFormData := set_env (fm_env f ++ [e]) f.
Definition removeEnv (i : nat) (f : ServiceFormData) : ServiceFormData := set_env (delete i (fm_env f)) f.
Definition appendPort (id : string) (f : ServiceFormData) : ServiceFormData := set_ports (fm_ports f ++ [MkPort id "" ""]) f.
Definition removePort (i : nat) (f : ServiceFormData) : ServiceFormData := set_ports (delete i (fm_ports f)) f.
Definition appendInitScript (id : string) (f : ServiceFormData) : ServiceFormData :=
  set_initScripts (fm_initScripts f ++ [MkScript id (Z.of_nat (length (fm_initScripts f)) + 1) "" (Some "")]) f.
Definition removeInitScript (i : nat) (f : ServiceFormData) : ServiceFormData := set_initScripts (delete i (fm_initScripts f)) f.

(** ** Changing the type *)
Record Dirty := MkDirty { dirty_image : bool; dirty_env : bool; dirty_ports : bool; dirty_wait : bool }.

Definition handleServiceTypeChange (fresh : nat -> string) (dirty : Dirty) (type : ServiceType) (f : ServiceFormData) : ServiceFormData :=
  match nd_service (serviceTypeDefaults fresh type) with
  | None => f
  | Some defaults =>
      let f := set_serviceType type f in
      let f := if dirty_image dirty then f else set_image (svc_image defaults) f in
      let f := if dirty_env dirty then f else set_env (default [] (svc_env defaults)) f in
      let f := if dirty_ports dirty then f else set_ports (default [] (svc_ports defaults)) f in
      if dirty_wait dirty then f
      else set_wait true "port" (svc_wait defaults ≫= nw_target) (svc_wait defaults ≫= nw_timeout) f
  end.

(** ** Presets *)
Definition getPresetsForServiceType (type : ServiceType) : list (string * string) :=
  match type with
  | Postgres => [("POSTGRES_USER", "postgres"); ("POSTGRES_PASSWORD", "postgres"); ("POSTGRES_DB", "mydb")]
  | Mysql => [("MYSQL_ROOT_PASSWORD", "root"); ("MYSQL_DATABASE", "mydb"); ("MYSQL_USER", "user"); ("MYSQL_PASSWORD", "password")]
  | Mariadb => [("MARIA_DB", "mydb"); ("MARIA_USER", "root"); ("MARIA_PASSWORD", "root")]
  | Redis => [("REDIS_PASSWORD", "")]
  | Kafka => [("CLUSTER_ID", "test-cluster"); ("KAFKA_BROKERS", "Broker1,Broker2"); ("KAFKA_PROTOCOL", "PLAINTEXT")]
  | Rabbitmq => [("RABBITMQ_DEFAULT_USER", "guest"); ("RABBITMQ_DEFAULT_PASS", "guest")]
  | Mongodb => [("MONGO_INITDB_DATABASE", "testdb"); ("MONGO_INITDB_ROOT_USERNAME", "admin"); ("MONGO_INITDB_ROOT_PASSWORD", "admin")]
  | _ => []
  end.

Definition handleLoadPresets (fresh : nat -> string) (f : ServiceFormData) : ServiceFormData :=
  let existingKeys := map env_key (fm_env f) in
  let newPresets := filter (fun p => p.1 ∉ existingKeys) (getPresetsForServiceType (fm_serviceType f)) in
  fold_left (fun f e => appendEnv e f) (imap (fun i '(key, value) => MkEnv (fresh i) key value) newPresets) f.

Definition image_missing (f : ServiceFormData) : bool :=
  bool_decide (fm_serviceType f = Generic) && negb (ostr_truthy (js_trim <$> fm_image f)).

(** ** Suggested references *)
Record AvailableService := MkAvailable { av_name : string; av_ports : list (string * string); av_env : list (string * string) }.

Definition toReferenceToken (value : string) : option string :=
  let trimmed := js_trim value in if (0 <? String.length trimmed)%nat then Some trimmed else None.

Definition service_suggestions (service : AvailableService) : list string :=
  match toReferenceToken (av_name service) with
  | None => []
  | Some name =>
      ref_of name "host"
      :: omap (fun p => (fun port => ref_of name ("port." +:+ port)) <$> toReferenceToken p.2) (av_ports service)
      ++ omap (fun e => (fun key => ref_of name ("env." +:+ key)) <$> toReferenceToken e.1) (av_env service)
  end.

Definition suggestions (services : list AvailableService) : list string :=
  set_of_list (concat (map service_suggestions services)).

Definition filteredSuggestions (services : list AvailableService) (value : string) : list string :=
  filter (fun s => str_includes (toLowerCase value) (toLowerCase s) = true) (suggestions services).
End ServiceForm.

(** ** The registry form *)
Module RegistryForm.
Definition changeAuthType (authType : RegistryAuthType) (value : RegistryFormValue) : RegistryFormValue :=
  MkRegistryForm (rf_enabled value) (rf_url value) authType
    (if decide (authType = AuthBasic) then rf_username value else "")
    (if decide (authType = AuthBasic) then rf_password value else "")
    (if decide (authType = AuthToken) then rf_token value else "").

(** The image shown, or why there is none. *)
Definition resolvedImage (image : option string) (value : RegistryFormValue) : option (res string) :=
  if negb (rf_enabled value) || negb (str_truthy (js_trim (rf_url value))) || negb (ostr_truthy (js_trim <$> image)) then None
  else Some (resolveRegistryImage (rf_url value) (default "" image)).
End RegistryForm.

Module NodeDialog.
Import ServiceForm.

Inductive Tab := ServiceTab | RegistryTab.

Record DialogState := MkDialog {
  dl_activeTab : Tab;
  dl_editedNode : option FlowNode;
  dl_registryDraft : RegistryFormValue
}.

Definition initial (node : option FlowNode) : DialogState := MkDialog ServiceTab node EMPTY_REGISTRY_FORM.

Definition auth_name (t : RegistryAuthType) : string :=
  match t with AuthNone => "none" | AuthBasic => "basic" | AuthToken => "token" end.
Definition auth_of (s : string) : option RegistryAuthType :=
  if decide (s = "none") then Some AuthNone else if decide (s = "basic") then Some AuthBasic
  else if decide (s = "token") then Some AuthToken else None.

(** [auth_type] is one of the three of its type. *)
Definition registry_metadata (svc : NodeService) : option (string * RegistryAuthType) :=
  svc_registry svc ≫= (fun '(url, a) => (fun t => (url, t)) <$> auth_of a).

(** The effect that opens the dialog on a node. *)
Definition open_effect (workflowId : string) (isOpen : bool) (node : option FlowNode) (secrets : Secrets) (s : DialogState) : res DialogState :=
  match node with
  | Some n =>
      if negb isOpen then Return s
      else
        match nd_service (node_data n) with
        | None => Throw JsTypeError
        | Some svc =>
            let runtimeSecret := getSecret workflowId (node_id n) secrets in
            Return (MkDialog ServiceTab (Some n) (registryFormFromConfig
              (match registry_metadata svc with
               | Some (url, auth) =>
                   Some (MkRuntimeConfig url auth (runtimeSecret ≫= rr_username) (runtimeSecret ≫= rr_password)
                           (runtimeSecret ≫= rr_token))
               | None => runtimeSecret
               end)))
        end
  | None => Return s
  end.

Definition is_service_node (n : FlowNode) : bool :=
  match node_view n !! "type" with Some (JStr t) => bool_decide (t = "serviceNode") | _ => false end.

Definition availableServices (nodes : list FlowNode) (s : DialogState) : list AvailableService :=
  match dl_editedNode s with
  | None => []
  | Some edited =>
      map (fun n =>
        let svc := nd_service (node_data n) in
        MkAvailable (sanitizeName (ostr_or (nd_label (node_data n)) (node_id n)))
          (map (fun p => (hostPort p, containerPort p)) (default [] (svc ≫= svc_ports)))
          (map (fun e => (env_key e, env_value e)) (default [] (svc ≫= svc_env))))
        (filter (fun n => node_id n <> node_id edited /\ is_service_node n = true) nodes)
  end.

Definition handleDataChange (data : ServiceNodeData) (s : DialogState) : DialogState :=
  match dl_editedNode s with
  | Some n => MkDialog (dl_activeTab s) (Some (MkNode (node_id n) (node_position n) (node_view n) data)) (dl_registryDraft s)
  | None => s
  end.

Definition setRegistryDraft (v : RegistryFormValue) (s : DialogState) : DialogState :=
  MkDialog (dl_activeTab s) (dl_editedNode s) v.
Definition setActiveTab (t : Tab) (s : DialogState) : DialogState := MkDialog t (dl_editedNode s) (dl_registryDraft s).

Definition lacks_image (svc : NodeService) : bool :=
  bool_decide (svc_type svc = Generic) && negb (ostr_truthy (js_trim <$> svc_image svc)).

Definition set_registry (r : option (string * string)) (svc : NodeService) : NodeService :=
  MkNodeService (svc_type svc) (svc_image svc) (svc_command svc) (svc_ports svc) (svc_env svc) (svc_wait svc)
    (svc_initScripts svc) (svc_mockServer svc) r.

(** What a click on the save button does: it may lead to the field to correct, or hand
    the node to [onSave] and close the dialog. *)
Inductive Outcome := Refused (field : string) | Saved (node : FlowNode).

Definition handleSave (workflowId : string) (s : DialogState) (secrets : Secrets) : res (option Outcome * DialogState * Secrets) :=
  match dl_editedNode s with
  | None => Return (None, s, secrets)
  | Some n =>
      match nd_service (node_data n) with
      | None => Throw JsTypeError
      | Some svc =>
          let draft := dl_registryDraft s in
          if lacks_image svc then Return (Some (Refused "service-container-image"), setActiveTab ServiceTab s, secrets)
          else
            match validateRegistryForm draft with
            | Some (field, _) => Return (Some (Refused field), setActiveTab RegistryTab s, secrets)
            | None =>
                if rf_enabled draft && negb (is_return (resolveRegistryImage (rf_url draft) (default "" (svc_image svc))))
                then Return (Some (Refused "registry-url"), setActiveTab RegistryTab s, secrets)
                else
                  registryConfig ← registryConfigFromForm draft;
                  let secrets' :=
                    match registryConfig with
                    | Some c => if decide (rr_auth_type c = AuthNone) then clearSecret workflowId (node_id n) secrets
                                else setSecret workflowId (node_id n) c secrets
                    | None => clearSecret workflowId (node_id n) secrets
                    end in
                  let service := set_registry ((fun c => (rr_url c, auth_name (rr_auth_type c))) <$> registryConfig) svc in
                  Return (Some (Saved (MkNode (node_id n) (node_position n) (node_view n)
                    (MkNodeData (nd_label (node_data n)) (nd_description (node_data n)) (Some service) (nd_tests (node_data n))))), s, secrets')
            end
      end
  end.

Definition save_disabled (s : DialogState) : bool :=
  match dl_editedNode s ≫= (fun n => nd_service (node_data n)) with Some svc => lacks_image svc | None => false end.
End NodeDialog.

(** * What configuring a service guarantees

    The form of a service shows what the node holds, a change of type gives the
    defaults of the type, presets never replace a variable, and saving either
    names the field to correct or stores the service without credentials. *)

Module ServiceFormFacts.
Import Defaults ServiceForm.

(** ** Opening the form and reporting its values *)
Lemma map_snd_imap {A} (fresh : nat -> string) (l : list A) : map snd (imap (fun i x => (fresh i, x)) l) = l.
Proof. revert fresh. induction l as [|x l IH]; intros fresh; [done|]. cbn. f_equal. apply (IH (fresh ∘ S)). Qed.

(** What the form makes of a service: the lists are there, an argument is not
    blank, a wait is enabled, and only a mock server has expectations. *)
Definition shown_service (svc : NodeService) : NodeService :=
  MkNodeService (svc_type svc) (svc_image svc) (Some (filter (fun v => js_trim v <> "") (default [] (svc_command svc))))
    (Some (default [] (svc_ports svc))) (Some (default [] (svc_env svc)))
    (svc_wait svc ≫= (fun w => if nw_enabled w then Some w else None))
    (Some (default [] (svc_initScripts svc)))
    (if decide (svc_type svc = Mockserver) then Some (default [] (svc_mockServer svc)) else None) (svc_registry svc).

Definition shown (d : ServiceNodeData) (svc : NodeService) : ServiceNodeData :=
  MkNodeData (nd_label d) (nd_description d) (Some (shown_service svc)) (nd_tests d).

Lemma watched_defaults fresh d svc : nd_service d = Some svc ->
  exists f, defaultValues fresh d = Return f /\ watched d f = Return (shown d svc).
Proof.
  intros E. unfold defaultValues, watched, shown, shown_service. rewrite E. eexists. split; [reflexivity|]. cbn.
  rewrite map_snd_imap. do 2 f_equal; [by destruct (nd_label d)|]. do 2 f_equal.
  destruct (svc_wait svc) as [w|]; [|done]. cbn. destruct w as [[] ? ? ?]; done.
Qed.

Lemma shown_service_idem svc : shown_service (shown_service svc) = shown_service svc.
Proof.
  unfold shown_service. cbn. f_equal.
  - f_equal. apply list_filter_filter_l. done.
  - by destruct (svc_wait svc) as [[[] ? ? ?]|].
  - by case_decide.
Qed.

(** Opening the form of a service and reporting its values back changes nothing
    that a service in the form's shape has, and what is reported is in that shape:
    the next report without a change is the same. *)
Theorem form_shows_service fresh fresh' d svc : nd_service d = Some svc ->
  exists f f', defaultValues fresh d = Return f /\ watched d f = Return (shown d svc)
  /\ defaultValues fresh' (shown d svc) = Return f' /\ watched (shown d svc) f' = Return (shown d svc)
  /\ (shown_service svc = svc -> shown d svc = d).
Proof.
  intros E. destruct (watched_defaults fresh d svc E) as (f & Hf & Hw).
  destruct (watched_defaults fresh' (shown d svc) (shown_service svc) eq_refl) as (f' & Hf' & Hw').
  exists f, f'. split_and!; try done.
  - rewrite Hw'. unfold shown. cbn. by rewrite shown_service_idem.
  - intros Hs. unfold shown. rewrite Hs. destruct d; simpl in *. by subst.
Qed.

(** The runner is given the same service, blank arguments apart. *)
Lemma shown_runs_alike aliases deps secrets n svc : nd_service (node_data n) = Some svc ->
  Forall (fun v => js_trim v <> "") (default [] (svc_command svc)) ->
  translate_service aliases deps secrets (MkNode (node_id n) (node_position n) (node_view n) (shown (node_data n) svc))
  = translate_service aliases deps secrets n.
Proof.
  intros Es Hb. unfold translate_service. change (nodeName (MkNode _ _ _ _)) with (nodeName n).
  destruct (nodeName n) as [name|]; [|done]. unfold mbind. cbn. rewrite Es.
  destruct svc as [t image command ports env wait scripts mock reg]. unfold shown_service. cbn in *.
  rewrite (filter_all _ _ Hb).
  replace (if decide (t = Mockserver) then _ else Return None) with
    (if decide (t = Mockserver) then Some <$> res_map translate_expectation (default [] mock) else Return None)
    by (by repeat case_decide).
  by destruct (if decide (t = Mockserver) then _ else Return None), command, env, ports, scripts, wait as [[[] ? ? ?]|].
Qed.

(** ** Presets *)
Lemma append_all es f : fold_left (fun f e => appendEnv e f) es f = set_env (fm_env f ++ es) f.
Proof.
  revert f. induction es as [|e es IH]; intros f; cbn [fold_left].
  - rewrite app_nil_r. by destruct f.
  - rewrite IH. unfold appendEnv, set_env. cbn. by rewrite <- app_assoc.
Qed.

Lemma keys_imap fresh l :
  map env_key (imap (fun i '(key, value) => MkEnv (fresh i) key value) l) = map fst l.
Proof. revert fresh. induction l as [|[k v] l IH]; intros fresh; [done|]. cbn. f_equal. apply (IH (fresh ∘ S)). Qed.

Lemma presets_distinct type : NoDup (map fst (getPresetsForServiceType type)).
Proof. apply (bool_decide_unpack _). by destruct type; vm_compute. Qed.

Definition missing_presets (f : ServiceFormData) : list (string * string) :=
  filter (fun p => p.1 ∉ map env_key (fm_env f)) (getPresetsForServiceType (fm_serviceType f)).

Lemma load_presets_env fresh f :
  fm_env (handleLoadPresets fresh f) = fm_env f ++ imap (fun i '(key, value) => MkEnv (fresh i) key value) (missing_presets f)
  /\ fm_serviceType (handleLoadPresets fresh f) = fm_serviceType f.
Proof. unfold handleLoadPresets. rewrite append_all. done. Qed.

Lemma missing_keys f :
  map fst (missing_presets f) = filter (.∉ map env_key (fm_env f)) (map fst (getPresetsForServiceType (fm_serviceType f))).
Proof.
  unfold missing_presets. induction (getPresetsForServiceType (fm_serviceType f)) as [|[k v] l IH]; [done|].
  cbn [map fst]. rewrite !filter_cons. cbn [fst]. by destruct (decide (k ∉ _)); cbn [map fst]; rewrite IH.
Qed.

(** Loading the presets of a type keeps every variable that is there, with its value
    and its place; afterwards each preset is set; a name that was not repeated is not
    repeated; and loading them again adds nothing. *)
Theorem presets_only_add fresh fresh' f :
  let f' := handleLoadPresets fresh f in
  (exists added, fm_env f' = fm_env f ++ added
     /\ map env_key added = filter (.∉ map env_key (fm_env f)) (map fst (getPresetsForServiceType (fm_serviceType f))))
  /\ (forall key value, (key, value) ∈ getPresetsForServiceType (fm_serviceType f) -> key ∈ map env_key (fm_env f'))
  /\ (NoDup (map env_key (fm_env f)) -> NoDup (map env_key (fm_env f')))
  /\ handleLoadPresets fresh' f' = f'.
Proof.
  cbn zeta. destruct (load_presets_env fresh f) as [He Ht].
  assert (Hk : map env_key (fm_env (handleLoadPresets fresh f)) = map env_key (fm_env f)
    ++ filter (.∉ map env_key (fm_env f)) (map fst (getPresetsForServiceType (fm_serviceType f)))).
  { by rewrite He, map_app, keys_imap, missing_keys. }
  assert (Hp : forall key value, (key, value) ∈ getPresetsForServiceType (fm_serviceType f) ->
    key ∈ map env_key (fm_env (handleLoadPresets fresh f))).
  { intros key value Hin. rewrite Hk, elem_of_app, list_elem_of_filter.
    destruct (decide (key ∈ map env_key (fm_env f))); [by left|right]. split; [done|].
    apply list_elem_of_fmap. by exists (key, value). }
  split_and!.
  - eexists. split; [exact He|]. by rewrite keys_imap, missing_keys.
  - exact Hp.
  - intros Hn. rewrite Hk. apply NoDup_app. split_and!; [done| |apply NoDup_filter, presets_distinct].
    intros k Hin. rewrite list_elem_of_filter. tauto.
  - set (f' := handleLoadPresets fresh f) in *. unfold handleLoadPresets. rewrite append_all, Ht.
    enough (filter (fun p : string * string => p.1 ∉ map env_key (fm_env f')) (getPresetsForServiceType (fm_serviceType f)) = []) as ->.
    { cbn. rewrite app_nil_r. by destruct f'. }
    apply elem_of_nil_inv. intros [k v] [Hk' Hin]%list_elem_of_filter. eauto.
Qed.

(** ** Changing the type *)
Lemma default_form fresh id pos t : exists f,
  defaultValues fresh (node_data (createDefaultServiceNode fresh id pos t)) = Return f
  /\ fm_command f = [] /\ fm_initScripts f = [] /\ fm_label f = Some (labels t) /\ fm_description f = None.
Proof. by eexists. Qed.

(** A service created as one type and then given another, before anything else is
    edited, is the service that type is created with: image, variables, ports, wait
    and expectations.  What the user has edited is kept instead. *)
Theorem retyped_is_fresh fresh fresh' id pos t t' f : defaultValues fresh (node_data (createDefaultServiceNode fresh id pos t)) = Return f ->
  (exists d, watched (node_data (createDefaultServiceNode fresh id pos t))
       (handleServiceTypeChange fresh' (MkDirty false false false false) t' f) = Return d
     /\ nd_service d = nd_service (serviceTypeDefaults fresh' t') /\ nd_label d = Some (labels t))
  /\ forall dirty,
     let f' := handleServiceTypeChange fresh' dirty t' f in
     fm_serviceType f' = t'
     /\ (dirty_image dirty = true -> fm_image f' = fm_image f) /\ (dirty_env dirty = true -> fm_env f' = fm_env f)
     /\ (dirty_ports dirty = true -> fm_ports f' = fm_ports f)
     /\ (dirty_wait dirty = true -> fm_waitEnabled f' = fm_waitEnabled f /\ fm_waitTarget f' = fm_waitTarget f)
     /\ fm_label f' = fm_label f /\ fm_command f' = fm_command f /\ fm_initScripts f' = fm_initScripts f.
Proof.
  intros [= <-]. split.
  - eexists. split; [reflexivity|]. split; [|done]. cbn.
    destruct t'; cbn; repeat (f_equal; try done); destruct t; reflexivity.
  - intros [[] [] [] []]; cbn; split_and!; done.
Qed.

(** ** Scripts

    Scripts run by their number, and a new one is numbered by how many there are.  It
    runs last when the others are numbered from one without gaps; after a removal it
    may run before a script that is already there. *)
Definition run_order (scripts : list InitScript) : list InitScript :=
  js_sort (fun l r => script_order l - script_order r) scripts.

Lemma added_script_numbered id f :
  (forall s, s ∈ fm_initScripts f -> script_order s <= Z.of_nat (length (fm_initScripts f))) ->
  exists new, fm_initScripts (appendInitScript id f) = fm_initScripts f ++ [new]
  /\ forall s, s ∈ fm_initScripts f -> script_order s < script_order new.
Proof. intros H. eexists. split; [reflexivity|]. intros s Hs%H. cbn. lia. Qed.

Example added_script_overtakes :
  let four := MkForm None None Postgres None [] [] [] false "log" None None
    [MkScript "a" 1 "one" None; MkScript "b" 2 "two" None; MkScript "c" 3 "three" None; MkScript "d" 4 "four" None] in
  map script_id (run_order (fm_initScripts (appendInitScript "new" (removeInitScript 0 (removeInitScript 0 four)))))
  = ["c"; "new"; "d"].
Proof. by vm_compute. Qed.

(** ** Suggestions

    No reference is offered twice, and each is the host of a service with a name, a
    port or a variable of it. *)
Lemma references_suggested services s :
  NoDup (suggestions services)
  /\ (s ∈ suggestions services -> exists svc name, svc ∈ services /\ toReferenceToken (av_name svc) = Some name
       /\ (s = ref_of name "host"
          \/ (exists p port, p ∈ av_ports svc /\ toReferenceToken p.2 = Some port /\ s = ref_of name ("port." +:+ port))
          \/ (exists e key, e ∈ av_env svc /\ toReferenceToken e.1 = Some key /\ s = ref_of name ("env." +:+ key)))).
Proof.
  split; [apply NoDup_set_of_list|]. unfold suggestions. rewrite elem_of_set_of_list.
  rewrite list_elem_of_In, in_concat.
  intros (l & (svc & <- & Hin%list_elem_of_In)%in_map_iff & Hs%list_elem_of_In). unfold service_suggestions in Hs.
  destruct (toReferenceToken (av_name svc)) as [name|] eqn:Et; [|by apply elem_of_nil in Hs].
  exists svc, name. split_and!; [done..|]. apply elem_of_cons in Hs as [->|Hs]; [by left|right].
  apply elem_of_app in Hs as [(p & Hp & Ep)%list_elem_of_omap|(e & He & Ee)%list_elem_of_omap].
  - left. apply fmap_Some in Ep as (port & ? & ->). by exists p, port.
  - right. apply fmap_Some in Ee as (key & ? & ->). by exists e, key.
Qed.
End ServiceFormFacts.

Module NodeDialogFacts.
Import ServiceForm NodeDialog.

Lemma auth_of_name t : auth_of (auth_name t) = Some t.
Proof. by destruct t. Qed.

(** Where a service may be pulled from, and what would stop a save. *)
Definition save_refusal (svc : NodeService) (draft : RegistryFormValue) : option string :=
  if lacks_image svc then Some "service-container-image"
  else
    match validateRegistryForm draft with
    | Some (field, _) => Some field
    | None =>
        if rf_enabled draft && negb (is_return (resolveRegistryImage (rf_url draft) (default "" (svc_image svc))))
        then Some "registry-url" else None
    end.

Definition stored_secret (c : option RegistryRuntimeConfig) : option RegistryRuntimeConfig :=
  c ≫= (fun c => if decide (rr_auth_type c = AuthNone) then None else Some c).
Definition stored_registry (c : option RegistryRuntimeConfig) : option (string * string) :=
  (fun c => (rr_url c, auth_name (rr_auth_type c))) <$> c.

Definition with_service (svc : NodeService) (n : FlowNode) : FlowNode :=
  MkNode (node_id n) (node_position n) (node_view n)
    (MkNodeData (nd_label (node_data n)) (nd_description (node_data n)) (Some svc) (nd_tests (node_data n))).

Definition store_secret (w id : string) (c : option RegistryRuntimeConfig) (secrets : Secrets) : Secrets :=
  secret_step secrets (match stored_secret c with Some c => SetSecret w id c | None => ClearSecret w id end).

(** The click on the save button, in one line per outcome. *)
Lemma handle_save_eq w s secrets n svc : dl_editedNode s = Some n -> nd_service (node_data n) = Some svc ->
  (exists field tab, save_refusal svc (dl_registryDraft s) = Some field
     /\ handleSave w s secrets = Return (Some (Refused field), setActiveTab tab s, secrets)
     /\ (tab = ServiceTab <-> field = "service-container-image"))
  \/ (exists c, save_refusal svc (dl_registryDraft s) = None /\ registryConfigFromForm (dl_registryDraft s) = Return c
     /\ handleSave w s secrets = Return (Some (Saved (with_service (set_registry (stored_registry c) svc) n)), s,
          store_secret w (node_id n) c secrets)).
Proof.
  intros En Es. unfold handleSave, save_refusal. rewrite En, Es. destruct (lacks_image svc).
  { left. eexists _, ServiceTab. by split_and!. }
  destruct (validateRegistryForm _) as [[field m]|] eqn:Ev.
  { left. exists field, RegistryTab. split_and!; [done..|]. split; [done|]. intros ->.
    revert Ev. unfold validateRegistryForm. by repeat case_match. }
  destruct (_ && _).
  { left. eexists _, RegistryTab. by split_and!. }
  right. destruct (proj1 (registry_form_roundtrip _) Ev) as (c & Ec & _). exists c. split_and!; [done..|].
  rewrite Ec. unfold mbind, store_secret, stored_secret. cbn. do 3 f_equal.
  destruct c as [c|]; [|done]. cbn. by case_decide.
Qed.

Lemma store_secret_spec w id c secrets w' id' : secrets_wf secrets ->
  getSecret w' id' (store_secret w id c secrets)
  = if decide (w = w' /\ id = id') then stored_secret c else getSecret w' id' secrets.
Proof.
  intros Hs. unfold store_secret. rewrite secret_step_spec by done.
  destruct (stored_secret c) as [c'|]; cbn; repeat (case_decide || case_match); naive_solver.
Qed.

Lemma save_refusal_none svc draft : save_refusal svc draft = None ->
  lacks_image svc = false /\ validateRegistryForm draft = None
  /\ (rf_enabled draft = true -> exists image, resolveRegistryImage (rf_url draft) (default "" (svc_image svc)) = Return image).
Proof.
  unfold save_refusal. destruct (lacks_image svc); [done|]. destruct (validateRegistryForm draft) as [[]|]; [done|].
  intros H. split_and!; [done..|]. intros He. rewrite He in H. cbn in H.
  destruct (resolveRegistryImage _ _) as [i|]; [by exists i|done].
Qed.

(** The settings a dialog opens with after they were saved. *)
Lemma reopened_form w secrets n svc c s : secrets_wf secrets ->
  (exists form, registryConfigFromForm form = Return c) ->
  nd_service (node_data n) = Some (set_registry (stored_registry c) svc) -> getSecret w (node_id n) secrets = stored_secret c ->
  open_effect w true (Some n) secrets s = Return (MkDialog ServiceTab (Some n) (registryFormFromConfig c)).
Proof.
  intros Hs [form Hf] En Hg. unfold open_effect. cbn. rewrite En, Hg. do 2 f_equal.
  unfold registry_metadata, stored_registry, stored_secret. destruct c as [c|]; [|done]. cbn.
  rewrite auth_of_name. cbn. destruct (decide (rr_auth_type c = AuthNone)) as [Ha|Ha]; [|by destruct c].
  unfold registryConfigFromForm in Hf. destruct (negb _); [done|].
  destruct (normalizeRegistryHost (rf_url form)); [|done]. cbn in Hf.
  destruct (rf_auth_type form); naive_solver.
Qed.

(** C37: a click on the save button of a service always ends in one of two ways.  It names
    the first field to correct, turns to its tab and leaves node, draft and
    credentials as they were; or it hands over the node with nothing changed but the
    registry of its service, which has the host and the kind of authentication and no
    credential, while the credentials are those of this node in the store and every
    other node keeps its own.  A saved service has an image that its registry can
    serve, and opening it again shows the settings that were saved. *)
Theorem save_stores_or_refuses w s secrets n svc :
  dl_editedNode s = Some n -> nd_service (node_data n) = Some svc -> secrets_wf secrets ->
  (exists field tab, handleSave w s secrets = Return (Some (Refused field), setActiveTab tab s, secrets)
     /\ save_refusal svc (dl_registryDraft s) = Some field
     /\ field ∈ ["service-container-image"; "registry-url"; "registry-username"; "registry-password"; "registry-token"]
     /\ (tab = ServiceTab <-> field = "service-container-image"))
  \/ (exists c secrets',
       let n' := with_service (set_registry (stored_registry c) svc) n in
       handleSave w s secrets = Return (Some (Saved n'), s, secrets')
       /\ save_refusal svc (dl_registryDraft s) = None
       /\ registryConfigFromForm (dl_registryDraft s) = Return c /\ (forall c', c = Some c' -> complete_config c')
       /\ secrets_wf secrets' /\ getSecret w (node_id n) secrets' = stored_secret c
       /\ (forall w' id', ~ (w' = w /\ id' = node_id n) -> getSecret w' id' secrets' = getSecret w' id' secrets)
       /\ (is_Some c -> exists image, resolveRegistryImage (rf_url (dl_registryDraft s)) (default "" (svc_image svc)) = Return image)
       /\ forall s0, open_effect w true (Some n') secrets' s0
            = Return (MkDialog ServiceTab (Some n') (registryFormFromConfig c))).
Proof.
  intros En Es Hs. destruct (handle_save_eq w s secrets n svc En Es) as [(field & tab & Hr & He & Ht)|(c & Hr & Hc & He)].
  - left. exists field, tab. split_and!; [done..| |done]. revert Hr. unfold save_refusal, validateRegistryForm.
    repeat case_match; intros; simplify_eq; by rewrite <- (bool_decide_spec (_ ∈ _)).
  - right. exists c, (store_secret w (node_id n) c secrets). cbn zeta.
    destruct (save_refusal_none _ _ Hr) as (Hl & Hv & Hi).
    destruct (proj1 (registry_form_roundtrip _) Hv) as (c' & Hc' & Hsome & Hcomplete).
    assert (c' = c) as -> by congruence.
    assert (Hs' : secrets_wf (store_secret w (node_id n) c secrets)) by (by apply secret_step_wf).
    assert (Hg : getSecret w (node_id n) (store_secret w (node_id n) c secrets) = stored_secret c).
    { rewrite store_secret_spec by done. by rewrite decide_True. }
    split_and!; [done..| | |].
    + intros w' id' Hne. rewrite store_secret_spec by done. rewrite decide_False by naive_solver. done.
    + intros Hsc. by apply Hi, Hsome.
    + intros s0. eapply reopened_form; [done|by eexists|reflexivity|exact Hg].
Qed.

Definition sample_node : FlowNode := Defaults.createDefaultServiceNode (fun i => "x") "n1" (0, 0) Kafka.
Definition sample_dialog : DialogState :=
  MkDialog RegistryTab (Some sample_node) (MkRegistryForm true "GHCR.io" AuthBasic " bot " "pw" "").

Lemma save_stores_or_refuses_witness : exists n' secrets',
  handleSave "wf" sample_dialog ∅ = Return (Some (Saved n'), sample_dialog, secrets')
  /\ getSecret "wf" "n1" secrets' = Some (MkRuntimeConfig "ghcr.io" AuthBasic (Some "bot") (Some "pw") None).
Proof.
  destruct (save_stores_or_refuses "wf" sample_dialog ∅ sample_node _ eq_refl eq_refl) as [H|H].
  - split; [apply jmap_wf_empty|done].
  - exfalso. destruct H as (field & tab & _ & Hr & _). vm_compute in Hr. discriminate Hr.
  - destruct H as (c & secrets' & He & _ & Hc & _ & _ & Hg & _). eexists _, secrets'. split; [exact He|].
    change "n1" with (node_id sample_node). rewrite Hg. vm_compute in Hc. injection Hc as <-. reflexivity.
Defined.

(** An image with a tag and no path is read as a registry's own address, so a private
    registry cannot be set for a service that keeps one of these images. *)
Lemma default_images_refused registry t : t ∈ [Postgres; Mysql; Redis; Memcached; Rabbitmq; Nginx] ->
  is_return (resolveRegistryImage registry (Defaults.images t)) = false.
Proof.
  intros Ht. unfold resolveRegistryImage. destruct (normalizeRegistryHost registry) as [host|]; [|done].
  unfold mbind. cbn zeta. repeat (apply elem_of_cons in Ht as [->|Ht]; [reflexivity|]). by apply elem_of_nil in Ht.
Qed.

(** The button is disabled exactly while the image of an application is missing. *)
Lemma disabled_is_refused s n svc : dl_editedNode s = Some n -> nd_service (node_data n) = Some svc ->
  save_disabled s = true <-> save_refusal svc (dl_registryDraft s) = Some "service-container-image".
Proof.
  intros En Es. unfold save_disabled, save_refusal. rewrite En. cbn. rewrite Es. split; [by intros ->|].
  destruct (lacks_image svc); [done|]. unfold validateRegistryForm. repeat case_match; intros; by simplify_eq.
Qed.
End NodeDialogFacts.
