(* ===== verification/FieldEditors.v ===== *)
(** * Editors of single fields: [ui-v2/src/modules/workflow/components/DraftFields.tsx]
      and [MockServerExpectationEditor.tsx]

    [Drafts] has the two inputs that keep what is typed apart from the value it
    stands for, as machines that are told of focus, typing, leaving and of a value
    that changes from outside.  [HeaderFields] and [ExpectationEditor] have the
    editor of the expectations of a mock server. *)

From S2P Require Import Prelude FlowTypes JsLib JsonParse RunPage.
From stdpp Require Import pretty.
From Stdlib Require Import Ascii.
Open Scope Z_scope.

Module Drafts.
(** ** Text and the value it stands for

    [T] is the type of a value, [parse] may return nothing or throw. *)
Section Json.
Context {T : Type} (parse : string -> res (option T)) (stringify : T -> string).

Inductive JsonDraftResult := JsonValid (value : option T) | JsonInvalid.

Definition resolveJsonDraft (draft : string) : JsonDraftResult :=
  if negb (str_truthy (js_trim draft)) then JsonValid None
  else match parse draft with
       | Return (Some value) => JsonValid (Some value)
       | Return None => JsonInvalid
       | Throw _ => JsonInvalid
       end.

(** [JSON.stringify(value, null, 2)] of a value, nothing for no value. *)
Definition formatJson (value : option T) : string := match value with None => "" | Some v => stringify v end.

(** The text area and the value its parent keeps; [onValueChange] stores it there. *)
Record JsonField := MkJsonField { jf_draft : string; jf_invalid : bool; jf_focused : bool; jf_value : option T }.

Definition json_mount (value : option T) : JsonField := MkJsonField (formatJson value) false false value.

Definition json_focus (f : JsonField) : JsonField := MkJsonField (jf_draft f) (jf_invalid f) true (jf_value f).

Definition json_change (nextDraft : string) (f : JsonField) : JsonField :=
  match resolveJsonDraft nextDraft with
  | JsonInvalid => MkJsonField nextDraft true (jf_focused f) (jf_value f)
  | JsonValid value => MkJsonField nextDraft false (jf_focused f) value
  end.

Definition handleBlur (f : JsonField) : JsonField :=
  match resolveJsonDraft (jf_draft f) with
  | JsonValid value => MkJsonField (formatJson value) false false (jf_value f)
  | JsonInvalid => MkJsonField (jf_draft f) (jf_invalid f) false (jf_value f)
  end.

(** A value set from outside: the effect runs when its text is another one. *)
Definition json_external (value : option T) (f : JsonField) : JsonField :=
  if decide (formatJson value = formatJson (jf_value f)) then MkJsonField (jf_draft f) (jf_invalid f) (jf_focused f) value
  else if jf_focused f then MkJsonField (jf_draft f) (jf_invalid f) true value
  else MkJsonField (formatJson value) false false value.
End Json.
Arguments JsonDraftResult : clear implicits.
Arguments JsonField : clear implicits.

(** ** Numbers

    [js_number] is [Number(text)] when it is finite, [String(value)] is [pretty]. *)
Section Number.
Context (js_number : string -> option Z).

Inductive NumberDraftResult := NumberValid (value : Z) | NumberIncomplete.

Definition resolveNumberDraft (draft : string) : NumberDraftResult :=
  if negb (str_truthy (js_trim draft)) || set_has (js_trim draft) ["-"; "+"; "."; "-."; "+."] then NumberIncomplete
  else match js_number draft with Some value => NumberValid value | None => NumberIncomplete end.

Record NumberField := MkNumberField { nf_draft : string; nf_focused : bool; nf_value : Z }.

Definition number_mount (value : Z) : NumberField := MkNumberField (pretty value) false value.
Definition number_focus (f : NumberField) : NumberField := MkNumberField (nf_draft f) true (nf_value f).

Definition number_change (nextDraft : string) (f : NumberField) : NumberField :=
  MkNumberField nextDraft (nf_focused f)
    (match resolveNumberDraft nextDraft with NumberValid value => value | NumberIncomplete => nf_value f end).

Definition number_blur (f : NumberField) : NumberField :=
  MkNumberField (match resolveNumberDraft (nf_draft f) with
                 | NumberValid value => pretty value | NumberIncomplete => pretty (nf_value f) end) false (nf_value f).

Definition number_external (value : Z) (f : NumberField) : NumberField :=
  if decide (value = nf_value f) then f
  else if nf_focused f then MkNumberField (nf_draft f) true value
  else MkNumberField (pretty value) false value.
End Number.
End Drafts.

(** ** The headers of a request or a response *)
Module HeaderFields.
Notation Headers := (jmap string string).

Definition base : string := "X-Header".

(** [while (name in headers)]; the loop ends within one round more than there are
    headers, [None] stands for a loop that has not ended. *)
Fixpoint free_name (fuel : nat) (headers : Headers) (name : string) (suffix : Z) : option string :=
  match fuel with
  | O => None
  | S fuel =>
      match headers !! name with
      | Some _ => free_name fuel headers (base +:+ "-" +:+ pretty suffix) (suffix + 1)
      | None => Some name
      end
  end.

Definition addHeader (headers : Headers) : option Headers :=
  (fun name => <[name := ""]> headers) <$> free_name (S (length (jkeys headers))) headers base 2.

Definition renameHeader (name new value : string) (headers : Headers) : Headers := <[new := value]> (delete name headers).
Definition setHeader (name value : string) (headers : Headers) : Headers := <[name := value]> headers.
Definition removeHeader (name : string) (headers : Headers) : Headers := delete name headers.
End HeaderFields.

(** ** The expectations of a mock server *)
Module ExpectationEditor.
Definition HTTP_METHODS : list string := ["GET"; "POST"; "PUT"; "PATCH"; "DELETE"; "HEAD"; "OPTIONS"].

Definition updateExpectation (id : option string) (update : MockServerExpectation -> MockServerExpectation)
    (expectations : list MockServerExpectation) : list MockServerExpectation :=
  map (fun e => if decide (ex_id e = id) then update e else e) expectations.

(** [[next[index], next[target]] = [next[target], next[index]]]; the index is the one of
    a card that is shown. *)
Definition moveExpectation (index : nat) (offset : Z) (expectations : list MockServerExpectation) : list MockServerExpectation :=
  let target := Z.of_nat index + offset in
  if (target <? 0) || (Z.of_nat (length expectations) <=? target) then expectations
  else
    match expectations !! index, expectations !! Z.to_nat target with
    | Some a, Some b => <[Z.to_nat target := a]> (<[index := b]> expectations)
    | _, _ => expectations
    end.

Definition addExpectation (id : string) (expectations : list MockServerExpectation) : list MockServerExpectation :=
  expectations ++
  [MkExpectation (Some id) (Some (MkMockRequest (Some "GET") (Some "/api/example") (Some ∅) None))
     (Some (MkMockResponse (Some 200) (Some (JMap [("Content-Type", "application/json")]))
        (Some ("{" +:+ quoted "message" +:+ ":" +:+ quoted "ok" +:+ "}"))))].

Definition removeExpectation (id : option string) (expectations : list MockServerExpectation) : list MockServerExpectation :=
  filter (fun e => ex_id e <> id) expectations.

(** The spread of a request or a response that is not there is empty. *)
Definition request_of (e : MockServerExpectation) : MockRequest := default (MkMockRequest None None None None) (ex_request e).
Definition response_of (e : MockServerExpectation) : MockResponse := default (MkMockResponse None None None) (ex_response e).
Definition with_request (r : MockRequest) (e : MockServerExpectation) : MockServerExpectation :=
  MkExpectation (ex_id e) (Some r) (ex_response e).
Definition with_response (r : MockResponse) (e : MockServerExpectation) : MockServerExpectation :=
  MkExpectation (ex_id e) (ex_request e) (Some r).

Definition set_method (method : option string) (e : MockServerExpectation) : MockServerExpectation :=
  let r := request_of e in with_request (MkMockRequest (Some (default "GET" method)) (mr_path r) (mr_headers r) (mr_body r)) e.
Definition set_path (path : string) (e : MockServerExpectation) : MockServerExpectation :=
  let r := request_of e in with_request (MkMockRequest (mr_method r) (Some path) (mr_headers r) (mr_body r)) e.
Definition set_request_headers (headers : jmap string string) (e : MockServerExpectation) : MockServerExpectation :=
  let r := request_of e in with_request (MkMockRequest (mr_method r) (mr_path r) (Some headers) (mr_body r)) e.
Definition set_request_body (body : string) (e : MockServerExpectation) : MockServerExpectation :=
  let r := request_of e in with_request (MkMockRequest (mr_method r) (mr_path r) (mr_headers r) (Some body)) e.
Definition set_statusCode (statusCode : Z) (e : MockServerExpectation) : MockServerExpectation :=
  let r := response_of e in with_response (MkMockResponse (Some statusCode) (ms_headers r) (ms_body r)) e.
Definition set_response_headers (headers : jmap string string) (e : MockServerExpectation) : MockServerExpectation :=
  let r := response_of e in with_response (MkMockResponse (ms_statusCode r) (Some headers) (ms_body r)) e.
Definition set_response_body (body : string) (e : MockServerExpectation) : MockServerExpectation :=
  let r := response_of e in with_response (MkMockResponse (ms_statusCode r) (ms_headers r) (Some body)) e.

(** What the card marks as wrong: [expectation.request.path.startsWith] of a request
    without a path throws. *)
Definition path_invalid (e : MockServerExpectation) : res bool :=
  match ex_request e ≫= mr_path with None => Throw JsTypeError | Some path => Return (negb (starts_with "/" path)) end.
Definition status_invalid (e : MockServerExpectation) : res bool :=
  match ex_response e with
  | None => Throw JsTypeError
  | Some r => Return (match ms_statusCode r with Some s => (s <? 100) || (599 <? s) | None => false end)
  end.

Definition card_title (e : MockServerExpectation) : res string :=
  match ex_request e with
  | None => Throw JsTypeError
  | Some r => Return (default "" (mr_method r) +:+ " " +:+ ostr_or (mr_path r) "/")
  end.
End ExpectationEditor.

(** * What the editors of single fields guarantee *)

Module HeaderFacts.
Import HeaderFields.

(** The names the loop tries, in order. *)
Definition candidate (i : nat) : string :=
  match i with O => base | S j => base +:+ "-" +:+ pretty (Z.of_nat j + 2) end.

#[local] Instance candidate_inj : Inj (=) (=) candidate.
Proof.
  intros [|i] [|j] H; [done|by vm_compute in H..|].
  apply (inj (String.app base)), (inj (String.app "-")), (inj pretty) in H. lia.
Qed.

Lemma free_name_spec fuel headers i :
  (exists k, (i <= k < i + fuel)%nat /\ free_name fuel headers (candidate i) (Z.of_nat i + 2) = Some (candidate k)
     /\ headers !! candidate k = None /\ forall j, (i <= j < k)%nat -> is_Some (headers !! candidate j))
  \/ (free_name fuel headers (candidate i) (Z.of_nat i + 2) = None
     /\ forall j, (i <= j < i + fuel)%nat -> is_Some (headers !! candidate j)).
Proof.
  revert i. induction fuel as [|fuel IH]; intros i; cbn [free_name]; [right; split; [done|lia]|].
  destruct (headers !! candidate i) as [v|] eqn:E.
  - replace (Z.of_nat i + 2 + 1) with (Z.of_nat (S i) + 2) by lia.
    destruct (IH (S i)) as [(k & Hk & Ef & Hn & Ha)|[Ef Ha]].
    + left. exists k. split; [lia|]. split; [exact Ef|]. split; [done|]. intros j Hj'.
      destruct (decide (j = i)) as [->|]; [by eexists|apply Ha; lia].
    + right. split; [exact Ef|]. intros j Hj'. destruct (decide (j = i)) as [->|]; [by eexists|apply Ha; lia].
  - left. exists i. split; [lia|]. split_and!; [done..|lia].
Qed.

Lemma candidates_not_all_taken (headers : Headers) : ~ forall j, (j < S (length (jkeys headers)))%nat -> is_Some (headers !! candidate j).
Proof.
  intros Hall. set (n := S (length (jkeys headers))) in *.
  assert (Hnd : NoDup (map candidate (seq 0 n))) by (apply NoDup_fmap_2; [apply _|apply NoDup_seq]).
  assert (Hsub : map candidate (seq 0 n) ⊆ jkeys headers).
  { intros x (i & -> & Hi%elem_of_seq)%list_elem_of_fmap. apply jlookup_is_Some, Hall. lia. }
  pose proof (submseteq_length _ _ (NoDup_submseteq _ _ Hnd Hsub)) as H.
  rewrite length_map, length_seq in H. lia.
Qed.

(** The search for the name of a new header ends, and the header is one more: its name
    is the first of [X-Header], [X-Header-2], ... that is not taken, its value is
    empty, and every other header is as it was. *)
Theorem added_header_is_new (headers : Headers) :
  exists headers' k, addHeader headers = Some headers'
  /\ headers !! candidate k = None /\ (forall j, (j < k)%nat -> is_Some (headers !! candidate j))
  /\ entries headers' = entries headers ++ [(candidate k, "")]
  /\ forall name, name <> candidate k -> headers' !! name = headers !! name.
Proof.
  unfold addHeader. destruct (free_name_spec (S (length (jkeys headers))) headers 0) as [(k & Hk & Ef & Hn & Ha)|[_ Ha]].
  - change (candidate 0) with base in Ef. change (Z.of_nat 0 + 2) with 2 in Ef. rewrite Ef. eexists _, k. split; [reflexivity|]. split_and!; [done| | |].
    + intros j Hj. apply Ha. lia.
    + by apply entries_insert_fresh, jlookup_None.
    + intros name Hne. rewrite jlookup_insert. by case_decide.
  - exfalso. apply (candidates_not_all_taken headers). intros j Hj. apply Ha. lia.
Qed.

Lemma jkeys_delete_length name (headers : Headers) v : headers !! name = Some v ->
  length (jkeys headers) = S (length (jkeys (delete name headers))).
Proof.
  destruct headers as [l]. unfold lookup, jmap_lookup, delete, jmap_delete, jkeys. cbn.
  induction l as [|[k w] l IH]; cbn; [done|]. case_decide; [done|]. intros Hl%IH. cbn. by rewrite Hl.
Qed.

(** Renaming a header to a free name keeps its value and every other header; to a name
    that is taken, the header that had it is gone. *)
Theorem renamed_header name new value (headers : Headers) : jmap_wf headers -> headers !! name = Some value ->
  renameHeader name new value headers !! new = Some value
  /\ (new <> name -> renameHeader name new value headers !! name = None)
  /\ (forall other, other <> name -> other <> new -> renameHeader name new value headers !! other = headers !! other)
  /\ (length (jkeys (renameHeader name new value headers)) = length (jkeys headers) <-> new = name \/ headers !! new = None).
Proof.
  intros Hwf Hn. unfold renameHeader. split_and!.
  - by rewrite jlookup_insert, decide_True.
  - intros Hne. rewrite jlookup_insert, decide_False by done. by rewrite jlookup_delete, decide_True.
  - intros other H1 H2. rewrite jlookup_insert, decide_False by done. by rewrite jlookup_delete, decide_False.
  - rewrite (jkeys_delete_length name headers value Hn), jkeys_insert.
    assert (Hd : new ∈ jkeys (delete name headers) <-> ~ (new = name \/ headers !! new = None)).
    { rewrite <- jlookup_is_Some, jlookup_delete by done. case_decide; [naive_solver|].
      rewrite <- not_eq_None_Some. naive_solver. }
    unfold set_add. destruct (set_has _ _) eqn:E; [apply set_has_spec in E|apply set_has_false in E].
    + split; [lia|]. by apply Hd in E.
    + rewrite length_app. cbn. split; [|lia]. intros _. destruct (decide (new = name \/ headers !! new = None)); naive_solver.
Qed.
End HeaderFacts.

Module DraftFacts.
Import Drafts.

(** ** The text area of a value *)
Section Json.
Context {T : Type} (parse : string -> res (option T)) (stringify : T -> string).
(** [JSON.parse] reads what [JSON.stringify] writes, which is never blank. *)
Context (parse_stringify : forall v, parse (stringify v) = Return (Some v))
        (stringify_text : forall v, js_trim (stringify v) <> "").

Inductive JsonEvent := JFocus | JType (text : string) | JLeave | JOutside (value : option T).

Definition json_step (f : JsonField T) (e : JsonEvent) : JsonField T :=
  match e with
  | JFocus => json_focus f
  | JType text => json_change parse text f
  | JLeave => handleBlur parse stringify f
  | JOutside value => json_external stringify value f
  end.

(** Text is typed into the field that has the focus; a value comes from outside while
    it has not. *)
Definition json_allowed (f : JsonField T) (e : JsonEvent) : Prop :=
  match e with JType _ => jf_focused f = true | JOutside _ => jf_focused f = false | _ => True end.

Inductive json_reach (value : option T) : JsonField T -> Prop :=
| json_start_field : json_reach value (json_mount stringify value)
| json_next f e : json_reach value f -> json_allowed f e -> json_reach value (json_step f e).

(** What is shown stands for the value kept, or is marked as wrong. *)
Definition json_in_step (f : JsonField T) : Prop :=
  match resolveJsonDraft parse (jf_draft f) with
  | JsonValid v => jf_invalid f = false /\ v = jf_value f
  | JsonInvalid => jf_invalid f = true
  end
  /\ (jf_focused f = false -> jf_invalid f = false -> jf_draft f = formatJson stringify (jf_value f)).

Lemma resolve_format v : resolveJsonDraft parse (formatJson stringify v) = JsonValid v.
Proof.
  destruct v as [v|]; [|done]. unfold resolveJsonDraft. cbn [formatJson].
  rewrite (proj2 (str_truthy_spec _) (stringify_text v)), parse_stringify. done.
Qed.

Lemma format_inj v w : formatJson stringify v = formatJson stringify w -> v = w.
Proof. intros H. pose proof (resolve_format v) as E. rewrite H, resolve_format in E. by injection E. Qed.

Lemma json_step_in_step f e : json_in_step f -> json_allowed f e -> json_in_step (json_step f e).
Proof.
  unfold json_in_step. intros [Hd Hs] Ha. destruct e as [|text| |value]; cbn in *.
  - split; [exact Hd|done].
  - unfold json_change. destruct (resolveJsonDraft parse text) eqn:E; cbn; rewrite E; split; (done || congruence).
  - unfold handleBlur. destruct (resolveJsonDraft parse (jf_draft f)) as [v|] eqn:E; cbn.
    + destruct Hd as [_ ->]. by rewrite resolve_format.
    + rewrite E. split; [done|congruence].
  - unfold json_external. case_decide as Hf; [apply format_inj in Hf as ->; by destruct f|].
    rewrite Ha. cbn. by rewrite resolve_format.
Qed.

(** Whatever is typed, and whenever the field is entered and left, the text shown stands
    for the value that is kept, or is marked as wrong while the last value it stood
    for is kept.  A field that was left and is not marked shows the value as it is
    written. *)
Theorem json_field_in_step value f : json_reach value f -> json_in_step f.
Proof.
  induction 1 as [|f e _ IH Ha]; [|by apply json_step_in_step]. split; [|done]. cbn. by rewrite resolve_format.
Qed.
End Json.

(** A value that comes from outside while the field has the focus is not shown, not
    even after the field is left. *)
Example outside_value_hidden :
  let parse s := Return (if decide (s = "true") then Some true else if decide (s = "false") then Some false else None) in
  let print (b : bool) := if b then "true" else "false" in
  let f := handleBlur parse print (json_external print (Some false) (json_focus (json_mount print (Some true)))) in
  jf_value f = Some false /\ jf_draft f = "true" /\ jf_invalid f = false.
Proof. by vm_compute. Qed.

(** ** The input of a number *)
Section Number.
Context (js_number : string -> option Z) (number_of_text : forall v, js_number (pretty v) = Some v).

Lemma digits_text x : (0 < x)%N ->
  str_forallb (fun c => negb (is_ws c)) (pretty_N_go x "") = true
  /\ exists d t, pretty_N_go x "" = String (pretty_N_char d) t /\ (0 < d < 10)%N.
Proof.
  intros Hx. split; [|destruct (scan_go x "" Hx) as (d & t & -> & Hd & _); by eexists _, _].
  apply go_chars; [|done]. intros d Hd. assert (d ∈ [0;1;2;3;4;5;6;7;8;9]%N) as Hin by (rewrite !elem_of_cons; lia).
  clear Hd. revert d Hin. apply Forall_forall. by repeat constructor.
Qed.

Lemma digit_no_sign d : (0 < d < 10)%N -> pretty_N_char d <> "-"%char /\ pretty_N_char d <> "+"%char /\ pretty_N_char d <> "."%char.
Proof.
  intros Hd. assert (d ∈ [1;2;3;4;5;6;7;8;9]%N) as Hin by (rewrite !elem_of_cons; lia).
  clear Hd. revert d Hin. apply Forall_forall. by repeat constructor.
Qed.

Lemma resolve_pretty v : resolveNumberDraft js_number (pretty v) = NumberValid v.
Proof.
  unfold resolveNumberDraft. rewrite number_of_text.
  enough (str_truthy (js_trim (pretty v)) = true /\ js_trim (pretty v) ∉ ["-"; "+"; "."; "-."; "+."]) as [-> H].
  { by rewrite (proj2 (set_has_false _ _) H). }
  destruct v as [|p|p]; [split; [done|apply (bool_decide_unpack _); by vm_compute]|..].
  - change (pretty (Zpos p)) with (pretty (N.pos p)). unfold pretty, pretty_N. rewrite decide_False by done.
    destruct (digits_text (N.pos p) eq_refl) as [Hc (d & t & E & Hd)]. rewrite (trim_clean _ Hc), E.
    split; [done|]. apply digit_no_sign in Hd. revert Hd. generalize (pretty_N_char d). intros c Hd.
    rewrite !elem_of_cons, elem_of_nil. intros H. repeat (destruct H as [H|H]; [cbn in H; simplify_eq; tauto|]). tauto.
  - change (pretty (Zneg p)) with ("-" +:+ pretty (N.pos p)). unfold pretty, pretty_N. rewrite decide_False by done.
    destruct (digits_text (N.pos p) eq_refl) as [Hc (d & t & E & Hd)].
    rewrite (trim_clean ("-" +:+ pretty_N_go (N.pos p) "") Hc), E. split; [done|].
    change ("-" +:+ ?s) with (String "-" s).
    apply digit_no_sign in Hd. revert Hd. generalize (pretty_N_char d). intros c Hd.
    rewrite !elem_of_cons, elem_of_nil. intros H. repeat (destruct H as [H|H]; [cbn in H; simplify_eq; tauto|]). tauto.
Qed.

Inductive NumberEvent := NFocus | NType (text : string) | NLeave | NOutside (value : Z).

Definition number_step (f : NumberField) (e : NumberEvent) : NumberField :=
  match e with
  | NFocus => number_focus f
  | NType text => number_change js_number text f
  | NLeave => number_blur js_number f
  | NOutside value => number_external value f
  end.

Definition number_allowed (f : NumberField) (e : NumberEvent) : Prop :=
  match e with NType _ => nf_focused f = true | NOutside _ => nf_focused f = false | _ => True end.

Inductive number_reach (value : Z) : NumberField -> Prop :=
| number_start_field : number_reach value (number_mount value)
| number_next f e : number_reach value f -> number_allowed f e -> number_reach value (number_step f e).

Definition number_in_step (f : NumberField) : Prop :=
  (forall v, resolveNumberDraft js_number (nf_draft f) = NumberValid v -> v = nf_value f)
  /\ (nf_focused f = false -> nf_draft f = pretty (nf_value f)).

(** A number that is shown is the number kept; a text that is not yet a number leaves
    the last one in place, and leaving the field shows it again. *)
Theorem number_field_in_step value f : number_reach value f -> number_in_step f.
Proof.
  induction 1 as [|f e _ [Hd Hs] Ha].
  { split; [|done]. cbn. rewrite resolve_pretty. by intros v [= ->]. }
  destruct e as [|text| |w]; cbn in *.
  - by split.
  - split; [|cbn; congruence]. cbn. intros v ->. done.
  - assert (E : nf_draft (number_blur js_number f) = pretty (nf_value f)).
    { cbn. destruct (resolveNumberDraft js_number (nf_draft f)) as [v|]; [|done]. by rewrite (Hd v). }
    split; [|done]. rewrite E, resolve_pretty. by intros v [= <-].
  - unfold number_external. case_decide; [by split|]. rewrite Ha. split; [|done]. cbn. rewrite resolve_pretty. by intros v [= ->].
Qed.
End Number.
End DraftFacts.

Module ExpectationFacts.
Import ExpectationEditor.

(** ** Every click of the editor *)
Inductive Edit :=
| EUpdate (id : option string) (update : MockServerExpectation -> MockServerExpectation)
| EMove (index : nat) (offset : Z)
| EAdd (id : string)
| ERemove (id : option string).

Definition edit (l : list MockServerExpectation) (e : Edit) : list MockServerExpectation :=
  match e with
  | EUpdate id update => updateExpectation id update l
  | EMove index offset => moveExpectation index offset l
  | EAdd id => addExpectation id l
  | ERemove id => removeExpectation id l
  end.

(** The updates the cards make. *)
Definition card_update (u : MockServerExpectation -> MockServerExpectation) : Prop :=
  (exists m, u = set_method m) \/ (exists p, u = set_path p) \/ (exists h, u = set_request_headers h)
  \/ (exists b, u = set_request_body b) \/ (exists s, u = set_statusCode s) \/ (exists h, u = set_response_headers h)
  \/ (exists b, u = set_response_body b).

Definition edit_allowed (l : list MockServerExpectation) (e : Edit) : Prop :=
  match e with
  | EUpdate _ u => card_update u
  | EMove index offset => (index < length l)%nat /\ (offset = 1 \/ offset = -1)
  | EAdd id => Some id ∉ map ex_id l
  | ERemove _ => True
  end.

Lemma card_update_id u e : card_update u -> ex_id (u e) = ex_id e.
Proof. unfold card_update. intros H. by destruct_or! H; destruct H as [x ->]. Qed.

Lemma update_ids id u l : card_update u -> map ex_id (updateExpectation id u l) = map ex_id l.
Proof.
  intros Hu. unfold updateExpectation. rewrite map_map. apply map_ext. intros e. case_decide; [by apply card_update_id|done].
Qed.

Lemma swap_perm {A} (l : list A) i j a b : l !! i = Some a -> l !! j = Some b -> <[j := a]> (<[i := b]> l) ≡ₚ l.
Proof.
  intros Hi Hj. apply Permutation_inj. split; [by rewrite !length_insert|].
  exists (fun k => if decide (k = i) then j else if decide (k = j) then i else k). split.
  - intros x y H. repeat case_decide; congruence.
  - intros k. pose proof (lookup_lt_Some _ _ _ Hi). pose proof (lookup_lt_Some _ _ _ Hj).
    destruct (decide (k = j)) as [->|Hkj].
    + rewrite list_lookup_insert_eq by (by rewrite length_insert). destruct (decide (j = i)) as [->|]; [done|]. congruence.
    + rewrite list_lookup_insert_ne by done. destruct (decide (k = i)) as [->|Hki].
      * rewrite list_lookup_insert_eq by done. congruence.
      * by rewrite list_lookup_insert_ne.
Qed.

Lemma move_perm i o l : moveExpectation i o l ≡ₚ l.
Proof.
  unfold moveExpectation. destruct (_ || _); [done|]. destruct (l !! i) eqn:Ei; [|done].
  destruct (l !! Z.to_nat _) eqn:Ej; [|done]. by apply swap_perm.
Qed.

(** Where a card goes: up or down by one place, unless it is at the end. *)
Lemma move_lookup i o l : (i < length l)%nat -> (o = 1 \/ o = -1) ->
  let target := Z.of_nat i + o in
  (0 <= target < Z.of_nat (length l) ->
     moveExpectation i o l !! Z.to_nat target = l !! i /\ moveExpectation i o l !! i = l !! Z.to_nat target
     /\ forall k, k <> i -> k <> Z.to_nat target -> moveExpectation i o l !! k = l !! k)
  /\ (~ 0 <= target < Z.of_nat (length l) -> moveExpectation i o l = l).
Proof.
  intros Hi Ho target. unfold moveExpectation. fold target.
  destruct (Z.ltb_spec target 0); cbn [orb]; [split; [lia|done]|].
  destruct (Z.leb_spec (Z.of_nat (length l)) target); [split; [lia|done]|]. split; [|lia]. intros _.
  destruct (lookup_lt_is_Some_2 l i Hi) as [a Ea].
  destruct (lookup_lt_is_Some_2 l (Z.to_nat target)) as [b Eb]; [lia|]. rewrite Ea, Eb.
  assert (Z.to_nat target <> i) by lia. split_and!.
  - by rewrite list_lookup_insert_eq by (rewrite length_insert; lia).
  - by rewrite list_lookup_insert_ne, list_lookup_insert_eq.
  - intros k Hk1 Hk2. by rewrite !list_lookup_insert_ne.
Qed.

(** Moving a card and moving it back changes nothing. *)
Lemma move_back i o l : (i < length l)%nat -> (o = 1 \/ o = -1) -> 0 <= Z.of_nat i + o < Z.of_nat (length l) ->
  moveExpectation (Z.to_nat (Z.of_nat i + o)) (- o) (moveExpectation i o l) = l.
Proof.
  intros Hi Ho Ht. destruct (move_lookup i o l Hi Ho) as [H _]. destruct (H Ht) as (H1 & H2 & H3).
  set (l' := moveExpectation i o l) in *. assert (El : length l' = length l) by apply Permutation_length, move_perm.
  destruct (move_lookup (Z.to_nat (Z.of_nat i + o)) (- o) l') as [H' _]; [lia..|].
  replace (Z.of_nat (Z.to_nat (Z.of_nat i + o)) + - o) with (Z.of_nat i) in H' by lia. rewrite Nat2Z.id in H'.
  destruct H' as (G1 & G2 & G3); [lia|]. apply list_eq. intros k.
  destruct (decide (k = i)) as [->|]; [congruence|].
  destruct (decide (k = Z.to_nat (Z.of_nat i + o))) as [->|]; [congruence|]. by rewrite G3, H3.
Qed.

(** Expectations with distinct ids keep distinct ids under every click of the editor,
    and each click touches only what it names: an update the one expectation, a move
    the order of two neighbours, an addition the end of the list, a removal the one
    expectation. *)
Theorem expectations_stay_distinct l e : NoDup (map ex_id l) -> edit_allowed l e ->
  NoDup (map ex_id (edit l e))
  /\ match e with
     | EUpdate id u => map ex_id (edit l e) = map ex_id l
         /\ forall k x, l !! k = Some x -> edit l e !! k = Some (if decide (ex_id x = id) then u x else x)
     | EMove i o => edit l e ≡ₚ l
     | EAdd id => exists x, edit l e = l ++ [x] /\ ex_id x = Some id /\ path_invalid x = Return false /\ status_invalid x = Return false
     | ERemove id => forall x, x ∈ edit l e <-> x ∈ l /\ ex_id x <> id
     end.
Proof.
  intros Hn Ha. destruct e as [id u|i o|id|id]; cbn [edit] in *.
  - rewrite update_ids by done. split; [done|]. split; [done|]. intros k x Hk. unfold updateExpectation.
    change (map ?f l) with (f <$> l). by rewrite list_lookup_fmap, Hk.
  - split; [|apply move_perm]. apply (NoDup_Permutation_proper _ _ (fmap_Permutation _ _ _ (move_perm i o l))). exact Hn.
  - split; [|by eexists]. unfold addExpectation. rewrite map_app. apply NoDup_app. split_and!; [done| |apply NoDup_singleton].
    intros x Hx Hx'%list_elem_of_singleton. cbn in Hx'. by subst.
  - unfold removeExpectation. split; [|intros x; rewrite list_elem_of_filter; tauto].
    eapply sublist_NoDup; [exact Hn|]. apply (fmap_sublist ex_id), sublist_filter.
Qed.
End ExpectationFacts.
