(* ===== verification/RunHistory.v ===== *)
(** * Past runs: [ui-v2/src/modules/workflow/components/ExecutionHistory.tsx] and
      [WorkflowLogsDrawer.tsx]

    [HistoryDialog] has the list of runs of a workflow and the run that is
    selected in it, [LogsDrawer] the drawer with the log of one run, which asks the
    runner for the stored log page by page.  What both show of the scenarios of a run
    comes first. *)

From S2P Require Import Prelude FlowTypes JsLib SyncMiddleware ExecutionStore ScenarioRunStore TestResultStore Process RunReplay RunReplayFacts.
From stdpp Require Import pretty.
From stdpp Require Import sorting.
Open Scope Z_scope.

(** ** The scenarios of a run *)
Definition deriveScenarioStatus (statuses : list string) (fallback : option string) : string :=
  if (length statuses =? 0)%nat
  then match fallback with
       | Some f => if str_truthy f && negb (bool_decide (f = "unknown")) then f else "pending"
       | None => "pending"
       end
  else if existsb (fun s => bool_decide (s = "failed")) statuses then "failed"
  else if forallb (fun s => bool_decide (s = "passed")) statuses then "completed"
  else "running".

(** ["error" in resultData] of an array has no such key. *)
Definition getBackendError (resultData : option JsonValue) : option string :=
  match resultData with
  | Some (JObj fields) =>
      match assoc_get "error" fields with
      | Some (JStr e) => Some e
      | _ => match assoc_get "message" fields with Some (JStr m) => Some m | _ => None end
      end
  | _ => None
  end.

Definition run_started_cmp (left right : ScenarioRunStore.ScenarioRun) : Z :=
  ScenarioRunStore.run_startedAt left - ScenarioRunStore.run_startedAt right.

(** [selectedScenarioRuns] of the dialog, [scenarioRuns] of the drawer. *)
Definition selectedScenarioRuns (scenarioRunsMap : jmap string ScenarioRunStore.ScenarioRun)
    (selected : option ExecutionStore.WorkflowExecution) : list ScenarioRunStore.ScenarioRun :=
  match selected with
  | None => []
  | Some ex =>
      js_sort run_started_cmp (filter (fun run => ScenarioRunStore.run_workflowRunId run = ExecutionStore.ex_workflowRunId ex
                                            /\ is_deleted (ScenarioRunStore.run_meta run) = false) (jvalues scenarioRunsMap))
  end.

(** The results of a run by their scenario. *)
Definition of_run (ex : ExecutionStore.WorkflowExecution) (result : TestResultStore.TestResult) : bool :=
  bool_decide (TestResultStore.tr_workflowRunId (TestResultStore.tr_input result) = Some (ExecutionStore.ex_workflowRunId ex))
  && ostr_truthy (TestResultStore.tr_scenarioId (TestResultStore.tr_input result))
  && negb (is_deleted (TestResultStore.tr_meta result)).

Definition group_result (ex : ExecutionStore.WorkflowExecution) (grouped : jmap string (list TestResultStore.TestResult))
    (result : TestResultStore.TestResult) : jmap string (list TestResultStore.TestResult) :=
  if of_run ex result
  then
    let scenarioId := default "" (TestResultStore.tr_scenarioId (TestResultStore.tr_input result)) in
    <[scenarioId := default [] (grouped !! scenarioId) ++ [result]]> grouped
  else grouped.

Definition resultsByScenario (testResultsMap : jmap string TestResultStore.TestResult)
    (selected : option ExecutionStore.WorkflowExecution) : jmap string (list TestResultStore.TestResult) :=
  match selected with
  | None => ∅
  | Some ex => fold_left (group_result ex) (jvalues testResultsMap) ∅
  end.

(** ** The dialog *)
Module HistoryDialog.
Import ExecutionStore.

Inductive Tone := Good | Bad | Busy | Plain.

Definition statusBadge (status : string) : Tone * string :=
  let safeStatus := if str_truthy status then status else "unknown" in
  if decide (safeStatus = "passed") then (Good, "Passed")
  else if decide (safeStatus = "completed") then (Good, "Completed")
  else if decide (safeStatus = "cleanup_failed") then (Bad, "Cleanup Failed")
  else if decide (safeStatus = "failed") then (Bad, "Failed")
  else if decide (safeStatus = "partial_failed") then (Bad, "Partial Failed")
  else if decide (safeStatus = "pending") then (Busy, "Pending")
  else if decide (safeStatus = "running") then (Busy, "Running")
  else (Plain, safeStatus).

Definition newest_run (left right : WorkflowExecution) : Z := ex_startedAt right - ex_startedAt left.

Definition executions (workflowId : string) (executionsMap : jmap string WorkflowExecution) : list WorkflowExecution :=
  js_sort newest_run (filter (fun ex => ex_workflowId ex = workflowId /\ is_deleted (ex_meta ex) = false) (jvalues executionsMap)).

(** What a card of the list shows of how long a run took. *)
Definition duration (now : Z) (ex : WorkflowExecution) : Z :=
  match ex_finishedAt ex with
  | Some t => if t =? 0 then now - ex_startedAt ex else t - ex_startedAt ex
  | None => now - ex_startedAt ex
  end.

(** A card of a scenario. *)
Record ScenarioCard := MkCard {
  sd_status : string;
  sd_passedCount : nat;
  sd_totalCount : nat;
  sd_error : option string;
  sd_failed : list (string * string)
}.

Definition status_of (r : TestResultStore.TestResult) : string := result_status_name (TestResultStore.tr_status (TestResultStore.tr_input r)).

Definition scenario_card (grouped : jmap string (list TestResultStore.TestResult)) (run : ScenarioRunStore.ScenarioRun) : ScenarioCard :=
  let scenarioResults := default [] (grouped !! ScenarioRunStore.run_scenarioId run) in
  MkCard
    (deriveScenarioStatus (map status_of scenarioResults) (Some (scenario_status_name (ScenarioRunStore.run_status run))))
    (length (filter (fun r => status_of r = "passed") scenarioResults))
    (length scenarioResults)
    (match ScenarioRunStore.run_error run with Some e => if str_truthy (js_trim e) then Some (js_trim e) else None | None => None end)
    (omap (fun r =>
       if decide (status_of r = "failed")
       then match getBackendError (TestResultStore.tr_resultData (TestResultStore.tr_input r)) with
            | Some e => if str_truthy e then Some (TestResultStore.tr_testName (TestResultStore.tr_input r), e) else None
            | None => None
            end
       else None) scenarioResults).

(** The button that deletes the selected run, and what is selected afterwards. *)
Definition onDelete (selected : WorkflowExecution) : Action (option WorkflowExecution) :=
  clearExecution (ex_workflowRunId selected);; mret None.

Definition run_url (encodeURIComponent : string -> string) (workflowId : string) (selected : WorkflowExecution) : string :=
  "/workflow/" +:+ encodeURIComponent workflowId +:+ "/runs/" +:+ encodeURIComponent (ex_workflowRunId selected)
  +:+ "?projectId=" +:+ encodeURIComponent (ex_projectId selected).
End HistoryDialog.

(** ** The drawer *)
Module LogsDrawer.
Import ExecutionStore.

Section Drawer.
Context (parse_json : string -> option JsonValue).

Record LogLine := MkLine { ll_id : Z; ll_message : JsonValue }.

Record Drawer := MkDrawer {
  dw_storedHistory : list LogLine;
  dw_historyRunId : option string;
  dw_historyBefore : option Z;
  dw_historyHasMore : bool;
  dw_historyLoading : bool
}.

Definition initial : Drawer := MkDrawer [] None None true false.

Definition isActive (ex : WorkflowExecution) : bool :=
  match ex_status ex with WPending | WRunning | WCancelling => true | _ => false end.

Definition sameRun (ex : WorkflowExecution) (d : Drawer) : bool := bool_decide (dw_historyRunId d = Some (ex_workflowRunId ex)).

Definition visibleStoredHistory (ex : WorkflowExecution) (d : Drawer) : list LogLine :=
  if sameRun ex d then dw_storedHistory d else [].
Definition visibleHistoryHasMore (ex : WorkflowExecution) (d : Drawer) : bool :=
  if sameRun ex d then dw_historyHasMore d else true.

Definition displayedLogs (ex : WorkflowExecution) (d : Drawer) : list JsonValue :=
  if (0 <? length (visibleStoredHistory ex d))%nat then map ll_message (reverse (visibleStoredHistory ex d))
  else map JStr (ex_logs ex).

(** The button below the log. *)
Definition button_shown (ex : WorkflowExecution) : bool := negb (isActive ex).
Definition button_enabled (ex : WorkflowExecution) (d : Drawer) : bool :=
  negb (dw_historyLoading d) && visibleHistoryHasMore ex d.

(** *** Loading a page

    A click reads the run and the cursor; the reply or the failure comes later, when
    another run may be shown. *)
Record Request := MkRequest { rqd_run : string; rqd_project : string; rqd_same : bool; rqd_before : option Z }.

Definition load_started (ex : WorkflowExecution) (d : Drawer) : Request * Drawer :=
  (MkRequest (ex_workflowRunId ex) (ex_projectId ex) (sameRun ex d) (if sameRun ex d then dw_historyBefore d else None),
   MkDrawer (dw_storedHistory d) (dw_historyRunId d) (dw_historyBefore d) (dw_historyHasMore d) true).

(** [payload.message || event.payload]; what is no JSON, or is [null], is shown as it is. *)
Definition message_of (payload : string) : JsonValue :=
  match parse_json payload with
  | Some (JObj fields) =>
      match assoc_get "message" fields with
      | Some m => if json_truthy m then m else JStr payload
      | None => JStr payload
      end
  | _ => JStr payload
  end.

Definition parsed (event : StoredEvent) : LogLine := MkLine (st_id event) (message_of (st_payload event)).

Definition load_finished (rq : Request) (page : WorkflowLogPage) (d : Drawer) : Drawer :=
  let lines := map parsed (pg_events page) in
  MkDrawer (if rqd_same rq then dw_storedHistory d ++ lines else lines) (Some (rqd_run rq)) (pg_nextBefore page)
    (pg_hasMore page) false.

Definition load_failed (d : Drawer) : Drawer :=
  MkDrawer (dw_storedHistory d) (dw_historyRunId d) (dw_historyBefore d) (dw_historyHasMore d) false.

(** The page size a request has when none is given. *)
Definition default_limit : Z := 100.

(** The handler as a whole. *)
Definition loadStoredHistory {R} (fetcher : ApiRequest -> R -> ApiReply WorkflowLogPage * R) (ex : WorkflowExecution) (d : Drawer)
    : Proc R Drawer :=
  let '(rq, d1) := load_started ex d in
  catch (page ← fetchWorkflowRunLogs fetcher (rqd_run rq) (rqd_project rq) (rqd_before rq) default_limit;
         mret (load_finished rq page d1))
        (fun _ => mret (load_failed d1)).

(** ** The header of the drawer *)
Definition elapsed_seconds (now : Z) (ex : WorkflowExecution) : Z :=
  Z.max 0 (match ex_finishedAt ex with
           | Some t => if t =? 0 then now - ex_startedAt ex else t - ex_startedAt ex
           | None => now - ex_startedAt ex
           end / 1000).

Definition connection_label (ex : WorkflowExecution) (realtimeConnected : bool) : string :=
  if negb (isActive ex) then "Finished" else if realtimeConnected then "Live" else "Reconnecting".

Definition activity_seconds (now : Z) (ex : WorkflowExecution) (lastActivityAt : option Z) : option Z :=
  match lastActivityAt with
  | Some t => if isActive ex && negb (t =? 0) then Some (Z.max 0 ((now - t) / 1000)) else None
  | None => None
  end.

Definition cancel_disabled (ex : WorkflowExecution) (cancelPending : bool) : bool :=
  cancelPending || match ex_status ex with WCancelling => true | _ => false end.

Definition button_text (ex : WorkflowExecution) (d : Drawer) : string :=
  if dw_historyLoading d then "Loading stored logs…"
  else if (length (visibleStoredHistory ex d) =? 0)%nat then "Browse stored log history"
  else if visibleHistoryHasMore ex d then "Load earlier logs" else "All stored logs loaded".
End Drawer.
End LogsDrawer.

(** * What the views of past runs show *)

Module DrawerFacts.
Import ExecutionStore LogsDrawer.

Section Drawer.
Context (parse_json : string -> option JsonValue).

(** ** The drawer, the runner and what happens while it is open *)
Record System := MkSystem {
  sy_log : RunnerLog;
  sy_drawer : Drawer;
  sy_shown : WorkflowExecution;
  sy_request : option Request
}.

Inductive drawer_step : System -> System -> Prop :=
| step_log log log' d ex rq : grown log log' -> log_ordered log' ->
    drawer_step (MkSystem log d ex rq) (MkSystem log' d ex rq)
| step_show log d ex ex' rq : drawer_step (MkSystem log d ex rq) (MkSystem log d ex' rq)
| step_click log d ex : button_shown ex = true -> button_enabled ex d = true ->
    drawer_step (MkSystem log d ex None) (MkSystem log (load_started ex d).2 ex (Some (load_started ex d).1))
| step_reply log log' d ex rq page :
    run (fetchWorkflowRunLogs log_fetcher (rqd_run rq) (rqd_project rq) (rqd_before rq) default_limit) log = (Return page, log') ->
    drawer_step (MkSystem log d ex (Some rq)) (MkSystem log' (load_finished parse_json rq page d) ex None)
| step_fail log d ex rq : drawer_step (MkSystem log d ex (Some rq)) (MkSystem log (load_failed d) ex None).

Inductive reachable (log : RunnerLog) (ex : WorkflowExecution) : System -> Prop :=
| reach_open : reachable log ex (MkSystem log initial ex None)
| reach_step s s' : reachable log ex s -> drawer_step s s' -> reachable log ex s'.

(** The lines kept are those of the newest rows of a log the run had, without a gap. *)
Definition history_of (r : string) (d : Drawer) (log : RunnerLog) : Prop :=
  exists L P R, grown L log /\ log_ordered L /\ reverse (run_rows r L) = P ++ R
  /\ dw_storedHistory d = map (parsed parse_json) P
  /\ dw_historyHasMore d = bool_decide (R <> [])
  /\ match last P with Some e => dw_historyBefore d = Some (st_id e) | None => R = [] end.

Definition request_ok (d : Drawer) (rq : Request) : Prop :=
  if rqd_same rq then dw_historyRunId d = Some (rqd_run rq) /\ rqd_before rq = dw_historyBefore d /\ dw_historyHasMore d = true
  else rqd_before rq = None.

Definition drawer_inv (s : System) : Prop :=
  log_ordered (sy_log s)
  /\ dw_historyLoading (sy_drawer s) = bool_decide (is_Some (sy_request s))
  /\ (forall r, dw_historyRunId (sy_drawer s) = Some r -> history_of r (sy_drawer s) (sy_log s))
  /\ (forall rq, sy_request s = Some rq -> request_ok (sy_drawer s) rq).

Lemma page_answered r p before limit log page log' : log_ordered log ->
  run (fetchWorkflowRunLogs log_fetcher r p before limit) log = (Return page, log') -> serves r p log /\ log' = log.
Proof.
  intros Ho H. unfold fetchWorkflowRunLogs in H. set (q := match before with Some _ => _ | None => _ end) in H.
  assert (Hq : query_get "projectId" q = p) by (subst q; destruct before as [b|]; [by destruct (b =? 0)|done]).
  cbn [run fetch mbind Proc_bind] in H. unfold log_fetcher, ListWorkflowRunLogs in H. cbn [rq_path rq_query fst snd] in H.
  rewrite Hq in H. destruct (lg_worker log) eqn:Ew; [|by vm_compute in H]. cbn [negb] in H.
  destruct (bool_decide _) eqn:Eb; [by vm_compute in H|]. apply bool_decide_eq_false in Eb.
  split; [|].
  - split; [done|]. split; [done|]. split; [tauto|]. destruct (decide (lg_projects log !! r = Some p)); tauto.
  - destruct (ListWorkflowLogEventsBefore _ _ _ _). by injection H.
Qed.

Lemma fetched_page r p before log : serves r p log -> (forall b, before = Some b -> 0 < b < 2 ^ 53) ->
  run (fetchWorkflowRunLogs log_fetcher r p before default_limit) log
  = (Return (page_of default_limit (reverse (rows_before before (run_rows r log)))), log).
Proof.
  intros Hs Hb.
  pose proof (logs_reply r p before default_limit log mret (fun _ d => d) 0 log eq_refl Hs ltac:(done) Hb) as E.
  rewrite (run_under_ret _ _ _ (fun a => a)), run_under_alone in E.
  destruct (run _ log) as [[page|e] d] in E |- *; simpl in E; by simplify_eq.
Qed.

Lemma answered_page r p before log page log' : log_ordered log ->
  (forall b, before = Some b -> 0 < b < 2 ^ 53) ->
  run (fetchWorkflowRunLogs log_fetcher r p before default_limit) log = (Return page, log') ->
  page = page_of default_limit (reverse (rows_before before (run_rows r log))) /\ log' = log.
Proof.
  intros Ho Hb H. destruct (page_answered _ _ _ _ _ _ _ Ho H) as [Hs ->]. rewrite fetched_page in H by done. by injection H.
Qed.

(** A page ends where the rest begins. *)
Lemma page_split rows : exists P R, rows = P ++ R /\ pg_events (page_of default_limit rows) = P
  /\ pg_hasMore (page_of default_limit rows) = bool_decide (R <> [])
  /\ match last P with
     | Some e => pg_nextBefore (page_of default_limit rows) = Some (st_id e)
     | None => rows = []
     end.
Proof.
  unfold page_of. set (n := Z.to_nat (page_limit default_limit)). exists (take n rows), (drop n rows). cbn.
  split; [by rewrite take_drop|]. split; [done|]. split.
  - apply bool_decide_ext. rewrite <- length_zero_iff_nil, length_drop. lia.
  - destruct (last (take n rows)) as [e|] eqn:E; [done|]. apply last_None in E. destruct rows; done.
Qed.

Lemma finished_history rq d log page L P R :
  grown L log -> log_ordered L -> reverse (run_rows (rqd_run rq) L) = P ++ R ->
  (if rqd_same rq then dw_storedHistory d = map (parsed parse_json) P else P = []) -> page = page_of default_limit R ->
  (P <> [] -> R <> []) ->
  history_of (rqd_run rq) (load_finished parse_json rq page d) log.
Proof.
  intros Hg Ho Er Hst -> Hne. destruct (page_split R) as (P' & R' & Es & Ep & Em & El).
  exists L, (P ++ P'), R'. split_and!; [done|done|by rewrite Er, Es, app_assoc| |exact Em|].
  - unfold load_finished. cbn [dw_storedHistory]. rewrite Ep, map_app. destruct (rqd_same rq); [by rewrite Hst|by rewrite Hst].
  - rewrite last_app. destruct (last P') as [e|] eqn:E; [exact El|]. destruct P as [|x P].
    + cbn. subst R. by apply app_eq_nil in El as [_ ->].
    + exfalso. by apply Hne.
Qed.

(** The page that comes for a run whose history is kept is the next one of it. *)
Lemma next_page log log' d ex rq page : drawer_inv (MkSystem log d ex (Some rq)) -> rqd_same rq = true ->
  run (fetchWorkflowRunLogs log_fetcher (rqd_run rq) (rqd_project rq) (rqd_before rq) default_limit) log = (Return page, log') ->
  exists L P R, grown L log /\ log_ordered L /\ reverse (run_rows (rqd_run rq) L) = P ++ R
  /\ dw_storedHistory d = map (parsed parse_json) P /\ R <> [] /\ page = page_of default_limit R /\ log' = log.
Proof.
  intros (Ho & _ & Hh & Hr) Es Hrun. cbn in Ho, Hh, Hr. specialize (Hr rq eq_refl). unfold request_ok in Hr. rewrite Es in Hr.
  destruct Hr as (Hid & Hb & Hmore). destruct (Hh _ Hid) as (L & P & R & Hg & HoL & Er & Hst & Hm & Hl).
  assert (HR : R <> []) by (rewrite Hmore in Hm; symmetry in Hm; by apply bool_decide_eq_true in Hm).
  destruct (last P) as [e|] eqn:El; [|done]. apply last_Some in El as [P' ->]. rewrite Hl in Hb.
  assert (He : e ∈ run_rows (rqd_run rq) L).
  { apply elem_of_reverse. rewrite Er, !elem_of_app. left. right. apply list_elem_of_singleton. done. }
  rewrite Hb in Hrun. apply answered_page in Hrun as [-> ->]; [|done|intros b [= <-]; by apply (run_rows_ids (rqd_run rq) L)].
  exists L, (P' ++ [e]), R. split_and!; try done.
  rewrite (rows_before_grown L log _ e Ho Hg He), (rows_below P' e R (run_rows (rqd_run rq) L)); [done| |done].
  apply reverse_descending, run_rows_ascending, HoL.
Qed.

Lemma reply_inv log log' d ex rq page : drawer_inv (MkSystem log d ex (Some rq)) ->
  run (fetchWorkflowRunLogs log_fetcher (rqd_run rq) (rqd_project rq) (rqd_before rq) default_limit) log = (Return page, log') ->
  drawer_inv (MkSystem log' (load_finished parse_json rq page d) ex None).
Proof.
  intros Hi Hrun. pose proof Hi as (Ho & _ & _ & Hr). specialize (Hr rq eq_refl). unfold request_ok in Hr.
  destruct (rqd_same rq) eqn:Es.
  - destruct (next_page _ _ _ _ _ _ Hi Es Hrun) as (L & P & R & Hg & HoL & Er & Hst & HR & -> & ->).
    split_and!; [done|done| |done]. intros r [= <-]. eapply (finished_history rq d log _ L P R); try done. by rewrite Es.
  - rewrite Hr in Hrun. apply answered_page in Hrun as [-> ->]; [|done|done].
    split_and!; [done|done| |done]. intros r [= <-].
    eapply (finished_history rq d log _ log [] (reverse (run_rows (rqd_run rq) log))); try done. by rewrite Es.
Qed.

Lemma step_inv s s' : drawer_inv s -> drawer_step s s' -> drawer_inv s'.
Proof.
  intros Hi H. destruct H as [log log' d ex rq Hg Ho|log d ex ex' rq|log d ex Hs He|log log' d ex rq page Hrun|log d ex rq].
  - destruct Hi as (_ & Hl & Hh & Hr). split_and!; [done|done| |done]. intros r Hid. cbn in *.
    destruct (Hh r Hid) as (L & P & R & HgL & ?). exists L, P, R. split; [|done]. by etrans.
  - exact Hi.
  - destruct Hi as (Ho & Hl & Hh & _). split_and!; [done|done|exact Hh|]. intros rq [= <-]. cbn. unfold request_ok. cbn.
    apply andb_true_iff in He as [_ Hm]. unfold visibleHistoryHasMore in Hm.
    destruct (sameRun ex d) eqn:E; [|done]. apply bool_decide_eq_true in E. done.
  - by eapply reply_inv.
  - destruct Hi as (Ho & _ & Hh & _). by split_and!.
Qed.

Lemma reachable_inv log ex s : log_ordered log -> reachable log ex s -> drawer_inv s.
Proof. intros Ho. induction 1 as [|s s' _ IH Hs]; [by split_and!|by eapply step_inv]. Qed.


(** ** Clicks of one run

    The button is clicked, and the page comes before it is clicked again. *)
Definition click (log : RunnerLog) (ex : WorkflowExecution) (d : Drawer) : Drawer :=
  if button_enabled ex d
  then match run (loadStoredHistory parse_json log_fetcher ex d) log with (Return d', _) => d' | (Throw _, _) => d end
  else d.

Definition page_rows : nat := Z.to_nat default_limit.

(** What is kept after [k] pages. *)
Definition pages_kept (r : string) (log : RunnerLog) (k : nat) (d : Drawer) : Prop :=
  let rows := reverse (run_rows r log) in let P := take (k * page_rows) rows in
  dw_storedHistory d = map (parsed parse_json) P /\ dw_historyRunId d = Some r /\ dw_historyLoading d = false
  /\ dw_historyHasMore d = bool_decide (k * page_rows < length rows)%nat
  /\ dw_historyBefore d = Some (match last P with Some e => st_id e | None => 0 end).

Lemma click_page log ex d rows before : serves (ex_workflowRunId ex) (ex_projectId ex) log -> button_enabled ex d = true ->
  before = (if sameRun ex d then dw_historyBefore d else None) -> (forall b, before = Some b -> 0 < b < 2 ^ 53) ->
  rows = reverse (rows_before before (run_rows (ex_workflowRunId ex) log)) ->
  click log ex d = load_finished parse_json (load_started ex d).1 (page_of default_limit rows) (load_started ex d).2.
Proof.
  intros Hs He -> Hb ->. unfold click. rewrite He. unfold loadStoredHistory. cbn [load_started fst snd rqd_run rqd_project rqd_before].
  by rewrite run_catch, run_bind, fetched_page.
Qed.

Lemma first_click log ex d : serves (ex_workflowRunId ex) (ex_projectId ex) log ->
  sameRun ex d = false -> dw_historyLoading d = false -> pages_kept (ex_workflowRunId ex) log 1 (click log ex d).
Proof.
  intros Hs Hn Hl. rewrite (click_page log ex d (reverse (run_rows (ex_workflowRunId ex) log)) None); try done.
  2: { unfold button_enabled, visibleHistoryHasMore. by rewrite Hl, Hn. }
  2: by rewrite Hn.
  unfold pages_kept, load_finished. cbn [load_started fst snd rqd_same rqd_run]. rewrite Hn, Nat.mul_1_l. done.
Qed.

Lemma next_click log ex d k : serves (ex_workflowRunId ex) (ex_projectId ex) log -> (0 < k)%nat ->
  pages_kept (ex_workflowRunId ex) log k d -> pages_kept (ex_workflowRunId ex) log (S k) (click log ex d).
Proof.
  intros Hs Hk (Hst & Hid & Hl & Hm & Hb). set (r := ex_workflowRunId ex) in *. set (rows := reverse (run_rows r log)) in *.
  assert (Hsame : sameRun ex d = true) by (by apply bool_decide_eq_true).
  assert (He : button_enabled ex d = bool_decide (k * page_rows < length rows)%nat).
  { unfold button_enabled, visibleHistoryHasMore. by rewrite Hl, Hsame, Hm. }
  destruct (decide (k * page_rows < length rows)%nat) as [Hlt|Hge].
  2: { unfold click. rewrite He, bool_decide_false by done. unfold pages_kept. fold rows.
       rewrite !take_ge in * by lia. split_and!; try done. rewrite Hm. apply bool_decide_ext. lia. }
  rewrite bool_decide_true in He by done.
  destruct (last (take (k * page_rows) rows)) as [e|] eqn:El.
  2: { apply last_None in El. apply (f_equal length) in El. rewrite length_take in El.
       assert (page_rows = 100%nat) by reflexivity. cbn [length] in El. lia. }
  destruct (proj1 (last_Some _ _) El) as [P' EP].
  assert (Hsplit : reverse (run_rows r log) = (P' ++ [e]) ++ drop (k * page_rows) rows) by (by rewrite <- EP, take_drop).
  assert (He' : e ∈ run_rows r log) by (apply elem_of_reverse; rewrite Hsplit, !elem_of_app, list_elem_of_singleton; tauto).
  destruct Hs as (Ho & Hrest).
  rewrite (click_page log ex d (drop (k * page_rows) rows) (Some (st_id e))); try done.
  - unfold pages_kept, load_finished. cbn [load_started fst snd rqd_same rqd_run dw_storedHistory]. fold r rows. rewrite Hsame.
    unfold page_of. change (Z.to_nat (page_limit default_limit)) with page_rows. cbn [pg_events pg_hasMore pg_nextBefore dw_storedHistory dw_historyRunId dw_historyLoading dw_historyHasMore dw_historyBefore].
    replace (S k * page_rows)%nat with (k * page_rows + page_rows)%nat by lia. rewrite <- take_take_drop. split_and!; try done.
    + by rewrite Hst, map_app.
    + apply bool_decide_ext. rewrite length_drop. lia.
    + rewrite last_app. destruct (last (take page_rows (drop _ rows))) eqn:E2; [done|]. apply last_None in E2.
      apply (f_equal length) in E2. rewrite length_take, length_drop in E2. assert (page_rows = 100%nat) by reflexivity. cbn [length] in E2. lia.
  - by rewrite Hsame.
  - intros b [= <-]. by apply (run_rows_ids r log).
  - symmetry. apply (rows_below P' e); [|done]. by apply reverse_descending, run_rows_ascending.
Qed.

(** Every click shows a page more: after [k] of them the last [100 k] lines of the run
    are shown, oldest first, and the button is out of use once that is all of them.
    So a log of [n] lines takes [n / 100] clicks, rounded up. *)
Theorem clicks_show_log log ex k : serves (ex_workflowRunId ex) (ex_projectId ex) log -> (0 < k)%nat ->
  let rows := run_rows (ex_workflowRunId ex) log in let d := Nat.iter k (click log ex) initial in
  (rows <> [] -> displayedLogs ex d = map (fun e => message_of parse_json (st_payload e)) (drop (length rows - k * 100) rows))
  /\ visibleHistoryHasMore ex d = bool_decide (k * 100 < length rows)%nat.
Proof.
  intros Hs Hk rows d.
  assert (Hp : pages_kept (ex_workflowRunId ex) log k d).
  { subst d. destruct k as [|k]; [lia|]. clear Hk. induction k as [|k IH]; [by apply first_click|].
    change (Nat.iter (S (S k)) (click log ex) initial) with (click log ex (Nat.iter (S k) (click log ex) initial)).
    apply next_click; [done|lia|done]. }
  destruct Hp as (Hst & Hid & _ & Hm & _).
  unfold displayedLogs, visibleStoredHistory, visibleHistoryHasMore, sameRun. rewrite (bool_decide_true _ Hid).
  rewrite Hm, length_reverse. split; [|done]. intros Hne. rewrite Hst, length_map, length_take, length_reverse.
  fold rows. destruct (Nat.ltb_spec 0 (Nat.min (k * page_rows) (length rows))) as [_|Hz].
  - rewrite <- fmap_reverse, take_reverse, reverse_involutive. exact (map_map (parsed parse_json) ll_message _).
  - destruct rows; [done|]. cbn in Hz. assert (page_rows = 100%nat) by reflexivity. lia.
Qed.
End Drawer.

(** ** Witness: a run of three lines among those of another *)
Definition demo_ended : WorkflowExecution :=
  MkExecution "r1" "p1" "w1" WCompleted ["live"] None None 0 (Some 9) [] None no_queue_info (MkMeta 1 "" "" "" "" false).
Definition no_json (payload : string) : option JsonValue := None.

Lemma clicks_show_log_witness :
  displayedLogs demo_ended (Nat.iter 1 (click no_json demo_log demo_ended) initial) = [JStr "a"; JStr "bad"; JStr "b"].
Proof.
  destruct (clicks_show_log no_json demo_log demo_ended 1 demo_log_serves (Nat.lt_0_succ 0)) as [H _].
  rewrite H; [reflexivity|by vm_compute].
Defined.

End DrawerFacts.

Module HistoryFacts.
Import ExecutionStore HistoryDialog.

(** ** Grouping *)
Definition in_scenario (ex : WorkflowExecution) (scenarioId : string) (r : TestResultStore.TestResult) : Prop :=
  of_run ex r = true /\ TestResultStore.tr_scenarioId (TestResultStore.tr_input r) = Some scenarioId.
#[export] Instance in_scenario_dec ex s r : Decision (in_scenario ex s r).
Proof. unfold in_scenario. apply _. Defined.

Lemma group_step ex grouped r s :
  default [] (group_result ex grouped r !! s) = default [] (grouped !! s) ++ (if decide (in_scenario ex s r) then [r] else []).
Proof.
  unfold group_result. assert (Hi : in_scenario ex s r <-> of_run ex r = true
    /\ TestResultStore.tr_scenarioId (TestResultStore.tr_input r) = Some s) by done.
  destruct (of_run ex r) eqn:E; [|by rewrite decide_False, app_nil_r by (rewrite Hi; naive_solver)].
  destruct (TestResultStore.tr_scenarioId (TestResultStore.tr_input r)) as [id|] eqn:Ei.
  2: { unfold of_run in E. rewrite Ei, andb_false_r in E. done. }
  cbn zeta. cbn [default from_option]. rewrite jlookup_insert.
  destruct (decide (in_scenario ex s r)) as [H|H]; rewrite Hi in H.
  - destruct H as [_ [= ->]]. by rewrite decide_True.
  - rewrite decide_False by naive_solver. by rewrite app_nil_r.
Qed.

(** The results shown under a scenario are those the store has for it in this run, in
    the order of the store: none of another run, none deleted, none left out. *)
Theorem results_grouped testResultsMap ex scenarioId :
  default [] (resultsByScenario testResultsMap (Some ex) !! scenarioId)
  = filter (in_scenario ex scenarioId) (jvalues testResultsMap).
Proof.
  unfold resultsByScenario. enough (H : forall l g, default [] (fold_left (group_result ex) l g !! scenarioId)
    = default [] (g !! scenarioId) ++ filter (in_scenario ex scenarioId) l) by (by rewrite H).
  induction l as [|r l IH]; intros g; cbn [fold_left]; [by rewrite app_nil_r|].
  rewrite IH, group_step, filter_cons, <- app_assoc. f_equal. by case_decide.
Qed.

(** ** Status of a scenario *)
Lemma derived_status statuses fallback : statuses <> [] ->
  (deriveScenarioStatus statuses fallback = "failed" <-> "failed" ∈ statuses)
  /\ (deriveScenarioStatus statuses fallback = "completed" <-> Forall (fun s => s = "passed") statuses)
  /\ (deriveScenarioStatus statuses fallback = "running" <-> "failed" ∉ statuses /\ ~ Forall (fun s => s = "passed") statuses).
Proof.
  intros Hne. unfold deriveScenarioStatus. destruct statuses as [|x l]; [done|]. cbn [length Nat.eqb].
  set (ss := x :: l) in *.
  assert (Hf : existsb (fun s => bool_decide (s = "failed")) ss = true <-> "failed" ∈ ss).
  { rewrite existsb_exists. split.
    - intros (y & Hy%list_elem_of_In & ->%bool_decide_eq_true). done.
    - intros Hy%list_elem_of_In. exists "failed". by split. }
  assert (Hp : forallb (fun s => bool_decide (s = "passed")) ss = true <-> Forall (fun s => s = "passed") ss).
  { rewrite forallb_forall, Forall_forall. setoid_rewrite <- list_elem_of_In. setoid_rewrite bool_decide_eq_true. done. }
  assert (Hn : existsb (fun s => bool_decide (s = "failed")) ss = true -> forallb (fun s => bool_decide (s = "passed")) ss = true -> False).
  { intros H%Hf HP%Hp. rewrite Forall_forall in HP. by apply HP in H. }
  rewrite <- Hf, <- Hp. clear Hf Hp. destruct (existsb _ ss), (forallb _ ss); cbn; [by destruct Hn|..]; by intuition.
Qed.

(** The status stored for the run is not looked at once one result is there: a scenario
    that is still running is shown as completed while the results so far have passed. *)
Example running_shown_completed : deriveScenarioStatus ["passed"] (Some "running") = "completed"
  /\ deriveScenarioStatus ["passed"] (Some "failed") = "completed" /\ deriveScenarioStatus ["passed"; "skipped"] (Some "cancelled") = "running".
Proof. done. Qed.

(** ** The list of runs *)
#[export] Instance newest_run_comparator : Comparator newest_run.
Proof. split; unfold cmp_le, newest_run; intros; lia. Qed.

Lemma history_newest_first workflowId m :
  StronglySorted (fun a b => ex_startedAt b <= ex_startedAt a) (HistoryDialog.executions workflowId m)
  /\ forall ex, ex ∈ HistoryDialog.executions workflowId m
     <-> ex ∈ jvalues m /\ ex_workflowId ex = workflowId /\ is_deleted (ex_meta ex) = false.
Proof.
  unfold HistoryDialog.executions. split.
  - eapply StronglySorted_weaken; [|apply js_sort_sorted; apply _]. unfold cmp_le, newest_run. intros; simpl in *; lia.
  - intros ex. rewrite elem_of_js_sort, list_elem_of_filter. tauto.
Qed.
End HistoryFacts.
