(* ===== verification/Docs.v ===== *)
(** * The documentation: [ui-v2/src/modules/docs/registry.ts], [content.ts],
      [components/docs-search.tsx] and the pages under [app/docs]

    The articles with their sections and headings, the loaders of their text, what an
    article page shows, the search, and the links of the guided builder into them. *)

From S2P Require Import Prelude FlowTypes JsLib Process JsonParse Accounts RegistryFacts.
From Stdlib Require Import Ascii.
Open Scope Z_scope.

Module Docs.
Inductive DocsSectionId := StartDocs | ConceptsDocs | GuidesDocs | AgentsDocs | OperationsDocs | ArchitectureDocs | ReferenceDocs.
#[export] Instance DocsSectionId_eq_dec : EqDecision DocsSectionId.
Proof. solve_decision. Defined.

Record DocHeading := MkHeading { hd_id : string; hd_title : string }.

Record DocEntry := MkDoc {
  doc_slug : string;
  doc_title : string;
  doc_summary : string;
  doc_section : DocsSectionId;
  doc_keywords : list string;
  doc_headings : list DocHeading
}.

Record DocsSection := MkSection { ds_id : DocsSectionId; ds_title : string; ds_description : string }.

Definition docsSections : list DocsSection :=
  [MkSection StartDocs "Start here" "Understand Tokyo Tester and complete a first run.";
   MkSection ConceptsDocs "Concepts" "The mental model behind environments and execution.";
   MkSection GuidesDocs "Build and test" "Practical guides for authoring and debugging workflows.";
   MkSection AgentsDocs "Coding agents" "Connect agents without surrendering control of runs.";
   MkSection OperationsDocs "Operate" "Develop, deploy, upgrade, recover, and troubleshoot.";
   MkSection ArchitectureDocs "Architecture" "How the UI, durable runner, and realtime paths cooperate.";
   MkSection ReferenceDocs "Reference" "Exact providers, executors, formats, states, and terms."].

Definition start_docs : list DocEntry :=
  [MkDoc "start/what-is-tokyo-tester" "What is Tokyo Tester?"
     "A plain-language tour of the problem, product, and people it serves." StartDocs
     ["overview"; "product"; "staging"; "end-to-end"]
     [MkHeading "the-short-version" "The short version"; MkHeading "what-it-replaces" "What it replaces"; MkHeading "who-it-is-for" "Who it is for"; MkHeading "what-a-run-does" "What a run does"];
   MkDoc "start/philosophy" "Philosophy"
     "Why Tokyo Tester favors isolated systems, real dependencies, and evidence." StartDocs
     ["principles"; "isolation"; "repeatability"; "local-first"]
     [MkHeading "systems-over-endpoints" "Systems over endpoints"; MkHeading "isolation-over-coordination" "Isolation over coordination"; MkHeading "evidence-over-guesswork" "Evidence over guesswork"; MkHeading "automation-with-boundaries" "Automation with boundaries"];
   MkDoc "start/quick-start" "Quick start"
     "Start the local stack, create the first account, and open the builder." StartDocs
     ["install"; "make dev"; "docker"; "setup"]
     [MkHeading "prerequisites" "Prerequisites"; MkHeading "start-the-stack" "Start the stack"; MkHeading "first-sign-in" "First sign-in"; MkHeading "stop-or-reset" "Stop or reset"];
   MkDoc "start/first-workflow" "Build your first workflow"
     "Model an API and PostgreSQL, run two checks, and read the result." StartDocs
     ["tutorial"; "workflow"; "postgres"; "scenario"]
     [MkHeading "the-system" "The system"; MkHeading "build-the-graph" "Build the graph"; MkHeading "add-a-scenario" "Add a scenario"; MkHeading "run-and-read" "Run and read"]].

Definition concepts_docs : list DocEntry :=
  [MkDoc "concepts/service-environments" "Service environments"
     "How nodes, dependencies, networks, and readiness form an executable system." ConceptsDocs
     ["graph"; "services"; "edges"; "readiness"; "docker network"]
     [MkHeading "from-diagram-to-environment" "From diagram to environment"; MkHeading "nodes" "Nodes"; MkHeading "connections" "Connections"; MkHeading "readiness" "Readiness"];
   MkDoc "concepts/workflows-scenarios-tests" "Workflows, scenarios, and tests"
     "The three layers that describe a system and the journeys through it." ConceptsDocs
     ["workflow"; "scenario"; "test"; "ordered steps"]
     [MkHeading "workflow" "Workflow"; MkHeading "scenario" "Scenario"; MkHeading "test" "Test"; MkHeading "choosing-boundaries" "Choosing boundaries"];
   MkDoc "concepts/execution-lifecycle" "Execution lifecycle"
     "What happens from Run to durable results and cleanup." ConceptsDocs
     ["run"; "provision"; "cleanup"; "results"; "lifecycle"]
     [MkHeading "lifecycle-at-a-glance" "Lifecycle at a glance"; MkHeading "provisioning" "Provisioning"; MkHeading "scenario-execution" "Scenario execution"; MkHeading "terminal-states" "Terminal states"]].

Definition guides_docs : list DocEntry :=
  [MkDoc "guides/build-service-graph" "Build a service graph"
     "Model runtime services, dependencies, and startup requirements." GuidesDocs
     ["builder"; "guided"; "expert"; "edges"; "relations"]
     [MkHeading "choose-a-builder-mode" "Choose a builder mode"; MkHeading "add-services" "Add services"; MkHeading "connect-services" "Connect services"; MkHeading "review-the-graph" "Review the graph"];
   MkDoc "guides/configure-services" "Configure services and infrastructure"
     "Images, commands, ports, health checks, environment, and registry secrets." GuidesDocs
     ["image"; "ports"; "healthcheck"; "environment"; "registry"]
     [MkHeading "application-services" "Application services"; MkHeading "managed-dependency-nodes" "Dependency nodes"; MkHeading "health-and-startup" "Health and startup"; MkHeading "private-images" "Private images"];
   MkDoc "guides/write-scenarios" "Write scenarios"
     "Turn user journeys and failure hypotheses into ordered test steps." GuidesDocs
     ["scenario"; "recipes"; "assertions"; "steps"]
     [MkHeading "start-with-an-outcome" "Start with an outcome"; MkHeading "use-recipes" "Use recipes"; MkHeading "order-the-steps" "Order the steps"; MkHeading "assert-what-matters" "Assert what matters"];
   MkDoc "guides/run-and-debug" "Run and debug"
     "Select scenarios, follow execution, and turn failures into fixes." GuidesDocs
     ["execute"; "logs"; "diagnostics"; "failure"; "cancel"]
     [MkHeading "before-you-run" "Before you run"; MkHeading "follow-the-run" "Follow the run"; MkHeading "read-a-failure" "Read a failure"; MkHeading "cancel-and-clean-up" "Cancel and clean up"];
   MkDoc "guides/import-export-revisions" "Import, export, and revisions"
     "Move workflows safely and recover earlier definitions without losing history." GuidesDocs
     ["json"; "bundle"; "clone"; "revision"; "restore"]
     [MkHeading "portable-bundles" "Portable bundles"; MkHeading "import-and-validation" "Import and validation"; MkHeading "immutable-revisions" "Immutable revisions"; MkHeading "restore-safely" "Restore safely"];
   MkDoc "guides/workspaces-permissions" "Workspaces and permissions"
     "Separate personal and team work while controlling who can edit, run, or manage." GuidesDocs
     ["project"; "workspace"; "owner"; "editor"; "runner"]
     [MkHeading "workspace-types" "Workspace types"; MkHeading "roles" "Roles"; MkHeading "agent-scopes" "Agent scopes"; MkHeading "practical-policy" "Practical policy"]].

Definition agents_docs : list DocEntry :=
  [MkDoc "agents/overview" "Agent integration overview"
     "What the local skill and authenticated MCP server each do." AgentsDocs
     ["mcp"; "skill"; "coding agent"; "repositories"]
     [MkHeading "two-parts-one-boundary" "Two parts, one boundary"; MkHeading "what-stays-local" "What stays local"; MkHeading "what-mcp-can-do" "What MCP can do"; MkHeading "recommended-flow" "Recommended flow"];
   MkDoc "agents/connect" "Connect a coding agent"
     "Install the skill, authorize one workspace, and verify MCP." AgentsDocs
     ["token"; "oauth"; "install"; "agent setup"]
     [MkHeading "choose-authentication" "Choose authentication"; MkHeading "open-agent-setup" "Open Agent setup"; MkHeading "configure-the-client" "Configure the client"; MkHeading "verify-access" "Verify access"];
   MkDoc "agents/safe-authoring" "Safe agent authoring"
     "Research, review, validate, approve, import, run, and repair in controlled stages." AgentsDocs
     ["approval"; "validation receipt"; "idempotency"; "safety"]
     [MkHeading "research-first" "Research first"; MkHeading "review-the-plan" "Review the plan"; MkHeading "validate-before-mutation" "Validate before mutation"; MkHeading "approval-and-retries" "Approval and retries"];
   MkDoc "agents/mcp-reference" "MCP reference"
     "Resources, tools, scopes, mutation rules, and durable diagnostics." AgentsDocs
     ["tools"; "resources"; "scopes"; "MCP protocol"]
     [MkHeading "resources" "Resources"; MkHeading "read-tools" "Read tools"; MkHeading "write-and-run-tools" "Write and run tools"; MkHeading "authentication-and-limits" "Authentication and limits"]].

Definition operations_docs : list DocEntry :=
  [MkDoc "operations/local-development" "Local development"
     "Run the application and MCP adapter on a developer machine." OperationsDocs
     ["make dev"; "agent-dev"; "docker socket"; "development"]
     [MkHeading "canonical-start" "Canonical start"; MkHeading "runner-modes" "Runner modes"; MkHeading "agent-adapter" "Agent adapter"; MkHeading "daily-commands" "Daily commands"];
   MkDoc "operations/production" "Production deployment"
     "Deploy the supported single-host Docker Compose topology with Caddy." OperationsDocs
     ["compose"; "caddy"; "linux"; "deployment"; "production"]
     [MkHeading "supported-topology" "Supported topology"; MkHeading "prepare-the-host" "Prepare the host"; MkHeading "deploy-and-verify" "Deploy and verify"; MkHeading "kubernetes-status" "Kubernetes status"];
   MkDoc "operations/backup-upgrade-recovery" "Backup, upgrade, and recovery"
     "Protect durable state before releases and restore deliberately." OperationsDocs
     ["backup"; "upgrade"; "restore"; "incident"]
     [MkHeading "what-to-protect" "What to protect"; MkHeading "backup" "Backup"; MkHeading "upgrade" "Upgrade"; MkHeading "recover" "Recover"];
   MkDoc "operations/observability" "Logs and observability"
     "Open the private beta log UI, investigate incidents, and understand retention limits." OperationsDocs
     ["dozzle"; "logs"; "observability"; "SSH tunnel"; "rotation"]
     [MkHeading "open-the-log-ui" "Open the log UI"; MkHeading "investigate-an-incident" "Investigate an incident"; MkHeading "retention-and-resource-bounds" "Retention and resource bounds"; MkHeading "security-boundary" "Security boundary"];
   MkDoc "operations/troubleshooting" "Troubleshooting"
     "A symptom-first guide for startup, execution, connectivity, and cleanup failures." OperationsDocs
     ["doctor"; "logs"; "docker"; "failure"; "support"]
     [MkHeading "start-with-doctor" "Start with doctor"; MkHeading "services-do-not-start" "Services do not start"; MkHeading "tests-cannot-connect" "Tests cannot connect"; MkHeading "runs-or-cleanup-stall" "Runs or cleanup stall"]].

Definition architecture_docs : list DocEntry :=
  [MkDoc "architecture/system-overview" "System overview"
     "The UI authoring plane, durable worker, runner, and persistence boundary." ArchitectureDocs
     ["system"; "UI"; "runner"; "MySQL"; "architecture"]
     [MkHeading "major-components" "Major components"; MkHeading "authoring-path" "Authoring path"; MkHeading "execution-path" "Execution path"; MkHeading "ownership-boundaries" "Ownership boundaries"];
   MkDoc "architecture/state-sync-realtime" "State, sync, and realtime"
     "How optimistic browser state becomes durable data and reconciles live events." ArchitectureDocs
     ["zustand"; "sync"; "SSE"; "durable snapshot"; "events"]
     [MkHeading "browser-state" "Browser state"; MkHeading "sync-queue" "Sync queue"; MkHeading "realtime-fast-path" "Realtime fast path"; MkHeading "durable-source-of-truth" "Durable source of truth"];
   MkDoc "architecture/runner-durability" "Runner durability and isolation"
     "Networks, leases, checkpoints, resource limits, cancellation, and cleanup." ArchitectureDocs
     ["worker"; "lease"; "checkpoint"; "docker"; "limits"]
     [MkHeading "durable-work" "Durable work"; MkHeading "per-run-isolation" "Per-run isolation"; MkHeading "limits-and-cancellation" "Limits and cancellation"; MkHeading "recovery-and-cleanup" "Recovery and cleanup"];
   MkDoc "architecture/security" "Security model"
     "Workspace boundaries, transient secrets, agent authentication, and redaction." ArchitectureDocs
     ["security"; "secret"; "oauth"; "token"; "redaction"]
     [MkHeading "trust-boundaries" "Trust boundaries"; MkHeading "registry-credentials" "Registry credentials"; MkHeading "agent-authentication" "Agent authentication"; MkHeading "diagnostics-and-redaction" "Diagnostics and redaction"]].

Definition reference_docs : list DocEntry :=
  [MkDoc "reference/services" "Service reference"
     "Supported application and infrastructure node types." ReferenceDocs
     ["postgres"; "mysql"; "redis"; "kafka"; "rabbitmq"; "mongodb"; "nginx"; "mockserver"]
     [MkHeading "service-types" "Service types"; MkHeading "generic-services" "Generic services"; MkHeading "dependency-services" "Dependency services"; MkHeading "edge-relations" "Edge relations"];
   MkDoc "reference/tests" "Test and assertion reference"
     "Supported test executors, operations, and assertion families." ReferenceDocs
     ["http"; "database"; "document"; "cache"; "queue"; "shell"; "delay"]
     [MkHeading "test-types" "Test types"; MkHeading "http" "HTTP"; MkHeading "data-and-messaging" "Data and messaging"; MkHeading "shell-and-delay" "Shell and delay"];
   MkDoc "reference/workflow-bundle" "Workflow bundle v2"
     "The portable JSON boundary accepted by validation, import, and agent tools." ReferenceDocs
     ["schema"; "json"; "contract"; "bundle v2"]
     [MkHeading "bundle-shape" "Bundle shape"; MkHeading "validation" "Validation"; MkHeading "portability" "Portability"; MkHeading "size-and-compatibility" "Size and compatibility"];
   MkDoc "reference/run-statuses-limits" "Run statuses and limits"
     "Status meanings, terminal outcomes, queues, and runtime safeguards." ReferenceDocs
     ["pending"; "running"; "failed"; "partial_failed"; "cleanup_failed"]
     [MkHeading "statuses" "Statuses"; MkHeading "terminal-outcomes" "Terminal outcomes"; MkHeading "queues-and-estimates" "Queues and estimates"; MkHeading "resource-guards" "Resource guards"];
   MkDoc "reference/glossary" "Glossary"
     "The product vocabulary used throughout Tokyo Tester." ReferenceDocs
     ["terms"; "definitions"; "workflow run"; "scenario run"]
     [MkHeading "authoring-terms" "Authoring terms"; MkHeading "execution-terms" "Execution terms"; MkHeading "platform-terms" "Platform terms"]].

Definition docsEntries : list DocEntry :=
  start_docs ++ concepts_docs ++ guides_docs ++ agents_docs ++ operations_docs ++ architecture_docs ++ reference_docs.

(** ** Looking articles up *)
Definition getDoc (slug : string) : option DocEntry := List.find (fun e => bool_decide (doc_slug e = slug)) docsEntries.

Definition getDocsForSection (section : DocsSectionId) : list DocEntry := filter (fun e => doc_section e = section) docsEntries.

Definition doc_index (slug : string) : option nat := fst <$> list_find (fun e => doc_slug e = slug) docsEntries.

(** The article before and the one after; both absent for a slug that is none. *)
Definition getDocNeighbors (slug : string) : option DocEntry * option DocEntry :=
  match doc_index slug with
  | None => (None, None)
  | Some index =>
      (if (0 <? index)%nat then docsEntries !! (index - 1)%nat else None,
       if (index <? length docsEntries - 1)%nat then docsEntries !! (index + 1)%nat else None)
  end.

Definition section_name (section : DocsSectionId) : string :=
  match section with
  | StartDocs => "start" | ConceptsDocs => "concepts" | GuidesDocs => "guides" | AgentsDocs => "agents"
  | OperationsDocs => "operations" | ArchitectureDocs => "architecture" | ReferenceDocs => "reference"
  end.

Definition getSection (section : DocsSectionId) : res DocsSection :=
  match List.find (fun s => bool_decide (ds_id s = section)) docsSections with
  | Some s => Return s
  | None => Throw (JsError ("Unknown documentation section: " +:+ section_name section))
  end.

(** ** Search *)
Definition search_text (entry : DocEntry) : string :=
  join " " ([doc_title entry; doc_summary entry] ++ doc_keywords entry ++ map hd_title (doc_headings entry)).

Definition searchDocs (query : string) : list DocEntry :=
  let needle := toLowerCase (js_trim query) in
  if negb (str_truthy needle) then take 8 docsEntries
  else filter (fun entry => str_includes needle (toLowerCase (search_text entry)) = true) docsEntries.

(** The dialog of the search: open or not, and the query. *)
Record Search := MkSearch { sr_open : bool; sr_query : string }.
Definition closed : Search := MkSearch false "".
Definition onOpenChange (nextOpen : bool) (s : Search) : Search :=
  MkSearch nextOpen (if nextOpen then sr_query s else "").
(** The shortcut, and a click on a result, which leave the query. *)
Definition onShortcut (s : Search) : Search := MkSearch (negb (sr_open s)) (sr_query s).
Definition onResult (s : Search) : Search := MkSearch false (sr_query s).
Definition setQuery (query : string) (s : Search) : Search := MkSearch (sr_open s) query.
Definition results (s : Search) : list DocEntry := searchDocs (sr_query s).

(** ** Content and pages

    A loader imports the text of its slug; it is the slug here. *)
Definition loaders : list string :=
  ["start/what-is-tokyo-tester"; "start/philosophy"; "start/quick-start"; "start/first-workflow"; "concepts/service-environments"; "concepts/workflows-scenarios-tests"; "concepts/execution-lifecycle"; "guides/build-service-graph"; "guides/configure-services"; "guides/write-scenarios"; "guides/run-and-debug"; "guides/import-export-revisions"; "guides/workspaces-permissions"; "agents/overview"; "agents/connect"; "agents/safe-authoring"; "agents/mcp-reference"; "operations/local-development"; "operations/production"; "operations/observability"; "operations/backup-upgrade-recovery"; "operations/troubleshooting"; "architecture/system-overview"; "architecture/state-sync-realtime"; "architecture/runner-durability"; "architecture/security"; "reference/services"; "reference/tests"; "reference/workflow-bundle"; "reference/run-statuses-limits"; "reference/glossary"].
Definition loadDoc (slug : string) : option string := List.find (fun s => bool_decide (s = slug)) loaders.
Definition docContentSlugs : list string := loaders.

Definition doc_href (e : DocEntry) : string := "/docs/" +:+ doc_slug e.

Record Article := MkArticle {
  ar_entry : DocEntry; ar_section : DocsSection; ar_previous : option DocEntry; ar_next : option DocEntry
}.

(** [None] is [notFound()]. *)
Definition DocsArticlePage (slug : list string) : res (option Article) :=
  let joinedSlug := join "/" slug in
  match getDoc joinedSlug with
  | None => Return None
  | Some entry =>
      match loadDoc joinedSlug with
      | None => Return None
      | Some _ =>
          section ← getSection (doc_section entry);
          let '(previous, next) := getDocNeighbors (doc_slug entry) in
          Return (Some (MkArticle entry section previous next))
      end
  end.

Definition generateStaticParams : list (list string) := map (fun e => split_on "/"%char (doc_slug e)) docsEntries.

(** The navigation: the articles of each section in turn. *)
Definition NavigationLinks : list (DocsSection * list DocEntry) := map (fun s => (s, getDocsForSection (ds_id s))) docsSections.

(** ** Links of the guided builder, by their topic, with page and heading *)
Definition GUIDED_DOCUMENTATION : list (string * (string * string)) :=
  [("mode", ("Choosing a builder mode", "/docs/guides/build-service-graph#choose-a-builder-mode"));
   ("gettingStarted", ("Build your first workflow", "/docs/start/first-workflow"));
   ("services", ("Configure services", "/docs/guides/configure-services"));
   ("connections", ("Connect services", "/docs/guides/build-service-graph#connect-services"));
   ("scenarios", ("Write scenarios", "/docs/guides/write-scenarios"));
   ("review", ("Run and debug", "/docs/guides/run-and-debug"));
   ("lifecycle", ("Execution lifecycle", "/docs/concepts/execution-lifecycle"))].
End Docs.

(** * What the documentation guarantees *)

Module DocsFacts.
Import Docs.

Lemma slugs_distinct : NoDup (map doc_slug docsEntries).
Proof. apply (bool_decide_unpack _). by vm_compute. Qed.

Lemma slug_at i j e e' : docsEntries !! i = Some e -> docsEntries !! j = Some e' -> doc_slug e = doc_slug e' -> i = j.
Proof.
  intros Hi Hj E. eapply (NoDup_lookup _ i j (doc_slug e) slugs_distinct); change (map doc_slug docsEntries) with (doc_slug <$> docsEntries).
  - by rewrite list_lookup_fmap, Hi.
  - rewrite list_lookup_fmap, Hj. cbn. by rewrite E.
Qed.

Lemma index_at i e : docsEntries !! i = Some e -> doc_index (doc_slug e) = Some i.
Proof.
  intros Hi. unfold doc_index. destruct (list_find_elem_of (fun x => doc_slug x = doc_slug e) docsEntries e) as [[j x] Hf];
    [by apply list_elem_of_lookup_2 in Hi|done|].
  rewrite Hf. cbn. apply list_find_Some in Hf as (Hj & E & _). f_equal. symmetry. by eapply slug_at.
Qed.

(** ** Reading on *)
Lemma neighbors_at i e : docsEntries !! i = Some e ->
  getDocNeighbors (doc_slug e) = (match i with O => None | S j => docsEntries !! j end, docsEntries !! S i).
Proof.
  intros Hi. unfold getDocNeighbors. rewrite (index_at i e Hi). pose proof (lookup_lt_Some _ _ _ Hi) as Hlt. f_equal.
  - destruct i as [|i]; [done|]. by rewrite Nat.sub_succ, Nat.sub_0_r.
  - rewrite Nat.add_1_r. destruct (Nat.ltb_spec i (length docsEntries - 1)); [done|]. symmetry. apply lookup_ge_None. lia.
Qed.

(** The next article's previous one is the article, and the other way round; the first
    has none before it, the last none after it, and going on from the first visits
    every article once. *)
Theorem neighbors_chain e e' : e ∈ docsEntries -> e' ∈ docsEntries ->
  ((getDocNeighbors (doc_slug e)).2 = Some e' <-> (getDocNeighbors (doc_slug e')).1 = Some e)
  /\ ((getDocNeighbors (doc_slug e)).1 = None <-> head docsEntries = Some e)
  /\ ((getDocNeighbors (doc_slug e)).2 = None <-> last docsEntries = Some e)
  /\ forall i, docsEntries !! i = Some e -> Nat.iter i (fun o => o ≫= (fun x => (getDocNeighbors (doc_slug x)).2)) (head docsEntries) = Some e.
Proof.
  intros (i & Hi)%list_elem_of_lookup (j & Hj)%list_elem_of_lookup. rewrite (neighbors_at i e Hi), (neighbors_at j e' Hj). cbn [fst snd].
  split_and!.
  - assert (H1 : docsEntries !! S i = Some e' <-> j = S i).
    { split; [|by intros <-]. intros H. by eapply slug_at. }
    rewrite H1. destruct j as [|j]; [done|]. split; [intros [= ->]; done|]. intros H. f_equal. by eapply slug_at.
  - destruct i as [|i]; [rewrite head_lookup; tauto|]. rewrite head_lookup. split.
    + intros H%lookup_ge_None. pose proof (lookup_lt_Some _ _ _ Hi). lia.
    + intros H. by assert (S i = 0%nat) by (by eapply slug_at).
  - rewrite last_lookup, lookup_ge_None. pose proof (lookup_lt_Some _ _ _ Hi) as Hlt. split.
    + intros H. by replace (Nat.pred (length docsEntries)) with i by lia.
    + intros H. assert (i = Nat.pred (length docsEntries)) by (by eapply slug_at). lia.
  - intros k Hk. assert (k = i) as -> by (by eapply slug_at). clear Hk Hj. revert e Hi.
    induction i as [|i IH]; intros e Hi; [by rewrite <- head_lookup in Hi|].
    destruct (lookup_lt_is_Some_2 docsEntries i) as [x Hx]; [pose proof (lookup_lt_Some _ _ _ Hi); lia|].
    cbn [Nat.iter nat_rect]. change (nat_rect _ _ _ i) with (Nat.iter i (fun o => o ≫= (fun x => (getDocNeighbors (doc_slug x)).2)) (head docsEntries)).
    rewrite (IH x Hx). cbn [mbind option_bind]. by rewrite (neighbors_at i x Hx).
Qed.

(** ** Every article has its page *)

#[export] Instance DocHeading_eq_dec : EqDecision DocHeading. Proof. solve_decision. Defined.
#[export] Instance DocEntry_eq_dec : EqDecision DocEntry. Proof. solve_decision. Defined.

Lemma section_known section : exists s, getSection section = Return s.
Proof. destruct section; eexists; reflexivity. Qed.

(** Every slug is the join of its parts, and has its text. *)
Lemma slug_served : Forall (fun e => join "/" (split_on "/"%char (doc_slug e)) = doc_slug e
  /\ loadDoc (doc_slug e) = Some (doc_slug e) /\ getDoc (doc_slug e) = Some e /\ isPublicSitePath (doc_href e) = true) docsEntries.
Proof. apply (bool_decide_unpack _). by vm_compute. Qed.

(** Each slug is served and no other: the article with its section, whose name starts
    its slug; the navigation lists the articles in the order in which one reads on, and
    the loaders are those of the articles. *)
Theorem article_pages :
  (forall e, e ∈ docsEntries -> exists section, getSection (doc_section e) = Return section
     /\ DocsArticlePage (split_on "/"%char (doc_slug e))
        = Return (Some (MkArticle e section (getDocNeighbors (doc_slug e)).1 (getDocNeighbors (doc_slug e)).2))
     /\ isPublicSitePath (doc_href e) = true)
  /\ (forall slug, join "/" slug ∉ map doc_slug docsEntries -> DocsArticlePage slug = Return None)
  /\ concat (map snd NavigationLinks) = docsEntries
  /\ docContentSlugs ≡ₚ map doc_slug docsEntries
  /\ Forall (fun e => doc_headings e <> [] /\ NoDup (map hd_id (doc_headings e))
                      /\ starts_with (section_name (doc_section e) +:+ "/") (doc_slug e) = true) docsEntries.
Proof.
  split_and!.
  - intros e He. destruct (proj1 (Forall_forall _ _) slug_served e He) as (Hj & Hl & Hd & Hp).
    destruct (section_known (doc_section e)) as [s Hs]. exists s. split; [done|]. split; [|done].
    unfold DocsArticlePage. rewrite Hj, Hd, Hl, Hs. cbn [mbind]. unfold mbind, res_bind. by destruct (getDocNeighbors (doc_slug e)).
  - intros slug Hn. unfold DocsArticlePage, getDoc. destruct (List.find _ docsEntries) as [e|] eqn:E; [|done].
    apply find_some in E as [He%list_elem_of_In Hb%bool_decide_eq_true]. exfalso. apply Hn. rewrite <- Hb. by apply list_elem_of_fmap_2.
  - by vm_compute.
  - apply (bool_decide_unpack _). by vm_compute.
  - apply (bool_decide_unpack _). by vm_compute.
Qed.

(** ** Search *)
Lemma prefix_spec p s : String.prefix p s = true <-> exists t, s = p +:+ t.
Proof.
  revert s. induction p as [|c p IH]; intros s; [split; [by exists s|by destruct s]|].
  destruct s as [|c' s]; [split; [done|by intros [t H]]|]. cbn [String.prefix].
  destruct (ascii_dec c c') as [->|Hne].
  - rewrite IH. split; intros [t H]; exists t; [by rewrite H|]. change (String c' p +:+ t) with (String c' (p +:+ t)) in H. by injection H.
  - split; [done|]. intros [t H]. change (String c p +:+ t) with (String c (p +:+ t)) in H. congruence.
Qed.

(** [includes] is what it says. *)
Lemma includes_spec n s : str_includes n s = true <-> exists a b, s = a +:+ n +:+ b.
Proof.
  induction s as [|c s IH]; cbn [str_includes]; rewrite orb_true_iff, prefix_spec.
  - split; [intros [[t ->]|H]; [by exists "", t|done]|]. intros (a & b & H). left. destruct a; [by exists b|done].
  - rewrite IH. split.
    + intros [[t ->]|(a & b & ->)]; [by exists "", t|by exists (String c a), b].
    + intros ([|c' a] & b & H); [left; by exists b|right]. exists a, b.
      change (String c' a +:+ n +:+ b) with (String c' (a +:+ n +:+ b)) in H. by injection H.
Qed.

Lemma includes_trans n m s : str_includes n m = true -> str_includes m s = true -> str_includes n s = true.
Proof.
  rewrite !includes_spec. intros (a & b & ->) (a' & b' & ->). exists (a' +:+ a), (b +:+ b').
  by rewrite !str_app_assoc.
Qed.

Lemma includes_join f l sep : f ∈ l -> str_includes f (join sep l) = true.
Proof.
  unfold join. intros Hf. apply includes_spec. induction l as [|x l IH]; [by apply elem_of_nil in Hf|].
  apply elem_of_cons in Hf as [<-|Hf].
  - destruct l as [|y l]; [exists "", ""; symmetry; apply str_app_nil|]. by eexists "", _.
  - destruct (IH Hf) as (a & b & E). destruct l as [|y l]; [by apply elem_of_nil in Hf|].
    exists (x +:+ sep +:+ a), b. change (String.concat sep (x :: y :: l)) with (x +:+ sep +:+ String.concat sep (y :: l)).
    rewrite E. by rewrite !str_app_assoc.
Qed.

Lemma includes_lower n s : str_includes n s = true -> str_includes (toLowerCase n) (toLowerCase s) = true.
Proof. rewrite !includes_spec. intros (a & b & ->). exists (toLowerCase a), (toLowerCase b). by rewrite !lower_app. Qed.

(** The fields an article is found by. *)
Definition searched (e : DocEntry) : list string :=
  [doc_title e; doc_summary e] ++ doc_keywords e ++ map hd_title (doc_headings e).

(** A search finds every article with the words in its title, summary, a keyword or a
    heading, in any case; it finds nothing that does not contain them; the articles come
    in reading order; and a query that contains another finds no more than the other. *)
Theorem search_finds query : toLowerCase (js_trim query) <> "" ->
  (forall e field, e ∈ docsEntries -> field ∈ searched e -> str_includes (toLowerCase (js_trim query)) (toLowerCase field) = true ->
     e ∈ searchDocs query)
  /\ (forall e, e ∈ searchDocs query -> e ∈ docsEntries /\ str_includes (toLowerCase (js_trim query)) (toLowerCase (search_text e)) = true)
  /\ searchDocs query `sublist_of` docsEntries
  /\ forall longer, str_includes (js_trim query) (js_trim longer) = true -> searchDocs longer ⊆ searchDocs query.
Proof.
  intros Hq. assert (Ht : str_truthy (toLowerCase (js_trim query)) = true) by (by apply str_truthy_spec).
  unfold searchDocs at 1 2 3 5. rewrite Ht. cbn [negb]. split_and!.
  - intros e field He Hf Hi. apply list_elem_of_filter. split; [|done].
    apply (includes_trans _ _ _ Hi), includes_lower, includes_join, Hf.
  - intros e [H1 H2]%list_elem_of_filter. done.
  - apply sublist_filter.
  - intros longer Hl e He. apply list_elem_of_filter.
    apply includes_lower in Hl. unfold searchDocs in He. destruct (str_truthy (toLowerCase (js_trim longer))) eqn:El; cbn [negb] in He.
    + apply list_elem_of_filter in He as [Hi He]. split; [|done]. by eapply includes_trans.
    + exfalso. apply Hq. assert (E : toLowerCase (js_trim longer) = "") by (by destruct (toLowerCase (js_trim longer))).
      rewrite E in Hl. apply includes_spec in Hl as (a & b & H). by destruct a, (toLowerCase (js_trim query)).
Qed.

(** ** Links into the documentation *)
Definition link_resolves (href : string) : bool :=
  match split_on "#"%char href with
  | [page] => existsb (fun e => bool_decide (doc_href e = page)) docsEntries
  | [page; heading] => existsb (fun e => bool_decide (doc_href e = page) && set_has heading (map hd_id (doc_headings e))) docsEntries
  | _ => false
  end.

(** Every link of the guided builder leads to an article, and to a heading of it. *)
Theorem guided_links_resolve topic label href : (topic, (label, href)) ∈ GUIDED_DOCUMENTATION ->
  link_resolves href = true /\ isPublicSitePath href = true.
Proof.
  assert (H : Forall (fun l => link_resolves l.2.2 = true /\ isPublicSitePath l.2.2 = true) GUIDED_DOCUMENTATION)
    by (apply (bool_decide_unpack _); by vm_compute).
  intros Hin. exact (proj1 (Forall_forall _ _) H _ Hin).
Qed.

(** The dialog forgets the query when it is closed, but not when the shortcut or a
    result closes it. *)
Example query_kept : sr_query (onResult (setQuery "kafka" (onOpenChange true closed))) = "kafka"
  /\ sr_query (onOpenChange false (setQuery "kafka" (onOpenChange true closed))) = "".
Proof. done. Qed.
End DocsFacts.
