(* ===== verification/TestFields.v ===== *)
(** * The fields of a test: [ui-v2/src/modules/workflow/components/TestConfigForm.tsx]

    One definition per input of the form: what a change of it makes of the test.  Some
    inputs write the whole configuration of the test again, with the fallbacks of the
    fields it lacks; others spread the configuration that is there. *)

From S2P Require Import Prelude FlowTypes JsLib TestRetry Defaults FieldEditors.
From stdpp Require Import pretty.
Open Scope Z_scope.

Module TestFields.
Import Defaults TestForm.

(** An input that spreads a configuration, [{...current.cacheConfig!, key}].  Without
    the configuration there is no test of the type to speak of: [None]. *)
Definition on_config {C} (get : ScenarioTestDefinition -> option C) (f : C -> ScenarioTestDefinition -> ScenarioTestDefinition)
    (t : ScenarioTestDefinition) : option ScenarioTestDefinition :=
  (fun c => f c t) <$> get t.

(** ** Every test *)
Definition set_name (name : string) (t : ScenarioTestDefinition) : ScenarioTestDefinition :=
  MkTest (test_id t) name (test_type t) (test_targetServices t) (test_dependsOnTestIds t) (test_retryPolicy t)
    (test_databaseConfig t) (test_documentConfig t) (test_httpConfig t) (test_shellConfig t) (test_cacheConfig t)
    (test_queueConfig t) (test_delayConfig t).

Definition set_retryMode (mode : string) (t : ScenarioTestDefinition) : ScenarioTestDefinition :=
  with_retry_policy (Some (if decide (mode = "never") then MkRetryPolicy "never" false
    else MkRetryPolicy "transient" (match test_retryPolicy t with Some p => rp_idempotencyConfirmed p | None => false end))) t.

Definition set_idempotent (checked : bool) (t : ScenarioTestDefinition) : ScenarioTestDefinition :=
  with_retry_policy (Some (MkRetryPolicy "transient" checked)) t.

(** ** HTTP *)

Definition http_current (t : ScenarioTestDefinition) : HttpConfig :=
  let c := test_httpConfig t in
  MkHttpConfig (ostr_or (http_method <$> c) "GET") (default "/" (http_path <$> c)) (default "80" (http_port <$> c)) (c ≫= http_headers)
    (c ≫= http_body) (Some (default 200 (c ≫= http_expectedStatus))) (c ≫= http_expectedBody).

Definition set_httpMethod (method : string) (t : ScenarioTestDefinition) : ScenarioTestDefinition :=
  let c := http_current t in set_http (MkHttpConfig (method) (http_path c) (http_port c) (http_headers c) (http_body c) (http_expectedStatus c) (http_expectedBody c)) t.

Definition set_httpPath (path : string) (t : ScenarioTestDefinition) : ScenarioTestDefinition :=
  let c := http_current t in set_http (MkHttpConfig (http_method c) (path) (http_port c) (http_headers c) (http_body c) (http_expectedStatus c) (http_expectedBody c)) t.

Definition set_httpPort (port : string) (t : ScenarioTestDefinition) : ScenarioTestDefinition :=
  let c := http_current t in set_http (MkHttpConfig (http_method c) (http_path c) (port) (http_headers c) (http_body c) (http_expectedStatus c) (http_expectedBody c)) t.

Definition set_httpHeaders (headers : option (jmap string string)) (t : ScenarioTestDefinition) : ScenarioTestDefinition :=
  let c := http_current t in set_http (MkHttpConfig (http_method c) (http_path c) (http_port c) (headers) (http_body c) (http_expectedStatus c) (http_expectedBody c)) t.

Definition set_httpBody (body : string) (t : ScenarioTestDefinition) : ScenarioTestDefinition :=
  let c := http_current t in set_http (MkHttpConfig (http_method c) (http_path c) (http_port c) (http_headers c) (Some body) (http_expectedStatus c) (http_expectedBody c)) t.

Definition set_httpStatus (expectedStatus : Z) (t : ScenarioTestDefinition) : ScenarioTestDefinition :=
  let c := http_current t in set_http (MkHttpConfig (http_method c) (http_path c) (http_port c) (http_headers c) (http_body c) (Some expectedStatus) (http_expectedBody c)) t.

Definition set_httpBodyMode (mode : string) (t : ScenarioTestDefinition) : ScenarioTestDefinition :=
  let c := http_current t in set_http (MkHttpConfig (http_method c) (http_path c) (http_port c) (http_headers c) (http_body c) (http_expectedStatus c) (Some (MkExpectedBody mode (if decide (mode = "json_partial") then JObj [] else JStr "")))) t.

Definition set_httpBodyJson (expectedBody : option (list (string * JsonValue))) (t : ScenarioTestDefinition) : ScenarioTestDefinition :=
  let c := http_current t in set_http (MkHttpConfig (http_method c) (http_path c) (http_port c) (http_headers c) (http_body c) (http_expectedStatus c) (Some (MkExpectedBody "json_partial" (JObj (default [] expectedBody))))) t.

Definition set_httpBodyText (text : string) (t : ScenarioTestDefinition) : ScenarioTestDefinition :=
  let c := http_current t in set_http (MkHttpConfig (http_method c) (http_path c) (http_port c) (http_headers c) (http_body c) (http_expectedStatus c) (Some (MkExpectedBody "contains" (JStr text)))) t.

(** ** Databases *)

Definition database_current (t : ScenarioTestDefinition) : DatabaseConfig :=
  let c := test_databaseConfig t in
  MkDatabaseConfig (ostr_or (db_driver <$> c) "postgres") (ostr_or (db_database <$> c) "") (ostr_or (db_user <$> c) "")
    (ostr_or (db_password <$> c) "") (ostr_or (db_query <$> c) "") (c ≫= db_expectedResult).

Definition set_dbDriver (driver : string) (t : ScenarioTestDefinition) : ScenarioTestDefinition :=
  let c := database_current t in set_database (MkDatabaseConfig (driver) (db_database c) (db_user c) (db_password c) (db_query c) (db_expectedResult c)) t.

Definition set_dbDatabase (database : string) (t : ScenarioTestDefinition) : ScenarioTestDefinition :=
  let c := database_current t in set_database (MkDatabaseConfig (db_driver c) (database) (db_user c) (db_password c) (db_query c) (db_expectedResult c)) t.

Definition set_dbUser (user : string) (t : ScenarioTestDefinition) : ScenarioTestDefinition :=
  let c := database_current t in set_database (MkDatabaseConfig (db_driver c) (db_database c) (user) (db_password c) (db_query c) (db_expectedResult c)) t.

Definition set_dbPassword (password : string) (t : ScenarioTestDefinition) : ScenarioTestDefinition :=
  let c := database_current t in set_database (MkDatabaseConfig (db_driver c) (db_database c) (db_user c) (password) (db_query c) (db_expectedResult c)) t.

Definition set_dbQuery (query : string) (t : ScenarioTestDefinition) : ScenarioTestDefinition :=
  let c := database_current t in set_database (MkDatabaseConfig (db_driver c) (db_database c) (db_user c) (db_password c) (query) (db_expectedResult c)) t.

Definition expected_mode (mode : string) : JsonValue :=
  if decide (mode = "rows") then JObj [("mode", JStr "rows"); ("value", JBool true)]
  else if decide (mode = "single") then JObj [("mode", JStr "single"); ("value", JStr "")]
  else if decide (mode = "list") then JObj [("mode", JStr "list"); ("value", JArr [])]
  else JObj [("mode", JStr "structured"); ("min_rows", JNum 1)].

Definition set_dbMode (mode : string) (t : ScenarioTestDefinition) : ScenarioTestDefinition :=
  let c := database_current t in set_database (MkDatabaseConfig (db_driver c) (db_database c) (db_user c) (db_password c) (db_query c) (Some (expected_mode mode))) t.

Definition set_dbRows (checked : bool) : ScenarioTestDefinition -> option ScenarioTestDefinition :=
  on_config test_databaseConfig (fun c t => set_database (MkDatabaseConfig (db_driver c) (db_database c) (db_user c) (db_password c) (db_query c) (Some (JObj [("mode", JStr "rows"); ("value", JBool checked)]))) t).

Definition set_dbSingle (js_number : string -> option Z) (text : string) : ScenarioTestDefinition -> option ScenarioTestDefinition :=
  on_config test_databaseConfig (fun c t => set_database (MkDatabaseConfig (db_driver c) (db_database c) (db_user c) (db_password c) (db_query c) (Some (JObj [("mode", JStr "single"); ("value", parseScalarValue js_number text)]))) t).

Definition set_dbList (js_number : string -> option Z) (text : string) : ScenarioTestDefinition -> option ScenarioTestDefinition :=
  on_config test_databaseConfig (fun c t => set_database (MkDatabaseConfig (db_driver c) (db_database c) (db_user c) (db_password c) (db_query c) (Some (JObj [("mode", JStr "list"); ("value", JArr (parseScalarList js_number text))]))) t).

(** [{...expectedResult, mode: "structured", [key]: value}] *)
Definition structured (key : string) (value : JsonValue) (expected : option JsonValue) : JsonValue :=
  JObj (assoc_set key value (assoc_set "mode" (JStr "structured") (match expected with Some (JObj fields) => fields | _ => [] end))).

Definition set_dbMinRows (minRows : Z) : ScenarioTestDefinition -> option ScenarioTestDefinition :=
  on_config test_databaseConfig (fun c t => set_database (MkDatabaseConfig (db_driver c) (db_database c) (db_user c) (db_password c) (db_query c) (Some (structured "min_rows" (JNum minRows) (db_expectedResult c)))) t).

Definition set_dbMaxRows (maxRows : Z) : ScenarioTestDefinition -> option ScenarioTestDefinition :=
  on_config test_databaseConfig (fun c t => set_database (MkDatabaseConfig (db_driver c) (db_database c) (db_user c) (db_password c) (db_query c) (Some (structured "max_rows" (JNum maxRows) (db_expectedResult c)))) t).

Definition set_dbColumns (columns : option JsonValue) : ScenarioTestDefinition -> option ScenarioTestDefinition :=
  on_config test_databaseConfig (fun c t => set_database (MkDatabaseConfig (db_driver c) (db_database c) (db_user c) (db_password c) (db_query c) (Some (structured "columns" (default (JObj []) columns) (db_expectedResult c)))) t).

(** ** Documents *)

(** [config?.service || targetServices[0] || ""] *)
Definition service_current (service : option string) (t : ScenarioTestDefinition) : string :=
  ostr_or service (default "" (head (default [] (test_targetServices t)))).

Definition document_current (t : ScenarioTestDefinition) : DocumentConfig :=
  let c := test_documentConfig t in
  MkDocumentConfig (service_current (doc_service <$> c) t) (default "testdb" (doc_database <$> c)) (ostr_or (doc_collection <$> c) "")
    (ostr_or (doc_operation <$> c) "find_one") (c ≫= doc_document) (c ≫= doc_filter) (c ≫= doc_update) (c ≫= doc_expectedDocument)
    (c ≫= doc_expectedDocuments) (c ≫= doc_expectedCount) (c ≫= doc_expectedExists).

Definition set_docDatabase (database : string) (t : ScenarioTestDefinition) : ScenarioTestDefinition :=
  let c := document_current t in set_document (MkDocumentConfig (doc_service c) (database) (doc_collection c) (doc_operation c) (doc_document c) (doc_filter c) (doc_update c) (doc_expectedDocument c) (doc_expectedDocuments c) (doc_expectedCount c) (doc_expectedExists c)) t.

Definition set_docCollection (collection : string) (t : ScenarioTestDefinition) : ScenarioTestDefinition :=
  let c := document_current t in set_document (MkDocumentConfig (doc_service c) (doc_database c) (collection) (doc_operation c) (doc_document c) (doc_filter c) (doc_update c) (doc_expectedDocument c) (doc_expectedDocuments c) (doc_expectedCount c) (doc_expectedExists c)) t.

Definition set_docOperation (operation : string) (t : ScenarioTestDefinition) : ScenarioTestDefinition :=
  let c := document_current t in set_document (MkDocumentConfig (doc_service c) (doc_database c) (doc_collection c) (operation) (doc_document c) (doc_filter c) (doc_update c) (doc_expectedDocument c) (doc_expectedDocuments c) (doc_expectedCount c) (doc_expectedExists c)) t.

Definition set_docDocument (document : option JsonValue) : ScenarioTestDefinition -> option ScenarioTestDefinition :=
  on_config test_documentConfig (fun c t => set_document (MkDocumentConfig (doc_service c) (doc_database c) (doc_collection c) (doc_operation c) (document) (doc_filter c) (doc_update c) (doc_expectedDocument c) (doc_expectedDocuments c) (doc_expectedCount c) (doc_expectedExists c)) t).

Definition set_docFilter (filter : option JsonValue) : ScenarioTestDefinition -> option ScenarioTestDefinition :=
  on_config test_documentConfig (fun c t => set_document (MkDocumentConfig (doc_service c) (doc_database c) (doc_collection c) (doc_operation c) (doc_document c) (filter) (doc_update c) (doc_expectedDocument c) (doc_expectedDocuments c) (doc_expectedCount c) (doc_expectedExists c)) t).

Definition set_docUpdate (update : option JsonValue) : ScenarioTestDefinition -> option ScenarioTestDefinition :=
  on_config test_documentConfig (fun c t => set_document (MkDocumentConfig (doc_service c) (doc_database c) (doc_collection c) (doc_operation c) (doc_document c) (doc_filter c) (update) (doc_expectedDocument c) (doc_expectedDocuments c) (doc_expectedCount c) (doc_expectedExists c)) t).

Definition set_docExpectedDocument (expectedDocument : option JsonValue) : ScenarioTestDefinition -> option ScenarioTestDefinition :=
  on_config test_documentConfig (fun c t => set_document (MkDocumentConfig (doc_service c) (doc_database c) (doc_collection c) (doc_operation c) (doc_document c) (doc_filter c) (doc_update c) (expectedDocument) (doc_expectedDocuments c) (doc_expectedCount c) (doc_expectedExists c)) t).

Definition set_docExpectedDocuments (expectedDocuments : option JsonValue) : ScenarioTestDefinition -> option ScenarioTestDefinition :=
  on_config test_documentConfig (fun c t => set_document (MkDocumentConfig (doc_service c) (doc_database c) (doc_collection c) (doc_operation c) (doc_document c) (doc_filter c) (doc_update c) (doc_expectedDocument c) (Some (default (JArr []) expectedDocuments)) (doc_expectedCount c) (doc_expectedExists c)) t).

Definition set_docExpectedCount (expectedCount : Z) : ScenarioTestDefinition -> option ScenarioTestDefinition :=
  on_config test_documentConfig (fun c t => set_document (MkDocumentConfig (doc_service c) (doc_database c) (doc_collection c) (doc_operation c) (doc_document c) (doc_filter c) (doc_update c) (doc_expectedDocument c) (doc_expectedDocuments c) (Some expectedCount) (doc_expectedExists c)) t).

Definition set_docExpectedExists (checked : bool) : ScenarioTestDefinition -> option ScenarioTestDefinition :=
  on_config test_documentConfig (fun c t => set_document (MkDocumentConfig (doc_service c) (doc_database c) (doc_collection c) (doc_operation c) (doc_document c) (doc_filter c) (doc_update c) (doc_expectedDocument c) (doc_expectedDocuments c) (doc_expectedCount c) (Some checked)) t).

(** ** Shell commands *)

Definition shell_current (t : ScenarioTestDefinition) : ShellConfig :=
  let c := test_shellConfig t in
  MkShellConfig (ostr_or (sh_command <$> c) "") (Some (default ∅ (c ≫= sh_env))) (Some (ostr_or (c ≫= sh_expectedOutput) ""))
    (Some (default 0 (c ≫= sh_expectedExitCode))).

Definition set_shCommand (command : string) (t : ScenarioTestDefinition) : ScenarioTestDefinition :=
  let c := shell_current t in set_shell (MkShellConfig (command) (sh_env c) (sh_expectedOutput c) (sh_expectedExitCode c)) t.

Definition set_shEnv (text : string) (t : ScenarioTestDefinition) : ScenarioTestDefinition :=
  let c := shell_current t in set_shell (MkShellConfig (sh_command c) (Some (parseEnvLines text)) (sh_expectedOutput c) (sh_expectedExitCode c)) t.

Definition set_shOutput (expectedOutput : string) (t : ScenarioTestDefinition) : ScenarioTestDefinition :=
  let c := shell_current t in set_shell (MkShellConfig (sh_command c) (sh_env c) (Some expectedOutput) (sh_expectedExitCode c)) t.

Definition set_shExitCode (expectedExitCode : Z) (t : ScenarioTestDefinition) : ScenarioTestDefinition :=
  let c := shell_current t in set_shell (MkShellConfig (sh_command c) (sh_env c) (sh_expectedOutput c) (Some expectedExitCode)) t.

(** ** Caches *)

Definition cache_current (t : ScenarioTestDefinition) : CacheConfig :=
  let c := test_cacheConfig t in
  MkCacheConfig (service_current (ca_service <$> c) t) (ostr_or (ca_cacheType <$> c) "redis") (ostr_or (ca_operation <$> c) "ping")
    (c ≫= ca_key) (c ≫= ca_value) (c ≫= ca_expectedValue) (c ≫= ca_expectedExists) (c ≫= ca_ttl) (c ≫= ca_db) (c ≫= ca_password).

Definition set_caType (cacheType : string) (t : ScenarioTestDefinition) : ScenarioTestDefinition :=
  let c := cache_current t in set_cache (MkCacheConfig (ca_service c) (cacheType) (ca_operation c) (ca_key c) (ca_value c) (ca_expectedValue c) (ca_expectedExists c) (ca_ttl c) (ca_db c) (ca_password c)) t.

Definition set_caOperation (operation : string) (t : ScenarioTestDefinition) : ScenarioTestDefinition :=
  let c := cache_current t in set_cache (MkCacheConfig (ca_service c) (ca_cacheType c) (operation) (ca_key c) (ca_value c) (ca_expectedValue c) (ca_expectedExists c) (ca_ttl c) (ca_db c) (ca_password c)) t.

Definition set_caKey (key : string) : ScenarioTestDefinition -> option ScenarioTestDefinition :=
  on_config test_cacheConfig (fun c t => set_cache (MkCacheConfig (ca_service c) (ca_cacheType c) (ca_operation c) (Some key) (ca_value c) (ca_expectedValue c) (ca_expectedExists c) (ca_ttl c) (ca_db c) (ca_password c)) t).

Definition set_caValue (text : string) : ScenarioTestDefinition -> option ScenarioTestDefinition :=
  on_config test_cacheConfig (fun c t => set_cache (MkCacheConfig (ca_service c) (ca_cacheType c) (ca_operation c) (ca_key c) (if decide (ca_operation c = "set") then Some (JStr text) else ca_value c) (if decide (ca_operation c = "get") then Some (JStr text) else ca_expectedValue c) (ca_expectedExists c) (ca_ttl c) (ca_db c) (ca_password c)) t).

Definition set_caExists (checked : bool) : ScenarioTestDefinition -> option ScenarioTestDefinition :=
  on_config test_cacheConfig (fun c t => set_cache (MkCacheConfig (ca_service c) (ca_cacheType c) (ca_operation c) (ca_key c) (ca_value c) (ca_expectedValue c) (Some checked) (ca_ttl c) (ca_db c) (ca_password c)) t).

Definition set_caTtl (ttl : Z) : ScenarioTestDefinition -> option ScenarioTestDefinition :=
  on_config test_cacheConfig (fun c t => set_cache (MkCacheConfig (ca_service c) (ca_cacheType c) (ca_operation c) (ca_key c) (ca_value c) (ca_expectedValue c) (ca_expectedExists c) (Some ttl) (ca_db c) (ca_password c)) t).

Definition set_caDb (db : Z) : ScenarioTestDefinition -> option ScenarioTestDefinition :=
  on_config test_cacheConfig (fun c t => set_cache (MkCacheConfig (ca_service c) (ca_cacheType c) (ca_operation c) (ca_key c) (ca_value c) (ca_expectedValue c) (ca_expectedExists c) (ca_ttl c) (Some db) (ca_password c)) t).

Definition set_caPassword (password : string) : ScenarioTestDefinition -> option ScenarioTestDefinition :=
  on_config test_cacheConfig (fun c t => set_cache (MkCacheConfig (ca_service c) (ca_cacheType c) (ca_operation c) (ca_key c) (ca_value c) (ca_expectedValue c) (ca_expectedExists c) (ca_ttl c) (ca_db c) (Some password)) t).

(** ** Queues *)

Definition queue_current (t : ScenarioTestDefinition) : QueueConfig :=
  let c := test_queueConfig t in
  MkQueueConfig (service_current (qu_service <$> c) t)
    (ostr_or (qu_brokerType <$> c) (inferQueueBrokerType (Some (service_current (qu_service <$> c) t))))
    (default "" (qu_operation <$> c)) (c ≫= qu_topic) (c ≫= qu_message) (c ≫= qu_key) (Some (default 0 (c ≫= qu_partition)))
    (Some (default 10 (c ≫= qu_timeout))) (Some (default false (c ≫= qu_fromBeginning))) (Some (default 1 (c ≫= qu_expectedCount)))
    (c ≫= qu_expectedMessage) (Some (default true (c ≫= qu_expectedExists))).

Definition set_quOperation (operation : string) (t : ScenarioTestDefinition) : ScenarioTestDefinition :=
  let c := queue_current t in set_queue (MkQueueConfig (qu_service c) (qu_brokerType c) (operation) (qu_topic c) (qu_message c) (qu_key c) (qu_partition c) (qu_timeout c) (qu_fromBeginning c) (qu_expectedCount c) (qu_expectedMessage c) (qu_expectedExists c)) t.

Definition set_quBroker (brokerType : string) : ScenarioTestDefinition -> option ScenarioTestDefinition :=
  on_config test_queueConfig (fun c t => set_queue (MkQueueConfig (qu_service c) (brokerType) (qu_operation c) (qu_topic c) (qu_message c) (qu_key c) (qu_partition c) (qu_timeout c) (qu_fromBeginning c) (qu_expectedCount c) (qu_expectedMessage c) (qu_expectedExists c)) t).

Definition set_quTopic (topic : string) : ScenarioTestDefinition -> option ScenarioTestDefinition :=
  on_config test_queueConfig (fun c t => set_queue (MkQueueConfig (qu_service c) (qu_brokerType c) (qu_operation c) (Some topic) (qu_message c) (qu_key c) (qu_partition c) (qu_timeout c) (qu_fromBeginning c) (qu_expectedCount c) (qu_expectedMessage c) (qu_expectedExists c)) t).

Definition set_quMessage (message : string) : ScenarioTestDefinition -> option ScenarioTestDefinition :=
  on_config test_queueConfig (fun c t => set_queue (MkQueueConfig (qu_service c) (qu_brokerType c) (qu_operation c) (qu_topic c) (Some (JStr message)) (qu_key c) (qu_partition c) (qu_timeout c) (qu_fromBeginning c) (qu_expectedCount c) (qu_expectedMessage c) (qu_expectedExists c)) t).

Definition set_quKey (key : string) : ScenarioTestDefinition -> option ScenarioTestDefinition :=
  on_config test_queueConfig (fun c t => set_queue (MkQueueConfig (qu_service c) (qu_brokerType c) (qu_operation c) (qu_topic c) (qu_message c) (Some key) (qu_partition c) (qu_timeout c) (qu_fromBeginning c) (qu_expectedCount c) (qu_expectedMessage c) (qu_expectedExists c)) t).

Definition set_quPartition (partition : Z) : ScenarioTestDefinition -> option ScenarioTestDefinition :=
  on_config test_queueConfig (fun c t => set_queue (MkQueueConfig (qu_service c) (qu_brokerType c) (qu_operation c) (qu_topic c) (qu_message c) (qu_key c) (Some partition) (qu_timeout c) (qu_fromBeginning c) (qu_expectedCount c) (qu_expectedMessage c) (qu_expectedExists c)) t).

Definition set_quTimeout (timeout : Z) : ScenarioTestDefinition -> option ScenarioTestDefinition :=
  on_config test_queueConfig (fun c t => set_queue (MkQueueConfig (qu_service c) (qu_brokerType c) (qu_operation c) (qu_topic c) (qu_message c) (qu_key c) (qu_partition c) (Some timeout) (qu_fromBeginning c) (qu_expectedCount c) (qu_expectedMessage c) (qu_expectedExists c)) t).

Definition set_quFromBeginning (checked : bool) : ScenarioTestDefinition -> option ScenarioTestDefinition :=
  on_config test_queueConfig (fun c t => set_queue (MkQueueConfig (qu_service c) (qu_brokerType c) (qu_operation c) (qu_topic c) (qu_message c) (qu_key c) (qu_partition c) (qu_timeout c) (Some checked) (qu_expectedCount c) (qu_expectedMessage c) (qu_expectedExists c)) t).

Definition set_quExpectedCount (expectedCount : Z) : ScenarioTestDefinition -> option ScenarioTestDefinition :=
  on_config test_queueConfig (fun c t => set_queue (MkQueueConfig (qu_service c) (qu_brokerType c) (qu_operation c) (qu_topic c) (qu_message c) (qu_key c) (qu_partition c) (qu_timeout c) (qu_fromBeginning c) (Some expectedCount) (qu_expectedMessage c) (qu_expectedExists c)) t).

Definition set_quExpectedMessage (expectedMessage : string) : ScenarioTestDefinition -> option ScenarioTestDefinition :=
  on_config test_queueConfig (fun c t => set_queue (MkQueueConfig (qu_service c) (qu_brokerType c) (qu_operation c) (qu_topic c) (qu_message c) (qu_key c) (qu_partition c) (qu_timeout c) (qu_fromBeginning c) (qu_expectedCount c) (Some (JStr expectedMessage)) (qu_expectedExists c)) t).

Definition set_quExpectedExists (checked : bool) : ScenarioTestDefinition -> option ScenarioTestDefinition :=
  on_config test_queueConfig (fun c t => set_queue (MkQueueConfig (qu_service c) (qu_brokerType c) (qu_operation c) (qu_topic c) (qu_message c) (qu_key c) (qu_partition c) (qu_timeout c) (qu_fromBeginning c) (qu_expectedCount c) (qu_expectedMessage c) (Some checked)) t).

(** ** Delays

    The unit shown is the one chosen, or the one the duration suggests. *)
Definition delay_unit (delayUnits : jmap string DelayUnit) (t : ScenarioTestDefinition) : DelayUnit :=
  default (inferDelayUnit (default 1000 (test_delayConfig t))) (delayUnits !! test_id t).
Definition delay_shown (delayUnits : jmap string DelayUnit) (t : ScenarioTestDefinition) : Z :=
  convertDurationToUnit (default 1000 (test_delayConfig t)) (delay_unit delayUnits t).
Definition set_delayValue (delayUnits : jmap string DelayUnit) (nextValue : Z) (t : ScenarioTestDefinition) : ScenarioTestDefinition :=
  set_delay (Z.max 100 (convertUnitToDuration nextValue (delay_unit delayUnits t))) t.
Definition set_delayUnit (id : string) (unit : DelayUnit) (delayUnits : jmap string DelayUnit) : jmap string DelayUnit :=
  <[id := unit]> delayUnits.

(** ** The target *)
Definition target_invalid (availableServices : list string) (t : ScenarioTestDefinition) : bool :=
  match test_type t with
  | TDelay => false
  | _ => let service := head (default [] (test_targetServices t)) in
         negb (ostr_truthy service) || negb (set_has (default "" service) availableServices)
  end.
End TestFields.

(** * What the form of a test guarantees *)

Module TestFieldFacts.
Import Defaults TestForm TestFields.

(** The inputs shown for a test of each type. *)
Inductive form_edit : TestType -> (ScenarioTestDefinition -> option ScenarioTestDefinition) -> Prop :=
| edit_name type (name : string) : form_edit type (fun t => Some (set_name name t))
| edit_retryMode type (mode : string) : form_edit type (fun t => Some (set_retryMode mode t))
| edit_idempotent type (checked : bool) : form_edit type (fun t => Some (set_idempotent checked t))
| edit_httpMethod (method : string) : form_edit THttp (fun t => Some (set_httpMethod method t))
| edit_httpPath (path : string) : form_edit THttp (fun t => Some (set_httpPath path t))
| edit_httpPort (port : string) : form_edit THttp (fun t => Some (set_httpPort port t))
| edit_httpHeaders (headers : option (jmap string string)) : form_edit THttp (fun t => Some (set_httpHeaders headers t))
| edit_httpBody (body : string) : form_edit THttp (fun t => Some (set_httpBody body t))
| edit_httpStatus (expectedStatus : Z) : form_edit THttp (fun t => Some (set_httpStatus expectedStatus t))
| edit_httpBodyMode (mode : string) : form_edit THttp (fun t => Some (set_httpBodyMode mode t))
| edit_httpBodyJson (expectedBody : option (list (string * JsonValue))) : form_edit THttp (fun t => Some (set_httpBodyJson expectedBody t))
| edit_httpBodyText (text : string) : form_edit THttp (fun t => Some (set_httpBodyText text t))
| edit_dbDriver (driver : string) : form_edit TDatabase (fun t => Some (set_dbDriver driver t))
| edit_dbDatabase (database : string) : form_edit TDatabase (fun t => Some (set_dbDatabase database t))
| edit_dbUser (user : string) : form_edit TDatabase (fun t => Some (set_dbUser user t))
| edit_dbPassword (password : string) : form_edit TDatabase (fun t => Some (set_dbPassword password t))
| edit_dbQuery (query : string) : form_edit TDatabase (fun t => Some (set_dbQuery query t))
| edit_dbMode (mode : string) : form_edit TDatabase (fun t => Some (set_dbMode mode t))
| edit_docDatabase (database : string) : form_edit TDocument (fun t => Some (set_docDatabase database t))
| edit_docCollection (collection : string) : form_edit TDocument (fun t => Some (set_docCollection collection t))
| edit_docOperation (operation : string) : form_edit TDocument (fun t => Some (set_docOperation operation t))
| edit_shCommand (command : string) : form_edit TShell (fun t => Some (set_shCommand command t))
| edit_shEnv (text : string) : form_edit TShell (fun t => Some (set_shEnv text t))
| edit_shOutput (expectedOutput : string) : form_edit TShell (fun t => Some (set_shOutput expectedOutput t))
| edit_shExitCode (expectedExitCode : Z) : form_edit TShell (fun t => Some (set_shExitCode expectedExitCode t))
| edit_caType (cacheType : string) : form_edit TCache (fun t => Some (set_caType cacheType t))
| edit_caOperation (operation : string) : form_edit TCache (fun t => Some (set_caOperation operation t))
| edit_quOperation (operation : string) : form_edit TQueue (fun t => Some (set_quOperation operation t))
| edit_delayValue (delayUnits : jmap string DelayUnit) (nextValue : Z) : form_edit TDelay (fun t => Some (set_delayValue delayUnits nextValue t))
| edit_dbRows (checked : bool) : form_edit TDatabase (set_dbRows checked)
| edit_dbSingle (js_number : string -> option Z) (text : string) : form_edit TDatabase (set_dbSingle js_number text)
| edit_dbList (js_number : string -> option Z) (text : string) : form_edit TDatabase (set_dbList js_number text)
| edit_dbMinRows (minRows : Z) : form_edit TDatabase (set_dbMinRows minRows)
| edit_dbMaxRows (maxRows : Z) : form_edit TDatabase (set_dbMaxRows maxRows)
| edit_dbColumns (columns : option JsonValue) : form_edit TDatabase (set_dbColumns columns)
| edit_docDocument (document : option JsonValue) : form_edit TDocument (set_docDocument document)
| edit_docFilter (filter : option JsonValue) : form_edit TDocument (set_docFilter filter)
| edit_docUpdate (update : option JsonValue) : form_edit TDocument (set_docUpdate update)
| edit_docExpectedDocument (expectedDocument : option JsonValue) : form_edit TDocument (set_docExpectedDocument expectedDocument)
| edit_docExpectedDocuments (expectedDocuments : option JsonValue) : form_edit TDocument (set_docExpectedDocuments expectedDocuments)
| edit_docExpectedCount (expectedCount : Z) : form_edit TDocument (set_docExpectedCount expectedCount)
| edit_docExpectedExists (checked : bool) : form_edit TDocument (set_docExpectedExists checked)
| edit_caKey (key : string) : form_edit TCache (set_caKey key)
| edit_caValue (text : string) : form_edit TCache (set_caValue text)
| edit_caExists (checked : bool) : form_edit TCache (set_caExists checked)
| edit_caTtl (ttl : Z) : form_edit TCache (set_caTtl ttl)
| edit_caDb (db : Z) : form_edit TCache (set_caDb db)
| edit_caPassword (password : string) : form_edit TCache (set_caPassword password)
| edit_quBroker (brokerType : string) : form_edit TQueue (set_quBroker brokerType)
| edit_quTopic (topic : string) : form_edit TQueue (set_quTopic topic)
| edit_quMessage (message : string) : form_edit TQueue (set_quMessage message)
| edit_quKey (key : string) : form_edit TQueue (set_quKey key)
| edit_quPartition (partition : Z) : form_edit TQueue (set_quPartition partition)
| edit_quTimeout (timeout : Z) : form_edit TQueue (set_quTimeout timeout)
| edit_quFromBeginning (checked : bool) : form_edit TQueue (set_quFromBeginning checked)
| edit_quExpectedCount (expectedCount : Z) : form_edit TQueue (set_quExpectedCount expectedCount)
| edit_quExpectedMessage (expectedMessage : string) : form_edit TQueue (set_quExpectedMessage expectedMessage)
| edit_quExpectedExists (checked : bool) : form_edit TQueue (set_quExpectedExists checked)
| edit_primaryService type service : form_edit type (fun t => Some (withPrimaryService t service)).

(** The configuration of its type is there. *)
Definition typed (t : ScenarioTestDefinition) : Prop :=
  match test_type t with
  | THttp => is_Some (test_httpConfig t)
  | TDatabase => is_Some (test_databaseConfig t)
  | TDocument => is_Some (test_documentConfig t)
  | TShell => is_Some (test_shellConfig t)
  | TCache => is_Some (test_cacheConfig t)
  | TQueue => is_Some (test_queueConfig t)
  | TDelay => is_Some (test_delayConfig t)
  end.

(** Two tests that differ at most in the configuration of their type, the name, the
    target and the policy. *)
Definition same_frame (t t' : ScenarioTestDefinition) : Prop :=
  test_id t' = test_id t /\ test_type t' = test_type t /\ test_dependsOnTestIds t' = test_dependsOnTestIds t
  /\ (test_type t <> THttp -> test_httpConfig t' = test_httpConfig t)
  /\ (test_type t <> TDatabase -> test_databaseConfig t' = test_databaseConfig t)
  /\ (test_type t <> TDocument -> test_documentConfig t' = test_documentConfig t)
  /\ (test_type t <> TShell -> test_shellConfig t' = test_shellConfig t)
  /\ (test_type t <> TCache -> test_cacheConfig t' = test_cacheConfig t)
  /\ (test_type t <> TQueue -> test_queueConfig t' = test_queueConfig t)
  /\ (test_type t <> TDelay -> test_delayConfig t' = test_delayConfig t).

Ltac framed := eexists; split; [reflexivity|]; split; [eexists; reflexivity|]; unfold same_frame; cbn; repeat split; intros; done.

Lemma edit_frame type f t : form_edit type f -> typed t -> test_type t = type ->
  exists t', f t = Some t' /\ typed t' /\ same_frame t t'.
Proof.
  intros Hf Ht E. destruct t as [id name ty targets deps policy db doc http sh ca qu de]. cbn in E. subst ty.
  destruct Hf; unfold typed in Ht; cbn in Ht; try destruct type; destruct Ht as [c ->]; framed.
Qed.

(** ** Editing with the form *)
Lemma clear_frame t t' : let t'' := clearStaleIdempotencyConfirmation t t' in
  (typed t' -> typed t'') /\ (same_frame t t' -> same_frame t t'').
Proof. cbn zeta. unfold clearStaleIdempotencyConfirmation, same_frame. repeat case_match; done. Qed.

(** [updateTest] with an input that may not apply; such an input is not used. *)
Definition form_update (testId : string) (f : ScenarioTestDefinition -> option ScenarioTestDefinition) :
    list ScenarioTestDefinition -> list ScenarioTestDefinition :=
  updateTest testId (fun t => default t (f t)).


(** New tests, and tests that change their type, have their configuration. *)
Lemma default_typed type nodes fallback id t : createDefaultTest type nodes fallback id = Return t -> typed t /\ test_type t = type.
Proof.
  unfold createDefaultTest. destruct type; unfold mbind, res_bind; repeat case_match; try done; intros; simplify_eq; by split; [eexists|].
Qed.

Lemma retyped_typed test type nodes services t : withTypeDefaults test type nodes services = Return t ->
  typed t /\ test_type t = type /\ test_id t = test_id test /\ retry_confirmed t = false.
Proof.
  unfold withTypeDefaults. destruct (createDefaultTest type nodes services (test_id test)) as [d|] eqn:E; [|done].
  intros [= <-]. destruct (default_typed _ _ _ _ _ E) as [Ht Ety]. cbn.
  split_and!; [exact Ht|exact Ety| |by destruct (test_retryPolicy test)].
  revert E. unfold createDefaultTest. destruct type; unfold mbind, res_bind; repeat case_match; intros; simplify_eq; done.
Qed.

(** ** Nothing is lost where a configuration is written again *)
Definition complete_http (c : HttpConfig) : Prop := http_method c <> "" /\ is_Some (http_expectedStatus c).
Definition complete_database (c : DatabaseConfig) : Prop := db_driver c <> "".
Definition complete_document (c : DocumentConfig) : Prop := doc_service c <> "" /\ doc_operation c <> "".
Definition complete_cache (c : CacheConfig) : Prop := ca_service c <> "" /\ ca_cacheType c <> "" /\ ca_operation c <> "".

Lemma rewritten_config t :
  (forall c, test_httpConfig t = Some c -> complete_http c -> http_current t = c)
  /\ (forall c, test_databaseConfig t = Some c -> complete_database c -> database_current t = c)
  /\ (forall c, test_documentConfig t = Some c -> complete_document c -> document_current t = c)
  /\ (forall c, test_cacheConfig t = Some c -> complete_cache c -> cache_current t = c).
Proof.
  unfold http_current, database_current, document_current, cache_current, service_current. split_and!; intros c ->.
  - intros [Hm [s Hs]]. destruct c as [[|] ? ? ? ? ? ?]; cbn in *; [done|]. by subst.
  - intros Hd. by destruct c as [[|] [|] [|] [|] [|] ?].
  - intros [H1 H2]. by destruct c as [[|] ? [|] [|] ? ? ? ? ? ? ?].
  - intros (H1 & H2 & H3). by destruct c as [[|] [|] [|] ? ? ? ? ? ? ?].
Qed.

(** ** Delays *)

(** A duration is stored as it is entered, and at least 100 ms. *)
Lemma delay_stored units v t : test_delayConfig (set_delayValue units v t) = Some (Z.max 100 (convertUnitToDuration v (delay_unit units t))).
Proof. done. Qed.

Lemma delay_unit_divides units t ms : test_delayConfig t = Some ms -> units !! test_id t = None ->
  convertUnitToDuration (delay_shown units t) (delay_unit units t) = ms.
Proof.
  intros E Hu. unfold delay_shown, delay_unit. rewrite E, Hu. cbn. unfold inferDelayUnit.
  destruct (60000 <=? ms) eqn:E1, (ms mod 60000 =? 0) eqn:E2, (1000 <=? ms) eqn:E3, (ms mod 1000 =? 0) eqn:E4; cbn; try done;
    apply Z.eqb_eq in E2 || apply Z.eqb_eq in E4; pose proof (Z.div_mod ms 60000); pose proof (Z.div_mod ms 1000);
    try apply Z.eqb_eq in E4; lia.
Qed.

(** The duration shown, entered again, is the duration. *)
Lemma delay_reentered units t ms : test_delayConfig t = Some ms -> 100 <= ms -> units !! test_id t = None ->
  test_delayConfig (set_delayValue units (delay_shown units t) t) = Some ms.
Proof. intros E Hm Hu. rewrite delay_stored, (delay_unit_divides units t ms E Hu). f_equal. lia. Qed.

(** A shorter duration is stored as 100 ms, but the input goes on to show what was
    typed, also after it is left. *)
Example short_delay_shown :
  let units := <["t" := Ms]> (∅ : jmap string DelayUnit) in
  let t := set_delayValue units 50 (set_delay 1000 (new_test "t" "wait" TDelay [])) in
  let js_number s := if decide (s = "50") then Some 50 else None in
  let left := Drafts.number_blur js_number (Drafts.MkNumberField "50" true (delay_shown units t)) in
  test_delayConfig t = Some 100 /\ Drafts.nf_value left = 100 /\ Drafts.nf_draft left = "50".
Proof. by vm_compute. Qed.

(** ** Witness *)
Definition sample_test : ScenarioTestDefinition :=
  set_cache (MkCacheConfig "redis" "redis" "get" (Some "k") None None None None (Some 0) None) (new_test "t1" "read" TCache ["redis"]).

End TestFieldFacts.
