(* ===== verification/Dialogs.v ===== *)
(** * Smaller dialogs of the builder

    [JourneyPanel] is the journey of a scenario ([ScenarioJourney.tsx]) in its dialog
    ([ScenarioDialog.tsx]), [CanvasView] what the canvas highlights ([FlowCanvas.tsx]),
    [GuidedStages] has what the guided workspace derives from its stage and the errors
    of the workflow ([GuidedWorkflowWorkspace.tsx]), [NodeDrawer] the drawer with the
    kinds of service and the name of the workflow, [EdgeDialog] the dialog of a
    connection ([EdgeConfigDialog.tsx]), and [VersionsDialog] the dialog that saves and
    restores versions of a workflow ([WorkflowVersionsDialog.tsx]); all of
    [ui-v2/src/modules/workflow/components]. *)

From S2P Require Import Prelude FlowTypes JsLib Json EdgeModel ServiceNames ScenarioTranslator SyncMiddleware TestResultStore.
From S2P Require Import Process TestRetry RunReplay Canvas Journey CanvasFacts ScenarioEditor.
From stdpp Require Import pretty.
Open Scope Z_scope.

(** ** The journey of a scenario *)
Module JourneyPanel.
Record JourneyView := MkJourneyView {
  jv_workflowId : string;
  jv_scenariosMap : jmap string Scenario;
  jv_activeScenarioId : option string;
  jv_testResults : jmap string TestResultStore.TestResult
}.

Record JourneyStep := MkStep {
  st_number : nat;
  st_intent : string;
  st_status : option ScenarioTestResultStatus;
  st_title : string;
  st_text : string;
  st_services : list string;
  st_after : list string
}.

Section Journey.
Context (localeCompare : string -> string -> Z).

(** Scenarios and the one shown are chosen as in the panel that edits them. *)
Definition panel_view (v : JourneyView) : ScenarioEditor.PanelView :=
  ScenarioEditor.MkPanelView (jv_workflowId v) [] (jv_scenariosMap v) (jv_activeScenarioId v).
Definition scenarios (v : JourneyView) : list Scenario := ScenarioEditor.scenarios localeCompare (panel_view v).
Definition activeScenario (v : JourneyView) : option Scenario := ScenarioEditor.activeScenario localeCompare (panel_view v).

Definition testName (r : TestResultStore.TestResult) : string := TestResultStore.tr_testName (TestResultStore.tr_input r).
Definition newest_result (left right : TestResultStore.TestResult) : Z :=
  localeCompare (TestResultStore.tr_executedAt (TestResultStore.tr_input right)) (TestResultStore.tr_executedAt (TestResultStore.tr_input left)).

Definition matching (v : JourneyView) (scenario : Scenario) : list TestResultStore.TestResult :=
  js_sort newest_result
    (filter (fun r => is_deleted (TestResultStore.tr_meta r) = false
                      /\ TestResultStore.tr_scenarioId (TestResultStore.tr_input r) = Some (scn_id scenario))
       (jvalues (jv_testResults v))).

Definition keep_first (byName : jmap string TestResultStore.TestResult) (r : TestResultStore.TestResult)
    : jmap string TestResultStore.TestResult :=
  match byName !! testName r with Some _ => byName | None => <[testName r := r]> byName end.

Definition latestResults (v : JourneyView) : jmap string TestResultStore.TestResult :=
  match activeScenario v with
  | None => ∅
  | Some scenario => fold_left keep_first (matching v scenario) ∅
  end.

Definition steps (scenario : Scenario) : list ScenarioTestDefinition :=
  Journey.orderedScenarioTests (scn_tests scenario) (scn_testOrder scenario).
Definition services (scenario : Scenario) : list string := Journey.scenarioServiceNames (scn_tests scenario).
Definition namesById (scenario : Scenario) : jmap string string :=
  jmap_of_pairs (map (fun t => (test_id t, test_name t)) (scn_tests scenario)).

Definition dependencies (scenario : Scenario) (step : ScenarioTestDefinition) : list string :=
  filter (fun name => str_truthy name = true) (omap (fun id => namesById scenario !! id) (default [] (test_dependsOnTestIds step))).

(** The card of a step. *)
Definition step_card (v : JourneyView) (scenario : Scenario) (index : nat) (step : ScenarioTestDefinition) : res JourneyStep :=
  text ← Journey.describeScenarioStep step;
  Return (MkStep (S index) (Journey.TEST_INTENT_LABELS (test_type step))
    ((fun r => TestResultStore.tr_status (TestResultStore.tr_input r)) <$> latestResults v !! test_name step)
    (if str_truthy (test_name step) then test_name step else Journey.TEST_INTENT_LABELS (test_type step))
    text (map Canvas.friendlyName (default [] (test_targetServices step))) (dependencies scenario step)).

Definition journey_cards (v : JourneyView) (scenario : Scenario) : res (list JourneyStep) :=
  res_map (fun x => step_card v scenario x.1 x.2) (imap pair (steps scenario)).

Definition journey_text (scenario : Scenario) : string :=
  ostr_or (scn_description scenario) (Journey.scenarioSummary (scn_tests scenario)).
Definition focus_disabled (scenario : Scenario) : bool := (length (services scenario) =? 0)%nat.
End Journey.

(** *** The dialog around it *)
Inductive Mode := JourneyMode | ConfigureMode.
Definition mode_effect (open : bool) (mode : Mode) : Mode := if open then JourneyMode else mode.

(** [onConfigure] is there for who may edit. *)
Definition onConfigure (canEdit : bool) (mode : Mode) : Mode := if canEdit then ConfigureMode else mode.

(** The services handed to the canvas, and whether the dialog stays open. *)
Definition onFocusServices (serviceNames : list string) : list string * bool := (serviceNames, false).
End JourneyPanel.

(** ** What the canvas highlights *)
Module CanvasView.
Inductive ViewMode := Overview | Detail.

Definition normalizeServiceName (value : string) : string :=
  strip_end (strip_start (collapse (name_chars (toLowerCase value)))).

(** A missing label throws. *)
Definition focused_node (focused : list string) (node : FlowNode) : res bool :=
  match nd_label (node_data node) with
  | Some label => Return (set_has (normalizeServiceName label) focused)
  | None => Throw JsTypeError
  end.

Definition touches (nodeId : string) (edge : FlowEdge) : bool :=
  bool_decide (edge_source edge = nodeId) || bool_decide (edge_target edge = nodeId).

Definition add_ends (nodeId : string) (ids : list string) (edge : FlowEdge) : list string :=
  if touches nodeId edge then set_add (edge_target edge) (set_add (edge_source edge) ids) else ids.

Definition focused_ids (focused : list string) (nodes : list FlowNode) : res (list string) :=
  marked ← res_map (fun node => b ← focused_node focused node; Return (b, node_id node)) nodes;
  Return (set_of_list (map snd (filter (fun x => x.1 = true) marked))).

(** [None] is no highlighting. *)
Definition activeNodeIds (selectedNodeId : option string) (focusedServiceNames : option (list string))
    (nodes : list FlowNode) (edges : list FlowEdge) : res (option (list string)) :=
  match (if ostr_truthy selectedNodeId then selectedNodeId else None), focusedServiceNames with
  | Some id, _ => Return (Some (fold_left (add_ends id) edges [id]))
  | None, Some (n :: ns) => ids ← focused_ids (set_of_list (n :: ns)) nodes; Return (Some ids)
  | None, _ => Return None
  end.

(** The opacity of a node in per cent. *)
Definition node_opacity (active : option (list string)) (node : FlowNode) : Z :=
  match active with Some ids => if set_has (node_id node) ids then 100 else 16 | None => 100 end.

Definition relation_of (edge : FlowEdge) : string := ostr_or (edge_data edge ≫= ed_relation) "calls".

Definition connected (selectedNodeId : option string) (active : option (list string)) (edge : FlowEdge) : bool :=
  match (if ostr_truthy selectedNodeId then selectedNodeId else None), active with
  | Some id, _ => touches id edge
  | None, Some ids => set_has (edge_source edge) ids && set_has (edge_target edge) ids
  | None, None => true
  end.

Definition edge_color (relation : string) : string :=
  if decide (relation = "calls") then "#0ea5e9"
  else if decide (relation = "reads") then "#10b981" else if decide (relation = "writes") then "#10b981" else "#f59e0b".
Definition edge_dashed (relation : string) : bool := bool_decide (relation = "reads") || bool_decide (relation = "consumes").

(** Width and opacity in hundredths. *)
Record DisplayEdge := MkDisplayEdge {
  de_edge : FlowEdge; de_color : string; de_dashed : bool; de_width : Z; de_opacity : Z;
  de_relation : string; de_readiness : string; de_showLabel : bool
}.

Definition display_edge (selectedNodeId : option string) (active : option (list string)) (viewMode : ViewMode) (edge : FlowEdge)
    : DisplayEdge :=
  let relation := relation_of edge in
  let selected := ostr_truthy selectedNodeId in
  let c := connected selectedNodeId active edge in
  MkDisplayEdge edge (edge_color relation) (edge_dashed relation)
    (if c && selected then 250 else 175)
    (if c then (if selected then 95 else 34) else 6)
    relation (ostr_or (edge_data edge ≫= ed_readiness) "source_requires_target")
    (match viewMode with Detail => true | Overview => false end || ((selected || bool_decide (is_Some active)) && c)).

Definition displayEdges (selectedNodeId : option string) (active : option (list string)) (viewMode : ViewMode) (edges : list FlowEdge)
    : list DisplayEdge :=
  map (display_edge selectedNodeId active viewMode) edges.

Definition selectedNode (selectedNodeId : option string) (nodes : list FlowNode) : option FlowNode :=
  List.find (fun node => bool_decide (Some (node_id node) = selectedNodeId)) nodes.
End CanvasView.

(** ** The stages of the guided workspace *)
Module GuidedStages.
Import Experience.
#[export] Instance GuidedStage_eq_dec : EqDecision GuidedStage.
Proof. solve_decision. Defined.

Definition stages : list GuidedStage := [Services; Connections; Scenarios; Review].

Definition activeStageIndex (activeStage : GuidedStage) : nat :=
  match activeStage with Services => 0 | Connections => 1 | Scenarios => 2 | Review => 3 end.
Definition previousStage (activeStage : GuidedStage) : option GuidedStage :=
  match activeStageIndex activeStage with O => None | S i => stages !! i end.
Definition nextStage (activeStage : GuidedStage) : option GuidedStage := stages !! S (activeStageIndex activeStage).

(** In per cent; the quotient is exact. *)
Definition stageProgress (activeStage : GuidedStage) : Z :=
  Z.of_nat (S (activeStageIndex activeStage)) * 100 / Z.of_nat (length stages).

Definition explicitRetryCount (scenarios : list Scenario) : nat :=
  fold_left (fun count s => (count + length (filter (fun t => hasExplicitIdempotencyRetry t = true) (scn_tests s)))%nat) scenarios 0%nat.

(** The stage an error leads to.  No error of the program has an [edgeId]. *)
Definition error_stage (error : TranslationError) : GuidedStage :=
  match te_field error with
  | Some field => if starts_with "tests." field then Scenarios else Services
  | None => Services
  end.

Definition stage_complete (activeStage stage : GuidedStage) (nodes : list FlowNode) (edges : list FlowEdge) : bool :=
  (activeStageIndex stage <? activeStageIndex activeStage)%nat
  || match stage with
     | Services => (0 <? length nodes)%nat
     | Connections => (0 <? length edges)%nat
                      && negb (existsb (fun e => default false (edge_data e ≫= ed_needsReview)) edges)
     | _ => false
     end.

Definition servicePresentation (type : ServiceType) : string :=
  match type with
  | Generic => "Application" | Nginx => "Web server" | Mockserver => "Mock API"
  | Postgres | Mysql | Mariadb => "Database" | Redis | Memcached => "Cache"
  | Kafka | Rabbitmq => "Message broker" | Mongodb => "Document store"
  end.
End GuidedStages.

(** ** The drawer of the services *)
Module NodeDrawer.
Definition nodeTypes : list (ServiceType * string * string) :=
  [(Postgres, "PostgreSQL", "PostgreSQL database service"); (Mariadb, "MariaDB", "MariaDB database service");
   (Mysql, "MySQL", "MySQL database service"); (Redis, "Redis", "Redis cache service");
   (Memcached, "Memcached", "Memcached cache service"); (Kafka, "Kafka", "Kafka queue service");
   (Rabbitmq, "RabbitMQ", "RabbitMQ queue service"); (Mongodb, "MongoDB", "MongoDB document database");
   (Nginx, "Nginx", "Nginx web server and reverse proxy");
   (Mockserver, "MockServer", "HTTP service with configurable mock responses");
   (Generic, "Application", "Your application container image")].

Record NameEdit := MkNameEdit { ne_workflowName : string; ne_isEditingName : bool }.

Definition name_mount (currentWorkflowName : option string) : NameEdit :=
  MkNameEdit (default "Untitled Workflow" currentWorkflowName) false.
Definition name_effect (currentWorkflowName : option string) (s : NameEdit) : NameEdit :=
  MkNameEdit (default "Untitled Workflow" currentWorkflowName) (ne_isEditingName s).
Definition setIsEditingName (s : NameEdit) : NameEdit := MkNameEdit (ne_workflowName s) true.
Definition setWorkflowName (name : string) (s : NameEdit) : NameEdit := MkNameEdit name (ne_isEditingName s).

(** The name handed over, if the handler is there, and the state after the click. *)
Definition handleSaveWorkflowName (handler : bool) (s : NameEdit) : option string * NameEdit :=
  if str_truthy (js_trim (ne_workflowName s)) && handler
  then (Some (js_trim (ne_workflowName s)), MkNameEdit (ne_workflowName s) false)
  else (None, s).
End NodeDrawer.

(** ** The dialog of a connection *)
Module EdgeDialog.
Definition readinessLabels (readiness : string) : option string :=
  assoc_get readiness [("none", "No startup prerequisite"); ("source_requires_target", "Start target first");
                       ("target_requires_source", "Start source first")].
Definition relationLabels (relation : string) : option string :=
  assoc_get relation [("calls", "Calls or sends a request"); ("reads", "Reads data"); ("writes", "Writes data");
                      ("publishes", "Publishes a message"); ("consumes", "Consumes a message")].

(** The data edited: that of the edge, from when the edge is set. *)
Definition data_effect (edge : option FlowEdge) : option EdgeData := edge ≫= edge_data.

Definition set_relation (value : option string) (d : EdgeData) : EdgeData :=
  MkEdgeData (ed_label d) (ed_description d) (ed_protocol d) (Some (default "calls" value)) (ed_readiness d) (ed_needsReview d)
    (ed_showLabel d) (ed_layoutPoints d).
Definition set_protocol (value : string) (d : EdgeData) : EdgeData :=
  MkEdgeData (ed_label d) (ed_description d) (Some value) (ed_relation d) (ed_readiness d) (ed_needsReview d) (ed_showLabel d)
    (ed_layoutPoints d).
Definition set_label (value : string) (d : EdgeData) : EdgeData :=
  MkEdgeData (Some value) (ed_description d) (ed_protocol d) (ed_relation d) (ed_readiness d) (ed_needsReview d) (ed_showLabel d)
    (ed_layoutPoints d).
Definition set_description (value : string) (d : EdgeData) : EdgeData :=
  MkEdgeData (ed_label d) (Some value) (ed_protocol d) (ed_relation d) (ed_readiness d) (ed_needsReview d) (ed_showLabel d)
    (ed_layoutPoints d).
Definition set_readiness (value : option string) (d : EdgeData) : EdgeData :=
  MkEdgeData (ed_label d) (ed_description d) (ed_protocol d) (ed_relation d) (Some (default "none" value)) (ed_needsReview d)
    (ed_showLabel d) (ed_layoutPoints d).
End EdgeDialog.

(** ** The dialog of the versions *)
Module VersionsDialog.
Record WorkflowRevision := MkRevision {
  rev_id : string; rev_number : Z; rev_workflow_version : Z; rev_message : string; rev_created_by : string; rev_created_at : string
}.

Inductive Toast := ToastSuccess (message : string) | ToastError (message : string).

Record Dialog := MkVersions {
  vd_revisions : list WorkflowRevision;
  vd_loading : bool;
  vd_busy : bool;
  vd_open : bool;
  vd_toasts : list Toast
}.

Definition setRevisions (l : list WorkflowRevision) (d : Dialog) : Dialog :=
  MkVersions l (vd_loading d) (vd_busy d) (vd_open d) (vd_toasts d).
Definition setLoading (b : bool) (d : Dialog) : Dialog := MkVersions (vd_revisions d) b (vd_busy d) (vd_open d) (vd_toasts d).
Definition setBusy (b : bool) (d : Dialog) : Dialog := MkVersions (vd_revisions d) (vd_loading d) b (vd_open d) (vd_toasts d).
Definition onOpenChange (b : bool) (d : Dialog) : Dialog := MkVersions (vd_revisions d) (vd_loading d) (vd_busy d) b (vd_toasts d).
Definition toast (t : Toast) (d : Dialog) : Dialog :=
  MkVersions (vd_revisions d) (vd_loading d) (vd_busy d) (vd_open d) (vd_toasts d ++ [t]).

(** The state is that of the rest of the program [E] and the dialog.  The service behind
    the requests, the flush of the queue and the reading of the entities are given. *)
Section Handlers.
Context {E : Type} (fetcher : ApiRequest -> E -> res (ApiReply (list WorkflowRevision)) * E)
  (flushPending : E -> E) (hydrateFromServer : E -> res unit * E) (engine_text : js_error -> string).
Notation P := (Proc (E * Dialog)).

Definition on_dialog (f : Dialog -> Dialog) : P unit := Await (fun s => (tt, (s.1, f s.2))) (fun _ => mret tt).
Definition send (request : ApiRequest) : P (ApiReply (list WorkflowRevision)) :=
  Await (fun s => let '(r, e) := fetcher request s.1 in (r, (e, s.2))) (fun r => Done r).
Definition flush : P unit := Await (fun s => (tt, (flushPending s.1, s.2))) (fun _ => mret tt).
Definition hydrate : P unit := Await (fun s => let '(r, e) := hydrateFromServer s.1 in (r, (e, s.2))) (fun r => Done r).

(** [toast.error(error instanceof Error ? error.message : ...)]; what is thrown here is an
    [Error], and the text of one that the language raises is the engine's. *)
Definition failed (e : js_error) : P unit :=
  on_dialog (toast (ToastError (match e with JsError m => m | _ => engine_text e end))).

Definition revisions_path (workflowId : string) : list string := ["api"; "v1"; "workflows"; workflowId; "revisions"].

Definition load (workflowId projectId : string) : P unit :=
  on_dialog (setLoading true);;
  catch (response ← send (MkApiRequest "GET" (revisions_path workflowId) [("projectId", projectId)] None);
         if negb (rp_ok response) then throw (JsError "Could not load workflow versions")
         else match rp_json response with
              | None => throw JsSyntaxError
              | Some revisions => on_dialog (setRevisions revisions)
              end)
        failed;;
  on_dialog (setLoading false).

Definition saveVersion (workflowId projectId : string) : P unit :=
  on_dialog (setBusy true);;
  catch (flush;;
         response ← send (MkApiRequest "POST" (revisions_path workflowId) [("projectId", projectId)] 
                            (Some (json_text (JObj [("message", JStr "Manual checkpoint")]))));
         if negb (rp_ok response) then throw (JsError "Could not save this version")
         else on_dialog (toast (ToastSuccess "Workflow version saved"));; load workflowId projectId)
        failed;;
  on_dialog (setBusy false).

(** The body is the project and the version the dialog was shown with. *)
Definition restore (workflowId projectId : string) (workflowVersion : Z) (revision : WorkflowRevision) : P unit :=
  on_dialog (setBusy true);;
  catch (flush;;
         response ← send (MkApiRequest "POST" (revisions_path workflowId ++ [rev_id revision; "restore"]) []
                            (Some (json_text (JObj [("projectId", JStr projectId); ("expectedVersion", JNum workflowVersion)]))));
         if (rp_status response =? 409) then throw (JsError "The workflow changed. Reload it before restoring a version.")
         else if negb (rp_ok response) then throw (JsError "Could not restore this version")
         else hydrate;;
              on_dialog (toast (ToastSuccess ("Restored version " +:+ pretty (rev_number revision))));;
              on_dialog (onOpenChange false))
        failed;;
  on_dialog (setBusy false).

(** The effect that loads the list when the dialog opens. *)
Definition open_effect (workflowId projectId : string) (open : bool) : P unit :=
  if open then load workflowId projectId else mret tt.

(** Where there is a button for a version, and what it is called. *)
Definition button_usable (canEdit : bool) (d : Dialog) : bool := canEdit && negb (vd_busy d).
Definition version_title (index : nat) (r : WorkflowRevision) : string :=
  "Version " +:+ pretty (rev_number r) +:+ (if (index =? 0)%nat then " Latest" else "").
Definition version_text (r : WorkflowRevision) : string := if str_truthy (rev_message r) then rev_message r else "Checkpoint".
End Handlers.
End VersionsDialog.

(** * What the smaller dialogs guarantee *)

Module StageFacts.
Import Experience GuidedStages.

(** Going on and going back are inverse, and end at the first and the last stage. *)
Lemma stages_chain a b : (nextStage a = Some b <-> previousStage b = Some a)
  /\ (previousStage a = None <-> a = Services) /\ (nextStage a = None <-> a = Review).
Proof. destruct a, b; vm_compute; intuition congruence. Qed.

Lemma progress_steps a : 0 < stageProgress a <= 100 /\ (stageProgress a = 100 <-> a = Review)
  /\ forall b, nextStage a = Some b -> stageProgress b = stageProgress a + 25.
Proof.
  destruct a; vm_compute; split_and!; try (intuition congruence); intros []; congruence.
Qed.

Lemma explicit_retries scenarios :
  explicitRetryCount scenarios = length (filter (fun t => hasExplicitIdempotencyRetry t = true) (concat (map scn_tests scenarios))).
Proof.
  unfold explicitRetryCount. enough (H : forall n, fold_left (fun count s => (count + length (filter (fun t => hasExplicitIdempotencyRetry t = true)
    (scn_tests s)))%nat) scenarios n = (n + length (filter (fun t => hasExplicitIdempotencyRetry t = true) (concat (map scn_tests scenarios))))%nat)
    by apply (H 0%nat).
  induction scenarios as [|s l IH]; intros n; cbn [fold_left map concat]; [cbn; lia|].
  rewrite IH, filter_app, length_app. lia.
Qed.

(** The error of a workflow whose services wait for each other leads to the services, and
    so does that of a scenario without a name. *)
Example errors_misled nodeId :
  error_stage (MkTranslationError nodeId "Scenario must have a name" (Some "name")) = Services
  /\ error_stage (MkTranslationError nodeId "cycle" None) = Services
  /\ forall e, error_stage e <> Connections.
Proof. split_and!; [done..|]. intros e. unfold error_stage. by repeat case_match. Qed.

(** Every kind of service is offered, once. *)
Lemma services_offered t : t ∈ map (fun x => x.1.1) NodeDrawer.nodeTypes /\ NoDup (map (fun x => x.1.1) NodeDrawer.nodeTypes).
Proof. split; apply (bool_decide_unpack _); [by destruct t; vm_compute|by vm_compute]. Qed.

(** A name that is handed over is trimmed and not blank. *)
Lemma saved_name handler s name s' : NodeDrawer.handleSaveWorkflowName handler s = (Some name, s') ->
  name = js_trim (NodeDrawer.ne_workflowName s) /\ name <> "" /\ NodeDrawer.ne_isEditingName s' = false.
Proof.
  unfold NodeDrawer.handleSaveWorkflowName. destruct (str_truthy _) eqn:E; cbn; [|done]. destruct handler; [|done].
  intros [= <- <-]. split_and!; [done|by apply str_truthy_spec|done].
Qed.

(** Each relation and each rule can be chosen by its label. *)
Lemma edge_labels r : (r ∈ EDGE_RELATIONS <-> is_Some (EdgeDialog.relationLabels r))
  /\ (r ∈ EDGE_READINESS_OPTIONS <-> is_Some (EdgeDialog.readinessLabels r)).
Proof.
  unfold EDGE_RELATIONS, EDGE_READINESS_OPTIONS, EdgeDialog.relationLabels, EdgeDialog.readinessLabels, assoc_get.
  rewrite !elem_of_cons, elem_of_nil. split; repeat case_decide; subst; split; intros Hr; try done; try tauto; try (by destruct Hr).
Qed.
End StageFacts.

Module VersionFacts.
Import VersionsDialog.

Section Versions.
Context {E : Type} (fetcher : ApiRequest -> E -> res (ApiReply (list WorkflowRevision)) * E)
  (flushPending : E -> E) (hydrateFromServer : E -> res unit * E) (engine_text : js_error -> string).

Lemma run_on_dialog f (s : E * Dialog) : run (on_dialog f) s = (Return tt, (s.1, f s.2)).
Proof. done. Qed.
Lemma run_flush_step (s : E * Dialog) : run (flush flushPending) s = (Return tt, (flushPending s.1, s.2)).
Proof. done. Qed.
Lemma run_send_step request (s : E * Dialog) : run (send fetcher request) s = ((fetcher request s.1).1, ((fetcher request s.1).2, s.2)).
Proof. unfold send. cbn [run]. by destruct (fetcher request s.1). Qed.
Lemma run_hydrate (s : E * Dialog) : run (hydrate hydrateFromServer) s = ((hydrateFromServer s.1).1, ((hydrateFromServer s.1).2, s.2)).
Proof. unfold hydrate. cbn [run]. by destruct (hydrateFromServer s.1). Qed.

Definition text_of (e : js_error) : string := match e with JsError m => m | _ => engine_text e end.

(** What a list that was asked for makes of the dialog. *)
Definition loaded (r : res (ApiReply (list WorkflowRevision))) (d : Dialog) : Dialog :=
  setLoading false
    (match r with
     | Throw e => toast (ToastError (text_of e)) (setLoading true d)
     | Return response =>
         if negb (rp_ok response) then toast (ToastError "Could not load workflow versions") (setLoading true d)
         else match rp_json response with
              | None => toast (ToastError (engine_text JsSyntaxError)) (setLoading true d)
              | Some l => setRevisions l (setLoading true d)
              end
     end).

Lemma load_run w p e d : run (load fetcher engine_text w p) (e, d)
  = (Return tt, ((fetcher (MkApiRequest "GET" (revisions_path w) [("projectId", p)] None) e).2,
      loaded (fetcher (MkApiRequest "GET" (revisions_path w) [("projectId", p)] None) e).1 d)).
Proof.
  unfold load. rewrite run_bind, run_on_dialog, run_bind, run_catch, run_bind, run_send_step. cbn [fst snd].
  destruct (fetcher _ e) as [[response|err] e']; cbn [fst snd]; [|done].
  unfold loaded. destruct (negb (rp_ok response)); [done|]. by destruct (rp_json response).
Qed.

Lemma load_spares_busy r d : vd_busy (loaded r d) = vd_busy d /\ vd_loading (loaded r d) = false /\ vd_open (loaded r d) = vd_open d.
Proof. unfold loaded. repeat case_match; done. Qed.

Definition post (w p : string) : ApiRequest :=
  MkApiRequest "POST" (revisions_path w) [("projectId", p)] (Some (Json.json_text (JObj [("message", JStr "Manual checkpoint")]))).
Definition restore_post (w p : string) (version : Z) (r : WorkflowRevision) : ApiRequest :=
  MkApiRequest "POST" (revisions_path w ++ [rev_id r; "restore"]) []
    (Some (Json.json_text (JObj [("projectId", JStr p); ("expectedVersion", JNum version)]))).

Definition answered (r : res (ApiReply (list WorkflowRevision))) : bool :=
  match r with Return response => rp_ok response | Throw _ => false end.

(** Saving a version ends, whatever fails, with the buttons usable again; it says that the
    version is saved exactly when the service has stored it, and then shows the list
    that the service has afterwards. *)
Theorem version_saved w p e d :
  let r := fetcher (post w p) (flushPending e) in
  exists e' d', run (saveVersion fetcher flushPending engine_text w p) (e, d) = (Return tt, (e', d'))
  /\ vd_busy d' = false /\ vd_open d' = vd_open d
  /\ (if answered r.1
      then d' = setBusy false (loaded (fetcher (MkApiRequest "GET" (revisions_path w) [("projectId", p)] None) r.2).1
                  (toast (ToastSuccess "Workflow version saved") (setBusy true d)))
      else exists m, vd_toasts d' = vd_toasts d ++ [ToastError m] /\ vd_revisions d' = vd_revisions d).
Proof.
  cbn zeta. unfold saveVersion. rewrite run_bind, run_on_dialog, run_bind, run_catch, run_bind, run_flush_step, run_bind, run_send_step.
  cbn [fst snd]. fold (post w p). destruct (fetcher (post w p) (flushPending e)) as [[response|err] e1]; cbn [fst snd answered].
  - destruct (rp_ok response) eqn:Eo; cbn [negb].
    + rewrite run_bind, run_on_dialog, load_run. cbn [fst snd].
      eexists _, _. split; [reflexivity|]. split; [done|]. split; [|done].
      unfold setBusy. cbn [fst snd vd_open]. by rewrite (proj2 (proj2 (load_spares_busy _ _))).
    + eexists _, _. split; [reflexivity|]. split; [done|]. split; [done|]. by eexists.
  - eexists _, _. split; [reflexivity|]. split; [done|]. split; [done|]. by eexists.
Qed.

(** Restoring a version closes the dialog exactly when the service has restored it and
    the entities were read again; a workflow that changed meanwhile is reported as such. *)
Theorem version_restored w p version rev e d :
  let r := fetcher (restore_post w p version rev) (flushPending e) in
  exists e' d', run (restore fetcher flushPending hydrateFromServer engine_text w p version rev) (e, d) = (Return tt, (e', d'))
  /\ vd_busy d' = false /\ vd_revisions d' = vd_revisions d
  /\ (vd_open d = true -> vd_open d' = false <-> answered r.1 = true /\ (hydrateFromServer r.2).1 = Return tt)
  /\ (forall response, r.1 = Return response -> rp_status response = 409 ->
       vd_toasts d' = vd_toasts d ++ [ToastError "The workflow changed. Reload it before restoring a version."] /\ vd_open d' = vd_open d).
Proof.
  cbn zeta. unfold restore. rewrite run_bind, run_on_dialog, run_bind, run_catch, run_bind, run_flush_step, run_bind, run_send_step.
  cbn [fst snd]. fold (restore_post w p version rev).
  destruct (fetcher (restore_post w p version rev) (flushPending e)) as [[response|err] e1]; cbn [fst snd answered].
  2: { eexists _, _. split; [reflexivity|]. cbn. split_and!; try done. intros ->. intuition congruence. }
  destruct (rp_status response =? 409) eqn:E4; [apply Z.eqb_eq in E4|apply Z.eqb_neq in E4].
  { assert (Eo : rp_ok response = false) by (unfold rp_ok; by rewrite E4).
    eexists _, _. split; [reflexivity|]. cbn. rewrite Eo. split_and!; try done. intros ->. intuition congruence. }
  destruct (rp_ok response) eqn:Eo; cbn [negb].
  2: { eexists _, _. split; [reflexivity|]. cbn. split_and!; try done; [intros ->; intuition congruence|]. intros ? [= <-]. done. }
  rewrite run_bind, run_hydrate. cbn [fst snd]. destruct (hydrateFromServer e1) as [[[]|err] e2]; cbn [fst snd].
  - eexists _, _. split; [reflexivity|]. cbn. split_and!; try done. intros ? [= <-]. done.
  - eexists _, _. split; [reflexivity|]. cbn. split_and!; try done; [intros ->; intuition congruence|]. intros ? [= <-]. done.
Qed.
End Versions.

(** The flush may leave changes unsent without a word: the version is then saved without
    them, and is said to be saved. *)
Example version_saved_unsent :
  let fetcher (r : ApiRequest) (unsent : list string) := (Return (MkReply 200 (Some []) None), unsent) in
  let d := MkVersions [] false false true [] in
  match run (saveVersion fetcher (fun unsent => unsent) (fun _ => "") "w" "p") (["edit"], d) with
  | (_, (unsent, d')) => unsent = ["edit"] /\ vd_toasts d' = [ToastSuccess "Workflow version saved"]
  end.
Proof. by vm_compute. Qed.
End VersionFacts.

Module JourneyFacts.
Import JourneyPanel.
Section Facts.
Context (localeCompare : string -> string -> Z) `{!Comparator (newest_result localeCompare)}.

Lemma keep_first_lookup l acc name :
  fold_left keep_first l acc !! name
  = match acc !! name with Some r => Some r | None => List.find (fun r => bool_decide (testName r = name)) l end.
Proof.
  revert acc. induction l as [|r l IH]; intros acc; cbn [fold_left List.find]; [by destruct (acc !! name)|].
  rewrite IH. unfold keep_first. destruct (acc !! testName r) as [r'|] eqn:Er.
  - destruct (acc !! name) eqn:En; [done|]. rewrite bool_decide_eq_false_2 by congruence. done.
  - rewrite jlookup_insert. case_decide as Hn; [subst name; by rewrite Er, bool_decide_eq_true_2|].
    by rewrite bool_decide_eq_false_2.
Qed.

(** The first of a sorted list that has a property comes before every other that has it. *)
Lemma find_sorted {A} (R : A -> A -> Prop) (p : A -> bool) l x : StronglySorted R l -> List.find p l = Some x ->
  forall y, y ∈ l -> p y = true -> x = y \/ R x y.
Proof.
  induction 1 as [|a l Hs IH Ha]; cbn [List.find]; [done|]. destruct (p a) eqn:Ep.
  - intros [= ->] y [->|Hy]%elem_of_cons _; [by left|right]. by apply (proj1 (Forall_forall _ _) Ha).
  - intros Hf y [->|Hy]%elem_of_cons Hp; [congruence|by apply IH].
Qed.

(** The journey shows the steps in the order in which the runner gets them, and at each
    the newest result that is stored for its name, or none where there is none. *)
Theorem journey_shows_latest v scenario : activeScenario localeCompare v = Some scenario -> NoDup (map test_id (scn_tests scenario)) ->
  steps scenario = orderTests (scn_tests scenario) (scn_testOrder scenario)
  /\ forall name, let own r := r ∈ jvalues (jv_testResults v) /\ is_deleted (TestResultStore.tr_meta r) = false
       /\ TestResultStore.tr_scenarioId (TestResultStore.tr_input r) = Some (scn_id scenario) /\ testName r = name in
     match latestResults localeCompare v !! name with
     | Some r => own r /\ forall r', own r' -> r = r' \/ cmp_le (newest_result localeCompare) r r'
     | None => forall r, ~ own r
     end.
Proof.
  intros Ha Hn. split; [by apply journey_is_run_order|]. intros name. cbn zeta. unfold latestResults. rewrite Ha, keep_first_lookup.
  cbn. assert (Hm : forall r, r ∈ matching localeCompare v scenario <-> r ∈ jvalues (jv_testResults v)
    /\ is_deleted (TestResultStore.tr_meta r) = false /\ TestResultStore.tr_scenarioId (TestResultStore.tr_input r) = Some (scn_id scenario)).
  { intros r. unfold matching. rewrite elem_of_js_sort, list_elem_of_filter. tauto. }
  destruct (List.find _ _) as [r|] eqn:Ef.
  - pose proof Ef as [Hin%list_elem_of_In Hr]%List.find_some. bools. apply Hm in Hin. split; [tauto|].
    intros r' (Hv & Hd & Hs & Hr'). eapply (find_sorted _ _ (matching localeCompare v scenario)); [apply js_sort_sorted; apply _|done| |].
    + apply Hm. tauto.
    + by apply bool_decide_eq_true.
  - intros r (Hv & Hd & Hs & Hr). assert (Hin : r ∈ matching localeCompare v scenario) by (apply Hm; tauto).
    apply list_elem_of_In, (List.find_none _ _ Ef) in Hin. by bools.
Qed.
End Facts.
End JourneyFacts.

Module CanvasViewFacts.
Import CanvasView.

(** The canvas and the translation name services alike. *)
Lemma names_agree value : normalizeServiceName value = sanitizeName value.
Proof. done. Qed.

Lemma elem_of_add_ends id edges ids n :
  n ∈ fold_left (add_ends id) edges ids <-> n ∈ ids \/ exists e, e ∈ edges /\ touches id e = true /\ (n = edge_source e \/ n = edge_target e).
Proof.
  revert ids. induction edges as [|e l IH]; intros ids; cbn [fold_left].
  { split; [by left|]. intros [H|(e & He & _)]; [done|by apply elem_of_nil in He]. }
  rewrite IH. unfold add_ends. destruct (touches id e) eqn:Et; [rewrite !elem_of_set_add|]; setoid_rewrite elem_of_cons; split.
  - intros [[H|[H|H]]|(e' & He & Hr)]; [right; exists e; tauto|right; exists e; tauto|by left|right; exists e'; tauto].
  - intros [H|(e' & [->|He] & Hr)]; [tauto|tauto|right; by exists e'].
  - intros [H|(e' & He & Hr)]; [by left|right; exists e'; tauto].
  - intros [H|(e' & [->|He] & Ht & Hr)]; [by left|congruence|right; by exists e'].
Qed.

(** A selected service stays bright together with the services at the other end of its
    connections, every connection of it is shown with a label, and everything else fades. *)
Theorem selection_highlights id nodes edges mode focus : str_truthy id = true ->
  exists ids, activeNodeIds (Some id) focus nodes edges = Return (Some ids)
  /\ (forall node, node_opacity (Some ids) node = 100 <->
        node_id node = id \/ exists e, e ∈ edges /\ ((edge_source e = id /\ edge_target e = node_id node)
                                                   \/ (edge_target e = id /\ edge_source e = node_id node)))
  /\ forall e, let shown := display_edge (Some id) (Some ids) mode e in
       if touches id e then de_opacity shown = 95 /\ de_showLabel shown = true
       else de_opacity shown = 6 /\ (de_showLabel shown = true <-> mode = Detail).
Proof.
  intros Ht. eexists. unfold activeNodeIds. cbn [ostr_truthy]. rewrite Ht. split; [done|]. split.
  - intros node. unfold node_opacity, set_has. case_bool_decide as Hin.
    + split; [intros _|done]. apply elem_of_add_ends in Hin as [->%list_elem_of_singleton|(e & He & Hte & Hn)]; [by left|].
      unfold touches in Hte. rewrite orb_true_iff, !bool_decide_eq_true in Hte.
      destruct Hte as [Hs|Hs], Hn as [Hn|Hn]; [left; congruence|right; exists e; auto|right; exists e; auto|left; congruence].
    + split; [done|]. intros Hn. destruct Hin. apply elem_of_add_ends. rewrite list_elem_of_singleton.
      destruct Hn as [->|(e & He & Hn)]; [by left|right]. exists e. unfold touches. rewrite orb_true_iff, !bool_decide_eq_true. intuition congruence.
  - intros e. unfold display_edge, connected. cbn [ostr_truthy]. rewrite Ht. destruct (touches id e); cbn; [by destruct mode|].
    split; [done|]. by destruct mode.
Qed.

(** Focusing on a scenario keeps the services bright that its steps name. *)
Theorem focus_highlights names nodes edges : names <> [] -> Forall (fun n => is_Some (nd_label (node_data n))) nodes ->
  NoDup (map node_id nodes) ->
  exists ids, activeNodeIds None (Some names) nodes edges = Return (Some ids)
  /\ forall node label, node ∈ nodes -> nd_label (node_data node) = Some label ->
       (node_opacity (Some ids) node = 100 <-> sanitizeName label ∈ names).
Proof.
  intros Hne Hl Hn.
  assert (Hmark : res_map (fun node => b ← focused_node (set_of_list names) node; Return (b, node_id node)) nodes
    = Return (map (fun node => (set_has (sanitizeName (default "" (nd_label (node_data node)))) (set_of_list names), node_id node)) nodes)).
  { induction Hl as [|node l [label Hlab] Hl IH]; [done|]. cbn [res_map map] in *. apply NoDup_cons in Hn as [_ Hn].
    unfold focused_node at 1. rewrite Hlab. cbn. by rewrite IH by done. }
  assert (Hset : forall y, y ∈ set_of_list names <-> y ∈ names) by (intros; apply elem_of_set_of_list).
  assert (Ha : activeNodeIds None (Some names) nodes edges = ids ← focused_ids (set_of_list names) nodes; Return (Some ids)) by (by destruct names).
  rewrite Ha. unfold focused_ids. rewrite Hmark. clear Hmark Ha. generalize dependent (set_of_list names). intros f Hset.
  eexists. split; [done|]. intros node label Hin Hlab. unfold node_opacity, set_has.
  case_bool_decide as Hids.
  - split; [intros _|done]. rewrite elem_of_set_of_list, list_elem_of_fmap in Hids.
    destruct Hids as ([b id] & Hid & (Hb & (n & [= -> ->] & Hn')%list_elem_of_fmap)%list_elem_of_filter). cbn in Hid, Hb.
    assert (n = node) as -> by (by apply (key_unique node_id nodes)). rewrite Hlab in Hb. cbn in Hb.
    unfold set_has in Hb. bools. by apply Hset.
  - split; [done|]. intros Hname. destruct Hids. rewrite elem_of_set_of_list, list_elem_of_fmap. exists (true, node_id node).
    split; [done|]. apply list_elem_of_filter. split; [done|]. apply list_elem_of_fmap. exists node. split; [|done].
    rewrite Hlab. cbn. f_equal. symmetry. unfold set_has. apply bool_decide_eq_true. by apply Hset.
Qed.
End CanvasViewFacts.
